(* ===== verification/_CoqProject ===== *)
-Q . S2P
Prelude.v
Words.v
Platform.v
State.v
Machine.v
Keeps.v
RefillList.v
Sporadic.v
Budget.v
DList.v
Queues.v
QueueSpec.v
Bitmap.v
ReadyQueues.v
CapOps.v
CSpace.v
VSpace.v
Thread.v
CNode.v
Message.v
SchedContext.v
Reply.v
Notification.v
Endpoint.v
Delete.v
CNodeInv.v
Untyped.v
BootMemory.v
MmuInv.v
Domain.v
Interrupt.v
SchedControl.v
TcbInv.v
Boot.v
BootInit.v
Syscall.v
Traps.v
Fastpath.v
Frames.v
Invariant.v
InvariantCore.v
InvariantIpc.v
InvariantDelete.v
InvariantKernel.v
Example.v
FieldSpec.v
KernelSpec.v
BootInv.v
BootRegions.v
BootTrim.v
BootObjects.v
BootUntyped.v
BootGrant.v
BootExample.v
PageTable.v
DomainSpec.v
UntypedSpec.v
IpcSpec.v
SchedSpec.v
AwakenSpec.v
CSpaceSpec.v
FastpathSpec.v
FastpathCall.v
FastpathEq.v
MdbSpec.v
CapSpec.v
LibSel4.v
Microkit.v
MicrokitSpec.v
MicrokitTrace.v
Monitor.v
MonitorSpec.v
Loader.v
LoaderSpec.v
LoaderBoot.v
Smp.v
SmpLock.v
SmpIpi.v
SmpBarrier.v
