(* ===== verification/Prelude.v ===== *)
(** * A model of the seL4 kernel and the Microkit runtime, and their correctness

    This library models the microkernel under [src/kernel/] (the C kernel of seL4 with
    mixed-criticality scheduling) and the C programs that the Microkit runs around it: the
    boot loader, the monitor and the runtime of protection domains under [src/root/], with
    the system call stubs of [src/libkerl/libsel4/]. The configuration is a
    uniprocessor 64-bit RISC-V kernel with three page table levels ([CONFIG_KERNEL_MCS],
    no floating point, no debugging or benchmark code, assertions on) on a
    board with the PLIC driver [riscv_plic0.h]; the big kernel lock and the remote calls of
    the multiprocessor kernel are a model of their own. Names of kernel files below are
    relative to [src/kernel/].

    ** How the code is modelled

    A C function is a value of the state monad [M] defined in this file: it maps the
    state on entry to a value and the state on exit, or it is [Stuck]: on a failed
    assertion, on an access through a pointer to no such object, or out of fuel. The
    definitions follow the C functions statement by statement, keep their names, and can
    be evaluated. [State.v] holds the state: one typed heap per kind of object, keyed by
    address, the kernel's global variables, the words of memory (page tables, ASID pools,
    user frames) and the devices. Machine words are [Z] with the wrap-around written out
    ([Words.v]). A [while] loop runs at most [2^64] iterations ([while64]), more than any
    loop over distinct addresses or shrinking words can take; the loops in the theorems
    about termination are shown to return within it. Recursion along page table levels,
    message registers and capability addresses is structural, and [cteDelete] is unrolled
    to the depth it can reach ([Delete.v] says why).

    [Platform.v] is the interface to what the source tree does not contain: the class
    [Platform] gathers configuration options, board figures and addresses of the linker,
    and [PlatformOk] the few facts a sensible build guarantees. Device inputs (clock,
    pending interrupts, memory-mapped registers) are arbitrary functions of the number of
    earlier reads.

    ** The parts of the kernel

    - [Platform.v], [Machine.v]: time and addresses, control registers, interrupt
      controller ([include/arch/riscv/arch/machine/timer.h], [arch/riscv/machine/hardware.c],
      [include/drivers/irq/riscv_plic0.h]).
    - [Sporadic.v]: the replenishments of a scheduling context ([kernel/sporadic.c]).
    - [Queues.v]: ready queues, release queue, endpoint queues and the priority bitmap
      ([object/tcb.c], [include/object/tcb.h], [include/kernel/thread.h]).
    - [Thread.v]: choosing and switching threads, domains, time ([kernel/thread.c]).
    - [CapOps.v], [CSpace.v], [CNode.v], [CNodeInv.v], [Delete.v]: capabilities, their
      lookup, the mapping database, CNode invocations, deletion and revocation
      ([object/objecttype.c], [kernel/cspace.c], [object/cnode.c], [model/preemption.c]).
    - [VSpace.v], [MmuInv.v]: page tables, ASIDs and their invocations
      ([arch/riscv/kernel/vspace.c]).
    - [Message.v], [Endpoint.v], [Notification.v], [Reply.v], [SchedContext.v],
      [SchedControl.v]: message transfer and faults, IPC, signals, the call stack and
      scheduling contexts ([object/endpoint.c], [object/notification.c], [object/reply.c],
      [object/schedcontext.c], [object/schedcontrol.c], [api/faults.c],
      [kernel/faulthandler.c]).
    - [Untyped.v], [Domain.v], [Interrupt.v], [TcbInv.v]: the other objects
      ([object/untyped.c], [object/domain.c], [object/interrupt.c], [object/tcb.c]).
    - [Syscall.v], [Traps.v]: the events and the way in from user level ([api/syscall.c],
      [arch/riscv/c_traps.c], [arch/riscv/traps.S]).
    - [Fastpath.v]: the IPC fast path and the trap entry that leads to it
      ([fastpath/fastpath.c], [include/fastpath/fastpath.h]).

    - [BootMemory.v], [Boot.v], [BootInit.v]: boot from the call of the loader to the
      first return to user mode: dividing the memory map, the kernel's own mappings, the
      objects, capabilities and address space of the first thread, boot info, and the
      untyped capabilities over the rest of memory ([kernel/boot.c],
      [arch/riscv/kernel/boot.c], the boot part of [arch/riscv/kernel/vspace.c]). The
      state is [Boot.boot_state], the kernel state with the variables of the boot code.

    - [Smp.v]: the kernel lock and the interprocessor interrupts of several cores, as steps
      that interleave in any order ([include/smp/lock.h], [smp/lock.c], [smp/ipi.c],
      [arch/riscv/smp/ipi.c]).

    [Traps.trap_entry] is the whole kernel entry: it saves the registers of the current
    thread, runs the handler of the event, which ends in [schedule] and [activateThread],
    and returns the registers of the thread that runs next.

    ** The programs around the kernel

    - [Loader.v]: the boot loader, from [main] to the jump into the kernel, over memory as
      bytes ([src/root/loader/src/loader.c], [cutil.c], [uart.c], [riscv/]).
    - [LibSel4.v]: the stubs that put message words into registers and the IPC buffer
      around a system call ([src/libkerl/libsel4/arch_include/riscv/sel4/arch/syscalls.h],
      [include/sel4/functions.h]). What the kernel answers is an argument, so that theorems
      hold for every answer.
    - [Microkit.v]: the operations of a protection domain on its channels and children and
      the event loop ([src/root/libmicrokit/include/microkit.h], [src/main.c]); the entry
      points [init], [notified], [protected] and [fault] are programs over the operations.
    - [Monitor.v]: the monitor, which takes in passive domains and reports faults
      ([src/root/monitor/src/main.c], [util.c]).

    ** What is proved

    - The system ([Keeps.v], [Frames.v], [Invariant*.v], [KernelSpec.v]): [Keeps.v] is a
      logic for invariants, [Invariant.v] states the invariant [kernel_inv] of the kernel
      state (ranges of priorities, domains, capability fields, schedule and tables), the
      three files after it prove that each kernel function keeps it, and [KernelSpec.v]
      concludes it for every reachable state of the transition system of traps and user
      steps, with its consequences: priorities stay confined, derived capabilities are
      well-formed, the messages of cap faults carry a constant reason (a flaw of the code).
    - Scheduling ([DList.v], [QueueSpec.v], [Bitmap.v], [ReadyQueues.v], [SchedSpec.v],
      [AwakenSpec.v]): the linked queues implement lists, the bitmap agrees with them,
      [chooseThread] runs the first thread of the highest occupied priority in its own
      address space, and [awaken] releases exactly the threads whose time has come.
    - Budgets ([RefillList.v], [Budget.v]): the refill buffer implements a queue, and
      accounting keeps the invariant of a sporadic server.
    - Domains ([DomainSpec.v]): the schedule visits each of its entries.
    - Capabilities ([CSpaceSpec.v], [MdbSpec.v], [CapSpec.v]): lookup refines
      a walk over bit strings, the mapping database stays a set of doubly linked chains,
      and CNode operations never add authority.
    - Memory ([PageTable.v], [UntypedSpec.v]): page table updates against the walk of the
      hardware (Sv39), where new objects are placed and what a retype leaves behind, and the
      reset of untyped memory.
    - Communication ([IpcSpec.v]): waiting at endpoints, signals, message words.
    - The fast path ([FastpathSpec.v], [FastpathCall.v], [FastpathEq.v]):
      its capability lookup agrees with the general one, and a call ends in the same state
      with the same registers as the whole slow path, from the capability lookup over the
      message transfer and the scheduler to the return to user mode. The ASID of the
      receiver must be valid for this: without that the fast path installs a stale page
      table (a flaw of the code).
    - Boot ([BootInv.v], [BootRegions.v], [BootTrim.v], [BootObjects.v], [BootUntyped.v],
      [BootGrant.v]): a boot that reaches
      user level establishes [kernel_inv], so the theorems about reachable states start
      from what the loader hands over. Memory is shared out correctly: the reserved
      regions stay sorted and apart, the free memory is the available memory without them,
      the objects of the first thread fill a part of it without a gap, and the untyped
      objects given to the first thread do not overlap and lie within the memory that
      nothing else uses (they are all of it when boot info has room and the boundaries are
      multiples of the least untyped object).
    - Words and devices ([Words.v], [FieldSpec.v], [Machine.v]): bit searches, packed
      fields, the active interrupt.
    - Several cores ([SmpLock.v], [SmpIpi.v], [SmpBarrier.v]): the cores get the kernel lock
      in the order in which they came to its line, and when a remote call returns every core
      it was meant for has handled it once, and nobody else has. What they have run is that
      call if no interrupt of an earlier one was left over; otherwise a core may have run
      the earlier one (a flaw of the code).
    - The boot loader ([LoaderSpec.v], [LoaderBoot.v]): [memmove] copies as if through a
      buffer, the regions of a checked image end up at their places, the other cores start
      once each, and the kernel is entered with the arguments it expects.
    - Protection domains ([MicrokitSpec.v], [MicrokitTrace.v]): messages are dispatched as
      their badges say, a domain makes only system calls on its channels, its input, the
      children that its code names and, if it is passive, the monitor; it answers each
      protected call, whatever its code does, and the event loop never stops.
    - The monitor ([MonitorSpec.v]): it touches only the capabilities of the domain that
      asks or faulted, and the words of a fault message that the kernel wrote come out on
      the console.

    [Example.v] is a small concrete state on which the theorems are instantiated, and
    [BootExample.v] a board on which the boot code is run.

    ** Not modelled

    The rest of multiprocessor support (the scheduler's choice of a core, the part of boot
    that starts the other cores); the fast paths for signals and faults, which the
    configuration leaves out; the x86 and ARM ports and their drivers; floating point;
    debugging, benchmarking and console output of the kernel, which the configuration compiles
    out; start code in assembly; the stubs of [src/libkerl/] for invocations that the
    Microkit does not make; and the tool of the Microkit, a Rust program that builds images,
    with the example programs. Memory is typed: the contents of
    kernel objects cannot be read as bytes, the bit packing that
    [tools/bitfield_gen.py] generates is modelled only where words cross the user
    interface or reach the hardware (message tags, capability rights and data, page table
    entries), and cache and TLB maintenance has no effect in the model. *)
From Stdlib Require Export ZArith Lia.
From stdpp Require Export base numbers option gmap list.
Open Scope Z_scope.
#[export] Set Warnings "-clear-no-such-hyp".

(** ** Outcomes and the kernel's state-and-failure monad

    A C function of the kernel becomes a value of [M Σ A]: it maps the state
    on entry to the returned value and the state on exit, or it gets [Stuck].
    [Stuck AssertFailed] is a failed [assert] or a reached [fail],
    [Stuck BadPointer] is an access through a pointer to no object of that type,
    [Stuck OutOfFuel] is a loop that used up the iterations of its model. *)
Inductive fault := AssertFailed | BadPointer | OutOfFuel.

Inductive outcome (Σ A : Type) :=
  | Done (a : A) (s : Σ)
  | Stuck (f : fault).
Arguments Done {Σ A} a s.
Arguments Stuck {Σ A} f.

Definition M (Σ A : Type) : Type := Σ → outcome Σ A.

#[global] Instance M_ret Σ : MRet (M Σ) := λ A a s, Done a s.
#[global] Instance M_bind Σ : MBind (M Σ) := λ A B k m s,
  match m s with Done a s' => k a s' | Stuck f => Stuck f end.

Section ops.
Context {Σ : Type}.

Definition get_state : M Σ Σ := λ s, Done s s.
Definition gets {A} (f : Σ → A) : M Σ A := λ s, Done (f s) s.
Definition modify (f : Σ → Σ) : M Σ unit := λ s, Done () (f s).
Definition stuck {A} (f : fault) : M Σ A := λ _, Stuck f.
Definition guard_assert (b : bool) : M Σ unit := λ s, if b then Done () s else Stuck AssertFailed.
Definition when (b : bool) (m : M Σ unit) : M Σ unit := if b then m else mret ().
(** An access that is only defined when [o] is. *)
Definition deref {A} (o : option A) : M Σ A := λ s,
  match o with Some a => Done a s | None => Stuck BadPointer end.
End ops.

Declare Scope kernel_scope.
Delimit Scope kernel_scope with K.
Notation "'assert!' b" := (guard_assert b) (at level 10) : kernel_scope.
Notation "'fail!'" := (stuck AssertFailed) (at level 0) : kernel_scope.
Open Scope kernel_scope.

(** ** Loops

    [while_pow2 k] runs a loop body at most [2^k] times, by structural recursion
    on the exponent; [k = 64] is the number of values a machine word counts. *)
Fixpoint while_pow2 {Σ X R : Type} (k : nat) (body : X → M Σ (X + R)) (x : X) : M Σ (X + R) :=
  match k with
  | O => body x
  | S k' => r ← while_pow2 k' body x;
            match r with
            | inl x' => while_pow2 k' body x'
            | inr v => mret (inr v)
            end
  end.

Definition while64 {Σ X R : Type} (body : X → M Σ (X + R)) (x : X) : M Σ R :=
  r ← while_pow2 64 body x;
  match r with inl _ => stuck OutOfFuel | inr v => mret v end.

(** [for_range lo hi body] is [for (i = lo; i < hi; i++) body(i)]. *)
Fixpoint for_count {Σ : Type} (n : nat) (i : Z) (body : Z → M Σ unit) : M Σ unit :=
  match n with
  | O => mret ()
  | S n' => body i ≫= λ _, for_count n' (i + 1) body
  end.
Definition for_range {Σ : Type} (lo hi : Z) (body : Z → M Σ unit) : M Σ unit :=
  for_count (Z.to_nat (hi - lo)) lo body.

(** ** Weakest preconditions: [wp] is total correctness (the code returns),
    [wlp] is partial correctness (if it returns). *)
Definition wp {Σ A} (m : M Σ A) (Q : A → Σ → Prop) (s : Σ) : Prop :=
  match m s with Done a s' => Q a s' | Stuck _ => False end.

Definition wlp {Σ A} (m : M Σ A) (Q : A → Σ → Prop) (s : Σ) : Prop :=
  match m s with Done a s' => Q a s' | Stuck _ => True end.

(** [m] keeps [I] whenever it returns. *)
Definition preserves {Σ A} (I : Σ → Prop) (m : M Σ A) : Prop :=
  ∀ s, I s → wlp m (λ _ s', I s') s.

Section wp_rules.
Context {Σ : Type}.

Lemma wp_ret {A} (a : A) Q (s : Σ) : Q a s → wp (mret a) Q s.
Proof. done. Qed.
Lemma wp_bind {A B} (m : M Σ A) (k : A → M Σ B) Q s :
  wp m (λ a s', wp (k a) Q s') s → wp (m ≫= k) Q s.
Proof. unfold wp, mbind, M_bind. by destruct (m s). Qed.
Lemma wp_assoc {A B C} (m : M Σ A) (f : A → M Σ B) (g : B → M Σ C) Q s :
  wp ((m ≫= f) ≫= g) Q s → wp (m ≫= λ a, f a ≫= g) Q s.
Proof. unfold wp, mbind, M_bind. by destruct (m s). Qed.
Lemma wp_mono {A} (m : M Σ A) (P Q : A → Σ → Prop) s :
  wp m P s → (∀ a s', P a s' → Q a s') → wp m Q s.
Proof. unfold wp. destruct (m s); naive_solver. Qed.
Lemma wp_done {A} (m : M Σ A) Q s : wp m Q s ↔ ∃ a s', m s = Done a s' ∧ Q a s'.
Proof.
  unfold wp. destruct (m s) as [a s'|f]; split; [by eauto| |done|].
  all: intros (a' & s'' & Heq & HQ); simplify_eq; done.
Qed.
(** The same for code without a value, in the form its clients state. *)
Lemma wp_unit (m : M Σ unit) Q s : wp m Q s → ∃ s', m s = Done () s' ∧ Q () s'.
Proof. intros ([] & s' & ? & ?)%wp_done. eauto. Qed.
Lemma wp_gets {A} (f : Σ → A) Q s : Q (f s) s → wp (gets f) Q s.
Proof. done. Qed.
Lemma wp_modify f Q (s : Σ) : Q () (f s) → wp (modify f) Q s.
Proof. done. Qed.
Lemma wp_assert b Q (s : Σ) : b = true → Q () s → wp (guard_assert b) Q s.
Proof. intros ->; done. Qed.
Lemma wp_when b (m : M Σ unit) Q s :
  (b = true → wp m Q s) → (b = false → Q () s) → wp (when b m) Q s.
Proof. destruct b; naive_solver. Qed.
Lemma wp_deref {A} (o : option A) a Q (s : Σ) : o = Some a → Q a s → wp (deref o) Q s.
Proof. intros ->; done. Qed.

Lemma wlp_bind {A B} (m : M Σ A) (k : A → M Σ B) Q s :
  wlp m (λ a s', wlp (k a) Q s') s → wlp (m ≫= k) Q s.
Proof. unfold wlp, mbind, M_bind. by destruct (m s). Qed.
Lemma wlp_mono {A} (m : M Σ A) (P Q : A → Σ → Prop) s :
  wlp m P s → (∀ a s', P a s' → Q a s') → wlp m Q s.
Proof. unfold wlp. destruct (m s); naive_solver. Qed.
Lemma wlp_and {A} (m : M Σ A) (P Q : A → Σ → Prop) s : wlp m P s → wlp m Q s → wlp m (λ a s', P a s' ∧ Q a s') s.
Proof. unfold wlp. by destruct (m s). Qed.
Lemma wlp_done {A} (m : M Σ A) Q s a s' : wlp m Q s → m s = Done a s' → Q a s'.
Proof. unfold wlp. intros H E. by rewrite E in H. Qed.
Lemma wlp_trivial {A} (m : M Σ A) (Q : A → Σ → Prop) s : (∀ a s', Q a s') → wlp m Q s.
Proof. unfold wlp. destruct (m s); naive_solver. Qed.

Lemma wp_wlp {A} (m : M Σ A) Q s : wp m Q s → wlp m Q s.
Proof. unfold wp, wlp. by destruct (m s). Qed.
Lemma wlp_gets_bind {A B} (f : Σ → A) (k : A → M Σ B) Q s : wlp (k (f s)) Q s → wlp (gets f ≫= k) Q s.
Proof. done. Qed.
Lemma wlp_assert_bind {B} b (k : unit → M Σ B) Q s : (b = true → wlp (k ()) Q s) → wlp (guard_assert b ≫= k) Q s.
Proof. unfold wlp, mbind, M_bind, guard_assert. destruct b; naive_solver. Qed.

Lemma preserves_ret {A} (I : Σ → Prop) (a : A) : preserves I (mret a).
Proof. by intros s ?. Qed.
Lemma preserves_bind {A B} (I : Σ → Prop) (m : M Σ A) (k : A → M Σ B) :
  preserves I m → (∀ a, preserves I (k a)) → preserves I (m ≫= k).
Proof.
  intros Hm Hk s Hs. specialize (Hm s Hs). unfold wlp, mbind, M_bind in *.
  destruct (m s); [by apply Hk | done].
Qed.
Lemma preserves_gets {A} (I : Σ → Prop) (f : Σ → A) : preserves I (gets f).
Proof. by intros s ?. Qed.
Lemma preserves_get_state (I : Σ → Prop) : preserves I get_state.
Proof. by intros s ?. Qed.
Lemma preserves_stuck {A} (I : Σ → Prop) f : preserves I (stuck f : M Σ A).
Proof. by intros s ?. Qed.
Lemma preserves_assert (I : Σ → Prop) b : preserves I (guard_assert b).
Proof. intros s ?; destruct b; done. Qed.
Lemma preserves_deref {A} (I : Σ → Prop) (o : option A) : preserves I (deref o).
Proof. intros s ?; destruct o; done. Qed.
Lemma preserves_when (I : Σ → Prop) b (m : M Σ unit) :
  preserves I m → preserves I (when b m).
Proof. intros; destruct b; [done | apply preserves_ret]. Qed.
Lemma preserves_modify (I : Σ → Prop) f : (∀ s, I s → I (f s)) → preserves I (modify f).
Proof. intros Hf s Hs; by apply Hf. Qed.
Lemma preserves_while_pow2 {X R} (I : Σ → Prop) k (body : X → M Σ (X + R)) x :
  (∀ x, preserves I (body x)) → preserves I (while_pow2 k body x).
Proof.
  intros Hb. revert x. induction k as [|k IH]; intros x; [apply Hb|].
  apply preserves_bind; [apply IH | intros [x'|v]; [apply IH | apply preserves_ret]].
Qed.
Lemma preserves_for_range (I : Σ → Prop) lo hi (body : Z → M Σ unit) :
  (∀ i, preserves I (body i)) → preserves I (for_range lo hi body).
Proof.
  intros Hb. unfold for_range. generalize lo at 2. generalize (Z.to_nat (hi - lo)).
  intros n. induction n as [|n IH]; intros i; [apply preserves_ret|].
  apply preserves_bind; [apply Hb | intros; apply IH].
Qed.
Lemma preserves_while64 {X R} (I : Σ → Prop) (body : X → M Σ (X + R)) x :
  (∀ x, preserves I (body x)) → preserves I (while64 body x).
Proof.
  intros Hb. apply preserves_bind; [by apply preserves_while_pow2|].
  intros [|]; [apply preserves_stuck | apply preserves_ret].
Qed.
End wp_rules.

Create HintDb preserves.
#[export] Hint Resolve preserves_ret preserves_gets preserves_get_state preserves_stuck
  preserves_assert preserves_deref : preserves.

(** A loop whose body keeps an invariant and lowers its index, which starts below [2^k],
    returns. *)
Lemma wp_while_pow2 {Σ X R} (I : Z → X → Σ → Prop) (Q : R → Σ → Prop)
    (body : X → M Σ (X + R)) k n x s :
  (∀ n x s, 0 ≤ n → I n x s → wp (body x) (λ r s', match r with
      | inl x' => ∃ m, 0 ≤ m < n ∧ I m x' s'
      | inr v => Q v s' end) s) →
  I n x s → 0 ≤ n →
  wp (while_pow2 k body x) (λ r s', match r with
      | inl x' => ∃ m, 0 ≤ m ∧ m + 2 ^ Z.of_nat k ≤ n ∧ I m x' s'
      | inr v => Q v s' end) s.
Proof.
  intros Hb. revert n x s. induction k as [|k IH]; intros n x s HI Hn; simpl.
  - eapply wp_mono; [by eapply Hb|]. intros [x'|v] s'; [intros (m & ? & ?); exists m; split_and!; [lia..|done] | done].
  - apply wp_bind. eapply wp_mono; [by eapply IH|]. intros [x'|v] s'; [|done].
    intros (m & Hm & Hle & HI'). eapply wp_mono; [by eapply IH|].
    intros [x''|v] s''; [|done]. intros (m' & ? & ? & ?); exists m'; split_and!; [done| |done].
    rewrite Nat2Z.inj_succ, Z.pow_succ_r by lia. lia.
Qed.

Lemma wp_while64_idx {Σ X R} (I : Z → X → Σ → Prop) (Q : R → Σ → Prop)
    (body : X → M Σ (X + R)) n x s :
  (∀ n x s, 0 ≤ n → I n x s → wp (body x) (λ r s', match r with
      | inl x' => ∃ m, 0 ≤ m < n ∧ I m x' s'
      | inr v => Q v s' end) s) →
  I n x s → 0 ≤ n < 2 ^ 64 →
  wp (while64 body x) Q s.
Proof.
  intros Hb HI Hn. apply wp_bind.
  eapply wp_mono; [apply (wp_while_pow2 I Q _ _ n); [done..|lia]|].
  intros [x'|v] s'; [|done]. change (2 ^ Z.of_nat 64) with (2 ^ 64). intros (m & ? & ? & _). lia.
Qed.

(** The same with a measure of the loop variable and the state. *)
Lemma wp_while64 {Σ X R} (I : X → Σ → Prop) (μ : X → Σ → Z) (Q : R → Σ → Prop)
    (body : X → M Σ (X + R)) x s :
  (∀ x s, I x s → wp (body x) (λ r s', match r with
      | inl x' => I x' s' ∧ 0 ≤ μ x' s' < μ x s
      | inr v => Q v s' end) s) →
  I x s → 0 ≤ μ x s < 2 ^ 64 →
  wp (while64 body x) Q s.
Proof.
  intros Hb HI Hμ. apply (wp_while64_idx (λ n x s, I x s ∧ n = μ x s) _ _ (μ x s)); [|done..].
  clear x s HI Hμ. intros n x s Hn [HI ->]. eapply wp_mono; [by apply Hb|].
  intros [x'|v] s'; [|done]. intros [? ?]. by exists (μ x' s').
Qed.

(** A loop equals the function that satisfies its unfolding, as long as a measure of the
    loop variable decreases. *)
Lemma while_pow2_unfold {Σ X R} (J : X → Prop) (μ : X → Z) (body : X → M Σ (X + R)) (f : X → M Σ R) k x s :
  (∀ x s, J x → f x s = (body x ≫= λ r, match r with inl x' => f x' | inr v => mret v end) s) →
  (∀ x s x' s', J x → body x s = Done (inl x') s' → J x' ∧ 0 ≤ μ x' < μ x) →
  J x →
  f x s = (while_pow2 k body x ≫= λ r, match r with inl x' => f x' | inr v => mret v end) s ∧
  (∀ x' s', while_pow2 k body x s = Done (inl x') s' → J x' ∧ 0 ≤ μ x' ∧ μ x' + 2 ^ Z.of_nat k ≤ μ x).
Proof.
  intros Hf Hμ. revert x s. induction k as [|k IH]; intros x s HJ.
  { split; [by apply Hf|]. intros x' s' Hb. destruct (Hμ _ _ _ _ HJ Hb) as [? ?]. simpl. split_and!; [done|lia|lia]. }
  destruct (IH x s HJ) as [Heq Hd]. simpl. unfold mbind, M_bind in *.
  destruct (while_pow2 k body x s) as [[x1|v] s1|]; [|by split|by split].
  destruct (Hd x1 s1 eq_refl) as (HJ1 & Hm0 & Hm1). destruct (IH x1 s1 HJ1) as [Heq1 Hd1]. split; [by rewrite Heq, Heq1|].
  intros x' s' Hx'. destruct (Hd1 _ _ Hx') as (? & ? & ?). split_and!; [done..|].
  replace (2 ^ Z.pos (Pos.of_succ_nat k)) with (2 ^ Z.of_nat (S k)) by done.
  rewrite Nat2Z.inj_succ, Z.pow_succ_r by lia. lia.
Qed.

Lemma while64_unfold {Σ X R} (J : X → Prop) (μ : X → Z) (body : X → M Σ (X + R)) (f : X → M Σ R) x s :
  (∀ x s, J x → f x s = (body x ≫= λ r, match r with inl x' => f x' | inr v => mret v end) s) →
  (∀ x s x' s', J x → body x s = Done (inl x') s' → J x' ∧ 0 ≤ μ x' < μ x) →
  J x → μ x < 2 ^ 64 → while64 body x s = f x s.
Proof.
  intros Hf Hμ HJ Hx. destruct (while_pow2_unfold J μ body f 64 x s Hf Hμ HJ) as [-> Hd].
  unfold while64, mbind, M_bind in *. destruct (while_pow2 64 body x s) as [[x'|v] s'|]; [|done|done].
  destruct (Hd x' s' eq_refl) as (_ & ? & ?). change (2 ^ Z.of_nat 64) with (2 ^ 64) in *. lia.
Qed.

(** A [for] loop, with an invariant indexed by the loop variable. *)
Lemma wp_for_range {Σ} (I : Z → Σ → Prop) lo hi (body : Z → M Σ unit) (Q : unit → Σ → Prop) s :
  lo ≤ hi → I lo s → (∀ i s, lo ≤ i < hi → I i s → wp (body i) (λ _ s', I (i + 1) s') s) →
  (∀ s', I hi s' → Q () s') → wp (for_range lo hi body) Q s.
Proof.
  intros Hle HI Hb HQ. unfold for_range.
  assert (∀ n i s, lo ≤ i → i + Z.of_nat n = hi → I i s → wp (for_count n i body) Q s) as Hn; [|apply Hn; [lia..|done]].
  intros n. induction n as [|n IH]; intros i s' Hi Hhi HI'; simpl.
  - apply wp_ret, HQ. by replace hi with i by lia.
  - apply wp_bind. eapply wp_mono; [apply Hb; [lia|done]|]. intros [] s'' HI''. apply IH; [lia..|done].
Qed.

Lemma wlp_for_range {Σ} (I : Z → Σ → Prop) lo hi (body : Z → M Σ unit) (Q : unit → Σ → Prop) s :
  lo ≤ hi → I lo s → (∀ i s, lo ≤ i < hi → I i s → wlp (body i) (λ _ s', I (i + 1) s') s) →
  (∀ s', I hi s' → Q () s') → wlp (for_range lo hi body) Q s.
Proof.
  intros Hle HI Hb HQ. unfold for_range.
  assert (∀ n i s, lo ≤ i → i + Z.of_nat n = hi → I i s → wlp (for_count n i body) Q s) as Hn; [|apply Hn; [lia..|done]].
  intros n. induction n as [|n IH]; intros i s' Hi Hhi HI'; simpl.
  - apply HQ. by replace hi with i by lia.
  - apply wlp_bind. eapply wlp_mono; [apply Hb; [lia|done]|]. intros [] s'' HI''. apply IH; [lia..|done].
Qed.

(** Decide a closed proposition by evaluation. *)
Ltac by_decide := refine (bool_decide_unpack _ _); vm_compute; exact I.

#[global] Opaque while64.
