(* ===== verification/Words.v ===== *)
(** * Machine words

    64-bit words as [Z] with their wrap-around, the macros of
    [kernel/include/util.h], and the software bit searches of [kernel/util.c]
    that the scheduler's priority bitmap uses. *)
From S2P Require Import Prelude.

(** The configuration verified is [CONFIG_WORD_SIZE = 64]. *)
Definition wordRadix : Z := 6.
Definition wordBits : Z := 64.
Definition UINT32_MAX : Z := 2 ^ 32 - 1.
Definition UINT64_MAX : Z := 2 ^ 64 - 1.

(** [word_t] arithmetic is modulo [2^64]. *)
Definition wrap (x : Z) : Z := x mod 2 ^ 64.
Definition is_word (x : Z) : Prop := 0 ≤ x < 2 ^ 64.

Declare Scope word_scope.
Delimit Scope word_scope with word.
Notation "a +w b" := (wrap (a + b)) (at level 50, left associativity) : word_scope.
Notation "a -w b" := (wrap (a - b)) (at level 50, left associativity) : word_scope.
Notation "a <<w b" := (wrap (Z.shiftl a b)) (at level 45, left associativity) : word_scope.
Open Scope word_scope.

Definition BIT (n : Z) : Z := 1 <<w n.
Definition MASK (n : Z) : Z := BIT n -w 1.
(** Bitwise complement of a word. *)
Definition wnot (x : Z) : Z := UINT64_MAX - x.
Definition ROUND_DOWN (n b : Z) : Z := Z.shiftr n b <<w b.
Definition IS_ALIGNED (n b : Z) : bool := Z.land n (MASK b) =? 0.

(** [alignUp] of [kernel/object/untyped.c]. *)
Definition alignUp (baseValue alignment : Z) : Z :=
  Z.land (baseValue +w (BIT alignment -w 1)) (wnot (MASK alignment)).

(** ** Count leading and trailing zeros

    The C code spells out one block per iteration; every block of [clz32] and
    [clz64] is [clz_iter i], every block of [ctz32] and [ctz64] is [ctz_iter i],
    on the triple of the variables [x], [mask] and [count]. *)
Definition clz_iter (i : Z) (v : Z * Z * Z) : Z * Z * Z :=
  let '(x, mask, count) := v in
  let mask := Z.shiftr mask (Z.shiftl 1 i) in
  let bits := Z.shiftl (Z.b2z (mask <? x)) i in
  (Z.shiftr x bits, mask, count - bits).

Definition clz32 (x : Z) : Z :=
  let '(x, _, count) :=
    clz_iter 0 (clz_iter 1 (clz_iter 2 (clz_iter 3 (clz_iter 4 (x, UINT32_MAX, 32))))) in
  count - x.

Definition clz64 (x : Z) : Z :=
  let '(x, _, count) :=
    clz_iter 0 (clz_iter 1 (clz_iter 2 (clz_iter 3 (clz_iter 4 (clz_iter 5 (x, UINT64_MAX, 64)))))) in
  count - x.

Definition ctz_iter (i : Z) (v : Z * Z * Z) : Z * Z * Z :=
  let '(x, mask, count) := v in
  let mask := Z.shiftr mask (Z.shiftl 1 i) in
  let bits := Z.shiftl (Z.b2z (Z.land x mask =? 0)) i in
  (Z.shiftr x bits, mask, count + bits).

Definition ctz32 (x : Z) : Z :=
  let '(_, _, count) :=
    ctz_iter 0 (ctz_iter 1 (ctz_iter 2 (ctz_iter 3 (ctz_iter 4
      (x, UINT32_MAX, Z.b2z (x =? 0)))))) in
  count.

Definition ctz64 (x : Z) : Z :=
  let '(_, _, count) :=
    ctz_iter 0 (ctz_iter 1 (ctz_iter 2 (ctz_iter 3 (ctz_iter 4 (ctz_iter 5
      (x, UINT64_MAX, Z.b2z (x =? 0))))))) in
  count.

(** [clzl] of [util.h]: on a 64-bit target without a builtin it is [__clzdi2]. *)
Definition clzl (x : Z) : Z := clz64 x.

(** ** Lemmas on words *)
Lemma wrap_small x : is_word x → wrap x = x.
Proof. apply Z.mod_small. Qed.
Lemma wrap_word x : is_word (wrap x).
Proof. apply Z.mod_pos_bound. lia. Qed.
Lemma BIT_pow n : 0 ≤ n < 64 → BIT n = 2 ^ n.
Proof.
  intros Hn. unfold BIT. rewrite Z.shiftl_1_l, wrap_small; [done|].
  split; [lia|]. apply Z.pow_lt_mono_r; lia.
Qed.
Lemma MASK_pow n : 0 ≤ n < 64 → MASK n = 2 ^ n - 1.
Proof.
  intros Hn. unfold MASK. rewrite BIT_pow by done. apply wrap_small.
  assert (2 ^ n < 2 ^ 64) by (apply Z.pow_lt_mono_r; lia).
  split; lia.
Qed.
Lemma MASK_64 : MASK 64 = UINT64_MAX.
Proof. reflexivity. Qed.
Lemma land_MASK x n : 0 ≤ n < 64 → Z.land x (MASK n) = x mod 2 ^ n.
Proof.
  intros Hn. rewrite MASK_pow by done. rewrite <-Z.land_ones by lia.
  f_equal. rewrite Z.ones_equiv. lia.
Qed.
Lemma land_MASK_64 x : is_word x → Z.land x (MASK 64) = x.
Proof.
  intros Hx. change (MASK 64) with (Z.ones 64). rewrite Z.land_ones by lia.
  by apply Z.mod_small.
Qed.
Lemma wnot_spec x k : is_word x → 0 ≤ k → Z.testbit (wnot x) k = (k <? 64) && negb (Z.testbit x k).
Proof.
  intros Hx Hk. unfold wnot, UINT64_MAX.
  replace (2 ^ 64 - 1 - x) with (Z.land (Z.lnot x) (Z.ones 64)).
  - rewrite Z.land_spec, Z.lnot_spec by done.
    rewrite Z.testbit_ones_nonneg by lia.
    destruct (k <? 64), (Z.testbit x k); done.
  - rewrite Z.land_ones by lia. unfold Z.lnot.
    replace (Z.pred (- x)) with (2 ^ 64 - 1 - x + (-1) * 2 ^ 64) by lia.
    rewrite Z.mod_add by lia. apply Z.mod_small. unfold is_word in Hx. lia.
Qed.
Lemma BIT_word n : is_word (BIT n).
Proof. apply wrap_word. Qed.
Lemma testbit_BIT n k : 0 ≤ n < 64 → 0 ≤ k → Z.testbit (BIT n) k = (n =? k).
Proof.
  intros Hn Hk. rewrite BIT_pow by done. by rewrite Z.pow2_bits_eqb by lia.
Qed.
Lemma testbit_word_high x k : is_word x → 64 ≤ k → Z.testbit x k = false.
Proof.
  intros Hx Hk. rewrite <-(Z.mod_small x (2 ^ 64)) by done.
  apply Z.mod_pow2_bits_high. lia.
Qed.
Lemma word_of_bits x : 0 ≤ x → (∀ k, 64 ≤ k → Z.testbit x k = false) → is_word x.
Proof.
  intros Hx Hb. replace x with (x mod 2 ^ 64); [apply Z.mod_pos_bound; lia|].
  apply Z.bits_inj'. intros k Hk. destruct (Z.lt_ge_cases k 64).
  - by rewrite Z.mod_pow2_bits_low.
  - rewrite Z.mod_pow2_bits_high by lia. by rewrite Hb.
Qed.
Lemma lor_word x y : is_word x → is_word y → is_word (Z.lor x y).
Proof.
  intros Hx Hy. apply word_of_bits.
  - unfold is_word in *. apply Z.lor_nonneg; lia.
  - intros k Hk. by rewrite Z.lor_spec, !testbit_word_high.
Qed.
Lemma land_word x y : is_word x → is_word (Z.land x y).
Proof.
  intros Hx. apply word_of_bits.
  - unfold is_word in *. apply Z.land_nonneg; lia.
  - intros k Hk. by rewrite Z.land_spec, testbit_word_high.
Qed.

(** ** Fields of a word *)
Lemma shift_lor_fields x c n : 0 ≤ n → 0 ≤ c < 2 ^ n →
  Z.shiftr (Z.lor (Z.shiftl x n) c) n = x ∧ (∀ k, 0 ≤ k < n → Z.testbit (Z.lor (Z.shiftl x n) c) k = Z.testbit c k).
Proof.
  intros Hn Hc. split.
  - rewrite Z.shiftr_lor, Z.shiftr_shiftl_l, Z.sub_diag, Z.shiftl_0_r by lia.
    rewrite (Z.shiftr_div_pow2 c) by lia. rewrite Z.div_small by lia. apply Z.lor_0_r.
  - intros k Hk. by rewrite Z.lor_spec, Z.shiftl_spec_low by lia.
Qed.
Lemma land_wnot_MASK x n : is_word x → 0 ≤ n < 64 → Z.land x (wnot (MASK n)) = x / 2 ^ n * 2 ^ n.
Proof.
  intros Hx Hn. transitivity (Z.ldiff x (Z.ones n)).
  - apply Z.bits_inj'. intros k Hk. rewrite Z.land_spec, Z.ldiff_spec, wnot_spec by (done || apply wrap_word).
    rewrite MASK_pow by done. rewrite Z.ones_equiv. change (Z.pred (2 ^ n)) with (2 ^ n - 1).
    destruct (Z.ltb_spec k 64); [done|]. by rewrite testbit_word_high.
  - by rewrite Z.ldiff_ones_r, Z.shiftl_mul_pow2, Z.shiftr_div_pow2 by lia.
Qed.
Lemma lor_shift_add x c n : 0 ≤ n → 0 ≤ c < 2 ^ n → Z.lor (Z.shiftl x n) c = x * 2 ^ n + c.
Proof.
  intros Hn Hc. rewrite <-Z.shiftl_mul_pow2 by done.
  assert (Z.land (Z.shiftl x n) c = 0) as E.
  { apply Z.bits_inj'. intros k Hk. rewrite Z.land_spec, Z.bits_0. destruct (Z.lt_ge_cases k n).
    - by rewrite Z.shiftl_spec_low.
    - rewrite <-(Z.mod_small c (2 ^ n)), Z.mod_pow2_bits_high by lia. apply andb_false_r. }
  by rewrite Z.add_nocarry_lxor, Z.lxor_lor.
Qed.

(** ** The bit searches against [Z.log2] and [Z.testbit] *)
Lemma shiftr_mask n i : 0 ≤ i → 0 < n → i ≤ n → Z.shiftr (2 ^ n - 1) i = 2 ^ (n - i) - 1.
Proof.
  intros. rewrite Z.shiftr_div_pow2 by done.
  replace (2 ^ n - 1) with (2 ^ i - 1 + (2 ^ (n - i) - 1) * 2 ^ i).
  - rewrite Z.div_add by lia. rewrite Z.div_small; [lia|].
    assert (0 < 2 ^ i) by lia. lia.
  - replace n with ((n - i) + i) at 2 by lia. rewrite Z.pow_add_r by lia. lia.
Qed.

(** The loop invariant of [clz32] and [clz64] before iteration [i]: [x] fits in
    [2^(i+1)] bits and [count - log2 x] is what it was on entry. *)
Definition clz_inv (x0 tot n : Z) (v : Z * Z * Z) : Prop :=
  let '(x, mask, count) := v in
  mask = 2 ^ n - 1 ∧ 0 ≤ x < 2 ^ n ∧
  (if decide (x0 = 0) then x = 0 ∧ count = tot
   else 0 < x ∧ count - Z.log2 x = tot - Z.log2 x0).

Lemma clz_step x0 tot i n v :
  0 ≤ i → n = 2 ^ i → clz_inv x0 tot (n + n) v → clz_inv x0 tot n (clz_iter i v).
Proof.
  destruct v as [[x mask] count]. intros Hi Hn (-> & Hx & H). unfold clz_iter, clz_inv.
  assert (0 < n) by (subst n; lia).
  rewrite Z.shiftl_1_l, <-Hn.
  rewrite shiftr_mask by lia. replace (n + n - n) with n by lia.
  split; [done|]. destruct (Z.ltb_spec (2 ^ n - 1) x) as [Hlt|Hge]; simpl Z.b2z.
  - rewrite Z.shiftl_1_l, <-Hn, Z.shiftr_div_pow2 by lia.
    rewrite Z.pow_add_r in Hx by lia.
    split; [split; [apply Z.div_pos; lia | apply Z.div_lt_upper_bound; lia]|].
    destruct (decide (x0 = 0)); [destruct H; lia|].
    split; [apply Z.div_str_pos; lia|]. destruct H as [Hpos H].
    rewrite <-Z.shiftr_div_pow2, Z.log2_shiftr by lia.
    assert (n ≤ Z.log2 x) by (apply Z.log2_le_pow2; lia). lia.
  - rewrite Z.shiftl_0_l, Z.shiftr_0_r, Z.sub_0_r. split; [lia|done].
Qed.

Lemma clz_final x0 tot v : clz_inv x0 tot 1 v → 
  (let '(x, _, count) := v in count - x) = if decide (x0 = 0) then tot else tot - 1 - Z.log2 x0.
Proof.
  destruct v as [[x mask] count]. intros (_ & Hx & H).
  destruct (decide (x0 = 0)); [lia|]. destruct H as [Hpos H].
  assert (x = 1) as -> by lia. rewrite Z.log2_1 in H. lia.
Qed.

Definition ctz_inv (x0 n : Z) (v : Z * Z * Z) : Prop :=
  let '(x, mask, count) := v in
  mask = 2 ^ n - 1 ∧ 0 ≤ count ∧ x0 = x * 2 ^ count ∧ x mod 2 ^ n ≠ 0.

Lemma ctz_step x0 i n v :
  0 ≤ i → n = 2 ^ i → ctz_inv x0 (n + n) v → ctz_inv x0 n (ctz_iter i v).
Proof.
  destruct v as [[x mask] count]. intros Hi Hn (-> & Hc & Hx & Hmod). unfold ctz_iter, ctz_inv.
  assert (0 < n) by (subst n; lia). rewrite Z.shiftl_1_l, <-Hn, shiftr_mask by lia.
  replace (n + n - n) with n by lia. split; [done|].
  replace (2 ^ n - 1) with (Z.ones n) by (rewrite Z.ones_equiv; lia).
  rewrite Z.land_ones by lia.
  destruct (Z.eqb_spec (x mod 2 ^ n) 0) as [H0|H0]; simpl Z.b2z.
  - rewrite Z.shiftl_1_l, <-Hn, Z.shiftr_div_pow2 by lia.
    apply Z.mod_divide in H0 as [q ->]; [|lia]. rewrite Z.div_mul by lia.
    split; [lia|]. split; [rewrite Hx, Z.pow_add_r by lia; lia|].
    intros Hq. apply Hmod. rewrite Z.pow_add_r, Z.mul_mod_distr_r, Hq by lia. done.
  - rewrite Z.shiftl_0_l, Z.shiftr_0_r, Z.add_0_r. done.
Qed.

Lemma ctz_final x0 v : ctz_inv x0 1 v →
  let '(_, _, count) := v in x0 mod 2 ^ count = 0 ∧ Z.testbit x0 count = true.
Proof.
  destruct v as [[x mask] count]. intros (_ & Hc & -> & H).
  split; [by apply Z.mod_mul; lia|].
  rewrite Z.mul_pow2_bits by done. rewrite Z.sub_diag, Z.bit0_odd, Zmod_odd in *.
  by destruct (Z.odd x).
Qed.

Ltac clz_chain :=
  repeat match goal with
  | |- clz_inv _ _ ?n (clz_iter ?i _) => apply (clz_step _ _ i n); [lia|reflexivity|]
  end.

(** Equivalence of the branchless binary search with [Z.log2]. *)
Lemma clz64_log2 x : 0 < x < 2 ^ 64 → clz64 x = 63 - Z.log2 x.
Proof.
  intros Hx. unfold clz64. rewrite (clz_final x 64); [destruct (decide (x = 0)); lia|].
  clz_chain. unfold clz_inv. split; [done|]. split; [lia|].
  destruct (decide (x = 0)); lia.
Qed.
Lemma clz64_zero : clz64 0 = 64.
Proof. reflexivity. Qed.
Lemma clz32_log2 x : 0 < x < 2 ^ 32 → clz32 x = 31 - Z.log2 x.
Proof.
  intros Hx. unfold clz32. rewrite (clz_final x 32); [destruct (decide (x = 0)); lia|].
  clz_chain. unfold clz_inv. split; [done|]. split; [lia|].
  destruct (decide (x = 0)); lia.
Qed.
(** Both counts of trailing zeros end in [ctz_iter 0] on a state that satisfies
    the invariant for two bits. *)
Ltac ctz_chain x :=
  match goal with |- context [ctz_iter 0 ?w] =>
    assert (ctz_inv x 1 (ctz_iter 0 w)) as Hinv;
    [ repeat match goal with
      | |- ctz_inv _ ?n (ctz_iter ?i _) => apply (ctz_step _ i n); [lia|reflexivity|]
      end;
      unfold ctz_inv; destruct (Z.eqb_spec x 0); [lia|]; simpl Z.b2z;
      split; [done|]; split; [lia|]; split; [lia|]; rewrite Z.mod_small; simpl; lia
    | apply ctz_final in Hinv; destruct (ctz_iter 0 w) as [[? ?] ?]; exact Hinv ]
  end.

Lemma ctz64_lowest x : 0 < x < 2 ^ 64 → x mod 2 ^ ctz64 x = 0 ∧ Z.testbit x (ctz64 x) = true.
Proof. intros Hx. unfold ctz64. ctz_chain x. Qed.
Lemma ctz32_lowest x : 0 < x < 2 ^ 32 → x mod 2 ^ ctz32 x = 0 ∧ Z.testbit x (ctz32 x) = true.
Proof. intros Hx. unfold ctz32. ctz_chain x. Qed.

(** The branch-free searches agree with their definition: [clz64] counts the zeros
    above the highest set bit, [ctz64] those below the lowest. *)
Theorem bit_searches_ok x : 0 < x < 2 ^ 64 →
  clz64 x = 63 - Z.log2 x ∧ 0 ≤ ctz64 x ∧ Z.testbit x (ctz64 x) = true ∧ ∀ k, 0 ≤ k < ctz64 x → Z.testbit x k = false.
Proof.
  intros Hx. destruct (ctz64_lowest x Hx) as [Hm Hb].
  assert (0 ≤ ctz64 x) as H0.
  { destruct (Z.lt_ge_cases (ctz64 x) 0) as [Hlt|]; [|done]. by rewrite Z.testbit_neg_r in Hb. }
  split_and!; [by apply clz64_log2|done..|]. intros k Hk.
  apply Z.mod_divide in Hm as [q Hq]; [|lia]. rewrite Hq. apply Z.mul_pow2_bits_low. lia.
Qed.
Lemma bit_searches_witness : clz64 40 = 58 ∧ ctz64 40 = 3 ∧ Z.testbit 40 3 = true.
Proof. destruct (bit_searches_ok 40) as (H & _ & Hb & _); [lia|]. split; [exact H|]. split; [reflexivity|exact Hb]. Defined.
