(* ===== verification/Platform.v ===== *)
(** * The configuration and the board

    [Platform] collects what the build generates or the linker places: the options
    of [gen_config.h], the figures of [kernel/arch/riscv/platform_gen.h.in], the
    addresses of the devices and of the kernel image. The rest of the file is the
    code that computes with them: [kernel/include/arch/riscv/arch/machine/timer.h],
    [kernel/include/machine.h] and the address map of
    [kernel/include/arch/riscv/arch/64/mode/hardware.h]. *)
From S2P Require Import Prelude Words.

Class Platform := {
  (** [platform_gen.h] *)
  TIMER_CLOCK_HZ : Z;
  PLIC_MAX_IRQ : Z;
  (** [gen_config.h] *)
  CONFIG_KERNEL_WCET_SCALE : Z;
  CONFIG_KERNEL_STATIC_MAX_PERIOD_US : Z;
  numDomains : Z;
  CONFIG_NUM_DOMAIN_SCHEDULES : Z;
  CONFIG_MAX_NUM_WORK_UNITS_PER_PREEMPTION : Z;
  CONFIG_RETYPE_FAN_OUT_LIMIT : Z;
  CONFIG_RESET_CHUNK_BITS : Z;
  CONFIG_FIRST_HART_ID : Z;
  (** Is the first core of the chip without supervisor mode? *)
  PLIC_FIRST_HART_M_ONLY : bool;
  (** [devices_gen.h] *)
  PLIC_PPTR : Z;
  physBase : Z;
  (** the linker: the end of the kernel image, the kernel's page table and the
      array of slots that hold the notification of each interrupt *)
  KERNEL_ELF_TOP : Z;
  kernel_root_pageTable : Z;
  intStateIRQNode : Z
}.

Section platform.
Context `{Platform}.

(** ** Time: [timer.h] *)
Definition MS_IN_S : Z := 1000.
Definition US_IN_MS : Z := 1000.
Definition TICKS_IN_US : Z := TIMER_CLOCK_HZ / (US_IN_MS * MS_IN_S).
Definition getKernelWcetUs : Z := 10.
Definition usToTicks (us : Z) : Z := wrap (us * TICKS_IN_US).
Definition ticksToUs (ticks : Z) : Z := ticks / TICKS_IN_US.
Definition getTimerPrecision : Z := usToTicks 1.
Definition getMaxTicksToUs : Z := UINT64_MAX.
Definition getMaxUsToTicks : Z := UINT64_MAX / TICKS_IN_US.
Definition getKernelWcetTicks : Z := usToTicks getKernelWcetUs.

(** ** Addresses: [mode/hardware.h] and [machine.h] *)
Definition USER_TOP : Z := 0x3ffffff000.
Definition PADDR_BASE : Z := 0.
Definition PPTR_BASE : Z := 0xFFFFFFC000000000.
Definition PPTR_TOP : Z := 0xFFFFFFFF80000000.
Definition KERNEL_ELF_PADDR_BASE : Z := physBase.
Definition KERNEL_ELF_BASE : Z := PPTR_TOP +w Z.land KERNEL_ELF_PADDR_BASE (MASK 30).
Definition PPTR_BASE_OFFSET : Z := PPTR_BASE -w PADDR_BASE.
Definition KERNEL_ELF_BASE_OFFSET : Z := KERNEL_ELF_BASE -w KERNEL_ELF_PADDR_BASE.

Definition ptrFromPAddr (paddr : Z) : Z := paddr +w PPTR_BASE_OFFSET.
Definition addrFromPPtr (pptr : Z) : Z := pptr -w PPTR_BASE_OFFSET.
Definition addrFromKPPtr {Σ} (pptr : Z) : M Σ Z :=
  assert! (KERNEL_ELF_BASE <=? pptr);;
  assert! (pptr <=? KERNEL_ELF_TOP);;
  mret (pptr -w KERNEL_ELF_BASE_OFFSET).

(** ** Interrupt numbers: [platform_gen.h.in] *)
Definition KERNEL_TIMER_IRQ : Z := PLIC_MAX_IRQ + 1.
Definition maxIRQ : Z := KERNEL_TIMER_IRQ.
Definition irqInvalid : Z := 0.

Lemma ptrFromPAddr_inv p : is_word p → ptrFromPAddr (addrFromPPtr p) = p.
Proof.
  intros Hp. unfold ptrFromPAddr, addrFromPPtr, wrap. rewrite Zplus_mod_idemp_l, Z.sub_add. by apply Z.mod_small.
Qed.
End platform.

(** What holds of a sensible build: the clock runs at a megahertz at least, the
    budget for two kernel entries and five periods of the longest configured length
    fit in a time stamp, the kernel's page table is part of the kernel image, domains
    are numbered by a byte, the domain schedule has an entry and an end marker, and
    memory is reset in chunks no smaller than the smallest untyped region. *)
Class PlatformOk `{Platform} : Prop := {
  clock_mhz : 10 ^ 6 ≤ TIMER_CLOCK_HZ;
  wcet_scale_pos : 1 ≤ CONFIG_KERNEL_WCET_SCALE;
  wcet_fits : 20 * TICKS_IN_US * CONFIG_KERNEL_WCET_SCALE < 2 ^ 64;
  static_period_pos : 0 ≤ CONFIG_KERNEL_STATIC_MAX_PERIOD_US;
  static_period_room : 5 * (CONFIG_KERNEL_STATIC_MAX_PERIOD_US * TICKS_IN_US) ≤ UINT64_MAX;
  kernel_pt_in_image : KERNEL_ELF_BASE ≤ kernel_root_pageTable ≤ KERNEL_ELF_TOP;
  plic_irqs : 0 < PLIC_MAX_IRQ;
  num_domains_ok : 1 ≤ numDomains ≤ 256;
  num_schedules_ok : 2 ≤ CONFIG_NUM_DOMAIN_SCHEDULES < 2 ^ 63;
  reset_chunk_ok : 4 ≤ CONFIG_RESET_CHUNK_BITS < 64
}.

Section platform_ok.
Context `{PlatformOk}.

Lemma ticks_in_us_pos : 1 ≤ TICKS_IN_US.
Proof.
  pose proof clock_mhz. unfold TICKS_IN_US, US_IN_MS, MS_IN_S. apply Z.div_le_lower_bound; lia.
Qed.
Lemma usToTicks_small us : 0 ≤ us → us * TICKS_IN_US ≤ UINT64_MAX → usToTicks us = us * TICKS_IN_US.
Proof. intros. pose proof ticks_in_us_pos. apply wrap_small. unfold is_word, UINT64_MAX in *. nia. Qed.
Lemma kernel_root_paddr {Σ} (s : Σ) :
  addrFromKPPtr kernel_root_pageTable s = Done (kernel_root_pageTable -w KERNEL_ELF_BASE_OFFSET) s.
Proof.
  destruct kernel_pt_in_image as [Hl Hh]. apply Z.leb_le in Hl, Hh.
  unfold addrFromKPPtr, guard_assert, mbind, M_bind. by rewrite Hl, Hh.
Qed.
End platform_ok.
