(* ===== verification/State.v ===== *)
(** * Kernel objects and kernel state

    The data of [kernel/include/object/structures.h] and the bitfield
    descriptions [kernel/include/object/structures_64.bf] (MCS, 64 bit), the RISC-V capabilities of
    [kernel/include/arch/riscv/arch/64/mode/object/structures.bf], and the
    global variables of [kernel/model/statedata.c] for a uniprocessor build.

    Memory is a typed heap per object kind, keyed by the object's address.
    [NULL] is the address [0]. A bitfield block is a record (or a constructor)
    of its fields; the packing that [tools/bitfield_gen.py] generates is not
    modelled. *)
From S2P Require Import Prelude Words.

Definition NULL : Z := 0.



(** ** Enumerations *)
Inductive exception_t :=
  | EXCEPTION_NONE | EXCEPTION_FAULT | EXCEPTION_LOOKUP_FAULT
  | EXCEPTION_SYSCALL_ERROR | EXCEPTION_PREEMPTED.

Inductive seL4_Error :=
  | seL4_NoError | seL4_InvalidArgument | seL4_InvalidCapability | seL4_IllegalOperation
  | seL4_RangeError | seL4_AlignmentError | seL4_FailedLookup | seL4_TruncatedMessage
  | seL4_DeleteFirst | seL4_RevokeFirst | seL4_NotEnoughMemory.

Inductive _thread_state :=
  | ThreadState_Inactive | ThreadState_Running | ThreadState_Restart
  | ThreadState_BlockedOnReceive | ThreadState_BlockedOnSend | ThreadState_BlockedOnReply
  | ThreadState_BlockedOnNotification | ThreadState_IdleThreadState.

Inductive endpoint_state := EPState_Idle | EPState_Send | EPState_Recv.
Inductive notification_state := NtfnState_Idle | NtfnState_Waiting | NtfnState_Active.
Inductive irq_state := IRQInactive | IRQSignal | IRQTimer | IRQReserved.

#[global] Instance exception_eq_dec : EqDecision exception_t.
Proof. solve_decision. Defined.
#[global] Instance error_eq_dec : EqDecision seL4_Error.
Proof. solve_decision. Defined.
#[global] Instance thread_state_type_eq_dec : EqDecision _thread_state.
Proof. solve_decision. Defined.
#[global] Instance endpoint_state_eq_dec : EqDecision endpoint_state.
Proof. solve_decision. Defined.
#[global] Instance notification_state_eq_dec : EqDecision notification_state.
Proof. solve_decision. Defined.
#[global] Instance irq_state_eq_dec : EqDecision irq_state.
Proof. solve_decision. Defined.

(** [tcb_cnode_index], MCS *)
Definition tcbCTable : Z := 0.
Definition tcbVTable : Z := 1.
Definition tcbBuffer : Z := 2.
Definition tcbFaultHandler : Z := 3.
Definition tcbTimeoutHandler : Z := 4.
Definition tcbCNodeEntries : Z := 5.
Definition tcbArchCNodeEntries : Z := tcbCNodeEntries.

(** ** Object sizes of the 64-bit RISC-V target, MCS without FPU *)
Definition seL4_SlotBits : Z := 5.
Definition seL4_TCBBits : Z := 10.
Definition seL4_EndpointBits : Z := 4.
Definition seL4_NotificationBits : Z := 6.
Definition seL4_ReplyBits : Z := 5.
Definition seL4_MinUntypedBits : Z := 4.
Definition seL4_MaxUntypedBits : Z := 38.
Definition seL4_MinSchedContextBits : Z := 7.
Definition TCB_CNODE_RADIX : Z := 4.
Definition TCB_SIZE_BITS : Z := seL4_TCBBits - 1.
Definition TCB_OFFSET : Z := BIT TCB_SIZE_BITS.

(** ** Faults *)
Inductive lookup_fault :=
  | lookup_fault_invalid_root
  | lookup_fault_missing_capability (bitsLeft : Z)
  | lookup_fault_depth_mismatch (bitsFound bitsLeft : Z)
  | lookup_fault_guard_mismatch (guardFound bitsLeft bitsFound : Z).

Inductive seL4_Fault :=
  | seL4_Fault_NullFault
  | seL4_Fault_CapFault (address : Z) (inReceivePhase : bool)
  | seL4_Fault_UnknownSyscall (syscallNumber : Z)
  | seL4_Fault_UserException (number code : Z)
  | seL4_Fault_Timeout (badge : Z)
  | seL4_Fault_VMFault (address FSR : Z) (instructionFault : bool).

Definition fault_is_null (f : seL4_Fault) : bool :=
  match f with seL4_Fault_NullFault => true | _ => false end.
Definition fault_is_timeout (f : seL4_Fault) : bool :=
  match f with seL4_Fault_Timeout _ => true | _ => false end.

(** ** Capabilities: the tagged union [cap] *)
Inductive cap :=
  | cap_null_cap
  | cap_untyped_cap (capFreeIndex : Z) (capIsDevice : bool) (capBlockSize capPtr : Z)
  | cap_endpoint_cap (capEPBadge : Z) (capCanGrantReply capCanGrant capCanSend capCanReceive : bool)
      (capEPPtr : Z)
  | cap_notification_cap (capNtfnBadge : Z) (capNtfnCanReceive capNtfnCanSend : bool) (capNtfnPtr : Z)
  | cap_reply_cap (capReplyPtr : Z) (capReplyCanGrant : bool)
  | cap_cnode_cap (capCNodeRadix capCNodeGuardSize capCNodeGuard capCNodePtr : Z)
  | cap_thread_cap (capTCBPtr : Z)
  | cap_irq_control_cap
  | cap_irq_handler_cap (capIRQ : Z)
  | cap_zombie_cap (capZombieID capZombieType : Z)
  | cap_domain_cap
  | cap_sched_context_cap (capSCPtr capSCSizeBits : Z)
  | cap_sched_control_cap (core : Z)
  | cap_frame_cap (capFMappedASID capFBasePtr capFSize capFVMRights : Z) (capFIsDevice : bool)
      (capFMappedAddress : Z)
  | cap_page_table_cap (capPTMappedASID capPTBasePtr : Z) (capPTIsMapped : bool) (capPTMappedAddress : Z)
  | cap_asid_control_cap
  | cap_asid_pool_cap (capASIDBase capASIDPool : Z).

#[global] Instance cap_eq_dec : EqDecision cap.
Proof. solve_decision. Defined.

(** The 5-bit tags of the union; odd tags are the architecture's. *)
Definition cap_get_capType (c : cap) : Z :=
  match c with
  | cap_null_cap => 0 | cap_untyped_cap _ _ _ _ => 2 | cap_endpoint_cap _ _ _ _ _ _ => 4
  | cap_notification_cap _ _ _ _ => 6 | cap_reply_cap _ _ => 8 | cap_cnode_cap _ _ _ _ => 10
  | cap_thread_cap _ => 12 | cap_irq_control_cap => 14 | cap_irq_handler_cap _ => 16
  | cap_zombie_cap _ _ => 18 | cap_domain_cap => 20 | cap_sched_context_cap _ _ => 22
  | cap_sched_control_cap _ => 24 | cap_frame_cap _ _ _ _ _ _ => 1
  | cap_page_table_cap _ _ _ _ => 3 | cap_asid_control_cap => 11 | cap_asid_pool_cap _ _ => 13
  end.
Definition isArchCap (c : cap) : bool := negb (cap_get_capType c mod 2 =? 0).
Definition is_null_cap (c : cap) : bool := cap_get_capType c =? 0.


(** Mapping database node: a doubly linked list through the capability slots. *)
Record mdb_node := mdb_node_new {
  mdbNext : Z;
  mdbRevocable : bool;
  mdbFirstBadged : bool;
  mdbPrev : Z
}.

#[global] Instance mdb_node_eq_dec : EqDecision mdb_node.
Proof. solve_decision. Defined.

(** Capability table entry. *)
Record cte := Cte {
  cte_cap : cap;
  cteMDBNode : mdb_node
}.

#[global] Instance cte_eq_dec : EqDecision cte.
Proof. solve_decision. Defined.

(** Thread state. *)
Record thread_state := ThreadState {
  blockingIPCBadge : Z;
  blockingIPCCanGrant : bool;
  blockingIPCCanGrantReply : bool;
  blockingIPCIsCall : bool;
  tcbQueued : bool;
  tcbInReleaseQueue : bool;
  blockingObject : Z;
  replyObject : Z;
  tsType : _thread_state
}.

(** Thread control block. [tcbContext] holds the user registers; a register
    that was never written reads as the zero of the cleared object. *)
Record tcb := Tcb {
  tcbContext : gmap Z Z;
  tcbState : thread_state;
  tcbFlags : Z;
  tcbBoundNotification : Z;
  tcbFault : seL4_Fault;
  tcbLookupFailure : lookup_fault;
  tcbDomain : Z;
  tcbMCP : Z;
  tcbPriority : Z;
  tcbSchedContext : Z;
  tcbYieldTo : Z;
  tcbIPCBuffer : Z;
  tcbSchedNext : Z;
  tcbSchedPrev : Z;
  tcbEPNext : Z;
  tcbEPPrev : Z
}.

(** [struct tcb_queue] of [kernel/include/object/tcb.h]. *)
Record tcb_queue := TcbQueue {
  q_head : Z;
  q_end : Z
}.

#[global] Instance tcb_queue_eq_dec : EqDecision tcb_queue.
Proof. solve_decision. Defined.

(** Endpoint. *)
Record endpoint := Endpoint {
  epQueue_head : Z;
  epQueue_tail : Z;
  ep_state : endpoint_state
}.

#[global] Instance endpoint_eq_dec : EqDecision endpoint.
Proof. solve_decision. Defined.

(** Notification. *)
Record notification := Notification {
  ntfnSchedContext : Z;
  ntfnBoundTCB : Z;
  ntfnMsgIdentifier : Z;
  ntfnQueue_head : Z;
  ntfnQueue_tail : Z;
  ntfn_state : notification_state
}.

(** A replenishment: from [rTime] on, [rAmount] ticks may be used. *)
Record refill := Refill {
  rTime : Z;
  rAmount : Z
}.

#[global] Instance refill_eq_dec : EqDecision refill.
Proof. solve_decision. Defined.

(** Scheduling context; [scRefills] is the array of refills that follows the
    struct in memory. *)
Record sched_context := SchedContext {
  scPeriod : Z;
  scConsumed : Z;
  scCore : Z;
  scTcb : Z;
  scReply : Z;
  scNotification : Z;
  scBadge : Z;
  scYieldFrom : Z;
  scRefillMax : Z;
  scRefillHead : Z;
  scRefillTail : Z;
  scSporadic : bool;
  scRefills : list refill
}.

(** A link of the call stack. *)
Record call_stack := call_stack_new {
  callStackPtr : Z;
  isHead : bool
}.

#[global] Instance call_stack_eq_dec : EqDecision call_stack.
Proof. solve_decision. Defined.

(** Reply object. *)
Record reply := Reply {
  replyTCB : Z;
  replyPrev : call_stack;
  replyNext : call_stack
}.

(** [struct syscall_error] of [kernel/include/api/failures.h]. *)
Record syscall_error := SyscallError {
  invalidArgumentNumber : Z;
  invalidCapNumber : Z;
  rangeErrorMin : Z;
  rangeErrorMax : Z;
  memoryLeft : Z;
  failedLookupWasSource : bool;
  err_type : seL4_Error
}.

(** The devices the kernel touches. What it reads is input: [dev_clock], [dev_sip]
    and [dev_mmio] give the value of the [n]-th read from the time register, the
    pending-interrupt register and a device address, and [dev_reads] counts the
    reads; [dev_stval] is the address of the trap that entered the kernel. What it
    writes is output: the enabled interrupts, the root of the address translation,
    the programmed deadline and the writes to device addresses, last one first. *)
Record device_state := DeviceState {
  dev_clock : nat → Z;
  dev_sip : nat → Z;
  dev_mmio : nat → Z → Z;
  dev_reads : nat;
  dev_stval : Z;
  dev_sie : Z;
  dev_satp : Z;
  dev_deadline : Z;
  dev_writes : list (Z * Z)
}.

(** The kernel state: the typed heaps, then the global variables. *)
Record kstate := KState {
  ctes : gmap Z cte;
  tcbs : gmap Z tcb;
  eps : gmap Z endpoint;
  ntfns : gmap Z notification;
  scs : gmap Z sched_context;
  replies : gmap Z reply;
  user_mem : gmap Z Z;
  ksReadyQueues : list tcb_queue;
  ksReadyQueuesL1Bitmap : list Z;
  ksReadyQueuesL2Bitmap : list (list Z);
  ksReleaseQueue : tcb_queue;
  ksCurThread : Z;
  ksIdleThread : Z;
  ksSchedulerAction : Z;
  ksConsumed : Z;
  ksReprogram : bool;
  ksCurTime : Z;
  ksCurSC : Z;
  ksIdleSC : Z;
  ksWorkUnitsCompleted : Z;
  intStateIRQTable : gmap Z irq_state;
  ksCurDomain : Z;
  ksDomainTime : Z;
  ksDomScheduleIdx : Z;
  ksDomScheduleStart : Z;
  ksDomSchedule : list Z;
  riscvKSASIDTable : list Z;
  active_irq : Z;
  current_extra_caps : list Z;
  current_syscall_error : syscall_error;
  current_lookup_fault : lookup_fault;
  current_fault : seL4_Fault;
  devices : device_state
}.


(** ** Field updates *)

Definition set_mdbNext (v : Z) (r : mdb_node) : mdb_node :=
  mdb_node_new v (r.(mdbRevocable)) (r.(mdbFirstBadged)) (r.(mdbPrev)).
Definition set_mdbRevocable (v : bool) (r : mdb_node) : mdb_node :=
  mdb_node_new (r.(mdbNext)) v (r.(mdbFirstBadged)) (r.(mdbPrev)).
Definition set_mdbFirstBadged (v : bool) (r : mdb_node) : mdb_node :=
  mdb_node_new (r.(mdbNext)) (r.(mdbRevocable)) v (r.(mdbPrev)).
Definition set_mdbPrev (v : Z) (r : mdb_node) : mdb_node :=
  mdb_node_new (r.(mdbNext)) (r.(mdbRevocable)) (r.(mdbFirstBadged)) v.

Definition set_cte_cap (v : cap) (r : cte) : cte :=
  Cte v (r.(cteMDBNode)).
Definition set_cteMDBNode (v : mdb_node) (r : cte) : cte :=
  Cte (r.(cte_cap)) v.

Definition set_blockingIPCBadge (v : Z) (r : thread_state) : thread_state :=
  ThreadState v (r.(blockingIPCCanGrant)) (r.(blockingIPCCanGrantReply)) (r.(blockingIPCIsCall)) (r.(tcbQueued)) (r.(tcbInReleaseQueue)) (r.(blockingObject)) (r.(replyObject)) (r.(tsType)).
Definition set_blockingIPCCanGrant (v : bool) (r : thread_state) : thread_state :=
  ThreadState (r.(blockingIPCBadge)) v (r.(blockingIPCCanGrantReply)) (r.(blockingIPCIsCall)) (r.(tcbQueued)) (r.(tcbInReleaseQueue)) (r.(blockingObject)) (r.(replyObject)) (r.(tsType)).
Definition set_blockingIPCCanGrantReply (v : bool) (r : thread_state) : thread_state :=
  ThreadState (r.(blockingIPCBadge)) (r.(blockingIPCCanGrant)) v (r.(blockingIPCIsCall)) (r.(tcbQueued)) (r.(tcbInReleaseQueue)) (r.(blockingObject)) (r.(replyObject)) (r.(tsType)).
Definition set_blockingIPCIsCall (v : bool) (r : thread_state) : thread_state :=
  ThreadState (r.(blockingIPCBadge)) (r.(blockingIPCCanGrant)) (r.(blockingIPCCanGrantReply)) v (r.(tcbQueued)) (r.(tcbInReleaseQueue)) (r.(blockingObject)) (r.(replyObject)) (r.(tsType)).
Definition set_tcbQueued (v : bool) (r : thread_state) : thread_state :=
  ThreadState (r.(blockingIPCBadge)) (r.(blockingIPCCanGrant)) (r.(blockingIPCCanGrantReply)) (r.(blockingIPCIsCall)) v (r.(tcbInReleaseQueue)) (r.(blockingObject)) (r.(replyObject)) (r.(tsType)).
Definition set_tcbInReleaseQueue (v : bool) (r : thread_state) : thread_state :=
  ThreadState (r.(blockingIPCBadge)) (r.(blockingIPCCanGrant)) (r.(blockingIPCCanGrantReply)) (r.(blockingIPCIsCall)) (r.(tcbQueued)) v (r.(blockingObject)) (r.(replyObject)) (r.(tsType)).
Definition set_blockingObject (v : Z) (r : thread_state) : thread_state :=
  ThreadState (r.(blockingIPCBadge)) (r.(blockingIPCCanGrant)) (r.(blockingIPCCanGrantReply)) (r.(blockingIPCIsCall)) (r.(tcbQueued)) (r.(tcbInReleaseQueue)) v (r.(replyObject)) (r.(tsType)).
Definition set_replyObject (v : Z) (r : thread_state) : thread_state :=
  ThreadState (r.(blockingIPCBadge)) (r.(blockingIPCCanGrant)) (r.(blockingIPCCanGrantReply)) (r.(blockingIPCIsCall)) (r.(tcbQueued)) (r.(tcbInReleaseQueue)) (r.(blockingObject)) v (r.(tsType)).
Definition set_tsType (v : _thread_state) (r : thread_state) : thread_state :=
  ThreadState (r.(blockingIPCBadge)) (r.(blockingIPCCanGrant)) (r.(blockingIPCCanGrantReply)) (r.(blockingIPCIsCall)) (r.(tcbQueued)) (r.(tcbInReleaseQueue)) (r.(blockingObject)) (r.(replyObject)) v.

Definition set_tcbContext (v : gmap Z Z) (r : tcb) : tcb :=
  Tcb v (r.(tcbState)) (r.(tcbFlags)) (r.(tcbBoundNotification)) (r.(tcbFault)) (r.(tcbLookupFailure)) (r.(tcbDomain)) (r.(tcbMCP)) (r.(tcbPriority)) (r.(tcbSchedContext)) (r.(tcbYieldTo)) (r.(tcbIPCBuffer)) (r.(tcbSchedNext)) (r.(tcbSchedPrev)) (r.(tcbEPNext)) (r.(tcbEPPrev)).
Definition set_tcbState (v : thread_state) (r : tcb) : tcb :=
  Tcb (r.(tcbContext)) v (r.(tcbFlags)) (r.(tcbBoundNotification)) (r.(tcbFault)) (r.(tcbLookupFailure)) (r.(tcbDomain)) (r.(tcbMCP)) (r.(tcbPriority)) (r.(tcbSchedContext)) (r.(tcbYieldTo)) (r.(tcbIPCBuffer)) (r.(tcbSchedNext)) (r.(tcbSchedPrev)) (r.(tcbEPNext)) (r.(tcbEPPrev)).
Definition set_tcbFlags (v : Z) (r : tcb) : tcb :=
  Tcb (r.(tcbContext)) (r.(tcbState)) v (r.(tcbBoundNotification)) (r.(tcbFault)) (r.(tcbLookupFailure)) (r.(tcbDomain)) (r.(tcbMCP)) (r.(tcbPriority)) (r.(tcbSchedContext)) (r.(tcbYieldTo)) (r.(tcbIPCBuffer)) (r.(tcbSchedNext)) (r.(tcbSchedPrev)) (r.(tcbEPNext)) (r.(tcbEPPrev)).
Definition set_tcbBoundNotification (v : Z) (r : tcb) : tcb :=
  Tcb (r.(tcbContext)) (r.(tcbState)) (r.(tcbFlags)) v (r.(tcbFault)) (r.(tcbLookupFailure)) (r.(tcbDomain)) (r.(tcbMCP)) (r.(tcbPriority)) (r.(tcbSchedContext)) (r.(tcbYieldTo)) (r.(tcbIPCBuffer)) (r.(tcbSchedNext)) (r.(tcbSchedPrev)) (r.(tcbEPNext)) (r.(tcbEPPrev)).
Definition set_tcbFault (v : seL4_Fault) (r : tcb) : tcb :=
  Tcb (r.(tcbContext)) (r.(tcbState)) (r.(tcbFlags)) (r.(tcbBoundNotification)) v (r.(tcbLookupFailure)) (r.(tcbDomain)) (r.(tcbMCP)) (r.(tcbPriority)) (r.(tcbSchedContext)) (r.(tcbYieldTo)) (r.(tcbIPCBuffer)) (r.(tcbSchedNext)) (r.(tcbSchedPrev)) (r.(tcbEPNext)) (r.(tcbEPPrev)).
Definition set_tcbLookupFailure (v : lookup_fault) (r : tcb) : tcb :=
  Tcb (r.(tcbContext)) (r.(tcbState)) (r.(tcbFlags)) (r.(tcbBoundNotification)) (r.(tcbFault)) v (r.(tcbDomain)) (r.(tcbMCP)) (r.(tcbPriority)) (r.(tcbSchedContext)) (r.(tcbYieldTo)) (r.(tcbIPCBuffer)) (r.(tcbSchedNext)) (r.(tcbSchedPrev)) (r.(tcbEPNext)) (r.(tcbEPPrev)).
Definition set_tcbDomain (v : Z) (r : tcb) : tcb :=
  Tcb (r.(tcbContext)) (r.(tcbState)) (r.(tcbFlags)) (r.(tcbBoundNotification)) (r.(tcbFault)) (r.(tcbLookupFailure)) v (r.(tcbMCP)) (r.(tcbPriority)) (r.(tcbSchedContext)) (r.(tcbYieldTo)) (r.(tcbIPCBuffer)) (r.(tcbSchedNext)) (r.(tcbSchedPrev)) (r.(tcbEPNext)) (r.(tcbEPPrev)).
Definition set_tcbMCP (v : Z) (r : tcb) : tcb :=
  Tcb (r.(tcbContext)) (r.(tcbState)) (r.(tcbFlags)) (r.(tcbBoundNotification)) (r.(tcbFault)) (r.(tcbLookupFailure)) (r.(tcbDomain)) v (r.(tcbPriority)) (r.(tcbSchedContext)) (r.(tcbYieldTo)) (r.(tcbIPCBuffer)) (r.(tcbSchedNext)) (r.(tcbSchedPrev)) (r.(tcbEPNext)) (r.(tcbEPPrev)).
Definition set_tcbPriority (v : Z) (r : tcb) : tcb :=
  Tcb (r.(tcbContext)) (r.(tcbState)) (r.(tcbFlags)) (r.(tcbBoundNotification)) (r.(tcbFault)) (r.(tcbLookupFailure)) (r.(tcbDomain)) (r.(tcbMCP)) v (r.(tcbSchedContext)) (r.(tcbYieldTo)) (r.(tcbIPCBuffer)) (r.(tcbSchedNext)) (r.(tcbSchedPrev)) (r.(tcbEPNext)) (r.(tcbEPPrev)).
Definition set_tcbSchedContext (v : Z) (r : tcb) : tcb :=
  Tcb (r.(tcbContext)) (r.(tcbState)) (r.(tcbFlags)) (r.(tcbBoundNotification)) (r.(tcbFault)) (r.(tcbLookupFailure)) (r.(tcbDomain)) (r.(tcbMCP)) (r.(tcbPriority)) v (r.(tcbYieldTo)) (r.(tcbIPCBuffer)) (r.(tcbSchedNext)) (r.(tcbSchedPrev)) (r.(tcbEPNext)) (r.(tcbEPPrev)).
Definition set_tcbYieldTo (v : Z) (r : tcb) : tcb :=
  Tcb (r.(tcbContext)) (r.(tcbState)) (r.(tcbFlags)) (r.(tcbBoundNotification)) (r.(tcbFault)) (r.(tcbLookupFailure)) (r.(tcbDomain)) (r.(tcbMCP)) (r.(tcbPriority)) (r.(tcbSchedContext)) v (r.(tcbIPCBuffer)) (r.(tcbSchedNext)) (r.(tcbSchedPrev)) (r.(tcbEPNext)) (r.(tcbEPPrev)).
Definition set_tcbIPCBuffer (v : Z) (r : tcb) : tcb :=
  Tcb (r.(tcbContext)) (r.(tcbState)) (r.(tcbFlags)) (r.(tcbBoundNotification)) (r.(tcbFault)) (r.(tcbLookupFailure)) (r.(tcbDomain)) (r.(tcbMCP)) (r.(tcbPriority)) (r.(tcbSchedContext)) (r.(tcbYieldTo)) v (r.(tcbSchedNext)) (r.(tcbSchedPrev)) (r.(tcbEPNext)) (r.(tcbEPPrev)).
Definition set_tcbSchedNext (v : Z) (r : tcb) : tcb :=
  Tcb (r.(tcbContext)) (r.(tcbState)) (r.(tcbFlags)) (r.(tcbBoundNotification)) (r.(tcbFault)) (r.(tcbLookupFailure)) (r.(tcbDomain)) (r.(tcbMCP)) (r.(tcbPriority)) (r.(tcbSchedContext)) (r.(tcbYieldTo)) (r.(tcbIPCBuffer)) v (r.(tcbSchedPrev)) (r.(tcbEPNext)) (r.(tcbEPPrev)).
Definition set_tcbSchedPrev (v : Z) (r : tcb) : tcb :=
  Tcb (r.(tcbContext)) (r.(tcbState)) (r.(tcbFlags)) (r.(tcbBoundNotification)) (r.(tcbFault)) (r.(tcbLookupFailure)) (r.(tcbDomain)) (r.(tcbMCP)) (r.(tcbPriority)) (r.(tcbSchedContext)) (r.(tcbYieldTo)) (r.(tcbIPCBuffer)) (r.(tcbSchedNext)) v (r.(tcbEPNext)) (r.(tcbEPPrev)).
Definition set_tcbEPNext (v : Z) (r : tcb) : tcb :=
  Tcb (r.(tcbContext)) (r.(tcbState)) (r.(tcbFlags)) (r.(tcbBoundNotification)) (r.(tcbFault)) (r.(tcbLookupFailure)) (r.(tcbDomain)) (r.(tcbMCP)) (r.(tcbPriority)) (r.(tcbSchedContext)) (r.(tcbYieldTo)) (r.(tcbIPCBuffer)) (r.(tcbSchedNext)) (r.(tcbSchedPrev)) v (r.(tcbEPPrev)).
Definition set_tcbEPPrev (v : Z) (r : tcb) : tcb :=
  Tcb (r.(tcbContext)) (r.(tcbState)) (r.(tcbFlags)) (r.(tcbBoundNotification)) (r.(tcbFault)) (r.(tcbLookupFailure)) (r.(tcbDomain)) (r.(tcbMCP)) (r.(tcbPriority)) (r.(tcbSchedContext)) (r.(tcbYieldTo)) (r.(tcbIPCBuffer)) (r.(tcbSchedNext)) (r.(tcbSchedPrev)) (r.(tcbEPNext)) v.

Definition set_q_head (v : Z) (r : tcb_queue) : tcb_queue :=
  TcbQueue v (r.(q_end)).
Definition set_q_end (v : Z) (r : tcb_queue) : tcb_queue :=
  TcbQueue (r.(q_head)) v.

Definition set_epQueue_head (v : Z) (r : endpoint) : endpoint :=
  Endpoint v (r.(epQueue_tail)) (r.(ep_state)).
Definition set_epQueue_tail (v : Z) (r : endpoint) : endpoint :=
  Endpoint (r.(epQueue_head)) v (r.(ep_state)).
Definition set_ep_state (v : endpoint_state) (r : endpoint) : endpoint :=
  Endpoint (r.(epQueue_head)) (r.(epQueue_tail)) v.

Definition set_ntfnSchedContext (v : Z) (r : notification) : notification :=
  Notification v (r.(ntfnBoundTCB)) (r.(ntfnMsgIdentifier)) (r.(ntfnQueue_head)) (r.(ntfnQueue_tail)) (r.(ntfn_state)).
Definition set_ntfnBoundTCB (v : Z) (r : notification) : notification :=
  Notification (r.(ntfnSchedContext)) v (r.(ntfnMsgIdentifier)) (r.(ntfnQueue_head)) (r.(ntfnQueue_tail)) (r.(ntfn_state)).
Definition set_ntfnMsgIdentifier (v : Z) (r : notification) : notification :=
  Notification (r.(ntfnSchedContext)) (r.(ntfnBoundTCB)) v (r.(ntfnQueue_head)) (r.(ntfnQueue_tail)) (r.(ntfn_state)).
Definition set_ntfnQueue_head (v : Z) (r : notification) : notification :=
  Notification (r.(ntfnSchedContext)) (r.(ntfnBoundTCB)) (r.(ntfnMsgIdentifier)) v (r.(ntfnQueue_tail)) (r.(ntfn_state)).
Definition set_ntfnQueue_tail (v : Z) (r : notification) : notification :=
  Notification (r.(ntfnSchedContext)) (r.(ntfnBoundTCB)) (r.(ntfnMsgIdentifier)) (r.(ntfnQueue_head)) v (r.(ntfn_state)).
Definition set_ntfn_state (v : notification_state) (r : notification) : notification :=
  Notification (r.(ntfnSchedContext)) (r.(ntfnBoundTCB)) (r.(ntfnMsgIdentifier)) (r.(ntfnQueue_head)) (r.(ntfnQueue_tail)) v.

Definition set_scPeriod (v : Z) (r : sched_context) : sched_context :=
  SchedContext v (r.(scConsumed)) (r.(scCore)) (r.(scTcb)) (r.(scReply)) (r.(scNotification)) (r.(scBadge)) (r.(scYieldFrom)) (r.(scRefillMax)) (r.(scRefillHead)) (r.(scRefillTail)) (r.(scSporadic)) (r.(scRefills)).
Definition set_scConsumed (v : Z) (r : sched_context) : sched_context :=
  SchedContext (r.(scPeriod)) v (r.(scCore)) (r.(scTcb)) (r.(scReply)) (r.(scNotification)) (r.(scBadge)) (r.(scYieldFrom)) (r.(scRefillMax)) (r.(scRefillHead)) (r.(scRefillTail)) (r.(scSporadic)) (r.(scRefills)).
Definition set_scCore (v : Z) (r : sched_context) : sched_context :=
  SchedContext (r.(scPeriod)) (r.(scConsumed)) v (r.(scTcb)) (r.(scReply)) (r.(scNotification)) (r.(scBadge)) (r.(scYieldFrom)) (r.(scRefillMax)) (r.(scRefillHead)) (r.(scRefillTail)) (r.(scSporadic)) (r.(scRefills)).
Definition set_scTcb (v : Z) (r : sched_context) : sched_context :=
  SchedContext (r.(scPeriod)) (r.(scConsumed)) (r.(scCore)) v (r.(scReply)) (r.(scNotification)) (r.(scBadge)) (r.(scYieldFrom)) (r.(scRefillMax)) (r.(scRefillHead)) (r.(scRefillTail)) (r.(scSporadic)) (r.(scRefills)).
Definition set_scReply (v : Z) (r : sched_context) : sched_context :=
  SchedContext (r.(scPeriod)) (r.(scConsumed)) (r.(scCore)) (r.(scTcb)) v (r.(scNotification)) (r.(scBadge)) (r.(scYieldFrom)) (r.(scRefillMax)) (r.(scRefillHead)) (r.(scRefillTail)) (r.(scSporadic)) (r.(scRefills)).
Definition set_scNotification (v : Z) (r : sched_context) : sched_context :=
  SchedContext (r.(scPeriod)) (r.(scConsumed)) (r.(scCore)) (r.(scTcb)) (r.(scReply)) v (r.(scBadge)) (r.(scYieldFrom)) (r.(scRefillMax)) (r.(scRefillHead)) (r.(scRefillTail)) (r.(scSporadic)) (r.(scRefills)).
Definition set_scBadge (v : Z) (r : sched_context) : sched_context :=
  SchedContext (r.(scPeriod)) (r.(scConsumed)) (r.(scCore)) (r.(scTcb)) (r.(scReply)) (r.(scNotification)) v (r.(scYieldFrom)) (r.(scRefillMax)) (r.(scRefillHead)) (r.(scRefillTail)) (r.(scSporadic)) (r.(scRefills)).
Definition set_scYieldFrom (v : Z) (r : sched_context) : sched_context :=
  SchedContext (r.(scPeriod)) (r.(scConsumed)) (r.(scCore)) (r.(scTcb)) (r.(scReply)) (r.(scNotification)) (r.(scBadge)) v (r.(scRefillMax)) (r.(scRefillHead)) (r.(scRefillTail)) (r.(scSporadic)) (r.(scRefills)).
Definition set_scRefillMax (v : Z) (r : sched_context) : sched_context :=
  SchedContext (r.(scPeriod)) (r.(scConsumed)) (r.(scCore)) (r.(scTcb)) (r.(scReply)) (r.(scNotification)) (r.(scBadge)) (r.(scYieldFrom)) v (r.(scRefillHead)) (r.(scRefillTail)) (r.(scSporadic)) (r.(scRefills)).
Definition set_scRefillHead (v : Z) (r : sched_context) : sched_context :=
  SchedContext (r.(scPeriod)) (r.(scConsumed)) (r.(scCore)) (r.(scTcb)) (r.(scReply)) (r.(scNotification)) (r.(scBadge)) (r.(scYieldFrom)) (r.(scRefillMax)) v (r.(scRefillTail)) (r.(scSporadic)) (r.(scRefills)).
Definition set_scRefillTail (v : Z) (r : sched_context) : sched_context :=
  SchedContext (r.(scPeriod)) (r.(scConsumed)) (r.(scCore)) (r.(scTcb)) (r.(scReply)) (r.(scNotification)) (r.(scBadge)) (r.(scYieldFrom)) (r.(scRefillMax)) (r.(scRefillHead)) v (r.(scSporadic)) (r.(scRefills)).
Definition set_scSporadic (v : bool) (r : sched_context) : sched_context :=
  SchedContext (r.(scPeriod)) (r.(scConsumed)) (r.(scCore)) (r.(scTcb)) (r.(scReply)) (r.(scNotification)) (r.(scBadge)) (r.(scYieldFrom)) (r.(scRefillMax)) (r.(scRefillHead)) (r.(scRefillTail)) v (r.(scRefills)).
Definition set_scRefills (v : list refill) (r : sched_context) : sched_context :=
  SchedContext (r.(scPeriod)) (r.(scConsumed)) (r.(scCore)) (r.(scTcb)) (r.(scReply)) (r.(scNotification)) (r.(scBadge)) (r.(scYieldFrom)) (r.(scRefillMax)) (r.(scRefillHead)) (r.(scRefillTail)) (r.(scSporadic)) v.

Definition set_replyTCB (v : Z) (r : reply) : reply :=
  Reply v (r.(replyPrev)) (r.(replyNext)).
Definition set_replyPrev (v : call_stack) (r : reply) : reply :=
  Reply (r.(replyTCB)) v (r.(replyNext)).
Definition set_replyNext (v : call_stack) (r : reply) : reply :=
  Reply (r.(replyTCB)) (r.(replyPrev)) v.

Definition set_invalidArgumentNumber (v : Z) (r : syscall_error) : syscall_error :=
  SyscallError v (r.(invalidCapNumber)) (r.(rangeErrorMin)) (r.(rangeErrorMax)) (r.(memoryLeft)) (r.(failedLookupWasSource)) (r.(err_type)).
Definition set_invalidCapNumber (v : Z) (r : syscall_error) : syscall_error :=
  SyscallError (r.(invalidArgumentNumber)) v (r.(rangeErrorMin)) (r.(rangeErrorMax)) (r.(memoryLeft)) (r.(failedLookupWasSource)) (r.(err_type)).
Definition set_rangeErrorMin (v : Z) (r : syscall_error) : syscall_error :=
  SyscallError (r.(invalidArgumentNumber)) (r.(invalidCapNumber)) v (r.(rangeErrorMax)) (r.(memoryLeft)) (r.(failedLookupWasSource)) (r.(err_type)).
Definition set_rangeErrorMax (v : Z) (r : syscall_error) : syscall_error :=
  SyscallError (r.(invalidArgumentNumber)) (r.(invalidCapNumber)) (r.(rangeErrorMin)) v (r.(memoryLeft)) (r.(failedLookupWasSource)) (r.(err_type)).
Definition set_memoryLeft (v : Z) (r : syscall_error) : syscall_error :=
  SyscallError (r.(invalidArgumentNumber)) (r.(invalidCapNumber)) (r.(rangeErrorMin)) (r.(rangeErrorMax)) v (r.(failedLookupWasSource)) (r.(err_type)).
Definition set_failedLookupWasSource (v : bool) (r : syscall_error) : syscall_error :=
  SyscallError (r.(invalidArgumentNumber)) (r.(invalidCapNumber)) (r.(rangeErrorMin)) (r.(rangeErrorMax)) (r.(memoryLeft)) v (r.(err_type)).
Definition set_err_type (v : seL4_Error) (r : syscall_error) : syscall_error :=
  SyscallError (r.(invalidArgumentNumber)) (r.(invalidCapNumber)) (r.(rangeErrorMin)) (r.(rangeErrorMax)) (r.(memoryLeft)) (r.(failedLookupWasSource)) v.

Definition set_ctes (v : gmap Z cte) (r : kstate) : kstate :=
  KState v (r.(tcbs)) (r.(eps)) (r.(ntfns)) (r.(scs)) (r.(replies)) (r.(user_mem)) (r.(ksReadyQueues)) (r.(ksReadyQueuesL1Bitmap)) (r.(ksReadyQueuesL2Bitmap)) (r.(ksReleaseQueue)) (r.(ksCurThread)) (r.(ksIdleThread)) (r.(ksSchedulerAction)) (r.(ksConsumed)) (r.(ksReprogram)) (r.(ksCurTime)) (r.(ksCurSC)) (r.(ksIdleSC)) (r.(ksWorkUnitsCompleted)) (r.(intStateIRQTable)) (r.(ksCurDomain)) (r.(ksDomainTime)) (r.(ksDomScheduleIdx)) (r.(ksDomScheduleStart)) (r.(ksDomSchedule)) (r.(riscvKSASIDTable)) (r.(active_irq)) (r.(current_extra_caps)) (r.(current_syscall_error)) (r.(current_lookup_fault)) (r.(current_fault)) (r.(devices)).
Definition set_tcbs (v : gmap Z tcb) (r : kstate) : kstate :=
  KState (r.(ctes)) v (r.(eps)) (r.(ntfns)) (r.(scs)) (r.(replies)) (r.(user_mem)) (r.(ksReadyQueues)) (r.(ksReadyQueuesL1Bitmap)) (r.(ksReadyQueuesL2Bitmap)) (r.(ksReleaseQueue)) (r.(ksCurThread)) (r.(ksIdleThread)) (r.(ksSchedulerAction)) (r.(ksConsumed)) (r.(ksReprogram)) (r.(ksCurTime)) (r.(ksCurSC)) (r.(ksIdleSC)) (r.(ksWorkUnitsCompleted)) (r.(intStateIRQTable)) (r.(ksCurDomain)) (r.(ksDomainTime)) (r.(ksDomScheduleIdx)) (r.(ksDomScheduleStart)) (r.(ksDomSchedule)) (r.(riscvKSASIDTable)) (r.(active_irq)) (r.(current_extra_caps)) (r.(current_syscall_error)) (r.(current_lookup_fault)) (r.(current_fault)) (r.(devices)).
Definition set_eps (v : gmap Z endpoint) (r : kstate) : kstate :=
  KState (r.(ctes)) (r.(tcbs)) v (r.(ntfns)) (r.(scs)) (r.(replies)) (r.(user_mem)) (r.(ksReadyQueues)) (r.(ksReadyQueuesL1Bitmap)) (r.(ksReadyQueuesL2Bitmap)) (r.(ksReleaseQueue)) (r.(ksCurThread)) (r.(ksIdleThread)) (r.(ksSchedulerAction)) (r.(ksConsumed)) (r.(ksReprogram)) (r.(ksCurTime)) (r.(ksCurSC)) (r.(ksIdleSC)) (r.(ksWorkUnitsCompleted)) (r.(intStateIRQTable)) (r.(ksCurDomain)) (r.(ksDomainTime)) (r.(ksDomScheduleIdx)) (r.(ksDomScheduleStart)) (r.(ksDomSchedule)) (r.(riscvKSASIDTable)) (r.(active_irq)) (r.(current_extra_caps)) (r.(current_syscall_error)) (r.(current_lookup_fault)) (r.(current_fault)) (r.(devices)).
Definition set_ntfns (v : gmap Z notification) (r : kstate) : kstate :=
  KState (r.(ctes)) (r.(tcbs)) (r.(eps)) v (r.(scs)) (r.(replies)) (r.(user_mem)) (r.(ksReadyQueues)) (r.(ksReadyQueuesL1Bitmap)) (r.(ksReadyQueuesL2Bitmap)) (r.(ksReleaseQueue)) (r.(ksCurThread)) (r.(ksIdleThread)) (r.(ksSchedulerAction)) (r.(ksConsumed)) (r.(ksReprogram)) (r.(ksCurTime)) (r.(ksCurSC)) (r.(ksIdleSC)) (r.(ksWorkUnitsCompleted)) (r.(intStateIRQTable)) (r.(ksCurDomain)) (r.(ksDomainTime)) (r.(ksDomScheduleIdx)) (r.(ksDomScheduleStart)) (r.(ksDomSchedule)) (r.(riscvKSASIDTable)) (r.(active_irq)) (r.(current_extra_caps)) (r.(current_syscall_error)) (r.(current_lookup_fault)) (r.(current_fault)) (r.(devices)).
Definition set_scs (v : gmap Z sched_context) (r : kstate) : kstate :=
  KState (r.(ctes)) (r.(tcbs)) (r.(eps)) (r.(ntfns)) v (r.(replies)) (r.(user_mem)) (r.(ksReadyQueues)) (r.(ksReadyQueuesL1Bitmap)) (r.(ksReadyQueuesL2Bitmap)) (r.(ksReleaseQueue)) (r.(ksCurThread)) (r.(ksIdleThread)) (r.(ksSchedulerAction)) (r.(ksConsumed)) (r.(ksReprogram)) (r.(ksCurTime)) (r.(ksCurSC)) (r.(ksIdleSC)) (r.(ksWorkUnitsCompleted)) (r.(intStateIRQTable)) (r.(ksCurDomain)) (r.(ksDomainTime)) (r.(ksDomScheduleIdx)) (r.(ksDomScheduleStart)) (r.(ksDomSchedule)) (r.(riscvKSASIDTable)) (r.(active_irq)) (r.(current_extra_caps)) (r.(current_syscall_error)) (r.(current_lookup_fault)) (r.(current_fault)) (r.(devices)).
Definition set_replies (v : gmap Z reply) (r : kstate) : kstate :=
  KState (r.(ctes)) (r.(tcbs)) (r.(eps)) (r.(ntfns)) (r.(scs)) v (r.(user_mem)) (r.(ksReadyQueues)) (r.(ksReadyQueuesL1Bitmap)) (r.(ksReadyQueuesL2Bitmap)) (r.(ksReleaseQueue)) (r.(ksCurThread)) (r.(ksIdleThread)) (r.(ksSchedulerAction)) (r.(ksConsumed)) (r.(ksReprogram)) (r.(ksCurTime)) (r.(ksCurSC)) (r.(ksIdleSC)) (r.(ksWorkUnitsCompleted)) (r.(intStateIRQTable)) (r.(ksCurDomain)) (r.(ksDomainTime)) (r.(ksDomScheduleIdx)) (r.(ksDomScheduleStart)) (r.(ksDomSchedule)) (r.(riscvKSASIDTable)) (r.(active_irq)) (r.(current_extra_caps)) (r.(current_syscall_error)) (r.(current_lookup_fault)) (r.(current_fault)) (r.(devices)).
Definition set_user_mem (v : gmap Z Z) (r : kstate) : kstate :=
  KState (r.(ctes)) (r.(tcbs)) (r.(eps)) (r.(ntfns)) (r.(scs)) (r.(replies)) v (r.(ksReadyQueues)) (r.(ksReadyQueuesL1Bitmap)) (r.(ksReadyQueuesL2Bitmap)) (r.(ksReleaseQueue)) (r.(ksCurThread)) (r.(ksIdleThread)) (r.(ksSchedulerAction)) (r.(ksConsumed)) (r.(ksReprogram)) (r.(ksCurTime)) (r.(ksCurSC)) (r.(ksIdleSC)) (r.(ksWorkUnitsCompleted)) (r.(intStateIRQTable)) (r.(ksCurDomain)) (r.(ksDomainTime)) (r.(ksDomScheduleIdx)) (r.(ksDomScheduleStart)) (r.(ksDomSchedule)) (r.(riscvKSASIDTable)) (r.(active_irq)) (r.(current_extra_caps)) (r.(current_syscall_error)) (r.(current_lookup_fault)) (r.(current_fault)) (r.(devices)).
Definition set_ksReadyQueues (v : list tcb_queue) (r : kstate) : kstate :=
  KState (r.(ctes)) (r.(tcbs)) (r.(eps)) (r.(ntfns)) (r.(scs)) (r.(replies)) (r.(user_mem)) v (r.(ksReadyQueuesL1Bitmap)) (r.(ksReadyQueuesL2Bitmap)) (r.(ksReleaseQueue)) (r.(ksCurThread)) (r.(ksIdleThread)) (r.(ksSchedulerAction)) (r.(ksConsumed)) (r.(ksReprogram)) (r.(ksCurTime)) (r.(ksCurSC)) (r.(ksIdleSC)) (r.(ksWorkUnitsCompleted)) (r.(intStateIRQTable)) (r.(ksCurDomain)) (r.(ksDomainTime)) (r.(ksDomScheduleIdx)) (r.(ksDomScheduleStart)) (r.(ksDomSchedule)) (r.(riscvKSASIDTable)) (r.(active_irq)) (r.(current_extra_caps)) (r.(current_syscall_error)) (r.(current_lookup_fault)) (r.(current_fault)) (r.(devices)).
Definition set_ksReadyQueuesL1Bitmap (v : list Z) (r : kstate) : kstate :=
  KState (r.(ctes)) (r.(tcbs)) (r.(eps)) (r.(ntfns)) (r.(scs)) (r.(replies)) (r.(user_mem)) (r.(ksReadyQueues)) v (r.(ksReadyQueuesL2Bitmap)) (r.(ksReleaseQueue)) (r.(ksCurThread)) (r.(ksIdleThread)) (r.(ksSchedulerAction)) (r.(ksConsumed)) (r.(ksReprogram)) (r.(ksCurTime)) (r.(ksCurSC)) (r.(ksIdleSC)) (r.(ksWorkUnitsCompleted)) (r.(intStateIRQTable)) (r.(ksCurDomain)) (r.(ksDomainTime)) (r.(ksDomScheduleIdx)) (r.(ksDomScheduleStart)) (r.(ksDomSchedule)) (r.(riscvKSASIDTable)) (r.(active_irq)) (r.(current_extra_caps)) (r.(current_syscall_error)) (r.(current_lookup_fault)) (r.(current_fault)) (r.(devices)).
Definition set_ksReadyQueuesL2Bitmap (v : list (list Z)) (r : kstate) : kstate :=
  KState (r.(ctes)) (r.(tcbs)) (r.(eps)) (r.(ntfns)) (r.(scs)) (r.(replies)) (r.(user_mem)) (r.(ksReadyQueues)) (r.(ksReadyQueuesL1Bitmap)) v (r.(ksReleaseQueue)) (r.(ksCurThread)) (r.(ksIdleThread)) (r.(ksSchedulerAction)) (r.(ksConsumed)) (r.(ksReprogram)) (r.(ksCurTime)) (r.(ksCurSC)) (r.(ksIdleSC)) (r.(ksWorkUnitsCompleted)) (r.(intStateIRQTable)) (r.(ksCurDomain)) (r.(ksDomainTime)) (r.(ksDomScheduleIdx)) (r.(ksDomScheduleStart)) (r.(ksDomSchedule)) (r.(riscvKSASIDTable)) (r.(active_irq)) (r.(current_extra_caps)) (r.(current_syscall_error)) (r.(current_lookup_fault)) (r.(current_fault)) (r.(devices)).
Definition set_ksReleaseQueue (v : tcb_queue) (r : kstate) : kstate :=
  KState (r.(ctes)) (r.(tcbs)) (r.(eps)) (r.(ntfns)) (r.(scs)) (r.(replies)) (r.(user_mem)) (r.(ksReadyQueues)) (r.(ksReadyQueuesL1Bitmap)) (r.(ksReadyQueuesL2Bitmap)) v (r.(ksCurThread)) (r.(ksIdleThread)) (r.(ksSchedulerAction)) (r.(ksConsumed)) (r.(ksReprogram)) (r.(ksCurTime)) (r.(ksCurSC)) (r.(ksIdleSC)) (r.(ksWorkUnitsCompleted)) (r.(intStateIRQTable)) (r.(ksCurDomain)) (r.(ksDomainTime)) (r.(ksDomScheduleIdx)) (r.(ksDomScheduleStart)) (r.(ksDomSchedule)) (r.(riscvKSASIDTable)) (r.(active_irq)) (r.(current_extra_caps)) (r.(current_syscall_error)) (r.(current_lookup_fault)) (r.(current_fault)) (r.(devices)).
Definition set_ksCurThread (v : Z) (r : kstate) : kstate :=
  KState (r.(ctes)) (r.(tcbs)) (r.(eps)) (r.(ntfns)) (r.(scs)) (r.(replies)) (r.(user_mem)) (r.(ksReadyQueues)) (r.(ksReadyQueuesL1Bitmap)) (r.(ksReadyQueuesL2Bitmap)) (r.(ksReleaseQueue)) v (r.(ksIdleThread)) (r.(ksSchedulerAction)) (r.(ksConsumed)) (r.(ksReprogram)) (r.(ksCurTime)) (r.(ksCurSC)) (r.(ksIdleSC)) (r.(ksWorkUnitsCompleted)) (r.(intStateIRQTable)) (r.(ksCurDomain)) (r.(ksDomainTime)) (r.(ksDomScheduleIdx)) (r.(ksDomScheduleStart)) (r.(ksDomSchedule)) (r.(riscvKSASIDTable)) (r.(active_irq)) (r.(current_extra_caps)) (r.(current_syscall_error)) (r.(current_lookup_fault)) (r.(current_fault)) (r.(devices)).
Definition set_ksIdleThread (v : Z) (r : kstate) : kstate :=
  KState (r.(ctes)) (r.(tcbs)) (r.(eps)) (r.(ntfns)) (r.(scs)) (r.(replies)) (r.(user_mem)) (r.(ksReadyQueues)) (r.(ksReadyQueuesL1Bitmap)) (r.(ksReadyQueuesL2Bitmap)) (r.(ksReleaseQueue)) (r.(ksCurThread)) v (r.(ksSchedulerAction)) (r.(ksConsumed)) (r.(ksReprogram)) (r.(ksCurTime)) (r.(ksCurSC)) (r.(ksIdleSC)) (r.(ksWorkUnitsCompleted)) (r.(intStateIRQTable)) (r.(ksCurDomain)) (r.(ksDomainTime)) (r.(ksDomScheduleIdx)) (r.(ksDomScheduleStart)) (r.(ksDomSchedule)) (r.(riscvKSASIDTable)) (r.(active_irq)) (r.(current_extra_caps)) (r.(current_syscall_error)) (r.(current_lookup_fault)) (r.(current_fault)) (r.(devices)).
Definition set_ksSchedulerAction (v : Z) (r : kstate) : kstate :=
  KState (r.(ctes)) (r.(tcbs)) (r.(eps)) (r.(ntfns)) (r.(scs)) (r.(replies)) (r.(user_mem)) (r.(ksReadyQueues)) (r.(ksReadyQueuesL1Bitmap)) (r.(ksReadyQueuesL2Bitmap)) (r.(ksReleaseQueue)) (r.(ksCurThread)) (r.(ksIdleThread)) v (r.(ksConsumed)) (r.(ksReprogram)) (r.(ksCurTime)) (r.(ksCurSC)) (r.(ksIdleSC)) (r.(ksWorkUnitsCompleted)) (r.(intStateIRQTable)) (r.(ksCurDomain)) (r.(ksDomainTime)) (r.(ksDomScheduleIdx)) (r.(ksDomScheduleStart)) (r.(ksDomSchedule)) (r.(riscvKSASIDTable)) (r.(active_irq)) (r.(current_extra_caps)) (r.(current_syscall_error)) (r.(current_lookup_fault)) (r.(current_fault)) (r.(devices)).
Definition set_ksConsumed (v : Z) (r : kstate) : kstate :=
  KState (r.(ctes)) (r.(tcbs)) (r.(eps)) (r.(ntfns)) (r.(scs)) (r.(replies)) (r.(user_mem)) (r.(ksReadyQueues)) (r.(ksReadyQueuesL1Bitmap)) (r.(ksReadyQueuesL2Bitmap)) (r.(ksReleaseQueue)) (r.(ksCurThread)) (r.(ksIdleThread)) (r.(ksSchedulerAction)) v (r.(ksReprogram)) (r.(ksCurTime)) (r.(ksCurSC)) (r.(ksIdleSC)) (r.(ksWorkUnitsCompleted)) (r.(intStateIRQTable)) (r.(ksCurDomain)) (r.(ksDomainTime)) (r.(ksDomScheduleIdx)) (r.(ksDomScheduleStart)) (r.(ksDomSchedule)) (r.(riscvKSASIDTable)) (r.(active_irq)) (r.(current_extra_caps)) (r.(current_syscall_error)) (r.(current_lookup_fault)) (r.(current_fault)) (r.(devices)).
Definition set_ksReprogram (v : bool) (r : kstate) : kstate :=
  KState (r.(ctes)) (r.(tcbs)) (r.(eps)) (r.(ntfns)) (r.(scs)) (r.(replies)) (r.(user_mem)) (r.(ksReadyQueues)) (r.(ksReadyQueuesL1Bitmap)) (r.(ksReadyQueuesL2Bitmap)) (r.(ksReleaseQueue)) (r.(ksCurThread)) (r.(ksIdleThread)) (r.(ksSchedulerAction)) (r.(ksConsumed)) v (r.(ksCurTime)) (r.(ksCurSC)) (r.(ksIdleSC)) (r.(ksWorkUnitsCompleted)) (r.(intStateIRQTable)) (r.(ksCurDomain)) (r.(ksDomainTime)) (r.(ksDomScheduleIdx)) (r.(ksDomScheduleStart)) (r.(ksDomSchedule)) (r.(riscvKSASIDTable)) (r.(active_irq)) (r.(current_extra_caps)) (r.(current_syscall_error)) (r.(current_lookup_fault)) (r.(current_fault)) (r.(devices)).
Definition set_ksCurTime (v : Z) (r : kstate) : kstate :=
  KState (r.(ctes)) (r.(tcbs)) (r.(eps)) (r.(ntfns)) (r.(scs)) (r.(replies)) (r.(user_mem)) (r.(ksReadyQueues)) (r.(ksReadyQueuesL1Bitmap)) (r.(ksReadyQueuesL2Bitmap)) (r.(ksReleaseQueue)) (r.(ksCurThread)) (r.(ksIdleThread)) (r.(ksSchedulerAction)) (r.(ksConsumed)) (r.(ksReprogram)) v (r.(ksCurSC)) (r.(ksIdleSC)) (r.(ksWorkUnitsCompleted)) (r.(intStateIRQTable)) (r.(ksCurDomain)) (r.(ksDomainTime)) (r.(ksDomScheduleIdx)) (r.(ksDomScheduleStart)) (r.(ksDomSchedule)) (r.(riscvKSASIDTable)) (r.(active_irq)) (r.(current_extra_caps)) (r.(current_syscall_error)) (r.(current_lookup_fault)) (r.(current_fault)) (r.(devices)).
Definition set_ksCurSC (v : Z) (r : kstate) : kstate :=
  KState (r.(ctes)) (r.(tcbs)) (r.(eps)) (r.(ntfns)) (r.(scs)) (r.(replies)) (r.(user_mem)) (r.(ksReadyQueues)) (r.(ksReadyQueuesL1Bitmap)) (r.(ksReadyQueuesL2Bitmap)) (r.(ksReleaseQueue)) (r.(ksCurThread)) (r.(ksIdleThread)) (r.(ksSchedulerAction)) (r.(ksConsumed)) (r.(ksReprogram)) (r.(ksCurTime)) v (r.(ksIdleSC)) (r.(ksWorkUnitsCompleted)) (r.(intStateIRQTable)) (r.(ksCurDomain)) (r.(ksDomainTime)) (r.(ksDomScheduleIdx)) (r.(ksDomScheduleStart)) (r.(ksDomSchedule)) (r.(riscvKSASIDTable)) (r.(active_irq)) (r.(current_extra_caps)) (r.(current_syscall_error)) (r.(current_lookup_fault)) (r.(current_fault)) (r.(devices)).
Definition set_ksIdleSC (v : Z) (r : kstate) : kstate :=
  KState (r.(ctes)) (r.(tcbs)) (r.(eps)) (r.(ntfns)) (r.(scs)) (r.(replies)) (r.(user_mem)) (r.(ksReadyQueues)) (r.(ksReadyQueuesL1Bitmap)) (r.(ksReadyQueuesL2Bitmap)) (r.(ksReleaseQueue)) (r.(ksCurThread)) (r.(ksIdleThread)) (r.(ksSchedulerAction)) (r.(ksConsumed)) (r.(ksReprogram)) (r.(ksCurTime)) (r.(ksCurSC)) v (r.(ksWorkUnitsCompleted)) (r.(intStateIRQTable)) (r.(ksCurDomain)) (r.(ksDomainTime)) (r.(ksDomScheduleIdx)) (r.(ksDomScheduleStart)) (r.(ksDomSchedule)) (r.(riscvKSASIDTable)) (r.(active_irq)) (r.(current_extra_caps)) (r.(current_syscall_error)) (r.(current_lookup_fault)) (r.(current_fault)) (r.(devices)).
Definition set_ksWorkUnitsCompleted (v : Z) (r : kstate) : kstate :=
  KState (r.(ctes)) (r.(tcbs)) (r.(eps)) (r.(ntfns)) (r.(scs)) (r.(replies)) (r.(user_mem)) (r.(ksReadyQueues)) (r.(ksReadyQueuesL1Bitmap)) (r.(ksReadyQueuesL2Bitmap)) (r.(ksReleaseQueue)) (r.(ksCurThread)) (r.(ksIdleThread)) (r.(ksSchedulerAction)) (r.(ksConsumed)) (r.(ksReprogram)) (r.(ksCurTime)) (r.(ksCurSC)) (r.(ksIdleSC)) v (r.(intStateIRQTable)) (r.(ksCurDomain)) (r.(ksDomainTime)) (r.(ksDomScheduleIdx)) (r.(ksDomScheduleStart)) (r.(ksDomSchedule)) (r.(riscvKSASIDTable)) (r.(active_irq)) (r.(current_extra_caps)) (r.(current_syscall_error)) (r.(current_lookup_fault)) (r.(current_fault)) (r.(devices)).
Definition set_intStateIRQTable (v : gmap Z irq_state) (r : kstate) : kstate :=
  KState (r.(ctes)) (r.(tcbs)) (r.(eps)) (r.(ntfns)) (r.(scs)) (r.(replies)) (r.(user_mem)) (r.(ksReadyQueues)) (r.(ksReadyQueuesL1Bitmap)) (r.(ksReadyQueuesL2Bitmap)) (r.(ksReleaseQueue)) (r.(ksCurThread)) (r.(ksIdleThread)) (r.(ksSchedulerAction)) (r.(ksConsumed)) (r.(ksReprogram)) (r.(ksCurTime)) (r.(ksCurSC)) (r.(ksIdleSC)) (r.(ksWorkUnitsCompleted)) v (r.(ksCurDomain)) (r.(ksDomainTime)) (r.(ksDomScheduleIdx)) (r.(ksDomScheduleStart)) (r.(ksDomSchedule)) (r.(riscvKSASIDTable)) (r.(active_irq)) (r.(current_extra_caps)) (r.(current_syscall_error)) (r.(current_lookup_fault)) (r.(current_fault)) (r.(devices)).
Definition set_ksCurDomain (v : Z) (r : kstate) : kstate :=
  KState (r.(ctes)) (r.(tcbs)) (r.(eps)) (r.(ntfns)) (r.(scs)) (r.(replies)) (r.(user_mem)) (r.(ksReadyQueues)) (r.(ksReadyQueuesL1Bitmap)) (r.(ksReadyQueuesL2Bitmap)) (r.(ksReleaseQueue)) (r.(ksCurThread)) (r.(ksIdleThread)) (r.(ksSchedulerAction)) (r.(ksConsumed)) (r.(ksReprogram)) (r.(ksCurTime)) (r.(ksCurSC)) (r.(ksIdleSC)) (r.(ksWorkUnitsCompleted)) (r.(intStateIRQTable)) v (r.(ksDomainTime)) (r.(ksDomScheduleIdx)) (r.(ksDomScheduleStart)) (r.(ksDomSchedule)) (r.(riscvKSASIDTable)) (r.(active_irq)) (r.(current_extra_caps)) (r.(current_syscall_error)) (r.(current_lookup_fault)) (r.(current_fault)) (r.(devices)).
Definition set_ksDomainTime (v : Z) (r : kstate) : kstate :=
  KState (r.(ctes)) (r.(tcbs)) (r.(eps)) (r.(ntfns)) (r.(scs)) (r.(replies)) (r.(user_mem)) (r.(ksReadyQueues)) (r.(ksReadyQueuesL1Bitmap)) (r.(ksReadyQueuesL2Bitmap)) (r.(ksReleaseQueue)) (r.(ksCurThread)) (r.(ksIdleThread)) (r.(ksSchedulerAction)) (r.(ksConsumed)) (r.(ksReprogram)) (r.(ksCurTime)) (r.(ksCurSC)) (r.(ksIdleSC)) (r.(ksWorkUnitsCompleted)) (r.(intStateIRQTable)) (r.(ksCurDomain)) v (r.(ksDomScheduleIdx)) (r.(ksDomScheduleStart)) (r.(ksDomSchedule)) (r.(riscvKSASIDTable)) (r.(active_irq)) (r.(current_extra_caps)) (r.(current_syscall_error)) (r.(current_lookup_fault)) (r.(current_fault)) (r.(devices)).
Definition set_ksDomScheduleIdx (v : Z) (r : kstate) : kstate :=
  KState (r.(ctes)) (r.(tcbs)) (r.(eps)) (r.(ntfns)) (r.(scs)) (r.(replies)) (r.(user_mem)) (r.(ksReadyQueues)) (r.(ksReadyQueuesL1Bitmap)) (r.(ksReadyQueuesL2Bitmap)) (r.(ksReleaseQueue)) (r.(ksCurThread)) (r.(ksIdleThread)) (r.(ksSchedulerAction)) (r.(ksConsumed)) (r.(ksReprogram)) (r.(ksCurTime)) (r.(ksCurSC)) (r.(ksIdleSC)) (r.(ksWorkUnitsCompleted)) (r.(intStateIRQTable)) (r.(ksCurDomain)) (r.(ksDomainTime)) v (r.(ksDomScheduleStart)) (r.(ksDomSchedule)) (r.(riscvKSASIDTable)) (r.(active_irq)) (r.(current_extra_caps)) (r.(current_syscall_error)) (r.(current_lookup_fault)) (r.(current_fault)) (r.(devices)).
Definition set_ksDomScheduleStart (v : Z) (r : kstate) : kstate :=
  KState (r.(ctes)) (r.(tcbs)) (r.(eps)) (r.(ntfns)) (r.(scs)) (r.(replies)) (r.(user_mem)) (r.(ksReadyQueues)) (r.(ksReadyQueuesL1Bitmap)) (r.(ksReadyQueuesL2Bitmap)) (r.(ksReleaseQueue)) (r.(ksCurThread)) (r.(ksIdleThread)) (r.(ksSchedulerAction)) (r.(ksConsumed)) (r.(ksReprogram)) (r.(ksCurTime)) (r.(ksCurSC)) (r.(ksIdleSC)) (r.(ksWorkUnitsCompleted)) (r.(intStateIRQTable)) (r.(ksCurDomain)) (r.(ksDomainTime)) (r.(ksDomScheduleIdx)) v (r.(ksDomSchedule)) (r.(riscvKSASIDTable)) (r.(active_irq)) (r.(current_extra_caps)) (r.(current_syscall_error)) (r.(current_lookup_fault)) (r.(current_fault)) (r.(devices)).
Definition set_ksDomSchedule (v : list Z) (r : kstate) : kstate :=
  KState (r.(ctes)) (r.(tcbs)) (r.(eps)) (r.(ntfns)) (r.(scs)) (r.(replies)) (r.(user_mem)) (r.(ksReadyQueues)) (r.(ksReadyQueuesL1Bitmap)) (r.(ksReadyQueuesL2Bitmap)) (r.(ksReleaseQueue)) (r.(ksCurThread)) (r.(ksIdleThread)) (r.(ksSchedulerAction)) (r.(ksConsumed)) (r.(ksReprogram)) (r.(ksCurTime)) (r.(ksCurSC)) (r.(ksIdleSC)) (r.(ksWorkUnitsCompleted)) (r.(intStateIRQTable)) (r.(ksCurDomain)) (r.(ksDomainTime)) (r.(ksDomScheduleIdx)) (r.(ksDomScheduleStart)) v (r.(riscvKSASIDTable)) (r.(active_irq)) (r.(current_extra_caps)) (r.(current_syscall_error)) (r.(current_lookup_fault)) (r.(current_fault)) (r.(devices)).
Definition set_riscvKSASIDTable (v : list Z) (r : kstate) : kstate :=
  KState (r.(ctes)) (r.(tcbs)) (r.(eps)) (r.(ntfns)) (r.(scs)) (r.(replies)) (r.(user_mem)) (r.(ksReadyQueues)) (r.(ksReadyQueuesL1Bitmap)) (r.(ksReadyQueuesL2Bitmap)) (r.(ksReleaseQueue)) (r.(ksCurThread)) (r.(ksIdleThread)) (r.(ksSchedulerAction)) (r.(ksConsumed)) (r.(ksReprogram)) (r.(ksCurTime)) (r.(ksCurSC)) (r.(ksIdleSC)) (r.(ksWorkUnitsCompleted)) (r.(intStateIRQTable)) (r.(ksCurDomain)) (r.(ksDomainTime)) (r.(ksDomScheduleIdx)) (r.(ksDomScheduleStart)) (r.(ksDomSchedule)) v (r.(active_irq)) (r.(current_extra_caps)) (r.(current_syscall_error)) (r.(current_lookup_fault)) (r.(current_fault)) (r.(devices)).
Definition set_active_irq (v : Z) (r : kstate) : kstate :=
  KState (r.(ctes)) (r.(tcbs)) (r.(eps)) (r.(ntfns)) (r.(scs)) (r.(replies)) (r.(user_mem)) (r.(ksReadyQueues)) (r.(ksReadyQueuesL1Bitmap)) (r.(ksReadyQueuesL2Bitmap)) (r.(ksReleaseQueue)) (r.(ksCurThread)) (r.(ksIdleThread)) (r.(ksSchedulerAction)) (r.(ksConsumed)) (r.(ksReprogram)) (r.(ksCurTime)) (r.(ksCurSC)) (r.(ksIdleSC)) (r.(ksWorkUnitsCompleted)) (r.(intStateIRQTable)) (r.(ksCurDomain)) (r.(ksDomainTime)) (r.(ksDomScheduleIdx)) (r.(ksDomScheduleStart)) (r.(ksDomSchedule)) (r.(riscvKSASIDTable)) v (r.(current_extra_caps)) (r.(current_syscall_error)) (r.(current_lookup_fault)) (r.(current_fault)) (r.(devices)).
Definition set_current_extra_caps (v : list Z) (r : kstate) : kstate :=
  KState (r.(ctes)) (r.(tcbs)) (r.(eps)) (r.(ntfns)) (r.(scs)) (r.(replies)) (r.(user_mem)) (r.(ksReadyQueues)) (r.(ksReadyQueuesL1Bitmap)) (r.(ksReadyQueuesL2Bitmap)) (r.(ksReleaseQueue)) (r.(ksCurThread)) (r.(ksIdleThread)) (r.(ksSchedulerAction)) (r.(ksConsumed)) (r.(ksReprogram)) (r.(ksCurTime)) (r.(ksCurSC)) (r.(ksIdleSC)) (r.(ksWorkUnitsCompleted)) (r.(intStateIRQTable)) (r.(ksCurDomain)) (r.(ksDomainTime)) (r.(ksDomScheduleIdx)) (r.(ksDomScheduleStart)) (r.(ksDomSchedule)) (r.(riscvKSASIDTable)) (r.(active_irq)) v (r.(current_syscall_error)) (r.(current_lookup_fault)) (r.(current_fault)) (r.(devices)).
Definition set_current_syscall_error (v : syscall_error) (r : kstate) : kstate :=
  KState (r.(ctes)) (r.(tcbs)) (r.(eps)) (r.(ntfns)) (r.(scs)) (r.(replies)) (r.(user_mem)) (r.(ksReadyQueues)) (r.(ksReadyQueuesL1Bitmap)) (r.(ksReadyQueuesL2Bitmap)) (r.(ksReleaseQueue)) (r.(ksCurThread)) (r.(ksIdleThread)) (r.(ksSchedulerAction)) (r.(ksConsumed)) (r.(ksReprogram)) (r.(ksCurTime)) (r.(ksCurSC)) (r.(ksIdleSC)) (r.(ksWorkUnitsCompleted)) (r.(intStateIRQTable)) (r.(ksCurDomain)) (r.(ksDomainTime)) (r.(ksDomScheduleIdx)) (r.(ksDomScheduleStart)) (r.(ksDomSchedule)) (r.(riscvKSASIDTable)) (r.(active_irq)) (r.(current_extra_caps)) v (r.(current_lookup_fault)) (r.(current_fault)) (r.(devices)).
Definition set_current_lookup_fault (v : lookup_fault) (r : kstate) : kstate :=
  KState (r.(ctes)) (r.(tcbs)) (r.(eps)) (r.(ntfns)) (r.(scs)) (r.(replies)) (r.(user_mem)) (r.(ksReadyQueues)) (r.(ksReadyQueuesL1Bitmap)) (r.(ksReadyQueuesL2Bitmap)) (r.(ksReleaseQueue)) (r.(ksCurThread)) (r.(ksIdleThread)) (r.(ksSchedulerAction)) (r.(ksConsumed)) (r.(ksReprogram)) (r.(ksCurTime)) (r.(ksCurSC)) (r.(ksIdleSC)) (r.(ksWorkUnitsCompleted)) (r.(intStateIRQTable)) (r.(ksCurDomain)) (r.(ksDomainTime)) (r.(ksDomScheduleIdx)) (r.(ksDomScheduleStart)) (r.(ksDomSchedule)) (r.(riscvKSASIDTable)) (r.(active_irq)) (r.(current_extra_caps)) (r.(current_syscall_error)) v (r.(current_fault)) (r.(devices)).
Definition set_current_fault (v : seL4_Fault) (r : kstate) : kstate :=
  KState (r.(ctes)) (r.(tcbs)) (r.(eps)) (r.(ntfns)) (r.(scs)) (r.(replies)) (r.(user_mem)) (r.(ksReadyQueues)) (r.(ksReadyQueuesL1Bitmap)) (r.(ksReadyQueuesL2Bitmap)) (r.(ksReleaseQueue)) (r.(ksCurThread)) (r.(ksIdleThread)) (r.(ksSchedulerAction)) (r.(ksConsumed)) (r.(ksReprogram)) (r.(ksCurTime)) (r.(ksCurSC)) (r.(ksIdleSC)) (r.(ksWorkUnitsCompleted)) (r.(intStateIRQTable)) (r.(ksCurDomain)) (r.(ksDomainTime)) (r.(ksDomScheduleIdx)) (r.(ksDomScheduleStart)) (r.(ksDomSchedule)) (r.(riscvKSASIDTable)) (r.(active_irq)) (r.(current_extra_caps)) (r.(current_syscall_error)) (r.(current_lookup_fault)) v (r.(devices)).
Definition set_devices (v : device_state) (r : kstate) : kstate :=
  KState (r.(ctes)) (r.(tcbs)) (r.(eps)) (r.(ntfns)) (r.(scs)) (r.(replies)) (r.(user_mem)) (r.(ksReadyQueues)) (r.(ksReadyQueuesL1Bitmap)) (r.(ksReadyQueuesL2Bitmap)) (r.(ksReleaseQueue)) (r.(ksCurThread)) (r.(ksIdleThread)) (r.(ksSchedulerAction)) (r.(ksConsumed)) (r.(ksReprogram)) (r.(ksCurTime)) (r.(ksCurSC)) (r.(ksIdleSC)) (r.(ksWorkUnitsCompleted)) (r.(intStateIRQTable)) (r.(ksCurDomain)) (r.(ksDomainTime)) (r.(ksDomScheduleIdx)) (r.(ksDomScheduleStart)) (r.(ksDomSchedule)) (r.(riscvKSASIDTable)) (r.(active_irq)) (r.(current_extra_caps)) (r.(current_syscall_error)) (r.(current_lookup_fault)) (r.(current_fault)) v.
Definition set_dev_reads (v : nat) (r : device_state) : device_state :=
  DeviceState (r.(dev_clock)) (r.(dev_sip)) (r.(dev_mmio)) v (r.(dev_stval)) (r.(dev_sie)) (r.(dev_satp)) (r.(dev_deadline)) (r.(dev_writes)).
Definition set_dev_sie (v : Z) (r : device_state) : device_state :=
  DeviceState (r.(dev_clock)) (r.(dev_sip)) (r.(dev_mmio)) (r.(dev_reads)) (r.(dev_stval)) v (r.(dev_satp)) (r.(dev_deadline)) (r.(dev_writes)).
Definition set_dev_satp (v : Z) (r : device_state) : device_state :=
  DeviceState (r.(dev_clock)) (r.(dev_sip)) (r.(dev_mmio)) (r.(dev_reads)) (r.(dev_stval)) (r.(dev_sie)) v (r.(dev_deadline)) (r.(dev_writes)).
Definition set_dev_deadline (v : Z) (r : device_state) : device_state :=
  DeviceState (r.(dev_clock)) (r.(dev_sip)) (r.(dev_mmio)) (r.(dev_reads)) (r.(dev_stval)) (r.(dev_sie)) (r.(dev_satp)) v (r.(dev_writes)).
Definition set_dev_writes (v : list (Z * Z)) (r : device_state) : device_state :=
  DeviceState (r.(dev_clock)) (r.(dev_sip)) (r.(dev_mmio)) (r.(dev_reads)) (r.(dev_stval)) (r.(dev_sie)) (r.(dev_satp)) (r.(dev_deadline)) v.

Definition nullMDBNode : mdb_node := mdb_node_new 0 false false 0.

(** ** Access to the heaps *)
Definition K (A : Type) : Type := M kstate A.

Definition get_cte (p : Z) : K cte := s ← get_state; deref (ctes s !! p).
Definition get_tcb (p : Z) : K tcb := s ← get_state; deref (tcbs s !! p).
Definition get_ep (p : Z) : K endpoint := s ← get_state; deref (eps s !! p).
Definition get_ntfn (p : Z) : K notification := s ← get_state; deref (ntfns s !! p).
Definition get_sc (p : Z) : K sched_context := s ← get_state; deref (scs s !! p).
Definition get_reply (p : Z) : K reply := s ← get_state; deref (replies s !! p).

(** [mod_x p f] is an assignment to fields of the object at [p]. *)
Definition mod_cte (p : Z) (f : cte → cte) : K unit :=
  c ← get_cte p; modify (λ s, set_ctes (<[p := f c]> (ctes s)) s).
Definition mod_tcb (p : Z) (f : tcb → tcb) : K unit :=
  t ← get_tcb p; modify (λ s, set_tcbs (<[p := f t]> (tcbs s)) s).
Definition mod_ep (p : Z) (f : endpoint → endpoint) : K unit :=
  e ← get_ep p; modify (λ s, set_eps (<[p := f e]> (eps s)) s).
Definition mod_ntfn (p : Z) (f : notification → notification) : K unit :=
  n ← get_ntfn p; modify (λ s, set_ntfns (<[p := f n]> (ntfns s)) s).
Definition mod_sc (p : Z) (f : sched_context → sched_context) : K unit :=
  c ← get_sc p; modify (λ s, set_scs (<[p := f c]> (scs s)) s).
Definition mod_reply (p : Z) (f : reply → reply) : K unit :=
  r ← get_reply p; modify (λ s, set_replies (<[p := f r]> (replies s)) s).
Definition mod_ts (p : Z) (f : thread_state → thread_state) : K unit :=
  mod_tcb p (λ t, set_tcbState (f (tcbState t)) t).

(** Run code that only touches one scheduling context and its refills. *)
Definition on_sc {A} (p : Z) (m : M sched_context A) : K A := λ s,
  match scs s !! p with
  | None => Stuck BadPointer
  | Some c => match m c with
              | Done a c' => Done a (set_scs (<[p := c']> (scs s)) s)
              | Stuck f => Stuck f
              end
  end.

(** Plain words of memory: [buf\[i\]] for a [word_t *buf]. User frames, page tables
    and ASID pools are arrays of words in [user_mem]. Memory that was never written
    since it was cleared reads as zero; a read yields a 64-bit word. *)
Definition load_word (buf i : Z) : K Z := gets (λ s, wrap (default 0 (user_mem s !! (buf + 8 * i)))).
Definition store_word (buf i w : Z) : K unit :=
  modify (λ s, set_user_mem (<[buf + 8 * i := w]> (user_mem s)) s).

(** ** Registers (RISC-V numbering of [enum _register]) *)
Definition capRegister : Z := 9.
Definition badgeRegister : Z := 9.
Definition msgInfoRegister : Z := 10.
Definition replyRegister : Z := 15.
Definition nbsendRecvDest : Z := 4.
Definition FaultIP : Z := 33.
Definition NextIP : Z := 34.
Definition n_msgRegisters : Z := 4.
Definition msgRegisters : list Z := [11; 12; 13; 14].

Definition getRegister (thread reg : Z) : K Z :=
  t ← get_tcb thread; mret (wrap (default 0 (tcbContext t !! reg))).
Definition setRegister (thread reg w : Z) : K unit :=
  mod_tcb thread (λ t, set_tcbContext (<[reg := w]> (tcbContext t)) t).

(** ** Heap-access rules *)
Section access.
Implicit Types (s : kstate).

Lemma wp_get_cte p c Q s : ctes s !! p = Some c → Q c s → wp (get_cte p) Q s.
Proof. intros H HQ. apply wp_bind; simpl. unfold wp, get_state, deref. by rewrite H. Qed.
Lemma wp_get_tcb p t Q s : tcbs s !! p = Some t → Q t s → wp (get_tcb p) Q s.
Proof. intros H HQ. apply wp_bind; simpl. unfold wp, get_state, deref. by rewrite H. Qed.
Lemma wp_get_ep p e Q s : eps s !! p = Some e → Q e s → wp (get_ep p) Q s.
Proof. intros H HQ. apply wp_bind; simpl. unfold wp, get_state, deref. by rewrite H. Qed.
Lemma wp_get_ntfn p e Q s : ntfns s !! p = Some e → Q e s → wp (get_ntfn p) Q s.
Proof. intros H HQ. apply wp_bind; simpl. unfold wp, get_state, deref. by rewrite H. Qed.
Lemma wp_get_sc p e Q s : scs s !! p = Some e → Q e s → wp (get_sc p) Q s.
Proof. intros H HQ. apply wp_bind; simpl. unfold wp, get_state, deref. by rewrite H. Qed.
Lemma wp_get_reply p e Q s : replies s !! p = Some e → Q e s → wp (get_reply p) Q s.
Proof. intros H HQ. apply wp_bind; simpl. unfold wp, get_state, deref. by rewrite H. Qed.

Lemma wp_mod_cte p f c Q s :
  ctes s !! p = Some c → Q () (set_ctes (<[p := f c]> (ctes s)) s) → wp (mod_cte p f) Q s.
Proof. intros H HQ. apply wp_bind. by eapply wp_get_cte. Qed.
Lemma wp_mod_tcb p f t Q s :
  tcbs s !! p = Some t → Q () (set_tcbs (<[p := f t]> (tcbs s)) s) → wp (mod_tcb p f) Q s.
Proof. intros H HQ. apply wp_bind. by eapply wp_get_tcb. Qed.
Lemma wp_mod_ep p f e Q s :
  eps s !! p = Some e → Q () (set_eps (<[p := f e]> (eps s)) s) → wp (mod_ep p f) Q s.
Proof. intros H HQ. apply wp_bind. by eapply wp_get_ep. Qed.
Lemma wp_mod_ntfn p f e Q s :
  ntfns s !! p = Some e → Q () (set_ntfns (<[p := f e]> (ntfns s)) s) → wp (mod_ntfn p f) Q s.
Proof. intros H HQ. apply wp_bind. by eapply wp_get_ntfn. Qed.
Lemma wp_mod_sc p f e Q s :
  scs s !! p = Some e → Q () (set_scs (<[p := f e]> (scs s)) s) → wp (mod_sc p f) Q s.
Proof. intros H HQ. apply wp_bind. by eapply wp_get_sc. Qed.
Lemma wp_mod_reply p f e Q s :
  replies s !! p = Some e → Q () (set_replies (<[p := f e]> (replies s)) s) → wp (mod_reply p f) Q s.
Proof. intros H HQ. apply wp_bind. by eapply wp_get_reply. Qed.
Lemma wp_on_sc {A} p (m : M sched_context A) c Q s :
  scs s !! p = Some c →
  wp m (λ a c', Q a (set_scs (<[p := c']> (scs s)) s)) c → wp (on_sc p m) Q s.
Proof. intros H. unfold wp, on_sc. rewrite H. by destruct (m c). Qed.

Lemma wlp_get_cte_bind {B} p (k : cte → K B) Q s :
  (∀ c, ctes s !! p = Some c → wlp (k c) Q s) → wlp (get_cte p ≫= k) Q s.
Proof.
  intros Hk. unfold wlp, get_cte, mbind, M_bind, get_state, deref. destruct (ctes s !! p) eqn:E; [by apply Hk|done].
Qed.
Lemma wlp_get_tcb_bind {B} p (k : tcb → K B) Q s :
  (∀ t, tcbs s !! p = Some t → wlp (k t) Q s) → wlp (get_tcb p ≫= k) Q s.
Proof.
  intros Hk. unfold wlp, get_tcb, mbind, M_bind, get_state, deref. destruct (tcbs s !! p) eqn:E; [by apply Hk|done].
Qed.
Lemma preserves_get_cte I p : preserves I (get_cte p).
Proof. apply preserves_bind; auto with preserves. Qed.
Lemma preserves_get_tcb I p : preserves I (get_tcb p).
Proof. apply preserves_bind; auto with preserves. Qed.
Lemma preserves_get_ep I p : preserves I (get_ep p).
Proof. apply preserves_bind; auto with preserves. Qed.
Lemma preserves_get_ntfn I p : preserves I (get_ntfn p).
Proof. apply preserves_bind; auto with preserves. Qed.
Lemma preserves_get_sc I p : preserves I (get_sc p).
Proof. apply preserves_bind; auto with preserves. Qed.
Lemma preserves_get_reply I p : preserves I (get_reply p).
Proof. apply preserves_bind; auto with preserves. Qed.
Lemma preserves_load_word I b i : preserves I (load_word b i).
Proof. apply preserves_gets. Qed.
Lemma preserves_getRegister I t r : preserves I (getRegister t r).
Proof. apply preserves_bind; auto using preserves_get_tcb with preserves. Qed.
End access.

#[export] Hint Resolve preserves_get_cte preserves_get_tcb preserves_get_ep preserves_get_ntfn
  preserves_get_sc preserves_get_reply preserves_load_word preserves_getRegister : preserves.
