(* ===== verification/Machine.v ===== *)
(** * The machine

    The devices as the kernel sees them: control registers and timer of
    [kernel/include/arch/riscv/arch/machine.h], the interrupt functions of
    [kernel/arch/riscv/machine/hardware.c] and the interrupt controller driver
    [kernel/include/drivers/irq/riscv_plic0.h] (one core, and a board other than
    the QEMU one, so a claim is completed when the handler acknowledges it).
    Fences and flushes order accesses of the hardware and are no steps of the
    model. *)
From S2P Require Import Prelude Words Platform State.

(** ** Registers and devices *)
Definition dev_input {A} (f : device_state → nat → A) : K A :=
  d ← gets devices;
  modify (set_devices (set_dev_reads (S (dev_reads d)) d));;
  mret (f d (dev_reads d)).

Definition getCurrentTime : K Z := t ← dev_input dev_clock; mret (wrap t).
Definition setDeadline (deadline : Z) : K unit :=
  modify (λ s, set_devices (set_dev_deadline deadline (devices s)) s).
Definition ackDeadlineIRQ : K unit := mret ().

Definition read_sip : K Z := w ← dev_input dev_sip; mret (wrap w).
Definition read_stval : K Z := gets (λ s, wrap (dev_stval (devices s))).
Definition write_satp (w : Z) : K unit :=
  modify (λ s, set_devices (set_dev_satp w (devices s)) s).
Definition set_sie_mask (mask_high : Z) : K unit :=
  modify (λ s, set_devices (set_dev_sie (Z.lor (dev_sie (devices s)) mask_high) (devices s)) s).
Definition clear_sie_mask (mask_low : Z) : K unit :=
  modify (λ s, set_devices (set_dev_sie (Z.ldiff (dev_sie (devices s)) mask_low) (devices s)) s).

Definition readl (addr : Z) : K Z := w ← dev_input (λ d n, dev_mmio d n addr); mret (w mod 2 ^ 32).
Definition writel (val addr : Z) : K unit :=
  modify (λ s, set_devices (set_dev_writes ((addr, val mod 2 ^ 32) :: dev_writes (devices s)) (devices s)) s).

Definition SIP_STIP : Z := 5.
Definition SIP_SEIP : Z := 9.
Definition SIE_STIE : Z := 5.
Definition SIE_SEIE : Z := 9.

(** The root of the address translation: mode, address space and page number of
    the first page table. *)
Definition SATP_MODE : Z := 8.
Definition satp_new (mode asid ppn : Z) : Z :=
  Z.lor (Z.shiftl (Z.land mode (MASK 4)) 60)
    (Z.lor (Z.shiftl (Z.land asid (MASK 16)) 44) (Z.land ppn (MASK 44))).
Definition setVSpaceRoot (addr asid : Z) : K unit :=
  write_satp (satp_new SATP_MODE asid (Z.shiftr addr 12)).

Section machine.
Context `{Platform}.

(** ** The interrupt controller *)
Definition PLIC_EN : Z := 0x2000.
Definition PLIC_EN_PER_HART : Z := 0x100.
Definition PLIC_EN_PER_CONTEXT : Z := 0x80.
Definition PLIC_THRES : Z := 0x200000.
Definition PLIC_SVC_CONTEXT : Z := 1.
Definition PLIC_THRES_PER_HART : Z := 0x2000.
Definition PLIC_THRES_PER_CONTEXT : Z := 0x1000.
Definition PLIC_THRES_CLAIM : Z := 4.
Definition HAVE_SET_TRIGGER : bool := true.

Definition PLAT_PLIC_THRES_ADJUST (x : Z) : Z :=
  if PLIC_FIRST_HART_M_ONLY then x -w PLIC_THRES_PER_CONTEXT else x.
Definition PLAT_PLIC_EN_ADJUST (x : Z) : Z :=
  if PLIC_FIRST_HART_M_ONLY then x -w PLIC_EN_PER_CONTEXT else x.
Definition plic_enable_offset (hart_id context_id : Z) : Z :=
  PLAT_PLIC_EN_ADJUST (wrap (PLIC_EN + hart_id * PLIC_EN_PER_HART + context_id * PLIC_EN_PER_CONTEXT)).
Definition plic_thres_offset (hart_id context_id : Z) : Z :=
  PLAT_PLIC_THRES_ADJUST (wrap (PLIC_THRES + hart_id * PLIC_THRES_PER_HART + context_id * PLIC_THRES_PER_CONTEXT)).
Definition plic_claim_offset (hart_id context_id : Z) : Z :=
  plic_thres_offset hart_id context_id +w PLIC_THRES_CLAIM.
Definition plic_get_current_hart_id : Z := CONFIG_FIRST_HART_ID.

Definition plic_get_claim : K Z :=
  readl (PLIC_PPTR +w plic_claim_offset plic_get_current_hart_id PLIC_SVC_CONTEXT).
Definition plic_complete_claim (irq : Z) : K unit :=
  writel irq (PLIC_PPTR +w plic_claim_offset plic_get_current_hart_id PLIC_SVC_CONTEXT).
Definition plic_mask_irq (disable : bool) (irq : Z) : K unit :=
  let addr := wrap (PLIC_PPTR + plic_enable_offset plic_get_current_hart_id PLIC_SVC_CONTEXT + irq / 32 * 4) in
  let bit := irq mod 32 in
  val ← readl addr;
  writel (if disable then Z.ldiff val (BIT bit) else Z.lor val (BIT bit)) addr.
Definition PLIC_PRIO : Z := 0.
Definition PLIC_PRIO_PER_ID : Z := 4.
Definition PLIC_PENDING : Z := 0x1000.
Definition plic_pending_interrupt (interrupt : Z) : K bool :=
  val ← readl (wrap (PLIC_PPTR + PLIC_PENDING + interrupt / 32 * 4));
  mret (negb (Z.land val (BIT (interrupt mod 32)) =? 0)).
Definition plic_init_hart : K unit :=
  for_range 1 (PLIC_MAX_IRQ + 1) (λ i, plic_mask_irq true i);;
  writel 0 (PLIC_PPTR +w plic_thres_offset plic_get_current_hart_id PLIC_SVC_CONTEXT).
Definition plic_init_controller : K unit :=
  for_range 1 (PLIC_MAX_IRQ + 1) (λ i,
    pending ← plic_pending_interrupt i;
    when pending
      (readl (PLIC_PPTR +w plic_claim_offset CONFIG_FIRST_HART_ID PLIC_SVC_CONTEXT) ≫= λ _,
       writel i (PLIC_PPTR +w plic_claim_offset CONFIG_FIRST_HART_ID PLIC_SVC_CONTEXT)));;
  for_range 1 (PLIC_MAX_IRQ + 1) (λ i, writel 2 (wrap (PLIC_PPTR + PLIC_PRIO + PLIC_PRIO_PER_ID * i))).
Definition plic_irq_set_trigger (irq : Z) (edge_triggered : bool) : K unit := mret ().

(** ** Interrupts of the core *)
Definition IS_IRQ_VALID (irq : Z) : bool := (irq <=? maxIRQ) && negb (irq =? irqInvalid).

Definition getActiveIRQ : K Z :=
  irq ← gets active_irq;
  if IS_IRQ_VALID irq then mret irq else
  sip ← read_sip;
  irq ← (if negb (Z.land sip (BIT SIP_SEIP) =? 0) then plic_get_claim
         else mret (if negb (Z.land sip (BIT SIP_STIP) =? 0) then KERNEL_TIMER_IRQ else irqInvalid));
  if negb (IS_IRQ_VALID irq) then
    slot ← gets active_irq;
    assert! (negb (IS_IRQ_VALID slot));;
    mret irqInvalid
  else
    modify (set_active_irq irq);;
    mret irq.

Definition setIRQTrigger (irq : Z) (edge_triggered : bool) : K unit := plic_irq_set_trigger irq edge_triggered.

Definition isIRQPending : K bool :=
  sip ← read_sip;
  mret (negb (Z.land sip (Z.lor (BIT SIP_STIP) (BIT SIP_SEIP)) =? 0)).

Definition maskInterrupt (disable : bool) (irq : Z) : K unit :=
  assert! (IS_IRQ_VALID irq);;
  if irq =? KERNEL_TIMER_IRQ then
    if disable then clear_sie_mask (BIT SIE_STIE) else set_sie_mask (BIT SIE_STIE)
  else plic_mask_irq disable irq.

Definition ackInterrupt (irq : Z) : K unit :=
  assert! (IS_IRQ_VALID irq);;
  modify (set_active_irq irqInvalid).

Definition initLocalIRQController : K unit :=
  plic_init_hart;;
  set_sie_mask (Z.lor (BIT SIE_SEIE) (BIT SIE_STIE)).
Definition initIRQController : K unit :=
  modify (set_active_irq irqInvalid);;
  plic_init_controller.

Definition handleSpuriousIRQ : K unit := mret ().
End machine.

(** * The active interrupt

    What [getActiveIRQ] promises the kernel in [hardware.c]: an interrupt it reports
    stays the active one until it is acknowledged. *)

Section irq.
Context `{Platform}.

Lemma irqInvalid_not_valid : IS_IRQ_VALID irqInvalid = false.
Proof. unfold IS_IRQ_VALID. rewrite Z.eqb_refl. apply andb_false_r. Qed.
Lemma getActiveIRQ_active s irq : active_irq s = irq → IS_IRQ_VALID irq = true → getActiveIRQ s = Done irq s.
Proof. intros <- Hv. unfold getActiveIRQ, gets, mbind, M_bind. by rewrite Hv. Qed.

(** [irq] was reported in [s]: it is reported again, without asking the devices, in
    every state that has not acknowledged it, and acknowledging it makes room for the next. *)
Definition irq_held (irq : Z) (s : kstate) : Prop :=
  IS_IRQ_VALID irq = true ∧ (∀ s', active_irq s' = active_irq s → getActiveIRQ s' = Done irq s') ∧
  ∃ s', ackInterrupt irq s = Done () s' ∧ active_irq s' = irqInvalid.
Lemma irq_held_intro irq s : IS_IRQ_VALID irq = true → active_irq s = irq → irq_held irq s.
Proof.
  intros Hv Ha. split_and!; [done|intros s' Hs'; apply getActiveIRQ_active; congruence|].
  unfold ackInterrupt, guard_assert, mbind, M_bind. rewrite Hv. by eexists.
Qed.

(** [getActiveIRQ] returns; an interrupt it reports is valid and is reported again,
    without asking the devices, until it is acknowledged. *)
Theorem getActiveIRQ_ok s : ∃ irq s', getActiveIRQ s = Done irq s' ∧ (irq = irqInvalid ∨ irq_held irq s').
Proof.
  apply (wp_done getActiveIRQ (λ irq s', irq = irqInvalid ∨ irq_held irq s')).
  apply wp_bind, wp_gets. destruct (IS_IRQ_VALID (active_irq s)) eqn:Hs; [by apply wp_ret; right; apply irq_held_intro|].
  do 3 apply wp_bind. apply wp_gets. apply wp_bind, wp_modify, wp_ret, wp_ret, wp_bind.
  assert (∀ irq s', active_irq s' = active_irq s → wp (if negb (IS_IRQ_VALID irq)
      then slot ← gets active_irq; assert! (negb (IS_IRQ_VALID slot));; mret irqInvalid
      else modify (set_active_irq irq);; mret irq) (λ irq s', irq = irqInvalid ∨ irq_held irq s') s') as Hend.
  { intros irq s' Hs'. destruct (IS_IRQ_VALID irq) eqn:Hv; simpl.
    - apply wp_bind, wp_modify, wp_ret. right. by apply irq_held_intro.
    - apply wp_bind, wp_gets, wp_bind, wp_assert; [by rewrite Hs', Hs|]. apply wp_ret. by left. }
  case_match; [|by apply wp_ret, Hend]. do 2 apply wp_bind. apply wp_gets. apply wp_bind, wp_modify, wp_ret, wp_ret. by apply Hend.
Qed.
End irq.
