(* ===== verification/Keeps.v ===== *)
(** * Invariants of monadic code

    [keeps I m Q]: run from a state with [I], the code [m], if it returns, ends
    in a state with [I] and returns a value with [Q]. The rules follow the
    structure of the code, [keep] applies them, and the database [keeps] holds
    one lemma per function of the kernel. *)
From S2P Require Import Prelude Words Platform State.

Definition keeps {Σ A} (I : Σ → Prop) (m : M Σ A) (Q : A → Prop) : Prop :=
  ∀ s, I s → wlp m (λ a s', I s' ∧ Q a) s.
(** No claim about the value. *)
Notation kept I m := (keeps I m (λ _, True)).

#[local] Transparent while64.
Section rules.
Context {Σ : Type} (I : Σ → Prop).

Lemma keeps_intro {A} (m : M Σ A) Q : (∀ s, I s → wlp m (λ a s', I s' ∧ Q a) s) → keeps I m Q.
Proof. done. Qed.
Lemma keeps_wlp {A} (m : M Σ A) Q s : keeps I m Q → I s → wlp m (λ a s', I s' ∧ Q a) s.
Proof. auto. Qed.
Lemma keeps_elim {A} (m : M Σ A) Q s a s' : keeps I m Q → I s → m s = Done a s' → I s' ∧ Q a.
Proof. intros Hm HI. by apply (wlp_done m (λ a s', I s' ∧ Q a)), Hm. Qed.
Lemma keeps_ret {A} (a : A) (Q : A → Prop) : Q a → keeps I (mret a) Q.
Proof. by intros HQ s HI. Qed.
Lemma keeps_bind {A B} (m : M Σ A) (k : A → M Σ B) P Q :
  keeps I m P → (∀ a, P a → keeps I (k a) Q) → keeps I (m ≫= k) Q.
Proof.
  intros Hm Hk s HI. apply wlp_bind. eapply wlp_mono; [by apply Hm|]. intros a s' [HI' HP]. by apply Hk.
Qed.
Lemma keeps_conseq {A} (m : M Σ A) (P Q : A → Prop) : keeps I m P → (∀ a, P a → Q a) → keeps I m Q.
Proof. intros Hm HPQ s HI. eapply wlp_mono; [by apply Hm|]. naive_solver. Qed.
Lemma keeps_gets {A} (f : Σ → A) : keeps I (gets f) (λ a, ∃ s, I s ∧ a = f s).
Proof. intros s HI. split; [done|]. by exists s. Qed.
Lemma keeps_get_state : keeps I get_state I.
Proof. by intros s HI. Qed.
Lemma keeps_modify f : (∀ s, I s → I (f s)) → kept I (modify f).
Proof. intros Hf s HI. split; [by apply Hf|done]. Qed.
Lemma keeps_assert b : keeps I (guard_assert b) (λ _, b = true).
Proof. intros s HI. by destruct b. Qed.
Lemma keeps_stuck {A} f (Q : A → Prop) : keeps I (stuck f) Q.
Proof. by intros s HI. Qed.
Lemma keeps_deref {A} (o : option A) : keeps I (deref o) (λ a, o = Some a).
Proof. intros s HI. by destruct o. Qed.
Lemma keeps_when b (m : M Σ unit) : (b = true → kept I m) → kept I (when b m).
Proof. destruct b; intros Hm; [by apply Hm|by apply keeps_ret]. Qed.
Lemma keeps_while_pow2 {X R} (J : X → Prop) (Q : R → Prop) k (body : X → M Σ (X + R)) x :
  (∀ x, J x → keeps I (body x) (λ r, match r with inl x' => J x' | inr v => Q v end)) → J x →
  keeps I (while_pow2 k body x) (λ r, match r with inl x' => J x' | inr v => Q v end).
Proof.
  intros Hb. revert x. induction k as [|k IH]; intros x Hx; [by apply Hb|].
  eapply keeps_bind; [by apply IH|]. intros [x'|v] Hr; [by apply IH|by apply keeps_ret].
Qed.
Lemma keeps_while64 {X R} (J : X → Prop) (Q : R → Prop) (body : X → M Σ (X + R)) x :
  (∀ x, J x → keeps I (body x) (λ r, match r with inl x' => J x' | inr v => Q v end)) → J x →
  keeps I (while64 body x) Q.
Proof.
  intros Hb Hx. eapply keeps_bind; [by apply (keeps_while_pow2 J Q)|].
  intros [x'|v] Hr; [apply keeps_stuck|by apply keeps_ret].
Qed.
Lemma keeps_for_range lo hi (body : Z → M Σ unit) :
  (∀ i, lo ≤ i < hi → kept I (body i)) → kept I (for_range lo hi body).
Proof.
  unfold for_range. intros Hb. assert (∀ n i, lo ≤ i → i + Z.of_nat n ≤ Z.max lo hi → kept I (for_count n i body)) as Hn.
  { intros n. induction n as [|n IH]; intros i Hi Hle; simpl; [by apply keeps_ret|].
    eapply keeps_bind; [apply Hb; lia|]. intros _ _. apply IH; lia. }
  apply Hn; lia.
Qed.
End rules.

#[global] Opaque keeps.

Create HintDb keeps discriminated.
#[export] Hint Constants Opaque : keeps.
#[export] Hint Variables Opaque : keeps.
#[export] Hint Resolve keeps_gets keeps_get_state keeps_assert keeps_deref : keeps.
#[export] Hint Resolve keeps_stuck : keeps.

(** The lemma for a call, with its own postcondition. *)
Ltac keep_call := solve [eauto 6 with keeps typeclass_instances].
(** One construct of the code; a side condition of a rule is left to [tac]. *)
Ltac keep_with tac :=
  lazymatch goal with
  | |- keeps _ (mbind _ _) _ =>
    first [ eapply keeps_bind; [keep_call|let H := fresh "Hret" in intros ? H; cbv beta in H]
          | eapply (keeps_bind _ _ _ (λ _, True)); [|intros ? _] ]
  | |- keeps _ (mret _) _ => apply keeps_ret; tac
  | |- keeps _ (stuck _) _ => apply keeps_stuck
  | |- keeps _ (when _ _) _ => apply keeps_when; intros
  | |- keeps _ (for_range _ _ _) _ => apply keeps_for_range; intros
  | |- keeps _ (match ?x with _ => _ end) _ => destruct x eqn:?
  | |- keeps _ _ _ => first [keep_call | eapply keeps_conseq; [keep_call|intros; tac]]
  end.
Ltac keep := repeat (cbv beta iota zeta; keep_with ltac:(try done)).
