(* ===== verification/RefillList.v ===== *)
(** * Refill lists

    The abstract view of a scheduling context's circular buffer is the list of
    its refills from head to tail. This file states the budget-accounting rules on
    such lists ([list_schedule_used], [list_charge_head], ...), the invariant
    [refills_ok] that makes them sound (positive, ordered, disjoint refills that
    are released within one period and sum to the budget), and proves the rules
    keep it. *)
From S2P Require Import Prelude Words Platform State.

Definition rEnd (r : refill) : Z := rTime r + rAmount r.

Definition refill_total (l : list refill) : Z := foldr (λ r t, rAmount r + t) 0 l.

(** [chain t l]: the refills of [l] are positive, none starts before [t] and
    each starts after the previous one has ended. *)
Fixpoint chain (t : Z) (l : list refill) : Prop :=
  match l with
  | [] => True
  | r :: l' => t ≤ rTime r ∧ 0 < rAmount r ∧ chain (rEnd r) l'
  end.

Fixpoint chain_end (t : Z) (l : list refill) : Z :=
  match l with [] => t | r :: l' => chain_end (rEnd r) l' end.

(** The release time of the last refill ([t] if there is none). *)
Fixpoint last_time (t : Z) (l : list refill) : Z :=
  match l with [] => t | r :: l' => last_time (rTime r) l' end.

Definition head_time (l : list refill) : Z :=
  match l with [] => 0 | r :: _ => rTime r end.

(** A budget of [B] ticks per period [P], as a list of refills. *)
Definition refills_ok (P B : Z) (l : list refill) : Prop :=
  l ≠ [] ∧ 0 ≤ head_time l ∧ chain (head_time l) l ∧
  last_time 0 l ≤ head_time l + P ∧ refill_total l = B ∧ B ≤ P.

(** ** The accounting rules on lists *)
Definition list_schedule_used (max : Z) (l : list refill) (new : refill) : list refill :=
  match last l with
  | None => l
  | Some tail =>
    let front := take (pred (length l)) l in
    if rTime new <=? rEnd tail then front ++ [Refill (rTime tail) (rAmount tail + rAmount new)]
    else if negb (Z.of_nat (length l) =? max) then l ++ [new]
    else front ++ [Refill (rTime new - rAmount tail) (rAmount tail + rAmount new)]
  end.

Definition list_charge_head (P max : Z) (l : list refill) : list refill :=
  match l with
  | [] => []
  | [h] => [Refill (rTime h + P) (rAmount h)]
  | h :: l' => list_schedule_used max l' (Refill (rTime h + P) (rAmount h))
  end.

Definition list_charge_part (P max usage : Z) (l : list refill) : list refill :=
  match l with
  | [] => []
  | h :: l' =>
    list_schedule_used max (Refill (rTime h + usage) (rAmount h - usage) :: l')
      (Refill (rTime h + P) usage)
  end.

Definition list_merge_nonoverlapping (l : list refill) : list refill :=
  match l with
  | h :: n :: l' => Refill (rTime n - rAmount h) (rAmount n + rAmount h) :: l'
  | _ => l
  end.

Definition list_merge_overlapping (l : list refill) : list refill :=
  match l with
  | h :: n :: l' => Refill (rTime h) (rAmount n + rAmount h) :: l'
  | _ => l
  end.

(** ** Lemmas *)
Lemma refill_total_app l1 l2 : refill_total (l1 ++ l2) = refill_total l1 + refill_total l2.
Proof. induction l1 as [|r l1 IH]; simpl; lia. Qed.

Lemma chain_app t l1 l2 : chain t (l1 ++ l2) ↔ chain t l1 ∧ chain (chain_end t l1) l2.
Proof. revert t. induction l1 as [|r l1 IH]; intros t; simpl; [tauto|]. rewrite IH. tauto. Qed.

Lemma chain_end_app t l1 l2 : chain_end t (l1 ++ l2) = chain_end (chain_end t l1) l2.
Proof. revert t. induction l1 as [|r l1 IH]; intros t; simpl; auto. Qed.

Lemma chain_le t t' l : t' ≤ t → chain t l → chain t' l.
Proof. destruct l; simpl; [done|]. intros ? (? & ? & ?). split_and!; [lia|done..]. Qed.

Lemma chain_span t l : chain t l → t + refill_total l ≤ chain_end t l.
Proof.
  revert t. induction l as [|r l IH]; intros t; simpl; [lia|].
  intros (? & ? & Hc%IH). unfold rEnd in *. lia.
Qed.

Lemma chain_total_nonneg t l : chain t l → 0 ≤ refill_total l.
Proof.
  revert t. induction l as [|r l IH]; intros t; simpl; [done|].
  intros (? & ? & Hc%IH). lia.
Qed.

Lemma chain_end_cons t t' r l : chain_end t (r :: l) = chain_end t' (r :: l).
Proof. done. Qed.

Lemma chain_head_time l : l ≠ [] → ∀ t, chain t l → t ≤ head_time l ∧ chain (head_time l) l.
Proof. destruct l; simpl; [done|]. intros _ t (? & ? & ?). split_and!; [done|lia|done..]. Qed.

Lemma chain_head_le_end t l : l ≠ [] → chain t l → head_time l < chain_end t l.
Proof.
  destruct l as [|r l]; simpl; [done|]. intros _ (? & ? & Hc).
  pose proof (chain_span _ _ Hc). pose proof (chain_total_nonneg _ _ Hc). unfold rEnd in *. lia.
Qed.

Lemma last_time_app t l1 l2 : last_time t (l1 ++ l2) = last_time (last_time t l1) l2.
Proof. revert t. induction l1 as [|r l1 IH]; intros t; simpl; auto. Qed.

Lemma chain_last_time t l : chain t l → t ≤ last_time t l.
Proof.
  revert t. induction l as [|r l IH]; intros t; simpl; [lia|]. intros (? & ? & Hc).
  assert (chain (rTime r) l) as Hc'%IH by (eapply chain_le; [|done]; unfold rEnd; lia). lia.
Qed.

Lemma chain_head_last t l : l ≠ [] → chain t l → head_time l ≤ last_time t l.
Proof.
  destruct l as [|r l]; simpl; [done|]. intros _ (? & ? & Hc).
  apply chain_last_time. eapply chain_le; [|done]; unfold rEnd; lia.
Qed.

(** A chain ends before its last release plus all of its ticks. *)
Lemma chain_end_last t e l : chain t l → t ≤ e → chain_end e l ≤ last_time t l + (e - t) + refill_total l.
Proof.
  revert t e. induction l as [|r l IH]; intros t e; simpl; [lia|]. intros (? & ? & Hc) Hte.
  assert (chain (rTime r) l) as Hc' by (eapply chain_le; [|done]; unfold rEnd; lia).
  specialize (IH _ (rEnd r) Hc'). unfold rEnd in *. lia.
Qed.

Lemma refills_ok_end P B l t : refills_ok P B l → chain_end t l ≤ head_time l + P + B.
Proof.
  intros (Hne & _ & Hc & Hw & <- & _). destruct l as [|r l]; [done|]. simpl in *.
  destruct Hc as (_ & ? & Hc).
  pose proof (chain_end_last (rTime r) (rEnd r) l) as He. unfold rEnd in *.
  assert (chain (rTime r) l) as Hc' by (eapply chain_le; [|done]; lia).
  specialize (He Hc'). lia.
Qed.

Lemma last_split l (t : refill) : last l = Some t → l = take (pred (length l)) l ++ [t].
Proof.
  destruct l as [|x l _] using rev_ind; [done|]. rewrite last_snoc. intros [= ->].
  rewrite length_app; simpl. replace (pred (length l + 1)) with (length l) by lia.
  by rewrite take_app_length.
Qed.

Lemma take_pred_snoc {A} (l : list A) x : take (pred (length (l ++ [x]))) (l ++ [x]) = l.
Proof. rewrite length_app; simpl. replace (pred _) with (length l) by lia. by rewrite take_app_length. Qed.

Lemma list_schedule_used_snoc max front tail new :
  list_schedule_used max (front ++ [tail]) new =
    if rTime new <=? rEnd tail then front ++ [Refill (rTime tail) (rAmount tail + rAmount new)]
    else if negb (Z.of_nat (length (front ++ [tail])) =? max) then (front ++ [tail]) ++ [new]
    else front ++ [Refill (rTime new - rAmount tail) (rAmount tail + rAmount new)].
Proof. unfold list_schedule_used. rewrite last_snoc. by rewrite take_pred_snoc. Qed.

Lemma list_schedule_used_length max l new :
  Z.of_nat (length l) ≤ max → Z.of_nat (length (list_schedule_used max l new)) ≤ max.
Proof.
  intros Hl. destruct l as [|tail front _] using rev_ind; [done|].
  rewrite list_schedule_used_snoc. revert Hl. rewrite !length_app; simpl. intros Hl.
  repeat case_match; rewrite ?length_app; simpl; try lia.
  revert H0. rewrite negb_true_iff, Z.eqb_neq. lia.
Qed.

(** Scheduling a used refill keeps the chain; the last release is no later than
    the old one or the start of [new]. *)
Lemma list_schedule_used_chain max l new t :
  l ≠ [] → chain t l → 0 < rAmount new →
  let l2 := list_schedule_used max l new in
  l2 ≠ [] ∧ chain t l2 ∧ refill_total l2 = refill_total l + rAmount new ∧
  last_time t l2 ≤ Z.max (last_time t l) (rTime new) ∧
  head_time l ≤ head_time l2 ≤ Z.max (head_time l) (rTime new) ∧
  (head_time l2 = head_time l ∨ length l2 = 1%nat).
Proof.
  intros Hne Hc Hnew. destruct l as [|tail front _] using rev_ind; [done|]. simpl.
  rewrite list_schedule_used_snoc. apply chain_app in Hc as [Hf (Ht1 & Ht2 & _)].
  unfold rEnd in *.
  destruct (Z.leb_spec (rTime new) (rTime tail + rAmount tail)) as [Hle|Hgt]; [|destruct (negb _)].
  all: rewrite !refill_total_app, !chain_app, !last_time_app, ?chain_end_app; simpl; unfold rEnd; simpl.
  all: split_and!; try done; try lia; destruct front; simpl in *; auto; lia.
Qed.

Lemma refills_ok_intro P B l t :
  l ≠ [] → 0 ≤ t → chain t l → refill_total l = B → B ≤ P →
  (length l = 1%nat ∨ last_time 0 l ≤ head_time l + P) → refills_ok P B l.
Proof.
  intros Hne Ht Hc HB HP Hw. destruct (chain_head_time l Hne t Hc) as [? Hc'].
  split_and!; [done|lia|done| |done|done].
  destruct Hw as [Hl|]; [|done]. destruct l as [|r [|]]; [done| |done].
  simpl in *. lia.
Qed.

Lemma list_schedule_used_ok P B max l new t :
  l ≠ [] → 0 ≤ t → chain t l → 0 < rAmount new → refill_total l + rAmount new = B → B ≤ P →
  last_time 0 l ≤ head_time l + P → rTime new ≤ head_time l + P →
  refills_ok P B (list_schedule_used max l new).
Proof.
  intros Hne Ht Hc Ha HB HP He1 He2.
  destruct (list_schedule_used_chain max l new t) as (Hne2 & Hc2 & Hs & He & Hh & Hd); [done..|].
  eapply (refills_ok_intro _ _ _ t); [done|lia|done|lia|done|].
  destruct Hd as [Hd|]; [right|by left].
  destruct l as [|r l]; [done|]. destruct (list_schedule_used max (r :: l) new) as [|r2 l2]; [done|].
  simpl in *. lia.
Qed.

(** Charging the head refill in full, or in part, keeps the invariant. *)
Lemma list_charge_head_ok P B max l :
  refills_ok P B l → 0 ≤ P →
  refills_ok P B (list_charge_head P max l) ∧
  head_time (list_charge_head P max l) ≤ head_time l + P.
Proof.
  intros (Hne & H0 & Hc & Hw & HB & HP) HP0. destruct l as [|h [|n l]]; [done|..]; simpl.
  - simpl in *. split; [|lia].
    eapply (refills_ok_intro _ _ _ (rTime h + P)); simpl; [done|lia|split_and!; [lia|tauto|done]|lia|lia|by left].
  - simpl in Hc, Hw, HB, H0. destruct Hc as (_ & Ha & Hn & Han & Hc). unfold rEnd in *.
    assert (chain (rTime h + rAmount h) (n :: l)) as Hc' by (simpl; unfold rEnd; done).
    split.
    + apply (list_schedule_used_ok P B max (n :: l) _ (rTime h + rAmount h)); simpl; unfold rEnd;
        try done; lia.
    + destruct (list_schedule_used_chain max (n :: l) (Refill (rTime h + P) (rAmount h)) (rTime h + rAmount h))
        as (_ & _ & _ & _ & Hh & _); [done..|].
      pose proof (chain_head_last _ (n :: l) ltac:(done) Hc') as Hlt. simpl in *. lia.
Qed.

Lemma list_charge_part_ok P B max usage h l :
  refills_ok P B (h :: l) → 0 < usage < rAmount h →
  refills_ok P B (list_charge_part P max usage (h :: l)) ∧
  head_time (list_charge_part P max usage (h :: l)) ≤ rTime h + P.
Proof.
  intros (_ & H0 & Hc & Hw & HB & HP) Hu. simpl in *. destruct Hc as (_ & Ha & Hc).
  pose proof (chain_total_nonneg _ _ Hc). unfold rEnd in *.
  assert (chain (rTime h) (Refill (rTime h + usage) (rAmount h - usage) :: l)) as Hc'.
  { simpl. unfold rEnd; simpl. split_and!; [lia..|]. eapply chain_le; [|exact Hc]. lia. }
  assert (last_time (rTime h + usage) l ≤ rTime h + usage + P) by (destruct l; simpl in *; lia).
  split.
  - eapply (list_schedule_used_ok P B _ _ _ (rTime h)); simpl; try done; lia.
  - destruct (list_schedule_used_chain max (Refill (rTime h + usage) (rAmount h - usage) :: l)
      (Refill (rTime h + P) usage) (rTime h)) as (_ & _ & _ & _ & Hh & _); [done|done|simpl; lia|].
    simpl in *. lia.
Qed.

Lemma list_merge_nonoverlapping_ok P B h n l :
  refills_ok P B (h :: n :: l) →
  refills_ok P B (list_merge_nonoverlapping (h :: n :: l)) ∧
  last_time 0 (list_merge_nonoverlapping (h :: n :: l)) ≤ last_time 0 (h :: n :: l).
Proof.
  intros (_ & H0 & (_ & Ha & Hn & Han & Hc) & Hw & HB & HP). unfold rEnd in *; simpl in *.
  unfold rEnd in *; simpl in *.
  assert (rTime n - rAmount h + (rAmount n + rAmount h) = rTime n + rAmount n) as Heq by lia.
  assert (last_time (rTime n - rAmount h) l ≤ last_time (rTime n) l) by (destruct l; simpl in *; lia).
  split; [|done].
  eapply (refills_ok_intro _ _ _ 0); simpl; unfold rEnd; simpl; rewrite ?Heq; try done; try lia.
  split_and!; [lia|lia|done].
Qed.

(** Merging on wake-up: the head was moved to the present, so it may overlap
    its successors; [late_ok] is the invariant with that overlap allowed. *)
Definition late_ok (P B : Z) (l : list refill) : Prop :=
  match l with
  | [] => False
  | h :: l' => 0 ≤ rTime h ∧ 0 < rAmount h ∧ (∃ t, chain t l') ∧
               last_time (rTime h) l' ≤ rTime h + P ∧ refill_total l = B ∧ B ≤ P
  end.

Lemma refills_ok_late P B h l now :
  refills_ok P B (h :: l) → rTime h ≤ now → late_ok P B (Refill now (rAmount h) :: l).
Proof.
  intros (_ & H0 & (_ & Ha & Hc) & Hw & HB & HP) Hnow. simpl in *.
  pose proof (chain_total_nonneg _ _ Hc).
  split_and!; [lia|done|by eexists| |lia|lia]. destruct l as [|n l]; simpl in *; lia.
Qed.

Lemma late_ok_merge P B h n l :
  late_ok P B (h :: n :: l) → late_ok P B (list_merge_overlapping (h :: n :: l)).
Proof.
  intros (H0 & Ha & (t & _ & Han & Hc) & Hw & HB & HP). simpl in *.
  pose proof (chain_total_nonneg _ _ Hc).
  split_and!; [done|lia|by eexists| |lia|lia]. destruct l; simpl in *; lia.
Qed.

Lemma late_ok_done P B h l :
  late_ok P B (h :: l) → (match l with [] => True | n :: _ => rEnd h < rTime n end) →
  refills_ok P B (h :: l).
Proof.
  intros (H0 & Ha & (t & Hc) & Hw & HB & HP) Hn.
  eapply (refills_ok_intro _ _ _ (rTime h)); try done.
  - simpl. split_and!; [lia|done|]. destruct l as [|n l]; [done|]. simpl in *.
    destruct Hc as (? & ? & ?). split_and!; [lia|done..].
  - by right.
Qed.

(** A new budget that keeps what the head still offers and schedules the rest
    a period later. *)
Definition list_update (now P B : Z) (h : refill) : list refill :=
  let t := if rTime h <=? now then now else rTime h in
  if B <=? rAmount h then [Refill t B]
  else [Refill t (rAmount h); Refill (t + P) (B - rAmount h)].

Lemma list_update_ok now P B h :
  0 ≤ now → 0 ≤ rTime h → 0 < rAmount h → 0 < B ≤ P → refills_ok P B (list_update now P B h).
Proof.
  intros. unfold list_update.
  destruct (Z.leb_spec (rTime h) now), (Z.leb_spec B (rAmount h));
    (eapply (refills_ok_intro _ _ _ 0); simpl; unfold rEnd; simpl; [done|lia|split_and!; lia || done|lia..]).
Qed.
