(* ===== verification/Sporadic.v ===== *)
(** * Sporadic servers

    [kernel/kernel/sporadic.c] and [kernel/include/kernel/sporadic.h]: the
    circular buffer of replenishments of a scheduling context and the budget
    accounting on it. The operations run on one [sched_context] (with the refill
    array that follows it in memory); [on_sc] of [State.v] runs them on the kernel heap.
    [Budget.v] proves that they implement the rules of [RefillList.v] on the list of
    refills from head to tail. *)
From S2P Require Import Prelude Words Platform State RefillList.

Definition MIN_REFILLS : Z := 2.

Section ops.
Context `{Platform}.

Definition MIN_BUDGET_US : Z := wrap (2 * getKernelWcetUs * CONFIG_KERNEL_WCET_SCALE).
Definition MIN_BUDGET : Z := wrap (2 * getKernelWcetTicks * CONFIG_KERNEL_WCET_SCALE).
Definition MAX_PERIOD_US : Z :=
  if CONFIG_KERNEL_STATIC_MAX_PERIOD_US =? 0 then getMaxUsToTicks / 8 else CONFIG_KERNEL_STATIC_MAX_PERIOD_US.
Definition MAX_RELEASE_TIME : Z := UINT64_MAX -w wrap (5 * usToTicks MAX_PERIOD_US).

(** Code on one scheduling context. *)
Abbreviation S := (M sched_context).

(** Load and store through [refill_index(sc, i)]. *)
Definition refill_index (i : Z) : S refill :=
  sc ← get_state; deref (scRefills sc !! Z.to_nat i).
Definition refill_store (i : Z) (r : refill) : S unit :=
  _ ← refill_index i;
  modify (λ sc, set_scRefills (<[Z.to_nat i := r]> (scRefills sc)) sc).
Definition refill_head : S refill := sc ← get_state; refill_index (scRefillHead sc).
Definition refill_tail : S refill := sc ← get_state; refill_index (scRefillTail sc).
Definition store_head (r : refill) : S unit := sc ← get_state; refill_store (scRefillHead sc) r.
Definition store_tail (r : refill) : S unit := sc ← get_state; refill_store (scRefillTail sc) r.

Definition refill_next (sc : sched_context) (index : Z) : Z :=
  if index =? scRefillMax sc -w 1 then 0 else index +w 1.

Definition refill_size (sc : sched_context) : Z :=
  if scRefillHead sc <=? scRefillTail sc
  then scRefillTail sc -w scRefillHead sc +w 1
  else scRefillTail sc +w 1 +w (scRefillMax sc -w scRefillHead sc).

Definition refill_full (sc : sched_context) : bool := refill_size sc =? scRefillMax sc.
Definition refill_single (sc : sched_context) : bool := scRefillHead sc =? scRefillTail sc.
Definition sc_active (sc : sched_context) : bool := 0 <? scRefillMax sc.
Definition isRoundRobin (sc : sched_context) : bool := scPeriod sc =? 0.

Definition refill_absolute_max (sc_cap : cap) : Z :=
  match sc_cap with
  | cap_sched_context_cap _ capSCSizeBits => (BIT capSCSizeBits -w 96) / 16
  | _ => 0
  end.

Definition refill_capacity (usage : Z) : S Z :=
  h ← refill_head;
  mret (if rAmount h <? usage then 0 else rAmount h -w usage).
Definition refill_sufficient (usage : Z) : S bool :=
  c ← refill_capacity usage; mret (MIN_BUDGET <=? c).
Definition refill_ready (ksCurTime : Z) : S bool :=
  h ← refill_head; mret (rTime h <=? ksCurTime).
Definition sc_released (ksCurTime : Z) : S bool :=
  sc ← get_state;
  if sc_active sc then
    b ← refill_sufficient 0; assert! b;;
    refill_ready ksCurTime
  else mret false.

(** [refill_sum] and [refill_ordered] walk the buffer from head to tail. *)
Definition refill_sum : S Z :=
  h ← refill_head; sc ← get_state;
  while64 (λ '(sum, current),
    sc ← get_state;
    if current =? scRefillTail sc then mret (inr sum)
    else let current := refill_next sc current in
         r ← refill_index current;
         mret (inl (sum +w rAmount r, current)))
    (rAmount h, scRefillHead sc).

Definition refill_ordered : S bool :=
  sc ← get_state;
  if isRoundRobin sc then mret true else
  while64 (λ '(current, next),
    sc ← get_state;
    if current =? scRefillTail sc then mret (inr true)
    else c ← refill_index current; n ← refill_index next;
         if negb (rTime c +w rAmount c <=? rTime n) then mret (inr false)
         else mret (inl (next, refill_next sc next)))
    (scRefillHead sc, refill_next sc (scRefillHead sc)).

Definition refill_pop_head : S refill :=
  sc ← get_state;
  assert! (negb (refill_single sc));;
  let prev_size := refill_size sc in
  refill ← refill_head;
  modify (set_scRefillHead (refill_next sc (scRefillHead sc)));;
  sc' ← get_state;
  assert! (prev_size =? refill_size sc' +w 1);;
  assert! (scRefillHead sc' <? scRefillMax sc');;
  mret refill.

Definition refill_add_tail (r : refill) : S unit :=
  sc ← get_state;
  assert! (refill_size sc <? scRefillMax sc);;
  let new_tail := refill_next sc (scRefillTail sc) in
  modify (set_scRefillTail new_tail);;
  store_tail r;;
  assert! (new_tail <? scRefillMax sc).

Definition maybe_add_empty_tail : S unit :=
  sc ← get_state;
  when (isRoundRobin sc)
    (h ← refill_head;
     refill_add_tail (Refill (rTime h) 0);;
     sc' ← get_state;
     assert! (refill_size sc' =? MIN_REFILLS)).

Definition refill_new (ksCurTime max_refills budget period : Z) : S unit :=
  modify (set_scPeriod period);;
  modify (set_scRefillHead 0);;
  modify (set_scRefillTail 0);;
  modify (set_scRefillMax max_refills);;
  assert! (MIN_BUDGET <=? budget);;
  h ← refill_head; store_head (Refill (rTime h) budget);;
  h ← refill_head; store_head (Refill ksCurTime (rAmount h));;
  maybe_add_empty_tail.

Definition refill_update (ksCurTime new_period new_budget new_max_refills : Z) : S unit :=
  sc ← get_state;
  assert! (0 <? scRefillMax sc);;
  h ← refill_head; refill_store 0 h;;
  modify (set_scRefillHead 0);;
  modify (λ sc, set_scRefillTail (scRefillHead sc) sc);;
  modify (set_scRefillMax new_max_refills);;
  modify (set_scPeriod new_period);;
  ready ← refill_ready ksCurTime;
  when ready (h ← refill_head; store_head (Refill ksCurTime (rAmount h)));;
  h ← refill_head;
  if new_budget <=? rAmount h then
    store_head (Refill (rTime h) new_budget);;
    maybe_add_empty_tail
  else
    refill_add_tail (Refill (rTime h +w new_period) (new_budget -w rAmount h)).

Definition schedule_used (new : refill) : S unit :=
  tail ← refill_tail;
  sc ← get_state;
  if rTime new <=? rTime tail +w rAmount tail then
    store_tail (Refill (rTime tail) (rAmount tail +w rAmount new))
  else if negb (refill_full sc) then
    refill_add_tail new
  else
    store_tail (Refill (rTime new -w rAmount tail) (rAmount tail));;
    store_tail (Refill (rTime new -w rAmount tail) (rAmount tail +w rAmount new)).

Definition refill_head_overlapping : S bool :=
  sc ← get_state;
  if negb (refill_single sc) then
    head ← refill_head;
    let tail := rTime head +w rAmount head in
    r ← refill_index (refill_next sc (scRefillHead sc));
    mret (rTime r <=? tail)
  else mret false.

Definition head_refill_overrun (usage : Z) : S bool :=
  head ← refill_head;
  mret ((rAmount head <=? usage) && (rTime head <? MAX_RELEASE_TIME)).

Definition charge_entire_head_refill (usage : Z) : S Z :=
  head ← refill_head;
  sc ← get_state;
  (if refill_single sc then
     store_head (Refill (rTime head +w scPeriod sc) (rAmount head))
   else
     old_head ← refill_pop_head;
     schedule_used (Refill (rTime old_head +w scPeriod sc) (rAmount old_head)));;
  mret (usage -w rAmount head).

Definition handle_overrun (usage : Z) : S Z :=
  while64 (λ current_usage,
    b ← head_refill_overrun current_usage;
    if b : bool then u ← charge_entire_head_refill current_usage; mret (inl u)
    else mret (inr current_usage)) usage.

Definition head_refill_insufficient : S bool :=
  h ← refill_head; mret (rAmount h <? MIN_BUDGET).

Definition merge_nonoverlapping_head_refill : S unit :=
  head ← refill_pop_head;
  h ← refill_head; store_head (Refill (rTime h) (rAmount h +w rAmount head));;
  h ← refill_head; store_head (Refill (rTime h -w rAmount head) (rAmount h)).

Definition refill_budget_check (usage : Z) : S unit :=
  sc ← get_state;
  assert! (negb (isRoundRobin sc));;
  usage ← handle_overrun usage;
  head ← refill_head;
  when ((0 <? usage) && (rTime head <? MAX_RELEASE_TIME))
    (assert! (usage <? rAmount head);;
     sc ← get_state;
     let used := Refill (rTime head +w scPeriod sc) usage in
     store_head (Refill (rTime head) (rAmount head -w usage));;
     h ← refill_head; store_head (Refill (rTime head +w usage) (rAmount h));;
     schedule_used used);;
  while64 (λ _ : unit,
    b ← head_refill_insufficient;
    if b : bool then merge_nonoverlapping_head_refill;; mret (inl ()) else mret (inr ())) ().

Definition merge_overlapping_head_refill : S unit :=
  old_head ← refill_pop_head;
  h ← refill_head; store_head (Refill (rTime old_head) (rAmount h));;
  h ← refill_head; store_head (Refill (rTime h) (rAmount h +w rAmount old_head)).

(** The part of [refill_unblock_check] that changes the scheduling context;
    the result says whether [ksReprogram] is set. *)
Definition refill_unblock_check_sc (ksCurTime : Z) : S bool :=
  sc ← get_state;
  if isRoundRobin sc then mret false else
  ready ← refill_ready ksCurTime;
  if ready : bool then
    h ← refill_head; store_head (Refill ksCurTime (rAmount h));;
    while64 (λ _ : unit,
      b ← refill_head_overlapping;
      if b : bool then merge_overlapping_head_refill;; mret (inl ()) else mret (inr ())) ();;
    b ← refill_sufficient 0; assert! b;;
    mret true
  else mret false.
End ops.

(** ** The buffer as a list *)
Definition refills_repr (sc : sched_context) (l : list refill) : Prop :=
  let max := scRefillMax sc in
  0 < max < 2 ^ 64 ∧ max ≤ Z.of_nat (length (scRefills sc)) ∧
  0 ≤ scRefillHead sc < max ∧ 1 ≤ Z.of_nat (length l) ≤ max ∧
  scRefillTail sc = (scRefillHead sc + Z.of_nat (length l) - 1) mod max ∧
  ∀ i r, l !! i = Some r →
    scRefills sc !! Z.to_nat ((scRefillHead sc + Z.of_nat i) mod max) = Some r.

(** [sc'] differs from [sc] at most in the buffer. *)
Definition same_params (sc sc' : sched_context) : Prop :=
  set_scRefills [] (set_scRefillHead 0 (set_scRefillTail 0 sc)) =
  set_scRefills [] (set_scRefillHead 0 (set_scRefillTail 0 sc')) .

#[global] Instance same_params_equiv : Equivalence same_params.
Proof. unfold same_params. split; [by intros ?|by intros ??|intros ???; apply transitivity]. Qed.

Lemma same_params_max sc sc' : same_params sc sc' → scRefillMax sc' = scRefillMax sc.
Proof. by intros [=]. Qed.
Lemma same_params_period sc sc' : same_params sc sc' → scPeriod sc' = scPeriod sc.
Proof. by intros [=]. Qed.

Section buffer.
Implicit Types (sc : sched_context) (l : list refill) (r : refill).

Lemma refill_next_mod sc i :
  0 < scRefillMax sc < 2 ^ 64 → 0 ≤ i < scRefillMax sc →
  refill_next sc i = (i + 1) mod scRefillMax sc.
Proof.
  intros Hm Hi. unfold refill_next. rewrite !wrap_small by (unfold is_word; lia).
  destruct (Z.eqb_spec i (scRefillMax sc - 1)) as [->|Hne].
  - replace (scRefillMax sc - 1 + 1) with (1 * scRefillMax sc) by lia. by rewrite Z.mod_mul by lia.
  - rewrite Z.mod_small; lia.
Qed.

Lemma mod_once a b : 0 < b → b ≤ a < 2 * b → a mod b = a - b.
Proof. intros Hb Ha. symmetry. apply Z.mod_unique with 1; lia. Qed.

Lemma refill_size_repr sc l : refills_repr sc l → refill_size sc = Z.of_nat (length l).
Proof.
  intros (Hm & _ & Hh & Hl & Ht & _). unfold refill_size. rewrite Ht.
  destruct (Z.lt_ge_cases (scRefillHead sc + Z.of_nat (length l) - 1) (scRefillMax sc)) as [Hlt|Hge].
  - rewrite Z.mod_small by lia. destruct (Z.leb_spec (scRefillHead sc)
      (scRefillHead sc + Z.of_nat (length l) - 1)); [|lia].
    rewrite (wrap_small (_ - _)) by (unfold is_word; lia). rewrite wrap_small by (unfold is_word; lia). lia.
  - rewrite mod_once by lia. destruct (Z.leb_spec (scRefillHead sc)
      (scRefillHead sc + Z.of_nat (length l) - 1 - scRefillMax sc)); [lia|].
    rewrite !wrap_small; unfold is_word; rewrite ?wrap_small; unfold is_word; lia.
Qed.

Lemma refill_single_repr sc l : refills_repr sc l → refill_single sc = (Z.of_nat (length l) =? 1).
Proof.
  intros (Hm & _ & Hh & Hl & Ht & _). unfold refill_single. rewrite Ht.
  apply eq_bool_prop_intro. rewrite !Is_true_true, !Z.eqb_eq.
  destruct (Z.lt_ge_cases (scRefillHead sc + Z.of_nat (length l) - 1) (scRefillMax sc)) as [Hlt|Hge].
  - rewrite Z.mod_small by lia. lia.
  - rewrite mod_once by lia. lia.
Qed.

Lemma refill_full_repr sc l :
  refills_repr sc l → refill_full sc = (Z.of_nat (length l) =? scRefillMax sc).
Proof. intros Hr. unfold refill_full. by rewrite (refill_size_repr _ _ Hr). Qed.

Lemma slot_range sc l : refills_repr sc l → ∀ k, 0 ≤ k → 
  (Z.to_nat ((scRefillHead sc + k) mod scRefillMax sc) < length (scRefills sc))%nat.
Proof.
  intros (Hm & Hlen & _) k Hk. pose proof (Z.mod_pos_bound (scRefillHead sc + k) (scRefillMax sc)). lia.
Qed.

Lemma slot_inj sc (i j : Z) :
  0 < scRefillMax sc → 0 ≤ i < scRefillMax sc → 0 ≤ j < scRefillMax sc → i ≠ j →
  Z.to_nat ((scRefillHead sc + i) mod scRefillMax sc) ≠ Z.to_nat ((scRefillHead sc + j) mod scRefillMax sc).
Proof.
  intros Hm Hi Hj Hne Heq.
  pose proof (Z.mod_pos_bound (scRefillHead sc + i) (scRefillMax sc)).
  pose proof (Z.mod_pos_bound (scRefillHead sc + j) (scRefillMax sc)).
  apply Z2Nat.inj in Heq; [|lia..]. apply Hne.
  assert ((i - j) mod scRefillMax sc = 0) as H1.
  { replace (i - j) with ((scRefillHead sc + i) - (scRefillHead sc + j)) by lia.
    rewrite Zminus_mod, Heq, Z.sub_diag. apply Z.mod_0_l. lia. }
  apply Z.mod_divide in H1 as [q Hq]; [|lia].
  assert (-1 < q) by (apply (Z.mul_lt_mono_pos_r (scRefillMax sc)); lia).
  assert (q < 1) by (apply (Z.mul_lt_mono_pos_r (scRefillMax sc)); lia).
  assert (q = 0) as -> by lia. lia.
Qed.

(** Overwriting the refill at position [k] of the list. *)
Lemma repr_store sc l k r :
  refills_repr sc l → (k < length l)%nat →
  refills_repr
    (set_scRefills (<[Z.to_nat ((scRefillHead sc + Z.of_nat k) mod scRefillMax sc) := r]> (scRefills sc)) sc)
    (<[k := r]> l).
Proof.
  intros Hr Hk. pose proof (slot_range _ _ Hr (Z.of_nat k)) as Hrange.
  destruct Hr as (Hm & Hlen & Hh & Hl & Ht & Hlook). unfold refills_repr; simpl.
  rewrite !length_insert. split_and!; [lia..|done|].
  intros i r' Hi. destruct (decide (i = k)) as [->|Hne].
  - rewrite list_lookup_insert_eq in Hi by done. simplify_eq.
    apply list_lookup_insert_eq. lia.
  - rewrite list_lookup_insert_ne in Hi by done.
    rewrite list_lookup_insert_ne; [by apply Hlook|].
    apply lookup_lt_Some in Hi. apply slot_inj; lia.
Qed.

Lemma repr_head_slot sc l : refills_repr sc l → scRefillHead sc = (scRefillHead sc + 0) mod scRefillMax sc.
Proof. intros (Hm & _ & Hh & _). rewrite Z.add_0_r, Z.mod_small; lia. Qed.

Lemma wp_refill_index sc l (k : nat) r i Q :
  refills_repr sc l → l !! k = Some r →
  i = (scRefillHead sc + Z.of_nat k) mod scRefillMax sc → Q r sc → wp (refill_index i) Q sc.
Proof.
  intros Hr Hk -> HQ. apply wp_bind. unfold wp, get_state, deref.
  destruct Hr as (_ & _ & _ & _ & _ & Hlook). by rewrite (Hlook _ _ Hk).
Qed.

Lemma wp_refill_store sc l (k : nat) r i Q :
  refills_repr sc l → (k < length l)%nat →
  i = (scRefillHead sc + Z.of_nat k) mod scRefillMax sc →
  (∀ sc', refills_repr sc' (<[k := r]> l) → same_params sc sc' → Q () sc') →
  wp (refill_store i r) Q sc.
Proof.
  intros Hr Hk Hi HQ. destruct (lookup_lt_is_Some_2 _ _ Hk) as [r0 Hr0].
  apply wp_bind. eapply wp_refill_index; [done..|]. apply wp_modify, HQ.
  - subst i. by apply repr_store.
  - done.
Qed.

Lemma wp_refill_head sc h l Q : refills_repr sc (h :: l) → Q h sc → wp refill_head Q sc.
Proof.
  intros Hr HQ. apply wp_bind, wp_gets.
  eapply (wp_refill_index sc (h :: l) 0); [done..|by eapply repr_head_slot|done].
Qed.

Lemma wp_store_head sc h l r Q :
  refills_repr sc (h :: l) →
  (∀ sc', refills_repr sc' (r :: l) → same_params sc sc' → Q () sc') → wp (store_head r) Q sc.
Proof.
  intros Hr HQ. apply wp_bind, wp_gets.
  eapply (wp_refill_store sc (h :: l) 0); [done|simpl; lia|by eapply repr_head_slot|done].
Qed.

Lemma repr_tail_slot sc l t :
  refills_repr sc (l ++ [t]) →
  scRefillTail sc = (scRefillHead sc + Z.of_nat (length l)) mod scRefillMax sc.
Proof. intros (_ & _ & _ & _ & -> & _). rewrite length_app. simpl. f_equal. lia. Qed.

Lemma wp_refill_tail sc l t Q : refills_repr sc (l ++ [t]) → Q t sc → wp refill_tail Q sc.
Proof.
  intros Hr HQ. apply wp_bind, wp_gets.
  eapply (wp_refill_index sc (l ++ [t]) (length l)); [done| |by eapply repr_tail_slot|done].
  by apply list_lookup_middle.
Qed.

Lemma wp_store_tail sc l t r Q :
  refills_repr sc (l ++ [t]) →
  (∀ sc', refills_repr sc' (l ++ [r]) → same_params sc sc' → Q () sc') → wp (store_tail r) Q sc.
Proof.
  intros Hr HQ. apply wp_bind, wp_gets.
  eapply (wp_refill_store sc (l ++ [t]) (length l)); [done| |by eapply repr_tail_slot|].
  - rewrite length_app; simpl; lia.
  - rewrite insert_app_r_alt, Nat.sub_diag by lia. done.
Qed.

Lemma repr_pop sc h n l :
  refills_repr sc (h :: n :: l) →
  refills_repr (set_scRefillHead (refill_next sc (scRefillHead sc)) sc) (n :: l).
Proof.
  intros (Hm & Hlen & Hh & Hl & Ht & Hlook). unfold refills_repr; simpl in *.
  rewrite refill_next_mod by lia.
  pose proof (Z.mod_pos_bound (scRefillHead sc + 1) (scRefillMax sc)).
  split_and!; try lia.
  - rewrite Ht. replace ((scRefillHead sc + 1) mod scRefillMax sc + _ - 1) with
      ((scRefillHead sc + 1) mod scRefillMax sc + Z.of_nat (length l)) by lia.
    rewrite Z.add_mod_idemp_l by lia. f_equal. lia.
  - intros i r Hi. rewrite Z.add_mod_idemp_l by lia.
    pose proof (Hlook (Datatypes.S i) r Hi) as Hi'. rewrite Nat2Z.inj_succ in Hi'.
    by replace (scRefillHead sc + 1 + Z.of_nat i) with (scRefillHead sc + Z.succ (Z.of_nat i)) by lia.
Qed.

Lemma wp_refill_pop_head sc h n l Q :
  refills_repr sc (h :: n :: l) →
  (∀ sc', refills_repr sc' (n :: l) → same_params sc sc' → Q h sc') → wp refill_pop_head Q sc.
Proof.
  intros Hr HQ. pose proof (repr_pop _ _ _ _ Hr) as Hr'.
  apply wp_bind, wp_gets. apply wp_bind, wp_assert.
  { rewrite (refill_single_repr _ _ Hr). apply negb_true_iff, Z.eqb_neq. cbn [length]. lia. }
  apply wp_bind. eapply wp_refill_head; [done|]. apply wp_bind, wp_modify.
  apply wp_bind, wp_gets. apply wp_bind, wp_assert.
  { rewrite (refill_size_repr _ _ Hr), (refill_size_repr _ _ Hr'). apply Z.eqb_eq.
    destruct Hr as (? & _ & _ & Hl & _). simpl in *. rewrite wrap_small; unfold is_word; lia. }
  apply wp_bind, wp_assert.
  { destruct Hr' as (_ & _ & ? & _). apply Z.ltb_lt. lia. }
  apply wp_ret. by apply HQ.
Qed.

Lemma repr_extend sc l r :
  refills_repr sc l → Z.of_nat (length l) < scRefillMax sc →
  let t := refill_next sc (scRefillTail sc) in
  t = (scRefillHead sc + Z.of_nat (length l)) mod scRefillMax sc ∧
  refills_repr (set_scRefills (<[Z.to_nat t := r]> (scRefills sc)) (set_scRefillTail t sc)) (l ++ [r]).
Proof.
  intros Hr Hlt t. pose proof (slot_range _ _ Hr) as Hrange.
  destruct Hr as (Hm & Hlen & Hh & Hl & Ht & Hlook).
  assert (t = (scRefillHead sc + Z.of_nat (length l)) mod scRefillMax sc) as Heq.
  { unfold t. pose proof (Z.mod_pos_bound (scRefillHead sc + Z.of_nat (length l) - 1) (scRefillMax sc)).
    rewrite Ht, refill_next_mod, Z.add_mod_idemp_l by lia. f_equal. lia. }
  split; [done|]. rewrite Heq. unfold refills_repr; simpl. rewrite length_insert, length_app; simpl.
  split_and!; try lia; [f_equal; lia|]. intros i r' [Hi|[Hge Hi]]%lookup_app_Some.
  - pose proof (lookup_lt_Some _ _ _ Hi). rewrite list_lookup_insert_ne; [by apply Hlook|].
    apply slot_inj; lia.
  - destruct (i - length l)%nat as [|?] eqn:E; [|done]. simplify_eq/=.
    replace i with (length l) by lia. apply list_lookup_insert_eq. apply Hrange. lia.
Qed.

Lemma wp_refill_add_tail sc l r Q :
  refills_repr sc l → Z.of_nat (length l) < scRefillMax sc →
  (∀ sc', refills_repr sc' (l ++ [r]) → same_params sc sc' → Q () sc') → wp (refill_add_tail r) Q sc.
Proof.
  intros Hr Hlt HQ. destruct (repr_extend sc l r Hr Hlt) as [Heq Hr'].
  apply wp_bind, wp_gets. apply wp_bind, wp_assert.
  { rewrite (refill_size_repr _ _ Hr). by apply Z.ltb_lt. }
  apply wp_bind, wp_modify. apply wp_bind, wp_bind, wp_gets. simpl.
  assert ((Z.to_nat (refill_next sc (scRefillTail sc)) < length (scRefills sc))%nat) as Hin.
  { rewrite Heq. apply (slot_range _ _ Hr). lia. }
  destruct (lookup_lt_is_Some_2 _ _ Hin) as [r0 Hr0].
  apply wp_bind, wp_bind. unfold wp at 1, get_state, deref; simpl. rewrite Hr0.
  apply wp_modify, wp_assert.
  { rewrite Heq. destruct Hr as (? & _). apply Z.ltb_lt, Z.mod_pos_bound. lia. }
  by apply HQ.
Qed.
End buffer.
