(* ===== verification/Budget.v ===== *)
(** * Budget accounting

    The C routines of [kernel/kernel/sporadic.c], run on the circular buffer,
    implement the rules of [RefillList.v] on the list of refills, and therefore
    keep the invariant of a sporadic server: the refills sum to the budget, are
    ordered and disjoint, and span at most one period. The loops return. *)
From S2P Require Import Prelude Words Platform State RefillList Sporadic.

(** The last refill of a chain lies inside it. *)
Lemma chain_last t front tail :
  0 ≤ t → chain t (front ++ [tail]) →
  0 ≤ rTime tail ∧ 0 < rAmount tail ∧ rEnd tail = chain_end t (front ++ [tail]) ∧
  rAmount tail ≤ refill_total (front ++ [tail]).
Proof.
  intros Ht Hc. rewrite chain_end_app, refill_total_app. apply chain_app in Hc as [Hf (H1 & H2 & _)].
  pose proof (chain_span _ _ Hf). pose proof (chain_total_nonneg _ _ Hf). simpl. lia.
Qed.

Ltac word := rewrite ?wrap_small by (unfold is_word; unfold rEnd in *; lia).

Lemma wp_schedule_used sc l new t Q :
  refills_repr sc l → 0 ≤ t → chain t l → chain_end t l < 2 ^ 64 →
  0 < rAmount new → 0 ≤ rTime new < 2 ^ 64 → refill_total l + rAmount new < 2 ^ 64 →
  (∀ sc', refills_repr sc' (list_schedule_used (scRefillMax sc) l new) → same_params sc sc' → Q () sc') →
  wp (schedule_used new) Q sc.
Proof.
  intros Hr Ht Hc He Ha Hn Hs HQ.
  destruct l as [|tail front _] using rev_ind; [destruct Hr as (_ & _ & _ & Hl & _); simpl in Hl; lia|].
  destruct (chain_last _ _ _ Ht Hc) as (Ht0 & Hta & Hte & Htt). unfold rEnd in Hte.
  rewrite list_schedule_used_snoc in HQ. unfold rEnd in HQ.
  apply wp_bind. eapply wp_refill_tail; [done|]. apply wp_bind, wp_gets.
  rewrite (wrap_small (rTime tail + _)) by (unfold is_word; lia).
  destruct (Z.leb_spec (rTime new) (rTime tail + rAmount tail)) as [Hle|Hgt].
  - rewrite wrap_small by (unfold is_word; lia). by eapply wp_store_tail.
  - rewrite (refill_full_repr _ _ Hr).
    destruct (Z.eqb_spec (Z.of_nat (length (front ++ [tail]))) (scRefillMax sc)) as [Heq|Hne]; simpl in *.
    + rewrite !wrap_small by (unfold is_word; lia).
      apply wp_bind. eapply wp_store_tail; [done|]. intros sc1 Hr1 Hp1.
      eapply wp_store_tail; [done|]. intros sc2 Hr2 Hp2. apply HQ; [done|by trans sc1].
    + eapply wp_refill_add_tail; [done| |done].
      destruct Hr as (_ & _ & _ & Hl & _). lia.
Qed.

Lemma wp_charge_entire_head_refill sc h l P B usage Q :
  refills_repr sc (h :: l) → refills_ok P B (h :: l) → scPeriod sc = P →
  0 ≤ P → B < 2 ^ 64 → rTime h + P + B < 2 ^ 64 → rAmount h ≤ usage < 2 ^ 64 →
  (∀ sc', refills_repr sc' (list_charge_head P (scRefillMax sc) (h :: l)) → same_params sc sc' →
     Q (usage - rAmount h) sc') →
  wp (charge_entire_head_refill usage) Q sc.
Proof.
  intros Hr Hok HPer HP0 HB64 Ht64 Hu HQ. pose proof (refills_ok_end _ _ _ 0 Hok) as Hend.
  destruct Hok as (_ & H0 & (_ & Ha & Hc) & Hw & HB & HP); simpl in *.
  pose proof (chain_span _ _ Hc) as Hsp. pose proof (chain_total_nonneg _ _ Hc) as Hnn.
  unfold rEnd in *.
  apply wp_bind. eapply wp_refill_head; [done|]. apply wp_bind, wp_gets.
  rewrite (refill_single_repr _ _ Hr), HPer.
  rewrite (wrap_small (rTime h + P)) by (unfold is_word; lia).
  rewrite (wrap_small (usage - rAmount h)) by (unfold is_word; lia).
  destruct l as [|n l]; cbn [length].
  - change (Z.of_nat 1 =? 1) with true. cbv iota.
    apply wp_bind. eapply wp_store_head; [done|]. intros sc' Hr' Hp. by apply wp_ret, HQ.
  - rewrite (proj2 (Z.eqb_neq _ _)) by lia.
    apply wp_bind, wp_bind. eapply wp_refill_pop_head; [done|]. intros sc1 Hr1 Hp1.
    rewrite (wrap_small (rTime h + P)) by (unfold is_word; lia). simpl in *.
    eapply (wp_schedule_used _ _ _ (rTime h + rAmount h)); [done|lia|done|simpl; lia..|].
    intros sc2 Hr2 Hp2. rewrite (same_params_max _ _ Hp1) in Hr2.
    apply wp_ret, HQ; [done|by trans sc1].
Qed.

Lemma wp_merge_nonoverlapping sc h n l P B Q :
  refills_repr sc (h :: n :: l) → refills_ok P B (h :: n :: l) → chain_end 0 (h :: n :: l) < 2 ^ 64 →
  (∀ sc', refills_repr sc' (list_merge_nonoverlapping (h :: n :: l)) → same_params sc sc' → Q () sc') →
  wp merge_nonoverlapping_head_refill Q sc.
Proof.
  intros Hr (_ & H0 & (_ & Ha & Hn & Han & Hc) & _) He HQ; simpl in *.
  pose proof (chain_span _ _ Hc) as Hsp. pose proof (chain_total_nonneg _ _ Hc). unfold rEnd in *.
  apply wp_bind. eapply wp_refill_pop_head; [done|]. intros sc1 Hr1 Hp1.
  apply wp_bind. eapply wp_refill_head; [done|]. apply wp_bind. eapply wp_store_head; [done|].
  intros sc2 Hr2 Hp2. apply wp_bind. eapply wp_refill_head; [done|]. eapply wp_store_head; [done|].
  intros sc3 Hr3 Hp3. simpl in *. rewrite !wrap_small in Hr3 by (unfold is_word; lia).
  apply HQ; [done|]. trans sc1; [done|]. by trans sc2.
Qed.

Lemma wp_merge_overlapping sc h n l P B Q :
  refills_repr sc (h :: n :: l) → late_ok P B (h :: n :: l) → B < 2 ^ 64 →
  (∀ sc', refills_repr sc' (list_merge_overlapping (h :: n :: l)) → same_params sc sc' → Q () sc') →
  wp merge_overlapping_head_refill Q sc.
Proof.
  intros Hr (H0 & Ha & (t & _ & Han & Hc) & Hw & HB & HP) HB64 HQ; simpl in *.
  pose proof (chain_total_nonneg _ _ Hc).
  apply wp_bind. eapply wp_refill_pop_head; [done|]. intros sc1 Hr1 Hp1.
  apply wp_bind. eapply wp_refill_head; [done|]. apply wp_bind. eapply wp_store_head; [done|].
  intros sc2 Hr2 Hp2. apply wp_bind. eapply wp_refill_head; [done|]. eapply wp_store_head; [done|].
  intros sc3 Hr3 Hp3. simpl in *. rewrite !wrap_small in Hr3 by (unfold is_word; lia).
  apply HQ; [done|]. trans sc1; [done|]. by trans sc2.
Qed.

(** ** The accounting theorems *)
Section accounting.
Context `{PlatformOk}.
Abbreviation MAXP := (usToTicks MAX_PERIOD_US).

Lemma min_budget_pos : 0 < MIN_BUDGET.
Proof.
  pose proof ticks_in_us_pos. pose proof wcet_scale_pos. pose proof wcet_fits.
  assert (TICKS_IN_US ≤ TICKS_IN_US * CONFIG_KERNEL_WCET_SCALE) by nia.
  unfold MIN_BUDGET, getKernelWcetTicks, getKernelWcetUs. rewrite usToTicks_small by (unfold UINT64_MAX; lia).
  rewrite wrap_small; unfold is_word; lia.
Qed.
Lemma max_period_bounds : 0 ≤ MAX_PERIOD_US ∧ 5 * (MAX_PERIOD_US * TICKS_IN_US) ≤ UINT64_MAX.
Proof.
  pose proof ticks_in_us_pos. unfold MAX_PERIOD_US.
  destruct (Z.eqb_spec CONFIG_KERNEL_STATIC_MAX_PERIOD_US 0); [|split; [apply static_period_pos|apply static_period_room]].
  unfold getMaxUsToTicks. assert (TICKS_IN_US * (UINT64_MAX / TICKS_IN_US) ≤ UINT64_MAX) by (apply Z.mul_div_le; lia).
  assert (0 ≤ UINT64_MAX / TICKS_IN_US) by (apply Z.div_pos; unfold UINT64_MAX; lia).
  set (q := UINT64_MAX / TICKS_IN_US) in *. assert (8 * (q / 8) ≤ q) by (apply Z.mul_div_le; lia).
  split; [apply Z.div_pos; lia|]. nia.
Qed.
Lemma max_period_pos : 0 ≤ MAXP.
Proof. apply Z.mod_pos_bound. lia. Qed.
Lemma max_period_room : 5 * MAXP ≤ UINT64_MAX.
Proof. pose proof max_period_bounds. pose proof ticks_in_us_pos. rewrite usToTicks_small; unfold UINT64_MAX in *; nia. Qed.

Lemma max_release_time : MAX_RELEASE_TIME = 2 ^ 64 - 1 - 5 * MAXP.
Proof.
  pose proof max_period_pos. pose proof max_period_room. unfold MAX_RELEASE_TIME, UINT64_MAX in *.
  rewrite (wrap_small (5 * _)); rewrite ?wrap_small; unfold is_word; lia.
Qed.

(** The invariant between kernel entries of a scheduling context that is
    not round robin: the head refill can be used, and every time fits. *)
Definition budget_inv (B : Z) (sc : sched_context) (l : list refill) : Prop :=
  refills_repr sc l ∧ refills_ok (scPeriod sc) B l ∧ 0 < scPeriod sc ≤ MAXP ∧
  MIN_BUDGET ≤ B ∧ (∀ h, head l = Some h → MIN_BUDGET ≤ rAmount h) ∧
  head_time l ≤ MAX_RELEASE_TIME + 2 * scPeriod sc.

(** What holds between the steps of the budget check: unless nothing was
    charged, the head is at most a period after the last release. *)
Definition charged (B : Z) (sc0 : sched_context) (l0 : list refill) (bound : list refill → Prop)
    (sc : sched_context) (l : list refill) : Prop :=
  refills_repr sc l ∧ refills_ok (scPeriod sc0) B l ∧ same_params sc0 sc ∧ (l = l0 ∨ bound l).

Lemma budget_head_room B sc l : budget_inv B sc l → B < 2 ^ 64 ∧ head_time l + 2 * scPeriod sc < 2 ^ 64.
Proof.
  intros (_ & (_ & _ & _ & _ & _ & ?) & ? & _ & _ & ?). rewrite max_release_time in *.
  pose proof max_period_room. pose proof max_period_pos. unfold UINT64_MAX in *. lia.
Qed.

Lemma handle_overrun_spec B sc l usage Q :
  budget_inv B sc l → is_word usage →
  (∀ u sc' h' l', charged B sc l (λ l, head_time l ≤ MAX_RELEASE_TIME + scPeriod sc) sc' (h' :: l') →
     is_word u → (u < rAmount h' ∨ MAX_RELEASE_TIME ≤ rTime h') → Q u sc') →
  wp (handle_overrun usage) Q sc.
Proof.
  intros Hinv Hu HQ. destruct (budget_head_room _ _ _ Hinv) as [HB64 Hroom].
  destruct Hinv as (Hr & Hok & HP & HB & Hmin & Ht).
  unfold handle_overrun. apply (wp_while64 (λ u sc', is_word u ∧ ∃ l',
    charged B sc l (λ l, head_time l ≤ MAX_RELEASE_TIME + scPeriod sc) sc' l') (λ u _, u)).
  - clear Hr Hok Hmin. intros u sc' (Hu' & l' & Hr & Hok & Hp & Hd).
    destruct l' as [|h l']; [by destruct Hok|].
    apply wp_bind, wp_bind. eapply wp_refill_head; [done|]. apply wp_ret.
    destruct (Z.leb_spec (rAmount h) u), (Z.ltb_spec (rTime h) MAX_RELEASE_TIME); simpl.
    2-4: by apply wp_ret, (HQ _ _ h l'); auto.
    destruct (list_charge_head_ok _ _ (scRefillMax sc') _ Hok) as [Hok' Hht]; [lia|].
    assert (0 < rAmount h ∧ B ≤ scPeriod sc) as [? ?]
      by (destruct Hok as (_ & _ & (_ & ? & _) & _ & _ & ?); done).
    apply wp_bind. eapply (wp_charge_entire_head_refill _ _ _ (scPeriod sc) B); try done.
    + by apply same_params_period.
    + lia.
    + rewrite max_release_time in *. pose proof max_period_room. unfold UINT64_MAX in *. lia.
    + unfold is_word in *. lia.
    + intros sc2 Hr2 Hp2. apply wp_ret. unfold is_word in *. split_and!; [lia..| |lia|lia].
      eexists; split_and!; [done..|by trans sc'|]. right. simpl in *. lia.
  - split; [done|]. exists l. split_and!; auto. done.
  - unfold is_word in *. lia.
Qed.

Lemma merge_loop_spec B sc l sc' l' Q :
  budget_inv B sc l → charged B sc l (λ l, last_time 0 l ≤ MAX_RELEASE_TIME + 2 * scPeriod sc) sc' l' →
  (∀ sc2 l2, budget_inv B sc2 l2 → same_params sc sc2 → Q () sc2) →
  wp (while64 (λ _ : unit,
    b ← head_refill_insufficient;
    if b : bool then merge_nonoverlapping_head_refill;; mret (inl ()) else mret (inr ())) ()) Q sc'.
Proof.
  intros Hinv Hch HQ. destruct (budget_head_room _ _ _ Hinv) as [HB64 Hroom].
  destruct Hinv as (Hr & Hok & HP & HB & Hmin & Ht).
  apply (wp_while64 (λ _ s, ∃ l',
    charged B sc l (λ l, last_time 0 l ≤ MAX_RELEASE_TIME + 2 * scPeriod sc) s l')
    (λ _ s, refill_size s)); [|by eexists|].
  - clear Hr Hch sc' l'. intros [] s (l' & Hr & Hok' & Hp & Hd).
    destruct l' as [|h l']; [by destruct Hok'|].
    apply wp_bind, wp_bind. eapply wp_refill_head; [done|]. apply wp_ret.
    destruct (Z.ltb_spec (rAmount h) MIN_BUDGET) as [Hlt|Hge].
    + destruct Hd as [<-|Hd]; [specialize (Hmin h eq_refl); lia|].
      destruct l' as [|n l'].
      { destruct Hok' as (_ & _ & _ & _ & Htot & _). simpl in Htot. lia. }
      destruct (list_merge_nonoverlapping_ok _ _ _ _ _ Hok') as [Hok2 Hce].
      assert (head_time (h :: n :: l') ≤ last_time 0 (h :: n :: l') ∧ B ≤ scPeriod sc) as [Hhl HBP].
      { destruct Hok' as (_ & _ & Hc & _ & _ & ?). split; [|done].
        by apply (chain_head_last (rTime h) (h :: n :: l')). }
      pose proof (refills_ok_end _ _ _ 0 Hok') as Hend.
      apply wp_bind. eapply wp_merge_nonoverlapping; [done..| |].
      { rewrite max_release_time in *. pose proof max_period_room. unfold UINT64_MAX in *. lia. }
      intros s2 Hr2 Hp2. apply wp_ret. split.
      { eexists; split_and!; [done..|by trans s|right]. lia. }
      rewrite (refill_size_repr _ _ Hr2), (refill_size_repr _ _ Hr). cbn [length list_merge_nonoverlapping]. lia.
    + apply wp_ret, (HQ _ (h :: l')); [|done].
      unfold budget_inv. rewrite (same_params_period _ _ Hp). split_and!; [done|done|lia..| |].
      * by intros ? [= <-].
      * destruct Hd as [->|Hd]; [done|]. destruct Hok' as (_ & _ & Hc & _).
        pose proof (chain_head_last _ (h :: l') ltac:(done) Hc). simpl in *. lia.
  - destruct Hch as (Hr' & _). rewrite (refill_size_repr _ _ Hr').
    destruct Hr' as (? & _ & _ & ? & _). lia.
Qed.

(** Charging [usage] ticks to a scheduling context returns, and leaves a
    context with the same parameters whose refills again form its budget. *)
Lemma refill_budget_check_spec B sc l usage :
  budget_inv B sc l → is_word usage →
  wp (refill_budget_check usage) (λ _ sc', same_params sc sc' ∧ ∃ l', budget_inv B sc' l') sc.
Proof.
  intros Hinv Hu. pose proof Hinv as (_ & _ & HP & _).
  apply wp_bind, wp_gets, wp_bind, wp_assert.
  { apply negb_true_iff, Z.eqb_neq. lia. }
  apply wp_bind. eapply handle_overrun_spec; [done..|].
  intros u s h l' (Hr & Hok & Hp & Hd) Hu' Hex.
  assert (∀ s l', charged B sc l (λ l, last_time 0 l ≤ MAX_RELEASE_TIME + 2 * scPeriod sc) s l' →
    wp (while64 (λ _ : unit,
      b ← head_refill_insufficient;
      if b : bool then merge_nonoverlapping_head_refill;; mret (inl ()) else mret (inr ())) ())
      (λ _ sc', same_params sc sc' ∧ ∃ l', budget_inv B sc' l') s) as Hfin.
  { intros s2 l2 Hch. eapply merge_loop_spec; [done..|]. eauto. }
  apply wp_bind. eapply wp_refill_head; [done|]. apply wp_bind, wp_when.
  - intros [Hu0%Z.ltb_lt Hrel%Z.ltb_lt]%andb_true_iff.
    assert (u < rAmount h) as Hlt by lia. apply wp_bind, wp_assert; [by apply Z.ltb_lt|].
    pose proof (refills_ok_end _ _ _ 0 Hok) as Hend.
    pose proof Hok as (_ & Hh0 & (_ & Ha & Hc) & Hw & HB & HBP). simpl in *. unfold rEnd in *.
    pose proof (chain_span _ _ Hc). pose proof (chain_total_nonneg _ _ Hc).
    destruct (budget_head_room _ _ _ Hinv) as [HB64 _].
    assert (rTime h + 2 * scPeriod sc < 2 ^ 64).
    { rewrite max_release_time in *. pose proof max_period_room. unfold UINT64_MAX in *. lia. }
    destruct (list_charge_part_ok _ _ (scRefillMax s) u _ _ Hok) as [Hok' Hht]; [lia|].
    apply wp_bind, wp_gets. rewrite (same_params_period _ _ Hp).
    apply wp_bind. eapply wp_store_head; [done|]. intros s1 Hr1 Hp1.
    apply wp_bind. eapply wp_refill_head; [done|].
    apply wp_bind. eapply wp_store_head; [done|]. intros s2 Hr2 Hp2. simpl in *.
    rewrite !wrap_small in Hr2 by (unfold is_word; lia).
    rewrite !wrap_small by (unfold is_word; lia).
    assert (chain_end (rTime h + u + (rAmount h - u)) l' = chain_end (rTime h + rAmount h) l') as Heq
      by (f_equal; lia).
    eapply (wp_schedule_used _ _ _ (rTime h)); [done|lia| |simpl; unfold rEnd; simpl; rewrite ?Heq; lia..|].
    { simpl. unfold rEnd; simpl. split_and!; [lia..|]. eapply chain_le; [|exact Hc]. lia. }
    intros s3 Hr3 Hp3. eapply Hfin. split_and!.
    + rewrite (same_params_max _ _ Hp2), (same_params_max _ _ Hp1) in Hr3. exact Hr3.
    + exact Hok'.
    + trans s; [done|]. trans s1; [done|]. by trans s2.
    + right. destruct Hok' as (_ & _ & _ & ? & _). simpl in *. lia.
  - intros _. eapply (Hfin _ (h :: l')). split_and!; [done..|].
    destruct Hd as [->|Hd]; [by left|right]. destruct Hok as (_ & _ & _ & ? & _). simpl in *. lia.
Qed.

Lemma wp_refill_sufficient_0 sc h l Q :
  refills_repr sc (h :: l) → MIN_BUDGET ≤ rAmount h < 2 ^ 64 → Q true sc →
  wp (refill_sufficient 0) Q sc.
Proof.
  intros Hr Ha HQ. pose proof min_budget_pos.
  apply wp_bind, wp_bind. eapply wp_refill_head; [done|]. apply wp_ret, wp_ret.
  rewrite (proj2 (Z.ltb_ge _ _)) by lia. rewrite wrap_small by (unfold is_word; lia).
  by rewrite (proj2 (Z.leb_le _ _)) by lia.
Qed.

(** The loop of [refill_unblock_check]: the head, moved to the present,
    absorbs the refills it overlaps. *)
Lemma unblock_loop_spec B now sc l Q :
  refills_repr sc l → late_ok (scPeriod sc) B l → B < 2 ^ 64 → now + B < 2 ^ 64 →
  (∀ h, head l = Some h → rTime h = now ∧ MIN_BUDGET ≤ rAmount h) →
  (∀ sc' h l', refills_repr sc' (h :: l') → refills_ok (scPeriod sc) B (h :: l') → same_params sc sc' →
     rTime h = now → MIN_BUDGET ≤ rAmount h → Q () sc') →
  wp (while64 (λ _ : unit,
      b ← refill_head_overlapping;
      if b : bool then merge_overlapping_head_refill;; mret (inl ()) else mret (inr ())) ()) Q sc.
Proof.
  intros Hr Hlate HB64 Hroom Hhead HQ.
  apply (wp_while64 (λ _ s, ∃ l', refills_repr s l' ∧ late_ok (scPeriod sc) B l' ∧ same_params sc s ∧
    (∀ h, head l' = Some h → rTime h = now ∧ MIN_BUDGET ≤ rAmount h)) (λ _ s, refill_size s)).
  - clear Hr Hlate Hhead l. intros [] s (l & Hr & Hlate & Hp & Hhead).
    destruct l as [|h l]; [done|]. destruct (Hhead h eq_refl) as [Hnow Hmin].
    pose proof Hlate as (H0' & Ha & (t & Hc) & Hw & HB & HP). pose proof (chain_total_nonneg _ _ Hc) as Hnn.
    simpl in HB. apply wp_bind, wp_bind, wp_gets. rewrite (refill_single_repr _ _ Hr).
    destruct l as [|n l]; cbn [length].
    { change (negb (Z.of_nat 1 =? 1)) with false. cbv iota.
      apply wp_ret, wp_ret, (HQ _ h []); [done|by apply late_ok_done|done..]. }
    rewrite (proj2 (Z.eqb_neq _ _)) by lia. cbn [negb]. apply wp_bind.
    eapply wp_refill_head; [done|]. apply wp_bind.
    eapply (wp_refill_index _ _ 1); [done..| |].
    { destruct Hr as (? & _ & ? & _). by rewrite refill_next_mod by lia. }
    rewrite wrap_small by (unfold is_word; lia). apply wp_ret.
    destruct (Z.leb_spec (rTime n) (rTime h + rAmount h)) as [Hle|Hgt].
    + apply wp_bind. eapply wp_merge_overlapping; [done..|]. intros s2 Hr2 Hp2. apply wp_ret. split.
      * eexists; split_and!; [done|by apply late_ok_merge|by trans s|].
        intros ? [= <-]; simpl in *. destruct Hc as (_ & ? & _). lia.
      * rewrite (refill_size_repr _ _ Hr2), (refill_size_repr _ _ Hr).
        cbn [length list_merge_overlapping]. lia.
    + apply wp_ret, (HQ _ h (n :: l)); [done|by apply late_ok_done|done..].
  - by exists l.
  - rewrite (refill_size_repr _ _ Hr). destruct Hr as (? & _ & _ & ? & _). lia.
Qed.

Lemma refill_unblock_check_spec B sc l now :
  budget_inv B sc l → 0 ≤ now ≤ MAX_RELEASE_TIME →
  wp (refill_unblock_check_sc now) (λ reprogram sc', same_params sc sc' ∧ ∃ l', budget_inv B sc' l' ∧
    (if reprogram : bool then head_time l ≤ now ∧ head_time l' = now
     else now < head_time l ∧ l' = l ∧ sc' = sc)) sc.
Proof.
  intros Hinv Hnow. destruct (budget_head_room _ _ _ Hinv) as [HB64 _].
  pose proof Hinv as (Hr & Hok & HP & HB & Hmin & Ht).
  apply wp_bind, wp_gets. unfold isRoundRobin. rewrite (proj2 (Z.eqb_neq _ _)) by lia.
  destruct l as [|h l]; [by destruct Hok|]. specialize (Hmin h eq_refl).
  assert (B ≤ scPeriod sc) by (destruct Hok as (_ & _ & _ & _ & _ & ?); done).
  apply wp_bind, wp_bind. eapply wp_refill_head; [done|]. apply wp_ret.
  destruct (Z.leb_spec (rTime h) now) as [Hle|Hgt]; [|].
  2: { apply wp_ret. split; [done|]. exists (h :: l). by split_and!. }
  apply wp_bind. eapply wp_refill_head; [done|]. apply wp_bind. eapply wp_store_head; [done|].
  intros s1 Hr1 Hp1. rewrite <-(same_params_period _ _ Hp1) in *. apply wp_bind.
  eapply (unblock_loop_spec B now); [done|by apply refills_ok_late|done| | |].
  { rewrite max_release_time in *. pose proof max_period_room. unfold UINT64_MAX in *. lia. }
  { by intros ? [= <-]. }
  intros s2 h2 l2 Hr2 Hok2 Hp2 Hnow2 Hmin2. apply wp_bind. eapply wp_refill_sufficient_0; [done| |].
  { pose proof Hok2 as (_ & _ & (_ & _ & Hc) & _ & Htot & _). pose proof (chain_total_nonneg _ _ Hc).
    simpl in Htot. lia. }
  apply wp_bind, wp_assert; [done|]. apply wp_ret. split; [by trans s1|].
  exists (h2 :: l2). split; [|done]. unfold budget_inv. rewrite (same_params_period _ _ Hp2).
  split_and!; [done|done|lia..| |simpl; lia]. by intros ? [= <-].
Qed.

(** A freshly configured context has one refill, released now. *)
Lemma refill_new_spec sc now max_refills budget period :
  0 < max_refills < 2 ^ 64 → max_refills ≤ Z.of_nat (length (scRefills sc)) →
  MIN_BUDGET ≤ budget ≤ period → 0 < period ≤ MAXP → 0 ≤ now ≤ MAX_RELEASE_TIME →
  wp (refill_new now max_refills budget period)
    (λ _ sc', scPeriod sc' = period ∧ scRefillMax sc' = max_refills ∧
       budget_inv budget sc' [Refill now budget]) sc.
Proof.
  intros Hm Hlen HB HP Hnow. pose proof min_budget_pos.
  do 4 (apply wp_bind, wp_modify). apply wp_bind, wp_assert; [apply Z.leb_le; lia|].
  destruct (scRefills sc) as [|r0 rs] eqn:Hrs; [simpl in Hlen; lia|].
  match goal with |- wp _ _ ?s => assert (refills_repr s [r0]) as Hr end.
  { unfold refills_repr; simpl. rewrite Hrs. split_and!; try (simpl in *; lia).
    - rewrite Z.mod_0_l; lia.
    - by intros [|i] r [= <-]. }
  apply wp_bind. eapply wp_refill_head; [done|]. apply wp_bind. eapply wp_store_head; [done|].
  intros s1 Hr1 Hp1. apply wp_bind. eapply wp_refill_head; [done|]. apply wp_bind.
  eapply wp_store_head; [done|]. intros s2 Hr2 Hp2.
  pose proof (same_params_period _ _ Hp1) as Hper. pose proof (same_params_max _ _ Hp1) as Hmax.
  pose proof (same_params_period _ _ Hp2). pose proof (same_params_max _ _ Hp2). simpl in *.
  apply wp_bind, wp_gets. unfold isRoundRobin. rewrite (proj2 (Z.eqb_neq _ _)) by lia.
  apply wp_ret. split_and!; [lia..|]. unfold budget_inv.
  split_and!; [done| |lia..| |simpl; lia].
  - eapply (refills_ok_intro _ _ _ now); simpl; [done|lia|split_and!; [lia|lia|done]|lia|lia|by left].
  - intros ? [= <-]; simpl; lia.
Qed.

(** Changing the parameters of a context keeps the head's ticks and schedules
    what the new budget adds one new period later. *)
Lemma refill_update_spec B sc h l now period budget max_refills :
  budget_inv B sc (h :: l) → MIN_REFILLS ≤ max_refills < 2 ^ 64 →
  max_refills ≤ Z.of_nat (length (scRefills sc)) →
  MIN_BUDGET ≤ budget ≤ period → 0 < period ≤ MAXP → 0 ≤ now ≤ MAX_RELEASE_TIME →
  rTime h ≤ MAX_RELEASE_TIME + 2 * period →
  wp (refill_update now period budget max_refills)
    (λ _ sc', scPeriod sc' = period ∧ scRefillMax sc' = max_refills ∧
       budget_inv budget sc' (list_update now period budget h)) sc.
Proof.
  intros (Hr & Hok & HP0 & HB0 & Hmin & _) Hm Hlen HB HP Hnow Hht. unfold MIN_REFILLS in *.
  specialize (Hmin h eq_refl). pose proof min_budget_pos.
  assert (0 ≤ rTime h) as Hh0 by (destruct Hok as (_ & ? & _); done).
  pose proof (list_update_ok now period budget h) as Hlok.
  apply wp_bind, wp_gets, wp_bind, wp_assert; [destruct Hr as (? & _); apply Z.ltb_lt; lia|].
  apply wp_bind. eapply wp_refill_head; [done|].
  destruct (scRefills sc) as [|r0 rs] eqn:Hrs; [simpl in Hlen; lia|].
  apply wp_bind, wp_bind. unfold refill_index at 1. apply wp_bind, wp_gets. rewrite Hrs. simpl.
  unfold wp at 1, deref, lookup, list_lookup. apply wp_modify. do 4 (apply wp_bind, wp_modify).
  match goal with |- wp _ _ ?s => assert (refills_repr s [h]) as Hr1 end.
  { unfold refills_repr; simpl. rewrite Hrs. split_and!; try (simpl in *; lia).
    - rewrite Z.mod_0_l; lia.
    - by intros [|i] r [= <-]. }
  match goal with |- wp _ _ ?s => assert (scPeriod s = period ∧ scRefillMax s = max_refills) as [Hpe Hmx] by done;
    generalize dependent s end.
  intros s Hr1 Hpe Hmx. apply wp_bind, wp_bind. eapply wp_refill_head; [done|]. apply wp_ret.
  set (t := if rTime h <=? now then now else rTime h).
  assert (0 ≤ t ∧ t + period + budget < 2 ^ 64 ∧ t ≤ MAX_RELEASE_TIME + 2 * period) as (Ht0 & Ht64 & Htb).
  { unfold t. rewrite max_release_time in *. pose proof max_period_room. unfold UINT64_MAX in *.
    destruct (rTime h <=? now); lia. }
  assert (∀ s2 l2, refills_repr s2 l2 → same_params s s2 → list_update now period budget h = l2 →
    scPeriod s2 = period ∧ scRefillMax s2 = max_refills ∧
    budget_inv budget s2 (list_update now period budget h)) as Hfin.
  { intros s2 l2 Hr2 Hp2 <-. rewrite (same_params_period _ _ Hp2), (same_params_max _ _ Hp2).
    split_and!; [done..|]. unfold budget_inv. rewrite (same_params_period _ _ Hp2), Hpe.
    split_and!; [done|apply Hlok; lia|lia..| |].
    - unfold list_update. fold t. destruct (Z.leb_spec budget (rAmount h)); intros ? [= <-]; simpl; lia.
    - unfold list_update. fold t. destruct (Z.leb_spec budget (rAmount h)); simpl; lia. }
  apply wp_bind.
  apply (wp_mono _ (λ _ s2, refills_repr s2 [Refill t (rAmount h)] ∧ same_params s s2)).
  { apply wp_when; intros Hb; unfold t; rewrite Hb.
    - apply wp_bind. eapply wp_refill_head; [done|]. eapply wp_store_head; [done|]. auto.
    - destruct h; simpl; done. }
  intros [] s2 [Hr2 Hp2]. apply wp_bind. eapply wp_refill_head; [done|].
  unfold list_update in Hfin |- *. fold t in Hfin |- *. simpl.
  destruct (Z.leb_spec budget (rAmount h)) as [Hle|Hgt].
  - apply wp_bind. eapply wp_store_head; [done|]. intros s3 Hr3 Hp3.
    apply wp_bind, wp_gets. unfold isRoundRobin.
    rewrite (same_params_period _ _ Hp3), (same_params_period _ _ Hp2), Hpe.
    rewrite (proj2 (Z.eqb_neq _ _)) by lia. apply wp_ret.
    eapply (Hfin s3 [_]); [done|by trans s2|done].
  - rewrite !wrap_small by (unfold is_word; lia).
    eapply wp_refill_add_tail; [done| |].
    { rewrite (same_params_max _ _ Hp2), Hmx. simpl. lia. }
    intros s3 Hr3 Hp3.
    eapply Hfin; [exact Hr3|by trans s2|done].
Qed.
End accounting.

(** ** The properties of the budget accounting *)
Section properties.
Context `{PlatformOk}.

(** C12: Charging any number of used ticks to a scheduling context that is not
    round robin returns without a failed assertion; the context keeps its
    parameters, its refills again sum to the budget, are ordered, disjoint and
    released within one period, and its head refill holds at least MIN_BUDGET. *)
Theorem refill_budget_check_ok B sc l usage :
  budget_inv B sc l → is_word usage →
  ∃ sc' l', refill_budget_check usage sc = Done () sc' ∧ same_params sc sc' ∧ budget_inv B sc' l'.
Proof.
  intros Hinv Hu. pose proof (refill_budget_check_spec B sc l usage Hinv Hu) as Hwp.
  apply wp_done in Hwp as ([] & sc' & Heq & Hp & l' & Hl'). eauto.
Qed.

(** Waking a scheduling context up returns: if its head refill is already
    released, the refills it overlaps are merged into it and it starts now,
    otherwise nothing changes; the budget invariant holds either way. *)
Theorem refill_unblock_check_ok B sc l now :
  budget_inv B sc l → 0 ≤ now ≤ MAX_RELEASE_TIME →
  ∃ reprogram sc' l', refill_unblock_check_sc now sc = Done reprogram sc' ∧ same_params sc sc' ∧
    budget_inv B sc' l' ∧
    (if reprogram : bool then head_time l ≤ now ∧ head_time l' = now
     else now < head_time l ∧ sc' = sc).
Proof.
  intros Hinv Hn. pose proof (refill_unblock_check_spec B sc l now Hinv Hn) as Hwp.
  apply wp_done in Hwp as (b & sc' & Heq & Hp & l' & Hl' & Hb).
  exists b, sc', l'. split_and!; [done..|]. destruct b; [done|by destruct Hb as (? & _ & ?)].
Qed.

(** Configuring an unused context gives it the one refill of the whole
    budget at the current time, and establishes the budget invariant. *)
Theorem refill_new_ok sc now max_refills budget period :
  0 < max_refills < 2 ^ 64 → max_refills ≤ Z.of_nat (length (scRefills sc)) →
  MIN_BUDGET ≤ budget ≤ period → 0 < period ≤ usToTicks MAX_PERIOD_US →
  0 ≤ now ≤ MAX_RELEASE_TIME →
  ∃ sc', refill_new now max_refills budget period sc = Done () sc' ∧
    scPeriod sc' = period ∧ scRefillMax sc' = max_refills ∧
    budget_inv budget sc' [Refill now budget].
Proof.
  intros. pose proof (refill_new_spec sc now max_refills budget period) as Hwp.
  destruct (proj1 (wp_done _ _ _) (Hwp ltac:(done) ltac:(done) ltac:(done) ltac:(done) ltac:(done)))
    as ([] & sc' & Heq & HQ). eauto.
Qed.

(** Reconfiguring a used context establishes the budget invariant for the
    new period and budget: the ticks the head still offers stay available and
    the rest of the new budget is scheduled one new period later. *)
Theorem refill_update_ok B sc h l now period budget max_refills :
  budget_inv B sc (h :: l) → MIN_REFILLS ≤ max_refills < 2 ^ 64 →
  max_refills ≤ Z.of_nat (length (scRefills sc)) →
  MIN_BUDGET ≤ budget ≤ period → 0 < period ≤ usToTicks MAX_PERIOD_US →
  0 ≤ now ≤ MAX_RELEASE_TIME → rTime h ≤ MAX_RELEASE_TIME + 2 * period →
  ∃ sc', refill_update now period budget max_refills sc = Done () sc' ∧
    scPeriod sc' = period ∧ scRefillMax sc' = max_refills ∧
    budget_inv budget sc' (list_update now period budget h).
Proof.
  intros Hinv ??????. pose proof (refill_update_spec B sc h l now period budget max_refills Hinv) as Hwp.
  destruct (proj1 (wp_done _ _ _)
    (Hwp ltac:(done) ltac:(done) ltac:(done) ltac:(done) ltac:(done) ltac:(done)))
    as ([] & sc' & Heq & HQ). eauto.
Qed.
End properties.

(** The circular buffer implements a queue: popping the head removes the
    first refill and returns it, and adding a tail to a buffer that is not full
    appends, wherever the head and tail indices are in the array. *)
Theorem refill_buffer_queue sc h n l r :
  refills_repr sc (h :: n :: l) → Z.of_nat (length (h :: n :: l)) < scRefillMax sc →
  (∃ sc1, refill_pop_head sc = Done h sc1 ∧ refills_repr sc1 (n :: l)) ∧
  (∃ sc2, refill_add_tail r sc = Done () sc2 ∧ refills_repr sc2 ((h :: n :: l) ++ [r])) ∧
  refill_size sc = Z.of_nat (length (h :: n :: l)).
Proof.
  intros Hr Hlt. split_and!; [..|by apply refill_size_repr].
  - destruct (proj1 (wp_done refill_pop_head (λ a sc', a = h ∧ refills_repr sc' (n :: l)) sc)) as (? & sc1 & ? & <- & ?).
    { by eapply wp_refill_pop_head; eauto. } eauto.
  - destruct (proj1 (wp_done (refill_add_tail r) (λ _ sc', refills_repr sc' ((h :: n :: l) ++ [r])) sc))
      as ([] & sc2 & ? & ?). { by eapply wp_refill_add_tail; eauto. } eauto.
Qed.

(** ** A concrete platform and scheduling context: a 10 MHz timer, 1000 ticks
    every 5000, of which 600 are left and 400 come back at 7000. *)
#[local] Instance example_platform : Platform := {
  TIMER_CLOCK_HZ := 10000000; PLIC_MAX_IRQ := 10;
  CONFIG_KERNEL_WCET_SCALE := 1; CONFIG_KERNEL_STATIC_MAX_PERIOD_US := 1000000;
  numDomains := 1; CONFIG_NUM_DOMAIN_SCHEDULES := 2;
  CONFIG_MAX_NUM_WORK_UNITS_PER_PREEMPTION := 100;
  CONFIG_RETYPE_FAN_OUT_LIMIT := 256; CONFIG_RESET_CHUNK_BITS := 8;
  CONFIG_FIRST_HART_ID := 0; PLIC_FIRST_HART_M_ONLY := false; PLIC_PPTR := 0xFFFFFFFFC0000000;
  physBase := 0x84000000; KERNEL_ELF_TOP := 0xFFFFFFFF84040000;
  kernel_root_pageTable := 0xFFFFFFFF84020000; intStateIRQNode := 0x10000
}.

#[local] Instance example_platform_ok : PlatformOk.
Proof. by split; vm_compute. Qed.

Definition example_sc : sched_context :=
  SchedContext 5000 0 0 4096 0 0 0 0 4 3 0 false
    [Refill 7000 400; Refill 0 0; Refill 0 0; Refill 3000 600].
Definition example_refills : list refill := [Refill 3000 600; Refill 7000 400].

Lemma example_repr : refills_repr example_sc example_refills.
Proof.
  unfold refills_repr. split_and!; try (vm_compute; congruence).
  intros [|[|i]] r Hi; simplify_eq/=; done.
Qed.

Lemma example_budget_inv : budget_inv 1000 example_sc example_refills.
Proof.
  unfold budget_inv. split_and!; try (vm_compute; congruence); [apply example_repr|..].
  - unfold refills_ok, rEnd; simpl; unfold rEnd; simpl. split_and!; done || lia.
  - by intros ? [= <-].
Qed.

Lemma refill_budget_check_witness : ∃ sc' l',
  refill_budget_check 700 example_sc = Done () sc' ∧ same_params example_sc sc' ∧ budget_inv 1000 sc' l'.
Proof. apply (refill_budget_check_ok 1000 example_sc example_refills 700 example_budget_inv). by vm_compute. Defined.

Lemma refill_unblock_check_witness : ∃ reprogram sc' l',
  refill_unblock_check_sc 6500 example_sc = Done reprogram sc' ∧ same_params example_sc sc' ∧
  budget_inv 1000 sc' l' ∧
  (if reprogram : bool then head_time example_refills ≤ 6500 ∧ head_time l' = 6500
   else 6500 < head_time example_refills ∧ sc' = example_sc).
Proof.
  apply (refill_unblock_check_ok 1000 example_sc example_refills 6500 example_budget_inv).
  split; vm_compute; congruence.
Defined.

Lemma refill_new_witness : ∃ sc', refill_new 9000 3 2000 8000 example_sc = Done () sc' ∧
  scPeriod sc' = 8000 ∧ scRefillMax sc' = 3 ∧ budget_inv 2000 sc' [Refill 9000 2000].
Proof. apply refill_new_ok; split || idtac; vm_compute; congruence. Defined.

Lemma refill_update_witness : ∃ sc', refill_update 9000 8000 2000 3 example_sc = Done () sc' ∧
  scPeriod sc' = 8000 ∧ scRefillMax sc' = 3 ∧
  budget_inv 2000 sc' (list_update 9000 8000 2000 (Refill 3000 600)).
Proof.
  apply (refill_update_ok 1000 example_sc _ _ _ _ _ _ example_budget_inv); split || idtac; vm_compute; congruence.
Defined.

Lemma refill_buffer_queue_witness :
  (∃ sc1, refill_pop_head example_sc = Done (Refill 3000 600) sc1 ∧ refills_repr sc1 [Refill 7000 400]) ∧
  (∃ sc2, refill_add_tail (Refill 9000 1) example_sc = Done () sc2 ∧
     refills_repr sc2 (example_refills ++ [Refill 9000 1])) ∧
  refill_size example_sc = 2.
Proof. apply (refill_buffer_queue _ _ _ _ _ example_repr). by vm_compute. Defined.
