(* ===== verification/DList.v ===== *)
(** * Doubly linked lists in the heap

    [dlist lk l q]: the queue [q] holds the threads [l], in this order, where
    [lk] gives the previous and next pointer of a thread. The lemmas here are
    independent of which of the two pairs of pointers of a thread is meant. *)
From S2P Require Import Prelude Words Platform State.

Definition links : Type := Z → option (Z * Z).

Definition first (n : Z) (l : list Z) : Z := match l with [] => n | x :: _ => x end.
Fixpoint final (p : Z) (l : list Z) : Z := match l with [] => p | x :: l' => final x l' end.

(** The segment [l], entered from [p] and left to [n]. *)
Fixpoint dseg (lk : links) (p : Z) (l : list Z) (n : Z) : Prop :=
  match l with
  | [] => True
  | x :: l' => x ≠ NULL ∧ lk x = Some (p, first n l') ∧ dseg lk x l' n
  end.

Definition dlist (lk : links) (l : list Z) (q : tcb_queue) : Prop :=
  NoDup l ∧ dseg lk NULL l NULL ∧ q_head q = first NULL l ∧ q_end q = final NULL l.

Section lemmas.
Implicit Types (lk : links) (l : list Z).

Lemma first_app n l1 l2 : first n (l1 ++ l2) = first (first n l2) l1.
Proof. by destruct l1. Qed.
Lemma final_app p l1 l2 : final p (l1 ++ l2) = final (final p l1) l2.
Proof. revert p. induction l1; intros p; simpl; auto. Qed.
Lemma final_snoc p l x : final p (l ++ [x]) = x.
Proof. by rewrite final_app. Qed.

Lemma final_in x l : final x l ∈ x :: l.
Proof. revert x. induction l as [|y l IH]; intros x; simpl; [by left|by right]. Qed.

Lemma dseg_app lk p l1 l2 n :
  dseg lk p (l1 ++ l2) n ↔ dseg lk p l1 (first n l2) ∧ dseg lk (final p l1) l2 n.
Proof.
  revert p. induction l1 as [|x l1 IH]; intros p; simpl; [tauto|].
  rewrite IH, first_app. tauto.
Qed.

Lemma dseg_frame lk lk' p l n :
  (∀ x, x ∈ l → lk' x = lk x) → dseg lk p l n → dseg lk' p l n.
Proof.
  revert p. induction l as [|x l IH]; intros p Hf; simpl; [done|].
  intros (? & ? & ?). split_and!; [done| |].
  - rewrite Hf by set_solver. done.
  - apply IH; [set_solver|done].
Qed.

Lemma dlist_frame lk lk' l q : (∀ x, x ∈ l → lk' x = lk x) → dlist lk l q → dlist lk' l q.
Proof. intros Hf (? & ? & ? & ?). split_and!; [done|by eapply dseg_frame|done..]. Qed.

Lemma dseg_nonnull lk p l n x : dseg lk p l n → x ∈ l → x ≠ NULL.
Proof.
  revert p. induction l as [|y l IH]; intros p; simpl; [set_solver|].
  intros (? & ? & ?) [->|]%elem_of_cons; eauto.
Qed.

Lemma dseg_some lk p l n x : dseg lk p l n → x ∈ l → is_Some (lk x).
Proof.
  revert p. induction l as [|y l IH]; intros p; simpl; [set_solver|].
  intros (? & ? & ?) [->|]%elem_of_cons; eauto.
Qed.

Lemma dseg_middle lk p l1 x l2 n :
  dseg lk p (l1 ++ x :: l2) n → lk x = Some (final p l1, first n l2).
Proof. rewrite dseg_app. simpl. tauto. Qed.

(** The last, or first, node of a segment is redirected. *)
Lemma dseg_set_next lk lk' p l b n n' q :
  dseg lk p (l ++ [b]) n → (∀ x, x ∈ l → lk' x = lk x) →
  lk b = Some (q, n) → lk' b = Some (q, n') → dseg lk' p (l ++ [b]) n'.
Proof.
  rewrite !dseg_app. simpl. intros (Hl & Hb & Hlk & _) Hf Hb1 Hb2.
  rewrite Hb1 in Hlk. injection Hlk as ->. split_and!; [|done..]. by eapply dseg_frame.
Qed.
Lemma dseg_set_prev lk lk' p p' a l n r :
  dseg lk p (a :: l) n → (∀ x, x ∈ l → lk' x = lk x) →
  lk a = Some (p, r) → lk' a = Some (p', r) → dseg lk' p' (a :: l) n.
Proof.
  simpl. intros (? & Hlk & Hl) Hf Ha1 Ha2. rewrite Ha1 in Hlk. injection Hlk as ->.
  split_and!; [done..|]. by eapply dseg_frame.
Qed.

Lemma dlist_empty lk l q : dlist lk l q → (q_head q =? NULL) = bool_decide (l = []).
Proof.
  intros (_ & Hs & -> & _). destruct l as [|x l]; [done|].
  destruct Hs as (Hx & _). cbn [first]. rewrite bool_decide_eq_false_2 by done. by apply Z.eqb_neq.
Qed.

Lemma dlist_nil lk : dlist lk [] (TcbQueue NULL NULL).
Proof. split_and!; [constructor|done..]. Qed.
End lemmas.
