(* ===== verification/Queues.v ===== *)
(** * Thread queues

    The doubly linked thread queues of [kernel/include/object/tcb.h] and
    [kernel/object/tcb.c]: scheduler queues (ready and release, through
    [tcbSchedNext]/[tcbSchedPrev]), endpoint queues (through
    [tcbEPNext]/[tcbEPPrev]), and the two-level bitmap of non-empty ready
    queues of [kernel/include/kernel/thread.h]. *)
From S2P Require Import Prelude Words Platform State Machine RefillList Sporadic.

Definition CONFIG_NUM_PRIORITIES : Z := 256.
Definition L2_BITMAP_SIZE : Z := (CONFIG_NUM_PRIORITIES + wordBits - 1) / wordBits.

(** ** Scheduler queues *)
Definition tcb_queue_empty (queue : tcb_queue) : bool := q_head queue =? NULL.

Definition tcb_queue_prepend (queue : tcb_queue) (tcb : Z) : K tcb_queue :=
  queue ← (if tcb_queue_empty queue then mret (set_q_end tcb queue)
           else mod_tcb tcb (set_tcbSchedNext (q_head queue));;
                mod_tcb (q_head queue) (set_tcbSchedPrev tcb);;
                mret queue);
  mret (set_q_head tcb queue).

Definition tcb_queue_append (queue : tcb_queue) (tcb : Z) : K tcb_queue :=
  queue ← (if tcb_queue_empty queue then mret (set_q_head tcb queue)
           else mod_tcb tcb (set_tcbSchedPrev (q_end queue));;
                mod_tcb (q_end queue) (set_tcbSchedNext tcb);;
                mret queue);
  mret (set_q_end tcb queue).

Definition tcb_queue_insert (tcb after : Z) : K unit :=
  a ← get_tcb after;
  let before := tcbSchedPrev a in
  assert! (negb (before =? NULL));;
  assert! (negb (before =? after));;
  mod_tcb tcb (set_tcbSchedPrev before);;
  mod_tcb tcb (set_tcbSchedNext after);;
  mod_tcb after (set_tcbSchedPrev tcb);;
  mod_tcb before (set_tcbSchedNext tcb).

Definition tcb_queue_remove (queue : tcb_queue) (tcb : Z) : K tcb_queue :=
  t ← get_tcb tcb;
  let before := tcbSchedPrev t in
  let after := tcbSchedNext t in
  if (q_head queue =? tcb) && (q_end queue =? tcb) then
    mret (TcbQueue NULL NULL)
  else if q_head queue =? tcb then
    mod_tcb after (set_tcbSchedPrev NULL);;
    mod_tcb tcb (set_tcbSchedNext NULL);;
    mret (set_q_head after queue)
  else if q_end queue =? tcb then
    mod_tcb before (set_tcbSchedNext NULL);;
    mod_tcb tcb (set_tcbSchedPrev NULL);;
    mret (set_q_end before queue)
  else
    mod_tcb before (set_tcbSchedNext after);;
    mod_tcb after (set_tcbSchedPrev before);;
    mod_tcb tcb (set_tcbSchedPrev NULL);;
    mod_tcb tcb (set_tcbSchedNext NULL);;
    mret queue.

(** ** Endpoint queues, ordered by priority *)
Definition tcbEPAppend_find (tcb : Z) : Z → Z → K (Z * Z) := λ before after,
  while64 (λ '(before, after),
    if before =? NULL then mret (inr (before, after)) else
    t ← get_tcb tcb; b ← get_tcb before;
    if tcbPriority b <? tcbPriority t then mret (inl (tcbEPPrev b, before))
    else mret (inr (before, after))) (before, after).

Definition tcbEPAppend (tcb : Z) (queue : tcb_queue) : K tcb_queue :=
  r ← tcbEPAppend_find tcb (q_end queue) NULL;
  let '(before, after) := r in
  queue ← (if before =? NULL then mret (set_q_head tcb queue)
           else mod_tcb before (set_tcbEPNext tcb);; mret queue);
  queue ← (if after =? NULL then mret (set_q_end tcb queue)
           else mod_tcb after (set_tcbEPPrev tcb);; mret queue);
  mod_tcb tcb (set_tcbEPNext after);;
  mod_tcb tcb (set_tcbEPPrev before);;
  mret queue.

Definition tcbEPDequeue (tcb : Z) (queue : tcb_queue) : K tcb_queue :=
  t ← get_tcb tcb;
  queue ← (if negb (tcbEPPrev t =? NULL) then
             mod_tcb (tcbEPPrev t) (set_tcbEPNext (tcbEPNext t));; mret queue
           else mret (set_q_head (tcbEPNext t) queue));
  t ← get_tcb tcb;
  if negb (tcbEPNext t =? NULL) then
    mod_tcb (tcbEPNext t) (set_tcbEPPrev (tcbEPPrev t));; mret queue
  else mret (set_q_end (tcbEPPrev t) queue).

(** ** The bitmap of non-empty ready queues *)
Definition prio_to_l1index (prio : Z) : Z := Z.shiftr prio wordRadix.
Definition l1index_to_prio (l1index : Z) : Z := l1index <<w wordRadix.

Definition invert_l1index (l1index : Z) : K Z :=
  let inverted := L2_BITMAP_SIZE -w 1 -w l1index in
  assert! (inverted <? L2_BITMAP_SIZE);;
  mret inverted.

Section bitmap.
Context `{Platform}.

Definition ready_queues_index (dom prio : Z) : K Z :=
  if 1 <? numDomains then mret (wrap (dom * CONFIG_NUM_PRIORITIES) +w prio)
  else assert! (dom =? 0);; mret prio.

Definition get_ready_queue (idx : Z) : K tcb_queue :=
  s ← get_state; deref (ksReadyQueues s !! Z.to_nat idx).
Definition set_ready_queue (idx : Z) (q : tcb_queue) : K unit :=
  _ ← get_ready_queue idx;
  modify (λ s, set_ksReadyQueues (<[Z.to_nat idx := q]> (ksReadyQueues s)) s).

Definition get_l1 (dom : Z) : K Z :=
  s ← get_state; deref (ksReadyQueuesL1Bitmap s !! Z.to_nat dom).
Definition set_l1 (dom w : Z) : K unit :=
  _ ← get_l1 dom;
  modify (λ s, set_ksReadyQueuesL1Bitmap (<[Z.to_nat dom := w]> (ksReadyQueuesL1Bitmap s)) s).
Definition get_l2 (dom i : Z) : K Z :=
  s ← get_state; r ← deref (ksReadyQueuesL2Bitmap s !! Z.to_nat dom); deref (r !! Z.to_nat i).
Definition set_l2 (dom i w : Z) : K unit :=
  _ ← get_l2 dom i;
  modify (λ s, set_ksReadyQueuesL2Bitmap
    (alter (λ r, <[Z.to_nat i := w]> r) (Z.to_nat dom) (ksReadyQueuesL2Bitmap s)) s).

Definition addToBitmap (dom prio : Z) : K unit :=
  let l1index := prio_to_l1index prio in
  l1index_inverted ← invert_l1index l1index;
  w ← get_l1 dom; set_l1 dom (Z.lor w (BIT l1index));;
  w ← get_l2 dom l1index_inverted;
  set_l2 dom l1index_inverted (Z.lor w (BIT (Z.land prio (MASK wordRadix)))).

Definition removeFromBitmap (dom prio : Z) : K unit :=
  let l1index := prio_to_l1index prio in
  l1index_inverted ← invert_l1index l1index;
  w ← get_l2 dom l1index_inverted;
  set_l2 dom l1index_inverted (Z.land w (wnot (BIT (Z.land prio (MASK wordRadix)))));;
  w ← get_l2 dom l1index_inverted;
  when (w =? 0) (w ← get_l1 dom; set_l1 dom (Z.land w (wnot (BIT l1index)))).

Definition getHighestPrio (dom : Z) : K Z :=
  w ← get_l1 dom;
  assert! (negb (w =? 0));;
  let l1index := wordBits -w 1 -w clzl w in
  l1index_inverted ← invert_l1index l1index;
  w2 ← get_l2 dom l1index_inverted;
  assert! (negb (w2 =? 0));;
  let l2index := wordBits -w 1 -w clzl w2 in
  mret (Z.lor (l1index_to_prio l1index) l2index).

Definition isHighestPrio (dom prio : Z) : K bool :=
  w ← get_l1 dom;
  if w =? 0 then mret true else
  h ← getHighestPrio dom; mret (h <=? prio).

(** ** Refills of the scheduling context at [sc] *)
Definition sc_refill_ready (sc : Z) : K bool :=
  now ← gets ksCurTime; on_sc sc (refill_ready now).
Definition sc_refill_sufficient (sc usage : Z) : K bool := on_sc sc (refill_sufficient usage).

(** ** Thread predicates *)
Definition isRunnable (t : tcb) : bool :=
  match tsType (tcbState t) with
  | ThreadState_Running | ThreadState_Restart => true
  | _ => false
  end.
Definition isBlocked (t : tcb) : bool :=
  match tsType (tcbState t) with
  | ThreadState_BlockedOnReceive | ThreadState_BlockedOnSend
  | ThreadState_BlockedOnNotification | ThreadState_BlockedOnReply => true
  | _ => false
  end.
Definition isStopped (t : tcb) : bool :=
  match tsType (tcbState t) with
  | ThreadState_Inactive | ThreadState_BlockedOnReceive | ThreadState_BlockedOnSend
  | ThreadState_BlockedOnNotification | ThreadState_BlockedOnReply => true
  | _ => false
  end.
Definition isSchedulable (thread : Z) : K bool :=
  t ← get_tcb thread;
  if isRunnable t && negb (tcbSchedContext t =? NULL) then
    sc ← get_sc (tcbSchedContext t);
    mret (sc_active sc && negb (tcbInReleaseQueue (tcbState t)))
  else mret false.

(** ** Ready queues *)
Definition tcbSchedEnqueue (tcb : Z) : K unit :=
  b ← isSchedulable tcb; assert! b;;
  t ← get_tcb tcb;
  b ← sc_refill_sufficient (tcbSchedContext t) 0; assert! b;;
  when (negb (tcbQueued (tcbState t)))
    (let dom := tcbDomain t in
     let prio := tcbPriority t in
     idx ← ready_queues_index dom prio;
     queue ← get_ready_queue idx;
     when (tcb_queue_empty queue) (addToBitmap dom prio);;
     queue ← tcb_queue_prepend queue tcb;
     set_ready_queue idx queue;;
     mod_ts tcb (set_tcbQueued true)).

Definition tcbSchedAppend (tcb : Z) : K unit :=
  b ← isSchedulable tcb; assert! b;;
  t ← get_tcb tcb;
  b ← sc_refill_sufficient (tcbSchedContext t) 0; assert! b;;
  b ← sc_refill_ready (tcbSchedContext t); assert! b;;
  when (negb (tcbQueued (tcbState t)))
    (let dom := tcbDomain t in
     let prio := tcbPriority t in
     idx ← ready_queues_index dom prio;
     queue ← get_ready_queue idx;
     when (tcb_queue_empty queue) (addToBitmap dom prio);;
     queue ← tcb_queue_append queue tcb;
     set_ready_queue idx queue;;
     mod_ts tcb (set_tcbQueued true)).

Definition tcbSchedDequeue (tcb : Z) : K unit :=
  t ← get_tcb tcb;
  when (tcbQueued (tcbState t))
    (let dom := tcbDomain t in
     let prio := tcbPriority t in
     idx ← ready_queues_index dom prio;
     queue ← get_ready_queue idx;
     new_queue ← tcb_queue_remove queue tcb;
     set_ready_queue idx new_queue;;
     mod_ts tcb (set_tcbQueued false);;
     when (tcb_queue_empty new_queue) (removeFromBitmap dom prio)).

(** ** The release queue, ordered by the time of the head refill *)
Definition tcbReleaseRemove (tcb : Z) : K unit :=
  t ← get_tcb tcb;
  when (tcbInReleaseQueue (tcbState t))
    (queue ← gets ksReleaseQueue;
     when (q_head queue =? tcb) (modify (set_ksReprogram true));;
     queue ← tcb_queue_remove queue tcb;
     modify (set_ksReleaseQueue queue);;
     mod_ts tcb (set_tcbInReleaseQueue false)).

Definition tcbReadyTime (tcb : Z) : K Z :=
  t ← get_tcb tcb; h ← on_sc (tcbSchedContext t) refill_head; mret (rTime h).

Definition time_after (tcb new_time : Z) : K bool :=
  if tcb =? NULL then mret false else
  r ← tcbReadyTime tcb; mret (r <=? new_time).

Definition find_time_after (tcb new_time : Z) : K Z :=
  while64 (λ after,
    b ← time_after after new_time;
    if b : bool then t ← get_tcb after; mret (inl (tcbSchedNext t)) else mret (inr after)) tcb.

Definition tcbReleaseEnqueue (tcb : Z) : K unit :=
  t ← get_tcb tcb;
  assert! (negb (tcbInReleaseQueue (tcbState t)));;
  assert! (negb (tcbQueued (tcbState t)));;
  queue ← gets ksReleaseQueue;
  new_time ← tcbReadyTime tcb;
  front ← (if tcb_queue_empty queue then mret true
           else r ← tcbReadyTime (q_head queue); mret (new_time <? r));
  (if front : bool then
     q ← tcb_queue_prepend queue tcb; modify (set_ksReleaseQueue q)
   else
     r ← tcbReadyTime (q_end queue);
     if r <=? new_time then
       q ← tcb_queue_append queue tcb; modify (set_ksReleaseQueue q)
     else
       after ← find_time_after (q_head queue) new_time;
       tcb_queue_insert tcb after);;
  mod_ts tcb (set_tcbInReleaseQueue true);;
  q' ← gets ksReleaseQueue;
  when (negb (q_head queue =? q_head q')) (modify (set_ksReprogram true)).
End bitmap.
