(* ===== verification/QueueSpec.v ===== *)
(** * The thread queues implement lists

    Each queue operation of [Queues.v], run on a heap where the queue is the
    doubly linked list [l], leaves the queue as the expected list and changes
    nothing but the links of the threads concerned. *)
From S2P Require Import Prelude Words Platform State Machine DList RefillList Sporadic Queues.

Definition sched_links (s : kstate) : links := λ x,
  (λ t, (tcbSchedPrev t, tcbSchedNext t)) <$> tcbs s !! x.
Definition ep_links (s : kstate) : links := λ x,
  (λ t, (tcbEPPrev t, tcbEPNext t)) <$> tcbs s !! x.

(** A thread without its scheduler (endpoint) links. *)
Definition clear_sched (t : tcb) : tcb := set_tcbSchedNext NULL (set_tcbSchedPrev NULL t).
Definition clear_ep (t : tcb) : tcb := set_tcbEPNext NULL (set_tcbEPPrev NULL t).

(** [s'] is [s] up to the links of the threads in [l]. *)
Definition relinked (clear : tcb → tcb) (s s' : kstate) (l : list Z) : Prop :=
  ∃ T, s' = set_tcbs T s ∧
    (∀ x, clear <$> T !! x = clear <$> tcbs s !! x) ∧
    (∀ x, x ∉ l → T !! x = tcbs s !! x).

Lemma relinked_refl clear s l : relinked clear s s l.
Proof. exists (tcbs s). split_and!; [by destruct s|done..]. Qed.
Lemma relinked_mono clear s s' l l' : l ⊆ l' → relinked clear s s' l → relinked clear s s' l'.
Proof. intros Hl (T & ? & ? & Hf). exists T. split_and!; [done..|]. intros x Hx. apply Hf. set_solver. Qed.
Lemma relinked_trans clear s1 s2 s3 l :
  relinked clear s1 s2 l → relinked clear s2 s3 l → relinked clear s1 s3 l.
Proof.
  intros (T & -> & H1 & H2) (T' & -> & H3 & H4). exists T'. split_and!; [done|..]; simpl in *.
  - intros x. by rewrite H3, H1.
  - intros x ?. by rewrite H4, H2.
Qed.

(** One assignment to a link. *)
Lemma relinked_mod clear s f x t l :
  tcbs s !! x = Some t → clear (f t) = clear t → x ∈ l →
  relinked clear s (set_tcbs (<[x := f t]> (tcbs s)) s) l.
Proof.
  intros Hx Hc Hl. eexists; split_and!; [done|..].
  - intros y. destruct (decide (x = y)) as [->|]; simplify_map_eq; simpl; congruence.
  - intros y Hy. rewrite lookup_insert_ne; [done|]. by intros ->.
Qed.

Lemma sched_links_lookup s x p n :
  sched_links s x = Some (p, n) → ∃ t, tcbs s !! x = Some t ∧ tcbSchedPrev t = p ∧ tcbSchedNext t = n.
Proof. unfold sched_links. destruct (tcbs s !! x) as [t|]; simpl; [|done]. intros [= <- <-]. eauto. Qed.
Lemma ep_links_lookup s x p n :
  ep_links s x = Some (p, n) → ∃ t, tcbs s !! x = Some t ∧ tcbEPPrev t = p ∧ tcbEPNext t = n.
Proof. unfold ep_links. destruct (tcbs s !! x) as [t|]; simpl; [|done]. intros [= <- <-]. eauto. Qed.

(** Assignments to the links of [x], as updates of the link function. *)
Section link_updates.
Variables (lk : kstate → links) (clear : tcb → tcb).
Variables (set_prev set_next : Z → tcb → tcb).
Hypothesis lk_lookup : ∀ s x pn, lk s x = Some pn → is_Some (tcbs s !! x).
Hypothesis lk_set_next : ∀ s x t p n n', tcbs s !! x = Some t → lk s x = Some (p, n) →
  ∀ y, lk (set_tcbs (<[x := set_next n' t]> (tcbs s)) s) y = if decide (y = x) then Some (p, n') else lk s y.
Hypothesis lk_set_prev : ∀ s x t p n p', tcbs s !! x = Some t → lk s x = Some (p, n) →
  ∀ y, lk (set_tcbs (<[x := set_prev p' t]> (tcbs s)) s) y = if decide (y = x) then Some (p', n) else lk s y.
Hypothesis clear_next : ∀ n t, clear (set_next n t) = clear t.
Hypothesis clear_prev : ∀ n t, clear (set_prev n t) = clear t.

Lemma wp_set_next s x p n n' l Q :
  lk s x = Some (p, n) → x ∈ l →
  (∀ s', relinked clear s s' l →
     (∀ y, lk s' y = if decide (y = x) then Some (p, n') else lk s y) → Q () s') →
  wp (mod_tcb x (set_next n')) Q s.
Proof.
  intros Hlk Hl HQ. destruct (lk_lookup _ _ _ Hlk) as [t Ht].
  eapply wp_mod_tcb; [done|]. apply HQ; [by apply relinked_mod|by eapply lk_set_next].
Qed.
Lemma wp_set_prev s x p n p' l Q :
  lk s x = Some (p, n) → x ∈ l →
  (∀ s', relinked clear s s' l →
     (∀ y, lk s' y = if decide (y = x) then Some (p', n) else lk s y) → Q () s') →
  wp (mod_tcb x (set_prev p')) Q s.
Proof.
  intros Hlk Hl HQ. destruct (lk_lookup _ _ _ Hlk) as [t Ht].
  eapply wp_mod_tcb; [done|]. apply HQ; [by apply relinked_mod|by eapply lk_set_prev].
Qed.
End link_updates.

Ltac solve_links := intros; unfold sched_links, ep_links in *; simpl in *;
  repeat (case_decide; simplify_map_eq); simplify_option_eq; done.

Lemma wp_set_SchedNext s x p n n' l Q :
  sched_links s x = Some (p, n) → x ∈ l →
  (∀ s', relinked clear_sched s s' l →
     (∀ y, sched_links s' y = if decide (y = x) then Some (p, n') else sched_links s y) → Q () s') →
  wp (mod_tcb x (set_tcbSchedNext n')) Q s.
Proof. apply wp_set_next; [|solve_links|done]. intros s0 y pn. unfold sched_links. by destruct (tcbs s0 !! y). Qed.
Lemma wp_set_SchedPrev s x p n p' l Q :
  sched_links s x = Some (p, n) → x ∈ l →
  (∀ s', relinked clear_sched s s' l →
     (∀ y, sched_links s' y = if decide (y = x) then Some (p', n) else sched_links s y) → Q () s') →
  wp (mod_tcb x (set_tcbSchedPrev p')) Q s.
Proof. apply wp_set_prev; [|solve_links|done]. intros s0 y pn. unfold sched_links. by destruct (tcbs s0 !! y). Qed.
Lemma wp_set_EPNext s x p n n' l Q :
  ep_links s x = Some (p, n) → x ∈ l →
  (∀ s', relinked clear_ep s s' l →
     (∀ y, ep_links s' y = if decide (y = x) then Some (p, n') else ep_links s y) → Q () s') →
  wp (mod_tcb x (set_tcbEPNext n')) Q s.
Proof. apply wp_set_next; [|solve_links|done]. intros s0 y pn. unfold ep_links. by destruct (tcbs s0 !! y). Qed.
Lemma wp_set_EPPrev s x p n p' l Q :
  ep_links s x = Some (p, n) → x ∈ l →
  (∀ s', relinked clear_ep s s' l →
     (∀ y, ep_links s' y = if decide (y = x) then Some (p', n) else ep_links s y) → Q () s') →
  wp (mod_tcb x (set_tcbEPPrev p')) Q s.
Proof. apply wp_set_prev; [|solve_links|done]. intros s0 y pn. unfold ep_links. by destruct (tcbs s0 !! y). Qed.

(** Evaluate a chain of link updates at a point. *)
Ltac eval_links := repeat match goal with
  | H : ∀ y, ?lk _ y = (if decide _ then _ else _) |- context [?lk _ _] => rewrite H
  end; repeat (case_decide; simplify_eq); try done.
Ltac frame_links := intros; eval_links; set_solver.
Ltac relink := eauto using relinked_trans.

Section sched_queues.
Implicit Types (s : kstate) (l : list Z).

Lemma wp_tcb_queue_prepend s q l x Q :
  dlist (sched_links s) l q → x ∉ l → x ≠ NULL → sched_links s x = Some (NULL, NULL) →
  (∀ q' s', dlist (sched_links s') (x :: l) q' → relinked clear_sched s s' (x :: l) → Q q' s') →
  wp (tcb_queue_prepend q x) Q s.
Proof.
  intros Hq Hx Hx0 Hlk HQ. apply wp_bind. unfold tcb_queue_empty.
  rewrite (dlist_empty _ _ _ Hq). destruct Hq as (Hnd & Hseg & Hh & He).
  destruct l as [|h l]; simpl in *.
  - apply wp_ret, wp_ret, HQ; [|apply relinked_refl].
    split_and!; simpl; [by repeat constructor; set_solver|done..].
  - destruct Hseg as (Hh0 & Hlkh & Hseg). rewrite Hh.
    assert (x ≠ h) by set_solver. apply NoDup_cons in Hnd as [Hhl Hnd].
    apply wp_bind. eapply (wp_set_SchedNext _ _ _ _ _ (x :: h :: l)); [done|set_solver|]. intros s1 Hr1 Hl1.
    apply wp_bind. eapply (wp_set_SchedPrev _ _ _ _ _ (x :: h :: l)); [|set_solver|].
    { by rewrite Hl1, decide_False by done. }
    intros s2 Hr2 Hl2. apply wp_ret, wp_ret, HQ; [|by relink].
    split_and!; [repeat constructor; set_solver| |done|done].
    simpl. split_and!; [done|eval_links|done|eval_links|].
    eapply dseg_frame; [|done]. frame_links.
Qed.

Lemma wp_tcb_queue_append s q l x Q :
  dlist (sched_links s) l q → x ∉ l → x ≠ NULL → sched_links s x = Some (NULL, NULL) →
  (∀ q' s', dlist (sched_links s') (l ++ [x]) q' → relinked clear_sched s s' (x :: l) → Q q' s') →
  wp (tcb_queue_append q x) Q s.
Proof.
  intros Hq Hx Hx0 Hlk HQ. apply wp_bind. unfold tcb_queue_empty.
  rewrite (dlist_empty _ _ _ Hq). destruct Hq as (Hnd & Hseg & Hh & He).
  destruct l as [|e l _] using rev_ind.
  - apply wp_ret, wp_ret, HQ; [|apply relinked_refl].
    split_and!; simpl; [by repeat constructor; set_solver|done..].
  - rewrite bool_decide_eq_false_2 by (by destruct l).
    rewrite final_snoc in He. rewrite He. assert (x ≠ e) by set_solver.
    pose proof (dseg_middle _ _ _ _ _ _ Hseg) as Hlke. simpl in Hlke.
    apply NoDup_app in Hnd as (Hndl & Hnl & _).
    apply wp_bind. eapply (wp_set_SchedPrev _ _ _ _ _ (x :: l ++ [e])); [done|set_solver|]. intros s1 Hr1 Hl1.
    apply wp_bind. eapply (wp_set_SchedNext _ _ _ _ _ (x :: l ++ [e])); [by rewrite Hl1, decide_False by done|set_solver|].
    intros s2 Hr2 Hl2. apply wp_ret, wp_ret, HQ; [|by relink].
    split_and!.
    + apply NoDup_app. split_and!; [apply NoDup_app; split_and!; [done|done|apply NoDup_singleton]|set_solver|apply NoDup_singleton].
    + apply dseg_app. split.
      * eapply dseg_set_next; [done| |done|eval_links]. frame_links.
      * rewrite final_snoc. simpl. split_and!; [done| |done]. eval_links.
    + simpl. rewrite Hh. by destruct l.
    + by rewrite final_snoc.
Qed.

Lemma wp_tcb_queue_insert s q l1 b a l2 x Q :
  dlist (sched_links s) (l1 ++ b :: a :: l2) q → x ∉ l1 ++ b :: a :: l2 → x ≠ NULL →
  sched_links s x = Some (NULL, NULL) →
  (∀ s', dlist (sched_links s') (l1 ++ b :: x :: a :: l2) q →
     relinked clear_sched s s' (x :: l1 ++ b :: a :: l2) → Q () s') →
  wp (tcb_queue_insert x a) Q s.
Proof.
  intros (Hnd & Hseg & Hh & He) Hx Hx0 Hlk HQ.
  assert (dseg (sched_links s) NULL ((l1 ++ [b]) ++ a :: l2) NULL) as Hseg' by (by rewrite <-app_assoc).
  apply dseg_app in Hseg' as [Hs1 Hs2]. rewrite final_snoc in Hs2.
  destruct Hs2 as (Ha0 & Hlka & Hs2). pose proof (dseg_middle _ _ _ _ _ _ Hseg) as Hlkb. simpl in Hlkb.
  destruct (sched_links_lookup _ _ _ _ Hlka) as (ta & Hta & Hpa & _).
  apply wp_bind. eapply wp_get_tcb; [done|]. rewrite Hpa.
  assert (b ≠ NULL) by (eapply dseg_nonnull; [exact Hs1|set_solver]).
  apply NoDup_app in Hnd as (Hnd1 & Hd1 & Hnd2). apply NoDup_cons in Hnd2 as [Hb Hnd2].
  apply NoDup_cons in Hnd2 as [Ha Hnd2].
  assert (b ≠ a ∧ x ≠ a ∧ x ≠ b) as (? & ? & ?) by set_solver.
  apply wp_bind, wp_assert; [by apply negb_true_iff, Z.eqb_neq|].
  apply wp_bind, wp_assert; [by apply negb_true_iff, Z.eqb_neq|].
  apply wp_bind. eapply (wp_set_SchedPrev _ _ _ _ _ (x :: l1 ++ b :: a :: l2)); [done|by left|]. intros s1 Hr1 Hl1.
  apply wp_bind. eapply (wp_set_SchedNext _ _ _ _ _ (x :: l1 ++ b :: a :: l2)); [by rewrite Hl1, decide_True by done|by left|]. intros s2 Hr2 Hl2.
  apply wp_bind. eapply (wp_set_SchedPrev _ _ _ _ _ (x :: l1 ++ b :: a :: l2)); [by rewrite Hl2, Hl1, !decide_False by done|set_solver|]. intros s3 Hr3 Hl3.
  eapply (wp_set_SchedNext _ _ _ _ _ (x :: l1 ++ b :: a :: l2)); [by rewrite Hl3, Hl2, Hl1, !decide_False by done|set_solver|]. intros s4 Hr4 Hl4.
  apply HQ; [|by relink].
  split_and!.
  - apply NoDup_app. split_and!; [done|set_solver|]. repeat (apply NoDup_cons; split); set_solver.
  - replace (l1 ++ b :: x :: a :: l2) with ((l1 ++ [b]) ++ x :: a :: l2) by (by rewrite <-app_assoc).
    apply dseg_app. rewrite final_snoc. split; [|simpl; split_and!; [done|eval_links|done|eval_links|]].
    + eapply dseg_set_next; [done| |done|eval_links]. frame_links.
    + eapply dseg_frame; [|done]. frame_links.
  - rewrite Hh. by destruct l1.
  - rewrite He, !final_app. done.
Qed.

Lemma wp_tcb_queue_remove s q l1 x l2 Q :
  dlist (sched_links s) (l1 ++ x :: l2) q →
  (∀ q' s', dlist (sched_links s') (l1 ++ l2) q' → relinked clear_sched s s' (l1 ++ x :: l2) →
     sched_links s' x = Some (NULL, NULL) → Q q' s') →
  wp (tcb_queue_remove q x) Q s.
Proof.
  intros (Hnd & Hseg & Hh & He) HQ. pose proof (dseg_middle _ _ _ _ _ _ Hseg) as Hlkx.
  destruct (sched_links_lookup _ _ _ _ Hlkx) as (t & Ht & Hp & Hn).
  apply wp_bind. eapply wp_get_tcb; [done|]. rewrite Hp, Hn, Hh, He. clear t Ht Hp Hn.
  apply dseg_app in Hseg as [Hs1 (Hx0 & _ & Hs2)]. cbn [first] in Hs1.
  apply NoDup_app in Hnd as (Hnd1 & Hd1 & Hnd2). apply NoDup_cons in Hnd2 as [Hx Hnd2].
  assert (NoDup (l1 ++ l2)) as Hnd by (apply NoDup_app; split_and!; [done|set_solver|done]).
  destruct l1 as [|b l1 _] using rev_ind; destruct l2 as [|a l2]; simpl in *.
  - rewrite Z.eqb_refl. simpl. apply wp_ret, HQ; [by apply dlist_nil|apply relinked_refl|done].
  - assert (x ≠ final a l2) as Hne by (intros ->; apply Hx, final_in).
    rewrite Z.eqb_refl, (proj2 (Z.eqb_neq _ _)) by done. simpl.
    destruct Hs2 as (Ha0 & Hlka & Hs2). assert (a ≠ x) by set_solver. apply NoDup_cons in Hnd as [? ?].
    apply wp_bind. eapply (wp_set_SchedPrev _ _ _ _ _ (x :: a :: l2)); [done|set_solver|]. intros s1 Hr1 Hl1.
    apply wp_bind. eapply (wp_set_SchedNext _ _ _ _ _ (x :: a :: l2)); [by rewrite Hl1, decide_False by done|set_solver|].
    intros s2 Hr2 Hl2. apply wp_ret, HQ; [|by relink|eval_links].
    split_and!; [done|simpl; split_and!; [done|eval_links|]|done|done].
    eapply dseg_frame; [|done]. frame_links.
  - rewrite final_app. simpl. rewrite Z.eqb_refl.
    assert (first NULL ((l1 ++ [b]) ++ [x]) ≠ x) as Hne by (destruct l1; set_solver).
    rewrite (proj2 (Z.eqb_neq _ _)) by done. simpl. rewrite final_snoc in *. rewrite app_nil_r in *.
    pose proof (dseg_middle _ _ _ _ _ _ Hs1) as Hlkb. simpl in Hlkb. assert (b ≠ x) by set_solver.
    apply NoDup_app in Hnd1 as (? & ? & _).
    apply wp_bind. eapply (wp_set_SchedNext _ _ _ _ _ ((l1 ++ [b]) ++ [x])); [done|set_solver|]. intros s1 Hr1 Hl1.
    apply wp_bind. eapply (wp_set_SchedPrev _ _ _ _ _ ((l1 ++ [b]) ++ [x])); [by rewrite Hl1, decide_False by done|set_solver|].
    intros s2 Hr2 Hl2. apply wp_ret, HQ; [|by relink|eval_links].
    split_and!; [done| |simpl; rewrite Hh; by destruct l1|simpl; by rewrite final_snoc].
    eapply dseg_set_next; [done| |done|eval_links]. frame_links.
  - assert (first NULL ((l1 ++ [b]) ++ x :: a :: l2) ≠ x) as Hne by (destruct l1; set_solver).
    rewrite (proj2 (Z.eqb_neq _ _)) by done. simpl. rewrite final_app. simpl.
    assert (x ≠ final a l2) as Hne2 by (intros ->; apply Hx, final_in).
    rewrite (proj2 (Z.eqb_neq _ _)) by done. rewrite final_snoc in *.
    destruct Hs2 as (Ha0 & Hlka & Hs2). pose proof (dseg_middle _ _ _ _ _ _ Hs1) as Hlkb. simpl in Hlkb.
    assert (b ≠ x ∧ a ≠ x) as [? ?] by set_solver.
    apply NoDup_app in Hnd as (Hndb & Hdb & Hnda). apply NoDup_cons in Hnda as [? ?].
    assert (a ≠ b) by set_solver. apply NoDup_app in Hndb as (? & ? & _).
    set (L := (l1 ++ [b]) ++ x :: a :: l2).
    apply wp_bind. eapply (wp_set_SchedNext _ _ _ _ _ L); [done|set_solver|]. intros s1 Hr1 Hl1.
    apply wp_bind. eapply (wp_set_SchedPrev _ _ _ _ _ L); [by rewrite Hl1, decide_False by done|set_solver|]. intros s2 Hr2 Hl2.
    apply wp_bind. eapply (wp_set_SchedPrev _ _ _ _ _ L); [by rewrite Hl2, Hl1, !decide_False by done|set_solver|]. intros s3 Hr3 Hl3.
    apply wp_bind. eapply (wp_set_SchedNext _ _ _ _ _ L); [by rewrite Hl3, decide_True by done|set_solver|]. intros s4 Hr4 Hl4.
    apply wp_ret, HQ; [|by relink|eval_links].
    split_and!; [apply NoDup_app; split_and!; [|set_solver|by constructor]| | |].
    + apply NoDup_app; split_and!; [done|done|apply NoDup_singleton].
    + apply dseg_app. split.
      * eapply dseg_set_next; [done| |done|eval_links]. frame_links.
      * rewrite final_snoc. simpl. split_and!; [done|eval_links|]. eapply dseg_frame; [|done]. frame_links.
    + rewrite Hh. by destruct l1.
    + rewrite He. by rewrite !final_app.
Qed.
End sched_queues.

(** ** Endpoint queues *)
Definition prio_of (s : kstate) (x : Z) : Z := from_option tcbPriority 0 (tcbs s !! x).

(** [x] goes behind every thread of at least its priority that it would pass
    from the back: [l2] is the longest suffix of lower priorities. *)
Definition ep_position (prio : Z → Z) (x : Z) (l1 l2 : list Z) : Prop :=
  Forall (λ y, prio y < prio x) l2 ∧ (∀ b, last l1 = Some b → prio x ≤ prio b).

Section ep_queues.
Implicit Types (s : kstate) (l : list Z).

Lemma tcbEPAppend_find_spec s l x tx Q :
  dseg (ep_links s) NULL l NULL → Z.of_nat (length l) < 2 ^ 64 → tcbs s !! x = Some tx →
  (∀ l1 l2, l = l1 ++ l2 → ep_position (prio_of s) x l1 l2 → Q (final NULL l1, first NULL l2) s) →
  wp (tcbEPAppend_find x (final NULL l) NULL) Q s.
Proof.
  intros Hseg Hlen Hx HQ. unfold tcbEPAppend_find.
  apply (wp_while64_idx (λ n '(before, after) s', s' = s ∧ ∃ l1 l2, l = l1 ++ l2 ∧
    before = final NULL l1 ∧ after = first NULL l2 ∧ Forall (λ y, prio_of s y < prio_of s x) l2 ∧
    n = Z.of_nat (length l1)) _ _ (Z.of_nat (length l))).
  - intros n [before after] s' Hn (-> & l1 & l2 & -> & -> & -> & Hlow & ->).
    destruct l1 as [|b l1 _] using rev_ind; [by apply wp_ret, HQ|].
    assert (b ≠ NULL) by (eapply dseg_nonnull; [exact Hseg|set_solver]).
    rewrite final_snoc, (proj2 (Z.eqb_neq _ _)) by done.
    rewrite <-app_assoc in Hseg. pose proof (dseg_middle _ _ _ _ _ _ Hseg) as Hlkb.
    destruct (ep_links_lookup _ _ _ _ Hlkb) as (tb & Htb & Hp & _).
    apply wp_bind. eapply wp_get_tcb; [done|]. apply wp_bind. eapply wp_get_tcb; [done|]. rewrite Hp.
    assert (prio_of s x = tcbPriority tx ∧ prio_of s b = tcbPriority tb) as [Hpx Hpb]
      by (unfold prio_of; by rewrite Hx, Htb).
    destruct (Z.ltb_spec (tcbPriority tb) (tcbPriority tx)).
    + apply wp_ret. exists (Z.of_nat (length l1)). rewrite length_app; simpl. split; [lia|].
      split; [done|]. exists l1, (b :: l2). rewrite <-app_assoc. split_and!; [done..| |done].
      constructor; [lia|done].
    + apply wp_ret. rewrite <-(final_snoc NULL l1 b). apply HQ; [done|]. split; [done|].
      intros b'. rewrite last_snoc. intros [= <-]. lia.
  - split; [done|]. exists l, []. rewrite app_nil_r. by split_and!.
  - lia.
Qed.

Lemma wp_tcbEPAppend s l q x tx Q :
  dlist (ep_links s) l q → x ∉ l → x ≠ NULL → Z.of_nat (length l) < 2 ^ 64 → tcbs s !! x = Some tx →
  (∀ q' s' l1 l2, l = l1 ++ l2 → ep_position (prio_of s) x l1 l2 →
     dlist (ep_links s') (l1 ++ x :: l2) q' → relinked clear_ep s s' (x :: l) → Q q' s') →
  wp (tcbEPAppend x q) Q s.
Proof.
  intros (Hnd & Hseg & Hh & He) Hx Hx0 Hlen Htx HQ. apply wp_bind. rewrite He.
  eapply tcbEPAppend_find_spec; [done..|]. intros l1 l2 -> Hpos.
  set (L := x :: l1 ++ l2) in *. clear Hlen.
  assert (ep_links s x = Some (tcbEPPrev tx, tcbEPNext tx)) as Hlkx by (unfold ep_links; by rewrite Htx).
  apply dseg_app in Hseg as [Hs1 Hs2]. apply NoDup_app in Hnd as (Hnd1 & Hd & Hnd2).
  assert (NoDup (l1 ++ x :: l2)) as Hnd.
  { apply NoDup_app; split_and!; [done|set_solver|constructor; [set_solver|done]]. }
  (* the link of the predecessor *)
  apply wp_bind, (wp_mono _ (λ q1 s1, relinked clear_ep s s1 L ∧ dseg (ep_links s1) NULL l1 x ∧
    (∀ y, y ∉ l1 → ep_links s1 y = ep_links s y) ∧
    q_head q1 = first x l1 ∧ q_end q1 = q_end q)).
  { destruct l1 as [|b l1 _] using rev_ind; simpl.
    - apply wp_ret. split_and!; [apply relinked_refl|done..].
    - rewrite final_snoc. pose proof (dseg_middle _ _ _ _ _ _ Hs1) as Hlkb. simpl in Hlkb.
      assert (b ≠ NULL) by (eapply dseg_nonnull; [exact Hs1|set_solver]).
      rewrite (proj2 (Z.eqb_neq _ _)) by done. apply NoDup_app in Hnd1 as (? & ? & _).
      apply wp_bind. eapply (wp_set_EPNext _ _ _ _ _ L); [done|set_solver|]. intros s1 Hr1 Hl1.
      apply wp_ret. split_and!; [done| | | |done].
      + eapply dseg_set_next; [done| |done|eval_links]. frame_links.
      + intros y Hy. rewrite Hl1, decide_False; [done|set_solver].
      + rewrite Hh. by destruct l1. }
  intros q1 s1 (Hr1 & Hs1' & Hf1 & Hh1 & He1).
  apply wp_bind, (wp_mono _ (λ q2 s2, relinked clear_ep s s2 L ∧ dseg (ep_links s2) NULL l1 x ∧
    dseg (ep_links s2) x l2 NULL ∧ (∃ pn, ep_links s2 x = Some pn) ∧
    q_head q2 = first x l1 ∧ q_end q2 = final x l2)).
  { destruct l2 as [|a l2]; simpl.
    - apply wp_ret. split_and!; [done..| |done|done]. exists (tcbEPPrev tx, tcbEPNext tx).
      rewrite Hf1; [done|set_solver].
    - destruct Hs2 as (Ha0 & Hlka & Hs2). rewrite (proj2 (Z.eqb_neq _ _)) by done.
      apply NoDup_cons in Hnd2 as [? ?].
      apply wp_bind. eapply (wp_set_EPPrev _ _ _ _ _ L); [rewrite Hf1; [done|set_solver]|set_solver|].
      intros s2 Hr2 Hl2. apply wp_ret. split_and!; [by relink| |done|eval_links| | |done|].
      + eapply dseg_frame; [|done]. intros y Hy. rewrite Hl2, decide_False; [done|set_solver].
      + eapply dseg_frame; [|done]. intros y Hy. rewrite Hl2, decide_False, Hf1; [done|set_solver..].
      + exists (tcbEPPrev tx, tcbEPNext tx). rewrite Hl2, decide_False, Hf1; [done|set_solver..].
      + rewrite He1, He, final_app. done. }
  intros q2 s2 (Hr2 & Hs12 & Hs22 & [[p n] Hlk2] & Hh2 & He2).
  apply wp_bind. eapply (wp_set_EPNext _ _ _ _ _ L); [done|by left|]. intros s3 Hr3 Hl3.
  apply wp_bind. eapply (wp_set_EPPrev _ _ _ _ _ L); [by rewrite Hl3, decide_True by done|by left|]. intros s4 Hr4 Hl4.
  apply wp_ret, (HQ _ _ l1 l2); [done|done| |by relink].
  split_and!; [done| |by rewrite Hh2; destruct l1|by rewrite He2, final_app].
  apply dseg_app. simpl. split_and!; [|done|eval_links|].
  - eapply dseg_frame; [|done]. frame_links.
  - eapply dseg_frame; [|done]. frame_links.
Qed.

Lemma wp_tcbEPDequeue s q l1 x l2 Q :
  dlist (ep_links s) (l1 ++ x :: l2) q →
  (∀ q' s', dlist (ep_links s') (l1 ++ l2) q' → relinked clear_ep s s' (l1 ++ l2) → Q q' s') →
  wp (tcbEPDequeue x q) Q s.
Proof.
  intros (Hnd & Hseg & Hh & He) HQ. pose proof (dseg_middle _ _ _ _ _ _ Hseg) as Hlkx.
  destruct (ep_links_lookup _ _ _ _ Hlkx) as (t & Ht & Hp & Hn).
  apply wp_bind. eapply wp_get_tcb; [done|]. rewrite Hp, Hn. clear t Ht Hp Hn.
  apply dseg_app in Hseg as [Hs1 (Hx0 & _ & Hs2)]. cbn [first] in Hs1.
  apply NoDup_app in Hnd as (Hnd1 & Hd1 & Hnd2). apply NoDup_cons in Hnd2 as [Hx Hnd2].
  set (L := l1 ++ l2) in *.
  apply wp_bind, (wp_mono _ (λ q1 s1, relinked clear_ep s s1 L ∧ dseg (ep_links s1) NULL l1 (first NULL l2) ∧
    (∀ y, y ∉ l1 → ep_links s1 y = ep_links s y) ∧
    q_head q1 = first (first NULL l2) l1 ∧ q_end q1 = q_end q)).
  { destruct l1 as [|b l1 _] using rev_ind; simpl.
    - apply wp_ret. split_and!; [apply relinked_refl|done..].
    - rewrite final_snoc. pose proof (dseg_middle _ _ _ _ _ _ Hs1) as Hlkb. simpl in Hlkb.
      assert (b ≠ NULL) by (eapply dseg_nonnull; [exact Hs1|set_solver]).
      rewrite (proj2 (Z.eqb_neq _ _)) by done. apply NoDup_app in Hnd1 as (? & ? & _).
      apply wp_bind. eapply (wp_set_EPNext _ _ _ _ _ L); [done|set_solver|]. intros s1 Hr1 Hl1.
      apply wp_ret. split_and!; [done| | | |done].
      + eapply dseg_set_next; [done| |done|eval_links]. frame_links.
      + intros y Hy. rewrite Hl1, decide_False; [done|set_solver].
      + rewrite Hh. by destruct l1. }
  intros q1 s1 (Hr1 & Hs1' & Hf1 & Hh1 & He1).
  assert (ep_links s1 x = Some (final NULL l1, first NULL l2)) as Hlk1 by (rewrite Hf1; [done|set_solver]).
  destruct (ep_links_lookup _ _ _ _ Hlk1) as (t & Ht & Hp & Hn).
  apply wp_bind. eapply wp_get_tcb; [done|]. rewrite Hp, Hn.
  assert (NoDup L) as HndL by (apply NoDup_app; split_and!; [done|set_solver|done]).
  destruct l2 as [|a l2]; simpl.
  - apply wp_ret, HQ; [|done]. split_and!; [done| |simpl; unfold L; by rewrite Hh1, first_app|].
    + apply dseg_app. done.
    + unfold L. by rewrite app_nil_r.
  - destruct Hs2 as (Ha0 & Hlka & Hs2). rewrite (proj2 (Z.eqb_neq _ _)) by done. simpl.
    apply NoDup_cons in Hnd2 as [? ?].
    apply wp_bind. eapply (wp_set_EPPrev _ _ _ _ _ L); [rewrite Hf1; [done|set_solver]|set_solver|].
    intros s2 Hr2 Hl2. apply wp_ret, HQ; [|by relink].
    split_and!; [done| |unfold L; by rewrite Hh1, first_app|rewrite He1, He; unfold L; by rewrite !final_app].
    apply dseg_app. simpl. split_and!; [|done|eval_links|].
    + eapply dseg_frame; [|done]. intros y Hy. rewrite Hl2, decide_False; [done|set_solver].
    + eapply dseg_frame; [|done]. intros y Hy. rewrite Hl2, decide_False, Hf1; [done|set_solver..].
Qed.
End ep_queues.
