(* ===== verification/Bitmap.v ===== *)
(** * The bitmap of ready priorities

    [bitmap_at s dom R]: for domain [dom] the two-level bitmap of state [s] holds
    exactly the priorities [p] with [R p = true]. [addToBitmap] and
    [removeFromBitmap] implement insertion and deletion, and [getHighestPrio]
    returns the maximum. *)
From S2P Require Import Prelude Words Platform State Machine DList RefillList Sporadic Queues.

Definition bm_repr (w1 : Z) (row : list Z) (R : Z → bool) : Prop :=
  0 ≤ w1 < 16 ∧ length row = 4%nat ∧
  ∀ i, 0 ≤ i < 4 → ∃ w, row !! Z.to_nat (3 - i) = Some w ∧ is_word w ∧
    (∀ j, 0 ≤ j < 64 → Z.testbit w j = R (64 * i + j)) ∧
    Z.testbit w1 i = negb (w =? 0).

Definition bitmap_at (s : kstate) (dom : Z) (R : Z → bool) : Prop :=
  ∃ w1 row, ksReadyQueuesL1Bitmap s !! Z.to_nat dom = Some w1 ∧
    ksReadyQueuesL2Bitmap s !! Z.to_nat dom = Some row ∧ bm_repr w1 row R.

(** [s'] is [s] up to the bitmap of [dom]. *)
Definition bitmap_only (dom : Z) (s s' : kstate) : Prop :=
  ∃ b1 b2, s' = set_ksReadyQueuesL1Bitmap b1 (set_ksReadyQueuesL2Bitmap b2 s) ∧
    length b1 = length (ksReadyQueuesL1Bitmap s) ∧ length b2 = length (ksReadyQueuesL2Bitmap s) ∧
    ∀ d, 0 ≤ d → 0 ≤ dom → d ≠ dom →
      b1 !! Z.to_nat d = ksReadyQueuesL1Bitmap s !! Z.to_nat d ∧
      b2 !! Z.to_nat d = ksReadyQueuesL2Bitmap s !! Z.to_nat d.

Lemma bitmap_only_other dom s s' d R :
  bitmap_only dom s s' → 0 ≤ d → 0 ≤ dom → d ≠ dom → bitmap_at s d R → bitmap_at s' d R.
Proof.
  intros (b1 & b2 & -> & _ & _ & Ho) ??? (w1 & row & H1 & H2 & HR). destruct (Ho d) as [E1 E2]; [done..|].
  exists w1, row. simpl. by rewrite E1, E2.
Qed.

Lemma bitmap_at_ext s dom R R' :
  (∀ p, 0 ≤ p < 256 → R p = R' p) → bitmap_at s dom R → bitmap_at s dom R'.
Proof.
  intros HR (w1 & row & H1 & H2 & Hw & Hl & Hb). exists w1, row. do 2 (split; [done|]). split_and!; [lia..|done|].
  intros i Hi. destruct (Hb i Hi) as (w & ? & ? & Hj & ?). exists w. split_and!; [done..| |done].
  intros j Hj'. rewrite Hj, HR by lia. done.
Qed.

Section lemmas.
Context `{Platform}.

Lemma prio_split p : 0 ≤ p < 256 →
  prio_to_l1index p = p / 64 ∧ Z.land p (MASK wordRadix) = p mod 64 ∧
  0 ≤ p / 64 < 4 ∧ 0 ≤ p mod 64 < 64 ∧ p = 64 * (p / 64) + p mod 64.
Proof.
  intros Hp. unfold prio_to_l1index, wordRadix. rewrite Z.shiftr_div_pow2, land_MASK by lia.
  change (2 ^ 6) with 64. pose proof (Z.mod_pos_bound p 64). pose proof (Z.div_mod p 64).
  split_and!; lia.
Qed.

Lemma wp_invert_l1index i Q s : 0 ≤ i < 4 → Q (3 - i) s → wp (invert_l1index i) Q s.
Proof.
  intros Hi HQ. unfold invert_l1index. change (L2_BITMAP_SIZE -w 1) with 3.
  rewrite wrap_small by (unfold is_word; lia). change L2_BITMAP_SIZE with 4.
  apply wp_bind, wp_assert; [apply Z.ltb_lt; lia|]. by apply wp_ret.
Qed.

Lemma wp_get_l1 dom w Q s : ksReadyQueuesL1Bitmap s !! Z.to_nat dom = Some w → Q w s → wp (get_l1 dom) Q s.
Proof. intros Hw HQ. apply wp_bind, wp_gets. by eapply wp_deref. Qed.
Lemma wp_get_l2 dom i row w Q s :
  ksReadyQueuesL2Bitmap s !! Z.to_nat dom = Some row → row !! Z.to_nat i = Some w → Q w s →
  wp (get_l2 dom i) Q s.
Proof. intros Hr Hw HQ. apply wp_bind, wp_gets, wp_bind. eapply wp_deref; [done|]. by eapply wp_deref. Qed.
Lemma wp_set_l1 dom w0 w Q s : ksReadyQueuesL1Bitmap s !! Z.to_nat dom = Some w0 →
  Q () (set_ksReadyQueuesL1Bitmap (<[Z.to_nat dom := w]> (ksReadyQueuesL1Bitmap s)) s) → wp (set_l1 dom w) Q s.
Proof. intros Hw HQ. apply wp_bind. by eapply wp_get_l1. Qed.
Lemma wp_set_l2 dom i row w0 w Q s :
  ksReadyQueuesL2Bitmap s !! Z.to_nat dom = Some row → row !! Z.to_nat i = Some w0 →
  Q () (set_ksReadyQueuesL2Bitmap (<[Z.to_nat dom := <[Z.to_nat i := w]> row]> (ksReadyQueuesL2Bitmap s)) s) →
  wp (set_l2 dom i w) Q s.
Proof.
  intros Hr Hw HQ. apply wp_bind. eapply wp_get_l2; [done..|]. apply wp_modify.
  replace (alter _ _ _) with (<[Z.to_nat dom:=<[Z.to_nat i:=w]> row]> (ksReadyQueuesL2Bitmap s)); [done|].
  symmetry. apply list_eq. intros k. destruct (decide (k = Z.to_nat dom)) as [->|].
  - rewrite list_lookup_alter_eq, Hr. simpl. rewrite list_lookup_insert_eq; [done|]. by eapply lookup_lt_Some.
  - by rewrite list_lookup_alter_ne, list_lookup_insert_ne.
Qed.

(** Replacing the second-level word of one first-level index. *)
Lemma bm_repr_update w1 row R w1' i w' R' :
  bm_repr w1 row R → 0 ≤ i < 4 → 0 ≤ w1' < 16 → is_word w' →
  (∀ j, 0 ≤ j < 64 → Z.testbit w' j = R' (64 * i + j)) → Z.testbit w1' i = negb (w' =? 0) →
  (∀ k, 0 ≤ k < 4 → k ≠ i → Z.testbit w1' k = Z.testbit w1 k) →
  (∀ k j, 0 ≤ k < 4 → k ≠ i → 0 ≤ j < 64 → R' (64 * k + j) = R (64 * k + j)) →
  bm_repr w1' (<[Z.to_nat (3 - i) := w']> row) R'.
Proof.
  intros (Hw1 & Hlen & HR) Hi Hw1' Hw' Hb1 Hb2 Hk1 Hk2.
  split_and!; [lia..|by rewrite length_insert|]. intros k Hk. destruct (decide (k = i)) as [->|Hne].
  - exists w'. rewrite list_lookup_insert_eq by lia. done.
  - destruct (HR k Hk) as (w & Hw & ? & ? & ?). exists w. rewrite list_lookup_insert_ne by lia.
    split_and!; [done..| |by rewrite Hk1]. intros j Hj. rewrite Hk2 by done. auto.
Qed.

Lemma small_of_bits x : 0 ≤ x → (∀ k, 4 ≤ k → Z.testbit x k = false) → 0 ≤ x < 16.
Proof.
  intros Hx Hb. replace x with (x mod 2 ^ 4); [apply Z.mod_pos_bound; lia|].
  apply Z.bits_inj'. intros k Hk. destruct (Z.lt_ge_cases k 4).
  - by rewrite Z.mod_pow2_bits_low.
  - rewrite Z.mod_pow2_bits_high by lia. by rewrite Hb.
Qed.
Lemma small_bits x k : 0 ≤ x < 16 → 4 ≤ k → Z.testbit x k = false.
Proof. intros Hx Hk. rewrite <-(Z.mod_small x (2 ^ 4)) by lia. apply Z.mod_pow2_bits_high. lia. Qed.

Lemma lor_BIT_nonzero w n : 0 ≤ n < 64 → (Z.lor w (BIT n) =? 0) = false.
Proof.
  intros Hn. apply Z.eqb_neq. intros E. assert (Z.testbit (Z.lor w (BIT n)) n = true) as Hb.
  { rewrite Z.lor_spec, testbit_BIT, Z.eqb_refl by lia. apply orb_true_r. }
  rewrite E, Z.bits_0 in Hb. done.
Qed.

Lemma bitmap_only_intro dom s b1 b2 w1 w2 :
  0 ≤ dom → b1 = <[Z.to_nat dom := w1]> (ksReadyQueuesL1Bitmap s) →
  b2 = <[Z.to_nat dom := w2]> (ksReadyQueuesL2Bitmap s) →
  bitmap_only dom s (set_ksReadyQueuesL1Bitmap b1 (set_ksReadyQueuesL2Bitmap b2 s)).
Proof.
  intros Hd -> ->. eexists _, _. split_and!; [done|by rewrite length_insert..|].
  intros d ???. rewrite !list_lookup_insert_ne by lia. done.
Qed.

Lemma addToBitmap_spec dom prio s R Q :
  bitmap_at s dom R → 0 ≤ dom → 0 ≤ prio < 256 →
  (∀ s', bitmap_only dom s s' → bitmap_at s' dom (λ p, R p || (p =? prio)) → Q () s') →
  wp (addToBitmap dom prio) Q s.
Proof.
  intros (w1 & row & H1 & H2 & HR) Hd Hp HQ.
  destruct (prio_split prio Hp) as (El1 & El2 & Hi & Hj & Ep). pose proof HR as (Hw1 & Hlen & HRi).
  destruct (HRi _ Hi) as (w & Hw & Hww & Hbits & _). unfold addToBitmap. rewrite El1, El2.
  apply wp_bind, wp_invert_l1index; [done|]. apply wp_bind. eapply wp_get_l1; [done|].
  apply wp_bind. eapply wp_set_l1; [done|]. apply wp_bind. eapply wp_get_l2; [done..|].
  eapply wp_set_l2; [done..|]. apply HQ.
  - eapply bitmap_only_intro; [done|done|done].
  - eexists _, _. simpl. rewrite !list_lookup_insert_eq by (by eapply lookup_lt_Some).
    split_and!; [done..|]. eapply bm_repr_update; [done|done| | | | | |].
    + apply small_of_bits; [apply Z.lor_nonneg; split; [lia|apply BIT_word]|].
      intros k Hk. rewrite Z.lor_spec, small_bits, testbit_BIT by lia. apply Z.eqb_neq. lia.
    + by apply lor_word, BIT_word.
    + intros j Hj'. rewrite Z.lor_spec, testbit_BIT, Hbits by lia. f_equal.
      apply eq_bool_prop_intro. rewrite !Is_true_true, !Z.eqb_eq. lia.
    + rewrite lor_BIT_nonzero by done. rewrite Z.lor_spec, testbit_BIT, Z.eqb_refl by lia. apply orb_true_r.
    + intros k Hk Hne. rewrite Z.lor_spec, testbit_BIT by lia. rewrite (proj2 (Z.eqb_neq _ _)) by lia. apply orb_false_r.
    + intros k j Hk Hne Hj'. rewrite (proj2 (Z.eqb_neq _ _)) by lia. apply orb_false_r.
Qed.

Lemma removeFromBitmap_spec dom prio s R Q :
  bitmap_at s dom R → 0 ≤ dom → 0 ≤ prio < 256 →
  (∀ s', bitmap_only dom s s' → bitmap_at s' dom (λ p, R p && negb (p =? prio)) → Q () s') →
  wp (removeFromBitmap dom prio) Q s.
Proof.
  intros (w1 & row & H1 & H2 & HR) Hd Hp HQ.
  destruct (prio_split prio Hp) as (El1 & El2 & Hi & Hj & Ep). pose proof HR as (Hw1 & Hlen & HRi).
  destruct (HRi _ Hi) as (w & Hw & Hww & Hbits & Hl1). unfold removeFromBitmap. rewrite El1, El2.
  set (w' := Z.land w (wnot (BIT (prio mod 64)))).
  assert (is_word w') as Hw' by (by apply land_word).
  assert (∀ j, 0 ≤ j < 64 → Z.testbit w' j = R (64 * (prio / 64) + j) && negb (64 * (prio / 64) + j =? prio)) as Hb'.
  { intros j Hj'. unfold w'. rewrite Z.land_spec, wnot_spec, testbit_BIT, Hbits by (done || lia || apply BIT_word).
    f_equal. rewrite (proj2 (Z.ltb_lt _ _)) by lia. simpl. f_equal.
    apply eq_bool_prop_intro. rewrite !Is_true_true, !Z.eqb_eq. lia. }
  apply wp_bind, wp_invert_l1index; [done|]. apply wp_bind. eapply wp_get_l2; [done..|].
  apply wp_bind. eapply wp_set_l2; [done..|]. apply wp_bind.
  eapply wp_get_l2; [simpl; apply list_lookup_insert_eq; by eapply lookup_lt_Some
                    |apply list_lookup_insert_eq; by eapply lookup_lt_Some|].
  apply wp_when; intros Hz.
  - apply Z.eqb_eq in Hz. apply wp_bind. eapply wp_get_l1; [done|]. eapply wp_set_l1; [done|]. apply HQ.
    + eapply bitmap_only_intro; done.
    + eexists _, _. simpl. rewrite !list_lookup_insert_eq by (by eapply lookup_lt_Some).
      split_and!; [done..|]. eapply bm_repr_update; [done|done| |done|done| | |].
      * apply small_of_bits; [apply Z.land_nonneg; lia|]. intros k Hk. by rewrite Z.land_spec, small_bits by lia.
      * rewrite Hz. simpl. rewrite Z.land_spec, wnot_spec, testbit_BIT, Z.eqb_refl by (lia || apply BIT_word).
        by rewrite !andb_false_r.
      * intros k Hk Hne. rewrite Z.land_spec, wnot_spec, testbit_BIT by (lia || apply BIT_word).
        rewrite (proj2 (Z.ltb_lt _ _)) by lia. rewrite (proj2 (Z.eqb_neq _ _)) by lia. apply andb_true_r.
      * intros k j Hk Hne Hj'. rewrite (proj2 (Z.eqb_neq _ _)) by lia. apply andb_true_r.
  - apply HQ.
    + exists (ksReadyQueuesL1Bitmap s), (<[Z.to_nat dom := <[Z.to_nat (3 - prio / 64) := w']> row]> (ksReadyQueuesL2Bitmap s)).
      split_and!; [done|done|by rewrite length_insert|].
      intros d ???. by rewrite list_lookup_insert_ne by lia.
    + eexists _, _. simpl. rewrite list_lookup_insert_eq by (by eapply lookup_lt_Some).
      split_and!; [done..|]. eapply bm_repr_update; [done|done|done|done|done| |done|].
      * rewrite Hz. rewrite Hl1. apply negb_true_iff, Z.eqb_neq. intros ->.
        unfold w' in Hz. rewrite Z.land_0_l in Hz. done.
      * intros k j Hk Hne Hj'. rewrite (proj2 (Z.eqb_neq _ _)) by lia. apply andb_true_r.
Qed.

(** No first-level bit is set exactly when no priority is ready. *)
Lemma bm_repr_empty w1 row R : bm_repr w1 row R → w1 = 0 ↔ ∀ p, 0 ≤ p < 256 → R p = false.
Proof.
  intros (Hw1 & Hlen & HR). split.
  - intros -> p Hp. destruct (prio_split p Hp) as (_ & _ & Hi & Hj & ->).
    destruct (HR _ Hi) as (w & _ & _ & Hb & Hz). rewrite Z.bits_0 in Hz. rewrite <-Hb by done.
    symmetry in Hz. apply negb_false_iff, Z.eqb_eq in Hz as ->. apply Z.bits_0.
  - intros Hno. apply Z.bits_inj'. intros i Hi0. rewrite Z.bits_0.
    destruct (Z.lt_ge_cases i 4) as [Hi|]; [|by apply small_bits].
    destruct (HR i) as (w & _ & Hw & Hb & ->); [lia|]. apply negb_false_iff, Z.eqb_eq.
    apply Z.bits_inj'. intros j Hj. rewrite Z.bits_0. destruct (Z.lt_ge_cases j 64).
    + rewrite Hb, Hno by lia. done.
    + by apply testbit_word_high.
Qed.

Lemma highest_bit w : is_word w → w ≠ 0 →
  wordBits -w 1 -w clzl w = Z.log2 w ∧ 0 ≤ Z.log2 w < 64 ∧ Z.testbit w (Z.log2 w) = true.
Proof.
  intros Hw Hne. unfold is_word in Hw. unfold clzl. rewrite clz64_log2 by lia.
  assert (0 ≤ Z.log2 w < 64).
  { split; [apply Z.log2_nonneg|]. apply Z.log2_lt_pow2; lia. }
  change (wordBits -w 1) with 63. rewrite wrap_small by (unfold is_word; lia).
  split_and!; [lia..|]. apply Z.bit_log2. lia.
Qed.

Lemma lor_add a b : 0 ≤ a → 0 ≤ b < 64 → Z.lor (a * 64) b = a * 64 + b.
Proof.
  intros Ha Hb. assert (Z.land (a * 64) b = 0) as Hz.
  { change 64 with (2 ^ 6). apply Z.bits_inj'. intros k Hk. rewrite Z.land_spec, Z.bits_0.
    destruct (Z.lt_ge_cases k 6); [by rewrite Z.mul_pow2_bits_low|].
    rewrite <-(Z.mod_small b (2 ^ 6)) by lia. rewrite Z.mod_pow2_bits_high by lia. apply andb_false_r. }
  by rewrite Z.add_nocarry_lxor, Z.lxor_lor.
Qed.

Lemma getHighestPrio_spec dom s R Q :
  bitmap_at s dom R → (∃ p, 0 ≤ p < 256 ∧ R p = true) →
  (∀ p, 0 ≤ p < 256 → R p = true → (∀ p', 0 ≤ p' < 256 → R p' = true → p' ≤ p) → Q p s) →
  wp (getHighestPrio dom) Q s.
Proof.
  intros (w1 & row & H1 & H2 & HR) (p0 & Hp0 & HRp0) HQ. pose proof HR as (Hw1 & Hlen & HRi).
  assert (w1 ≠ 0) as Hne1.
  { intros E. rewrite (proj1 (bm_repr_empty _ _ _ HR) E p0 Hp0) in HRp0. done. }
  destruct (highest_bit w1) as (E1 & _ & Hb1); [unfold is_word; lia|done|].
  assert (0 ≤ Z.log2 w1 < 4) as Hl1.
  { split; [apply Z.log2_nonneg|]. apply Z.log2_lt_pow2; lia. }
  destruct (HRi _ Hl1) as (w & Hw & Hww & Hbits & Hz). rewrite Hb1 in Hz.
  symmetry in Hz. apply negb_true_iff in Hz. pose proof Hz as Hne2. apply Z.eqb_neq in Hne2.
  destruct (highest_bit w) as (E2 & Hl2 & Hb2); [done..|].
  apply wp_bind. eapply wp_get_l1; [done|]. apply wp_bind, wp_assert; [by apply negb_true_iff, Z.eqb_neq|].
  rewrite E1. apply wp_bind, wp_invert_l1index; [done|]. apply wp_bind. eapply wp_get_l2; [done..|].
  apply wp_bind, wp_assert; [by rewrite Hz|]. rewrite E2.
  cbv zeta.
  assert (Z.lor (l1index_to_prio (Z.log2 w1)) (Z.log2 w) = 64 * Z.log2 w1 + Z.log2 w) as ->.
  { unfold l1index_to_prio, wordRadix. rewrite Z.shiftl_mul_pow2 by lia. change (2 ^ 6) with 64.
    rewrite wrap_small by (unfold is_word; lia). rewrite lor_add by lia. lia. }
  apply wp_ret, HQ; [lia|by rewrite <-Hbits|].
  intros p' Hp' HRp'. destruct (prio_split p' Hp') as (_ & _ & Hi' & Hj' & Ep').
  destruct (HRi _ Hi') as (w' & Hw' & _ & Hbits' & Hz').
  assert (Z.testbit w' (p' mod 64) = true) as Hb' by (by rewrite Hbits', <-Ep').
  assert (p' / 64 ≤ Z.log2 w1).
  { destruct (Z.le_gt_cases (p' / 64) (Z.log2 w1)); [done|]. rewrite Z.bits_above_log2 in Hz' by lia.
    symmetry in Hz'. apply negb_false_iff, Z.eqb_eq in Hz' as ->. by rewrite Z.bits_0 in Hb'. }
  destruct (decide (p' / 64 = Z.log2 w1)) as [Heq|]; [|lia].
  rewrite Heq in Hw'. simplify_eq.
  destruct (Z.le_gt_cases (p' mod 64) (Z.log2 w)); [lia|].
  by rewrite Z.bits_above_log2 in Hb' by (unfold is_word in *; lia).
Qed.
End lemmas.
