(* ===== verification/ReadyQueues.v ===== *)
(** * The scheduler's queues as a whole

    [sched_inv]: every ready queue holds exactly the threads that are marked
    queued with that domain and priority, the release queue exactly the threads
    marked as being in it, a thread in no queue has no links, and the bitmap
    shows which ready queues are occupied. The enqueue and dequeue
    operations keep it and change only the queue they are about. *)
From stdpp Require Import sorting.
From S2P Require Import Prelude Words Platform State Machine DList RefillList Sporadic Queues QueueSpec Bitmap.

(** What the queues depend on of a thread. *)
Record qinfo := QInfo { qi_queued : bool; qi_release : bool; qi_dom : Z; qi_prio : Z }.
Definition qinfo_of (t : tcb) : qinfo :=
  QInfo (tcbQueued (tcbState t)) (tcbInReleaseQueue (tcbState t)) (tcbDomain t) (tcbPriority t).
Definition qview (s : kstate) (x : Z) : option qinfo := qinfo_of <$> tcbs s !! x.

(** The thread at [x] is marked as ready in domain [dom] at priority [prio],
    or as waiting for its release. *)
Definition ready (V : Z → option qinfo) (dom prio x : Z) : Prop := ∃ r, V x = Some (QInfo true r dom prio).
Definition awaiting (V : Z → option qinfo) (x : Z) : Prop := ∃ b d p, V x = Some (QInfo b true d p).

Section inv.
Context `{Platform}.

Definition valid_slot (dom prio : Z) : Prop := 0 ≤ dom < numDomains ∧ 0 ≤ prio < 256.
Definition slot (dom prio : Z) : nat := Z.to_nat (dom * 256 + prio).

Definition ready_list (V : Z → option qinfo) (lk : links) (qs : list tcb_queue) (dom prio : Z) (l : list Z) : Prop :=
  ∃ q, qs !! slot dom prio = Some q ∧ dlist lk l q ∧ ∀ x, x ∈ l ↔ ready V dom prio x.
Definition release_list (V : Z → option qinfo) (lk : links) (q : tcb_queue) (l : list Z) : Prop :=
  dlist lk l q ∧ ∀ x, x ∈ l ↔ awaiting V x.

Record queues_ok (V : Z → option qinfo) (lk : links) (qs : list tcb_queue) (rel : tcb_queue) : Prop := {
  qok_slots : ∀ x i, V x = Some i → valid_slot (qi_dom i) (qi_prio i);
  qok_ready : ∀ dom prio, valid_slot dom prio → ∃ l, ready_list V lk qs dom prio l;
  qok_release : ∃ l, release_list V lk rel l;
  qok_excl : ∀ x i, V x = Some i → qi_queued i && qi_release i = false;
  qok_free : ∀ x i, V x = Some i → qi_queued i = false → qi_release i = false → lk x = Some (NULL, NULL)
}.

Definition bitmaps_ok (s : kstate) (V : Z → option qinfo) : Prop :=
  ∀ dom, 0 ≤ dom < numDomains → ∃ R, bitmap_at s dom R ∧
    ∀ p, 0 ≤ p < 256 → R p = true ↔ ∃ x, ready V dom p x.

Definition sched_inv (s : kstate) : Prop :=
  queues_ok (qview s) (sched_links s) (ksReadyQueues s) (ksReleaseQueue s) ∧ bitmaps_ok s (qview s) ∧
  numDomains * 256 < 2 ^ 64 ∧ tcbs s !! NULL = None.

(** The queues by name, and what it means that an operation leaves all but one alone. *)
Inductive qname := Qready (dom prio : Z) | Qrelease.
Definition queue_holds (s : kstate) (n : qname) (l : list Z) : Prop :=
  match n with
  | Qready d p => ready_list (qview s) (sched_links s) (ksReadyQueues s) d p l
  | Qrelease => release_list (qview s) (sched_links s) (ksReleaseQueue s) l
  end.
Definition valid_queue (n : qname) : Prop :=
  match n with Qready d p => valid_slot d p | Qrelease => True end.
Definition others_kept (n : qname) (s s' : kstate) : Prop :=
  ∀ n' l, n' ≠ n → valid_queue n' → queue_holds s n' l → queue_holds s' n' l.

Lemma ready_slot_inj d p d' p' : valid_slot d p → valid_slot d' p' → slot d p = slot d' p' → d = d' ∧ p = p'.
Proof. unfold valid_slot, slot. intros. lia. Qed.

Lemma not_in_other_queue V x i d p : V x = Some i → (d, p) ≠ (qi_dom i, qi_prio i) → ¬ ready V d p x.
Proof. intros Hx Hne (r & Hr). by simplify_eq. Qed.

(** Replace the ready list of one slot, when [x] enters or leaves it. *)
Lemma queues_ok_ready_step V lk qs rel V' lk' q' dom prio x b b' l l' :
  queues_ok V lk qs rel → valid_slot dom prio →
  V x = Some (QInfo b false dom prio) → V' x = Some (QInfo b' false dom prio) →
  (∀ y, y ≠ x → V' y = V y) →
  ready_list V lk qs dom prio l → dlist lk' l' q' →
  (∀ y, y ∈ l' ↔ (y ≠ x ∧ y ∈ l) ∨ (y = x ∧ b' = true)) →
  (∀ y, y ∉ l → y ≠ x → lk' y = lk y) →
  (b' = false → lk' x = Some (NULL, NULL)) →
  queues_ok V' lk' (<[slot dom prio := q']> qs) rel.
Proof.
  intros [Hslots Hready Hrel Hexcl Hfree] Hvs HVx HVx' HVy (q & Hq & Hdl & Hmem) Hdl' Hmem' Hlk Hlkx.
  assert (∀ y, y ∈ l → ready V dom prio y) as Hl by (by intros y ?; apply Hmem).
  split.
  - intros y i Hy. destruct (decide (y = x)) as [->|]; [by rewrite HVx' in Hy; simplify_eq|].
    rewrite HVy in Hy by done. eauto.
  - intros d p Hdp. destruct (decide ((d, p) = (dom, prio))) as [[= -> ->]|Hne].
    + exists l', q'. rewrite list_lookup_insert_eq by (by eapply lookup_lt_Some). split_and!; [done..|].
      intros y. rewrite Hmem'. destruct (decide (y = x)) as [->|Hyx].
      * unfold ready. rewrite HVx'. naive_solver.
      * unfold ready. rewrite HVy, Hmem by done. unfold ready. naive_solver.
    + destruct (Hready d p Hdp) as (l0 & q0 & Hq0 & Hdl0 & Hm0). exists l0, q0.
      rewrite list_lookup_insert_ne by (intros E; apply Hne; destruct (ready_slot_inj dom prio d p) as [-> ->]; done).
      split_and!; [done| |].
      * eapply dlist_frame; [|done]. intros y Hy%Hm0. apply Hlk.
        -- intros (r & Hr)%Hl. destruct Hy as (r' & Hr'). rewrite Hr in Hr'. by simplify_eq.
        -- intros ->. destruct Hy as (r & Hr). rewrite HVx in Hr. by simplify_eq.
      * intros y. rewrite Hm0. destruct (decide (y = x)) as [->|]; unfold ready; [|by rewrite HVy].
        rewrite HVx, HVx'. split; intros (r & Hr); simplify_eq.
  - destruct Hrel as (lr & Hdr & Hmr). exists lr. split.
    + eapply dlist_frame; [|done]. intros y Hy%Hmr. destruct Hy as (b0 & d0 & p0 & Hy). apply Hlk.
      * intros (r & Hr)%Hl. rewrite Hy in Hr. simplify_eq. by specialize (Hexcl _ _ Hy).
      * intros ->. rewrite HVx in Hy. done.
    + intros y. rewrite Hmr. unfold awaiting. destruct (decide (y = x)) as [->|]; [|by rewrite HVy].
      rewrite HVx, HVx'. naive_solver.
  - intros y i Hy. destruct (decide (y = x)) as [->|]; [|rewrite HVy in Hy by done; eauto].
    rewrite HVx' in Hy. simplify_eq. by apply andb_false_r.
  - intros y i Hy Hb Hr. destruct (decide (y = x)) as [->|Hyx].
    + rewrite HVx' in Hy. simplify_eq. auto.
    + rewrite HVy in Hy by done. rewrite Hlk; [eauto| |done].
      intros (r & Hr')%Hl. rewrite Hy in Hr'. by simplify_eq.
Qed.

(** Replace the release queue, when [x] enters or leaves it. *)
Lemma queues_ok_release_step V lk qs rel V' lk' rel' dom prio x b b' l l' :
  queues_ok V lk qs rel →
  V x = Some (QInfo false b dom prio) → V' x = Some (QInfo false b' dom prio) →
  (∀ y, y ≠ x → V' y = V y) →
  release_list V lk rel l → dlist lk' l' rel' →
  (∀ y, y ∈ l' ↔ (y ≠ x ∧ y ∈ l) ∨ (y = x ∧ b' = true)) →
  (∀ y, y ∉ l → y ≠ x → lk' y = lk y) →
  (b' = false → lk' x = Some (NULL, NULL)) →
  queues_ok V' lk' qs rel'.
Proof.
  intros [Hslots Hready Hrel Hexcl Hfree] HVx HVx' HVy [Hdl Hmem] Hdl' Hmem' Hlk Hlkx.
  assert (∀ y, y ∈ l → awaiting V y) as Hl by (by intros y ?; apply Hmem).
  split.
  - intros y i Hy. destruct (decide (y = x)) as [->|]; [|rewrite HVy in Hy by done; eauto].
    rewrite HVx' in Hy. simplify_eq. by apply (Hslots _ _ HVx).
  - intros d p Hdp. destruct (Hready d p Hdp) as (l0 & q0 & Hq0 & Hdl0 & Hm0). exists l0, q0.
    split_and!; [done| |].
    + eapply dlist_frame; [|done]. intros y Hy%Hm0. destruct Hy as (r & Hr). apply Hlk.
      * intros (b0 & d0 & p0 & Hy)%Hl. rewrite Hr in Hy. simplify_eq. by specialize (Hexcl _ _ Hr).
      * intros ->. rewrite HVx in Hr. done.
    + intros y. rewrite Hm0. unfold ready. destruct (decide (y = x)) as [->|]; [|by rewrite HVy].
      rewrite HVx, HVx'. split; intros (r & Hr); simplify_eq.
  - exists l'. split; [done|]. intros y. rewrite Hmem'. unfold awaiting.
    destruct (decide (y = x)) as [->|Hyx]; [rewrite HVx'; naive_solver|].
    rewrite HVy, Hmem by done. unfold awaiting. naive_solver.
  - intros y i Hy. destruct (decide (y = x)) as [->|]; [|rewrite HVy in Hy by done; eauto].
    rewrite HVx' in Hy. by simplify_eq.
  - intros y i Hy Hb Hr. destruct (decide (y = x)) as [->|Hyx].
    + rewrite HVx' in Hy. simplify_eq. auto.
    + rewrite HVy in Hy by done. rewrite Hlk; [eauto| |done].
      intros (b0 & d0 & p0 & Hr')%Hl. rewrite Hy in Hr'. by simplify_eq.
Qed.
Definition member (V : Z → option qinfo) (n : qname) (x : Z) : Prop :=
  match n with Qready d p => ready V d p x | Qrelease => awaiting V x end.

Lemma member_excl V lk qs rel n n' x :
  queues_ok V lk qs rel → n ≠ n' → member V n x → member V n' x → False.
Proof.
  intros Hq Hne. pose proof (qok_excl _ _ _ _ Hq x) as Hex.
  destruct n, n'; simpl; unfold ready, awaiting; naive_solver.
Qed.
Lemma queue_holds_member s n l : queue_holds s n l → ∀ x, x ∈ l ↔ member (qview s) n x.
Proof. destruct n; [by intros (q & ? & ? & Hm) | by intros [? Hm]]. Qed.

(** An operation on the queue [n], which held [l], about the thread [x]. *)
Lemma others_kept_intro s s' n l x :
  queues_ok (qview s) (sched_links s) (ksReadyQueues s) (ksReleaseQueue s) → queue_holds s n l → valid_queue n →
  (∀ y, y ≠ x → qview s' y = qview s y) → (∀ n', n' ≠ n → ¬ member (qview s) n' x ∧ ¬ member (qview s') n' x) →
  (∀ y, y ∉ l → y ≠ x → sched_links s' y = sched_links s y) →
  match n with
  | Qready d p => ksReleaseQueue s' = ksReleaseQueue s ∧ ∃ q', ksReadyQueues s' = <[slot d p := q']> (ksReadyQueues s)
  | Qrelease => ksReadyQueues s' = ksReadyQueues s
  end → others_kept n s s'.
Proof.
  intros Hq Hl Hvn HV Hx Hlk Hqs n' l' Hne Hvn' Hl'.
  pose proof (queue_holds_member _ _ _ Hl) as Hml. pose proof (queue_holds_member _ _ _ Hl') as Hml'.
  assert (∀ y, y ∈ l' → sched_links s' y = sched_links s y) as Hkeep.
  { intros y Hy%Hml'. apply Hlk; [|intros ->; by destruct (Hx n' Hne)].
    intros Hy'%Hml. by eapply (member_excl _ _ _ _ n n'). }
  assert (∀ y, y ∈ l' ↔ member (qview s') n' y) as Hm.
  { intros y. rewrite Hml'. destruct (decide (y = x)) as [->|Hy].
    - destruct (Hx n' Hne). tauto.
    - destruct n'; simpl; unfold ready, awaiting; by rewrite (HV y Hy). }
  destruct n' as [d' p'|].
  - destruct Hl' as (q & Hqq & Hdl & _). exists q. split_and!; [|by eapply dlist_frame|done].
    destruct n as [d p|]; [|by rewrite Hqs]. destruct Hqs as (_ & q' & ->).
    rewrite list_lookup_insert_ne; [done|]. intros E. apply Hne.
    by destruct (ready_slot_inj d p d' p') as [-> ->].
  - destruct Hl' as [Hdl _]. destruct n as [d p|]; [|done]. destruct Hqs as (E & _).
    split; [rewrite E; by eapply dlist_frame|done].
Qed.
End inv.

(** ** The operations *)
(** [s'] is [s] up to the scheduler's queues, bitmaps, links and queue flags. *)
Definition strip_sched (t : tcb) : tcb :=
  clear_sched (set_tcbState (set_tcbQueued false (set_tcbInReleaseQueue false (tcbState t))) t).
Definition erase_sched (s : kstate) : kstate :=
  set_tcbs ∅ (set_ksReadyQueues [] (set_ksReadyQueuesL1Bitmap [] (set_ksReadyQueuesL2Bitmap []
    (set_ksReleaseQueue (TcbQueue NULL NULL) (set_ksReprogram false s))))).
Definition sched_only (s s' : kstate) : Prop :=
  erase_sched s = erase_sched s' ∧ ∀ x, strip_sched <$> tcbs s' !! x = strip_sched <$> tcbs s !! x.

#[global] Instance sched_only_equiv : Equivalence sched_only.
Proof.
  split.
  - by intros s.
  - intros s1 s2 [H1 H2]. by split.
  - intros s1 s2 s3 [H1 H2] [H3 H4]. split; [by rewrite H1|]. intros x. by rewrite H4, H2.
Qed.

Lemma relinked_qview s s' l : relinked clear_sched s s' l → ∀ y, qview s' y = qview s y.
Proof.
  intros (T & -> & HT & _) y. unfold qview; simpl. specialize (HT y).
  destruct (T !! y) as [t'|], (tcbs s !! y) as [t|]; simpl in *; try done.
  apply (inj Some) in HT. f_equal. change (qinfo_of (clear_sched t') = qinfo_of (clear_sched t)). by rewrite HT.
Qed.
Lemma relinked_links s s' l y : relinked clear_sched s s' l → y ∉ l → sched_links s' y = sched_links s y.
Proof. intros (T & -> & _ & HT) Hy. unfold sched_links; simpl. by rewrite HT. Qed.
Lemma relinked_sched_only s s' l : relinked clear_sched s s' l → sched_only s s'.
Proof.
  intros (T & -> & HT & _). split; [done|]. intros x. specialize (HT x).
  assert (∀ o : option tcb, strip_sched <$> o = strip_sched <$> (clear_sched <$> o)) as E by (by intros [?|]).
  rewrite E. simpl. by rewrite HT, <-E.
Qed.
Lemma relinked_queues s s' l : relinked clear_sched s s' l →
  ksReadyQueues s' = ksReadyQueues s ∧ ksReleaseQueue s' = ksReleaseQueue s ∧
  (∀ d R, bitmap_at s d R → bitmap_at s' d R) ∧ dom (tcbs s') = dom (tcbs s).
Proof.
  intros (T & -> & HT & _). split_and!; [done..|]. apply leibniz_equiv. intros x. rewrite !elem_of_dom. simpl.
  specialize (HT x). split; intros [t Ht]; rewrite Ht in HT; simpl in HT.
  - destruct (tcbs s !! x); [by eexists|done].
  - destruct (T !! x); [by eexists|done].
Qed.

(** An update of the queue flags of [x]. *)
Definition flags_only (f : thread_state → thread_state) : Prop :=
  ∀ ts, set_tcbQueued false (set_tcbInReleaseQueue false (f ts)) =
        set_tcbQueued false (set_tcbInReleaseQueue false ts).

Lemma wp_mod_flags s x t f Q :
  tcbs s !! x = Some t → flags_only f →
  (∀ s', (∀ y, qview s' y = if decide (y = x) then Some (qinfo_of (set_tcbState (f (tcbState t)) t)) else qview s y) →
     (∀ y, sched_links s' y = sched_links s y) → sched_only s s' →
     ksReadyQueues s' = ksReadyQueues s → ksReleaseQueue s' = ksReleaseQueue s →
     (∀ d R, bitmap_at s d R → bitmap_at s' d R) → dom (tcbs s') = dom (tcbs s) →
     ksReprogram s' = ksReprogram s → Q () s') →
  wp (mod_ts x f) Q s.
Proof.
  intros Hx Hf HQ. eapply wp_mod_tcb; [done|]. apply HQ; try done.
  - intros y. unfold qview; simpl. case_decide; subst; by simplify_map_eq.
  - intros y. unfold sched_links; simpl. destruct (decide (y = x)) as [->|]; by simplify_map_eq.
  - split; [done|]. intros y. simpl.
    destruct (decide (y = x)) as [->|]; simplify_map_eq; [|done]. unfold strip_sched; simpl. by rewrite Hf.
  - simpl. rewrite dom_insert_L. apply elem_of_dom_2 in Hx. set_solver.
Qed.

Section ops.
Context `{Platform}.

Lemma wp_ready_queues_index dom prio Q s :
  valid_slot dom prio → numDomains * 256 < 2 ^ 64 → Q (dom * 256 + prio) s → wp (ready_queues_index dom prio) Q s.
Proof.
  intros [Hd Hp] Hn HQ. unfold ready_queues_index. change CONFIG_NUM_PRIORITIES with 256.
  destruct (Z.ltb_spec 1 numDomains).
  - rewrite (wrap_small (dom * 256)) by (unfold is_word; lia). rewrite wrap_small by (unfold is_word; lia).
    by apply wp_ret.
  - assert (dom = 0) as -> by lia. by apply wp_bind, wp_assert, wp_ret.
Qed.
Lemma wp_get_ready_queue dom prio q Q s :
  ksReadyQueues s !! slot dom prio = Some q → Q q s → wp (get_ready_queue (dom * 256 + prio)) Q s.
Proof. intros Hq HQ. apply wp_bind, wp_gets. by eapply wp_deref. Qed.
Lemma wp_set_ready_queue dom prio q q' Q s :
  ksReadyQueues s !! slot dom prio = Some q →
  Q () (set_ksReadyQueues (<[slot dom prio := q']> (ksReadyQueues s)) s) →
  wp (set_ready_queue (dom * 256 + prio) q') Q s.
Proof. intros Hq HQ. apply wp_bind. by eapply wp_get_ready_queue. Qed.

(** The bitmap follows the queue of one slot. *)
Lemma bitmaps_ok_step s s' V V' dom prio x b b' (l' : list Z) R R' :
  bitmaps_ok s V → valid_slot dom prio →
  V x = Some (QInfo b false dom prio) → V' x = Some (QInfo b' false dom prio) →
  (∀ y, y ≠ x → V' y = V y) →
  (∀ y, y ∈ l' ↔ ready V' dom prio y) →
  bitmap_at s dom R → (∀ p, 0 ≤ p < 256 → R p = true ↔ ∃ x, ready V dom p x) →
  bitmap_at s' dom R' → (∀ p, 0 ≤ p < 256 → p ≠ prio → R' p = R p) → (R' prio = true ↔ l' ≠ []) →
  (∀ d R, 0 ≤ d → d ≠ dom → bitmap_at s d R → bitmap_at s' d R) →
  bitmaps_ok s' V'.
Proof.
  intros Hbm [Hvd Hvp] HVx HVx' HVy Hl' HR HRr HR' HRp HRprio Hother d Hd.
  destruct (decide (d = dom)) as [->|Hne].
  - exists R'. split; [done|]. intros p Hp. destruct (decide (p = prio)) as [->|Hpp].
    + rewrite HRprio. split.
      * destruct l' as [|y l']; [done|]. intros _. exists y. apply Hl'. by left.
      * intros [y Hy%Hl'] ->. by apply elem_of_nil in Hy.
    + rewrite HRp, HRr by done. split; intros [y [r Hy]]; exists y, r.
      * rewrite HVy; [done|]. intros ->. rewrite HVx in Hy. by simplify_eq.
      * rewrite <-HVy; [done|]. intros ->. rewrite HVx' in Hy. by simplify_eq.
  - destruct (Hbm d Hd) as (R0 & HR0 & Hm). exists R0. split; [by apply Hother; [lia|..]|].
    intros p Hp. rewrite Hm by done. split; intros [y [r Hy]]; exists y, r.
    + rewrite HVy; [done|]. intros ->. rewrite HVx in Hy. by simplify_eq.
    + rewrite <-HVy; [done|]. intros ->. rewrite HVx' in Hy. by simplify_eq.
Qed.

Lemma ready_list_old s x t l :
  queues_ok (qview s) (sched_links s) (ksReadyQueues s) (ksReleaseQueue s) →
  tcbs s !! x = Some t → tcbQueued (tcbState t) = true →
  ready_list (qview s) (sched_links s) (ksReadyQueues s) (tcbDomain t) (tcbPriority t) l → x ∈ l.
Proof.
  intros Hq Hx Hqd (q & _ & _ & Hm). apply Hm. exists (tcbInReleaseQueue (tcbState t)).
  unfold qview. rewrite Hx. simpl. unfold qinfo_of. by rewrite Hqd.
Qed.

(** The bitmap of domain [d], when the queue at priority [p] is [l]. *)
Definition ready_bits (s : kstate) (d p : Z) (l : list Z) (R : Z → bool) : Prop :=
  bitmap_at s d R ∧ (∀ p', 0 ≤ p' < 256 → R p' = true ↔ ∃ x, ready (qview s) d p' x) ∧ (R p = true ↔ l ≠ []).

Lemma ready_bits_exist s d p l :
  sched_inv s → valid_slot d p →
  ready_list (qview s) (sched_links s) (ksReadyQueues s) d p l → ∃ R, ready_bits s d p l R.
Proof.
  intros (_ & Hbm & _) Hvs (q & _ & _ & Hm). destruct (Hbm d) as (R & HR & HRm); [apply Hvs|].
  exists R. split_and!; [done..|]. rewrite HRm by apply Hvs. split.
  - intros [y Hy%Hm] ->. by apply elem_of_nil in Hy.
  - destruct l as [|y l]; [done|]. intros _. exists y. apply Hm. by left.
Qed.

(** What the three operations establish about the state they leave. *)
Lemma sched_inv_ready_step s s' x t d p b b' l l' q' R R' :
  sched_inv s → tcbs s !! x = Some t → qinfo_of t = QInfo b false d p →
  ready_list (qview s) (sched_links s) (ksReadyQueues s) d p l →
  (∀ y, qview s' y = if decide (y = x) then Some (QInfo b' false d p) else qview s y) →
  ksReadyQueues s' = <[slot d p := q']> (ksReadyQueues s) → ksReleaseQueue s' = ksReleaseQueue s →
  dlist (sched_links s') l' q' →
  (∀ y, y ∈ l' ↔ (y ≠ x ∧ y ∈ l) ∨ (y = x ∧ b' = true)) →
  (∀ y, y ∉ l → y ≠ x → sched_links s' y = sched_links s y) →
  (b' = false → sched_links s' x = Some (NULL, NULL)) →
  ready_bits s d p l R → bitmap_at s' d R' →
  (∀ p', 0 ≤ p' < 256 → p' ≠ p → R' p' = R p') → (R' p = true ↔ l' ≠ []) →
  (∀ d' R, 0 ≤ d' → d' ≠ d → bitmap_at s d' R → bitmap_at s' d' R) →
  dom (tcbs s') = dom (tcbs s) →
  sched_inv s' ∧ ready_list (qview s') (sched_links s') (ksReadyQueues s') d p l' ∧
  others_kept (Qready d p) s s'.
Proof.
  intros (Hq & Hbm & Hn & Hnull) Hx Hqi Hrl EV Eq Erel Hdl' Hmem Hlk Hlkx
    (HR & HRm & _) HR' HRp' HRp Hother Edom.
  assert (qview s x = Some (QInfo b false d p)) as HVx by (unfold qview; by rewrite Hx; simpl; rewrite Hqi).
  assert (qview s' x = Some (QInfo b' false d p)) as HVx' by (by rewrite EV, decide_True).
  assert (∀ y, y ≠ x → qview s' y = qview s y) as HVy by (intros y ?; by rewrite EV, decide_False).
  assert (valid_slot d p) as Hvs by apply (qok_slots _ _ _ _ Hq _ _ HVx).
  assert (queues_ok (qview s') (sched_links s') (ksReadyQueues s') (ksReleaseQueue s')) as Hq'.
  { rewrite Eq, Erel. by eapply (queues_ok_ready_step (qview s) (sched_links s)). }
  pose proof Hrl as (q & Hqs & Hdl & Hm).
  assert (∀ y, y ∈ l' ↔ ready (qview s') d p y) as Hm'.
  { intros y. rewrite Hmem, Hm. unfold ready. rewrite EV. case_decide; naive_solver. }
  assert (ready_list (qview s') (sched_links s') (ksReadyQueues s') d p l') as Hrl'.
  { exists q'. rewrite Eq. split_and!; [|done..]. apply list_lookup_insert_eq. by eapply lookup_lt_Some. }
  split; [split_and!; [done| |done|]|split; [done|]].
  - by eapply (bitmaps_ok_step s s' (qview s) (qview s') d p x b b' l' R R').
  - apply not_elem_of_dom. rewrite Edom. by apply not_elem_of_dom.
  - eapply (others_kept_intro s s' _ l x); simpl; eauto.
    intros [d0 p0|] Hne; simpl; unfold ready, awaiting; rewrite HVx, HVx'; naive_solver.
Qed.

Lemma qinfo_queued s x t :
  sched_inv s → tcbs s !! x = Some t → tcbQueued (tcbState t) = true →
  qinfo_of t = QInfo true false (tcbDomain t) (tcbPriority t).
Proof.
  intros (Hq & _) Hx Hqd. pose proof (qok_excl _ _ _ _ Hq x (qinfo_of t)) as Hex.
  unfold qview in Hex. rewrite Hx in Hex. specialize (Hex eq_refl). simpl in Hex. rewrite Hqd in Hex.
  simpl in Hex. unfold qinfo_of. by rewrite Hqd, Hex.
Qed.
Lemma valid_slot_of s x t : sched_inv s → tcbs s !! x = Some t → valid_slot (tcbDomain t) (tcbPriority t).
Proof. intros (Hq & _) Hx. apply (qok_slots _ _ _ _ Hq x (qinfo_of t)). unfold qview. by rewrite Hx. Qed.

(** A thread that was relinked and had its flags changed by [f]. *)
Lemma qview_after s s1 s2 x t t1 l f b r d p b' r' :
  tcbs s !! x = Some t → qinfo_of t = QInfo b r d p → relinked clear_sched s s1 l → tcbs s1 !! x = Some t1 →
  (∀ y, qview s2 y = if decide (y = x) then Some (qinfo_of (set_tcbState (f (tcbState t1)) t1)) else qview s1 y) →
  (∀ ts, tcbQueued ts = b → tcbInReleaseQueue ts = r → tcbQueued (f ts) = b' ∧ tcbInReleaseQueue (f ts) = r') →
  ∀ y, qview s2 y = if decide (y = x) then Some (QInfo b' r' d p) else qview s y.
Proof.
  intros Hx Hqi Hr Ht1 EV2 Hf y. pose proof (relinked_qview _ _ _ Hr) as EV1.
  rewrite EV2. case_decide; [|apply EV1].
  specialize (EV1 x). unfold qview in EV1. rewrite Hx, Ht1 in EV1. simpl in EV1. rewrite Hqi in EV1.
  injection EV1 as E1 E2 E3 E4. destruct (Hf _ E1 E2) as [F1 F2].
  unfold qinfo_of; simpl. by rewrite F1, F2, E3, E4.
Qed.

Lemma tcbSchedDequeue_spec s x t l1 l2 Q :
  sched_inv s → tcbs s !! x = Some t → tcbQueued (tcbState t) = true →
  ready_list (qview s) (sched_links s) (ksReadyQueues s) (tcbDomain t) (tcbPriority t) (l1 ++ x :: l2) →
  (∀ s', sched_inv s' → sched_only s s' →
     (∀ y, qview s' y = if decide (y = x) then Some (QInfo false false (tcbDomain t) (tcbPriority t)) else qview s y) →
     ready_list (qview s') (sched_links s') (ksReadyQueues s') (tcbDomain t) (tcbPriority t) (l1 ++ l2) →
     others_kept (Qready (tcbDomain t) (tcbPriority t)) s s' → Q () s') →
  wp (tcbSchedDequeue x) Q s.
Proof.
  intros Hinv Hx Hqd Hrl HQ. pose proof (qinfo_queued _ _ _ Hinv Hx Hqd) as Hqi.
  pose proof (valid_slot_of _ _ _ Hinv Hx) as Hvs.
  set (d := tcbDomain t) in *. set (p := tcbPriority t) in *.
  pose proof Hrl as (q & Hqs & Hdl & _).
  destruct (ready_bits_exist _ _ _ _ Hinv Hvs Hrl) as (R & HR). pose proof HR as (HRd & _ & HRp).
  apply wp_bind. eapply wp_get_tcb; [done|]. rewrite Hqd. simpl. fold d p.
  apply wp_bind, wp_ready_queues_index; [done|apply Hinv|]. apply wp_bind. eapply wp_get_ready_queue; [done|].
  apply wp_bind. eapply wp_tcb_queue_remove; [done|]. intros q' s1 Hdl1 Hr1 Hlx1.
  destruct (relinked_queues _ _ _ Hr1) as (Eq1 & Erl1 & Ebm1 & Edom1).
  destruct (sched_links_lookup _ _ _ _ Hlx1) as (t1 & Ht1 & _).
  apply wp_bind. eapply wp_set_ready_queue; [by rewrite Eq1|].
  apply wp_bind. eapply wp_mod_flags; [done|done|]. intros s2 EV2 El2 Hso2 Eq2 Erl2 Ebm2 Edom2 _.
  assert (∀ y, qview s2 y = if decide (y = x) then Some (QInfo false false d p) else qview s y) as EV.
  { by eapply (qview_after s s1 s2). }
  assert (∀ y, y ∈ l1 ++ l2 ↔ (y ≠ x ∧ y ∈ l1 ++ x :: l2) ∨ (y = x ∧ false = true)) as Hmem.
  { destruct Hdl as (Hnd & _). apply NoDup_app in Hnd as (_ & Hd & Hnd2). apply NoDup_cons in Hnd2 as [? _]. set_solver. }
  assert (sched_only s s2) as Hso by (trans s1; [by eapply relinked_sched_only|by etrans; [|exact Hso2]]).
  assert (∀ y, y ∉ l1 ++ x :: l2 → y ≠ x → sched_links s2 y = sched_links s y) as Hlk.
  { intros y Hy _. rewrite El2. by eapply (relinked_links s s1). }
  assert (dlist (sched_links s2) (l1 ++ l2) q') as Hdl2.
  { eapply dlist_frame; [|exact Hdl1]. intros y _. by rewrite El2. }
  apply wp_when; unfold tcb_queue_empty; rewrite (dlist_empty _ _ _ Hdl1).
  - intros Hemp%bool_decide_eq_true.
    eapply removeFromBitmap_spec; [by apply Ebm2, Ebm1|apply Hvs|apply Hvs|]. intros s3 Hbo HR3.
    pose proof Hbo as (b1 & b2 & -> & _).
    match goal with |- Q _ ?s3 =>
      destruct (sched_inv_ready_step s s3 x t d p true false (l1 ++ x :: l2) (l1 ++ l2) q' R
        (λ p', R p' && negb (p' =? p))) as (Hinv3 & Hrl3 & Hok3); try done end.
    + by simpl; rewrite Eq2; simpl; rewrite Eq1.
    + by simpl; rewrite Erl2.
    + intros _. change (sched_links s2 x = Some (NULL, NULL)). by rewrite El2.
    + intros p' Hp' Hne. simpl. rewrite (proj2 (Z.eqb_neq _ _)) by done. apply andb_true_r.
    + simpl. rewrite Z.eqb_refl, andb_false_r, Hemp. naive_solver.
    + intros d' R' Hd' Hne HR'. eapply bitmap_only_other; [done|done|apply Hvs|done|]. by apply Ebm2, Ebm1.
    + by simpl; rewrite Edom2; simpl; rewrite Edom1.
    + by apply HQ.
  - intros Hemp%bool_decide_eq_false.
    destruct (sched_inv_ready_step s s2 x t d p true false (l1 ++ x :: l2) (l1 ++ l2) q' R R) as (Hinv2 & Hrl2 & Hok2); try done.
    + by rewrite Eq2; simpl; rewrite Eq1.
    + by rewrite Erl2.
    + intros _. by rewrite El2.
    + by apply Ebm2, Ebm1.
    + rewrite HRp. split; [done|]. by destruct l1.
    + intros d' R' _ _ HR'. by apply Ebm2, Ebm1.
    + by rewrite Edom2; simpl; rewrite Edom1.
    + by apply HQ.
Qed.

(** The common part of [tcbSchedEnqueue] and [tcbSchedAppend]; [op] puts [x]
    into the queue. *)
Lemma enqueue_body_spec (op : tcb_queue → Z → K tcb_queue) s x t l l' Q :
  sched_inv s → tcbs s !! x = Some t → tcbQueued (tcbState t) = false → tcbInReleaseQueue (tcbState t) = false →
  ready_list (qview s) (sched_links s) (ksReadyQueues s) (tcbDomain t) (tcbPriority t) l →
  (∀ s1 q Q, dlist (sched_links s1) l q → x ∉ l → x ≠ NULL → sched_links s1 x = Some (NULL, NULL) →
     (∀ q' s', dlist (sched_links s') l' q' → relinked clear_sched s1 s' (x :: l) → Q q' s') → wp (op q x) Q s1) →
  (∀ y, y ∈ l' ↔ y = x ∨ y ∈ l) →
  (∀ s', sched_inv s' → sched_only s s' →
     (∀ y, qview s' y = if decide (y = x) then Some (QInfo true false (tcbDomain t) (tcbPriority t)) else qview s y) →
     ready_list (qview s') (sched_links s') (ksReadyQueues s') (tcbDomain t) (tcbPriority t) l' →
     others_kept (Qready (tcbDomain t) (tcbPriority t)) s s' → Q () s') →
  wp (idx ← ready_queues_index (tcbDomain t) (tcbPriority t);
      queue ← get_ready_queue idx;
      when (tcb_queue_empty queue) (addToBitmap (tcbDomain t) (tcbPriority t));;
      queue ← op queue x;
      set_ready_queue idx queue;;
      mod_ts x (set_tcbQueued true)) Q s.
Proof.
  intros Hinv Hx Hqd Hnr Hrl Hop Hl' HQ.
  assert (qinfo_of t = QInfo false false (tcbDomain t) (tcbPriority t)) as Hqi.
  { unfold qinfo_of. by rewrite Hqd, Hnr. }
  pose proof (valid_slot_of _ _ _ Hinv Hx) as Hvs.
  set (d := tcbDomain t) in *. set (p := tcbPriority t) in *.
  pose proof Hrl as (q & Hqs & Hdl & Hm).
  destruct (ready_bits_exist _ _ _ _ Hinv Hvs Hrl) as (R & HR). pose proof HR as (HRd & _ & HRp).
  assert (qview s x = Some (QInfo false false d p)) as HVx by (unfold qview; by rewrite Hx; simpl; rewrite Hqi).
  assert (x ∉ l) as Hxl by (intros (r & Hr)%Hm; rewrite HVx in Hr; done).
  assert (x ≠ NULL) as Hx0 by (intros ->; destruct Hinv as (_ & _ & _ & ?); by simplify_eq).
  assert (sched_links s x = Some (NULL, NULL)) as Hlx by (destruct Hinv as (Hq & _); by apply (qok_free _ _ _ _ Hq _ _ HVx)).
  apply wp_bind, wp_ready_queues_index; [done|apply Hinv|]. apply wp_bind. eapply wp_get_ready_queue; [done|].
  apply wp_bind, (wp_mono _ (λ _ s1, ∃ b1 b2 R', s1 = set_ksReadyQueuesL1Bitmap b1 (set_ksReadyQueuesL2Bitmap b2 s) ∧
    bitmap_at s1 d R' ∧ (∀ p', 0 ≤ p' < 256 → p' ≠ p → R' p' = R p') ∧ (R' p = true ↔ l' ≠ []) ∧
    (∀ d' R, 0 ≤ d' → d' ≠ d → bitmap_at s d' R → bitmap_at s1 d' R))).
  { assert (l' ≠ []) as Hne by (intros ->; eapply not_elem_of_nil, Hl'; by left).
    apply wp_when; unfold tcb_queue_empty; rewrite (dlist_empty _ _ _ Hdl).
    - intros _. eapply addToBitmap_spec; [done|apply Hvs|apply Hvs|]. intros s1 Hbo HR1.
      pose proof Hbo as (b1 & b2 & -> & _). eexists b1, b2, _. split_and!; [done|exact HR1| | |].
      + intros p' Hp' Hne'. simpl. rewrite (proj2 (Z.eqb_neq _ _)) by done. apply orb_false_r.
      + simpl. rewrite Z.eqb_refl, orb_true_r. done.
      + intros d' R' ???. eapply bitmap_only_other; [done|done|apply Hvs|done|done].
    - intros Hemp%bool_decide_eq_false. exists (ksReadyQueuesL1Bitmap s), (ksReadyQueuesL2Bitmap s), R.
      split_and!; [by destruct s|done|done|by rewrite HRp|done]. }
  intros _ s1 (b1 & b2 & R' & -> & HR' & HRo & HRp' & Hoth).
  apply wp_bind, (Hop _ q); [done..|]. intros q' s2 Hdl2 Hr2.
  destruct (relinked_queues _ _ _ Hr2) as (Eq2 & Erl2 & Ebm2 & Edom2).
  assert (∃ t2, tcbs s2 !! x = Some t2) as [t2 Ht2].
  { apply elem_of_dom. rewrite Edom2. simpl. by eapply elem_of_dom_2. }
  apply wp_bind. eapply wp_set_ready_queue; [by rewrite Eq2|].
  eapply wp_mod_flags; [done|done|]. intros s3 EV3 El3 Hso3 Eq3 Erl3 Ebm3 Edom3 _.
  assert (∀ y, qview s3 y = if decide (y = x) then Some (QInfo true false d p) else qview s y) as EV.
  { by eapply (qview_after (set_ksReadyQueuesL1Bitmap b1 (set_ksReadyQueuesL2Bitmap b2 s)) s2 s3). }
  destruct (sched_inv_ready_step s s3 x t d p false true l l' q' R R') as (Hinv3 & Hrl3 & Hok3); try done.
  - by rewrite Eq3; simpl; rewrite Eq2.
  - by rewrite Erl3; simpl; rewrite Erl2.
  - eapply dlist_frame; [|exact Hdl2]. intros y _. by rewrite El3.
  - intros y. rewrite Hl'. destruct (decide (y = x)); naive_solver.
  - intros y Hy Hyx. rewrite El3. refine (relinked_links _ _ _ y Hr2 _). set_solver.
  - by apply Ebm3, Ebm2.
  - intros d' R0 Hd' Hne HR0. apply Ebm3. simpl. by apply Ebm2, Hoth.
  - by rewrite Edom3; simpl; rewrite Edom2.
  - apply HQ; [done| |done..]. etrans; [|exact Hso3].
    pose proof (relinked_sched_only _ _ _ Hr2) as [E1 E2]. by split.
Qed.

Lemma tcbSchedEnqueue_spec s x t l Q :
  sched_inv s → tcbs s !! x = Some t → tcbQueued (tcbState t) = false → tcbInReleaseQueue (tcbState t) = false →
  isSchedulable x s = Done true s → sc_refill_sufficient (tcbSchedContext t) 0 s = Done true s →
  ready_list (qview s) (sched_links s) (ksReadyQueues s) (tcbDomain t) (tcbPriority t) l →
  (∀ s', sched_inv s' → sched_only s s' →
     (∀ y, qview s' y = if decide (y = x) then Some (QInfo true false (tcbDomain t) (tcbPriority t)) else qview s y) →
     ready_list (qview s') (sched_links s') (ksReadyQueues s') (tcbDomain t) (tcbPriority t) (x :: l) →
     others_kept (Qready (tcbDomain t) (tcbPriority t)) s s' → Q () s') →
  wp (tcbSchedEnqueue x) Q s.
Proof.
  intros Hinv Hx Hqd Hnr Hs Hsuf Hrl HQ.
  apply wp_bind. unfold wp at 1. rewrite Hs. apply wp_bind, wp_assert; [done|].
  apply wp_bind. eapply wp_get_tcb; [done|]. apply wp_bind. unfold wp at 1. rewrite Hsuf.
  apply wp_bind, wp_assert; [done|]. rewrite Hqd. simpl.
  eapply (enqueue_body_spec tcb_queue_prepend); [done..| | |done].
  - intros. by eapply wp_tcb_queue_prepend.
  - intros y. by rewrite elem_of_cons.
Qed.

Lemma tcbSchedAppend_spec s x t l Q :
  sched_inv s → tcbs s !! x = Some t → tcbQueued (tcbState t) = false → tcbInReleaseQueue (tcbState t) = false →
  isSchedulable x s = Done true s → sc_refill_sufficient (tcbSchedContext t) 0 s = Done true s →
  sc_refill_ready (tcbSchedContext t) s = Done true s →
  ready_list (qview s) (sched_links s) (ksReadyQueues s) (tcbDomain t) (tcbPriority t) l →
  (∀ s', sched_inv s' → sched_only s s' →
     (∀ y, qview s' y = if decide (y = x) then Some (QInfo true false (tcbDomain t) (tcbPriority t)) else qview s y) →
     ready_list (qview s') (sched_links s') (ksReadyQueues s') (tcbDomain t) (tcbPriority t) (l ++ [x]) →
     others_kept (Qready (tcbDomain t) (tcbPriority t)) s s' → Q () s') →
  wp (tcbSchedAppend x) Q s.
Proof.
  intros Hinv Hx Hqd Hnr Hs Hsuf Hrdy Hrl HQ.
  apply wp_bind. unfold wp at 1. rewrite Hs. apply wp_bind, wp_assert; [done|].
  apply wp_bind. eapply wp_get_tcb; [done|]. apply wp_bind. unfold wp at 1. rewrite Hsuf.
  apply wp_bind, wp_assert; [done|]. apply wp_bind. unfold wp at 1. rewrite Hrdy.
  apply wp_bind, wp_assert; [done|]. rewrite Hqd. simpl.
  eapply (enqueue_body_spec tcb_queue_append); [done..| | |done].
  - intros. by eapply wp_tcb_queue_append.
  - set_solver.
Qed.

(** ** The release queue *)
Definition ready_time (s : kstate) (x : Z) : option Z :=
  t ← tcbs s !! x; c ← scs s !! tcbSchedContext t; r ← scRefills c !! Z.to_nat (scRefillHead c); Some (rTime r).
Definition rtime (s : kstate) (x : Z) : Z := default 0 (ready_time s x).

(** The release queue holds [l], earliest release first. *)
Definition release_sorted (s : kstate) (l : list Z) : Prop :=
  release_list (qview s) (sched_links s) (ksReleaseQueue s) l ∧
  StronglySorted (λ x y, rtime s x ≤ rtime s y) l ∧ ∀ x, x ∈ l → is_Some (ready_time s x).

Lemma wp_on_sc_read {A} sc c (m : M sched_context A) a Q s :
  scs s !! sc = Some c → m c = Done a c → Q a s → wp (on_sc sc m) Q s.
Proof.
  intros Hc Hm HQ. eapply wp_on_sc; [done|]. unfold wp. rewrite Hm. rewrite insert_id by done.
  by destruct s.
Qed.

Lemma wp_tcbReadyTime s x r Q : ready_time s x = Some r → Q r s → wp (tcbReadyTime x) Q s.
Proof.
  unfold ready_time. intros Hr HQ. destruct (tcbs s !! x) as [t|] eqn:Ht; [|done]. simpl in Hr.
  destruct (scs s !! tcbSchedContext t) as [c|] eqn:Hc; [|done]. simpl in Hr.
  destruct (scRefills c !! _) as [h|] eqn:Hh; [|done]. simplify_eq/=.
  apply wp_bind. eapply wp_get_tcb; [done|]. apply wp_bind. eapply (wp_on_sc_read _ _ _ h); [done| |by apply wp_ret].
  unfold refill_head, refill_index, mbind, M_bind, get_state, deref. by rewrite Hh.
Qed.

Lemma ready_time_relinked s s' : sched_only s s' → ∀ x, ready_time s' x = ready_time s x.
Proof.
  intros [He Hs] x. unfold ready_time. injection He as _ _ Hsc. specialize (Hs x).
  destruct (tcbs s' !! x) as [t'|], (tcbs s !! x) as [t|]; simpl in *; try done.
  injection Hs. congruence.
Qed.

Lemma sched_inv_release_step s s' x t d p b b' l l' :
  sched_inv s → tcbs s !! x = Some t → qinfo_of t = QInfo false b d p →
  release_list (qview s) (sched_links s) (ksReleaseQueue s) l →
  (∀ y, qview s' y = if decide (y = x) then Some (QInfo false b' d p) else qview s y) →
  ksReadyQueues s' = ksReadyQueues s →
  dlist (sched_links s') l' (ksReleaseQueue s') →
  (∀ y, y ∈ l' ↔ (y ≠ x ∧ y ∈ l) ∨ (y = x ∧ b' = true)) →
  (∀ y, y ∉ l → y ≠ x → sched_links s' y = sched_links s y) →
  (b' = false → sched_links s' x = Some (NULL, NULL)) →
  (∀ d R, bitmap_at s d R → bitmap_at s' d R) → dom (tcbs s') = dom (tcbs s) →
  sched_inv s' ∧ release_list (qview s') (sched_links s') (ksReleaseQueue s') l' ∧ others_kept Qrelease s s'.
Proof.
  intros (Hq & Hbm & Hn & Hnull) Hx Hqi Hrl EV Eq Hdl' Hmem Hlk Hlkx Ebm Edom.
  assert (qview s x = Some (QInfo false b d p)) as HVx by (unfold qview; by rewrite Hx; simpl; rewrite Hqi).
  split; [split_and!|split].
  - rewrite Eq. eapply (queues_ok_release_step (qview s) (sched_links s)); try done.
    + by rewrite EV, decide_True.
    + intros y Hy. by rewrite EV, decide_False.
  - intros d' Hd. destruct (Hbm d' Hd) as (R & HR & HRm). exists R. split; [by apply Ebm|].
    intros p' Hp. rewrite HRm by done. split; intros [y [r Hy]]; exists y, r.
    + rewrite EV, decide_False; [done|]. intros ->. rewrite HVx in Hy. done.
    + rewrite EV in Hy. case_decide; done.
  - done.
  - apply not_elem_of_dom. rewrite Edom. by apply not_elem_of_dom.
  - split; [done|]. intros y. destruct Hrl as [_ Hm]. rewrite Hmem, Hm. unfold awaiting. rewrite EV.
    case_decide; naive_solver.
  - eapply (others_kept_intro s s' _ l x); simpl; eauto; [intros y ?; by rewrite EV, decide_False|].
    intros [d0 p0|] Hne; [|done]. simpl; unfold ready. rewrite HVx, EV, decide_True by done. naive_solver.
Qed.

Lemma tcbReleaseRemove_spec s x t l1 l2 Q :
  sched_inv s → tcbs s !! x = Some t → tcbInReleaseQueue (tcbState t) = true →
  release_list (qview s) (sched_links s) (ksReleaseQueue s) (l1 ++ x :: l2) →
  (∀ s', sched_inv s' → sched_only s s' →
     (∀ y, qview s' y = if decide (y = x) then Some (QInfo false false (tcbDomain t) (tcbPriority t)) else qview s y) →
     release_list (qview s') (sched_links s') (ksReleaseQueue s') (l1 ++ l2) →
     (l1 = [] → ksReprogram s' = true) → others_kept Qrelease s s' → Q () s') →
  wp (tcbReleaseRemove x) Q s.
Proof.
  intros Hinv Hx Hr Hrl HQ. pose proof Hinv as (Hq & _). pose proof Hrl as [Hdl Hm].
  assert (qinfo_of t = QInfo false true (tcbDomain t) (tcbPriority t)) as Hqi.
  { pose proof (qok_excl _ _ _ _ Hq x (qinfo_of t)) as Hex. unfold qview in Hex. rewrite Hx in Hex.
    specialize (Hex eq_refl). simpl in Hex. rewrite Hr, andb_true_r in Hex. unfold qinfo_of. by rewrite Hr, Hex. }
  apply wp_bind. eapply wp_get_tcb; [done|]. rewrite Hr. simpl. apply wp_bind, wp_gets.
  apply wp_bind, (wp_mono _ (λ _ s1, ∃ rp, s1 = set_ksReprogram rp s ∧ (l1 = [] → rp = true))).
  { pose proof Hdl as (Hnd & Hseg & Hh & _). apply wp_when; intros Hb.
    - by exists true.
    - exists (ksReprogram s). split; [by destruct s|]. intros ->. rewrite Hh in Hb. simpl in Hb.
      by rewrite Z.eqb_refl in Hb. }
  intros _ s1 (rp & -> & Hrp). apply wp_bind. eapply wp_tcb_queue_remove; [exact Hdl|].
  intros q' s2 Hdl2 Hr2 Hlx2. destruct (relinked_queues _ _ _ Hr2) as (Eq2 & Erl2 & Ebm2 & Edom2).
  destruct (sched_links_lookup _ _ _ _ Hlx2) as (t2 & Ht2 & _).
  apply wp_bind, wp_modify. eapply wp_mod_flags; [done|done|].
  intros s3 EV3 El3 Hso3 Eq3 Erl3 Ebm3 Edom3 Erp3.
  assert (∀ y, qview s3 y = if decide (y = x) then Some (QInfo false false (tcbDomain t) (tcbPriority t)) else qview s y) as EV.
  { by eapply (qview_after (set_ksReprogram rp s) s2 s3). }
  assert (dlist (sched_links s3) (l1 ++ l2) q') as Hdl3.
  { eapply dlist_frame; [|exact Hdl2]. intros y _. by rewrite El3. }
  assert (∀ y, y ∈ l1 ++ l2 ↔ (y ≠ x ∧ y ∈ l1 ++ x :: l2) ∨ (y = x ∧ false = true)) as Hmem.
  { destruct Hdl as (Hnd & _). apply NoDup_app in Hnd as (_ & Hd & Hnd2). apply NoDup_cons in Hnd2 as [? _]. set_solver. }
  assert (sched_only s s3) as Hso.
  { pose proof (relinked_sched_only _ _ _ Hr2) as [E1 E2]. etrans; [|exact Hso3]. by split. }
  destruct (sched_inv_release_step s s3 x t (tcbDomain t) (tcbPriority t) true false (l1 ++ x :: l2) (l1 ++ l2)) as (Hinv3 & Hrl3 & Hok3); try done.
  - by rewrite Eq3; simpl; rewrite Eq2.
  - by rewrite Erl3.
  - intros y Hy _. rewrite El3. by refine (relinked_links _ _ _ y Hr2 _).
  - intros _. by rewrite El3.
  - intros d R HR. by apply Ebm3, Ebm2.
  - by rewrite Edom3; simpl; rewrite Edom2.
  - apply HQ; [done..| |done]. intros Hl1. rewrite Erp3. simpl. destruct Hr2 as (T & -> & _). by apply Hrp.
Qed.

(** Where a thread with release time [r] goes in the release queue. *)
Definition release_position (s : kstate) (r : Z) (l1 l2 : list Z) : Prop :=
  Forall (λ y, rtime s y ≤ r) l1 ∧ Forall (λ y, r < rtime s y) l2.

Lemma find_time_after_spec s l q r Q :
  release_list (qview s) (sched_links s) q l → (∀ x, x ∈ l → is_Some (ready_time s x)) →
  Z.of_nat (length l) < 2 ^ 64 → StronglySorted (λ x y, rtime s x ≤ rtime s y) l →
  (∀ l1 l2, l = l1 ++ l2 → release_position s r l1 l2 → Q (first NULL l2) s) →
  wp (find_time_after (q_head q) r) Q s.
Proof.
  intros [(Hnd & Hseg & -> & _) _] Hrt Hlen Hsort HQ. unfold find_time_after.
  apply (wp_while64_idx (λ n after s', s' = s ∧ ∃ l1 l2, l = l1 ++ l2 ∧ after = first NULL l2 ∧
    Forall (λ y, rtime s y ≤ r) l1 ∧ n = Z.of_nat (length l2)) _ _ (Z.of_nat (length l))); [|by split; [done|exists [], l]|lia].
  intros n after s' Hn (-> & l1 & l2 & -> & -> & Hl1 & ->). apply wp_bind.
  destruct l2 as [|a l2]; simpl.
  { apply wp_ret, wp_ret. by apply (HQ l1 []). }
  apply dseg_app in Hseg as [_ (Ha0 & Hlka & _)]. unfold time_after. rewrite (proj2 (Z.eqb_neq _ _)) by done.
  destruct (Hrt a) as [ra Hra]; [set_solver|]. assert (rtime s a = ra) as Era by (unfold rtime; by rewrite Hra).
  apply wp_bind. eapply wp_tcbReadyTime; [done|]. apply wp_ret.
  destruct (Z.leb_spec ra r) as [Hle|Hgt].
  - destruct (sched_links_lookup _ _ _ _ Hlka) as (ta & Hta & _ & Hnx).
    apply wp_bind. eapply wp_get_tcb; [done|]. apply wp_ret. rewrite Hnx.
    exists (Z.of_nat (length l2)). split; [lia|]. split; [done|]. exists (l1 ++ [a]), l2.
    rewrite <-app_assoc. split_and!; [done..| |done]. apply Forall_app. split; [done|]. constructor; [lia|done].
  - apply wp_ret, (HQ l1 (a :: l2)); [done|]. split; [done|]. constructor; [lia|].
    apply StronglySorted_app_1_r, StronglySorted_inv in Hsort as [_ Hs].
    eapply Forall_impl; [exact Hs|]. simpl. intros y. lia.
Qed.

Lemma sorted_last_max s l x : StronglySorted (λ x y, rtime s x ≤ rtime s y) (l ++ [x]) →
  Forall (λ y, rtime s y ≤ rtime s x) l.
Proof. intros Hs. apply Forall_forall. intros y Hy. eapply StronglySorted_app_1_elem_of in Hs; [exact Hs|done|by left]. Qed.

Lemma sorted_insert s x r l1 l2 :
  rtime s x = r → StronglySorted (λ x y, rtime s x ≤ rtime s y) (l1 ++ l2) → release_position s r l1 l2 →
  StronglySorted (λ x y, rtime s x ≤ rtime s y) (l1 ++ x :: l2).
Proof.
  intros Hr (H12 & H1 & H2)%StronglySorted_app [Hp1 Hp2]. rewrite Forall_forall in Hp1, Hp2.
  apply StronglySorted_app. split_and!; [|done|].
  - intros y z Hy Hz. apply elem_of_cons in Hz as [->|Hz]; [rewrite Hr; auto|auto].
  - constructor; [done|]. apply Forall_forall. intros z Hz. specialize (Hp2 z Hz). simpl in *. lia.
Qed.

(** The three ways [tcbReleaseEnqueue] links a thread into the queue. *)
Lemma release_link_spec s x t r l Q :
  sched_inv s → tcbs s !! x = Some t → qinfo_of t = QInfo false false (tcbDomain t) (tcbPriority t) →
  release_sorted s l → Z.of_nat (length l) < 2 ^ 64 → ready_time s x = Some r →
  (∀ s1 q' l1 l2, l = l1 ++ l2 → release_position s r l1 l2 → relinked clear_sched s s1 (x :: l) →
     dlist (sched_links s1) (l1 ++ x :: l2) q' → Q () (set_ksReleaseQueue q' s1)) →
  wp (front ← (if tcb_queue_empty (ksReleaseQueue s) then mret true
           else r' ← tcbReadyTime (q_head (ksReleaseQueue s)); mret (r <? r'));
  (if front : bool then
     q ← tcb_queue_prepend (ksReleaseQueue s) x; modify (set_ksReleaseQueue q)
   else
     r' ← tcbReadyTime (q_end (ksReleaseQueue s));
     if r' <=? r then
       q ← tcb_queue_append (ksReleaseQueue s) x; modify (set_ksReleaseQueue q)
     else
       after ← find_time_after (q_head (ksReleaseQueue s)) r;
       tcb_queue_insert x after)) Q s.
Proof.
  intros (Hq & _ & _ & Hnull) Hx Hqi (Hrl & Hsort & Hrt) Hlen Hr HQ. pose proof Hrl as [Hdl Hm].
  assert (qview s x = Some (QInfo false false (tcbDomain t) (tcbPriority t))) as HVx
    by (unfold qview; by rewrite Hx; simpl; rewrite Hqi).
  assert (x ∉ l) as Hxl by (intros (b0 & d0 & p0 & Hy)%Hm; rewrite HVx in Hy; done).
  assert (x ≠ NULL) as Hx0 by (intros ->; by simplify_eq).
  assert (sched_links s x = Some (NULL, NULL)) as Hlx by (by apply (qok_free _ _ _ _ Hq _ _ HVx)).
  apply wp_bind. unfold tcb_queue_empty. rewrite (dlist_empty _ _ _ Hdl).
  destruct l as [|h l]; simpl.
  { apply wp_ret, wp_bind. eapply wp_tcb_queue_prepend; [done..|]. intros q' s1 Hdl1 Hr1.
    apply wp_modify. by apply (HQ s1 q' [] []). }
  destruct (Hrt h) as [rh Hrh]; [by left|]. assert (rtime s h = rh) as Erh by (unfold rtime; by rewrite Hrh).
  pose proof Hdl as (_ & _ & Hqh & Hqe). simpl in Hqh. rewrite Hqh.
  apply wp_bind. eapply wp_tcbReadyTime; [done|]. apply wp_ret.
  destruct (Z.ltb_spec r rh) as [Hlt|Hge].
  { apply wp_bind. eapply wp_tcb_queue_prepend; [done..|]. intros q' s1 Hdl1 Hr1.
    apply wp_modify. apply (HQ s1 q' [] (h :: l)); [done| |done|done]. split; [done|].
    apply StronglySorted_inv in Hsort as [_ Hs]. constructor; [lia|].
    eapply Forall_impl; [exact Hs|]. simpl. intros y. lia. }
  assert (∃ l0 e, h :: l = l0 ++ [e]) as (l0 & e & Hle).
  { destruct (exists_last (l := h :: l)) as (l0 & e & ->); [done|]. eauto. }
  rewrite Hle in Hqe. rewrite final_snoc in Hqe. rewrite Hqe.
  destruct (Hrt e) as [re Hre]; [rewrite Hle; set_solver|]. assert (rtime s e = re) as Ere by (unfold rtime; by rewrite Hre).
  apply wp_bind. eapply wp_tcbReadyTime; [done|].
  destruct (Z.leb_spec re r) as [Hle'|Hgt].
  { apply wp_bind. eapply wp_tcb_queue_append; [done..|]. intros q' s1 Hdl1 Hr1.
    apply wp_modify. apply (HQ s1 q' (h :: l) []); [by rewrite app_nil_r| |done|done]. split; [|done].
    rewrite Hle in *. pose proof (sorted_last_max _ _ _ Hsort) as Hmax. apply Forall_app. split.
    - eapply Forall_impl; [exact Hmax|]. simpl. intros y. lia.
    - constructor; [lia|done]. }
  apply wp_bind. rewrite <-Hqh. eapply find_time_after_spec; [done..|]. intros l1 l2 Hl12 Hpos.
  pose proof Hpos as [Hp1 Hp2]. rewrite Forall_forall in Hp1, Hp2.
  destruct l1 as [|b l1 _] using rev_ind.
  { simpl in Hl12. subst l2. specialize (Hp2 h ltac:(by left)). simpl in Hp2. lia. }
  destruct l2 as [|a l2].
  { rewrite app_nil_r in Hl12. specialize (Hp1 e). rewrite <-Hl12, Hle in Hp1. simpl in Hp1. specialize (Hp1 ltac:(set_solver)). lia. }
  simpl. rewrite Hl12, <-app_assoc in *. simpl in *.
  eapply (wp_tcb_queue_insert _ (ksReleaseQueue s) l1 b a l2); [done..|]. intros s1 Hdl1 Hr1.
  pose proof Hr1 as (T & Es1 & _).
  replace s1 with (set_ksReleaseQueue (ksReleaseQueue s) s1) by (rewrite Es1; by destruct s).
  apply (HQ s1 _ (l1 ++ [b]) (a :: l2)); [by rewrite <-app_assoc|done|done|by rewrite <-app_assoc].
Qed.

Lemma tcbReleaseEnqueue_spec s x t r l Q :
  sched_inv s → tcbs s !! x = Some t → tcbQueued (tcbState t) = false → tcbInReleaseQueue (tcbState t) = false →
  release_sorted s l → Z.of_nat (length l) < 2 ^ 64 → ready_time s x = Some r →
  (∀ s' l1 l2, l = l1 ++ l2 → release_position s r l1 l2 → sched_inv s' → sched_only s s' →
     (∀ y, qview s' y = if decide (y = x) then Some (QInfo false true (tcbDomain t) (tcbPriority t)) else qview s y) →
     release_sorted s' (l1 ++ x :: l2) → (l1 = [] → ksReprogram s' = true) →
     others_kept Qrelease s s' → Q () s') →
  wp (tcbReleaseEnqueue x) Q s.
Proof.
  intros Hinv Hx Hqd Hnr Hsorted Hlen Hr HQ.
  assert (qinfo_of t = QInfo false false (tcbDomain t) (tcbPriority t)) as Hqi by (unfold qinfo_of; by rewrite Hqd, Hnr).
  apply wp_bind. eapply wp_get_tcb; [done|]. apply wp_bind, wp_assert; [by rewrite Hnr|].
  apply wp_bind, wp_assert; [by rewrite Hqd|]. apply wp_bind, wp_gets.
  apply wp_bind. eapply wp_tcbReadyTime; [done|].
  pose proof (release_link_spec s x t r l) as Hlink.
  match goal with |- wp (?A ≫= λ front, (if front then ?B else ?C) ≫= ?D) _ _ => set (m1 := A); set (m2 := B); set (m3 := C); set (k := D) end.
  assert (wp (m1 ≫= λ front : bool, if front then m2 else m3) (λ u s', wp (k u) Q s') s) as Hgoal.
  2: { by apply (wp_assoc m1 (λ front : bool, if front then m2 else m3) k), wp_bind. }
  apply Hlink; [done..|]. clear Hlink. intros s1 q' l1 l2 -> Hpos Hr1 Hdl1. unfold k.
  destruct Hsorted as (Hrl & Hsort & Hrt).
  destruct (relinked_queues _ _ _ Hr1) as (Eq1 & Erl1 & Ebm1 & Edom1).
  assert (∃ t1, tcbs s1 !! x = Some t1) as [t1 Ht1].
  { apply elem_of_dom. rewrite Edom1. by eapply elem_of_dom_2. }
  apply wp_bind. eapply wp_mod_flags; [done|done|].
  intros s2 EV2 El2 Hso2 Eq2 Erl2 Ebm2 Edom2 Erp2. simpl in *.
  assert (∀ y, qview s2 y = if decide (y = x) then Some (QInfo false true (tcbDomain t) (tcbPriority t)) else qview s y) as EV.
  { by eapply (qview_after s s1 s2). }
  assert (sched_only s s2) as Hso.
  { pose proof (relinked_sched_only _ _ _ Hr1) as [E1 E2]. etrans; [|exact Hso2]. by split. }
  destruct (sched_inv_release_step s s2 x t (tcbDomain t) (tcbPriority t) false true (l1 ++ l2) (l1 ++ x :: l2)) as (Hinv2 & Hrl2 & Hok2); try done.
  - by rewrite Eq2.
  - rewrite Erl2. eapply dlist_frame; [|exact Hdl1]. intros y _. by rewrite El2.
  - intros y. destruct (decide (y = x)); set_solver.
  - intros y Hy Hyx. rewrite El2. refine (relinked_links _ _ _ y Hr1 _). set_solver.
  - intros d R HR. by apply Ebm2, Ebm1.
  - by rewrite Edom2.
  - pose proof (ready_time_relinked _ _ Hso) as Ert.
    assert (release_sorted s2 (l1 ++ x :: l2)) as Hsorted2.
    { split_and!; [done| |].
      - assert (∀ y, rtime s2 y = rtime s y) as Ert' by (intros y; unfold rtime; by rewrite Ert).
        assert (StronglySorted (λ y z, rtime s y ≤ rtime s z) (l1 ++ x :: l2)) as Hs
          by (eapply sorted_insert; [by unfold rtime; rewrite Hr|done..]).
        clear -Hs Ert'. induction Hs; constructor; [done|]. eapply Forall_impl; [done|]. intros y. by rewrite !Ert'.
      - intros y Hy. rewrite Ert. destruct (decide (y = x)) as [->|]; [by rewrite Hr|]. apply Hrt. set_solver. }
    apply wp_bind, wp_gets, wp_when; intros Hb.
    + apply wp_modify, (HQ _ l1 l2); try done.
    + apply (HQ _ l1 l2); try done. intros ->. exfalso.
      apply negb_false_iff, Z.eqb_eq in Hb. rewrite Erl2 in Hb. destruct Hdl1 as (_ & _ & Hh & _). rewrite Hh in Hb.
      destruct Hrl as [(_ & Hseg & Hh0 & _) Hm]. rewrite Hh0 in Hb. simpl in Hb.
      destruct l2 as [|y l2]; simpl in Hb.
      * destruct Hinv as (_ & _ & _ & Hnull). subst x. by simplify_eq.
      * subst y. assert (x ∈ [] ++ x :: l2) as (b0 & d0 & p0 & Hy)%Hm by (by left).
        unfold qview in Hy. rewrite Hx in Hy. simpl in Hy. rewrite Hqi in Hy. done.
Qed.
End ops.

(** ** Extensionality *)
Section ext.
Context `{Platform}.
(** The invariant depends on the queue fields and links of the threads only. *)
Lemma queue_holds_ext s s' n l : (∀ x, qview s' x = qview s x ∧ sched_links s' x = sched_links s x) →
  ksReadyQueues s' = ksReadyQueues s → ksReleaseQueue s' = ksReleaseQueue s → queue_holds s n l → queue_holds s' n l.
Proof.
  intros HV Eq Er Hl. assert (∀ x, x ∈ l ↔ member (qview s') n x) as Hm.
  { intros x. rewrite (queue_holds_member _ _ _ Hl). destruct n; simpl; unfold ready, awaiting; by rewrite (proj1 (HV x)). }
  destruct n as [d p|]; simpl in *.
  - destruct Hl as (q & Hq & Hdl & _). exists q. rewrite Eq. split_and!; [done| |done].
    eapply dlist_frame; [|done]. intros x _. apply HV.
  - destruct Hl as [Hdl _]. rewrite Er. split; [|done]. eapply dlist_frame; [|done]. intros x _. apply HV.
Qed.
Lemma sched_inv_ext s s' : (∀ x, qview s' x = qview s x ∧ sched_links s' x = sched_links s x) →
  ksReadyQueues s' = ksReadyQueues s → ksReleaseQueue s' = ksReleaseQueue s →
  ksReadyQueuesL1Bitmap s' = ksReadyQueuesL1Bitmap s → ksReadyQueuesL2Bitmap s' = ksReadyQueuesL2Bitmap s →
  sched_inv s → sched_inv s'.
Proof.
  intros HV Eq Er E1 E2 ([Hs Hr [l Hrl] Hx Hf] & Hb & Hn & H0).
  assert (∀ d p x, ready (qview s') d p x ↔ ready (qview s) d p x) as Hrd by (intros; unfold ready; by rewrite (proj1 (HV x))).
  split_and!; [split| |done|].
  - intros x i. rewrite (proj1 (HV x)). apply Hs.
  - intros d p Hv. destruct (Hr d p Hv) as [l' Hl']. exists l'. by apply (queue_holds_ext s s' (Qready d p)).
  - exists l. by apply (queue_holds_ext s s' Qrelease).
  - intros x i. rewrite (proj1 (HV x)). apply Hx.
  - intros x i. rewrite (proj1 (HV x)), (proj2 (HV x)). apply Hf.
  - intros d Hd. destruct (Hb d Hd) as (R & HR & HRp). exists R. split.
    + unfold bitmap_at in *. by rewrite E1, E2.
    + intros p Hp. rewrite (HRp p Hp). by setoid_rewrite Hrd.
  - destruct (HV NULL) as [E _]. unfold qview in E. rewrite H0 in E. by destruct (tcbs s' !! NULL).
Qed.
End ext.
