(* ===== verification/CapOps.v ===== *)
(** * Operations on capability values

    The pure part of [kernel/object/objecttype.c], the RISC-V hooks of
    [kernel/arch/riscv/object/objecttype.c] and
    [kernel/include/arch/riscv/arch/object/structures.h], and the zombie
    encoding of [kernel/include/object/structures.h]. A computation that
    may reach [fail] or read a field of the wrong union member is an [option]. *)
From S2P Require Import Prelude Words Platform State.

(** Turn [None] into a failed assertion of the kernel. *)
Definition lift {A} (o : option A) : K A := λ s,
  match o with Some a => Done a s | None => Stuck AssertFailed end.

(** ** Object types *)
Definition seL4_UntypedObject : Z := 0.
Definition seL4_TCBObject : Z := 1.
Definition seL4_EndpointObject : Z := 2.
Definition seL4_NotificationObject : Z := 3.
Definition seL4_CapTableObject : Z := 4.
Definition seL4_SchedContextObject : Z := 5.
Definition seL4_ReplyObject : Z := 6.
Definition seL4_NonArchObjectTypeCount : Z := 7.
Definition seL4_RISCV_Giga_Page : Z := 7.
Definition seL4_RISCV_4K_Page : Z := 8.
Definition seL4_RISCV_Mega_Page : Z := 9.
Definition seL4_RISCV_PageTableObject : Z := 10.
Definition seL4_ObjectTypeCount : Z := 11.

Definition seL4_PageBits : Z := 12.
Definition seL4_LargePageBits : Z := 21.
Definition seL4_HugePageBits : Z := 30.
Definition PT_SIZE_BITS : Z := 12.
Definition seL4_ASIDPoolBits : Z := 12.
Definition asidInvalid : Z := 0.
Definition RISCV_4K_Page : Z := 0.
Definition RISCV_Mega_Page : Z := 1.
Definition RISCV_Giga_Page : Z := 2.
Definition VMKernelOnly : Z := 1.
Definition VMReadOnly : Z := 2.
Definition VMReadWrite : Z := 3.

(** ** Rights: [seL4_CapRights] *)
Definition seL4_CapRights_get_capAllowWrite (r : Z) : bool := Z.testbit r 0.
Definition seL4_CapRights_get_capAllowRead (r : Z) : bool := Z.testbit r 1.
Definition seL4_CapRights_get_capAllowGrant (r : Z) : bool := Z.testbit r 2.
Definition seL4_CapRights_get_capAllowGrantReply (r : Z) : bool := Z.testbit r 3.

(** ** Zombies *)
Definition ZombieType_ZombieTCB : Z := BIT wordRadix.
Definition ZombieType_ZombieCNode (n : Z) : Z := Z.land n (MASK wordRadix).

Definition Zombie_new (number type ptr : Z) : cap :=
  let mask := if type =? ZombieType_ZombieTCB then MASK (TCB_CNODE_RADIX + 1) else MASK (type + 1) in
  cap_zombie_cap (Z.lor (Z.land ptr (wnot mask)) (Z.land number mask)) type.

Definition zombie_bits (type : Z) : Z :=
  if type =? ZombieType_ZombieTCB then TCB_CNODE_RADIX else ZombieType_ZombieCNode type.

Definition cap_zombie_cap_get_capZombieBits (c : cap) : option Z :=
  match c with cap_zombie_cap _ type => Some (zombie_bits type) | _ => None end.
Definition cap_zombie_cap_get_capZombieNumber (c : cap) : option Z :=
  match c with
  | cap_zombie_cap id type => Some (Z.land id (MASK (zombie_bits type + 1)))
  | _ => None
  end.
Definition cap_zombie_cap_get_capZombiePtr (c : cap) : option Z :=
  match c with
  | cap_zombie_cap id type => Some (Z.land id (wnot (MASK (zombie_bits type + 1))))
  | _ => None
  end.
Definition cap_zombie_cap_set_capZombieNumber (c : cap) (n : Z) : option cap :=
  match c with
  | cap_zombie_cap id type =>
    let radix := zombie_bits type in
    let ptr := Z.land id (wnot (MASK (radix + 1))) in
    Some (cap_zombie_cap (Z.lor ptr (Z.land n (MASK (radix + 1)))) type)
  | _ => None
  end.

(** ** The architecture's part *)
Definition pageBitsForSize (pagesize : Z) : option Z :=
  if pagesize =? RISCV_4K_Page then Some seL4_PageBits
  else if pagesize =? RISCV_Mega_Page then Some seL4_LargePageBits
  else if pagesize =? RISCV_Giga_Page then Some seL4_HugePageBits
  else None.

Definition cap_get_archCapIsPhysical (c : cap) : bool :=
  match c with
  | cap_frame_cap _ _ _ _ _ _ | cap_page_table_cap _ _ _ _ | cap_asid_pool_cap _ _ => true
  | _ => false
  end.

Definition cap_get_archCapSizeBits (c : cap) : option Z :=
  match c with
  | cap_frame_cap _ _ capFSize _ _ _ => pageBitsForSize capFSize
  | cap_page_table_cap _ _ _ _ => Some PT_SIZE_BITS
  | cap_asid_control_cap => Some 0
  | cap_asid_pool_cap _ _ => Some seL4_ASIDPoolBits
  | _ => None
  end.

Definition cap_get_archCapPtr (c : cap) : option Z :=
  match c with
  | cap_frame_cap _ capFBasePtr _ _ _ _ => Some capFBasePtr
  | cap_page_table_cap _ capPTBasePtr _ _ => Some capPTBasePtr
  | cap_asid_control_cap => Some NULL
  | cap_asid_pool_cap _ capASIDPool => Some capASIDPool
  | _ => None
  end.

Definition Arch_isCapRevocable (derivedCap srcCap : cap) : bool := false.
Definition Arch_isIRQControlDescendant (c : cap) : bool := false.
Definition Arch_isMDBParentOf (cap_a cap_b : cap) (firstBadged : bool) : bool := true.
Definition Arch_updateCapData (preserve : bool) (data : Z) (c : cap) : cap := c.

Definition maskVMRights (vm_rights cap_rights_mask : Z) : Z :=
  let allowRead := seL4_CapRights_get_capAllowRead cap_rights_mask in
  let allowWrite := seL4_CapRights_get_capAllowWrite cap_rights_mask in
  if (vm_rights =? VMReadOnly) && allowRead then VMReadOnly
  else if (vm_rights =? VMReadWrite) && allowRead then
    if negb allowWrite then VMReadOnly else VMReadWrite
  else VMKernelOnly.

Definition Arch_maskCapRights (cap_rights_mask : Z) (c : cap) : cap :=
  match c with
  | cap_frame_cap asid base size rights dev addr =>
    cap_frame_cap asid base size (maskVMRights rights cap_rights_mask) dev addr
  | _ => c
  end.

Definition Arch_sameRegionAs (cap_a cap_b : cap) : option bool :=
  match cap_a, cap_b with
  | cap_frame_cap _ botA sizeA _ _ _, cap_frame_cap _ botB sizeB _ _ _ =>
    bitsA ← pageBitsForSize sizeA; bitsB ← pageBitsForSize sizeB;
    let topA := botA +w MASK bitsA in
    let topB := botB +w MASK bitsB in
    Some ((botA <=? botB) && (topB <=? topA) && (botB <=? topB))
  | cap_page_table_cap _ ptrA _ _, cap_page_table_cap _ ptrB _ _ => Some (ptrA =? ptrB)
  | cap_asid_control_cap, cap_asid_control_cap => Some true
  | cap_asid_pool_cap _ poolA, cap_asid_pool_cap _ poolB => Some (poolA =? poolB)
  | _, _ => Some false
  end.

Definition Arch_sameObjectAs (cap_a cap_b : cap) : option bool :=
  match cap_a, cap_b with
  | cap_frame_cap _ botA sizeA _ devA _, cap_frame_cap _ botB sizeB _ devB _ =>
    Some ((botA =? botB) && (sizeA =? sizeB) && eqb devA devB)
  | _, _ => Arch_sameRegionAs cap_a cap_b
  end.

Definition Arch_getObjectSize (t : Z) : option Z :=
  if (t =? seL4_RISCV_4K_Page) || (t =? seL4_RISCV_PageTableObject) then Some seL4_PageBits
  else if t =? seL4_RISCV_Mega_Page then Some seL4_LargePageBits
  else if t =? seL4_RISCV_Giga_Page then Some seL4_HugePageBits
  else None.

Definition Arch_isFrameType (type : Z) : bool :=
  (type =? seL4_RISCV_Giga_Page) || (type =? seL4_RISCV_Mega_Page) || (type =? seL4_RISCV_4K_Page).

Definition Arch_createObject (t regionBase userSize : Z) (deviceMemory : bool) : option cap :=
  if t =? seL4_RISCV_4K_Page then
    Some (cap_frame_cap asidInvalid regionBase RISCV_4K_Page VMReadWrite deviceMemory 0)
  else if t =? seL4_RISCV_Mega_Page then
    Some (cap_frame_cap asidInvalid regionBase RISCV_Mega_Page VMReadWrite deviceMemory 0)
  else if t =? seL4_RISCV_Giga_Page then
    Some (cap_frame_cap asidInvalid regionBase RISCV_Giga_Page VMReadWrite deviceMemory 0)
  else if t =? seL4_RISCV_PageTableObject then
    Some (cap_page_table_cap asidInvalid regionBase false 0)
  else None.

(** ** Generic capability operations *)
Definition getObjectSize (t userObjSize : Z) : option Z :=
  if seL4_NonArchObjectTypeCount <=? t then Arch_getObjectSize t
  else if t =? seL4_TCBObject then Some seL4_TCBBits
  else if t =? seL4_EndpointObject then Some seL4_EndpointBits
  else if t =? seL4_NotificationObject then Some seL4_NotificationBits
  else if t =? seL4_CapTableObject then Some (seL4_SlotBits +w userObjSize)
  else if t =? seL4_UntypedObject then Some userObjSize
  else if t =? seL4_SchedContextObject then Some userObjSize
  else if t =? seL4_ReplyObject then Some seL4_ReplyBits
  else None.

Definition hasCancelSendRights (c : cap) : bool :=
  match c with
  | cap_endpoint_cap _ capCanGrantReply capCanGrant capCanSend capCanReceive _ =>
    capCanSend && capCanReceive && capCanGrantReply && capCanGrant
  | _ => false
  end.

Definition cap_get_capSizeBits (c : cap) : option Z :=
  match c with
  | cap_untyped_cap _ _ capBlockSize _ => Some capBlockSize
  | cap_endpoint_cap _ _ _ _ _ _ => Some seL4_EndpointBits
  | cap_notification_cap _ _ _ _ => Some seL4_NotificationBits
  | cap_cnode_cap capCNodeRadix _ _ _ => Some (capCNodeRadix +w seL4_SlotBits)
  | cap_thread_cap _ => Some seL4_TCBBits
  | cap_zombie_cap _ type =>
    Some (if type =? ZombieType_ZombieTCB then seL4_TCBBits
          else ZombieType_ZombieCNode type +w seL4_SlotBits)
  | cap_null_cap | cap_domain_cap => Some 0
  | cap_reply_cap _ _ => Some seL4_ReplyBits
  | cap_irq_control_cap | cap_sched_control_cap _ | cap_irq_handler_cap _ => Some 0
  | cap_sched_context_cap _ capSCSizeBits => Some capSCSizeBits
  | _ => cap_get_archCapSizeBits c
  end.

Definition cap_get_capIsPhysical (c : cap) : bool :=
  match c with
  | cap_untyped_cap _ _ _ _ | cap_endpoint_cap _ _ _ _ _ _ | cap_notification_cap _ _ _ _
  | cap_cnode_cap _ _ _ _ | cap_thread_cap _ | cap_sched_context_cap _ _
  | cap_zombie_cap _ _ | cap_reply_cap _ _ => true
  | cap_domain_cap | cap_irq_control_cap | cap_sched_control_cap _ | cap_irq_handler_cap _ => false
  | _ => cap_get_archCapIsPhysical c
  end.

(** The address of slot [i] of the CNode that precedes a TCB. *)
Definition TCB_PTR_CTE_PTR (p i : Z) : Z := Z.land p (wnot (MASK seL4_TCBBits)) +w 32 * i.

Definition cap_get_capPtr (c : cap) : option Z :=
  match c with
  | cap_untyped_cap _ _ _ capPtr => Some capPtr
  | cap_endpoint_cap _ _ _ _ _ capEPPtr => Some capEPPtr
  | cap_notification_cap _ _ _ capNtfnPtr => Some capNtfnPtr
  | cap_cnode_cap _ _ _ capCNodePtr => Some capCNodePtr
  | cap_thread_cap capTCBPtr => Some (TCB_PTR_CTE_PTR capTCBPtr 0)
  | cap_zombie_cap _ _ => cap_zombie_cap_get_capZombiePtr c
  | cap_domain_cap => Some NULL
  | cap_reply_cap capReplyPtr _ => Some capReplyPtr
  | cap_irq_control_cap | cap_sched_control_cap _ | cap_irq_handler_cap _ => Some NULL
  | cap_sched_context_cap capSCPtr _ => Some capSCPtr
  | _ => cap_get_archCapPtr c
  end.

Definition isCapRevocable (derivedCap srcCap : cap) : option bool :=
  if isArchCap derivedCap then Some (Arch_isCapRevocable derivedCap srcCap) else
  match derivedCap, srcCap with
  | cap_endpoint_cap badge _ _ _ _ _, cap_endpoint_cap badge' _ _ _ _ _ => Some (negb (badge =? badge'))
  | cap_endpoint_cap _ _ _ _ _ _, _ => None
  | cap_notification_cap badge _ _ _, cap_notification_cap badge' _ _ _ => Some (negb (badge =? badge'))
  | cap_notification_cap _ _ _ _, _ => None
  | cap_irq_handler_cap _, _ => Some (bool_decide (srcCap = cap_irq_control_cap))
  | cap_untyped_cap _ _ _ _, _ => Some true
  | _, _ => Some false
  end.

Definition sameRegionAs (cap_a cap_b : cap) : option bool :=
  match cap_a, cap_b with
  | cap_untyped_cap _ _ capBlockSize aBase, _ =>
    if cap_get_capIsPhysical cap_b then
      bBase ← cap_get_capPtr cap_b; bBits ← cap_get_capSizeBits cap_b;
      let aTop := aBase +w MASK capBlockSize in
      let bTop := bBase +w MASK bBits in
      Some ((aBase <=? bBase) && (bTop <=? aTop) && (bBase <=? bTop))
    else Some false
  | cap_endpoint_cap _ _ _ _ _ ptrA, cap_endpoint_cap _ _ _ _ _ ptrB => Some (ptrA =? ptrB)
  | cap_notification_cap _ _ _ ptrA, cap_notification_cap _ _ _ ptrB => Some (ptrA =? ptrB)
  | cap_cnode_cap radixA _ _ ptrA, cap_cnode_cap radixB _ _ ptrB =>
    Some ((ptrA =? ptrB) && (radixA =? radixB))
  | cap_thread_cap ptrA, cap_thread_cap ptrB => Some (ptrA =? ptrB)
  | cap_reply_cap ptrA _, cap_reply_cap ptrB _ => Some (ptrA =? ptrB)
  | cap_domain_cap, cap_domain_cap => Some true
  | cap_irq_control_cap, (cap_irq_control_cap | cap_irq_handler_cap _) => Some true
  | cap_irq_control_cap, _ => Some (Arch_isIRQControlDescendant cap_b)
  | cap_irq_handler_cap irqA, cap_irq_handler_cap irqB => Some (irqA =? irqB)
  | cap_sched_context_cap ptrA bitsA, cap_sched_context_cap ptrB bitsB =>
    Some ((ptrA =? ptrB) && (bitsA =? bitsB))
  | cap_sched_control_cap _, cap_sched_control_cap _ => Some true
  | _, _ => if isArchCap cap_a && isArchCap cap_b then Arch_sameRegionAs cap_a cap_b else Some false
  end.

Definition sameObjectAs (cap_a cap_b : cap) : option bool :=
  match cap_a with
  | cap_untyped_cap _ _ _ _ => Some false
  | cap_irq_control_cap => Some false
  | _ => if isArchCap cap_a && isArchCap cap_b then Arch_sameObjectAs cap_a cap_b
         else sameRegionAs cap_a cap_b
  end.

Definition seL4_CNode_CapData_get_guardSize (w : Z) : Z := Z.land w (MASK 6).
Definition seL4_CNode_CapData_get_guard (w : Z) : Z := Z.shiftr w 6.

Definition updateCapData (preserve : bool) (newData : Z) (c : cap) : cap :=
  if isArchCap c then Arch_updateCapData preserve newData c else
  match c with
  | cap_endpoint_cap badge cgr cg cs cr ptr =>
    if negb preserve && (badge =? 0) then cap_endpoint_cap newData cgr cg cs cr ptr else cap_null_cap
  | cap_notification_cap badge cr cs ptr =>
    if negb preserve && (badge =? 0) then cap_notification_cap newData cr cs ptr else cap_null_cap
  | cap_cnode_cap radix _ _ ptr =>
    let guardSize := seL4_CNode_CapData_get_guardSize newData in
    if wordBits <? guardSize +w radix then cap_null_cap
    else let guard := Z.land (seL4_CNode_CapData_get_guard newData) (MASK guardSize) in
         cap_cnode_cap radix guardSize guard ptr
  | _ => c
  end.

Definition maskCapRights (cap_rights : Z) (c : cap) : cap :=
  if isArchCap c then Arch_maskCapRights cap_rights c else
  match c with
  | cap_endpoint_cap badge cgr cg cs cr ptr =>
    cap_endpoint_cap badge
      (cgr && seL4_CapRights_get_capAllowGrantReply cap_rights)
      (cg && seL4_CapRights_get_capAllowGrant cap_rights)
      (cs && seL4_CapRights_get_capAllowWrite cap_rights)
      (cr && seL4_CapRights_get_capAllowRead cap_rights) ptr
  | cap_notification_cap badge cr cs ptr =>
    cap_notification_cap badge
      (cr && seL4_CapRights_get_capAllowRead cap_rights)
      (cs && seL4_CapRights_get_capAllowWrite cap_rights) ptr
  | cap_reply_cap ptr cg =>
    cap_reply_cap ptr (cg && seL4_CapRights_get_capAllowGrant cap_rights)
  | _ => c
  end.
