(* ===== verification/CSpace.v ===== *)
(** * Capability spaces

    [kernel/kernel/cspace.c]: decoding a capability address through the guarded
    page tables that CNodes form, and the look-ups built on it. The [_ret]
    structs of [kernel/include/kernel/cspace.h] are tuples of their fields, the
    status first. *)
From S2P Require Import Prelude Words Platform State CapOps.

(** ** Reporting errors to the invoking thread *)
Definition set_error_type (e : seL4_Error) : K unit :=
  modify (λ s, set_current_syscall_error (set_err_type e (current_syscall_error s)) s).
Definition mod_error (f : syscall_error → syscall_error) : K unit :=
  modify (λ s, set_current_syscall_error (f (current_syscall_error s)) s).
Definition set_lookup_fault (f : lookup_fault) : K unit := modify (set_current_lookup_fault f).

(** [current_syscall_error.type = e; return EXCEPTION_SYSCALL_ERROR] *)
Definition syscall_error_ret (e : seL4_Error) : K exception_t :=
  set_error_type e;; mret EXCEPTION_SYSCALL_ERROR.
Definition invalid_argument_ret (n : Z) : K exception_t :=
  set_error_type seL4_InvalidArgument;;
  mod_error (set_invalidArgumentNumber n);; mret EXCEPTION_SYSCALL_ERROR.
Definition invalid_cap_ret (n : Z) : K exception_t :=
  set_error_type seL4_InvalidCapability;;
  mod_error (set_invalidCapNumber n);; mret EXCEPTION_SYSCALL_ERROR.
Definition range_error_ret (lo hi : Z) : K exception_t :=
  set_error_type seL4_RangeError;;
  mod_error (set_rangeErrorMin lo);; mod_error (set_rangeErrorMax hi);;
  mret EXCEPTION_SYSCALL_ERROR.

Definition status_ok (e : exception_t) : bool :=
  match e with EXCEPTION_NONE => true | _ => false end.

(** ** Slots *)
Definition cte_size : Z := BIT seL4_SlotBits.
(** [&base[i]] for a [cte_t *base] *)
Definition cte_index (base i : Z) : Z := base +w cte_size * i.

(** ** Resolving an address *)
Definition resolveAddressBits_step (capptr n_bits0 : Z) : cap * Z →
    K (cap * Z + (exception_t * Z * Z)) := λ '(nodeCap, n_bits),
  match nodeCap with
  | cap_cnode_cap radixBits guardBits capGuard nodePtr =>
    let levelBits := radixBits +w guardBits in
    assert! (negb (levelBits =? 0));;
    let guard := Z.land (Z.shiftr capptr (Z.land (n_bits -w guardBits) (MASK wordRadix))) (MASK guardBits) in
    if (n_bits <? guardBits) || negb (guard =? capGuard) then
      set_lookup_fault (lookup_fault_guard_mismatch capGuard n_bits guardBits);;
      mret (inr (EXCEPTION_LOOKUP_FAULT, NULL, n_bits0))
    else if n_bits <? levelBits then
      set_lookup_fault (lookup_fault_depth_mismatch levelBits n_bits);;
      mret (inr (EXCEPTION_LOOKUP_FAULT, NULL, n_bits0))
    else
      let offset := Z.land (Z.shiftr capptr (n_bits -w levelBits)) (MASK radixBits) in
      let slot := cte_index nodePtr offset in
      if n_bits =? levelBits then mret (inr (EXCEPTION_NONE, slot, 0)) else
      let n_bits := n_bits -w levelBits in
      c ← get_cte slot;
      (match cte_cap c with
       | cap_cnode_cap _ _ _ _ => mret (inl (cte_cap c, n_bits))
       | _ => mret (inr (EXCEPTION_NONE, slot, n_bits))
       end)
  | _ => stuck BadPointer
  end.

Definition resolveAddressBits (nodeCap : cap) (capptr n_bits : Z) : K (exception_t * Z * Z) :=
  match nodeCap with
  | cap_cnode_cap _ _ _ _ => while64 (resolveAddressBits_step capptr n_bits) (nodeCap, n_bits)
  | _ => set_lookup_fault lookup_fault_invalid_root;;
         mret (EXCEPTION_LOOKUP_FAULT, NULL, n_bits)
  end.

Definition lookupSlot (thread capptr : Z) : K (exception_t * Z) :=
  c ← get_cte (TCB_PTR_CTE_PTR thread tcbCTable);
  res ← resolveAddressBits (cte_cap c) capptr wordBits;
  let '(status, slot, _) := res in
  mret (status, slot).

Definition lookupCap (thread cPtr : Z) : K (exception_t * cap) :=
  lu ← lookupSlot thread cPtr;
  let '(status, slot) := lu in
  if negb (status_ok status) then mret (status, cap_null_cap) else
  c ← get_cte slot; mret (EXCEPTION_NONE, cte_cap c).

Definition lookupCapAndSlot (thread cPtr : Z) : K (exception_t * cap * Z) :=
  lu ← lookupSlot thread cPtr;
  let '(status, slot) := lu in
  if negb (status_ok status) then mret (status, cap_null_cap, NULL) else
  c ← get_cte slot; mret (EXCEPTION_NONE, cte_cap c, slot).

Definition failed_lookup (isSource : bool) : K (exception_t * Z) :=
  set_error_type seL4_FailedLookup;;
  mod_error (set_failedLookupWasSource isSource);;
  mret (EXCEPTION_SYSCALL_ERROR, NULL).

Definition lookupSlotForCNodeOp (isSource : bool) (root : cap) (capptr depth : Z) : K (exception_t * Z) :=
  match root with
  | cap_cnode_cap _ _ _ _ =>
    if (depth <? 1) || (wordBits <? depth) then
      e ← range_error_ret 1 wordBits; mret (e, NULL)
    else
      res ← resolveAddressBits root capptr depth;
      let '(status, slot, bitsRemaining) := res in
      if negb (status_ok status) then failed_lookup isSource
      else if negb (bitsRemaining =? 0) then
        set_lookup_fault (lookup_fault_depth_mismatch 0 bitsRemaining);;
        failed_lookup isSource
      else mret (EXCEPTION_NONE, slot)
  | _ => set_lookup_fault lookup_fault_invalid_root;; failed_lookup isSource
  end.

Definition lookupSourceSlot (root : cap) (capptr depth : Z) : K (exception_t * Z) :=
  lookupSlotForCNodeOp true root capptr depth.
Definition lookupTargetSlot (root : cap) (capptr depth : Z) : K (exception_t * Z) :=
  lookupSlotForCNodeOp false root capptr depth.
Definition lookupPivotSlot (root : cap) (capptr depth : Z) : K (exception_t * Z) :=
  lookupSlotForCNodeOp true root capptr depth.
