(* ===== verification/VSpace.v ===== *)
(** * Address spaces

    The part of [kernel/arch/riscv/kernel/vspace.c] the core kernel calls: page
    table entries, the walk of the page tables, the table of address space
    identifiers (ASIDs), installing an address space and removing mappings. The
    invocations of that file are in [MmuInv.v].

    Page tables and ASID pools are arrays of words in memory. A page table entry is
    the 64-bit word of the hardware, with the fields of block [pte] in
    [kernel/include/arch/riscv/arch/64/mode/object/structures.bf]. *)
From S2P Require Import Prelude Words Platform State CapOps CSpace Machine.

Definition CONFIG_PT_LEVELS : Z := 3.
Definition PT_INDEX_BITS : Z := 9.
Definition seL4_PageTableBits : Z := 12.
Definition asidHighBits : Z := 7.
Definition asidLowBits : Z := 9.
Definition nASIDPools : Z := BIT asidHighBits.
Definition ASID_LOW (a : Z) : Z := Z.land a (MASK asidLowBits).
Definition ASID_HIGH (a : Z) : Z := Z.shiftr a asidLowBits.

(** ** Page table entries *)
Definition pte_new (ppn sw dirty accessed global user execute write read valid : Z) : Z :=
  Z.lor (Z.shiftl (Z.land ppn (MASK 44)) 10)
 (Z.lor (Z.shiftl (Z.land sw (MASK 2)) 8)
 (Z.lor (Z.shiftl (Z.land dirty 1) 7)
 (Z.lor (Z.shiftl (Z.land accessed 1) 6)
 (Z.lor (Z.shiftl (Z.land global 1) 5)
 (Z.lor (Z.shiftl (Z.land user 1) 4)
 (Z.lor (Z.shiftl (Z.land execute 1) 3)
 (Z.lor (Z.shiftl (Z.land write 1) 2)
 (Z.lor (Z.shiftl (Z.land read 1) 1) (Z.land valid 1))))))))).
Definition pte_get_ppn (pte : Z) : Z := Z.land (Z.shiftr pte 10) (MASK 44).
Definition pte_get_execute (pte : Z) : bool := Z.testbit pte 3.
Definition pte_get_write (pte : Z) : bool := Z.testbit pte 2.
Definition pte_get_read (pte : Z) : bool := Z.testbit pte 1.
Definition pte_get_valid (pte : Z) : bool := Z.testbit pte 0.
Definition pte_pte_invalid_new : Z := 0.

Definition isPTEPageTable (pte : Z) : bool :=
  pte_get_valid pte && negb (pte_get_read pte || pte_get_write pte || pte_get_execute pte).

Definition RISCVGetWriteFromVMRights (vm_rights : Z) : bool := vm_rights =? VMReadWrite.
Definition RISCVGetReadFromVMRights (vm_rights : Z) : bool := negb (vm_rights =? VMKernelOnly).

Definition makeUserPTE (paddr : Z) (executable : bool) (vm_rights : Z) : Z :=
  let write := RISCVGetWriteFromVMRights vm_rights in
  let read := RISCVGetReadFromVMRights vm_rights in
  if negb read && negb write && negb executable then pte_pte_invalid_new
  else pte_new (Z.shiftr paddr seL4_PageBits) 0 1 1 0 1 (Z.b2z executable) (Z.b2z write) (Z.b2z read) 1.

(** The entry for the page table at a physical address *)
Definition makeTablePTE (paddr : Z) : Z := pte_new (Z.shiftr paddr seL4_PageBits) 0 0 0 0 0 0 0 0 1.

(** ** Access *)
Definition pte_index (pt i : Z) : Z := pt +w 8 * i.
Definition load_pte (p : Z) : K Z := load_word p 0.
Definition store_pte (p pte : Z) : K unit := store_word p 0 pte.

Definition RISCV_GET_LVL_PGSIZE_BITS (n : Z) : Z := PT_INDEX_BITS * (CONFIG_PT_LEVELS - 1 - n) + seL4_PageBits.
Definition RISCV_GET_PT_INDEX (addr n : Z) : Z :=
  Z.land (Z.shiftr addr (RISCV_GET_LVL_PGSIZE_BITS n)) (MASK PT_INDEX_BITS).

Section vspace.
Context `{Platform}.

Definition getPPtrFromHWPTE (pte : Z) : Z := ptrFromPAddr (pte_get_ppn pte <<w seL4_PageTableBits).

(** The loop of [lookupPTSlot]: [level] page tables may follow, each taking
    [PT_INDEX_BITS] more bits of the address. The slot and the bits left. *)
Fixpoint lookupPTSlot_loop (level : nat) (pt vptr ptBitsLeft : Z) : K (Z * Z) :=
  let ptSlot := pte_index pt (Z.land (Z.shiftr vptr ptBitsLeft) (MASK PT_INDEX_BITS)) in
  pte ← load_pte ptSlot;
  match level with
  | S level' =>
    if isPTEPageTable pte
    then lookupPTSlot_loop level' (getPPtrFromHWPTE pte) vptr (ptBitsLeft -w PT_INDEX_BITS)
    else mret (ptSlot, ptBitsLeft)
  | O => mret (ptSlot, ptBitsLeft)
  end.
Definition lookupPTSlot (lvl1pt vptr : Z) : K (Z * Z) :=
  lookupPTSlot_loop (Z.to_nat (CONFIG_PT_LEVELS - 1)) lvl1pt vptr
    (PT_INDEX_BITS * (CONFIG_PT_LEVELS - 1) + seL4_PageBits).

(** ** Address space identifiers *)
Definition riscvKSASIDTable_get (i : Z) : K Z := s ← get_state; deref (riscvKSASIDTable s !! Z.to_nat i).
Definition riscvKSASIDTable_set (i pool : Z) : K unit :=
  _ ← riscvKSASIDTable_get i;
  modify (λ s, set_riscvKSASIDTable (<[Z.to_nat i := pool]> (riscvKSASIDTable s)) s).

Definition findVSpaceForASID (asid : Z) : K (exception_t * Z) :=
  poolPtr ← riscvKSASIDTable_get (ASID_HIGH asid);
  if poolPtr =? NULL then
    set_lookup_fault lookup_fault_invalid_root;; mret (EXCEPTION_LOOKUP_FAULT, NULL)
  else
    vspace_root ← load_word poolPtr (ASID_LOW asid);
    if vspace_root =? NULL then
      set_lookup_fault lookup_fault_invalid_root;; mret (EXCEPTION_LOOKUP_FAULT, NULL)
    else mret (EXCEPTION_NONE, vspace_root).

(** ** Installing an address space *)
Definition setKernelVSpaceRoot : K unit :=
  root ← addrFromKPPtr kernel_root_pageTable; setVSpaceRoot root 0.

Definition setVMRoot (tcb : Z) : K unit :=
  c ← get_cte (TCB_PTR_CTE_PTR tcb tcbVTable);
  match cte_cap c with
  | cap_page_table_cap asid lvl1pt _ _ =>
    find_ret ← findVSpaceForASID asid;
    let '(status, vspace_root) := find_ret in
    if negb (status_ok status) || negb (vspace_root =? lvl1pt) then setKernelVSpaceRoot
    else setVSpaceRoot (addrFromPPtr lvl1pt) asid
  | _ => setKernelVSpaceRoot
  end.

Definition copyGlobalMappings (newLvl1pt : Z) : K unit :=
  for_range (RISCV_GET_PT_INDEX PPTR_BASE 0) (BIT PT_INDEX_BITS) (λ i,
    pte ← load_pte (pte_index kernel_root_pageTable i);
    store_pte (pte_index newLvl1pt i) pte).

(** ** Removing mappings *)
Definition deleteASIDPool (asid_base pool : Z) : K unit :=
  assert! (IS_ALIGNED asid_base asidLowBits);;
  poolPtr ← riscvKSASIDTable_get (ASID_HIGH asid_base);
  when (poolPtr =? pool)
    (riscvKSASIDTable_set (ASID_HIGH asid_base) NULL;;
     cur ← gets ksCurThread;
     setVMRoot cur).

Definition deleteASID (asid vspace : Z) : K unit :=
  poolPtr ← riscvKSASIDTable_get (ASID_HIGH asid);
  if poolPtr =? NULL then mret () else
  root ← load_word poolPtr (ASID_LOW asid);
  when (root =? vspace)
    (store_word poolPtr (ASID_LOW asid) NULL;;
     cur ← gets ksCurThread;
     setVMRoot cur).

(** The loop of [unmapPageTable]: from level [i], with at most [n] levels to go,
    down to [target_pt]. [None] is the early return, otherwise the page table
    reached and the slot that points to it. *)
Fixpoint unmapPageTable_loop (n : nat) (i vptr target_pt ptSlot pt : Z) : K (option (Z * Z)) :=
  match n with
  | O => mret (Some (pt, ptSlot))
  | S n' =>
    if pt =? target_pt then mret (Some (pt, ptSlot)) else
    let ptSlot := pte_index pt (RISCV_GET_PT_INDEX vptr i) in
    pte ← load_pte ptSlot;
    if negb (isPTEPageTable pte) then mret None
    else unmapPageTable_loop n' (i + 1) vptr target_pt ptSlot (getPPtrFromHWPTE pte)
  end.

Definition unmapPageTable (asid vptr target_pt : Z) : K unit :=
  find_ret ← findVSpaceForASID asid;
  let '(status, vspace_root) := find_ret in
  if negb (status_ok status) then mret () else
  assert! (negb (vspace_root =? target_pt));;
  r ← unmapPageTable_loop (Z.to_nat (CONFIG_PT_LEVELS - 1)) 0 vptr target_pt NULL vspace_root;
  match r with
  | None => mret ()
  | Some (pt, ptSlot) =>
    if negb (pt =? target_pt) then mret () else
    assert! (negb (ptSlot =? NULL));;
    store_pte ptSlot (pte_new 0 0 0 0 0 0 0 0 0 0)
  end.

Definition unmapPage (page_size asid vptr pptr : Z) : K unit :=
  find_ret ← findVSpaceForASID asid;
  let '(status, vspace_root) := find_ret in
  if negb (status_ok status) then mret () else
  lu_ret ← lookupPTSlot vspace_root vptr;
  let '(ptSlot, ptBitsLeft) := lu_ret in
  bits ← lift (pageBitsForSize page_size);
  if negb (ptBitsLeft =? bits) then mret () else
  pte ← load_pte ptSlot;
  if negb (pte_get_valid pte) || isPTEPageTable pte ||
     negb (pte_get_ppn pte <<w seL4_PageBits =? addrFromPPtr pptr) then mret ()
  else store_pte ptSlot pte_pte_invalid_new.

(** ** Page faults *)
Definition RISCVInstructionAccessFault : Z := 1.
Definition RISCVLoadAccessFault : Z := 5.
Definition RISCVStoreAccessFault : Z := 7.
Definition RISCVInstructionPageFault : Z := 12.
Definition RISCVLoadPageFault : Z := 13.
Definition RISCVStorePageFault : Z := 15.

Definition handleVMFault (thread vm_faultType : Z) : K exception_t :=
  addr ← read_stval;
  if (vm_faultType =? RISCVLoadPageFault) || (vm_faultType =? RISCVLoadAccessFault) then
    modify (set_current_fault (seL4_Fault_VMFault addr RISCVLoadAccessFault false));; mret EXCEPTION_FAULT
  else if (vm_faultType =? RISCVStorePageFault) || (vm_faultType =? RISCVStoreAccessFault) then
    modify (set_current_fault (seL4_Fault_VMFault addr RISCVStoreAccessFault false));; mret EXCEPTION_FAULT
  else if (vm_faultType =? RISCVInstructionPageFault) || (vm_faultType =? RISCVInstructionAccessFault) then
    modify (set_current_fault (seL4_Fault_VMFault addr RISCVInstructionAccessFault true));; mret EXCEPTION_FAULT
  else fail!.
End vspace.

(** * Installing an address space

    Which address space runs with a thread, as a function of the kernel state, and
    that [setVMRoot] installs it. *)

Section root.
Context `{PlatformOk}.

(** The root page table an ASID is assigned to, [NULL] for none. *)
Definition asid_root (s : kstate) (asid : Z) : Z :=
  match riscvKSASIDTable s !! Z.to_nat (ASID_HIGH asid) with
  | Some pool => if pool =? NULL then NULL else wrap (default 0 (user_mem s !! (pool + 8 * ASID_LOW asid)))
  | None => NULL
  end.
Definition asid_in_range (s : kstate) (asid : Z) : Prop :=
  (Z.to_nat (ASID_HIGH asid) < length (riscvKSASIDTable s))%nat.

Definition kernel_satp : Z := satp_new SATP_MODE 0 (Z.shiftr (kernel_root_pageTable -w KERNEL_ELF_BASE_OFFSET) 12).

(** The address space of a thread: the page table its VSpace slot names, if the
    page table is still the one of its ASID, and the kernel's otherwise. *)
Definition cap_satp (s : kstate) (c : cap) : Z :=
  match c with
  | cap_page_table_cap asid lvl1pt _ _ =>
    if bool_decide (lvl1pt ≠ NULL ∧ asid_root s asid = lvl1pt)
    then satp_new SATP_MODE asid (Z.shiftr (addrFromPPtr lvl1pt) 12) else kernel_satp
  | _ => kernel_satp
  end.

(** The VSpace slot of a thread exists and names an ASID of the table. *)
Definition vroot_ok (s : kstate) (tcb : Z) : Prop :=
  ∃ c, ctes s !! TCB_PTR_CTE_PTR tcb tcbVTable = Some c ∧
    match cte_cap c with cap_page_table_cap asid _ _ _ => asid_in_range s asid | _ => True end.
Definition thread_satp (s : kstate) (tcb : Z) : Z :=
  match ctes s !! TCB_PTR_CTE_PTR tcb tcbVTable with Some c => cap_satp s (cte_cap c) | None => kernel_satp end.

(** Only the translation register and the record of the last failed lookup change. *)
Definition satp_written (w : Z) (s s' : kstate) : Prop :=
  ∃ lf, s' = set_devices (set_dev_satp w (devices s)) (set_current_lookup_fault lf s).

Lemma findVSpaceForASID_spec s asid : asid_in_range s asid →
  findVSpaceForASID asid s =
    if asid_root s asid =? NULL
    then Done (EXCEPTION_LOOKUP_FAULT, NULL) (set_current_lookup_fault lookup_fault_invalid_root s)
    else Done (EXCEPTION_NONE, asid_root s asid) s.
Proof.
  intros [pool Hp]%lookup_lt_is_Some_2. unfold asid_root.
  unfold findVSpaceForASID, riscvKSASIDTable_get, set_lookup_fault, load_word, modify, gets, mbind, M_bind, get_state, deref.
  rewrite Hp. destruct (pool =? NULL); [done|]. simpl. by destruct (_ =? NULL).
Qed.

Lemma setKernelVSpaceRoot_spec s : setKernelVSpaceRoot s = Done () (set_devices (set_dev_satp kernel_satp (devices s)) s).
Proof. unfold setKernelVSpaceRoot, mbind, M_bind. by rewrite kernel_root_paddr. Qed.

Lemma setVMRoot_spec s tcb : vroot_ok s tcb → ∃ s', setVMRoot tcb s = Done () s' ∧ satp_written (thread_satp s tcb) s s'.
Proof.
  intros (c & Hc & Hr). unfold setVMRoot, thread_satp, get_cte, mbind, M_bind, get_state, deref. rewrite Hc.
  assert (∃ s', setKernelVSpaceRoot s = Done () s' ∧ satp_written kernel_satp s s') as Hk.
  { rewrite setKernelVSpaceRoot_spec. eexists; split; [done|]. exists (current_lookup_fault s). by destruct s. }
  destruct (cte_cap c) as [| | | | | | | | | | | | | |asid pt ? ?| |]; try done. simpl.
  rewrite findVSpaceForASID_spec by done. case_bool_decide as Hb.
  - destruct Hb as [Hpt <-]. rewrite (proj2 (Z.eqb_neq _ _) Hpt). simpl. rewrite Z.eqb_refl. simpl.
    eexists; split; [done|]. exists (current_lookup_fault s). by destruct s.
  - destruct (Z.eqb_spec (asid_root s asid) NULL) as [E|E]; simpl.
    + rewrite setKernelVSpaceRoot_spec. eexists; split; [done|]. by eexists.
    + destruct (Z.eqb_spec (asid_root s asid) pt) as [<-|]; [|done]. by destruct Hb.
Qed.
End root.
