(* ===== verification/Thread.v ===== *)
(** * Threads and scheduling decisions

    The part of [kernel/kernel/thread.c] and [kernel/include/kernel/thread.h]
    that decides which thread runs, with the clock and deadline as devices.
    The uniprocessor build has one core, so [NODE_STATE(x)] is the global [x]. *)
From S2P Require Import Prelude Words Platform State Machine DList RefillList Sporadic Queues CapOps CSpace VSpace.

Definition SchedulerAction_ResumeCurrentThread : Z := 0.
Definition SchedulerAction_ChooseNewThread : Z := 1.

Section thread.
Context `{Platform}.

Definition refill_unblock_check (sc : Z) : K unit :=
  now ← gets ksCurTime;
  b ← on_sc sc (refill_unblock_check_sc now);
  when b (modify (set_ksReprogram true)).

Definition sc_sporadic (sc : Z) : K bool :=
  if sc =? NULL then mret false else
  c ← get_sc sc;
  assert! (negb (scSporadic c) || sc_active c);;
  mret (scSporadic c).
Definition sc_constant_bandwidth (sc : Z) : K bool :=
  c ← get_sc sc; mret (negb (scSporadic c)).

(** ** Choosing a thread *)
Definition rescheduleRequired : K unit :=
  action ← gets ksSchedulerAction;
  (if negb (action =? SchedulerAction_ResumeCurrentThread) &&
      negb (action =? SchedulerAction_ChooseNewThread) then
     b ← isSchedulable action;
     when b
       (t ← get_tcb action;
        b ← sc_refill_sufficient (tcbSchedContext t) 0; assert! b;;
        b ← sc_refill_ready (tcbSchedContext t); assert! b;;
        tcbSchedEnqueue action)
   else mret ());;
  modify (set_ksSchedulerAction SchedulerAction_ChooseNewThread).

Definition scheduleTCB (tptr : Z) : K unit :=
  cur ← gets ksCurThread;
  action ← gets ksSchedulerAction;
  when ((tptr =? cur) && (action =? SchedulerAction_ResumeCurrentThread))
    (b ← isSchedulable tptr;
     when (negb b) (modify (set_ksSchedulerAction SchedulerAction_ChooseNewThread))).

Definition setThreadState (tptr : Z) (ts : _thread_state) : K unit :=
  mod_ts tptr (set_tsType ts);;
  scheduleTCB tptr.

Definition setThreadStateBlockedOnReply (tptr reply : Z) : K unit :=
  mod_ts tptr (set_tsType ThreadState_BlockedOnReply);;
  mod_ts tptr (set_replyObject reply);;
  scheduleTCB tptr.

Definition possibleSwitchTo (target : Z) : K unit :=
  t ← get_tcb target;
  when (negb (tcbSchedContext t =? NULL) && negb (tcbInReleaseQueue (tcbState t)))
    (dom ← gets ksCurDomain;
     action ← gets ksSchedulerAction;
     if negb (dom =? tcbDomain t) then tcbSchedEnqueue target
     else if negb (action =? SchedulerAction_ResumeCurrentThread) then
       rescheduleRequired;;
       tcbSchedEnqueue target
     else modify (set_ksSchedulerAction target)).

Definition postpone (sc : Z) : K unit :=
  c ← get_sc sc;
  let tcb := scTcb c in
  assert! (negb (tcb =? NULL));;
  tcbSchedDequeue tcb;;
  tcbReleaseEnqueue tcb;;
  modify (set_ksReprogram true).

Definition Arch_switchToThread (tcb : Z) : K unit := setVMRoot tcb.
Definition Arch_switchToIdleThread : K unit :=
  tcb ← gets ksIdleThread; setVMRoot tcb.

Definition switchToThread (thread : Z) : K unit :=
  t ← get_tcb thread;
  assert! (negb (tcbSchedContext t =? NULL));;
  assert! (negb (tcbInReleaseQueue (tcbState t)));;
  b ← sc_refill_sufficient (tcbSchedContext t) 0; assert! b;;
  b ← sc_refill_ready (tcbSchedContext t); assert! b;;
  Arch_switchToThread thread;;
  tcbSchedDequeue thread;;
  modify (set_ksCurThread thread).

Definition switchToIdleThread : K unit :=
  Arch_switchToIdleThread;;
  idle ← gets ksIdleThread;
  modify (set_ksCurThread idle).

Definition chooseThread : K unit :=
  cur ← gets ksCurDomain;
  let dom := if 1 <? numDomains then cur else 0 in
  w ← get_l1 dom;
  if negb (w =? 0) then
    prio ← getHighestPrio dom;
    idx ← ready_queues_index dom prio;
    q ← get_ready_queue idx;
    let thread := q_head q in
    assert! (negb (thread =? NULL));;
    b ← isSchedulable thread; assert! b;;
    t ← get_tcb thread;
    b ← sc_refill_sufficient (tcbSchedContext t) 0; assert! b;;
    b ← sc_refill_ready (tcbSchedContext t); assert! b;;
    switchToThread thread
  else switchToIdleThread.

(** ** Domains *)
Definition DSCHED_DOMAIN_SHIFT : Z := 56.
Definition DSCHED_MAX_DURATION : Z := Z.shiftr UINT64_MAX 8.
Definition dschedule_make (domain duration : Z) : Z := Z.lor (domain <<w DSCHED_DOMAIN_SHIFT) duration.
Definition dschedule_domain (sched : Z) : Z := Z.shiftr sched DSCHED_DOMAIN_SHIFT.
Definition dschedule_duration (sched : Z) : Z := Z.land sched DSCHED_MAX_DURATION.
Definition get_dschedule (index : Z) : K Z :=
  s ← get_state; deref (ksDomSchedule s !! Z.to_nat index).
Definition dschedule_is_end_marker (index : Z) : K bool :=
  d ← get_dschedule index; mret (d =? 0).

Definition nextDomain : K unit :=
  modify (λ s, set_ksDomScheduleIdx (ksDomScheduleIdx s +w 1) s);;
  i ← gets ksDomScheduleIdx;
  b ← dschedule_is_end_marker i;
  when b (modify (λ s, set_ksDomScheduleIdx (ksDomScheduleStart s) s));;
  modify (set_ksReprogram true);;
  modify (set_ksWorkUnitsCompleted 0);;
  i ← gets ksDomScheduleIdx;
  d ← get_dschedule i;
  modify (set_ksCurDomain (dschedule_domain d));;
  modify (set_ksDomainTime (dschedule_duration d)).

Definition scheduleChooseNewThread : K unit :=
  t ← gets ksDomainTime;
  when (t =? 0) nextDomain;;
  chooseThread.

Definition setDomain (tptr dom : Z) : K unit :=
  tcbSchedDequeue tptr;;
  mod_tcb tptr (set_tcbDomain dom);;
  b ← isSchedulable tptr;
  when b (tcbSchedEnqueue tptr);;
  cur ← gets ksCurThread;
  when (tptr =? cur) rescheduleRequired.

Definition setMCPriority (tptr mcp : Z) : K unit := mod_tcb tptr (set_tcbMCP mcp).

(** ** Time *)
Definition isCurDomainExpired : K bool :=
  t ← gets ksDomainTime; mret ((1 <? numDomains) && (t =? 0)).

Definition commitTime : K unit :=
  cursc ← gets ksCurSC; idlesc ← gets ksIdleSC; consumed ← gets ksConsumed;
  c ← get_sc cursc;
  when (sc_active c && negb (cursc =? idlesc))
    (when (0 <? consumed)
       (b ← sc_refill_sufficient cursc consumed; assert! b;;
        b ← sc_refill_ready cursc; assert! b;;
        (if isRoundRobin c then
           assert! (refill_size c =? MIN_REFILLS);;
           on_sc cursc (h ← refill_head; store_head (Refill (rTime h) (rAmount h -w consumed)));;
           on_sc cursc (t ← refill_tail; store_tail (Refill (rTime t) (rAmount t +w consumed)))
         else on_sc cursc (refill_budget_check consumed));;
        b ← sc_refill_sufficient cursc 0; assert! b;;
        b ← sc_refill_ready cursc; assert! b);;
     mod_sc cursc (λ c, set_scConsumed (scConsumed c +w consumed) c));;
  modify (set_ksConsumed 0).

Definition switchSchedContext : K unit :=
  cursc ← gets ksCurSC; cur ← gets ksCurThread;
  t ← get_tcb cur;
  when (negb (cursc =? tcbSchedContext t))
    (modify (set_ksReprogram true);;
     b ← sc_constant_bandwidth (tcbSchedContext t);
     when b (refill_unblock_check (tcbSchedContext t));;
     b ← sc_refill_ready (tcbSchedContext t); assert! b;;
     b ← sc_refill_sufficient (tcbSchedContext t) 0; assert! b);;
  r ← gets ksReprogram;
  when r commitTime;;
  t ← get_tcb cur;
  modify (set_ksCurSC (tcbSchedContext t)).

Definition setNextInterrupt : K unit :=
  cur ← gets ksCurThread;
  t ← get_tcb cur;
  ct_head_refill ← on_sc (tcbSchedContext t) refill_head;
  now ← gets ksCurTime;
  domtime ← gets ksDomainTime;
  let next_interrupt := now +w rAmount ct_head_refill in
  let next_interrupt := if 1 <? numDomains then Z.min next_interrupt (now +w domtime) else next_interrupt in
  rq ← gets ksReleaseQueue;
  next_interrupt ←
    (if negb (q_head rq =? NULL) then
       r ← get_tcb (q_head rq);
       rlq_head_refill ← on_sc (tcbSchedContext r) refill_head;
       mret (Z.min (rTime rlq_head_refill) next_interrupt)
     else mret next_interrupt);
  assert! (now <=? next_interrupt);;
  setDeadline (next_interrupt -w getTimerPrecision).

Definition updateTimestamp : K unit :=
  prev ← gets ksCurTime;
  now ← getCurrentTime;
  modify (set_ksCurTime now);;
  assert! (now <? MAX_RELEASE_TIME);;
  let consumed := now -w prev in
  modify (λ s, set_ksConsumed (ksConsumed s +w consumed) s);;
  when (1 <? numDomains)
    (domtime ← gets ksDomainTime;
     if domtime <=? consumed +w MIN_BUDGET then modify (set_ksDomainTime 0)
     else modify (set_ksDomainTime (domtime -w consumed))).

Definition checkDomainTime : K unit :=
  b ← isCurDomainExpired;
  when b (modify (set_ksReprogram true);; rescheduleRequired).

(** ** Waking threads up *)
Definition release_q_non_empty_and_ready : K bool :=
  rq ← gets ksReleaseQueue;
  if q_head rq =? NULL then mret false else
  t ← get_tcb (q_head rq); sc_refill_ready (tcbSchedContext t).

Definition tcbReleaseDequeue : K unit :=
  rq ← gets ksReleaseQueue;
  assert! (negb (q_head rq =? NULL));;
  t ← get_tcb (q_head rq);
  assert! (tcbSchedPrev t =? NULL);;
  let awakened := q_head rq in
  cur ← gets ksCurThread;
  assert! (negb (awakened =? cur));;
  tcbReleaseRemove awakened;;
  t ← get_tcb awakened;
  c ← get_sc (tcbSchedContext t);
  assert! (negb (isRoundRobin c));;
  b ← sc_refill_sufficient (tcbSchedContext t) 0; assert! b;;
  possibleSwitchTo awakened.

Definition awaken : K unit :=
  while64 (λ _ : unit,
    b ← release_q_non_empty_and_ready;
    if b : bool then tcbReleaseDequeue;; mret (inl ()) else mret (inr ())) ().

Definition schedule : K unit :=
  awaken;;
  checkDomainTime;;
  action ← gets ksSchedulerAction;
  when (negb (action =? SchedulerAction_ResumeCurrentThread))
    (cur ← gets ksCurThread;
     was_runnable ← isSchedulable cur;
     when was_runnable (tcbSchedEnqueue cur);;
     action ← gets ksSchedulerAction;
     if action =? SchedulerAction_ChooseNewThread then scheduleChooseNewThread
     else
       let candidate := action in
       b ← isSchedulable candidate; assert! b;;
       idle ← gets ksIdleThread;
       ct ← get_tcb candidate;
       ut ← get_tcb cur;
       let fastfail := (cur =? idle) || (tcbPriority ct <? tcbPriority ut) in
       dom ← gets ksCurDomain;
       highest ← (if fastfail then isHighestPrio dom (tcbPriority ct) else mret true);
       if fastfail && negb highest then
         tcbSchedEnqueue candidate;;
         modify (set_ksSchedulerAction SchedulerAction_ChooseNewThread);;
         scheduleChooseNewThread
       else if was_runnable && (tcbPriority ct =? tcbPriority ut) then
         tcbSchedAppend candidate;;
         modify (set_ksSchedulerAction SchedulerAction_ChooseNewThread);;
         scheduleChooseNewThread
       else
         assert! (negb (candidate =? cur));;
         switchToThread candidate);;
  modify (set_ksSchedulerAction SchedulerAction_ResumeCurrentThread);;
  switchSchedContext;;
  r ← gets ksReprogram;
  when r (setNextInterrupt;; modify (set_ksReprogram false)).

Definition updateRestartPC (tcb : Z) : K unit :=
  pc ← getRegister tcb NextIP; setRegister tcb FaultIP pc.
End thread.
