(* ===== verification/CNode.v ===== *)
(** * Capability slots and the mapping database

    [kernel/object/cnode.c]: inserting, moving and swapping capabilities in
    slots, with the mapping database (MDB) that links all slots in derivation
    order, and [deriveCap] of [kernel/object/objecttype.c]. Deletion, which
    needs the objects' finalisers, is in [Delete]. *)
From S2P Require Import Prelude Words Platform State CapOps CSpace.

Definition mod_mdb (p : Z) (f : mdb_node → mdb_node) : K unit :=
  mod_cte p (λ c, set_cteMDBNode (f (cteMDBNode c)) c).

(** ** Free space of an untyped capability: [kernel/include/object/untyped.h] *)
Definition MAX_FREE_INDEX (sizeBits : Z) : Z := BIT (sizeBits -w seL4_MinUntypedBits).
Definition FREE_INDEX_TO_OFFSET (freeIndex : Z) : Z := freeIndex <<w seL4_MinUntypedBits.
Definition GET_FREE_REF (base freeIndex : Z) : Z := base +w FREE_INDEX_TO_OFFSET freeIndex.
Definition GET_FREE_INDEX (base free : Z) : Z := Z.shiftr (free -w base) seL4_MinUntypedBits.
Definition GET_OFFSET_FREE_PTR (base offset : Z) : Z := base +w offset.
Definition OFFSET_TO_FREE_INDEX (offset : Z) : Z := Z.shiftr offset seL4_MinUntypedBits.

Definition cap_untyped_cap_set_capFreeIndex (c : cap) (i : Z) : cap :=
  match c with
  | cap_untyped_cap _ dev bits ptr => cap_untyped_cap i dev bits ptr
  | _ => c
  end.

(** ** Slots *)
Definition setUntypedCapAsFull (srcCap newCap : cap) (srcSlot : Z) : K unit :=
  match srcCap, newCap with
  | cap_untyped_cap _ _ srcBits srcPtr, cap_untyped_cap _ _ newBits newPtr =>
    when ((srcPtr =? newPtr) && (newBits =? srcBits))
      (mod_cte srcSlot (λ c,
         set_cte_cap (cap_untyped_cap_set_capFreeIndex (cte_cap c) (MAX_FREE_INDEX srcBits)) c))
  | _, _ => mret ()
  end.

Definition slot_unlinked (c : cte) : bool :=
  (mdbNext (cteMDBNode c) =? NULL) && (mdbPrev (cteMDBNode c) =? NULL).

Definition cteInsert (newCap : cap) (srcSlot destSlot : Z) : K unit :=
  src ← get_cte srcSlot;
  let srcMDB := cteMDBNode src in
  let srcCap := cte_cap src in
  newCapIsRevocable ← lift (isCapRevocable newCap srcCap);
  let newMDB := set_mdbFirstBadged newCapIsRevocable
                  (set_mdbRevocable newCapIsRevocable (set_mdbPrev srcSlot srcMDB)) in
  dest ← get_cte destSlot;
  assert! (is_null_cap (cte_cap dest));;
  assert! (slot_unlinked dest);;
  setUntypedCapAsFull srcCap newCap srcSlot;;
  mod_cte destSlot (set_cte_cap newCap);;
  mod_cte destSlot (set_cteMDBNode newMDB);;
  mod_mdb srcSlot (set_mdbNext destSlot);;
  when (negb (mdbNext newMDB =? NULL)) (mod_mdb (mdbNext newMDB) (set_mdbPrev destSlot)).

Definition cteMove (newCap : cap) (srcSlot destSlot : Z) : K unit :=
  dest ← get_cte destSlot;
  assert! (is_null_cap (cte_cap dest));;
  assert! (slot_unlinked dest);;
  src ← get_cte srcSlot;
  let mdb := cteMDBNode src in
  mod_cte destSlot (set_cte_cap newCap);;
  mod_cte srcSlot (set_cte_cap cap_null_cap);;
  mod_cte destSlot (set_cteMDBNode mdb);;
  mod_cte srcSlot (set_cteMDBNode nullMDBNode);;
  when (negb (mdbPrev mdb =? NULL)) (mod_mdb (mdbPrev mdb) (set_mdbNext destSlot));;
  when (negb (mdbNext mdb =? NULL)) (mod_mdb (mdbNext mdb) (set_mdbPrev destSlot)).

Definition cteSwap (cap1 : cap) (slot1 : Z) (cap2 : cap) (slot2 : Z) : K unit :=
  mod_cte slot1 (set_cte_cap cap2);;
  mod_cte slot2 (set_cte_cap cap1);;
  c1 ← get_cte slot1;
  let mdb1 := cteMDBNode c1 in
  when (negb (mdbPrev mdb1 =? NULL)) (mod_mdb (mdbPrev mdb1) (set_mdbNext slot2));;
  when (negb (mdbNext mdb1 =? NULL)) (mod_mdb (mdbNext mdb1) (set_mdbPrev slot2));;
  c2 ← get_cte slot2;
  let mdb2 := cteMDBNode c2 in
  mod_cte slot1 (set_cteMDBNode mdb2);;
  mod_cte slot2 (set_cteMDBNode mdb1);;
  when (negb (mdbPrev mdb2 =? NULL)) (mod_mdb (mdbPrev mdb2) (set_mdbNext slot1));;
  when (negb (mdbNext mdb2 =? NULL)) (mod_mdb (mdbNext mdb2) (set_mdbPrev slot1)).

Definition capSwapForDelete (slot1 slot2 : Z) : K unit :=
  if slot1 =? slot2 then mret () else
  c1 ← get_cte slot1; c2 ← get_cte slot2;
  cteSwap (cte_cap c1) slot1 (cte_cap c2) slot2.

Definition insertNewCap (parent slot : Z) (c : cap) : K unit :=
  p ← get_cte parent;
  let next := mdbNext (cteMDBNode p) in
  mod_cte slot (set_cte_cap c);;
  mod_cte slot (set_cteMDBNode (mdb_node_new next true true parent));;
  when (negb (next =? NULL)) (mod_mdb next (set_mdbPrev slot));;
  mod_mdb parent (set_mdbNext slot).

(** ** Derivation *)
Definition isMDBParentOf_cte (cte_a cte_b : cte) : option bool :=
  if negb (mdbRevocable (cteMDBNode cte_a)) then Some false else
  same ← sameRegionAs (cte_cap cte_a) (cte_cap cte_b);
  if negb same then Some false else
  if negb (Arch_isMDBParentOf (cte_cap cte_a) (cte_cap cte_b) (mdbFirstBadged (cteMDBNode cte_b)))
  then Some false else
  match cte_cap cte_a, cte_cap cte_b with
  | cap_endpoint_cap badge _ _ _ _ _, cap_endpoint_cap badge' _ _ _ _ _ =>
    if badge =? 0 then Some true
    else Some ((badge =? badge') && negb (mdbFirstBadged (cteMDBNode cte_b)))
  | cap_notification_cap badge _ _ _, cap_notification_cap badge' _ _ _ =>
    if badge =? 0 then Some true
    else Some ((badge =? badge') && negb (mdbFirstBadged (cteMDBNode cte_b)))
  | _, _ => Some true
  end.

Definition isMDBParentOf (a b : Z) : K bool :=
  cte_a ← get_cte a; cte_b ← get_cte b; lift (isMDBParentOf_cte cte_a cte_b).

Definition ensureNoChildren (slot : Z) : K exception_t :=
  c ← get_cte slot;
  let next := mdbNext (cteMDBNode c) in
  if negb (next =? 0) then
    b ← isMDBParentOf slot next;
    if b : bool then syscall_error_ret seL4_RevokeFirst else mret EXCEPTION_NONE
  else mret EXCEPTION_NONE.

Definition ensureEmptySlot (slot : Z) : K exception_t :=
  c ← get_cte slot;
  if negb (is_null_cap (cte_cap c)) then syscall_error_ret seL4_DeleteFirst
  else mret EXCEPTION_NONE.

Definition isFinalCapability (slot : Z) : K bool :=
  c ← get_cte slot;
  let mdb := cteMDBNode c in
  prevIsSameObject ←
    (if mdbPrev mdb =? 0 then mret false
     else p ← get_cte (mdbPrev mdb); lift (sameObjectAs (cte_cap p) (cte_cap c)));
  if prevIsSameObject : bool then mret false
  else if mdbNext mdb =? 0 then mret true
  else n ← get_cte (mdbNext mdb);
       b ← lift (sameObjectAs (cte_cap c) (cte_cap n)); mret (negb b).

Definition slotCapLongRunningDelete (slot : Z) : K bool :=
  c ← get_cte slot;
  if is_null_cap (cte_cap c) then mret false else
  final ← isFinalCapability slot;
  if negb final then mret false else
  mret (match cte_cap c with
        | cap_thread_cap _ | cap_zombie_cap _ _ | cap_cnode_cap _ _ _ _ => true
        | _ => false
        end).

Definition Arch_deriveCap (slot : Z) (c : cap) : K (exception_t * cap) :=
  match c with
  | cap_page_table_cap _ _ capPTIsMapped _ =>
    if capPTIsMapped then mret (EXCEPTION_NONE, c)
    else e ← syscall_error_ret seL4_IllegalOperation; mret (e, cap_null_cap)
  | cap_frame_cap _ base size rights dev _ =>
    mret (EXCEPTION_NONE, cap_frame_cap asidInvalid base size rights dev 0)
  | cap_asid_control_cap | cap_asid_pool_cap _ _ => mret (EXCEPTION_NONE, c)
  | _ => fail!
  end.

Definition deriveCap (slot : Z) (c : cap) : K (exception_t * cap) :=
  if isArchCap c then Arch_deriveCap slot c else
  match c with
  | cap_zombie_cap _ _ | cap_irq_control_cap => mret (EXCEPTION_NONE, cap_null_cap)
  | cap_untyped_cap _ _ _ _ =>
    status ← ensureNoChildren slot;
    mret (status, if status_ok status then c else cap_null_cap)
  | _ => mret (EXCEPTION_NONE, c)
  end.
