(* ===== verification/Message.v ===== *)
(** * Messages

    Message tags, message registers and IPC buffers: [kernel/include/api/types.h],
    [kernel/include/api/syscall.h], [setMR] of [kernel/include/object/tcb.h],
    [lookupIPCBuffer] of the RISC-V [vspace.c], the copying routines of
    [kernel/object/tcb.c] and the fault messages of [kernel/api/faults.c]. A
    message tag [seL4_MessageInfo_t] is its word. *)
From S2P Require Import Prelude Words Platform State Machine RefillList Sporadic CapOps CSpace CNode.

Definition seL4_MsgMaxLength : Z := 120.
Definition seL4_MsgExtraCapBits : Z := 2.
Definition seL4_MsgMaxExtraCaps : Z := BIT seL4_MsgExtraCapBits - 1.
Definition seL4_IPCBufferSizeBits : Z := 10.

(** ** Tags: label 52, capsUnwrapped 3, extraCaps 2, length 7 bits *)
Definition seL4_MessageInfo_new (label capsUnwrapped extraCaps length : Z) : Z :=
  Z.lor (Z.land label (MASK 52) <<w 12)
    (Z.lor (Z.land capsUnwrapped (MASK 3) <<w 9)
       (Z.lor (Z.land extraCaps (MASK 2) <<w 7) (Z.land length (MASK 7)))).
Definition seL4_MessageInfo_get_label (mi : Z) : Z := Z.land (Z.shiftr mi 12) (MASK 52).
Definition seL4_MessageInfo_get_capsUnwrapped (mi : Z) : Z := Z.land (Z.shiftr mi 9) (MASK 3).
Definition seL4_MessageInfo_get_extraCaps (mi : Z) : Z := Z.land (Z.shiftr mi 7) (MASK 2).
Definition seL4_MessageInfo_get_length (mi : Z) : Z := Z.land mi (MASK 7).
Definition seL4_MessageInfo_set_capsUnwrapped (mi v : Z) : Z :=
  Z.lor (Z.land mi (wnot (MASK 3 <<w 9))) (Z.land v (MASK 3) <<w 9).
Definition seL4_MessageInfo_set_extraCaps (mi v : Z) : Z :=
  Z.lor (Z.land mi (wnot (MASK 2 <<w 7))) (Z.land v (MASK 2) <<w 7).
Definition seL4_MessageInfo_set_length (mi v : Z) : Z :=
  Z.lor (Z.land mi (wnot (MASK 7))) (Z.land v (MASK 7)).

Definition messageInfoFromWord (w : Z) : Z :=
  if seL4_MsgMaxLength <? seL4_MessageInfo_get_length w
  then seL4_MessageInfo_set_length w seL4_MsgMaxLength else w.
Definition wordFromMessageInfo (mi : Z) : Z := mi.

Definition rightsFromWord (w : Z) : Z := w.

(** ** Registers of a message *)
Definition msg_register (i : Z) : Z := nth (Z.to_nat i) msgRegisters 0.

(** [setMR] returns the number of message registers written so far. *)
Definition setMR (receiver receiveIPCBuffer offset reg : Z) : K Z :=
  if n_msgRegisters <=? offset then
    if negb (receiveIPCBuffer =? NULL) then
      store_word receiveIPCBuffer (offset + 1) reg;; mret (offset + 1)
    else mret n_msgRegisters
  else setRegister receiver (msg_register offset) reg;; mret (offset + 1).

Definition getSyscallArg (i ipc_buffer : Z) : K Z :=
  if i <? n_msgRegisters then
    cur ← gets ksCurThread; getRegister cur (msg_register i)
  else assert! (negb (ipc_buffer =? NULL));; load_word ipc_buffer (i + 1).

Definition TIME_ARG_SIZE : Z := 1.
Definition mode_parseTimeArg (i buffer : Z) : K Z := getSyscallArg i buffer.
Definition mode_setTimeArg (i time buffer thread : Z) : K Z := setMR thread buffer i time.

(** ** The extra capabilities of the current invocation *)
Definition excapref (i : Z) : K Z :=
  s ← get_state; deref (current_extra_caps s !! Z.to_nat i).
Definition set_excapref (i p : Z) : K unit :=
  _ ← excapref i;
  modify (λ s, set_current_extra_caps (<[Z.to_nat i := p]> (current_extra_caps s)) s).

(** ** IPC buffers *)
Definition lookupIPCBuffer (isReceiver : bool) (thread : Z) : K Z :=
  t ← get_tcb thread;
  let w_bufferPtr := tcbIPCBuffer t in
  c ← get_cte (TCB_PTR_CTE_PTR thread tcbBuffer);
  match cte_cap c with
  | cap_frame_cap _ basePtr capFSize vm_rights capFIsDevice _ =>
    if capFIsDevice then mret NULL else
    if (vm_rights =? VMReadWrite) || (negb isReceiver && (vm_rights =? VMReadOnly)) then
      pageBits ← lift (pageBitsForSize capFSize);
      mret (basePtr +w Z.land w_bufferPtr (MASK pageBits))
    else mret NULL
  | _ => mret NULL
  end.

Definition checkValidIPCBuffer (vptr : Z) (c : cap) : K exception_t :=
  match c with
  | cap_frame_cap _ _ _ _ capFIsDevice _ =>
    if capFIsDevice then syscall_error_ret seL4_IllegalOperation else
    if negb (IS_ALIGNED vptr seL4_IPCBufferSizeBits) then syscall_error_ret seL4_AlignmentError
    else mret EXCEPTION_NONE
  | _ => syscall_error_ret seL4_IllegalOperation
  end.

Definition isValidVTableRoot (c : cap) : bool :=
  match c with cap_page_table_cap _ _ capPTIsMapped _ => capPTIsMapped | _ => false end.

Definition getExtraCPtr (bufferPtr i : Z) : K Z := load_word bufferPtr (seL4_MsgMaxLength + 2 + i).
Definition setExtraBadge (bufferPtr badge i : Z) : K unit :=
  store_word bufferPtr (seL4_MsgMaxLength + 2 + i) badge.

Definition loadCapTransfer (buffer : Z) : K (Z * Z * Z) :=
  let offset := seL4_MsgMaxLength + seL4_MsgMaxExtraCaps + 2 in
  ctReceiveRoot ← load_word buffer offset;
  ctReceiveIndex ← load_word buffer (offset + 1);
  ctReceiveDepth ← load_word buffer (offset + 2);
  mret (ctReceiveRoot, ctReceiveIndex, ctReceiveDepth).

Definition getReceiveSlots (thread buffer : Z) : K Z :=
  if buffer =? NULL then mret NULL else
  ct ← loadCapTransfer buffer;
  let '(ctReceiveRoot, ctReceiveIndex, ctReceiveDepth) := ct in
  luc ← lookupCap thread ctReceiveRoot;
  let '(status, cnode) := luc in
  if negb (status_ok status) then mret NULL else
  lus ← lookupTargetSlot cnode ctReceiveIndex ctReceiveDepth;
  let '(status, slot) := lus in
  if negb (status_ok status) then mret NULL else
  c ← get_cte slot;
  if negb (is_null_cap (cte_cap c)) then mret NULL else mret slot.

Fixpoint lookupExtraCaps_loop (thread bufferPtr : Z) (n : nat) (i : Z) : K exception_t :=
  match n with
  | O => when (i <? seL4_MsgMaxExtraCaps) (set_excapref i NULL);; mret EXCEPTION_NONE
  | S n' =>
    cptr ← getExtraCPtr bufferPtr i;
    lu ← lookupSlot thread cptr;
    let '(status, slot) := lu in
    if negb (status_ok status) then
      modify (set_current_fault (seL4_Fault_CapFault cptr false));; mret status
    else set_excapref i slot;; lookupExtraCaps_loop thread bufferPtr n' (i + 1)
  end.

Definition lookupExtraCaps (thread bufferPtr info : Z) : K exception_t :=
  if bufferPtr =? NULL then set_excapref 0 NULL;; mret EXCEPTION_NONE else
  lookupExtraCaps_loop thread bufferPtr (Z.to_nat (seL4_MessageInfo_get_extraCaps info)) 0.

Definition copyMRs (sender sendBuf receiver recvBuf n : Z) : K Z :=
  let inline := Z.min n n_msgRegisters in
  for_range 0 inline (λ i,
    w ← getRegister sender (msg_register i); setRegister receiver (msg_register i) w);;
  if (recvBuf =? NULL) || (sendBuf =? NULL) then mret inline else
  for_range inline n (λ i, w ← load_word sendBuf (i + 1); store_word recvBuf (i + 1) w);;
  mret n.

(** ** Faults as messages *)
Definition getRestartPC (thread : Z) : K Z := getRegister thread FaultIP.
Definition setNextPC (thread v : Z) : K unit := setRegister thread NextIP v.
Definition Arch_getSanitiseRegisterInfo (thread : Z) : bool := false.
Definition sanitiseRegister (reg v : Z) (archInfo : bool) : Z := v.

Inductive MessageID := MessageID_Syscall | MessageID_Exception | MessageID_TimeoutReply.
Definition n_exceptionMessage : Z := 2.
Definition n_syscallMessage : Z := 10.
Definition n_timeoutMessage : Z := 32.
Definition fault_messages (id : MessageID) : list Z :=
  match id with
  | MessageID_Syscall => [33; 1; 0; 9; 10; 11; 12; 13; 14; 15]
  | MessageID_Exception => [33; 1]
  | MessageID_TimeoutReply =>
    [33; 0; 1; 2; 7; 8; 17; 18; 19; 20; 21; 22; 23; 24; 25; 26;
     9; 10; 11; 12; 13; 14; 15; 16; 4; 5; 6; 27; 28; 29; 30; 3]
  end.
Definition fault_message (id : MessageID) (i : Z) : Z := nth (Z.to_nat i) (fault_messages id) 0.

Definition setMRs_lookup_failure (receiver receiveIPCBuffer : Z) (luf : lookup_fault) (offset : Z) : K Z :=
  let lufType := match luf with
    | lookup_fault_invalid_root => 0 | lookup_fault_missing_capability _ => 1
    | lookup_fault_depth_mismatch _ _ => 2 | lookup_fault_guard_mismatch _ _ _ => 3 end in
  i ← setMR receiver receiveIPCBuffer offset (lufType + 1);
  assert! ((offset =? 3) || (offset =? 1));;
  match luf with
  | lookup_fault_invalid_root => mret i
  | lookup_fault_missing_capability bitsLeft => setMR receiver receiveIPCBuffer (offset + 1) bitsLeft
  | lookup_fault_depth_mismatch bitsFound bitsLeft =>
    setMR receiver receiveIPCBuffer (offset + 1) bitsLeft;;
    setMR receiver receiveIPCBuffer (offset + 2) bitsFound
  | lookup_fault_guard_mismatch guardFound bitsLeft bitsFound =>
    setMR receiver receiveIPCBuffer (offset + 1) bitsLeft;;
    setMR receiver receiveIPCBuffer (offset + 2) guardFound;;
    setMR receiver receiveIPCBuffer (offset + 3) bitsFound
  end.

Definition copyMRsFaultReply (sender receiver : Z) (id : MessageID) (length : Z) : K unit :=
  let archInfo := Arch_getSanitiseRegisterInfo receiver in
  let inline := Z.min length n_msgRegisters in
  for_range 0 inline (λ i,
    let r := fault_message id i in
    v ← getRegister sender (msg_register i);
    setRegister receiver r (sanitiseRegister r v archInfo));;
  when (inline <? length)
    (sendBuf ← lookupIPCBuffer false sender;
     when (negb (sendBuf =? NULL))
       (for_range inline length (λ i,
          let r := fault_message id i in
          v ← load_word sendBuf (i + 1);
          setRegister receiver r (sanitiseRegister r v archInfo)))).

Definition copyMRsFault (sender receiver : Z) (id : MessageID) (length receiveIPCBuffer : Z) : K unit :=
  let inline := Z.min length n_msgRegisters in
  for_range 0 inline (λ i,
    v ← getRegister sender (fault_message id i); setRegister receiver (msg_register i) v);;
  when (negb (receiveIPCBuffer =? NULL))
    (for_range inline length (λ i,
       v ← getRegister sender (fault_message id i); store_word receiveIPCBuffer (i + 1) v)).

Definition Arch_handleFaultReply (receiver sender : Z) (fault : seL4_Fault) : K bool :=
  match fault with seL4_Fault_VMFault _ _ _ => mret true | _ => fail! end.

Definition handleFaultReply (receiver sender : Z) : K bool :=
  w ← getRegister sender msgInfoRegister;
  let tag := messageInfoFromWord w in
  let label := seL4_MessageInfo_get_label tag in
  let length := seL4_MessageInfo_get_length tag in
  t ← get_tcb receiver;
  match tcbFault t with
  | seL4_Fault_CapFault _ _ => mret true
  | seL4_Fault_UnknownSyscall _ =>
    copyMRsFaultReply sender receiver MessageID_Syscall (Z.min length n_syscallMessage);;
    mret (label =? 0)
  | seL4_Fault_UserException _ _ =>
    copyMRsFaultReply sender receiver MessageID_Exception (Z.min length n_exceptionMessage);;
    mret (label =? 0)
  | seL4_Fault_Timeout _ =>
    copyMRsFaultReply sender receiver MessageID_TimeoutReply (Z.min length n_timeoutMessage);;
    mret (label =? 0)
  | fault => Arch_handleFaultReply receiver sender fault
  end.

Definition seL4_FaultType (f : seL4_Fault) : Z :=
  match f with
  | seL4_Fault_NullFault => 0 | seL4_Fault_CapFault _ _ => 1 | seL4_Fault_UnknownSyscall _ => 2
  | seL4_Fault_UserException _ _ => 3 | seL4_Fault_Timeout _ => 5 | seL4_Fault_VMFault _ _ _ => 6
  end.

Definition Arch_setMRs_fault (sender receiver receiveIPCBuffer : Z) (fault : seL4_Fault) : K Z :=
  match fault with
  | seL4_Fault_VMFault address FSR instructionFault =>
    pc ← getRestartPC sender;
    setMR receiver receiveIPCBuffer 0 pc;;
    setMR receiver receiveIPCBuffer 1 address;;
    setMR receiver receiveIPCBuffer 2 (Z.b2z instructionFault);;
    setMR receiver receiveIPCBuffer 3 FSR
  | _ => fail!
  end.

Section time.
Context `{Platform}.

Definition schedContext_updateConsumed (sc : Z) : K Z :=
  c ← get_sc sc;
  let consumed := scConsumed c in
  if getMaxTicksToUs <=? consumed then
    mod_sc sc (λ c, set_scConsumed (scConsumed c -w getMaxTicksToUs) c);;
    mret (ticksToUs getMaxTicksToUs)
  else
    mod_sc sc (set_scConsumed 0);;
    mret (ticksToUs consumed).

Definition setMRs_fault (sender receiver receiveIPCBuffer : Z) : K Z :=
  t ← get_tcb sender;
  match tcbFault t with
  | seL4_Fault_CapFault address inReceivePhase =>
    pc ← getRestartPC sender;
    setMR receiver receiveIPCBuffer 0 pc;;
    setMR receiver receiveIPCBuffer 1 address;;
    setMR receiver receiveIPCBuffer 2 (Z.b2z inReceivePhase);;
    t ← get_tcb sender;
    setMRs_lookup_failure receiver receiveIPCBuffer (tcbLookupFailure t) 3
  | seL4_Fault_UnknownSyscall syscallNumber =>
    copyMRsFault sender receiver MessageID_Syscall n_syscallMessage receiveIPCBuffer;;
    setMR receiver receiveIPCBuffer n_syscallMessage syscallNumber
  | seL4_Fault_UserException number code =>
    copyMRsFault sender receiver MessageID_Exception n_exceptionMessage receiveIPCBuffer;;
    setMR receiver receiveIPCBuffer n_exceptionMessage number;;
    setMR receiver receiveIPCBuffer (n_exceptionMessage + 1) code
  | seL4_Fault_Timeout badge =>
    if negb (tcbSchedContext t =? NULL) then
      consumed ← schedContext_updateConsumed (tcbSchedContext t);
      len ← setMR receiver receiveIPCBuffer 0 badge;
      mode_setTimeArg len consumed receiveIPCBuffer receiver
    else setMR receiver receiveIPCBuffer 0 badge
  | fault => Arch_setMRs_fault sender receiver receiveIPCBuffer fault
  end.
End time.

Definition setMRs_syscall_error (thread receiveIPCBuffer : Z) : K Z :=
  e ← gets current_syscall_error;
  match err_type e with
  | seL4_InvalidArgument => setMR thread receiveIPCBuffer 0 (invalidArgumentNumber e)
  | seL4_InvalidCapability => setMR thread receiveIPCBuffer 0 (invalidCapNumber e)
  | seL4_IllegalOperation => mret 0
  | seL4_RangeError =>
    setMR thread receiveIPCBuffer 0 (rangeErrorMin e);;
    setMR thread receiveIPCBuffer 1 (rangeErrorMax e)
  | seL4_AlignmentError => mret 0
  | seL4_FailedLookup =>
    setMR thread receiveIPCBuffer 0 (if failedLookupWasSource e then 1 else 0);;
    luf ← gets current_lookup_fault;
    setMRs_lookup_failure thread receiveIPCBuffer luf 1
  | seL4_TruncatedMessage | seL4_DeleteFirst | seL4_RevokeFirst => mret 0
  | seL4_NotEnoughMemory => setMR thread receiveIPCBuffer 0 (memoryLeft e)
  | seL4_NoError => fail!
  end.

(** ** Replies from the kernel itself *)
Definition seL4_Error_code (e : seL4_Error) : Z :=
  match e with
  | seL4_NoError => 0 | seL4_InvalidArgument => 1 | seL4_InvalidCapability => 2
  | seL4_IllegalOperation => 3 | seL4_RangeError => 4 | seL4_AlignmentError => 5
  | seL4_FailedLookup => 6 | seL4_TruncatedMessage => 7 | seL4_DeleteFirst => 8
  | seL4_RevokeFirst => 9 | seL4_NotEnoughMemory => 10
  end.

Definition replyFromKernel_error (thread : Z) : K unit :=
  ipcBuffer ← lookupIPCBuffer true thread;
  setRegister thread badgeRegister 0;;
  len ← setMRs_syscall_error thread ipcBuffer;
  e ← gets current_syscall_error;
  setRegister thread msgInfoRegister
    (wordFromMessageInfo (seL4_MessageInfo_new (seL4_Error_code (err_type e)) 0 0 len)).

Definition replyFromKernel_success_empty (thread : Z) : K unit :=
  setRegister thread badgeRegister 0;;
  setRegister thread msgInfoRegister (wordFromMessageInfo (seL4_MessageInfo_new 0 0 0 0)).
