(* ===== verification/SchedContext.v ===== *)
(** * Scheduling contexts as kernel objects

    [kernel/object/schedcontext.c]: binding a scheduling context to a thread or
    a notification, donating it along a call, yielding to it, and the
    invocations of a scheduling-context capability. *)
From S2P Require Import Prelude Words Platform State Machine RefillList Sporadic Queues CapOps CSpace VSpace Thread Message.

(** Invocation labels, in the order of [libsel4/include/interfaces/object-api.xml] for MCS. *)
Definition SchedContextBind : Z := 34.
Definition SchedContextUnbind : Z := 35.
Definition SchedContextUnbindObject : Z := 36.
Definition SchedContextConsumed : Z := 37.
Definition SchedContextYieldTo : Z := 38.

Section sched_context.
Context `{Platform}.

(** [refill_ready(sc) && refill_sufficient(sc, 0)] *)
Definition ready_and_sufficient (sc : Z) : K bool :=
  b ← sc_refill_ready sc;
  if b : bool then sc_refill_sufficient sc 0 else mret false.

Definition schedContext_resume (sc : Z) : K unit :=
  when (negb (sc =? NULL))
    (c ← get_sc sc;
     assert! (negb (scTcb c =? NULL));;
     b ← isSchedulable (scTcb c);
     when b
       (ok ← ready_and_sufficient sc;
        when (negb ok)
          (t ← get_tcb (scTcb c);
           assert! (negb (tcbQueued (tcbState t)));;
           postpone sc))).

Definition schedContext_bindTCB (sc tcb : Z) : K unit :=
  c ← get_sc sc; assert! (scTcb c =? NULL);;
  t ← get_tcb tcb; assert! (tcbSchedContext t =? NULL);;
  mod_tcb tcb (set_tcbSchedContext sc);;
  mod_sc sc (set_scTcb tcb);;
  sporadic ← sc_sporadic sc;
  c ← get_sc sc;
  cur ← gets ksCurSC;
  when (sporadic && sc_active c && negb (sc =? cur)) (refill_unblock_check sc);;
  schedContext_resume sc;;
  b ← isSchedulable tcb;
  when b (tcbSchedEnqueue tcb;; rescheduleRequired).

Definition schedContext_unbindTCB (sc : Z) : K unit :=
  c ← get_sc sc;
  let tcb := scTcb c in
  assert! (negb (tcb =? NULL));;
  cur ← gets ksCurThread;
  when (tcb =? cur) rescheduleRequired;;
  tcbSchedDequeue tcb;;
  tcbReleaseRemove tcb;;
  mod_tcb tcb (set_tcbSchedContext NULL);;
  mod_sc sc (set_scTcb NULL).

Definition schedContext_unbindAllTCBs (sc : Z) : K unit :=
  c ← get_sc sc;
  when (negb (scTcb c =? NULL)) (schedContext_unbindTCB sc).

Definition schedContext_donate (sc to : Z) : K unit :=
  assert! (negb (sc =? NULL));;
  assert! (negb (to =? NULL));;
  t ← get_tcb to; assert! (tcbSchedContext t =? NULL);;
  c ← get_sc sc;
  let from := scTcb c in
  when (negb (from =? NULL))
    (tcbSchedDequeue from;;
     tcbReleaseRemove from;;
     mod_tcb from (set_tcbSchedContext NULL);;
     cur ← gets ksCurThread;
     action ← gets ksSchedulerAction;
     when ((from =? cur) || (from =? action)) rescheduleRequired);;
  mod_sc sc (set_scTcb to);;
  mod_tcb to (set_tcbSchedContext sc).

Definition schedContext_bindNtfn (sc ntfn : Z) : K unit :=
  mod_ntfn ntfn (set_ntfnSchedContext sc);;
  mod_sc sc (set_scNotification ntfn).

Definition schedContext_unbindNtfn (sc : Z) : K unit :=
  when (negb (sc =? NULL))
    (c ← get_sc sc;
     when (negb (scNotification c =? NULL))
       (mod_ntfn (scNotification c) (set_ntfnSchedContext NULL);;
        mod_sc sc (set_scNotification NULL))).

Definition schedContextMaybeUnbindNtfn (ntfnPtr : Z) : K unit :=
  n ← get_ntfn ntfnPtr;
  when (negb (ntfnSchedContext n =? NULL)) (schedContext_unbindNtfn (ntfnSchedContext n)).

Definition schedContext_unbindReply (sc : Z) : K unit :=
  when (negb (sc =? NULL))
    (c ← get_sc sc;
     when (negb (scReply c =? NULL))
       (r ← get_reply (scReply c);
        assert! (isHead (replyNext r));;
        mod_reply (scReply c) (set_replyNext (call_stack_new 0 false));;
        mod_sc sc (set_scReply NULL))).

(** ** Yielding *)
Definition replyFromKernel_consumed (thread consumed : Z) : K unit :=
  buffer ← lookupIPCBuffer true thread;
  setRegister thread badgeRegister 0;;
  length ← mode_setTimeArg 0 consumed buffer thread;
  setRegister thread msgInfoRegister (wordFromMessageInfo (seL4_MessageInfo_new 0 0 0 length)).

Definition setConsumed (sc thread : Z) (write_msg : bool) : K unit :=
  consumed ← schedContext_updateConsumed sc;
  when write_msg (replyFromKernel_consumed thread consumed).

Definition schedContext_cancelYieldTo (tcb : Z) : K unit :=
  when (negb (tcb =? NULL))
    (t ← get_tcb tcb;
     when (negb (tcbYieldTo t =? NULL))
       (mod_sc (tcbYieldTo t) (set_scYieldFrom NULL);;
        mod_tcb tcb (set_tcbYieldTo NULL))).

Definition schedContext_completeYieldTo (yielder : Z) : K unit :=
  when (negb (yielder =? NULL))
    (t ← get_tcb yielder;
     when (negb (tcbYieldTo t =? NULL))
       (setConsumed (tcbYieldTo t) yielder true;;
        schedContext_cancelYieldTo yielder)).

Definition invokeSchedContext_YieldTo (sc : Z) (call : bool) : K exception_t :=
  c ← get_sc sc;
  when (negb (scYieldFrom c =? NULL))
    (schedContext_completeYieldTo (scYieldFrom c);;
     c ← get_sc sc; assert! (scYieldFrom c =? NULL));;
  schedContext_resume sc;;
  c ← get_sc sc;
  let tcb := scTcb c in
  b ← isSchedulable tcb;
  cur ← gets ksCurThread;
  return_now ←
    (if b : bool then
       t ← get_tcb tcb; ct ← get_tcb cur;
       if tcbPriority t <? tcbPriority ct then
         tcbSchedDequeue tcb;;
         tcbSchedEnqueue tcb;;
         mret true
       else
         mod_tcb cur (set_tcbYieldTo sc);;
         mod_sc sc (set_scYieldFrom cur);;
         tcbSchedDequeue tcb;;
         tcbSchedEnqueue cur;;
         tcbSchedEnqueue tcb;;
         rescheduleRequired;;
         mret false
     else mret true);
  when return_now
    (setConsumed sc cur call;;
     setThreadState cur ThreadState_Running);;
  mret EXCEPTION_NONE.

Definition decodeSchedContext_YieldTo (sc : Z) (call : bool) : K exception_t :=
  c ← get_sc sc;
  if scTcb c =? NULL then syscall_error_ret seL4_IllegalOperation else
  let tcb := scTcb c in
  cur ← gets ksCurThread;
  if tcb =? cur then syscall_error_ret seL4_IllegalOperation else
  t ← get_tcb tcb; ct ← get_tcb cur;
  if tcbMCP ct <? tcbPriority t then syscall_error_ret seL4_IllegalOperation else
  assert! (tcbYieldTo ct =? NULL);;
  if negb (tcbYieldTo ct =? NULL) then syscall_error_ret seL4_IllegalOperation else
  setThreadState cur ThreadState_Restart;;
  invokeSchedContext_YieldTo sc call.

(** ** Invocations *)
Definition invokeSchedContext_UnbindObject (sc : Z) (c : cap) : K exception_t :=
  (match c with
   | cap_thread_cap _ => schedContext_unbindTCB sc
   | cap_notification_cap _ _ _ _ => schedContext_unbindNtfn sc
   | _ => fail!
   end);;
  mret EXCEPTION_NONE.

Definition decodeSchedContext_UnbindObject (sc : Z) : K exception_t :=
  ref ← excapref 0;
  if ref =? NULL then syscall_error_ret seL4_TruncatedMessage else
  slot ← get_cte ref;
  let c := cte_cap slot in
  o ← get_sc sc;
  cur ← gets ksCurThread;
  let invoke :=
    setThreadState cur ThreadState_Restart;;
    invokeSchedContext_UnbindObject sc c in
  match c with
  | cap_thread_cap capTCBPtr =>
    if negb (scTcb o =? capTCBPtr) then syscall_error_ret seL4_IllegalOperation
    else if scTcb o =? cur then syscall_error_ret seL4_IllegalOperation
    else invoke
  | cap_notification_cap _ _ _ capNtfnPtr =>
    if negb (scNotification o =? capNtfnPtr) then syscall_error_ret seL4_IllegalOperation
    else invoke
  | _ => invalid_cap_ret 1
  end.

Definition invokeSchedContext_Bind (sc : Z) (c : cap) : K exception_t :=
  (match c with
   | cap_thread_cap capTCBPtr => schedContext_bindTCB sc capTCBPtr
   | cap_notification_cap _ _ _ capNtfnPtr => schedContext_bindNtfn sc capNtfnPtr
   | _ => fail!
   end);;
  mret EXCEPTION_NONE.

Definition decodeSchedContext_Bind (sc : Z) : K exception_t :=
  ref ← excapref 0;
  if ref =? NULL then syscall_error_ret seL4_TruncatedMessage else
  slot ← get_cte ref;
  let c := cte_cap slot in
  o ← get_sc sc;
  cur ← gets ksCurThread;
  let invoke :=
    setThreadState cur ThreadState_Restart;;
    invokeSchedContext_Bind sc c in
  match c with
  | cap_thread_cap capTCBPtr =>
    if negb (scTcb o =? NULL) then syscall_error_ret seL4_IllegalOperation else
    t ← get_tcb capTCBPtr;
    if negb (tcbSchedContext t =? NULL) then syscall_error_ret seL4_IllegalOperation else
    now ← gets ksCurTime;
    released ← (if isBlocked t then on_sc sc (sc_released now) else mret true);
    if negb released then syscall_error_ret seL4_IllegalOperation else invoke
  | cap_notification_cap _ _ _ capNtfnPtr =>
    if negb (scNotification o =? NULL) then syscall_error_ret seL4_IllegalOperation else
    n ← get_ntfn capNtfnPtr;
    if negb (ntfnSchedContext n =? NULL) then syscall_error_ret seL4_IllegalOperation else
    invoke
  | _ => invalid_cap_ret 1
  end.

Definition invokeSchedContext_Unbind (sc : Z) : K exception_t :=
  schedContext_unbindAllTCBs sc;;
  schedContext_unbindNtfn sc;;
  schedContext_unbindReply sc;;
  mret EXCEPTION_NONE.

Definition invokeSchedContext_Consumed (sc : Z) (call : bool) : K exception_t :=
  cur ← gets ksCurThread;
  setConsumed sc cur call;;
  setThreadState cur ThreadState_Running;;
  mret EXCEPTION_NONE.

Definition decodeSchedContextInvocation (label sc : Z) (call : bool) : K exception_t :=
  cur ← gets ksCurThread;
  if label =? SchedContextConsumed then
    setThreadState cur ThreadState_Restart;;
    invokeSchedContext_Consumed sc call
  else if label =? SchedContextBind then decodeSchedContext_Bind sc
  else if label =? SchedContextUnbindObject then decodeSchedContext_UnbindObject sc
  else if label =? SchedContextUnbind then
    c ← get_sc sc;
    if scTcb c =? cur then syscall_error_ret seL4_IllegalOperation else
    setThreadState cur ThreadState_Restart;;
    invokeSchedContext_Unbind sc
  else if label =? SchedContextYieldTo then decodeSchedContext_YieldTo sc call
  else syscall_error_ret seL4_IllegalOperation.
End sched_context.
