(* ===== verification/Reply.v ===== *)
(** * Reply objects and the call stack

    [kernel/object/reply.c] and [kernel/include/object/reply.h]: a reply object
    links a caller that waits for an answer; the replies that hold one
    scheduling context form a stack whose head the scheduling context knows. *)
From S2P Require Import Prelude Words Platform State Machine RefillList Sporadic Queues CapOps CSpace VSpace Thread SchedContext.

Definition ts_is (ts : _thread_state) (t : tcb) : bool := bool_decide (tsType (tcbState t) = ts).

Section reply.
Context `{Platform}.

Definition reply_unlink (reply tcb : Z) : K unit :=
  t ← get_tcb tcb;
  assert! (ts_is ThreadState_BlockedOnReceive t || ts_is ThreadState_BlockedOnReply t);;
  r ← get_reply reply;
  assert! (replyTCB r =? tcb);;
  assert! (replyObject (tcbState t) =? reply);;
  mod_reply reply (set_replyTCB NULL);;
  setThreadState tcb ThreadState_Inactive.

Definition reply_push (tcb_caller tcb_callee reply : Z) (canDonate : bool) : K unit :=
  caller ← get_tcb tcb_caller;
  let sc_donated := tcbSchedContext caller in
  assert! (negb (tcb_caller =? NULL));;
  assert! (negb (reply =? NULL));;
  r ← get_reply reply;
  assert! (replyTCB r =? NULL);;
  assert! (callStackPtr (replyPrev r) =? 0);;
  assert! (callStackPtr (replyNext r) =? 0);;
  assert! (ts_is ThreadState_BlockedOnSend caller || ts_is ThreadState_Running caller ||
           ts_is ThreadState_Restart caller);;
  callee ← get_tcb tcb_callee;
  assert! (ts_is ThreadState_Inactive callee || ts_is ThreadState_Running callee ||
           ts_is ThreadState_Restart callee);;
  mod_reply reply (set_replyTCB tcb_caller);;
  setThreadStateBlockedOnReply tcb_caller reply;;
  callee ← get_tcb tcb_callee;
  when (negb (sc_donated =? NULL) && (tcbSchedContext callee =? NULL) && canDonate)
    (c ← get_sc sc_donated;
     let old_caller := scReply c in
     (if old_caller =? NULL then mret ()
      else o ← get_reply old_caller;
           assert! (callStackPtr (replyNext o) =? sc_donated));;
     when (negb (old_caller =? NULL))
       (mod_reply old_caller (set_replyNext (call_stack_new reply false)));;
     mod_reply reply (set_replyPrev (call_stack_new old_caller false));;
     mod_sc sc_donated (set_scReply reply);;
     mod_reply reply (set_replyNext (call_stack_new sc_donated true));;
     schedContext_donate sc_donated tcb_callee).

Definition reply_pop (reply tcb : Z) : K unit :=
  assert! (negb (reply =? NULL));;
  r ← get_reply reply;
  assert! (replyTCB r =? tcb);;
  t ← get_tcb tcb;
  assert! (ts_is ThreadState_BlockedOnReply t);;
  assert! (replyObject (tcbState t) =? reply);;
  let next_ptr := callStackPtr (replyNext r) in
  let prev_ptr := callStackPtr (replyPrev r) in
  mod_sc next_ptr (set_scReply prev_ptr);;
  when (negb (prev_ptr =? 0))
    (mod_reply prev_ptr (set_replyNext (replyNext r));;
     p ← get_reply prev_ptr; assert! (isHead (replyNext p)));;
  mod_reply reply (set_replyNext (call_stack_new 0 false));;
  t ← get_tcb tcb;
  when (tcbSchedContext t =? NULL) (schedContext_donate next_ptr tcb);;
  mod_reply reply (set_replyPrev (call_stack_new 0 false));;
  reply_unlink reply tcb.

Definition reply_remove (reply tcb : Z) : K unit :=
  r ← get_reply reply;
  assert! (replyTCB r =? tcb);;
  t ← get_tcb tcb;
  assert! (ts_is ThreadState_BlockedOnReply t);;
  assert! (replyObject (tcbState t) =? reply);;
  let next_ptr := callStackPtr (replyNext r) in
  let prev_ptr := callStackPtr (replyPrev r) in
  if negb (next_ptr =? 0) && isHead (replyNext r) then reply_pop reply tcb
  else
    when (negb (next_ptr =? 0)) (mod_reply next_ptr (set_replyPrev (call_stack_new 0 false)));;
    when (negb (prev_ptr =? 0)) (mod_reply prev_ptr (set_replyNext (call_stack_new 0 false)));;
    mod_reply reply (set_replyPrev (call_stack_new 0 false));;
    mod_reply reply (set_replyNext (call_stack_new 0 false));;
    reply_unlink reply tcb.

Definition reply_remove_tcb (tcb : Z) : K unit :=
  t ← get_tcb tcb;
  assert! (ts_is ThreadState_BlockedOnReply t);;
  let reply := replyObject (tcbState t) in
  r ← get_reply reply;
  let next_ptr := callStackPtr (replyNext r) in
  let prev_ptr := callStackPtr (replyPrev r) in
  when (negb (next_ptr =? 0))
    (if isHead (replyNext r) then mod_sc next_ptr (set_scReply NULL)
     else mod_reply next_ptr (set_replyPrev (call_stack_new 0 false)));;
  when (negb (prev_ptr =? 0)) (mod_reply prev_ptr (set_replyNext (call_stack_new 0 false)));;
  mod_reply reply (set_replyPrev (call_stack_new 0 false));;
  mod_reply reply (set_replyNext (call_stack_new 0 false));;
  reply_unlink reply tcb.
End reply.
