(* ===== verification/Notification.v ===== *)
(** * Notifications, and cancelling a thread's wait

    [kernel/object/notification.c], [kernel/include/object/notification.h], the
    queue accessors of [kernel/include/object/endpoint.h] and [cancelIPC] of
    [kernel/object/endpoint.c], which signalling needs. *)
From S2P Require Import Prelude Words Platform State Machine RefillList Sporadic Queues CapOps CSpace VSpace Thread SchedContext Reply.

Definition ep_queue (e : endpoint) : tcb_queue := TcbQueue (epQueue_head e) (epQueue_tail e).
Definition ep_ptr_get_queue (epptr : Z) : K tcb_queue := e ← get_ep epptr; mret (ep_queue e).
Definition ep_ptr_set_queue (epptr : Z) (queue : tcb_queue) : K unit :=
  mod_ep epptr (set_epQueue_head (q_head queue));;
  mod_ep epptr (set_epQueue_tail (q_end queue)).

Definition ntfn_queue (n : notification) : tcb_queue := TcbQueue (ntfnQueue_head n) (ntfnQueue_tail n).
Definition ntfn_ptr_get_queue (ntfnPtr : Z) : K tcb_queue := n ← get_ntfn ntfnPtr; mret (ntfn_queue n).
Definition ntfn_ptr_set_queue (ntfnPtr : Z) (queue : tcb_queue) : K unit :=
  mod_ntfn ntfnPtr (set_ntfnQueue_head (q_head queue));;
  mod_ntfn ntfnPtr (set_ntfnQueue_tail (q_end queue)).

Definition ntfn_set_active (ntfnPtr badge : Z) : K unit :=
  mod_ntfn ntfnPtr (set_ntfn_state NtfnState_Active);;
  mod_ntfn ntfnPtr (set_ntfnMsgIdentifier badge).

Definition doUnbindNotification (ntfnPtr tcbptr : Z) : K unit :=
  mod_ntfn ntfnPtr (set_ntfnBoundTCB 0);;
  mod_tcb tcbptr (set_tcbBoundNotification NULL).
Definition unbindMaybeNotification (ntfnPtr : Z) : K unit :=
  n ← get_ntfn ntfnPtr;
  when (negb (ntfnBoundTCB n =? NULL)) (doUnbindNotification ntfnPtr (ntfnBoundTCB n)).
Definition unbindNotification (tcb : Z) : K unit :=
  t ← get_tcb tcb;
  when (negb (tcbBoundNotification t =? NULL)) (doUnbindNotification (tcbBoundNotification t) tcb).
Definition bindNotification (tcb ntfnPtr : Z) : K unit :=
  mod_ntfn ntfnPtr (set_ntfnBoundTCB tcb);;
  mod_tcb tcb (set_tcbBoundNotification ntfnPtr).

Definition reorderEP (epptr thread : Z) : K unit :=
  queue ← ep_ptr_get_queue epptr;
  queue ← tcbEPDequeue thread queue;
  queue ← tcbEPAppend thread queue;
  ep_ptr_set_queue epptr queue.
Definition reorderNTFN (ntfnPtr thread : Z) : K unit :=
  queue ← ntfn_ptr_get_queue ntfnPtr;
  queue ← tcbEPDequeue thread queue;
  queue ← tcbEPAppend thread queue;
  ntfn_ptr_set_queue ntfnPtr queue.

Definition doNBRecvFailedTransfer (thread : Z) : K unit := setRegister thread badgeRegister 0.

Section notification.
Context `{Platform}.

(** [if (sc_sporadic(sc)) { assert(sc != ksCurSC); if (sc != ksCurSC) refill_unblock_check(sc); }] *)
Definition unblock_not_current (sc : Z) : K unit :=
  sporadic ← sc_sporadic sc;
  when sporadic
    (cur ← gets ksCurSC;
     assert! (negb (sc =? cur));;
     when (negb (sc =? cur)) (refill_unblock_check sc)).

Definition cancelSignal (threadPtr ntfnPtr : Z) : K unit :=
  n ← get_ntfn ntfnPtr;
  assert! (bool_decide (ntfn_state n = NtfnState_Waiting));;
  queue ← ntfn_ptr_get_queue ntfnPtr;
  queue ← tcbEPDequeue threadPtr queue;
  ntfn_ptr_set_queue ntfnPtr queue;;
  when (q_head queue =? NULL) (mod_ntfn ntfnPtr (set_ntfn_state NtfnState_Idle));;
  setThreadState threadPtr ThreadState_Inactive.

Definition cancelIPC (tptr : Z) : K unit :=
  mod_tcb tptr (set_tcbFault seL4_Fault_NullFault);;
  t ← get_tcb tptr;
  let state := tcbState t in
  match tsType state with
  | ThreadState_BlockedOnSend | ThreadState_BlockedOnReceive =>
    let epptr := blockingObject state in
    e ← get_ep epptr;
    assert! (negb (bool_decide (ep_state e = EPState_Idle)));;
    queue ← ep_ptr_get_queue epptr;
    queue ← tcbEPDequeue tptr queue;
    ep_ptr_set_queue epptr queue;;
    when (q_head queue =? NULL) (mod_ep epptr (set_ep_state EPState_Idle));;
    t ← get_tcb tptr;
    when (ts_is ThreadState_BlockedOnReceive t)
      (let reply := replyObject (tcbState t) in
       when (negb (reply =? NULL)) (reply_unlink reply tptr));;
    setThreadState tptr ThreadState_Inactive
  | ThreadState_BlockedOnNotification => cancelSignal tptr (blockingObject state)
  | ThreadState_BlockedOnReply => reply_remove_tcb tptr
  | _ => mret ()
  end.

Definition maybeReturnSchedContext (ntfnPtr tcb : Z) : K unit :=
  n ← get_ntfn ntfnPtr;
  let sc := ntfnSchedContext n in
  t ← get_tcb tcb;
  when (negb (sc =? NULL) && (sc =? tcbSchedContext t))
    (mod_tcb tcb (set_tcbSchedContext NULL);;
     mod_sc sc (set_scTcb NULL);;
     cur ← gets ksCurThread;
     when (tcb =? cur) rescheduleRequired).

Definition maybeDonateSchedContext (tcb ntfnPtr : Z) : K unit :=
  t ← get_tcb tcb;
  when (tcbSchedContext t =? NULL)
    (n ← get_ntfn ntfnPtr;
     let sc := ntfnSchedContext n in
     when (negb (sc =? NULL))
       (c ← get_sc sc;
        when (scTcb c =? NULL)
          (schedContext_donate sc tcb;;
           schedContext_resume sc))).

(** The common end of waking a thread with a signal. *)
Definition signal_wakeup (tcb ntfnPtr badge : Z) : K unit :=
  setThreadState tcb ThreadState_Running;;
  setRegister tcb badgeRegister badge;;
  maybeDonateSchedContext tcb ntfnPtr;;
  b ← isSchedulable tcb;
  when b (possibleSwitchTo tcb);;
  t ← get_tcb tcb;
  unblock_not_current (tcbSchedContext t).

Definition sendSignal (ntfnPtr badge : Z) : K unit :=
  n ← get_ntfn ntfnPtr;
  match ntfn_state n with
  | NtfnState_Idle =>
    let tcb := ntfnBoundTCB n in
    if negb (tcb =? NULL) then
      t ← get_tcb tcb;
      if ts_is ThreadState_BlockedOnReceive t then
        cancelIPC tcb;;
        signal_wakeup tcb ntfnPtr badge
      else ntfn_set_active ntfnPtr badge
    else ntfn_set_active ntfnPtr badge
  | NtfnState_Waiting =>
    queue ← ntfn_ptr_get_queue ntfnPtr;
    let dest := q_head queue in
    assert! (negb (dest =? NULL));;
    queue ← tcbEPDequeue dest queue;
    ntfn_ptr_set_queue ntfnPtr queue;;
    when (q_head queue =? NULL) (mod_ntfn ntfnPtr (set_ntfn_state NtfnState_Idle));;
    signal_wakeup dest ntfnPtr badge
  | NtfnState_Active =>
    mod_ntfn ntfnPtr (set_ntfnMsgIdentifier (Z.lor (ntfnMsgIdentifier n) badge))
  end.

Definition receiveSignal (thread : Z) (c : cap) (isBlocking : bool) : K unit :=
  match c with
  | cap_notification_cap _ _ _ ntfnPtr =>
    n ← get_ntfn ntfnPtr;
    match ntfn_state n with
    | NtfnState_Idle | NtfnState_Waiting =>
      if isBlocking then
        mod_ts thread (set_tsType ThreadState_BlockedOnNotification);;
        mod_ts thread (set_blockingObject ntfnPtr);;
        scheduleTCB thread;;
        queue ← ntfn_ptr_get_queue ntfnPtr;
        queue ← tcbEPAppend thread queue;
        mod_ntfn ntfnPtr (set_ntfn_state NtfnState_Waiting);;
        ntfn_ptr_set_queue ntfnPtr queue;;
        maybeReturnSchedContext ntfnPtr thread
      else doNBRecvFailedTransfer thread
    | NtfnState_Active =>
      setRegister thread badgeRegister (ntfnMsgIdentifier n);;
      mod_ntfn ntfnPtr (set_ntfn_state NtfnState_Idle);;
      maybeDonateSchedContext thread ntfnPtr;;
      t ← get_tcb thread;
      cur ← gets ksCurSC;
      if tcbSchedContext t =? cur then mret () else
      sporadic ← sc_sporadic (tcbSchedContext t);
      when sporadic (refill_unblock_check (tcbSchedContext t))
    end
  | _ => stuck BadPointer
  end.

Definition cancelAllSignals (ntfnPtr : Z) : K unit :=
  n ← get_ntfn ntfnPtr;
  when (bool_decide (ntfn_state n = NtfnState_Waiting))
    (mod_ntfn ntfnPtr (set_ntfn_state NtfnState_Idle);;
     mod_ntfn ntfnPtr (set_ntfnQueue_head 0);;
     mod_ntfn ntfnPtr (set_ntfnQueue_tail 0);;
     while64 (λ thread,
       if thread =? NULL then mret (inr ()) else
       setThreadState thread ThreadState_Restart;;
       t ← get_tcb thread;
       unblock_not_current (tcbSchedContext t);;
       possibleSwitchTo thread;;
       t ← get_tcb thread;
       mret (inl (tcbEPNext t))) (ntfnQueue_head n);;
     rescheduleRequired).

Definition completeSignal (ntfnPtr tcb : Z) : K unit :=
  n ← get_ntfn ntfnPtr;
  if negb (tcb =? NULL) && bool_decide (ntfn_state n = NtfnState_Active) then
    setRegister tcb badgeRegister (ntfnMsgIdentifier n);;
    mod_ntfn ntfnPtr (set_ntfn_state NtfnState_Idle);;
    maybeDonateSchedContext tcb ntfnPtr;;
    t ← get_tcb tcb;
    sporadic ← sc_sporadic (tcbSchedContext t);
    when sporadic
      (n ← get_ntfn ntfnPtr;
       cur ← gets ksCurSC;
       when ((tcbSchedContext t =? ntfnSchedContext n) && negb (tcbSchedContext t =? cur))
         (refill_unblock_check (tcbSchedContext t)))
  else fail!.
End notification.
