(* ===== verification/Endpoint.v ===== *)
(** * Endpoints, message transfer and faults

    [kernel/object/endpoint.c], the transfer routines of
    [kernel/kernel/thread.c], and [kernel/kernel/faulthandler.c]. *)
From S2P Require Import Prelude Words Platform State Machine RefillList Sporadic Queues CapOps CSpace VSpace Thread CNode Message SchedContext Reply Notification.

Section transfer.
Context `{Platform}.

(** The loop of [transferCaps]: [n] capabilities left, the [i]-th is next;
    the result is the tag and the number of capabilities dealt with. *)
Fixpoint transferCaps_loop (endpoint receiveBuffer : Z) (n : nat) (i info destSlot : Z) : K (Z * Z) :=
  match n with
  | O => mret (info, i)
  | S n' =>
    slot ← excapref i;
    if slot =? NULL then mret (info, i) else
    s ← get_cte slot;
    let c := cte_cap s in
    let transfer :=
      if destSlot =? NULL then mret (info, i) else
      dc ← deriveCap slot c;
      let '(status, dcap) := dc in
      if negb (status_ok status) then mret (info, i) else
      if is_null_cap dcap then mret (info, i) else
      cteInsert dcap slot destSlot;;
      transferCaps_loop endpoint receiveBuffer n' (i + 1) info NULL in
    match c with
    | cap_endpoint_cap capEPBadge _ _ _ _ capEPPtr =>
      if capEPPtr =? endpoint then
        setExtraBadge receiveBuffer capEPBadge i;;
        transferCaps_loop endpoint receiveBuffer n' (i + 1)
          (seL4_MessageInfo_set_capsUnwrapped info
             (Z.lor (seL4_MessageInfo_get_capsUnwrapped info) (Z.shiftl 1 i))) destSlot
      else transfer
    | _ => transfer
    end
  end.

Definition transferCaps (info endpoint receiver receiveBuffer : Z) : K Z :=
  let info := seL4_MessageInfo_set_extraCaps info 0 in
  let info := seL4_MessageInfo_set_capsUnwrapped info 0 in
  first ← excapref 0;
  if (first =? NULL) || (receiveBuffer =? NULL) then mret info else
  destSlot ← getReceiveSlots receiver receiveBuffer;
  r ← transferCaps_loop endpoint receiveBuffer (Z.to_nat seL4_MsgMaxExtraCaps) 0 info destSlot;
  let '(info, i) := r in
  mret (seL4_MessageInfo_set_extraCaps info i).

Definition doNormalTransfer (sender sendBuffer endpoint badge : Z) (canGrant : bool)
    (receiver receiveBuffer : Z) : K unit :=
  w ← getRegister sender msgInfoRegister;
  let tag := messageInfoFromWord w in
  (if canGrant then
     status ← lookupExtraCaps sender sendBuffer tag;
     when (negb (status_ok status)) (set_excapref 0 NULL)
   else set_excapref 0 NULL);;
  msgTransferred ← copyMRs sender sendBuffer receiver receiveBuffer (seL4_MessageInfo_get_length tag);
  tag ← transferCaps tag endpoint receiver receiveBuffer;
  let tag := seL4_MessageInfo_set_length tag msgTransferred in
  setRegister receiver msgInfoRegister (wordFromMessageInfo tag);;
  setRegister receiver badgeRegister badge.

Definition doFaultTransfer (badge sender receiver receiverIPCBuffer : Z) : K unit :=
  sent ← setMRs_fault sender receiver receiverIPCBuffer;
  t ← get_tcb sender;
  let msgInfo := seL4_MessageInfo_new (seL4_FaultType (tcbFault t)) 0 0 sent in
  setRegister receiver msgInfoRegister (wordFromMessageInfo msgInfo);;
  setRegister receiver badgeRegister badge.

Definition doIPCTransfer (sender endpoint badge : Z) (grant : bool) (receiver : Z) : K unit :=
  receiveBuffer ← lookupIPCBuffer true receiver;
  t ← get_tcb sender;
  if fault_is_null (tcbFault t) then
    sendBuffer ← lookupIPCBuffer false sender;
    doNormalTransfer sender sendBuffer endpoint badge grant receiver receiveBuffer
  else doFaultTransfer badge sender receiver receiveBuffer.
End transfer.

Section endpoint.
Context `{Platform}.

Definition sendIPC (blocking do_call : bool) (badge : Z) (canGrant canGrantReply canDonate : bool)
    (thread epptr : Z) : K unit :=
  e ← get_ep epptr;
  match ep_state e with
  | EPState_Idle | EPState_Send =>
    when blocking
      (mod_ts thread (set_tsType ThreadState_BlockedOnSend);;
       mod_ts thread (set_blockingObject epptr);;
       mod_ts thread (set_blockingIPCBadge badge);;
       mod_ts thread (set_blockingIPCCanGrant canGrant);;
       mod_ts thread (set_blockingIPCCanGrantReply canGrantReply);;
       mod_ts thread (set_blockingIPCIsCall do_call);;
       scheduleTCB thread;;
       queue ← ep_ptr_get_queue epptr;
       queue ← tcbEPAppend thread queue;
       mod_ep epptr (set_ep_state EPState_Send);;
       ep_ptr_set_queue epptr queue)
  | EPState_Recv =>
    queue ← ep_ptr_get_queue epptr;
    let dest := q_head queue in
    assert! (negb (dest =? NULL));;
    queue ← tcbEPDequeue dest queue;
    ep_ptr_set_queue epptr queue;;
    when (q_head queue =? NULL) (mod_ep epptr (set_ep_state EPState_Idle));;
    doIPCTransfer thread epptr badge canGrant dest;;
    d ← get_tcb dest;
    let reply := replyObject (tcbState d) in
    when (negb (reply =? NULL)) (reply_unlink reply dest);;
    t ← get_tcb thread;
    d ← get_tcb dest;
    (if do_call || negb (fault_is_null (tcbFault t)) then
       if negb (reply =? NULL) && (canGrant || canGrantReply) then
         reply_push thread dest reply canDonate
       else setThreadState thread ThreadState_Inactive
     else when (canDonate && (tcbSchedContext d =? NULL))
            (schedContext_donate (tcbSchedContext t) dest));;
    setThreadState dest ThreadState_Running;;
    d ← get_tcb dest;
    let dest_sc := tcbSchedContext d in
    (if dest_sc =? NULL then mret () else b ← sc_refill_sufficient dest_sc 0; assert! b);;
    (if dest_sc =? NULL then mret () else b ← sc_refill_ready dest_sc; assert! b);;
    sporadic ← sc_sporadic dest_sc;
    cur ← gets ksCurSC;
    when (sporadic && negb (dest_sc =? cur)) (refill_unblock_check dest_sc);;
    possibleSwitchTo dest
  end.

(** The part of [receiveIPC] for an endpoint with waiting senders. *)
Definition receiveIPC_from_sender (thread epptr replyPtr : Z) : K unit :=
  queue ← ep_ptr_get_queue epptr;
  let sender := q_head queue in
  assert! (negb (sender =? NULL));;
  queue ← tcbEPDequeue sender queue;
  ep_ptr_set_queue epptr queue;;
  when (q_head queue =? NULL) (mod_ep epptr (set_ep_state EPState_Idle));;
  s ← get_tcb sender;
  let badge := blockingIPCBadge (tcbState s) in
  let canGrant := blockingIPCCanGrant (tcbState s) in
  let canGrantReply := blockingIPCCanGrantReply (tcbState s) in
  doIPCTransfer sender epptr badge canGrant thread;;
  s ← get_tcb sender;
  let do_call := blockingIPCIsCall (tcbState s) in
  unblock_not_current (tcbSchedContext s);;
  if do_call || negb (fault_is_null (tcbFault s)) then
    if (canGrant || canGrantReply) && negb (replyPtr =? NULL) then
      let canDonate := negb (tcbSchedContext s =? NULL) && negb (fault_is_timeout (tcbFault s)) in
      reply_push sender thread replyPtr canDonate
    else setThreadState sender ThreadState_Inactive
  else
    setThreadState sender ThreadState_Running;;
    possibleSwitchTo sender;;
    s ← get_tcb sender;
    if tcbSchedContext s =? NULL then mret ()
    else b ← sc_refill_sufficient (tcbSchedContext s) 0; assert! b.

Definition receiveIPC (thread : Z) (c : cap) (isBlocking : bool) (replyCap : cap) : K unit :=
  match c with
  | cap_endpoint_cap _ _ _ _ _ epptr =>
    replyPtr ←
      (match replyCap with
       | cap_reply_cap capReplyPtr _ =>
         r ← get_reply capReplyPtr;
         let reply_tcb := replyTCB r in
         when (negb (reply_tcb =? NULL) && negb (reply_tcb =? thread)) (cancelIPC reply_tcb);;
         mret capReplyPtr
       | _ => mret NULL
       end);
    t ← get_tcb thread;
    let ntfnPtr := tcbBoundNotification t in
    active ← (if ntfnPtr =? NULL then mret false
              else n ← get_ntfn ntfnPtr; mret (bool_decide (ntfn_state n = NtfnState_Active)));
    if active : bool then completeSignal ntfnPtr thread
    else
      when (negb (ntfnPtr =? NULL) && isBlocking) (maybeReturnSchedContext ntfnPtr thread);;
      e ← get_ep epptr;
      match ep_state e with
      | EPState_Idle | EPState_Recv =>
        if isBlocking then
          mod_ts thread (set_tsType ThreadState_BlockedOnReceive);;
          mod_ts thread (set_blockingObject epptr);;
          mod_ts thread (set_replyObject replyPtr);;
          scheduleTCB thread;;
          when (negb (replyPtr =? NULL)) (mod_reply replyPtr (set_replyTCB thread));;
          queue ← ep_ptr_get_queue epptr;
          queue ← tcbEPAppend thread queue;
          mod_ep epptr (set_ep_state EPState_Recv);;
          ep_ptr_set_queue epptr queue
        else doNBRecvFailedTransfer thread
      | EPState_Send => receiveIPC_from_sender thread epptr replyPtr
      end
  | _ => fail!
  end.

Definition restart_thread_if_no_fault (thread : Z) : K unit :=
  t ← get_tcb thread;
  if fault_is_null (tcbFault t) then
    setThreadState thread ThreadState_Restart;;
    unblock_not_current (tcbSchedContext t);;
    possibleSwitchTo thread
  else setThreadState thread ThreadState_Inactive.

Definition cancelAllIPC (epptr : Z) : K unit :=
  e ← get_ep epptr;
  match ep_state e with
  | EPState_Idle => mret ()
  | _ =>
    mod_ep epptr (set_ep_state EPState_Idle);;
    mod_ep epptr (set_epQueue_head 0);;
    mod_ep epptr (set_epQueue_tail 0);;
    while64 (λ thread,
      if thread =? NULL then mret (inr ()) else
      t ← get_tcb thread;
      when (ts_is ThreadState_BlockedOnReceive t)
        (let reply := replyObject (tcbState t) in
         when (negb (reply =? NULL)) (reply_unlink reply thread));;
      restart_thread_if_no_fault thread;;
      t ← get_tcb thread;
      mret (inl (tcbEPNext t))) (epQueue_head e);;
    rescheduleRequired
  end.

Definition cancelBadgedSends (epptr badge : Z) : K unit :=
  e ← get_ep epptr;
  match ep_state e with
  | EPState_Idle | EPState_Recv => mret ()
  | EPState_Send =>
    queue ← ep_ptr_get_queue epptr;
    mod_ep epptr (set_ep_state EPState_Idle);;
    mod_ep epptr (set_epQueue_head 0);;
    mod_ep epptr (set_epQueue_tail 0);;
    queue ← while64 (λ '(thread, queue),
      if thread =? NULL then mret (inr queue) else
      t ← get_tcb thread;
      let b := blockingIPCBadge (tcbState t) in
      let next := tcbEPNext t in
      assert! (ts_is ThreadState_BlockedOnSend t);;
      if b =? badge then
        restart_thread_if_no_fault thread;;
        queue ← tcbEPDequeue thread queue;
        mret (inl (next, queue))
      else mret (inl (next, queue))) (q_head queue, queue);
    ep_ptr_set_queue epptr queue;;
    when (negb (q_head queue =? NULL)) (mod_ep epptr (set_ep_state EPState_Send));;
    rescheduleRequired
  end.

(** ** Faults *)
Definition validTimeoutHandler (tptr : Z) : K bool :=
  c ← get_cte (TCB_PTR_CTE_PTR tptr tcbTimeoutHandler);
  mret (match cte_cap c with cap_endpoint_cap _ _ _ _ _ _ => true | _ => false end).

Definition sendFaultIPC (tptr : Z) (handlerCap : cap) (can_donate : bool) : K bool :=
  match handlerCap with
  | cap_endpoint_cap capEPBadge capCanGrantReply capCanGrant capCanSend _ capEPPtr =>
    assert! capCanSend;;
    assert! (capCanGrant || capCanGrantReply);;
    fault ← gets current_fault;
    mod_tcb tptr (set_tcbFault fault);;
    sendIPC true false capEPBadge capCanGrant capCanGrantReply can_donate tptr capEPPtr;;
    mret true
  | _ => assert! (is_null_cap handlerCap);; mret false
  end.

Definition handleNoFaultHandler (tptr : Z) : K unit := setThreadState tptr ThreadState_Inactive.

Definition handleFault (tptr : Z) : K unit :=
  c ← get_cte (TCB_PTR_CTE_PTR tptr tcbFaultHandler);
  t ← get_tcb tptr;
  hasFaultHandler ← sendFaultIPC tptr (cte_cap c) (negb (tcbSchedContext t =? NULL));
  when (negb hasFaultHandler) (handleNoFaultHandler tptr).

Definition handleTimeout (tptr : Z) : K unit :=
  b ← validTimeoutHandler tptr; assert! b;;
  c ← get_cte (TCB_PTR_CTE_PTR tptr tcbTimeoutHandler);
  _ ← sendFaultIPC tptr (cte_cap c) false;
  mret ().

(** ** Replies *)
Definition doReplyTransfer (sender reply : Z) (grant : bool) : K unit :=
  r ← get_reply reply;
  let receiver := replyTCB r in
  waiting ← (if receiver =? NULL then mret false
             else t ← get_tcb receiver; mret (ts_is ThreadState_BlockedOnReply t));
  if negb waiting then mret () else
  reply_remove reply receiver;;
  t ← get_tcb receiver; assert! (ts_is ThreadState_Inactive t);;
  r ← get_reply reply; assert! (replyTCB r =? NULL);;
  sporadic ← sc_sporadic (tcbSchedContext t);
  cur ← gets ksCurSC;
  when (sporadic && negb (tcbSchedContext t =? cur)) (refill_unblock_check (tcbSchedContext t));;
  t ← get_tcb receiver;
  let fault := tcbFault t in
  (if fault_is_null fault then
     doIPCTransfer sender NULL 0 grant receiver;;
     setThreadState receiver ThreadState_Running
   else
     restart ← handleFaultReply receiver sender;
     mod_tcb receiver (set_tcbFault seL4_Fault_NullFault);;
     if restart : bool then setThreadState receiver ThreadState_Restart
     else setThreadState receiver ThreadState_Inactive);;
  t ← get_tcb receiver;
  when (negb (tcbSchedContext t =? NULL) && isRunnable t)
    (let sc := tcbSchedContext t in
     ok ← ready_and_sufficient sc;
     if ok : bool then possibleSwitchTo receiver
     else
       valid ← validTimeoutHandler receiver;
       if valid && negb (fault_is_timeout fault) then
         c ← get_sc sc;
         modify (set_current_fault (seL4_Fault_Timeout (scBadge c)));;
         handleTimeout receiver
       else postpone sc).

(** ** Threads *)
Definition suspend (target : Z) : K unit :=
  cancelIPC target;;
  t ← get_tcb target;
  when (ts_is ThreadState_Running t) (updateRestartPC target);;
  tcbSchedDequeue target;;
  tcbReleaseRemove target;;
  schedContext_cancelYieldTo target;;
  setThreadState target ThreadState_Inactive.

Definition restart (target : Z) : K unit :=
  t ← get_tcb target;
  when (isStopped t)
    (cancelIPC target;;
     setThreadState target ThreadState_Restart;;
     t ← get_tcb target;
     let sc := tcbSchedContext t in
     sporadic ← sc_sporadic sc;
     cur ← gets ksCurSC;
     when (sporadic && negb (sc =? cur)) (refill_unblock_check sc);;
     schedContext_resume sc;;
     b ← isSchedulable target;
     when b (possibleSwitchTo target)).

Definition Arch_activateIdleThread (tcb : Z) : K unit := mret ().

Definition activateThread : K unit :=
  cur ← gets ksCurThread;
  t ← get_tcb cur;
  when (negb (tcbYieldTo t =? NULL))
    (schedContext_completeYieldTo cur;;
     t ← get_tcb cur; assert! (ts_is ThreadState_Running t));;
  t ← get_tcb cur;
  match tsType (tcbState t) with
  | ThreadState_Running => mret ()
  | ThreadState_Restart =>
    pc ← getRestartPC cur;
    setNextPC cur pc;;
    setThreadState cur ThreadState_Running
  | ThreadState_IdleThreadState => Arch_activateIdleThread cur
  | _ => fail!
  end.

Definition setPriority (tptr prio : Z) : K unit :=
  t ← get_tcb tptr;
  cur ← gets ksCurThread;
  match tsType (tcbState t) with
  | ThreadState_Running | ThreadState_Restart =>
    if tcbQueued (tcbState t) || (tptr =? cur) then
      tcbSchedDequeue tptr;;
      mod_tcb tptr (set_tcbPriority prio);;
      tcbSchedEnqueue tptr;;
      rescheduleRequired
    else mod_tcb tptr (set_tcbPriority prio)
  | ThreadState_BlockedOnReceive | ThreadState_BlockedOnSend =>
    mod_tcb tptr (set_tcbPriority prio);;
    reorderEP (blockingObject (tcbState t)) tptr
  | ThreadState_BlockedOnNotification =>
    mod_tcb tptr (set_tcbPriority prio);;
    reorderNTFN (blockingObject (tcbState t)) tptr
  | _ => mod_tcb tptr (set_tcbPriority prio)
  end.

(** ** Charging the current scheduling context *)
Definition endTimeslice (can_timeout_fault : bool) : K unit :=
  cursc ← gets ksCurSC; cur ← gets ksCurThread;
  c ← get_sc cursc;
  let round_robin := isRoundRobin c in
  valid ← validTimeoutHandler cur;
  if can_timeout_fault && negb round_robin && valid then
    modify (set_current_fault (seL4_Fault_Timeout (scBadge c)));;
    handleTimeout cur
  else
    ok ← ready_and_sufficient cursc;
    if ok : bool then
      t ← get_tcb cur;
      assert! (negb (tcbQueued (tcbState t)));;
      tcbSchedAppend cur
    else postpone cursc.

Definition chargeBudget (consumed : Z) (canTimeoutFault : bool) : K unit :=
  cursc ← gets ksCurSC; idlesc ← gets ksIdleSC;
  when (negb (cursc =? idlesc))
    (c ← get_sc cursc;
     (if isRoundRobin c then
        assert! (refill_size c =? MIN_REFILLS);;
        on_sc cursc (head ← refill_head; tail ← refill_tail;
                     store_head (Refill (rTime head) (rAmount head +w rAmount tail)));;
        on_sc cursc (tail ← refill_tail; store_tail (Refill (rTime tail) 0))
      else on_sc cursc (refill_budget_check consumed));;
     h ← on_sc cursc refill_head;
     assert! (MIN_BUDGET <=? rAmount h);;
     mod_sc cursc (λ c, set_scConsumed (scConsumed c +w consumed) c));;
  modify (set_ksConsumed 0);;
  cur ← gets ksCurThread;
  b ← isSchedulable cur;
  when b
    (t ← get_tcb cur;
     cursc ← gets ksCurSC;
     assert! (tcbSchedContext t =? cursc);;
     endTimeslice canTimeoutFault;;
     rescheduleRequired;;
     modify (set_ksReprogram true)).

Definition checkBudget : K bool :=
  cursc ← gets ksCurSC;
  b ← sc_refill_ready cursc; assert! b;;
  consumed ← gets ksConsumed;
  ok ← sc_refill_sufficient cursc consumed;
  if ok : bool then expired ← isCurDomainExpired; mret (negb expired)
  else chargeBudget consumed true;; mret false.

Definition checkBudgetRestart : K bool :=
  cur ← gets ksCurThread;
  t ← get_tcb cur; assert! (isRunnable t);;
  result ← checkBudget;
  t ← get_tcb cur;
  when (negb result && isRunnable t) (setThreadState cur ThreadState_Restart);;
  mret result.
End endpoint.
