(* ===== verification/Delete.v ===== *)
(** * Finalising objects and deleting capabilities

    [finaliseCap] of [kernel/object/objecttype.c], deletion and revocation of
    [kernel/object/cnode.c], the interrupt slots of [kernel/object/interrupt.c]
    and [kernel/model/preemption.c].

    The mutual recursion of [cteDelete], [finaliseSlot] and [reduceZombie] is two
    levels deep: only [reduceZombie] with [immediate] set calls [cteDelete], and
    it calls it with [exposed] false. [finaliseCap] calls [cteDeleteOne] for the
    slot of an interrupt handler, and [cteDeleteOne] calls [finaliseCap] with
    [exposed] set, which never reaches that case again. Each level is therefore
    an instance of a definition that takes the level below as an argument. *)
From S2P Require Import Prelude Words Platform State Machine RefillList Sporadic Queues CapOps CSpace VSpace Thread CNode Message SchedContext Reply Notification Endpoint.

Section delete.
Context `{Platform}.

Definition preemptionPoint : K exception_t :=
  modify (λ s, set_ksWorkUnitsCompleted (ksWorkUnitsCompleted s +w 1) s);;
  n ← gets ksWorkUnitsCompleted;
  if CONFIG_MAX_NUM_WORK_UNITS_PER_PREEMPTION <=? n then
    modify (set_ksWorkUnitsCompleted 0);;
    updateTimestamp;;
    pending ← isIRQPending;
    preempt ←
      (if pending : bool then mret true else
       expired ← isCurDomainExpired;
       if expired : bool then mret true else
       cursc ← gets ksCurSC; consumed ← gets ksConsumed;
       c ← get_sc cursc;
       if sc_active c then b ← sc_refill_sufficient cursc consumed; mret (negb b)
       else mret true);
    mret (if preempt : bool then EXCEPTION_PREEMPTED else EXCEPTION_NONE)
  else mret EXCEPTION_NONE.

(** ** Interrupts *)
Definition setIRQState (irqState : irq_state) (irq : Z) : K unit :=
  modify (λ s, set_intStateIRQTable (<[irq := irqState]> (intStateIRQTable s)) s);;
  maskInterrupt (bool_decide (irqState = IRQInactive)) irq.
Definition isIRQActive (irq : Z) : K bool :=
  s ← get_state;
  st ← deref (intStateIRQTable s !! irq);
  mret (negb (bool_decide (st = IRQInactive))).
Definition deletedIRQHandler (irq : Z) : K unit := setIRQState IRQInactive irq.

Definition Arch_postCapDeletion (c : cap) : K unit := mret ().
Definition postCapDeletion (c : cap) : K unit :=
  match c with
  | cap_irq_handler_cap capIRQ => deletedIRQHandler capIRQ
  | _ => when (isArchCap c) (Arch_postCapDeletion c)
  end.

(** ** Finalising *)
Definition Arch_finaliseCap (c : cap) (final : bool) : K (cap * cap) :=
  (match c with
   | cap_frame_cap capFMappedASID capFBasePtr capFSize _ _ capFMappedAddress =>
     when (negb (capFMappedASID =? 0))
       (unmapPage capFSize capFMappedASID capFMappedAddress capFBasePtr)
   | cap_page_table_cap asid pte capPTIsMapped capPTMappedAddress =>
     when (final && capPTIsMapped)
       (find_ret ← findVSpaceForASID asid;
        let '(status, vspace_root) := find_ret in
        if status_ok status && (vspace_root =? pte) then deleteASID asid pte
        else unmapPageTable asid capPTMappedAddress pte)
   | cap_asid_pool_cap capASIDBase capASIDPool =>
     when final (deleteASIDPool capASIDBase capASIDPool)
   | _ => mret ()
   end);;
  mret (cap_null_cap, cap_null_cap).

Definition Arch_prepareThreadDelete (thread : Z) : K unit := mret ().

Definition no_remainder : K (cap * cap) := mret (cap_null_cap, cap_null_cap).

(** The remainder of the capability and the cleanup information. *)
Definition finaliseCap_with (deletingIRQHandler : Z → K unit) (c : cap) (final exposed : bool) :
    K (cap * cap) :=
  if isArchCap c then Arch_finaliseCap c final else
  match c with
  | cap_endpoint_cap _ _ _ _ _ capEPPtr =>
    when final (cancelAllIPC capEPPtr);; no_remainder
  | cap_notification_cap _ _ _ ntfn =>
    when final
      (schedContextMaybeUnbindNtfn ntfn;;
       unbindMaybeNotification ntfn;;
       cancelAllSignals ntfn);;
    no_remainder
  | cap_reply_cap reply _ =>
    when (final && negb (reply =? NULL))
      (r ← get_reply reply;
       let tcb := replyTCB r in
       when (negb (tcb =? NULL))
         (t ← get_tcb tcb;
          match tsType (tcbState t) with
          | ThreadState_BlockedOnReply => reply_remove reply tcb
          | ThreadState_BlockedOnReceive => cancelIPC tcb
          | _ => fail!
          end));;
    no_remainder
  | cap_null_cap | cap_domain_cap => no_remainder
  | _ =>
    if exposed then fail! else
    match c with
    | cap_cnode_cap capCNodeRadix _ _ capCNodePtr =>
      if final then
        mret (Zombie_new (1 <<w capCNodeRadix) capCNodeRadix capCNodePtr, cap_null_cap)
      else no_remainder
    | cap_thread_cap tcb =>
      if final then
        let cte_ptr := TCB_PTR_CTE_PTR tcb tcbCTable in
        unbindNotification tcb;;
        t ← get_tcb tcb;
        let sc := tcbSchedContext t in
        when (negb (sc =? NULL))
          (schedContext_unbindTCB sc;;
           o ← get_sc sc;
           when (negb (scYieldFrom o =? NULL)) (schedContext_completeYieldTo (scYieldFrom o)));;
        suspend tcb;;
        Arch_prepareThreadDelete tcb;;
        mret (Zombie_new tcbArchCNodeEntries ZombieType_ZombieTCB cte_ptr, cap_null_cap)
      else no_remainder
    | cap_sched_context_cap sc _ =>
      if final then
        schedContext_unbindAllTCBs sc;;
        schedContext_unbindNtfn sc;;
        schedContext_unbindReply sc;;
        o ← get_sc sc;
        when (negb (scYieldFrom o =? NULL)) (schedContext_completeYieldTo (scYieldFrom o));;
        mod_sc sc (set_scRefillMax 0);;
        mod_sc sc (set_scSporadic false);;
        no_remainder
      else no_remainder
    | cap_zombie_cap _ _ => mret (c, cap_null_cap)
    | cap_irq_handler_cap irq =>
      if final then deletingIRQHandler irq;; mret (cap_null_cap, c)
      else no_remainder
    | _ => no_remainder
    end
  end.

(** ** Emptying slots *)
Definition emptySlot (slot : Z) (cleanupInfo : cap) : K unit :=
  c ← get_cte slot;
  when (negb (is_null_cap (cte_cap c)))
    (let mdbNode := cteMDBNode c in
     let prev := mdbPrev mdbNode in
     let next := mdbNext mdbNode in
     when (negb (prev =? NULL)) (mod_mdb prev (set_mdbNext next));;
     when (negb (next =? NULL)) (mod_mdb next (set_mdbPrev prev));;
     when (negb (next =? NULL))
       (mod_mdb next (λ m, set_mdbFirstBadged (mdbFirstBadged m || mdbFirstBadged mdbNode) m));;
     mod_cte slot (set_cte_cap cap_null_cap);;
     mod_cte slot (set_cteMDBNode nullMDBNode);;
     postCapDeletion cleanupInfo).

Definition capRemovable (c : cap) (slot : Z) : option bool :=
  match c with
  | cap_null_cap => Some true
  | cap_zombie_cap _ _ =>
    n ← cap_zombie_cap_get_capZombieNumber c;
    z_slot ← cap_zombie_cap_get_capZombiePtr c;
    Some ((n =? 0) || ((n =? 1) && (slot =? z_slot)))
  | _ => None
  end.

Definition capCyclicZombie (c : cap) (slot : Z) : bool :=
  match cap_zombie_cap_get_capZombiePtr c with Some ptr => ptr =? slot | None => false end.

Definition cteDeleteOne (slot : Z) : K unit :=
  c ← get_cte slot;
  when (negb (is_null_cap (cte_cap c)))
    (final ← isFinalCapability slot;
     fc ← finaliseCap_with (λ _, fail!) (cte_cap c) final true;
     let '(remainder, cleanupInfo) := fc in
     removable ← lift (capRemovable remainder slot);
     assert! (removable && is_null_cap cleanupInfo);;
     emptySlot slot cap_null_cap).

Definition deletingIRQHandler (irq : Z) : K unit := cteDeleteOne (cte_index intStateIRQNode irq).

Definition finaliseCap : cap → bool → bool → K (cap * cap) := finaliseCap_with deletingIRQHandler.

(** ** Deletion and revocation *)
Definition reduceZombie_with (cteDelete : Z → bool → K exception_t) (slot : Z) (immediate : bool) :
    K exception_t :=
  c ← get_cte slot;
  match cte_cap c with
  | cap_zombie_cap _ type =>
    ptr ← lift (cap_zombie_cap_get_capZombiePtr (cte_cap c));
    n ← lift (cap_zombie_cap_get_capZombieNumber (cte_cap c));
    assert! (0 <? n);;
    if immediate then
      let endSlot := cte_index ptr (n - 1) in
      status ← cteDelete endSlot false;
      if negb (status_ok status) then mret status else
      c ← get_cte slot;
      match cte_cap c with
      | cap_null_cap => mret EXCEPTION_NONE
      | cap_zombie_cap _ type2 =>
        ptr2 ← lift (cap_zombie_cap_get_capZombiePtr (cte_cap c));
        n2 ← lift (cap_zombie_cap_get_capZombieNumber (cte_cap c));
        (if (ptr =? ptr2) && (n2 =? n) && (type2 =? type) then
           e ← get_cte endSlot; assert! (is_null_cap (cte_cap e));;
           c' ← lift (cap_zombie_cap_set_capZombieNumber (cte_cap c) (n - 1));
           mod_cte slot (set_cte_cap c')
         else assert! ((ptr2 =? slot) && negb (ptr =? slot)));;
        mret EXCEPTION_NONE
      | _ => fail!
      end
    else
      assert! (negb (ptr =? slot));;
      p ← get_cte ptr;
      (match cap_zombie_cap_get_capZombiePtr (cte_cap p) with
       | Some ptr' => assert! (negb (ptr =? ptr'))
       | None => mret ()
       end);;
      capSwapForDelete ptr slot;;
      mret EXCEPTION_NONE
  | _ => fail!
  end.

(** The status, whether the slot can be emptied, and the cleanup information. *)
Definition finaliseSlot_with (cteDelete : Z → bool → K exception_t) (slot : Z) (immediate : bool) :
    K (exception_t * bool * cap) :=
  while64 (λ _ : unit,
    c ← get_cte slot;
    if is_null_cap (cte_cap c) then mret (inr (EXCEPTION_NONE, true, cap_null_cap)) else
    final ← isFinalCapability slot;
    fc ← finaliseCap (cte_cap c) final false;
    let '(remainder, cleanupInfo) := fc in
    removable ← lift (capRemovable remainder slot);
    if removable : bool then mret (inr (EXCEPTION_NONE, true, cleanupInfo)) else
    mod_cte slot (set_cte_cap remainder);;
    if negb immediate && capCyclicZombie remainder slot
    then mret (inr (EXCEPTION_NONE, false, cleanupInfo)) else
    status ← reduceZombie_with cteDelete slot immediate;
    if negb (status_ok status) then mret (inr (status, false, cap_null_cap)) else
    status ← preemptionPoint;
    if negb (status_ok status) then mret (inr (status, false, cap_null_cap)) else
    mret (inl ())) ().

Definition cteDelete_with (cteDelete : Z → bool → K exception_t) (slot : Z) (exposed : bool) :
    K exception_t :=
  fs ← finaliseSlot_with cteDelete slot exposed;
  let '(status, success, cleanupInfo) := fs in
  if negb (status_ok status) then mret status else
  when (exposed || success) (emptySlot slot cleanupInfo);;
  mret EXCEPTION_NONE.

Definition cteDelete : Z → bool → K exception_t :=
  cteDelete_with (cteDelete_with (λ _ _, fail!)).

Definition finaliseSlot : Z → bool → K (exception_t * bool * cap) :=
  finaliseSlot_with (cteDelete_with (λ _ _, fail!)).
Definition reduceZombie : Z → bool → K exception_t :=
  reduceZombie_with (cteDelete_with (λ _ _, fail!)).

Definition cteRevoke (slot : Z) : K exception_t :=
  while64 (λ _ : unit,
    c ← get_cte slot;
    let nextPtr := mdbNext (cteMDBNode c) in
    child ← (if nextPtr =? NULL then mret false else isMDBParentOf slot nextPtr);
    if negb child then mret (inr EXCEPTION_NONE) else
    status ← cteDelete nextPtr true;
    if negb (status_ok status) then mret (inr status) else
    status ← preemptionPoint;
    if negb (status_ok status) then mret (inr status) else
    mret (inl ())) ().
End delete.
