(* ===== verification/CNodeInv.v ===== *)
(** * Invocations of CNode capabilities

    [decodeCNodeInvocation] and the [invokeCNode] functions of
    [kernel/object/cnode.c]. *)
From S2P Require Import Prelude Words Platform State Machine RefillList Sporadic Queues CapOps CSpace VSpace Thread CNode Message SchedContext Reply Notification Endpoint Delete.

Definition CNodeRevoke : Z := 18.
Definition CNodeDelete : Z := 19.
Definition CNodeCancelBadgedSends : Z := 20.
Definition CNodeCopy : Z := 21.
Definition CNodeMint : Z := 22.
Definition CNodeMove : Z := 23.
Definition CNodeMutate : Z := 24.
Definition CNodeRotate : Z := 25.
Definition CNODE_LAST_INVOCATION : Z := CNodeRotate.

(** The capability in the slot of the [i]-th extra capability. *)
Definition excap (i : Z) : K cap := ref ← excapref i; c ← get_cte ref; mret (cte_cap c).

Definition missing_capability_ret (wasSource : bool) (depth : Z) : K exception_t :=
  set_error_type seL4_FailedLookup;;
  mod_error (set_failedLookupWasSource wasSource);;
  set_lookup_fault (lookup_fault_missing_capability depth);;
  mret EXCEPTION_SYSCALL_ERROR.

Section cnode_inv.
Context `{Platform}.

Definition invokeCNodeRevoke (destSlot : Z) : K exception_t := cteRevoke destSlot.
Definition invokeCNodeDelete (destSlot : Z) : K exception_t := cteDelete destSlot true.
Definition invokeCNodeCancelBadgedSends (c : cap) : K exception_t :=
  match c with
  | cap_endpoint_cap badge _ _ _ _ ep =>
    when (negb (badge =? 0)) (cancelBadgedSends ep badge);; mret EXCEPTION_NONE
  | _ => stuck BadPointer
  end.
Definition invokeCNodeInsert (c : cap) (srcSlot destSlot : Z) : K exception_t :=
  cteInsert c srcSlot destSlot;; mret EXCEPTION_NONE.
Definition invokeCNodeMove (c : cap) (srcSlot destSlot : Z) : K exception_t :=
  cteMove c srcSlot destSlot;; mret EXCEPTION_NONE.
Definition invokeCNodeRotate (cap1 cap2 : cap) (slot1 slot2 slot3 : Z) : K exception_t :=
  (if slot1 =? slot3 then cteSwap cap1 slot1 cap2 slot2
   else cteMove cap2 slot2 slot3;; cteMove cap1 slot1 slot2);;
  mret EXCEPTION_NONE.

(** The new capability of Copy, Mint, Move and Mutate, and whether it replaces
    the source; or the status the decoding fails with. *)
Definition decodeCNode_newCap (invLabel length srcSlot buffer : Z) : K (exception_t + cap * bool) :=
  src ← get_cte srcSlot;
  if invLabel =? CNodeCopy then
    if length <? 5 then e ← syscall_error_ret seL4_TruncatedMessage; mret (inl e) else
    w ← getSyscallArg 4 buffer;
    let srcCap := maskCapRights (rightsFromWord w) (cte_cap src) in
    dc ← deriveCap srcSlot srcCap;
    let '(status, newCap) := dc in
    mret (if status_ok status then inr (newCap, false) else inl status)
  else if invLabel =? CNodeMint then
    if length <? 6 then e ← syscall_error_ret seL4_TruncatedMessage; mret (inl e) else
    w ← getSyscallArg 4 buffer;
    capData ← getSyscallArg 5 buffer;
    let srcCap := maskCapRights (rightsFromWord w) (cte_cap src) in
    dc ← deriveCap srcSlot (updateCapData false capData srcCap);
    let '(status, newCap) := dc in
    mret (if status_ok status then inr (newCap, false) else inl status)
  else if invLabel =? CNodeMove then mret (inr (cte_cap src, true))
  else if invLabel =? CNodeMutate then
    if length <? 5 then e ← syscall_error_ret seL4_TruncatedMessage; mret (inl e) else
    capData ← getSyscallArg 4 buffer;
    mret (inr (updateCapData true capData (cte_cap src), true))
  else fail!.

Definition decodeCNode_transfer (invLabel length destSlot buffer : Z) : K exception_t :=
  ref ← excapref 0;
  if (length <? 4) || (ref =? NULL) then syscall_error_ret seL4_TruncatedMessage else
  srcIndex ← getSyscallArg 2 buffer;
  srcDepth ← getSyscallArg 3 buffer;
  srcRoot ← excap 0;
  status ← ensureEmptySlot destSlot;
  if negb (status_ok status) then mret status else
  lu ← lookupSourceSlot srcRoot srcIndex srcDepth;
  let '(status, srcSlot) := lu in
  if negb (status_ok status) then mret status else
  src ← get_cte srcSlot;
  if is_null_cap (cte_cap src) then missing_capability_ret true srcDepth else
  r ← decodeCNode_newCap invLabel length srcSlot buffer;
  match r with
  | inl status => mret status
  | inr (newCap, isMove) =>
    if is_null_cap newCap then syscall_error_ret seL4_IllegalOperation else
    cur ← gets ksCurThread;
    setThreadState cur ThreadState_Restart;;
    if isMove : bool then invokeCNodeMove newCap srcSlot destSlot
    else invokeCNodeInsert newCap srcSlot destSlot
  end.

Definition decodeCNode_rotate (length destSlot buffer : Z) : K exception_t :=
  ref0 ← excapref 0;
  ref1 ← (if (length <? 8) || (ref0 =? NULL) then mret NULL else excapref 1);
  if (length <? 8) || (ref0 =? NULL) || (ref1 =? NULL) then
    syscall_error_ret seL4_TruncatedMessage else
  pivotNewData ← getSyscallArg 2 buffer;
  pivotIndex ← getSyscallArg 3 buffer;
  pivotDepth ← getSyscallArg 4 buffer;
  srcNewData ← getSyscallArg 5 buffer;
  srcIndex ← getSyscallArg 6 buffer;
  srcDepth ← getSyscallArg 7 buffer;
  pivotRoot ← excap 0;
  srcRoot ← excap 1;
  lu ← lookupSourceSlot srcRoot srcIndex srcDepth;
  let '(status, srcSlot) := lu in
  if negb (status_ok status) then mret status else
  lu ← lookupPivotSlot pivotRoot pivotIndex pivotDepth;
  let '(status, pivotSlot) := lu in
  if negb (status_ok status) then mret status else
  if (pivotSlot =? srcSlot) || (pivotSlot =? destSlot) then
    syscall_error_ret seL4_IllegalOperation else
  status ← (if negb (srcSlot =? destSlot) then ensureEmptySlot destSlot else mret EXCEPTION_NONE);
  if negb (status_ok status) then mret status else
  src ← get_cte srcSlot;
  if is_null_cap (cte_cap src) then missing_capability_ret true srcDepth else
  pivot ← get_cte pivotSlot;
  if is_null_cap (cte_cap pivot) then missing_capability_ret false pivotDepth else
  let newSrcCap := updateCapData true srcNewData (cte_cap src) in
  let newPivotCap := updateCapData true pivotNewData (cte_cap pivot) in
  if is_null_cap newSrcCap then syscall_error_ret seL4_IllegalOperation else
  if is_null_cap newPivotCap then syscall_error_ret seL4_IllegalOperation else
  cur ← gets ksCurThread;
  setThreadState cur ThreadState_Restart;;
  invokeCNodeRotate newSrcCap newPivotCap srcSlot pivotSlot destSlot.

Definition decodeCNodeInvocation (invLabel length : Z) (c : cap) (buffer : Z) : K exception_t :=
  assert! (match c with cap_cnode_cap _ _ _ _ => true | _ => false end);;
  if (invLabel <? CNodeRevoke) || (CNODE_LAST_INVOCATION <? invLabel) then
    syscall_error_ret seL4_IllegalOperation else
  if length <? 2 then syscall_error_ret seL4_TruncatedMessage else
  index ← getSyscallArg 0 buffer;
  w_bits ← getSyscallArg 1 buffer;
  lu ← lookupTargetSlot c index w_bits;
  let '(status, destSlot) := lu in
  if negb (status_ok status) then mret status else
  cur ← gets ksCurThread;
  if (CNodeCopy <=? invLabel) && (invLabel <=? CNodeMutate) then
    decodeCNode_transfer invLabel length destSlot buffer
  else if invLabel =? CNodeRevoke then
    setThreadState cur ThreadState_Restart;; invokeCNodeRevoke destSlot
  else if invLabel =? CNodeDelete then
    setThreadState cur ThreadState_Restart;; invokeCNodeDelete destSlot
  else if invLabel =? CNodeCancelBadgedSends then
    dest ← get_cte destSlot;
    if negb (hasCancelSendRights (cte_cap dest)) then syscall_error_ret seL4_IllegalOperation else
    setThreadState cur ThreadState_Restart;;
    invokeCNodeCancelBadgedSends (cte_cap dest)
  else if invLabel =? CNodeRotate then decodeCNode_rotate length destSlot buffer
  else mret EXCEPTION_NONE.
End cnode_inv.
