(* ===== verification/Untyped.v ===== *)
(** * Untyped memory

    [kernel/object/untyped.c] and the object creation of
    [kernel/object/objecttype.c]. Memory that the kernel clears holds no object;
    creating an object puts the zero-initialised object of its type at its
    address. *)
From S2P Require Import Prelude Words Platform State Machine RefillList Sporadic Queues CapOps CSpace VSpace Thread CNode Message SchedContext Reply Notification Endpoint Delete CNodeInv.

Definition UntypedRetype : Z := 1.

(** ** Zero-initialised objects *)
Definition zero_thread_state : thread_state :=
  ThreadState 0 false false false false false 0 0 ThreadState_Inactive.
(** [Arch_initContext]: [SSTATUS] gets [SSTATUS_SPIE]. *)
Definition Arch_initContext : gmap Z Z := {[ 32 := 32 ]}.
Definition new_tcb (domain : Z) : tcb :=
  Tcb Arch_initContext zero_thread_state 0 NULL seL4_Fault_NullFault lookup_fault_invalid_root
    domain 0 0 NULL NULL 0 NULL NULL NULL NULL.
Definition zero_cte : cte := Cte cap_null_cap nullMDBNode.
Definition zero_endpoint : endpoint := Endpoint 0 0 EPState_Idle.
Definition zero_notification : notification := Notification 0 0 0 0 0 NtfnState_Idle.
Definition zero_reply : reply := Reply NULL (call_stack_new 0 false) (call_stack_new 0 false).
Definition zero_sched_context (n : nat) : sched_context :=
  SchedContext 0 0 0 NULL NULL NULL 0 NULL 0 0 0 false (replicate n (Refill 0 0)).

(** Is [p] outside of the [2^bits] bytes at [base]? *)
Definition outside (base bits p : Z) : Prop := p < base ∨ base + 2 ^ bits ≤ p.
#[global] Instance outside_dec base bits p : Decision (outside base bits p).
Proof. unfold outside. apply _. Defined.

(** The state with the objects and words that are at addresses with [P] *)
Definition keep_objects (P : Z → Prop) `{∀ p, Decision (P p)} (s : kstate) : kstate :=
  set_ctes (filter (λ kv, P kv.1) (ctes s))
  (set_tcbs (filter (λ kv, P kv.1) (tcbs s))
  (set_eps (filter (λ kv, P kv.1) (eps s))
  (set_ntfns (filter (λ kv, P kv.1) (ntfns s))
  (set_scs (filter (λ kv, P kv.1) (scs s))
  (set_replies (filter (λ kv, P kv.1) (replies s))
  (set_user_mem (filter (λ kv, P kv.1) (user_mem s)) s)))))).

(** [memzero] over [2^bits] bytes *)
Definition clearMemory (base bits : Z) : K unit := modify (keep_objects (outside base bits)).

(** [n] empty slots from [base] on *)
Fixpoint new_slots (base : Z) (n : nat) (m : gmap Z cte) : gmap Z cte :=
  match n with
  | O => m
  | S n' => <[base := zero_cte]> (new_slots (cte_index base 1) n' m)
  end.

Section untyped.
Context `{Platform}.

Definition createObject (t regionBase userSize : Z) (deviceMemory : bool) : K cap :=
  if seL4_NonArchObjectTypeCount <=? t then lift (Arch_createObject t regionBase userSize deviceMemory)
  else if t =? seL4_TCBObject then
    let tcb := regionBase +w TCB_OFFSET in
    dom ← gets ksCurDomain;
    modify (λ s, set_ctes (new_slots regionBase (Z.to_nat tcbCNodeEntries) (ctes s)) s);;
    modify (λ s, set_tcbs (<[tcb := new_tcb dom]> (tcbs s)) s);;
    mret (cap_thread_cap tcb)
  else if t =? seL4_EndpointObject then
    modify (λ s, set_eps (<[regionBase := zero_endpoint]> (eps s)) s);;
    mret (cap_endpoint_cap 0 true true true true regionBase)
  else if t =? seL4_NotificationObject then
    modify (λ s, set_ntfns (<[regionBase := zero_notification]> (ntfns s)) s);;
    mret (cap_notification_cap 0 true true regionBase)
  else if t =? seL4_CapTableObject then
    modify (λ s, set_ctes (new_slots regionBase (Z.to_nat (2 ^ userSize)) (ctes s)) s);;
    mret (cap_cnode_cap userSize 0 0 regionBase)
  else if t =? seL4_UntypedObject then
    mret (cap_untyped_cap 0 deviceMemory userSize regionBase)
  else if t =? seL4_SchedContextObject then
    let c := cap_sched_context_cap regionBase userSize in
    modify (λ s, set_scs
      (<[regionBase := zero_sched_context (Z.to_nat (refill_absolute_max c))]> (scs s)) s);;
    mret c
  else if t =? seL4_ReplyObject then
    modify (λ s, set_replies (<[regionBase := zero_reply]> (replies s)) s);;
    mret (cap_reply_cap regionBase true)
  else fail!.

Definition createNewObjects (t parent destCNode destOffset destLength regionBase userSize : Z)
    (deviceMemory : bool) : K unit :=
  objectSize ← lift (getObjectSize t userSize);
  for_range 0 destLength (λ i,
    c ← createObject t (regionBase +w (i <<w objectSize)) userSize deviceMemory;
    insertNewCap parent (cte_index destCNode (destOffset + i)) c).

Definition resetUntypedCap (srcSlot : Z) : K exception_t :=
  src ← get_cte srcSlot;
  let prev_cap := cte_cap src in
  match prev_cap with
  | cap_untyped_cap capFreeIndex deviceMemory block_size regionBase =>
    let chunk := CONFIG_RESET_CHUNK_BITS in
    let offset := FREE_INDEX_TO_OFFSET capFreeIndex in
    if offset =? 0 then mret EXCEPTION_NONE
    else if deviceMemory || (block_size <? chunk) then
      when (negb deviceMemory) (clearMemory regionBase block_size);;
      mod_cte srcSlot (set_cte_cap (cap_untyped_cap_set_capFreeIndex prev_cap 0));;
      mret EXCEPTION_NONE
    else
      while64 (λ offset,
        if offset =? wrap (- BIT chunk) then mret (inr EXCEPTION_NONE) else
        clearMemory (GET_OFFSET_FREE_PTR regionBase offset) chunk;;
        mod_cte srcSlot
          (set_cte_cap (cap_untyped_cap_set_capFreeIndex prev_cap (OFFSET_TO_FREE_INDEX offset)));;
        status ← preemptionPoint;
        if negb (status_ok status) then mret (inr status)
        else mret (inl (offset -w BIT chunk))) (ROUND_DOWN (offset -w 1) chunk)
  | _ => stuck BadPointer
  end.

Definition invokeUntyped_Retype (srcSlot : Z) (reset : bool) (retypeBase newType userSize
    destCNode destOffset destLength : Z) (deviceMemory : bool) : K exception_t :=
  src ← get_cte srcSlot;
  match cte_cap src with
  | cap_untyped_cap _ _ _ regionBase =>
    status ← (if reset then resetUntypedCap srcSlot else mret EXCEPTION_NONE);
    if negb (status_ok status) then mret status else
    objectSize ← lift (getObjectSize newType userSize);
    let totalObjectSize := destLength <<w objectSize in
    let freeRef := retypeBase +w totalObjectSize in
    mod_cte srcSlot (λ c,
      set_cte_cap (cap_untyped_cap_set_capFreeIndex (cte_cap c) (GET_FREE_INDEX regionBase freeRef)) c);;
    createNewObjects newType srcSlot destCNode destOffset destLength retypeBase userSize deviceMemory;;
    mret EXCEPTION_NONE
  | _ => stuck BadPointer
  end.

(** Are the slots [i .. i + n - 1] of a CNode empty? *)
Fixpoint ensureEmptySlots (destCNode : Z) (n : nat) (i : Z) : K exception_t :=
  match n with
  | O => mret EXCEPTION_NONE
  | S n' =>
    status ← ensureEmptySlot (cte_index destCNode i);
    if negb (status_ok status) then mret status else ensureEmptySlots destCNode n' (i + 1)
  end.

(** The last part of [decodeUntypedInvocation]: where the objects go in memory. *)
Definition decodeUntyped_place (slot : Z) (c : cap) (newType userObjSize objectSize destCNode
    nodeOffset nodeWindow : Z) : K exception_t :=
  match c with
  | cap_untyped_cap capFreeIndex deviceMemory capBlockSize capPtr =>
    status ← ensureNoChildren slot;
    let reset := status_ok status in
    let freeIndex := if reset then 0 else capFreeIndex in
    let freeRef := GET_FREE_REF capPtr freeIndex in
    let untypedFreeBytes := BIT capBlockSize -w FREE_INDEX_TO_OFFSET freeIndex in
    if Z.shiftr untypedFreeBytes objectSize <? nodeWindow then
      set_error_type seL4_NotEnoughMemory;;
      mod_error (set_memoryLeft untypedFreeBytes);;
      mret EXCEPTION_SYSCALL_ERROR
    else if deviceMemory && negb (Arch_isFrameType newType) && negb (newType =? seL4_UntypedObject) then
      invalid_argument_ret 1
    else
      let alignedFreeRef := alignUp freeRef objectSize in
      cur ← gets ksCurThread;
      setThreadState cur ThreadState_Restart;;
      invokeUntyped_Retype slot reset alignedFreeRef newType userObjSize destCNode
        nodeOffset nodeWindow deviceMemory
  | _ => stuck BadPointer
  end.

Definition decodeUntypedInvocation (invLabel length slot : Z) (c : cap) (call : bool) (buffer : Z) :
    K exception_t :=
  if negb (invLabel =? UntypedRetype) then syscall_error_ret seL4_IllegalOperation else
  rootSlot ← excapref 0;
  if (length <? 6) || (rootSlot =? NULL) then syscall_error_ret seL4_TruncatedMessage else
  newType ← getSyscallArg 0 buffer;
  userObjSize ← getSyscallArg 1 buffer;
  nodeIndex ← getSyscallArg 2 buffer;
  nodeDepth ← getSyscallArg 3 buffer;
  nodeOffset ← getSyscallArg 4 buffer;
  nodeWindow ← getSyscallArg 5 buffer;
  if seL4_ObjectTypeCount <=? newType then invalid_argument_ret 0 else
  objectSize ← lift (getObjectSize newType userObjSize);
  if (wordBits <=? userObjSize) || (seL4_MaxUntypedBits <? objectSize) then
    range_error_ret 0 seL4_MaxUntypedBits else
  if (newType =? seL4_CapTableObject) && (userObjSize =? 0) then invalid_argument_ret 1 else
  if (newType =? seL4_UntypedObject) && (userObjSize <? seL4_MinUntypedBits) then
    invalid_argument_ret 1 else
  if (newType =? seL4_SchedContextObject) && (userObjSize <? seL4_MinSchedContextBits) then
    invalid_argument_ret 1 else
  root ← get_cte rootSlot;
  lu ← (if nodeDepth =? 0 then mret (EXCEPTION_NONE, rootSlot)
        else lookupTargetSlot (cte_cap root) nodeIndex nodeDepth);
  let '(status, nodeSlot) := lu in
  if negb (status_ok status) then mret status else
  node ← get_cte nodeSlot;
  match cte_cap node with
  | cap_cnode_cap capCNodeRadix _ _ destCNode =>
    let nodeSize := 1 <<w capCNodeRadix in
    if nodeSize -w 1 <? nodeOffset then range_error_ret 0 (nodeSize -w 1) else
    if (nodeWindow <? 1) || (CONFIG_RETYPE_FAN_OUT_LIMIT <? nodeWindow) then
      range_error_ret 1 CONFIG_RETYPE_FAN_OUT_LIMIT else
    if nodeSize -w nodeOffset <? nodeWindow then range_error_ret 1 (nodeSize -w nodeOffset) else
    status ← ensureEmptySlots destCNode (Z.to_nat nodeWindow) nodeOffset;
    if negb (status_ok status) then mret status else
    decodeUntyped_place slot c newType userObjSize objectSize destCNode nodeOffset nodeWindow
  | _ => missing_capability_ret false nodeDepth
  end.
End untyped.
