(* ===== verification/BootMemory.v ===== *)
(** * The memory of the boot phase

    How the kernel divides physical memory before it starts the first thread: the
    first half of [kernel/kernel/boot.c], with [kernel/include/kernel/boot.h] and
    [kernel/include/arch/riscv/arch/bootinfo.h]. The boot code keeps a sorted array
    of physical regions that user level must not get as device memory
    ([reserved]), and an array of free regions of the kernel window ([freemem]);
    the objects of the first thread are cut from the last free region that is
    large enough. *)
From S2P Require Import Prelude Words Platform State Machine RefillList Sporadic CapOps CSpace VSpace Untyped.

(** [p_region_t], [region_t] and [v_region_t] *)
Record region := Region { r_start : Z; r_end : Z }.
#[global] Instance region_eq_dec : EqDecision region.
Proof. solve_decision. Defined.
Definition REG_EMPTY : region := Region 0 0.
Definition is_reg_empty (reg : region) : bool := r_start reg =? r_end reg.

(** [kernel_frame_t] of [devices_gen.h] *)
Record kernel_frame := KernelFrame { kf_paddr : Z; kf_pptr : Z; kf_userAvailable : bool }.

(** What the build and the linker add for the boot code. *)
Class BootPlatform := {
  (** [gen_config.h] *)
  CONFIG_ROOT_CNODE_SIZE_BITS : Z;
  CONFIG_MAX_NUM_BOOTINFO_UNTYPED_CAPS : Z;
  CONFIG_PADDR_USER_DEVICE_TOP : Z;
  CONFIG_BOOT_THREAD_TIME_SLICE : Z;
  CONFIG_KERNEL_STACK_BITS : Z;
  IRQ_CNODE_SLOT_BITS : Z;
  (** [devices_gen.h] and [platform_gen.h] *)
  kernel_device_frames : list kernel_frame;
  avail_p_regs : list region;
  (** the linker *)
  ki_boot_end : Z;
  kernel_image_level1_pt : Z;
  kernel_image_level1_dev_pt : Z;
  ksIdleThreadTCB : Z;
  ksIdleThreadSC : Z;
  idle_thread : Z;
  kernel_stack_alloc : Z;
  trap_entry_address : Z
}.

(** The checks of the build on the size of the root CNode, and a bound on the
    number of device frames, each of which has a page table entry. *)
Class BootPlatformOk `{BootPlatform} : Prop := {
  root_cnode_size_valid : seL4_PageBits - seL4_SlotBits ≤ CONFIG_ROOT_CNODE_SIZE_BITS < 32 - seL4_SlotBits;
  num_device_frames : Z.of_nat (length kernel_device_frames) < 2 ^ 32
}.

Definition seL4_VSpaceBits : Z := 12.
Definition seL4_BootInfoFrameBits : Z := seL4_PageBits.
Definition MAX_NUM_FREEMEM_REG : Z := 16.
Definition NUM_RESERVED_REGIONS : Z := 3.
Definition ROUND_UP (n b : Z) : Z := (Z.shiftr (n -w 1) b +w 1) <<w b.

(** [ndks_boot], without the boot info pointer, and the scratch array [avail_reg] *)
Record ndks_boot := NdksBoot {
  reserved : list region;
  resv_count : Z;
  freemem : list region;
  avail_reg : list region
}.
Definition set_reserved (v : list region) (b : ndks_boot) : ndks_boot :=
  NdksBoot v (resv_count b) (freemem b) (avail_reg b).
Definition set_resv_count (v : Z) (b : ndks_boot) : ndks_boot :=
  NdksBoot (reserved b) v (freemem b) (avail_reg b).
Definition set_freemem (v : list region) (b : ndks_boot) : ndks_boot :=
  NdksBoot (reserved b) (resv_count b) v (avail_reg b).
Definition set_avail_reg (v : list region) (b : ndks_boot) : ndks_boot :=
  NdksBoot (reserved b) (resv_count b) (freemem b) v.

(** Code that only touches these arrays. An access outside of an array is [Stuck]. *)
Definition R (A : Type) : Type := M ndks_boot A.
Definition get_resv (i : Z) : R region := b ← get_state; deref (reserved b !! Z.to_nat i).
Definition put_resv (i : Z) (r : region) : R unit :=
  _ ← get_resv i; modify (λ b, set_reserved (<[Z.to_nat i := r]> (reserved b)) b).
Definition get_freemem (i : Z) : R region := b ← get_state; deref (freemem b !! Z.to_nat i).
Definition put_freemem (i : Z) (r : region) : R unit :=
  _ ← get_freemem i; modify (λ b, set_freemem (<[Z.to_nat i := r]> (freemem b)) b).
Definition get_avail (i : Z) : R region := b ← get_state; deref (avail_reg b !! Z.to_nat i).
Definition put_avail (i : Z) (r : region) : R unit :=
  _ ← get_avail i; modify (λ b, set_avail_reg (<[Z.to_nat i := r]> (avail_reg b)) b).
Definition set_start (v : Z) (r : region) : region := Region v (r_end r).
Definition set_end (v : Z) (r : region) : region := Region (r_start r) v.

Section regions.
Context `{Platform} `{BootPlatform}.

Definition NUM_KERNEL_DEVICE_FRAMES : Z := Z.of_nat (length kernel_device_frames).
Definition MAX_NUM_RESV_REG : Z := MAX_NUM_FREEMEM_REG + NUM_KERNEL_DEVICE_FRAMES + NUM_RESERVED_REGIONS.
Definition PADDR_TOP : Z := PPTR_TOP -w PPTR_BASE_OFFSET.

Definition paddr_to_pptr_reg (p_reg : region) : region :=
  Region (ptrFromPAddr (r_start p_reg)) (ptrFromPAddr (r_end p_reg)).
Definition pptr_to_paddr_reg (reg : region) : region :=
  Region (addrFromPPtr (r_start reg)) (addrFromPPtr (r_end reg)).

Definition get_p_reg_kernel_img_boot {Σ} : M Σ region :=
  start ← addrFromKPPtr KERNEL_ELF_BASE; end_ ← addrFromKPPtr ki_boot_end; mret (Region start end_).
Definition get_p_reg_kernel_img {Σ} : M Σ region :=
  start ← addrFromKPPtr KERNEL_ELF_BASE; end_ ← addrFromKPPtr KERNEL_ELF_TOP; mret (Region start end_).

(** ** Reserved regions *)
Definition merge_regions : R unit :=
  while64 (λ i,
    count ← gets resv_count;
    if negb (i <? count) then mret (inr ()) else
    prev ← get_resv (i - 1);
    cur ← get_resv i;
    if r_end prev =? r_start cur then
      put_resv (i - 1) (set_end (r_end cur) prev);;
      for_range (i + 1) count (λ j, r ← get_resv j; put_resv (j - 1) r);;
      modify (set_resv_count (count - 1));;
      mret (inl i)
    else mret (inl (i + 1))) 1.

Definition reserve_region (reg : region) : R bool :=
  assert! (r_start reg <=? r_end reg);;
  if r_start reg =? r_end reg then mret true else
  while64 (λ i,
    count ← gets resv_count;
    if negb (i <? count) then
      if i + 1 =? MAX_NUM_RESV_REG then mret (inr false) else
      put_resv i reg;;
      modify (set_resv_count (count + 1));;
      mret (inr true)
    else
    cur ← get_resv i;
    if r_start cur =? r_end reg then
      put_resv i (set_start (r_start reg) cur);; merge_regions;; mret (inr true)
    else if r_end cur =? r_start reg then
      put_resv i (set_end (r_end reg) cur);; merge_regions;; mret (inr true)
    else if r_end reg <? r_start cur then
      if MAX_NUM_RESV_REG <=? count + 1 then mret (inr false) else
      (* for (j = count; j > i; j--) *)
      for_range 0 (count - i) (λ k, r ← get_resv (count - k - 1); put_resv (count - k) r);;
      put_resv i reg;;
      modify (set_resv_count (count + 1));;
      mret (inr true)
    else mret (inl (i + 1))) 0.

Definition insert_region (reg : region) : R bool :=
  assert! (r_start reg <=? r_end reg);;
  if is_reg_empty reg then mret true else
  while64 (λ i,
    if negb (i <? MAX_NUM_FREEMEM_REG) then fail! else
    f ← get_freemem i;
    if is_reg_empty f then
      _ ← reserve_region (pptr_to_paddr_reg reg);
      put_freemem i reg;;
      mret (inr true)
    else mret (inl (i + 1))) 0.

(** ** The memory the first thread's objects need *)
Definition rootserver_max_size_bits (extra_bi_size_bits : Z) : Z :=
  Z.max (Z.max (CONFIG_ROOT_CNODE_SIZE_BITS + seL4_SlotBits) seL4_VSpaceBits) extra_bi_size_bits.

Definition get_n_paging (v_reg : region) (bits : Z) : Z :=
  (ROUND_UP (r_end v_reg) bits -w ROUND_DOWN (r_start v_reg) bits) / BIT bits.
Definition arch_get_n_paging (it_v_reg : region) : Z :=
  get_n_paging it_v_reg (RISCV_GET_LVL_PGSIZE_BITS 0) +w get_n_paging it_v_reg (RISCV_GET_LVL_PGSIZE_BITS 1).

Definition calculate_rootserver_size (it_v_reg : region) (extra_bi_size_bits : Z) : Z :=
  let size := BIT (CONFIG_ROOT_CNODE_SIZE_BITS + seL4_SlotBits) in
  let size := size +w BIT seL4_TCBBits in
  let size := size +w BIT seL4_PageBits in
  let size := size +w BIT seL4_BootInfoFrameBits in
  let size := size +w BIT seL4_ASIDPoolBits in
  let size := size +w (if 0 <? extra_bi_size_bits then BIT extra_bi_size_bits else 0) in
  let size := size +w BIT seL4_VSpaceBits in
  let size := size +w BIT seL4_MinSchedContextBits in
  wrap (size + arch_get_n_paging it_v_reg * BIT seL4_PageTableBits).

(** ** Checks of the memory map *)
Fixpoint check_available_from (prev : option region) (available : list region) : bool :=
  match available with
  | [] => true
  | r :: rest =>
    if r_end r <? r_start r then false else
    if r_start r =? r_end r then false else
    if (match prev with Some p => r_start r <? r_end p | None => false end) then false else
    check_available_from (Some r) rest
  end.
Definition check_available_memory (available : list region) : bool :=
  if (Z.of_nat (length available) =? 0) then false else check_available_from None available.

Fixpoint check_reserved_from (prev : option region) (reserved : list region) : bool :=
  match reserved with
  | [] => true
  | r :: rest =>
    if r_end r <? r_start r then false else
    if (match prev with Some p => r_start r <? r_end p | None => false end) then false else
    check_reserved_from (Some r) rest
  end.
Definition check_reserved_memory (reserved : list region) : bool := check_reserved_from None reserved.

Definition ceiling_kernel_window (p : Z) : Z := if PADDR_TOP <? addrFromPPtr p then PPTR_TOP else p.

(** ** Free memory: [init_freemem] up to the placement of the objects *)

(** One round of the loop over the available regions, from [a] on, and the reserved
    regions, from [r] on. *)
Definition trim_regions_step (n_available : Z) (reserved : list region) (ar : Z * Z) : R (Z * Z + Z * Z) :=
  let '(a, r) := ar in
  if negb ((a <? n_available) && (r <? Z.of_nat (length reserved))) then mret (inr (a, r)) else
  res ← deref (reserved !! Z.to_nat r);
  av ← get_avail a;
  if r_start res =? r_end res then mret (inl (a, r + 1))
  else if r_end av <=? r_start av then mret (inl (a + 1, r))
  else if r_end res <=? r_start av then
    _ ← reserve_region (pptr_to_paddr_reg res);
    mret (inl (a, r + 1))
  else if r_end av <=? r_start res then
    _ ← insert_region av;
    mret (inl (a + 1, r))
  else if r_start res <=? r_start av then
    put_avail a (set_start (Z.min (r_end av) (r_end res)) av);;
    mret (inl (a, r))
  else
    assert! (r_start res <? r_end av);;
    _ ← insert_region (set_end (r_start res) av);
    if r_end res <? r_end av then
      put_avail a (set_start (r_end res) av);;
      mret (inl (a, r))
    else mret (inl (a + 1, r)).

(** Its two [for] loops over the rest of the arrays *)
Definition reserve_rest (reserved : list region) (r : Z) : R unit :=
  for_range r (Z.of_nat (length reserved)) (λ r,
    res ← deref (reserved !! Z.to_nat r);
    when (r_start res <? r_end res) (_ ← reserve_region (pptr_to_paddr_reg res); mret ())).
Definition insert_rest (n_available a : Z) : R unit :=
  for_range a n_available (λ a,
    av ← get_avail a;
    when (r_start av <? r_end av) (_ ← insert_region av; mret ())).

Definition init_freemem_regions (available reserved : list region) : R unit :=
  let n_available := Z.of_nat (length available) in
  for_range 0 MAX_NUM_FREEMEM_REG (λ i, put_freemem i REG_EMPTY);;
  for_range 0 n_available (λ i,
    p_reg ← deref (available !! Z.to_nat i);
    let reg := paddr_to_pptr_reg p_reg in
    put_avail i (Region (ceiling_kernel_window (r_start reg)) (ceiling_kernel_window (r_end reg))));;
  ar ← while64 (trim_regions_step n_available reserved) (0, 0);
  let '(a, r) := ar in
  reserve_rest reserved r;;
  insert_rest n_available a.
End regions.
