(* ===== verification/MmuInv.v ===== *)
(** * Invocations of frames, page tables and ASID pools

    The RISC-V object invocations of [kernel/arch/riscv/kernel/vspace.c]. *)
From S2P Require Import Prelude Words Platform State Machine RefillList Sporadic Queues CapOps CSpace VSpace Thread CNode Message SchedContext Reply Notification Endpoint Delete CNodeInv Untyped.

Definition RISCVPageTableMap : Z := 39.
Definition RISCVPageTableUnmap : Z := 40.
Definition RISCVPageMap : Z := 41.
Definition RISCVPageUnmap : Z := 42.
Definition RISCVPageGetAddress : Z := 43.
Definition RISCVASIDControlMakePool : Z := 44.
Definition RISCVASIDPoolAssign : Z := 45.

Definition vm_attributes_get_riscvExecuteNever (attr : Z) : bool := Z.testbit attr 0.

Definition checkVPAlignment (sz w : Z) : K bool :=
  bits ← lift (pageBitsForSize sz); mret (Z.land w (MASK bits) =? 0).

(** [for (i = i0; i < i0 + n && used(i); i++);] and the value of [i] after it *)
Fixpoint find_free (n : nat) (i : Z) (used : Z → K bool) : K Z :=
  match n with
  | O => mret i
  | S n' => b ← used i; if b : bool then find_free n' (i + 1) used else mret i
  end.

Definition failed_lookup_ret : K exception_t :=
  set_error_type seL4_FailedLookup;;
  mod_error (set_failedLookupWasSource false);;
  mret EXCEPTION_SYSCALL_ERROR.

Section mmu.
Context `{Platform}.

(** ** Performing *)
Definition performPageTableInvocationMap (c : cap) (ctSlot pte ptSlot : Z) : K exception_t :=
  mod_cte ctSlot (set_cte_cap c);;
  store_pte ptSlot pte;;
  mret EXCEPTION_NONE.

Definition performPageTableInvocationUnmap (c : cap) (ctSlot : Z) : K exception_t :=
  match c with
  | cap_page_table_cap asid pt mapped addr =>
    when mapped
      (unmapPageTable asid addr pt;;
       clearMemory pt seL4_PageTableBits);;
    slot ← get_cte ctSlot;
    match cte_cap slot with
    | cap_page_table_cap asid' pt' _ addr' =>
      mod_cte ctSlot (set_cte_cap (cap_page_table_cap asid' pt' false addr'));;
      mret EXCEPTION_NONE
    | _ => fail!
    end
  | _ => fail!
  end.

Definition updatePTE (pte base : Z) : K exception_t := store_pte base pte;; mret EXCEPTION_NONE.

Definition performPageInvocationMapPTE (c : cap) (ctSlot pte base : Z) : K exception_t :=
  mod_cte ctSlot (set_cte_cap c);;
  updatePTE pte base.

Definition performPageInvocationUnmap (c : cap) (ctSlot : Z) : K exception_t :=
  match c with
  | cap_frame_cap asid base size _ _ addr =>
    when (negb (asid =? asidInvalid)) (unmapPage size asid addr base);;
    slot ← get_cte ctSlot;
    match cte_cap slot with
    | cap_frame_cap _ base' size' rights' dev' _ =>
      mod_cte ctSlot (set_cte_cap (cap_frame_cap asidInvalid base' size' rights' dev' 0));;
      mret EXCEPTION_NONE
    | _ => fail!
    end
  | _ => fail!
  end.

Definition performPageGetAddress (vbase_ptr : Z) (call : bool) : K exception_t :=
  let capFBasePtr := addrFromPPtr vbase_ptr in
  thread ← gets ksCurThread;
  when call
    (ipcBuffer ← lookupIPCBuffer true thread;
     setRegister thread badgeRegister 0;;
     length ← setMR thread ipcBuffer 0 capFBasePtr;
     setRegister thread msgInfoRegister (wordFromMessageInfo (seL4_MessageInfo_new 0 0 0 length)));;
  setThreadState thread ThreadState_Running;;
  mret EXCEPTION_NONE.

Definition performASIDControlInvocation (frame slot parent asid_base : Z) : K exception_t :=
  p ← get_cte parent;
  match cte_cap p with
  | cap_untyped_cap _ _ blockSize _ =>
    mod_cte parent (set_cte_cap (cap_untyped_cap_set_capFreeIndex (cte_cap p) (MAX_FREE_INDEX blockSize)));;
    clearMemory frame seL4_PageBits;;
    cteInsert (cap_asid_pool_cap asid_base frame) parent slot;;
    assert! (Z.land asid_base (MASK asidLowBits) =? 0);;
    riscvKSASIDTable_set (ASID_HIGH asid_base) frame;;
    mret EXCEPTION_NONE
  | _ => fail!
  end.

Definition performASIDPoolInvocation (asid poolPtr vspaceCapSlot : Z) : K exception_t :=
  c ← get_cte vspaceCapSlot;
  match cte_cap c with
  | cap_page_table_cap _ regionBase _ _ =>
    mod_cte vspaceCapSlot (set_cte_cap (cap_page_table_cap asid regionBase true 0));;
    copyGlobalMappings regionBase;;
    store_word poolPtr (ASID_LOW asid) regionBase;;
    mret EXCEPTION_NONE
  | _ => fail!
  end.

(** ** Decoding *)
Definition decodeRISCVPageTableInvocation (label length cte : Z) (c : cap) (buffer : Z) : K exception_t :=
  match c with
  | cap_page_table_cap asid0 base mapped addr0 =>
    cur ← gets ksCurThread;
    if label =? RISCVPageTableUnmap then
      final ← isFinalCapability cte;
      if negb final then syscall_error_ret seL4_RevokeFirst else
      top ← (if mapped then
               find_ret ← findVSpaceForASID asid0;
               mret (status_ok (find_ret.1) && (find_ret.2 =? base))
             else mret false);
      if top : bool then syscall_error_ret seL4_RevokeFirst else
      setThreadState cur ThreadState_Restart;;
      performPageTableInvocationUnmap c cte
    else if negb (label =? RISCVPageTableMap) then syscall_error_ret seL4_IllegalOperation else
    ref ← excapref 0;
    if (length <? 2) || (ref =? NULL) then syscall_error_ret seL4_TruncatedMessage else
    if mapped then invalid_cap_ret 0 else
    vaddr ← getSyscallArg 0 buffer;
    lvl1ptCap ← excap 0;
    match lvl1ptCap with
    | cap_page_table_cap asid lvl1pt lvl1mapped _ =>
      if Z.b2z lvl1mapped =? asidInvalid then invalid_cap_ret 1 else
      if USER_TOP <=? vaddr then invalid_argument_ret 0 else
      find_ret ← findVSpaceForASID asid;
      let '(status, vspace_root) := find_ret in
      if negb (status_ok status) then failed_lookup_ret else
      if negb (vspace_root =? lvl1pt) then invalid_cap_ret 1 else
      lu_ret ← lookupPTSlot lvl1pt vaddr;
      let '(ptSlot, ptBitsLeft) := lu_ret in
      old ← load_pte ptSlot;
      if (ptBitsLeft =? seL4_PageBits) || pte_get_valid old then syscall_error_ret seL4_DeleteFirst else
      let pte := makeTablePTE (addrFromPPtr base) in
      let c := cap_page_table_cap asid base true (Z.land vaddr (wnot (MASK ptBitsLeft))) in
      setThreadState cur ThreadState_Restart;;
      performPageTableInvocationMap c cte pte ptSlot
    | _ => invalid_cap_ret 1
    end
  | _ => fail!
  end.

(** The checks of [RISCVPageMap] on a frame that is mapped or not: an error,
    or nothing *)
Definition checkFrameMapping (c : cap) (asid vaddr old : Z) : K (option exception_t) :=
  match c with
  | cap_frame_cap frame_asid _ _ _ _ mapped_vaddr =>
    if negb (frame_asid =? asidInvalid) then
      if negb (frame_asid =? asid) then e ← invalid_cap_ret 1; mret (Some e) else
      if negb (mapped_vaddr =? vaddr) then e ← invalid_argument_ret 0; mret (Some e) else
      if isPTEPageTable old then e ← syscall_error_ret seL4_DeleteFirst; mret (Some e) else mret None
    else if pte_get_valid old then e ← syscall_error_ret seL4_DeleteFirst; mret (Some e)
    else mret None
  | _ => fail!
  end.

Definition decodeRISCVFrameInvocation (label length cte : Z) (c : cap) (call : bool) (buffer : Z) :
    K exception_t :=
  match c with
  | cap_frame_cap frame_asid base frameSize capVMRights dev addr0 =>
    cur ← gets ksCurThread;
    if label =? RISCVPageMap then
      ref ← excapref 0;
      if (length <? 3) || (ref =? NULL) then syscall_error_ret seL4_TruncatedMessage else
      vaddr ← getSyscallArg 0 buffer;
      w_rightsMask ← getSyscallArg 1 buffer;
      attr ← getSyscallArg 2 buffer;
      lvl1ptCap ← excap 0;
      match lvl1ptCap with
      | cap_page_table_cap asid lvl1pt lvl1mapped _ =>
        if negb lvl1mapped then invalid_cap_ret 1 else
        find_ret ← findVSpaceForASID asid;
        let '(status, vspace_root) := find_ret in
        if negb (status_ok status) then failed_lookup_ret else
        if negb (vspace_root =? lvl1pt) then invalid_cap_ret 1 else
        bits ← lift (pageBitsForSize frameSize);
        let vtop := vaddr +w BIT bits -w 1 in
        if USER_TOP <=? vtop then invalid_argument_ret 0 else
        aligned ← checkVPAlignment frameSize vaddr;
        if negb aligned then syscall_error_ret seL4_AlignmentError else
        lu_ret ← lookupPTSlot lvl1pt vaddr;
        let '(ptSlot, ptBitsLeft) := lu_ret in
        if negb (ptBitsLeft =? bits) then
          set_lookup_fault (lookup_fault_missing_capability ptBitsLeft);; failed_lookup_ret else
        old ← load_pte ptSlot;
        err ← checkFrameMapping c asid vaddr old;
        match err with
        | Some e => mret e
        | None =>
          let vmRights := maskVMRights capVMRights w_rightsMask in
          let frame_paddr := addrFromPPtr base in
          let c := cap_frame_cap asid base frameSize capVMRights dev vaddr in
          let executable := negb (vm_attributes_get_riscvExecuteNever attr) in
          let pte := makeUserPTE frame_paddr executable vmRights in
          setThreadState cur ThreadState_Restart;;
          performPageInvocationMapPTE c cte pte ptSlot
        end
      | _ => invalid_cap_ret 1
      end
    else if label =? RISCVPageUnmap then
      setThreadState cur ThreadState_Restart;;
      performPageInvocationUnmap c cte
    else if label =? RISCVPageGetAddress then
      assert! (1 <=? n_msgRegisters);;
      setThreadState cur ThreadState_Restart;;
      performPageGetAddress base call
    else syscall_error_ret seL4_IllegalOperation
  | _ => fail!
  end.

Definition decodeASIDControl (label length buffer : Z) : K exception_t :=
  if negb (label =? RISCVASIDControlMakePool) then syscall_error_ret seL4_IllegalOperation else
  parentSlot ← excapref 0;
  rootSlot ← excapref 1;
  if (length <? 2) || (parentSlot =? NULL) || (rootSlot =? NULL) then syscall_error_ret seL4_TruncatedMessage else
  index ← getSyscallArg 0 buffer;
  depth ← getSyscallArg 1 buffer;
  untyped ← excap 0;
  root ← excap 1;
  i ← find_free (Z.to_nat nASIDPools) 0 (λ i, p ← riscvKSASIDTable_get i; mret (negb (p =? NULL)));
  if i =? nASIDPools then syscall_error_ret seL4_DeleteFirst else
  let asid_base := i <<w asidLowBits in
  match untyped with
  | cap_untyped_cap _ capIsDevice capBlockSize frame =>
    if negb (capBlockSize =? seL4_ASIDPoolBits) || capIsDevice then invalid_cap_ret 1 else
    status ← ensureNoChildren parentSlot;
    if negb (status_ok status) then mret status else
    lu ← lookupTargetSlot root index depth;
    let '(status, destSlot) := lu in
    if negb (status_ok status) then mret status else
    status ← ensureEmptySlot destSlot;
    if negb (status_ok status) then mret status else
    cur ← gets ksCurThread;
    setThreadState cur ThreadState_Restart;;
    performASIDControlInvocation frame destSlot parentSlot asid_base
  | _ => invalid_cap_ret 1
  end.

Definition decodeASIDPool (label capASIDBase capASIDPool : Z) : K exception_t :=
  if negb (label =? RISCVASIDPoolAssign) then syscall_error_ret seL4_IllegalOperation else
  vspaceCapSlot ← excapref 0;
  if vspaceCapSlot =? NULL then syscall_error_ret seL4_TruncatedMessage else
  vspaceCap ← excap 0;
  match vspaceCap with
  | cap_page_table_cap _ _ false _ =>
    pool ← riscvKSASIDTable_get (ASID_HIGH capASIDBase);
    if pool =? NULL then
      e ← failed_lookup_ret; set_lookup_fault lookup_fault_invalid_root;; mret e
    else if negb (pool =? capASIDPool) then invalid_cap_ret 0 else
    i ← find_free (Z.to_nat (BIT asidLowBits)) 0 (λ i,
          if capASIDBase +w i =? 0 then mret true else p ← load_word pool i; mret (negb (p =? NULL)));
    if i =? BIT asidLowBits then syscall_error_ret seL4_DeleteFirst else
    let asid := capASIDBase +w i in
    cur ← gets ksCurThread;
    setThreadState cur ThreadState_Restart;;
    performASIDPoolInvocation asid pool vspaceCapSlot
  | _ => invalid_cap_ret 1
  end.

Definition decodeRISCVMMUInvocation (label length cptr cte : Z) (c : cap) (call : bool) (buffer : Z) :
    K exception_t :=
  match c with
  | cap_page_table_cap _ _ _ _ => decodeRISCVPageTableInvocation label length cte c buffer
  | cap_frame_cap _ _ _ _ _ _ => decodeRISCVFrameInvocation label length cte c call buffer
  | cap_asid_control_cap => decodeASIDControl label length buffer
  | cap_asid_pool_cap capASIDBase capASIDPool => decodeASIDPool label capASIDBase capASIDPool
  | _ => fail!
  end.
End mmu.
