(* ===== verification/Domain.v ===== *)
(** * Domains

    The invocations of the domain capability, [kernel/object/domain.c]. *)
From S2P Require Import Prelude Words Platform State Machine RefillList Sporadic Queues CapOps CSpace VSpace Thread CNode Message SchedContext Reply Notification Endpoint Delete CNodeInv.

Definition DomainSetSet : Z := 30.
Definition DomainScheduleConfigure : Z := 31.
Definition DomainScheduleSetStart : Z := 32.

Section domain.
Context `{Platform}.

Definition domScheduleLength : Z := CONFIG_NUM_DOMAIN_SCHEDULES.

Definition Arch_prepareSetDomain (tptr dom : Z) : K unit := mret ().
Definition prepareSetDomain (tptr dom : Z) : K unit :=
  cur ← gets ksCurDomain;
  when (negb (cur =? dom)) (Arch_prepareSetDomain tptr dom).

Definition invokeDomainSetSet (tcb domain : Z) : K unit :=
  prepareSetDomain tcb domain;;
  setDomain tcb domain.

Definition decodeDomainSetSetInvocation (length buffer : Z) : K exception_t :=
  if length =? 0 then syscall_error_ret seL4_TruncatedMessage else
  domain ← getSyscallArg 0 buffer;
  if numDomains <=? domain then invalid_argument_ret 0 else
  ref ← excapref 0;
  if ref =? NULL then syscall_error_ret seL4_TruncatedMessage else
  tcap ← excap 0;
  match tcap with
  | cap_thread_cap capTCBPtr =>
    cur ← gets ksCurThread;
    setThreadState cur ThreadState_Restart;;
    invokeDomainSetSet capTCBPtr domain;;
    mret EXCEPTION_NONE
  | _ => invalid_argument_ret 1
  end.

Definition invokeDomainScheduleConfigure (index domain duration : Z) : K unit :=
  _ ← get_dschedule index;
  modify (λ s, set_ksDomSchedule
    (<[Z.to_nat index := dschedule_make domain duration]> (ksDomSchedule s)) s).

Definition decodeDomainScheduleConfigure (length buffer : Z) : K exception_t :=
  if length <? 2 + TIME_ARG_SIZE then syscall_error_ret seL4_TruncatedMessage else
  index ← getSyscallArg 0 buffer;
  domain ← getSyscallArg 1 buffer;
  duration ← mode_parseTimeArg 2 buffer;
  if domScheduleLength - 1 <=? index then range_error_ret 0 (domScheduleLength - 2) else
  if numDomains <=? domain then range_error_ret 0 (numDomains - 1) else
  if DSCHED_MAX_DURATION <? duration then invalid_argument_ret 2 else
  if (duration =? 0) && negb (domain =? 0) then invalid_argument_ret 1 else
  start ← gets ksDomScheduleStart;
  if (index =? start) && (duration =? 0) then invalid_argument_ret 2 else
  cur ← gets ksCurThread;
  setThreadState cur ThreadState_Restart;;
  invokeDomainScheduleConfigure index domain duration;;
  mret EXCEPTION_NONE.

Definition invokeDomainScheduleSetStart (index : Z) : K unit :=
  modify (set_ksDomScheduleStart index);;
  modify (set_ksDomainTime 0);;
  modify (set_ksDomScheduleIdx (domScheduleLength - 2));;
  rescheduleRequired.

Definition decodeDomainScheduleSetStart (length buffer : Z) : K exception_t :=
  if length <? 1 then syscall_error_ret seL4_TruncatedMessage else
  index ← getSyscallArg 0 buffer;
  if domScheduleLength <=? index then range_error_ret 0 (domScheduleLength - 1) else
  b ← dschedule_is_end_marker index;
  if b : bool then invalid_argument_ret 0 else
  cur ← gets ksCurThread;
  setThreadState cur ThreadState_Restart;;
  invokeDomainScheduleSetStart index;;
  mret EXCEPTION_NONE.

Definition decodeDomainInvocation (invLabel length buffer : Z) : K exception_t :=
  if invLabel =? DomainSetSet then decodeDomainSetSetInvocation length buffer
  else if invLabel =? DomainScheduleConfigure then decodeDomainScheduleConfigure length buffer
  else if invLabel =? DomainScheduleSetStart then decodeDomainScheduleSetStart length buffer
  else syscall_error_ret seL4_IllegalOperation.
End domain.
