(* ===== verification/Interrupt.v ===== *)
(** * Interrupts

    [kernel/object/interrupt.c] and its RISC-V part
    [kernel/arch/riscv/object/interrupt.c], for a platform whose interrupts are
    completed on acknowledgement. *)
From S2P Require Import Prelude Words Platform State Machine RefillList Sporadic Queues CapOps CSpace VSpace Thread CNode Message SchedContext Reply Notification Endpoint Delete CNodeInv.

Definition IRQIssueIRQHandler : Z := 26.
Definition IRQAckIRQ : Z := 27.
Definition IRQSetIRQHandler : Z := 28.
Definition IRQClearIRQHandler : Z := 29.
Definition RISCVIRQIssueIRQHandlerTrigger : Z := 46.

Section interrupt.
Context `{Platform}.

Definition Arch_checkIRQ (irq : Z) : K exception_t :=
  if (maxIRQ <? irq) || (irq =? irqInvalid) then range_error_ret 1 maxIRQ
  else mret EXCEPTION_NONE.

Definition invokeIRQControl (irq handlerSlot controlSlot : Z) : K exception_t :=
  setIRQState IRQSignal irq;;
  cteInsert (cap_irq_handler_cap irq) controlSlot handlerSlot;;
  mret EXCEPTION_NONE.

Definition Arch_invokeIRQControl (irq handlerSlot controlSlot : Z) (trigger : bool) : K exception_t :=
  when HAVE_SET_TRIGGER (setIRQTrigger irq trigger);;
  invokeIRQControl irq handlerSlot controlSlot.

Definition Arch_decodeIRQControlInvocation (invLabel length srcSlot buffer : Z) : K exception_t :=
  if invLabel =? RISCVIRQIssueIRQHandlerTrigger then
    ref ← excapref 0;
    if (length <? 4) || (ref =? NULL) then syscall_error_ret seL4_TruncatedMessage else
    if negb HAVE_SET_TRIGGER then syscall_error_ret seL4_IllegalOperation else
    irq ← getSyscallArg 0 buffer;
    t ← getSyscallArg 1 buffer;
    let trigger := negb (t =? 0) in
    index ← getSyscallArg 2 buffer;
    depth ← getSyscallArg 3 buffer;
    cnodeCap ← excap 0;
    status ← Arch_checkIRQ irq;
    if negb (status_ok status) then mret status else
    active ← isIRQActive irq;
    if active : bool then syscall_error_ret seL4_RevokeFirst else
    lu ← lookupTargetSlot cnodeCap index depth;
    let '(status, destSlot) := lu in
    if negb (status_ok status) then mret status else
    status ← ensureEmptySlot destSlot;
    if negb (status_ok status) then mret status else
    cur ← gets ksCurThread;
    setThreadState cur ThreadState_Restart;;
    Arch_invokeIRQControl irq destSlot srcSlot trigger
  else syscall_error_ret seL4_IllegalOperation.

Definition decodeIRQControlInvocation (invLabel length srcSlot buffer : Z) : K exception_t :=
  if invLabel =? IRQIssueIRQHandler then
    ref ← excapref 0;
    if (length <? 3) || (ref =? NULL) then syscall_error_ret seL4_TruncatedMessage else
    irq ← getSyscallArg 0 buffer;
    index ← getSyscallArg 1 buffer;
    depth ← getSyscallArg 2 buffer;
    cnodeCap ← excap 0;
    status ← Arch_checkIRQ irq;
    if negb (status_ok status) then mret status else
    active ← isIRQActive irq;
    if active : bool then syscall_error_ret seL4_RevokeFirst else
    lu ← lookupTargetSlot cnodeCap index depth;
    let '(status, destSlot) := lu in
    if negb (status_ok status) then mret status else
    status ← ensureEmptySlot destSlot;
    if negb (status_ok status) then mret status else
    cur ← gets ksCurThread;
    setThreadState cur ThreadState_Restart;;
    invokeIRQControl irq destSlot srcSlot
  else Arch_decodeIRQControlInvocation invLabel length srcSlot buffer.

Definition invokeIRQHandler_AckIRQ (irq : Z) : K unit := plic_complete_claim irq.

Definition invokeIRQHandler_SetIRQHandler (irq : Z) (c : cap) (slot : Z) : K unit :=
  let irqSlot := cte_index intStateIRQNode irq in
  cteDeleteOne irqSlot;;
  cteInsert c slot irqSlot.

Definition invokeIRQHandler_ClearIRQHandler (irq : Z) : K unit :=
  cteDeleteOne (cte_index intStateIRQNode irq).

Definition decodeIRQHandlerInvocation (invLabel irq : Z) : K exception_t :=
  cur ← gets ksCurThread;
  if invLabel =? IRQAckIRQ then
    setThreadState cur ThreadState_Restart;;
    invokeIRQHandler_AckIRQ irq;;
    mret EXCEPTION_NONE
  else if invLabel =? IRQSetIRQHandler then
    slot ← excapref 0;
    if slot =? NULL then syscall_error_ret seL4_TruncatedMessage else
    ntfnCap ← excap 0;
    match ntfnCap with
    | cap_notification_cap _ _ capNtfnCanSend _ =>
      if negb capNtfnCanSend then invalid_cap_ret 0 else
      setThreadState cur ThreadState_Restart;;
      invokeIRQHandler_SetIRQHandler irq ntfnCap slot;;
      mret EXCEPTION_NONE
    | _ => invalid_cap_ret 0
    end
  else if invLabel =? IRQClearIRQHandler then
    setThreadState cur ThreadState_Restart;;
    invokeIRQHandler_ClearIRQHandler irq;;
    mret EXCEPTION_NONE
  else syscall_error_ret seL4_IllegalOperation.

Definition handleReservedIRQ (irq : Z) : K unit := mret ().

Definition handleInterrupt (irq : Z) : K unit :=
  if maxIRQ <? irq then
    maskInterrupt true irq;;
    ackInterrupt irq
  else
    s ← get_state;
    st ← deref (intStateIRQTable s !! irq);
    (match st with
     | IRQSignal =>
       c ← get_cte (cte_index intStateIRQNode irq);
       match cte_cap c with
       | cap_notification_cap capNtfnBadge _ capNtfnCanSend capNtfnPtr =>
         when capNtfnCanSend (sendSignal capNtfnPtr capNtfnBadge)
       | _ => mret ()
       end
     | IRQTimer => ackDeadlineIRQ;; modify (set_ksReprogram true)
     | IRQReserved => handleReservedIRQ irq
     | IRQInactive => maskInterrupt true irq
     end);;
    ackInterrupt irq.
End interrupt.
