(* ===== verification/SchedControl.v ===== *)
(** * Configuring scheduling contexts

    The invocation of the scheduling-control capability,
    [kernel/object/schedcontrol.c]. *)
From S2P Require Import Prelude Words Platform State Machine RefillList Sporadic Queues CapOps CSpace VSpace Thread CNode Message SchedContext Reply Notification Endpoint Delete CNodeInv.

Definition SchedControlConfigureFlags : Z := 33.
Definition seL4_SchedContext_Sporadic : Z := 1.

Section sched_control.
Context `{Platform}.

Definition invokeSchedControl_ConfigureFlags (target core budget period max_refills badge flags : Z) :
    K exception_t :=
  c ← get_sc target;
  let thread := scTcb c in
  when (negb (thread =? NULL))
    (tcbReleaseRemove thread;;
     tcbSchedDequeue thread;;
     cursc ← gets ksCurSC;
     when (cursc =? target)
       (b ← checkBudget; assert! b;;
        commitTime));;
  now ← gets ksCurTime;
  (if budget =? period then on_sc target (refill_new now MIN_REFILLS budget 0)
   else
     c ← get_sc target;
     runnable ← (if sc_active c && negb (thread =? NULL)
                 then t ← get_tcb thread; mret (isRunnable t) else mret false);
     if runnable : bool then on_sc target (refill_update now period budget max_refills)
     else on_sc target (refill_new now max_refills budget period));;
  c ← get_sc target;
  assert! (sc_active c);;
  when (negb (thread =? NULL))
    (schedContext_resume target;;
     t ← get_tcb thread;
     cur ← gets ksCurThread;
     when (isRunnable t && negb (thread =? cur)) (possibleSwitchTo thread);;
     when (thread =? cur) rescheduleRequired);;
  mod_sc target (set_scBadge badge);;
  mod_sc target (set_scSporadic (negb (Z.land flags seL4_SchedContext_Sporadic =? 0)));;
  mret EXCEPTION_NONE.

Definition decodeSchedControl_ConfigureFlags (length : Z) (c : cap) (buffer : Z) : K exception_t :=
  ref ← excapref 0;
  if ref =? NULL then syscall_error_ret seL4_TruncatedMessage else
  if length <? TIME_ARG_SIZE * 2 + 3 then syscall_error_ret seL4_TruncatedMessage else
  budget_us ← mode_parseTimeArg 0 buffer;
  if MAX_PERIOD_US <? budget_us then range_error_ret MIN_BUDGET_US MAX_PERIOD_US else
  let budget_ticks := usToTicks budget_us in
  period_us ← mode_parseTimeArg TIME_ARG_SIZE buffer;
  if MAX_PERIOD_US <? period_us then range_error_ret MIN_BUDGET_US MAX_PERIOD_US else
  let period_ticks := usToTicks period_us in
  if budget_ticks <? MIN_BUDGET then range_error_ret MIN_BUDGET_US MAX_PERIOD_US else
  if period_ticks <? MIN_BUDGET then range_error_ret MIN_BUDGET_US MAX_PERIOD_US else
  if period_ticks <? budget_ticks then range_error_ret MIN_BUDGET_US period_us else
  targetCap ← excap 0;
  match targetCap, c with
  | cap_sched_context_cap capSCPtr _, cap_sched_control_cap core =>
    extra_refills ← getSyscallArg (TIME_ARG_SIZE * 2) buffer;
    let max_refills := refill_absolute_max targetCap in
    if max_refills -w MIN_REFILLS <? extra_refills then
      range_error_ret 0 (max_refills -w MIN_REFILLS)
    else
      badge ← getSyscallArg (TIME_ARG_SIZE * 2 + 1) buffer;
      flags ← getSyscallArg (TIME_ARG_SIZE * 2 + 2) buffer;
      cur ← gets ksCurThread;
      setThreadState cur ThreadState_Restart;;
      invokeSchedControl_ConfigureFlags capSCPtr core budget_ticks period_ticks
        (extra_refills +w MIN_REFILLS) badge flags
  | cap_sched_context_cap _ _, _ => stuck BadPointer
  | _, _ => invalid_cap_ret 1
  end.

Definition decodeSchedControlInvocation (label : Z) (c : cap) (length buffer : Z) : K exception_t :=
  if label =? SchedControlConfigureFlags then decodeSchedControl_ConfigureFlags length c buffer
  else syscall_error_ret seL4_IllegalOperation.
End sched_control.
