(* ===== verification/TcbInv.v ===== *)
(** * Invocations of thread capabilities

    The decode and invoke functions of [kernel/object/tcb.c] (MCS, one core,
    no FPU, no hardware-debug API). *)
From S2P Require Import Prelude Words Platform State Machine RefillList Sporadic Queues CapOps CSpace VSpace Thread CNode Message SchedContext Reply Notification Endpoint Delete CNodeInv.

Definition TCBReadRegisters : Z := 2.
Definition TCBWriteRegisters : Z := 3.
Definition TCBCopyRegisters : Z := 4.
Definition TCBConfigure : Z := 5.
Definition TCBSetPriority : Z := 6.
Definition TCBSetMCPriority : Z := 7.
Definition TCBSetSchedParams : Z := 8.
Definition TCBSetTimeoutEndpoint : Z := 9.
Definition TCBSetIPCBuffer : Z := 10.
Definition TCBSetSpace : Z := 11.
Definition TCBSuspend : Z := 12.
Definition TCBResume : Z := 13.
Definition TCBBindNotification : Z := 14.
Definition TCBUnbindNotification : Z := 15.
Definition TCBSetTLSBase : Z := 16.
Definition TCBSetFlags : Z := 17.

Definition seL4_MinPrio : Z := 0.
Definition seL4_MaxPrio : Z := CONFIG_NUM_PRIORITIES - 1.
Definition NULL_PRIO : Z := 0.
Definition TLS_BASE : Z := 3.
(** [seL4_TCBFlag_MASK] of a build without FPU *)
Definition seL4_TCBFlag_MASK : Z := 0.

Definition n_frameRegisters : Z := 16.
Definition n_gpRegisters : Z := 16.
Definition frameRegisters : list Z := [33; 0; 1; 2; 7; 8; 17; 18; 19; 20; 21; 22; 23; 24; 25; 26].
Definition gpRegisters : list Z := [9; 10; 11; 12; 13; 14; 15; 16; 4; 5; 6; 27; 28; 29; 30; 3].
Definition frame_register (i : Z) : Z := nth (Z.to_nat i) frameRegisters 0.
Definition gp_register (i : Z) : Z := nth (Z.to_nat i) gpRegisters 0.

Definition thread_control_caps_update_ipc_buffer : Z := 1.
Definition thread_control_caps_update_space : Z := 2.
Definition thread_control_caps_update_fault : Z := 4.
Definition thread_control_caps_update_timeout : Z := 8.
Definition thread_control_sched_update_priority : Z := 1.
Definition thread_control_sched_update_mcp : Z := 2.
Definition thread_control_sched_update_sc : Z := 4.
Definition thread_control_sched_update_fault : Z := 8.
Definition has_flag (flags f : Z) : bool := negb (Z.land flags f =? 0).

Definition checkPrio (prio auth : Z) : K exception_t :=
  t ← get_tcb auth;
  let mcp := tcbMCP t in
  assert! (mcp <=? seL4_MaxPrio);;
  if mcp <? prio then range_error_ret seL4_MinPrio mcp else mret EXCEPTION_NONE.

Definition validFaultHandler (c : cap) : bool :=
  match c with
  | cap_endpoint_cap _ capCanGrantReply capCanGrant capCanSend _ _ =>
    negb (negb capCanSend || (negb capCanGrant && negb capCanGrantReply))
  | cap_null_cap => true
  | _ => false
  end.

Definition Arch_decodeTransfer (flags : Z) : Z := 0.
Definition Arch_performTransfer (arch tcb_src tcb_dest : Z) : K exception_t := mret EXCEPTION_NONE.
Definition Arch_postModifyRegisters (tptr : Z) : K unit := mret ().

(** [current_extra_caps.excaprefs[i]] for the first [n]: all present? *)
Fixpoint excaps_present (n : nat) (i : Z) : K bool :=
  match n with
  | O => mret true
  | S n' => ref ← excapref i; if ref =? NULL then mret false else excaps_present n' (i + 1)
  end.

Section tcb_inv.
Context `{Platform}.

Definition restart_current : K unit :=
  cur ← gets ksCurThread; setThreadState cur ThreadState_Restart.

(** ** Invocations *)
Definition invokeTCB_Suspend (thread : Z) : K exception_t := suspend thread;; mret EXCEPTION_NONE.
Definition invokeTCB_Resume (thread : Z) : K exception_t := restart thread;; mret EXCEPTION_NONE.

Definition installTCBCap (target : Z) (tCap : cap) (slot index : Z) (newCap : cap) (srcSlot : Z) :
    K exception_t :=
  let rootSlot := TCB_PTR_CTE_PTR target index in
  e ← cteDelete rootSlot true;
  if negb (status_ok e) then mret e else
  when (negb (is_null_cap newCap))
    (src ← get_cte srcSlot;
     same ← lift (sameObjectAs newCap (cte_cap src));
     when same
       (s ← get_cte slot;
        same ← lift (sameObjectAs tCap (cte_cap s));
        when same (cteInsert newCap srcSlot rootSlot)));;
  mret e.

(** [if (flags & f) e = installTCBCap(...); if (e != EXCEPTION_NONE) return e; ...] *)
Definition and_then (b : bool) (m : K exception_t) (k : K exception_t) : K exception_t :=
  if b then e ← m; if negb (status_ok e) then mret e else k else k.

Definition invokeTCB_ThreadControlCaps (target slot : Z) (fh_newCap : cap) (fh_srcSlot : Z)
    (th_newCap : cap) (th_srcSlot : Z) (cRoot_newCap : cap) (cRoot_srcSlot : Z)
    (vRoot_newCap : cap) (vRoot_srcSlot bufferAddr : Z) (bufferCap : cap) (bufferSrcSlot updateFlags : Z) :
    K exception_t :=
  let tCap := cap_thread_cap target in
  let space := has_flag updateFlags thread_control_caps_update_space in
  and_then (has_flag updateFlags thread_control_caps_update_fault)
    (installTCBCap target tCap slot tcbFaultHandler fh_newCap fh_srcSlot)
  (and_then (has_flag updateFlags thread_control_caps_update_timeout)
    (installTCBCap target tCap slot tcbTimeoutHandler th_newCap th_srcSlot)
  (and_then space (installTCBCap target tCap slot tcbCTable cRoot_newCap cRoot_srcSlot)
  (and_then space (installTCBCap target tCap slot tcbVTable vRoot_newCap vRoot_srcSlot)
  (if has_flag updateFlags thread_control_caps_update_ipc_buffer then
     let bufferSlot := TCB_PTR_CTE_PTR target tcbBuffer in
     e ← cteDelete bufferSlot true;
     if negb (status_ok e) then mret e else
     mod_tcb target (set_tcbIPCBuffer bufferAddr);;
     when (negb (bufferSrcSlot =? NULL))
       (src ← get_cte bufferSrcSlot;
        same ← lift (sameObjectAs bufferCap (cte_cap src));
        when same
          (s ← get_cte slot;
           same ← lift (sameObjectAs tCap (cte_cap s));
           when same (cteInsert bufferCap bufferSrcSlot bufferSlot)));;
     cur ← gets ksCurThread;
     when (target =? cur) rescheduleRequired;;
     mret EXCEPTION_NONE
   else mret EXCEPTION_NONE)))).

Definition invokeTCB_ThreadControlSched (target slot : Z) (fh_newCap : cap) (fh_srcSlot mcp priority
    sc updateFlags : Z) : K exception_t :=
  and_then (has_flag updateFlags thread_control_sched_update_fault)
    (installTCBCap target (cap_thread_cap target) slot tcbFaultHandler fh_newCap fh_srcSlot)
  (when (has_flag updateFlags thread_control_sched_update_mcp) (setMCPriority target mcp);;
   when (has_flag updateFlags thread_control_sched_update_priority) (setPriority target priority);;
   when (has_flag updateFlags thread_control_sched_update_sc)
     (if negb (sc =? NULL) then schedContext_bindTCB sc target
      else t ← get_tcb target; schedContext_unbindTCB (tcbSchedContext t));;
   mret EXCEPTION_NONE).

Definition invokeTCB_CopyRegisters (dest tcb_src : Z) (suspendSource resumeTarget transferFrame
    transferInteger : bool) (transferArch : Z) : K exception_t :=
  when suspendSource (suspend tcb_src);;
  when resumeTarget (restart dest);;
  when transferFrame
    (for_range 0 n_frameRegisters (λ i,
       v ← getRegister tcb_src (frame_register i); setRegister dest (frame_register i) v);;
     pc ← getRestartPC dest;
     setNextPC dest pc);;
  when transferInteger
    (for_range 0 n_gpRegisters (λ i,
       v ← getRegister tcb_src (gp_register i); setRegister dest (gp_register i) v));;
  Arch_postModifyRegisters dest;;
  cur ← gets ksCurThread;
  when (dest =? cur) rescheduleRequired;;
  Arch_performTransfer transferArch tcb_src dest.

Definition invokeTCB_ReadRegisters (tcb_src : Z) (suspendSource : bool) (n arch : Z) (call : bool) :
    K exception_t :=
  thread ← gets ksCurThread;
  when suspendSource (suspend tcb_src);;
  cur ← gets ksCurThread;
  e ← Arch_performTransfer arch tcb_src cur;
  if negb (status_ok e) then mret e else
  when call
    (ipcBuffer ← lookupIPCBuffer true thread;
     setRegister thread badgeRegister 0;;
     let i := Z.min n (Z.min n_frameRegisters n_msgRegisters) in
     for_range 0 i (λ i,
       v ← getRegister tcb_src (frame_register i); setRegister thread (msg_register i) v);;
     let more := negb (ipcBuffer =? NULL) && (i <? n) && (i <? n_frameRegisters) in
     let j := if more then Z.min n n_frameRegisters else i in
     when more (for_range i j (λ i,
       v ← getRegister tcb_src (frame_register i); store_word ipcBuffer (i + 1) v));;
     let i := Z.max 0 (Z.min n_gpRegisters (Z.min n n_msgRegisters - n_frameRegisters)) in
     for_range 0 i (λ i,
       v ← getRegister tcb_src (gp_register i);
       setRegister thread (msg_register (i + n_frameRegisters)) v);;
     let more := negb (ipcBuffer =? NULL) && (i <? n_gpRegisters) && (i + n_frameRegisters <? n) in
     let i' := if more then Z.min n_gpRegisters (n - n_frameRegisters) else i in
     when more (for_range i i' (λ i,
       v ← getRegister tcb_src (gp_register i);
       store_word ipcBuffer (i + n_frameRegisters + 1) v));;
     setRegister thread msgInfoRegister (wordFromMessageInfo (seL4_MessageInfo_new 0 0 0 (i' + j))));;
  setThreadState thread ThreadState_Running;;
  mret EXCEPTION_NONE.

Definition invokeTCB_WriteRegisters (dest : Z) (resumeTarget : bool) (n arch buffer : Z) : K exception_t :=
  cur ← gets ksCurThread;
  e ← Arch_performTransfer arch cur dest;
  if negb (status_ok e) then mret e else
  let n := if n_frameRegisters + n_gpRegisters <? n then n_frameRegisters + n_gpRegisters else n in
  let archInfo := Arch_getSanitiseRegisterInfo dest in
  for_range 0 (Z.min n_frameRegisters n) (λ i,
    v ← getSyscallArg (i + 2) buffer;
    setRegister dest (frame_register i) (sanitiseRegister (frame_register i) v archInfo));;
  for_range 0 (Z.min n_gpRegisters (n - n_frameRegisters)) (λ i,
    v ← getSyscallArg (i + n_frameRegisters + 2) buffer;
    setRegister dest (gp_register i) (sanitiseRegister (gp_register i) v archInfo));;
  pc ← getRestartPC dest;
  setNextPC dest pc;;
  Arch_postModifyRegisters dest;;
  when resumeTarget (restart dest);;
  cur ← gets ksCurThread;
  when (dest =? cur) rescheduleRequired;;
  mret EXCEPTION_NONE.

Definition invokeTCB_NotificationControl (tcb ntfnPtr : Z) : K exception_t :=
  (if negb (ntfnPtr =? NULL) then bindNotification tcb ntfnPtr else unbindNotification tcb);;
  mret EXCEPTION_NONE.

Definition invokeSetTLSBase (thread tls_base : Z) : K exception_t :=
  setRegister thread TLS_BASE tls_base;;
  cur ← gets ksCurThread;
  when (thread =? cur) rescheduleRequired;;
  mret EXCEPTION_NONE.

Definition invokeSetFlags (thread clear set : Z) (call : bool) : K unit :=
  cur_thread ← gets ksCurThread;
  t ← get_tcb thread;
  let flags := Z.lor (Z.land (tcbFlags t) (wnot clear)) (Z.land set seL4_TCBFlag_MASK) in
  mod_tcb thread (set_tcbFlags flags);;
  when call
    (ipcBuffer ← lookupIPCBuffer true cur_thread;
     setRegister cur_thread badgeRegister 0;;
     length ← setMR cur_thread ipcBuffer 0 flags;
     setRegister cur_thread msgInfoRegister (wordFromMessageInfo (seL4_MessageInfo_new 0 0 0 length)));;
  setThreadState cur_thread ThreadState_Running.

(** ** Decoding; [tcb] is the thread of the invoked capability *)
Definition decodeSetTLSBase (tcb length buffer : Z) : K exception_t :=
  if length <? 1 then syscall_error_ret seL4_TruncatedMessage else
  tls_base ← getSyscallArg 0 buffer;
  restart_current;;
  invokeSetTLSBase tcb tls_base.

Definition decodeSetFlags (tcb length : Z) (call : bool) (buffer : Z) : K exception_t :=
  if length <? 2 then syscall_error_ret seL4_TruncatedMessage else
  clear ← getSyscallArg 0 buffer;
  set ← getSyscallArg 1 buffer;
  restart_current;;
  invokeSetFlags tcb clear set call;;
  mret EXCEPTION_NONE.

Definition decodeCopyRegisters (tcb length buffer : Z) : K exception_t :=
  ref ← excapref 0;
  if (length <? 1) || (ref =? NULL) then syscall_error_ret seL4_TruncatedMessage else
  flags ← getSyscallArg 0 buffer;
  let transferArch := Arch_decodeTransfer (Z.shiftr flags 8) in
  source_cap ← excap 0;
  match source_cap with
  | cap_thread_cap srcTCB =>
    restart_current;;
    invokeTCB_CopyRegisters tcb srcTCB (has_flag flags (BIT 0)) (has_flag flags (BIT 1))
      (has_flag flags (BIT 2)) (has_flag flags (BIT 3)) transferArch
  | _ => invalid_cap_ret 1
  end.

Definition decodeReadRegisters (tcb length : Z) (call : bool) (buffer : Z) : K exception_t :=
  if length <? 2 then syscall_error_ret seL4_TruncatedMessage else
  flags ← getSyscallArg 0 buffer;
  n ← getSyscallArg 1 buffer;
  if (n <? 1) || (n_frameRegisters + n_gpRegisters <? n) then
    range_error_ret 1 (n_frameRegisters + n_gpRegisters) else
  let transferArch := Arch_decodeTransfer (Z.shiftr flags 8) in
  cur ← gets ksCurThread;
  if tcb =? cur then syscall_error_ret seL4_IllegalOperation else
  restart_current;;
  invokeTCB_ReadRegisters tcb (has_flag flags (BIT 0)) n transferArch call.

Definition decodeWriteRegisters (tcb length buffer : Z) : K exception_t :=
  if length <? 2 then syscall_error_ret seL4_TruncatedMessage else
  flags ← getSyscallArg 0 buffer;
  w ← getSyscallArg 1 buffer;
  if length -w 2 <? w then syscall_error_ret seL4_TruncatedMessage else
  let transferArch := Arch_decodeTransfer (Z.shiftr flags 8) in
  cur ← gets ksCurThread;
  if tcb =? cur then syscall_error_ret seL4_IllegalOperation else
  restart_current;;
  invokeTCB_WriteRegisters tcb (has_flag flags (BIT 0)) w transferArch buffer.

(** A new IPC buffer: the slot and capability to install, or the failure. *)
Definition decode_buffer (bufferAddr bufferSlot : Z) (bufferCap : cap) : K (exception_t + Z * cap) :=
  if bufferAddr =? 0 then mret (inr (NULL, bufferCap)) else
  dc ← deriveCap bufferSlot bufferCap;
  let '(status, bufferCap) := dc in
  if negb (status_ok status) then mret (inl status) else
  e ← checkValidIPCBuffer bufferAddr bufferCap;
  if negb (status_ok e) then mret (inl e) else mret (inr (bufferSlot, bufferCap)).

(** New roots of the capability and address spaces of [tcb]. *)
Definition decode_roots (tcb cRootData vRootData cRootSlot : Z) (cRootCap : cap) (vRootSlot : Z)
    (vRootCap : cap) : K (exception_t + cap * cap) :=
  long ← slotCapLongRunningDelete (TCB_PTR_CTE_PTR tcb tcbCTable);
  long ← (if long : bool then mret true
          else slotCapLongRunningDelete (TCB_PTR_CTE_PTR tcb tcbVTable));
  if long : bool then e ← syscall_error_ret seL4_IllegalOperation; mret (inl e) else
  let cRootCap := if negb (cRootData =? 0) then updateCapData false cRootData cRootCap else cRootCap in
  dc ← deriveCap cRootSlot cRootCap;
  let '(status, cRootCap) := dc in
  if negb (status_ok status) then mret (inl status) else
  if negb (match cRootCap with cap_cnode_cap _ _ _ _ => true | _ => false end) then
    e ← syscall_error_ret seL4_IllegalOperation; mret (inl e) else
  let vRootCap := if negb (vRootData =? 0) then updateCapData false vRootData vRootCap else vRootCap in
  dc ← deriveCap vRootSlot vRootCap;
  let '(status, vRootCap) := dc in
  if negb (status_ok status) then mret (inl status) else
  if negb (isValidVTableRoot vRootCap) then
    e ← syscall_error_ret seL4_IllegalOperation; mret (inl e) else
  mret (inr (cRootCap, vRootCap)).

Definition decodeTCBConfigure (tcb length slot buffer : Z) : K exception_t :=
  present ← (if length <? 3 then mret false else excaps_present 3 0);
  if negb present then syscall_error_ret seL4_TruncatedMessage else
  cRootData ← getSyscallArg 0 buffer;
  vRootData ← getSyscallArg 1 buffer;
  bufferAddr ← getSyscallArg 2 buffer;
  cRootSlot ← excapref 0; cRootCap ← excap 0;
  vRootSlot ← excapref 1; vRootCap ← excap 1;
  bufferSlot ← excapref 2; bufferCap ← excap 2;
  b ← decode_buffer bufferAddr bufferSlot bufferCap;
  match b with
  | inl e => mret e
  | inr (bufferSlot, bufferCap) =>
    r ← decode_roots tcb cRootData vRootData cRootSlot cRootCap vRootSlot vRootCap;
    match r with
    | inl e => mret e
    | inr (cRootCap, vRootCap) =>
      restart_current;;
      invokeTCB_ThreadControlCaps tcb slot cap_null_cap NULL cap_null_cap NULL
        cRootCap cRootSlot vRootCap vRootSlot bufferAddr bufferCap bufferSlot
        (Z.lor thread_control_caps_update_space thread_control_caps_update_ipc_buffer)
    end
  end.

Definition decodeSetPriority (tcb length buffer : Z) : K exception_t :=
  ref ← excapref 0;
  if (length <? 1) || (ref =? NULL) then syscall_error_ret seL4_TruncatedMessage else
  newPrio ← getSyscallArg 0 buffer;
  authCap ← excap 0;
  match authCap with
  | cap_thread_cap authTCB =>
    status ← checkPrio newPrio authTCB;
    if negb (status_ok status) then mret status else
    restart_current;;
    invokeTCB_ThreadControlSched tcb NULL cap_null_cap NULL NULL_PRIO newPrio NULL
      thread_control_sched_update_priority
  | _ => invalid_cap_ret 1
  end.

Definition decodeSetMCPriority (tcb length buffer : Z) : K exception_t :=
  ref ← excapref 0;
  if (length <? 1) || (ref =? NULL) then syscall_error_ret seL4_TruncatedMessage else
  newMcp ← getSyscallArg 0 buffer;
  authCap ← excap 0;
  match authCap with
  | cap_thread_cap authTCB =>
    status ← checkPrio newMcp authTCB;
    if negb (status_ok status) then mret status else
    restart_current;;
    invokeTCB_ThreadControlSched tcb NULL cap_null_cap NULL newMcp NULL_PRIO NULL
      thread_control_sched_update_mcp
  | _ => invalid_cap_ret 1
  end.

Definition decodeSetTimeoutEndpoint (tcb slot : Z) : K exception_t :=
  thSlot ← excapref 0;
  if thSlot =? NULL then syscall_error_ret seL4_TruncatedMessage else
  thCap ← excap 0;
  if negb (validFaultHandler thCap) then invalid_cap_ret 1 else
  restart_current;;
  invokeTCB_ThreadControlCaps tcb slot cap_null_cap NULL thCap thSlot cap_null_cap NULL
    cap_null_cap NULL 0 cap_null_cap NULL thread_control_caps_update_timeout.

(** The scheduling context [decodeSetSchedParams] asks for, or the failure. *)
Definition decode_sched_context (tcb : Z) (scCap : cap) : K (exception_t + Z) :=
  t ← get_tcb tcb;
  cur ← gets ksCurThread;
  let illegal : K (exception_t + Z) := e ← syscall_error_ret seL4_IllegalOperation; mret (inl e) in
  match scCap with
  | cap_sched_context_cap sc _ =>
    c ← get_sc sc;
    if negb (tcbSchedContext t =? sc) && negb (tcbSchedContext t =? NULL) then illegal else
    if negb (tcbSchedContext t =? sc) && negb (scTcb c =? NULL) then illegal else
    now ← gets ksCurTime;
    released ← (if isBlocked t then on_sc sc (sc_released now) else mret true);
    if negb released then illegal else mret (inr sc)
  | cap_null_cap => if tcb =? cur then illegal else mret (inr NULL)
  | _ => e ← invalid_cap_ret 2; mret (inl e)
  end.

Definition decodeSetSchedParams (tcb length slot buffer : Z) : K exception_t :=
  present ← (if length <? 2 then mret false else excaps_present 3 0);
  if negb present then syscall_error_ret seL4_TruncatedMessage else
  newMcp ← getSyscallArg 0 buffer;
  newPrio ← getSyscallArg 1 buffer;
  authCap ← excap 0;
  scCap ← excap 1;
  fhSlot ← excapref 2; fhCap ← excap 2;
  match authCap with
  | cap_thread_cap authTCB =>
    status ← checkPrio newMcp authTCB;
    if negb (status_ok status) then mret status else
    status ← checkPrio newPrio authTCB;
    if negb (status_ok status) then mret status else
    r ← decode_sched_context tcb scCap;
    match r with
    | inl e => mret e
    | inr sc =>
      t ← get_tcb tcb;
      let update_flags :=
        Z.lor (Z.lor thread_control_sched_update_mcp thread_control_sched_update_priority)
          thread_control_sched_update_fault in
      let update_flags :=
        if negb (tcbSchedContext t =? sc)
        then Z.lor update_flags thread_control_sched_update_sc else update_flags in
      if negb (validFaultHandler fhCap) then invalid_cap_ret 3 else
      restart_current;;
      invokeTCB_ThreadControlSched tcb slot fhCap fhSlot newMcp newPrio sc update_flags
    end
  | _ => invalid_cap_ret 1
  end.

Definition decodeSetIPCBuffer (tcb length slot buffer : Z) : K exception_t :=
  bufferSlot ← excapref 0;
  if (length <? 1) || (bufferSlot =? NULL) then syscall_error_ret seL4_TruncatedMessage else
  cptr_bufferPtr ← getSyscallArg 0 buffer;
  bufferCap ← excap 0;
  b ← decode_buffer cptr_bufferPtr bufferSlot bufferCap;
  match b with
  | inl e => mret e
  | inr (bufferSlot, bufferCap) =>
    restart_current;;
    invokeTCB_ThreadControlCaps tcb slot cap_null_cap NULL cap_null_cap NULL cap_null_cap NULL
      cap_null_cap NULL cptr_bufferPtr bufferCap bufferSlot thread_control_caps_update_ipc_buffer
  end.

Definition decodeSetSpace (tcb length slot buffer : Z) : K exception_t :=
  present ← (if length <? 2 then mret false else excaps_present 3 0);
  if negb present then syscall_error_ret seL4_TruncatedMessage else
  cRootData ← getSyscallArg 0 buffer;
  vRootData ← getSyscallArg 1 buffer;
  fhSlot ← excapref 0; fhCap ← excap 0;
  cRootSlot ← excapref 1; cRootCap ← excap 1;
  vRootSlot ← excapref 2; vRootCap ← excap 2;
  r ← decode_roots tcb cRootData vRootData cRootSlot cRootCap vRootSlot vRootCap;
  match r with
  | inl e => mret e
  | inr (cRootCap, vRootCap) =>
    if negb (validFaultHandler fhCap) then invalid_cap_ret 1 else
    restart_current;;
    invokeTCB_ThreadControlCaps tcb slot fhCap fhSlot cap_null_cap NULL cRootCap cRootSlot
      vRootCap vRootSlot 0 cap_null_cap NULL
      (Z.lor thread_control_caps_update_space thread_control_caps_update_fault)
  end.

Definition decodeBindNotification (tcb : Z) : K exception_t :=
  ref ← excapref 0;
  if ref =? NULL then syscall_error_ret seL4_TruncatedMessage else
  t ← get_tcb tcb;
  if negb (tcbBoundNotification t =? NULL) then syscall_error_ret seL4_IllegalOperation else
  ntfn_cap ← excap 0;
  match ntfn_cap with
  | cap_notification_cap _ capNtfnCanReceive _ ntfnPtr =>
    if negb capNtfnCanReceive then syscall_error_ret seL4_IllegalOperation else
    n ← get_ntfn ntfnPtr;
    if negb (ntfnQueue_head n =? NULL) || negb (ntfnBoundTCB n =? NULL) then
      syscall_error_ret seL4_IllegalOperation else
    restart_current;;
    invokeTCB_NotificationControl tcb ntfnPtr
  | _ => syscall_error_ret seL4_IllegalOperation
  end.

Definition decodeUnbindNotification (tcb : Z) : K exception_t :=
  t ← get_tcb tcb;
  if tcbBoundNotification t =? NULL then syscall_error_ret seL4_IllegalOperation else
  restart_current;;
  invokeTCB_NotificationControl tcb NULL.

Definition decodeTCBInvocation (invLabel length : Z) (c : cap) (slot : Z) (call : bool) (buffer : Z) :
    K exception_t :=
  match c with
  | cap_thread_cap tcb =>
    if invLabel =? TCBReadRegisters then decodeReadRegisters tcb length call buffer
    else if invLabel =? TCBWriteRegisters then decodeWriteRegisters tcb length buffer
    else if invLabel =? TCBCopyRegisters then decodeCopyRegisters tcb length buffer
    else if invLabel =? TCBSuspend then restart_current;; invokeTCB_Suspend tcb
    else if invLabel =? TCBResume then restart_current;; invokeTCB_Resume tcb
    else if invLabel =? TCBConfigure then decodeTCBConfigure tcb length slot buffer
    else if invLabel =? TCBSetPriority then decodeSetPriority tcb length buffer
    else if invLabel =? TCBSetMCPriority then decodeSetMCPriority tcb length buffer
    else if invLabel =? TCBSetSchedParams then decodeSetSchedParams tcb length slot buffer
    else if invLabel =? TCBSetIPCBuffer then decodeSetIPCBuffer tcb length slot buffer
    else if invLabel =? TCBSetSpace then decodeSetSpace tcb length slot buffer
    else if invLabel =? TCBBindNotification then decodeBindNotification tcb
    else if invLabel =? TCBUnbindNotification then decodeUnbindNotification tcb
    else if invLabel =? TCBSetTimeoutEndpoint then decodeSetTimeoutEndpoint tcb slot
    else if invLabel =? TCBSetTLSBase then decodeSetTLSBase tcb length buffer
    else if invLabel =? TCBSetFlags then decodeSetFlags tcb length call buffer
    else syscall_error_ret seL4_IllegalOperation
  | _ => stuck BadPointer
  end.
End tcb_inv.
