(* ===== verification/Boot.v ===== *)
(** * Booting the kernel

    The rest of [kernel/kernel/boot.c], [kernel/arch/riscv/kernel/boot.c] and the
    boot part of [kernel/arch/riscv/kernel/vspace.c]: the kernel's own mappings,
    the objects, capabilities and address space of the first thread, the untyped
    capabilities over the rest of memory, and the boot info frame that describes
    them. Messages on the console are no part of the model. *)
From S2P Require Import Prelude Words Platform State Machine DList RefillList Sporadic Queues CapOps CSpace VSpace Thread CNode Message Delete Untyped TcbInv Endpoint BootMemory.

(** [rootserver_mem_t]: the objects of the first thread *)
Record rootserver_mem_t := Rootserver {
  rs_cnode : Z; rs_vspace : Z; rs_asid_pool : Z; rs_ipc_buf : Z; rs_boot_info : Z;
  rs_extra_bi : Z; rs_tcb : Z; rs_sc : Z; rs_paging : region
}.

(** The state of the boot code: the kernel, [ndks_boot] (its arrays, the boot info
    pointer and the next free slot), [rootserver], [rootserver_mem] and the trap
    vector of the core. *)
Record boot_state := BootState {
  kern : kstate;
  ndks : ndks_boot;
  bi_frame : Z;
  slot_pos_cur : Z;
  rootserver : rootserver_mem_t;
  rootserver_mem : region;
  stvec : Z
}.
Definition set_kern (v : kstate) (b : boot_state) : boot_state :=
  BootState v (ndks b) (bi_frame b) (slot_pos_cur b) (rootserver b) (rootserver_mem b) (stvec b).
Definition set_ndks (v : ndks_boot) (b : boot_state) : boot_state :=
  BootState (kern b) v (bi_frame b) (slot_pos_cur b) (rootserver b) (rootserver_mem b) (stvec b).
Definition set_bi_frame (v : Z) (b : boot_state) : boot_state :=
  BootState (kern b) (ndks b) v (slot_pos_cur b) (rootserver b) (rootserver_mem b) (stvec b).
Definition set_slot_pos_cur (v : Z) (b : boot_state) : boot_state :=
  BootState (kern b) (ndks b) (bi_frame b) v (rootserver b) (rootserver_mem b) (stvec b).
Definition set_rootserver (v : rootserver_mem_t) (b : boot_state) : boot_state :=
  BootState (kern b) (ndks b) (bi_frame b) (slot_pos_cur b) v (rootserver_mem b) (stvec b).
Definition set_rootserver_mem (v : region) (b : boot_state) : boot_state :=
  BootState (kern b) (ndks b) (bi_frame b) (slot_pos_cur b) (rootserver b) v (stvec b).
Definition set_stvec (v : Z) (b : boot_state) : boot_state :=
  BootState (kern b) (ndks b) (bi_frame b) (slot_pos_cur b) (rootserver b) (rootserver_mem b) v.

Definition B (A : Type) : Type := M boot_state A.
(** Code of the kernel and code of the memory map, run on their part of the state *)
Definition on_kern {A} (m : K A) : B A := λ b,
  match m (kern b) with Done a s => Done a (set_kern s b) | Stuck f => Stuck f end.
Definition on_ndks {A} (m : R A) : B A := λ b,
  match m (ndks b) with Done a n => Done a (set_ndks n b) | Stuck f => Stuck f end.

(** ** Memory: [kernel/util.c] *)
Definition outside_bytes (base n p : Z) : Prop := p < base ∨ base + n ≤ p.
#[global] Instance outside_bytes_dec base n p : Decision (outside_bytes base n p).
Proof. unfold outside_bytes. apply _. Defined.
Definition memzero (s n : Z) : K unit :=
  assert! (s mod 8 =? 0);;
  assert! (n mod 8 =? 0);;
  modify (keep_objects (outside_bytes s n)).

(** Bytes of the words of memory, little endian *)
Definition load_byte (p : Z) : K Z :=
  w ← load_word (ROUND_DOWN p 3) 0; mret (Z.land (Z.shiftr w (8 * (p mod 8))) 255).
Definition store_byte (p v : Z) : K unit :=
  w ← load_word (ROUND_DOWN p 3) 0;
  store_word (ROUND_DOWN p 3) 0
    (Z.lor (Z.ldiff w (Z.shiftl 255 (8 * (p mod 8)))) (Z.shiftl v (8 * (p mod 8)))).
Definition memcpy (dst src n : Z) : K unit :=
  for_range 0 n (λ i, v ← load_byte (src +w i); store_byte (dst +w i) v).

(** ** The boot info frame: [libsel4/include/sel4/bootinfo_types.h]

    [seL4_BootInfo] is an array of words; the constants are indices. *)
Record slot_region := SlotRegion { sr_start : Z; sr_end : Z }.
Definition S_REG_EMPTY : slot_region := SlotRegion 0 0.
Definition bi_extraLen : Z := 0.
Definition bi_nodeID : Z := 1.
Definition bi_numNodes : Z := 2.
Definition bi_numIOPTLevels : Z := 3.
Definition bi_ipcBuffer : Z := 4.
Definition bi_empty : Z := 5.
Definition bi_sharedFrames : Z := 7.
Definition bi_userImageFrames : Z := 9.
Definition bi_userImagePaging : Z := 11.
Definition bi_extraBIPages : Z := 15.
Definition bi_initThreadCNodeSizeBits : Z := 17.
Definition bi_initThreadDomain : Z := 18.
Definition bi_schedcontrol : Z := 19.
Definition bi_untyped : Z := 21.
Definition bi_untypedList : Z := 23.
Definition bi_put (i w : Z) : B unit := bi ← gets bi_frame; on_kern (store_word bi i w).
Definition bi_put_region (i : Z) (r : slot_region) : B unit :=
  bi_put i (sr_start r);; bi_put (i + 1) (sr_end r).
(** [untypedList[i]]: the address, then the bytes [sizeBits] and [isDevice] and padding *)
Definition bi_put_untyped (i paddr sizeBits : Z) (isDevice : bool) : B unit :=
  bi_put (bi_untypedList + 2 * i) paddr;;
  bi_put (bi_untypedList + 2 * i + 1) (Z.lor (Z.land sizeBits 255) (Z.shiftl (Z.b2z isDevice) 8)).
Definition SEL4_BOOTINFO_HEADER_PADDING : Z := 0.
Definition SEL4_BOOTINFO_HEADER_FDT : Z := 6.
Definition sizeof_seL4_BootInfoHeader : Z := 16.
Definition put_header (p id len : Z) : B unit :=
  on_kern (store_word p 0 id);; on_kern (store_word p 1 len).

(** [seL4_RootCNodeCapSlots] *)
Definition seL4_CapInitThreadTCB : Z := 1.
Definition seL4_CapInitThreadCNode : Z := 2.
Definition seL4_CapInitThreadVSpace : Z := 3.
Definition seL4_CapIRQControl : Z := 4.
Definition seL4_CapASIDControl : Z := 5.
Definition seL4_CapInitThreadASIDPool : Z := 6.
Definition seL4_CapBootInfoFrame : Z := 9.
Definition seL4_CapInitThreadIPCBuffer : Z := 10.
Definition seL4_CapDomain : Z := 11.
Definition seL4_CapInitThreadSC : Z := 14.
Definition seL4_NumInitialCaps : Z := 16.

Definition IT_ASID : Z := 1.
Definition KDEV_BASE : Z := 0xFFFFFFFFC0000000.
Definition CONFIG_MAX_NUM_NODES : Z := 1.
Definition seL4_TCBFlag_fpuDisabled : Z := 1.
Definition SSTATUS : Z := 32.
Definition SP : Z := 1.
Definition SSTATUS_SPIE : Z := 0x20.
Definition SSTATUS_SPP : Z := 0x100.
Definition RISCV_GET_LVL_PGSIZE (n : Z) : Z := BIT (RISCV_GET_LVL_PGSIZE_BITS n).

Section boot.
Context `{Platform} `{BootPlatform}.

(** ** The root server's objects *)

(** What cleared memory holds: a zero-initialised object of the type it is used as *)
Definition new_cnode (p size_bits : Z) : K unit :=
  modify (λ s, set_ctes (new_slots p (Z.to_nat (2 ^ size_bits)) (ctes s)) s).
Definition zero_tcb : tcb :=
  Tcb ∅ zero_thread_state 0 NULL seL4_Fault_NullFault lookup_fault_invalid_root 0 0 0 NULL NULL 0 NULL NULL NULL NULL.
Definition new_tcb_object (p : Z) : K unit :=
  modify (λ s, set_ctes (new_slots p (Z.to_nat tcbCNodeEntries) (ctes s)) s);;
  modify (λ s, set_tcbs (<[p +w TCB_OFFSET := zero_tcb]> (tcbs s)) s).
Definition new_sc_object (p : Z) : K unit :=
  modify (λ s, set_scs (<[p := zero_sched_context
    (Z.to_nat (refill_absolute_max (cap_sched_context_cap p seL4_MinSchedContextBits)))]> (scs s)) s).

Definition alloc_rootserver_obj (size_bits n : Z) : B Z :=
  mem ← gets rootserver_mem;
  let allocated := r_start mem in
  assert! (allocated mod BIT size_bits =? 0);;
  let start := r_start mem +w wrap (n * BIT size_bits) in
  modify (set_rootserver_mem (set_start start mem));;
  assert! (start <=? r_end mem);;
  on_kern (memzero allocated (wrap (n * BIT size_bits)));;
  mret allocated.

Definition mod_rootserver (f : rootserver_mem_t → rootserver_mem_t) : B unit :=
  modify (λ b, set_rootserver (f (rootserver b)) b).

Definition maybe_alloc_extra_bi (cmp_size_bits extra_bi_size_bits : Z) : B unit :=
  rs ← gets rootserver;
  when ((cmp_size_bits <=? extra_bi_size_bits) && (rs_extra_bi rs =? 0))
    (p ← alloc_rootserver_obj extra_bi_size_bits 1;
     mod_rootserver (λ rs, Rootserver (rs_cnode rs) (rs_vspace rs) (rs_asid_pool rs) (rs_ipc_buf rs)
       (rs_boot_info rs) p (rs_tcb rs) (rs_sc rs) (rs_paging rs))).

Definition alloc_root_cnode : B unit :=
  p ← alloc_rootserver_obj (CONFIG_ROOT_CNODE_SIZE_BITS + seL4_SlotBits) 1;
  on_kern (new_cnode p CONFIG_ROOT_CNODE_SIZE_BITS);;
  mod_rootserver (λ rs, Rootserver p (rs_vspace rs) (rs_asid_pool rs) (rs_ipc_buf rs)
    (rs_boot_info rs) (rs_extra_bi rs) (rs_tcb rs) (rs_sc rs) (rs_paging rs)).
Definition alloc_root_vspace : B unit :=
  p ← alloc_rootserver_obj seL4_VSpaceBits 1;
  mod_rootserver (λ rs, Rootserver (rs_cnode rs) p (rs_asid_pool rs) (rs_ipc_buf rs)
    (rs_boot_info rs) (rs_extra_bi rs) (rs_tcb rs) (rs_sc rs) (rs_paging rs)).

Definition create_rootserver_objects (start : Z) (it_v_reg : region) (extra_bi_size_bits : Z) : B unit :=
  let cnode_size_bits := CONFIG_ROOT_CNODE_SIZE_BITS + seL4_SlotBits in
  let max := rootserver_max_size_bits extra_bi_size_bits in
  let size := calculate_rootserver_size it_v_reg extra_bi_size_bits in
  modify (set_rootserver_mem (Region start (start +w size)));;
  maybe_alloc_extra_bi max extra_bi_size_bits;;
  (if seL4_VSpaceBits <? cnode_size_bits then
     alloc_root_cnode;;
     maybe_alloc_extra_bi seL4_VSpaceBits extra_bi_size_bits;;
     alloc_root_vspace
   else
     alloc_root_vspace;;
     maybe_alloc_extra_bi cnode_size_bits extra_bi_size_bits;;
     alloc_root_cnode);;
  maybe_alloc_extra_bi seL4_PageBits extra_bi_size_bits;;
  asid_pool ← alloc_rootserver_obj seL4_ASIDPoolBits 1;
  ipc_buf ← alloc_rootserver_obj seL4_PageBits 1;
  boot_info ← alloc_rootserver_obj seL4_BootInfoFrameBits 1;
  let n := arch_get_n_paging it_v_reg in
  paging ← alloc_rootserver_obj seL4_PageTableBits n;
  tcb ← alloc_rootserver_obj seL4_TCBBits 1;
  on_kern (new_tcb_object tcb);;
  sc ← alloc_rootserver_obj seL4_MinSchedContextBits 1;
  on_kern (new_sc_object sc);;
  mod_rootserver (λ rs, Rootserver (rs_cnode rs) (rs_vspace rs) asid_pool ipc_buf boot_info (rs_extra_bi rs) tcb sc
    (Region paging (paging +w wrap (n * BIT seL4_PageTableBits))));;
  mem ← gets rootserver_mem;
  assert! (r_start mem =? r_end mem).

(** The end of [init_freemem]: place the objects. [None] goes on with the next region. *)
Definition place_rootserver_step (it_v_reg : region) (extra_bi_size_bits i : Z) : B (Z + bool) :=
  let size := calculate_rootserver_size it_v_reg extra_bi_size_bits in
  let max := rootserver_max_size_bits extra_bi_size_bits in
  if i <? 0 then mret (inr false) else
  assert! (i <? MAX_NUM_FREEMEM_REG - 1);;
  next ← on_ndks (get_freemem (i + 1));
  assert! (is_reg_empty next);;
  f ← on_ndks (get_freemem i);
  let unaligned_start := r_end f -w size in
  let start := ROUND_DOWN unaligned_start max in
  if (unaligned_start <=? r_end f) && (r_start f <=? start) then
    create_rootserver_objects start it_v_reg extra_bi_size_bits;;
    on_ndks (put_freemem (i + 1) (Region (start +w size) (r_end f)));;
    on_ndks (put_freemem i (set_end start f));;
    mret (inr true)
  else
    on_ndks (put_freemem (i + 1) f);;
    on_ndks (put_freemem i REG_EMPTY);;
    mret (inl (i - 1)).

Definition skip_empty_regions (i : Z) : R Z :=
  while64 (λ i,
    if i <? 0 then mret (inr i) else
    f ← get_freemem i;
    mret (if is_reg_empty f then inl (i - 1) else inr i)) i.

Definition init_freemem (available reserved : list region) (it_v_reg : region) (extra_bi_size_bits : Z) : B bool :=
  if negb (check_available_memory available) then mret false else
  if negb (check_reserved_memory reserved) then mret false else
  on_ndks (init_freemem_regions available reserved);;
  last ← on_ndks (get_freemem (MAX_NUM_FREEMEM_REG - 1));
  if negb (is_reg_empty last) then mret false else
  i ← on_ndks (skip_empty_regions (MAX_NUM_FREEMEM_REG - 1));
  while64 (place_rootserver_step it_v_reg extra_bi_size_bits) i.

Definition it_alloc_paging : B Z :=
  rs ← gets rootserver;
  let allocated := r_start (rs_paging rs) in
  let start := allocated +w BIT seL4_PageTableBits in
  mod_rootserver (λ rs, Rootserver (rs_cnode rs) (rs_vspace rs) (rs_asid_pool rs) (rs_ipc_buf rs)
    (rs_boot_info rs) (rs_extra_bi rs) (rs_tcb rs) (rs_sc rs) (set_start start (rs_paging rs)));;
  assert! (start <=? r_end (rs_paging rs));;
  mret allocated.

(** ** Capabilities in the root CNode *)
Definition pptr_of_cap (c : cap) : B Z := on_kern (lift (cap_get_capPtr c)).
Definition SLOT_PTR (pptr pos : Z) : Z := cte_index pptr pos.
Definition write_slot (slot_ptr : Z) (c : cap) : B unit :=
  on_kern (mod_cte slot_ptr (set_cte_cap c));;
  on_kern (mod_cte slot_ptr (set_cteMDBNode nullMDBNode));;
  on_kern (mod_mdb slot_ptr (set_mdbRevocable true));;
  on_kern (mod_mdb slot_ptr (set_mdbFirstBadged true)).
(** [write_slot(SLOT_PTR(pptr_of_cap(root_cnode_cap), pos), cap)] *)
Definition write_root_slot (root_cnode_cap : cap) (pos : Z) (c : cap) : B unit :=
  p ← pptr_of_cap root_cnode_cap; write_slot (SLOT_PTR p pos) c.

Definition create_root_cnode : B cap :=
  rs ← gets rootserver;
  let c := cap_cnode_cap CONFIG_ROOT_CNODE_SIZE_BITS (wordBits - CONFIG_ROOT_CNODE_SIZE_BITS) 0 (rs_cnode rs) in
  write_slot (SLOT_PTR (rs_cnode rs) seL4_CapInitThreadCNode) c;;
  mret c.

Definition create_domain_cap (root_cnode_cap : cap) : B unit :=
  write_root_slot root_cnode_cap seL4_CapDomain cap_domain_cap.

Definition provide_cap (root_cnode_cap c : cap) : B bool :=
  pos ← gets slot_pos_cur;
  if BIT CONFIG_ROOT_CNODE_SIZE_BITS <=? pos then mret false else
  write_root_slot root_cnode_cap pos c;;
  modify (set_slot_pos_cur (pos + 1));;
  mret true.

(** ** Mappings of the first thread *)
Definition map_it_pt_cap (vspace_cap pt_cap : cap) : B unit :=
  match pt_cap with
  | cap_page_table_cap _ pt _ vptr =>
    lvl1pt ← pptr_of_cap vspace_cap;
    pt_ret ← on_kern (lookupPTSlot lvl1pt vptr);
    on_kern (store_pte pt_ret.1 (makeTablePTE (addrFromPPtr pt)))
  | _ => stuck BadPointer
  end.
Definition create_it_pt_cap (vspace_cap : cap) (pptr vptr asid : Z) : B cap :=
  let c := cap_page_table_cap asid pptr true vptr in
  map_it_pt_cap vspace_cap c;; mret c.

Definition map_it_frame_cap (vspace_cap frame_cap : cap) : B unit :=
  match frame_cap with
  | cap_frame_cap _ frame_pptr _ _ _ frame_vptr =>
    lvl1pt ← pptr_of_cap vspace_cap;
    lu_ret ← on_kern (lookupPTSlot lvl1pt frame_vptr);
    assert! (lu_ret.2 =? seL4_PageBits);;
    on_kern (store_pte lu_ret.1 (pte_new (Z.shiftr (addrFromPPtr frame_pptr) seL4_PageBits) 0 1 1 0 1 1 1 1 1))
  | _ => stuck BadPointer
  end.
Definition create_mapped_it_frame_cap (pd_cap : cap) (pptr vptr asid : Z) (use_large executable : bool) : B cap :=
  let frame_size := if use_large then RISCV_Mega_Page else RISCV_4K_Page in
  let c := cap_frame_cap asid pptr frame_size VMReadWrite false vptr in
  map_it_frame_cap pd_cap c;; mret c.
Definition create_unmapped_it_frame_cap (pptr : Z) (use_large : bool) : B cap :=
  mret (cap_frame_cap asidInvalid pptr 0 0 false 0).

Definition create_frames_of_region (root_cnode_cap pd_cap : cap) (reg : region) (do_map : bool) (pv_offset : Z) :
    B (slot_region * bool) :=
  slot_pos_before ← gets slot_pos_cur;
  ok ← while64 (λ f,
    if negb (f <? r_end reg) then mret (inr true) else
    frame_cap ← (if do_map
      then create_mapped_it_frame_cap pd_cap f (addrFromPPtr (f -w pv_offset)) IT_ASID false true
      else create_unmapped_it_frame_cap f false);
    provided ← provide_cap root_cnode_cap frame_cap;
    mret (if provided : bool then inl (f +w BIT seL4_PageBits) else inr false)) (r_start reg);
  if negb ok then mret (S_REG_EMPTY, false) else
  slot_pos_after ← gets slot_pos_cur;
  mret (SlotRegion slot_pos_before slot_pos_after, true).

(** The page tables of level [i]; [false] when the root CNode is full *)
Definition create_it_pts (root_cnode_cap lvl1pt_cap : cap) (it_v_reg : region) (i : Z) : B bool :=
  while64 (λ pt_vptr,
    if negb (pt_vptr <? r_end it_v_reg) then mret (inr true) else
    pt ← it_alloc_paging;
    pt_cap ← create_it_pt_cap lvl1pt_cap pt pt_vptr IT_ASID;
    provided ← provide_cap root_cnode_cap pt_cap;
    mret (if provided : bool then inl (pt_vptr +w RISCV_GET_LVL_PGSIZE i) else inr false))
    (ROUND_DOWN (r_start it_v_reg) (RISCV_GET_LVL_PGSIZE_BITS i)).
Definition create_it_address_space (root_cnode_cap : cap) (it_v_reg : region) : B cap :=
  rs ← gets rootserver;
  on_kern (copyGlobalMappings (rs_vspace rs));;
  let lvl1pt_cap := cap_page_table_cap IT_ASID (rs_vspace rs) true (rs_vspace rs) in
  slot_pos_before ← gets slot_pos_cur;
  write_root_slot root_cnode_cap seL4_CapInitThreadVSpace lvl1pt_cap;;
  ok ← create_it_pts root_cnode_cap lvl1pt_cap it_v_reg 0;
  if negb ok then mret cap_null_cap else
  ok ← create_it_pts root_cnode_cap lvl1pt_cap it_v_reg 1;
  if negb ok then mret cap_null_cap else
  slot_pos_after ← gets slot_pos_cur;
  bi_put_region bi_userImagePaging (SlotRegion slot_pos_before slot_pos_after);;
  mret lvl1pt_cap.

Definition create_ipcbuf_frame_cap (root_cnode_cap pd_cap : cap) (vptr : Z) : B cap :=
  rs ← gets rootserver;
  on_kern (clearMemory (rs_ipc_buf rs) seL4_PageBits);;
  c ← create_mapped_it_frame_cap pd_cap (rs_ipc_buf rs) vptr IT_ASID false false;
  write_root_slot root_cnode_cap seL4_CapInitThreadIPCBuffer c;;
  mret c.
Definition create_bi_frame_cap (root_cnode_cap pd_cap : cap) (vptr : Z) : B unit :=
  rs ← gets rootserver;
  c ← create_mapped_it_frame_cap pd_cap (rs_boot_info rs) vptr IT_ASID false false;
  write_root_slot root_cnode_cap seL4_CapBootInfoFrame c.

Definition create_it_asid_pool (root_cnode_cap : cap) : B cap :=
  rs ← gets rootserver;
  let ap_cap := cap_asid_pool_cap (ASID_HIGH IT_ASID <<w asidLowBits) (rs_asid_pool rs) in
  write_root_slot root_cnode_cap seL4_CapInitThreadASIDPool ap_cap;;
  write_root_slot root_cnode_cap seL4_CapASIDControl cap_asid_control_cap;;
  mret ap_cap.
Definition write_it_asid_pool (it_ap_cap it_lvl1pt_cap : cap) : B unit :=
  ap ← pptr_of_cap it_ap_cap;
  lvl1pt ← pptr_of_cap it_lvl1pt_cap;
  on_kern (store_word ap (ASID_LOW IT_ASID) lvl1pt);;
  on_kern (riscvKSASIDTable_set (ASID_HIGH IT_ASID) ap).
End boot.
