(* ===== verification/BootInit.v ===== *)
(** * From the kernel's mappings to the first thread

    The top of the boot code: [map_kernel_window] of
    [kernel/arch/riscv/kernel/vspace.c], the threads, the untyped capabilities and
    the boot info of [kernel/kernel/boot.c], and [init_kernel] of
    [kernel/arch/riscv/kernel/boot.c], which the loader calls with the physical
    region of the user image, the difference between its physical and virtual
    addresses, its entry point and the device tree. *)
From S2P Require Import Prelude Words Platform State Machine DList RefillList Sporadic Queues CapOps CSpace VSpace Thread CNode Message Delete Untyped TcbInv Endpoint BootMemory Boot.

Section init.
Context `{Platform} `{BootPlatform}.

(** ** The kernel's address space *)

(** The entry of a kernel page or, if [is_leaf] does not hold, of a kernel page table *)
Definition pte_next (phys_addr : Z) (is_leaf : bool) : Z :=
  let l := Z.b2z is_leaf in pte_new (Z.shiftr phys_addr 12) 0 l l 1 0 l l l 1.
Definition kernel_root_put (i pte : Z) : K unit := store_pte (pte_index kernel_root_pageTable i) pte.

Definition map_kernel_frame (paddr vaddr vm_rights : Z) : K unit :=
  let level := if KDEV_BASE <=? vaddr then 1 else 0 in
  let paddr := ROUND_DOWN paddr (RISCV_GET_LVL_PGSIZE_BITS level) in
  assert! (paddr mod RISCV_GET_LVL_PGSIZE level =? 0);;
  if KDEV_BASE <=? vaddr then
    store_pte (pte_index kernel_image_level1_dev_pt (RISCV_GET_PT_INDEX vaddr 1)) (pte_next paddr true)
  else kernel_root_put (RISCV_GET_PT_INDEX vaddr 0) (pte_next paddr true).

Definition map_kernel_devices : B unit :=
  for_range 0 NUM_KERNEL_DEVICE_FRAMES (λ i,
    frame ← deref (kernel_device_frames !! Z.to_nat i);
    on_kern (map_kernel_frame (kf_paddr frame) (kf_pptr frame) VMKernelOnly);;
    when (negb (kf_userAvailable frame))
      (_ ← on_ndks (reserve_region (Region (kf_paddr frame) (kf_paddr frame +w BIT seL4_LargePageBits)));
       mret ())).

(** The loop over the pages of the physical memory window *)
Definition map_physical_window : K Z :=
  v ← while64 (λ v,
    let '(pptr, paddr) := v in
    if negb (pptr <? PPTR_TOP) then mret (inr v) else
    assert! (IS_ALIGNED pptr (RISCV_GET_LVL_PGSIZE_BITS 0));;
    assert! (IS_ALIGNED paddr (RISCV_GET_LVL_PGSIZE_BITS 0));;
    kernel_root_put (RISCV_GET_PT_INDEX pptr 0) (pte_next paddr true);;
    mret (inl (pptr +w RISCV_GET_LVL_PGSIZE 0, paddr +w RISCV_GET_LVL_PGSIZE 0))) (PPTR_BASE, PADDR_BASE);
  mret v.1.
(** The loop over the pages of the kernel image *)
Definition map_kernel_image (pptr paddr : Z) : K Z :=
  v ← while64 (λ v,
    let '(index, pptr, paddr) := v in
    if negb (pptr <? PPTR_TOP +w RISCV_GET_LVL_PGSIZE 0) then mret (inr v) else
    store_pte (pte_index kernel_image_level1_pt index) (pte_next paddr true);;
    mret (inl (index + 1, pptr +w RISCV_GET_LVL_PGSIZE 1, paddr +w RISCV_GET_LVL_PGSIZE 1))) (0, pptr, paddr);
  mret v.1.2.

Definition map_kernel_window : B unit :=
  assert! ((1 <? CONFIG_PT_LEVELS) && (CONFIG_PT_LEVELS <=? 4));;
  assert! (KERNEL_ELF_TOP <=? KDEV_BASE);;
  pptr ← on_kern map_physical_window;
  assert! (pptr =? PPTR_TOP);;
  let pptr := ROUND_DOWN KERNEL_ELF_BASE (RISCV_GET_LVL_PGSIZE_BITS 0) in
  let paddr := ROUND_DOWN KERNEL_ELF_PADDR_BASE (RISCV_GET_LVL_PGSIZE_BITS 0) in
  level1 ← addrFromKPPtr kernel_image_level1_pt;
  on_kern (kernel_root_put (RISCV_GET_PT_INDEX (KERNEL_ELF_PADDR_BASE +w PPTR_BASE_OFFSET) 0) (pte_next level1 false));;
  on_kern (kernel_root_put (RISCV_GET_PT_INDEX pptr 0) (pte_next level1 false));;
  pptr ← on_kern (map_kernel_image pptr paddr);
  dev ← addrFromKPPtr kernel_image_level1_dev_pt;
  on_kern (kernel_root_put (RISCV_GET_PT_INDEX KDEV_BASE 0) (pte_next dev false));;
  assert! (pptr =? wrap (UINT64_MAX - RISCV_GET_LVL_PGSIZE 0 + 1));;
  map_kernel_devices.

Definition activate_kernel_vspace : K unit := setKernelVSpaceRoot.
Definition init_cpu : B unit :=
  on_kern activate_kernel_vspace;;
  modify (set_stvec trap_entry_address);;
  on_kern initLocalIRQController.
Definition init_plat : B unit := on_kern initIRQController.

Definition init_irqs (root_cnode_cap : cap) : B unit :=
  for_range 0 (maxIRQ + 1) (λ i, when (negb (i =? irqInvalid)) (on_kern (setIRQState IRQInactive i)));;
  on_kern (setIRQState IRQTimer KERNEL_TIMER_IRQ);;
  write_root_slot root_cnode_cap seL4_CapIRQControl cap_irq_control_cap.

Definition arch_init_freemem (ui_reg dtb_p_reg it_v_reg : region) (extra_bi_size_bits : Z) : B bool :=
  image ← get_p_reg_kernel_img;
  let res_reg := [paddr_to_pptr_reg image] ++
    (if negb (r_start dtb_p_reg =? 0) then [paddr_to_pptr_reg dtb_p_reg] else []) ++ [ui_reg] in
  init_freemem avail_p_regs res_reg it_v_reg extra_bi_size_bits.

(** ** Boot info *)
Definition calculate_extra_bi_size_bits (extra_size : Z) : Z :=
  if extra_size =? 0 then 0 else
  let msb := wordBits - 1 - clzl (ROUND_UP extra_size seL4_PageBits) in
  if BIT msb <? extra_size then msb + 1 else msb.

Definition populate_bi_frame (node_id num_nodes ipcbuf_vptr extra_bi_size : Z) : B unit :=
  rs ← gets rootserver;
  on_kern (clearMemory (rs_boot_info rs) seL4_BootInfoFrameBits);;
  when (negb (extra_bi_size =? 0))
    (on_kern (clearMemory (rs_extra_bi rs) (calculate_extra_bi_size_bits extra_bi_size)));;
  modify (set_bi_frame (rs_boot_info rs));;
  bi_put bi_nodeID node_id;;
  bi_put bi_numNodes num_nodes;;
  bi_put bi_numIOPTLevels 0;;
  bi_put bi_ipcBuffer ipcbuf_vptr;;
  bi_put bi_initThreadCNodeSizeBits CONFIG_ROOT_CNODE_SIZE_BITS;;
  bi_put bi_initThreadDomain 0;;
  bi_put bi_extraLen extra_bi_size;;
  modify (set_slot_pos_cur seL4_NumInitialCaps).

Definition bi_finalise : B unit :=
  pos ← gets slot_pos_cur;
  bi_put_region bi_empty (SlotRegion pos (BIT CONFIG_ROOT_CNODE_SIZE_BITS)).

Definition init_sched_control (root_cnode_cap : cap) (num_nodes : Z) : B bool :=
  slot_pos_before ← gets slot_pos_cur;
  ok ← while64 (λ i,
    if negb (i <? num_nodes) then mret (inr true) else
    provided ← provide_cap root_cnode_cap (cap_sched_control_cap i);
    mret (if provided : bool then inl (i + 1) else inr false)) 0;
  if negb ok then mret false else
  slot_pos_after ← gets slot_pos_cur;
  bi_put_region bi_schedcontrol (SlotRegion slot_pos_before slot_pos_after);;
  mret true.

(** ** Threads *)
Definition configure_sched_context (tcb sc_pptr timeslice : Z) : K unit :=
  mod_tcb tcb (set_tcbSchedContext sc_pptr);;
  now ← gets ksCurTime;
  on_sc sc_pptr (refill_new now MIN_REFILLS timeslice 0);;
  mod_sc sc_pptr (set_scTcb tcb).

Definition Arch_configureIdleThread (tcb : Z) : K unit :=
  setRegister tcb NextIP idle_thread;;
  setRegister tcb SSTATUS (Z.lor SSTATUS_SPP SSTATUS_SPIE);;
  setRegister tcb SP (kernel_stack_alloc +w BIT CONFIG_KERNEL_STACK_BITS).
Definition configureIdleThread (tcb : Z) : K unit :=
  mod_tcb tcb (set_tcbFlags seL4_TCBFlag_fpuDisabled);;
  Arch_configureIdleThread tcb;;
  setThreadState tcb ThreadState_IdleThreadState.

Definition boot_timeslice : Z := usToTicks (wrap (CONFIG_BOOT_THREAD_TIME_SLICE * US_IN_MS)).
Definition create_idle_thread : K unit :=
  let tcb := ksIdleThreadTCB +w TCB_OFFSET in
  modify (set_ksIdleThread tcb);;
  configureIdleThread tcb;;
  configure_sched_context tcb ksIdleThreadSC boot_timeslice;;
  modify (set_ksIdleSC ksIdleThreadSC).

(** The initial thread, or [NULL] *)
Definition create_initial_thread (root_cnode_cap it_pd_cap : cap) (ui_v_entry bi_frame_vptr ipcbuf_vptr : Z)
    (ipcbuf_cap : cap) : B Z :=
  rs ← gets rootserver;
  let tcb := rs_tcb rs +w TCB_OFFSET in
  on_kern (setRegister tcb SSTATUS SSTATUS_SPIE);;
  cnode ← pptr_of_cap root_cnode_cap;
  dc_ret ← on_kern (deriveCap (SLOT_PTR cnode seL4_CapInitThreadIPCBuffer) ipcbuf_cap);
  if negb (status_ok dc_ret.1) then mret NULL else
  on_kern (cteInsert root_cnode_cap (SLOT_PTR cnode seL4_CapInitThreadCNode) (SLOT_PTR (rs_tcb rs) tcbCTable));;
  on_kern (cteInsert it_pd_cap (SLOT_PTR cnode seL4_CapInitThreadVSpace) (SLOT_PTR (rs_tcb rs) tcbVTable));;
  on_kern (cteInsert dc_ret.2 (SLOT_PTR cnode seL4_CapInitThreadIPCBuffer) (SLOT_PTR (rs_tcb rs) tcbBuffer));;
  on_kern (mod_tcb tcb (set_tcbIPCBuffer ipcbuf_vptr));;
  on_kern (setRegister tcb capRegister bi_frame_vptr);;
  on_kern (setNextPC tcb ui_v_entry);;
  on_kern (configure_sched_context tcb (rs_sc rs) boot_timeslice);;
  on_kern (mod_tcb tcb (set_tcbPriority seL4_MaxPrio));;
  on_kern (mod_tcb tcb (set_tcbMCP seL4_MaxPrio));;
  on_kern (mod_tcb tcb (set_tcbDomain 0));;
  on_kern (setThreadState tcb ThreadState_Running);;
  write_slot (SLOT_PTR cnode seL4_CapInitThreadTCB) (cap_thread_cap tcb);;
  t ← on_kern (get_tcb tcb);
  write_slot (SLOT_PTR cnode seL4_CapInitThreadSC)
    (cap_sched_context_cap (tcbSchedContext t) seL4_MinSchedContextBits);;
  mret tcb.

Definition init_core_state (scheduler_action : Z) : K unit :=
  modify (set_ksSchedulerAction scheduler_action);;
  idle ← gets ksIdleThread;
  modify (set_ksCurThread idle);;
  t ← get_tcb idle;
  modify (set_ksCurSC (tcbSchedContext t));;
  modify (set_ksConsumed 0);;
  modify (set_ksReprogram true);;
  modify (set_ksReleaseQueue (TcbQueue NULL NULL));;
  now ← getCurrentTime;
  modify (set_ksCurTime now);;
  modify (set_ksCurDomain 0);;
  modify (set_ksDomainTime DSCHED_MAX_DURATION);;
  s ← get_state;
  _ ← deref (ksDomSchedule s !! 0%nat);
  modify (set_ksDomSchedule (<[0%nat := dschedule_make 0 DSCHED_MAX_DURATION]> (ksDomSchedule s))).

(** ** Untyped capabilities *)
Definition pptr_in_kernel_window (pptr : Z) : bool := (PPTR_BASE <=? pptr) && (pptr <? PPTR_TOP).

Definition provide_untyped_cap (root_cnode_cap : cap) (device_memory : bool)
    (pptr size_bits first_untyped_slot : Z) : B bool :=
  if (seL4_MaxUntypedBits <? size_bits) || (size_bits <? seL4_MinUntypedBits) then mret false else
  if negb (IS_ALIGNED pptr size_bits) then mret false else
  if negb device_memory && negb (pptr_in_kernel_window pptr) then mret false else
  if negb device_memory && negb (pptr_in_kernel_window (pptr +w MASK size_bits)) then mret false else
  pos ← gets slot_pos_cur;
  let i := pos -w first_untyped_slot in
  if i <? CONFIG_MAX_NUM_BOOTINFO_UNTYPED_CAPS then
    bi_put_untyped i (addrFromPPtr pptr) size_bits device_memory;;
    provide_cap root_cnode_cap (cap_untyped_cap (MAX_FREE_INDEX size_bits) device_memory size_bits pptr)
  else mret true.

(** The size of the next untyped object of a region *)
Definition untyped_size_bits (reg : region) : Z :=
  let size_bits := wordBits - 1 - clzl (r_end reg -w r_start reg) in
  let size_bits := if seL4_MaxUntypedBits <? size_bits then seL4_MaxUntypedBits else size_bits in
  if negb (r_start reg =? 0) then
    let align_bits := ctz64 (r_start reg) in
    if align_bits <? size_bits then align_bits else size_bits
  else size_bits.

Definition create_untypeds_for_region (root_cnode_cap : cap) (device_memory : bool) (reg : region)
    (first_untyped_slot : Z) : B bool :=
  while64 (λ reg,
    if is_reg_empty reg then mret (inr true) else
    let size_bits := untyped_size_bits reg in
    ok ← (if seL4_MinUntypedBits <=? size_bits
          then provide_untyped_cap root_cnode_cap device_memory (r_start reg) size_bits first_untyped_slot
          else mret true);
    mret (if ok : bool then inl (set_start (r_start reg +w BIT size_bits) reg) else inr false)) reg.

(** The device memory below and between the reserved regions; the end of the last
    one, or [None] on failure *)
Definition create_untypeds_device (root_cnode_cap : cap) (first_untyped_slot : Z) : B (option Z) :=
  while64 (λ v,
    let '(i, start) := v in
    count ← on_ndks (gets resv_count);
    if negb (i <? count) then mret (inr (Some start)) else
    r ← on_ndks (get_resv i);
    ok ← (if start <? r_start r
          then create_untypeds_for_region root_cnode_cap true
                 (paddr_to_pptr_reg (Region start (r_start r))) first_untyped_slot
          else mret true);
    mret (if ok : bool then inl (i + 1, r_end r) else inr None)) (0, 0).
(** The rest of the free memory *)
Definition create_untypeds_freemem (root_cnode_cap : cap) (first_untyped_slot : Z) : B bool :=
  while64 (λ i,
    if negb (i <? MAX_NUM_FREEMEM_REG) then mret (inr true) else
    reg ← on_ndks (get_freemem i);
    on_ndks (put_freemem i REG_EMPTY);;
    ok ← create_untypeds_for_region root_cnode_cap false reg first_untyped_slot;
    mret (if ok : bool then inl (i + 1) else inr false)) 0.

Definition create_untypeds (root_cnode_cap : cap) : B bool :=
  first_untyped_slot ← gets slot_pos_cur;
  r ← create_untypeds_device root_cnode_cap first_untyped_slot;
  match r with
  | None => mret false
  | Some start =>
    ok ← (if start <? CONFIG_PADDR_USER_DEVICE_TOP
          then create_untypeds_for_region root_cnode_cap true
                 (paddr_to_pptr_reg (Region start CONFIG_PADDR_USER_DEVICE_TOP)) first_untyped_slot
          else mret true);
    if negb ok then mret false else
    boot_img ← get_p_reg_kernel_img_boot;
    ok ← create_untypeds_for_region root_cnode_cap false (paddr_to_pptr_reg boot_img) first_untyped_slot;
    if negb ok then mret false else
    ok ← create_untypeds_freemem root_cnode_cap first_untyped_slot;
    if negb ok then mret false else
    pos ← gets slot_pos_cur;
    bi_put_region bi_untyped (SlotRegion first_untyped_slot pos);;
    mret true
  end.

(** ** [init_kernel] *)

(** The device tree as extra boot info: [None] when its location is invalid, otherwise
    the size of the extra boot info and the region of the tree *)
Definition dtb_region (dtb_phys_addr dtb_size : Z) : option (Z * region) :=
  if 0 <? dtb_size then
    let dtb_phys_end := dtb_phys_addr +w dtb_size in
    if dtb_phys_end <? dtb_phys_addr then None
    else if PADDR_TOP <=? dtb_phys_end then None
    else Some (wrap (0 + (sizeof_seL4_BootInfoHeader + dtb_size)), Region dtb_phys_addr dtb_phys_end)
  else Some (0, REG_EMPTY).

(** The extra boot info: the device tree, then a chunk of padding *)
Definition write_extra_bi (dtb_phys_addr dtb_size extra_bi_size : Z) : B unit :=
  rs ← gets rootserver;
  let extra_bi := rs_extra_bi rs in
  when (0 <? dtb_size)
    (put_header extra_bi SEL4_BOOTINFO_HEADER_FDT (sizeof_seL4_BootInfoHeader +w dtb_size);;
     on_kern (memcpy (extra_bi +w sizeof_seL4_BootInfoHeader) (ptrFromPAddr dtb_phys_addr) dtb_size));;
  let extra_bi_offset := if 0 <? dtb_size then sizeof_seL4_BootInfoHeader +w dtb_size else 0 in
  when (extra_bi_offset <? extra_bi_size)
    (put_header (extra_bi +w extra_bi_offset) SEL4_BOOTINFO_HEADER_PADDING (extra_bi_size -w extra_bi_offset)).

(** Frames of the extra boot info; [false] on failure *)
Definition map_extra_bi (root_cnode_cap it_pd_cap : cap) (extra_bi_size extra_bi_frame_vptr : Z) : B bool :=
  if negb (0 <? extra_bi_size) then mret true else
  rs ← gets rootserver;
  let start := rs_extra_bi rs in
  ret ← create_frames_of_region root_cnode_cap it_pd_cap (Region start (start +w extra_bi_size)) true
          (addrFromPPtr start -w extra_bi_frame_vptr);
  if negb ret.2 then mret false else
  bi_put_region bi_extraBIPages ret.1;;
  mret true.

(** The first half of [try_init_kernel]: CPU, platform and the division of memory.
    [None] on failure, otherwise the sizes and addresses the second half uses. *)
Record user_layout := UserLayout {
  ul_ui_reg : region; ul_ipcbuf_vptr : Z; ul_bi_frame_vptr : Z; ul_extra_bi_frame_vptr : Z;
  ul_extra_bi_size : Z; ul_it_v_reg : region
}.
Definition init_memory (ui_p_reg_start ui_p_reg_end pv_offset dtb_phys_addr dtb_size : Z) : B (option user_layout) :=
  let ui_reg := paddr_to_pptr_reg (Region ui_p_reg_start ui_p_reg_end) in
  let ui_v_reg := Region (ui_p_reg_start -w pv_offset) (ui_p_reg_end -w pv_offset) in
  let ipcbuf_vptr := r_end ui_v_reg in
  let bi_frame_vptr := ipcbuf_vptr +w BIT seL4_PageBits in
  let extra_bi_frame_vptr := bi_frame_vptr +w BIT seL4_BootInfoFrameBits in
  map_kernel_window;;
  init_cpu;;
  init_plat;;
  match dtb_region dtb_phys_addr dtb_size with
  | None => mret None
  | Some (extra_bi_size, dtb_p_reg) =>
    let extra_bi_size_bits := calculate_extra_bi_size_bits extra_bi_size in
    let it_v_reg := Region (r_start ui_v_reg)
      (extra_bi_frame_vptr +w (if 0 <? extra_bi_size_bits then BIT extra_bi_size_bits else 0)) in
    if USER_TOP <=? r_end it_v_reg then mret None else
    ok ← arch_init_freemem ui_reg dtb_p_reg it_v_reg extra_bi_size_bits;
    mret (if ok : bool then Some (UserLayout ui_reg ipcbuf_vptr bi_frame_vptr extra_bi_frame_vptr extra_bi_size it_v_reg)
          else None)
  end.

(** The second half: the objects, capabilities and mappings of the first thread *)
Definition init_rootserver (ul : user_layout) (pv_offset v_entry dtb_phys_addr dtb_size : Z) : B bool :=
  root_cnode_cap ← create_root_cnode;
  if is_null_cap root_cnode_cap then mret false else
  create_domain_cap root_cnode_cap;;
  init_irqs root_cnode_cap;;
  populate_bi_frame 0 CONFIG_MAX_NUM_NODES (ul_ipcbuf_vptr ul) (ul_extra_bi_size ul);;
  write_extra_bi dtb_phys_addr dtb_size (ul_extra_bi_size ul);;
  it_pd_cap ← create_it_address_space root_cnode_cap (ul_it_v_reg ul);
  if is_null_cap it_pd_cap then mret false else
  create_bi_frame_cap root_cnode_cap it_pd_cap (ul_bi_frame_vptr ul);;
  ok ← map_extra_bi root_cnode_cap it_pd_cap (ul_extra_bi_size ul) (ul_extra_bi_frame_vptr ul);
  if negb ok then mret false else
  _ ← init_sched_control root_cnode_cap CONFIG_MAX_NUM_NODES;
  ipcbuf_cap ← create_ipcbuf_frame_cap root_cnode_cap it_pd_cap (ul_ipcbuf_vptr ul);
  if is_null_cap ipcbuf_cap then mret false else
  create_frames_ret ← create_frames_of_region root_cnode_cap it_pd_cap (ul_ui_reg ul) true pv_offset;
  if negb create_frames_ret.2 then mret false else
  bi_put_region bi_userImageFrames create_frames_ret.1;;
  it_ap_cap ← create_it_asid_pool root_cnode_cap;
  if is_null_cap it_ap_cap then mret false else
  write_it_asid_pool it_ap_cap it_pd_cap;;
  now ← on_kern getCurrentTime;
  on_kern (modify (set_ksCurTime now));;
  on_kern create_idle_thread;;
  initial ← create_initial_thread root_cnode_cap it_pd_cap v_entry (ul_bi_frame_vptr ul) (ul_ipcbuf_vptr ul) ipcbuf_cap;
  if initial =? NULL then mret false else
  on_kern (init_core_state initial);;
  ok ← create_untypeds root_cnode_cap;
  if negb ok then mret false else
  bi_put_region bi_sharedFrames S_REG_EMPTY;;
  bi_finalise;;
  mret true.

Definition try_init_kernel (ui_p_reg_start ui_p_reg_end pv_offset v_entry dtb_phys_addr dtb_size : Z) : B bool :=
  mem ← init_memory ui_p_reg_start ui_p_reg_end pv_offset dtb_phys_addr dtb_size;
  match mem with
  | None => mret false
  | Some ul => init_rootserver ul pv_offset v_entry dtb_phys_addr dtb_size
  end.

(** Boot ends by leaving to user mode, like any kernel entry; a failed boot never returns. *)
Definition init_kernel (ui_p_reg_start ui_p_reg_end pv_offset v_entry dtb_addr_p dtb_size : Z) : B unit :=
  result ← try_init_kernel ui_p_reg_start ui_p_reg_end pv_offset v_entry dtb_addr_p dtb_size;
  if negb result then fail! else
  now ← on_kern getCurrentTime;
  on_kern (modify (set_ksCurTime now));;
  on_kern (modify (set_ksConsumed 0));;
  on_kern schedule;;
  on_kern activateThread.

(** ** The state the loader hands over

    All globals are zero; the words of memory and the device inputs are arbitrary.
    The idle thread, its scheduling context and the interrupt slots are globals. *)
Definition bss_slots : gmap Z cte :=
  new_slots intStateIRQNode (Z.to_nat (2 ^ IRQ_CNODE_SLOT_BITS)) (new_slots ksIdleThreadTCB (Z.to_nat tcbCNodeEntries) ∅).
Definition loader_kstate (mem : gmap Z Z) (dev : device_state) : kstate := {|
  ctes := bss_slots; tcbs := {[ ksIdleThreadTCB +w TCB_OFFSET := zero_tcb ]};
  eps := ∅; ntfns := ∅;
  scs := {[ ksIdleThreadSC := zero_sched_context
    (Z.to_nat (refill_absolute_max (cap_sched_context_cap ksIdleThreadSC seL4_MinSchedContextBits))) ]};
  replies := ∅; user_mem := mem;
  ksReadyQueues := replicate (Z.to_nat (numDomains * 256)) (TcbQueue NULL NULL);
  ksReadyQueuesL1Bitmap := replicate (Z.to_nat numDomains) 0;
  ksReadyQueuesL2Bitmap := replicate (Z.to_nat numDomains) [0; 0; 0; 0];
  ksReleaseQueue := TcbQueue NULL NULL;
  ksCurThread := NULL; ksIdleThread := NULL; ksSchedulerAction := 0; ksConsumed := 0; ksReprogram := false;
  ksCurTime := 0; ksCurSC := NULL; ksIdleSC := NULL; ksWorkUnitsCompleted := 0;
  intStateIRQTable := list_to_map ((λ i, (i, IRQInactive)) <$> seqZ 0 (maxIRQ + 1));
  ksCurDomain := 0; ksDomainTime := 0; ksDomScheduleIdx := 0; ksDomScheduleStart := 0;
  ksDomSchedule := replicate (Z.to_nat CONFIG_NUM_DOMAIN_SCHEDULES) 0;
  riscvKSASIDTable := replicate (Z.to_nat nASIDPools) NULL; active_irq := 0; current_extra_caps := [0; 0; 0];
  current_syscall_error := SyscallError 0 0 0 0 0 false seL4_NoError;
  current_lookup_fault := lookup_fault_invalid_root; current_fault := seL4_Fault_NullFault;
  devices := dev
|}.
Definition loader_state (mem : gmap Z Z) (dev : device_state) : boot_state := {|
  kern := loader_kstate mem dev;
  ndks := NdksBoot (replicate (Z.to_nat MAX_NUM_RESV_REG) REG_EMPTY) 0
    (replicate (Z.to_nat MAX_NUM_FREEMEM_REG) REG_EMPTY) (replicate (Z.to_nat MAX_NUM_FREEMEM_REG) REG_EMPTY);
  bi_frame := NULL; slot_pos_cur := 0;
  rootserver := Rootserver 0 0 0 0 0 0 0 0 REG_EMPTY; rootserver_mem := REG_EMPTY; stvec := 0
|}.
End init.
