(* ===== verification/Syscall.v ===== *)
(** * Kernel entry points

    [decodeInvocation] of [kernel/object/objecttype.c] and the event handlers of
    [kernel/api/syscall.c] (no debug system calls, no benchmarks). *)
From S2P Require Import Prelude Words Platform State Machine RefillList Sporadic Queues CapOps CSpace VSpace Thread CNode Message SchedContext Reply Notification Endpoint Delete CNodeInv Untyped MmuInv Domain Interrupt SchedControl TcbInv.

Inductive syscall :=
  | SysCall | SysReplyRecv | SysNBSendRecv | SysNBSendWait | SysSend | SysNBSend
  | SysRecv | SysNBRecv | SysWait | SysNBWait | SysYield.

Section syscall.
Context `{Platform}.

(** ** Invoking a capability *)
Definition performInvocation_Endpoint (ep badge : Z) (canGrant canGrantReply block call canDonate : bool) :
    K exception_t :=
  cur ← gets ksCurThread;
  sendIPC block call badge canGrant canGrantReply canDonate cur ep;;
  mret EXCEPTION_NONE.
Definition performInvocation_Notification (ntfn badge : Z) : K exception_t :=
  sendSignal ntfn badge;; mret EXCEPTION_NONE.
Definition performInvocation_Reply (thread reply : Z) (canGrant : bool) : K exception_t :=
  doReplyTransfer thread reply canGrant;; mret EXCEPTION_NONE.

Definition decodeInvocation (invLabel length capIndex slot : Z) (c : cap)
    (block call canDonate firstPhase : bool) (buffer : Z) : K exception_t :=
  if isArchCap c then decodeRISCVMMUInvocation invLabel length capIndex slot c call buffer else
  cur ← gets ksCurThread;
  match c with
  | cap_null_cap | cap_zombie_cap _ _ => invalid_cap_ret 0
  | cap_endpoint_cap badge capCanGrantReply capCanGrant capCanSend _ ep =>
    if negb capCanSend then invalid_cap_ret 0 else
    setThreadState cur ThreadState_Restart;;
    performInvocation_Endpoint ep badge capCanGrant capCanGrantReply block call canDonate
  | cap_notification_cap badge _ capNtfnCanSend ntfn =>
    if negb capNtfnCanSend then invalid_cap_ret 0 else
    setThreadState cur ThreadState_Restart;;
    performInvocation_Notification ntfn badge
  | cap_reply_cap reply capReplyCanGrant =>
    setThreadState cur ThreadState_Restart;;
    performInvocation_Reply cur reply capReplyCanGrant
  | cap_thread_cap _ =>
    if firstPhase then invalid_cap_ret 0
    else decodeTCBInvocation invLabel length c slot call buffer
  | cap_domain_cap =>
    if firstPhase then invalid_cap_ret 0 else decodeDomainInvocation invLabel length buffer
  | cap_cnode_cap _ _ _ _ =>
    if firstPhase then invalid_cap_ret 0 else decodeCNodeInvocation invLabel length c buffer
  | cap_untyped_cap _ _ _ _ => decodeUntypedInvocation invLabel length slot c call buffer
  | cap_irq_control_cap => decodeIRQControlInvocation invLabel length slot buffer
  | cap_irq_handler_cap irq => decodeIRQHandlerInvocation invLabel irq
  | cap_sched_control_cap _ =>
    if firstPhase then invalid_cap_ret 0 else decodeSchedControlInvocation invLabel c length buffer
  | cap_sched_context_cap sc _ =>
    if firstPhase then invalid_cap_ret 0 else decodeSchedContextInvocation invLabel sc call
  | _ => fail!
  end.

Definition handleInvocation (isCall isBlocking canDonate firstPhase : bool) (cptr : Z) : K exception_t :=
  thread ← gets ksCurThread;
  w ← getRegister thread msgInfoRegister;
  let info := messageInfoFromWord w in
  lu ← lookupCapAndSlot thread cptr;
  let '(status, c, slot) := lu in
  if negb (status_ok status) then
    modify (set_current_fault (seL4_Fault_CapFault cptr false));;
    when isBlocking (handleFault thread);;
    mret EXCEPTION_NONE
  else
    buffer ← lookupIPCBuffer false thread;
    status ← lookupExtraCaps thread buffer info;
    if negb (status_ok status) then
      when isBlocking (handleFault thread);;
      mret EXCEPTION_NONE
    else
      let length := seL4_MessageInfo_get_length info in
      let length := if (n_msgRegisters <? length) && (buffer =? NULL) then n_msgRegisters else length in
      status ← decodeInvocation (seL4_MessageInfo_get_label info) length cptr slot c
                 isBlocking isCall canDonate firstPhase buffer;
      match status with
      | EXCEPTION_PREEMPTED => mret EXCEPTION_PREEMPTED
      | EXCEPTION_SYSCALL_ERROR =>
        when isCall (replyFromKernel_error thread);; mret EXCEPTION_NONE
      | _ =>
        t ← get_tcb thread;
        when (ts_is ThreadState_Restart t)
          (when isCall (replyFromKernel_success_empty thread);;
           setThreadState thread ThreadState_Running);;
        mret EXCEPTION_NONE
      end.

(** ** Receiving *)
Definition lookupReply : K (exception_t * cap) :=
  cur ← gets ksCurThread;
  replyCPtr ← getRegister cur replyRegister;
  lu ← lookupCap cur replyCPtr;
  let '(status, c) := lu in
  if negb (status_ok status) then
    modify (set_current_fault (seL4_Fault_CapFault replyCPtr true));;
    handleFault cur;;
    mret lu
  else match c with
       | cap_reply_cap _ _ => mret lu
       | _ => modify (set_current_fault (seL4_Fault_CapFault replyCPtr true));;
              handleFault cur;;
              mret (EXCEPTION_FAULT, c)
       end.

Definition handleRecv (isBlocking canReply : bool) : K unit :=
  cur ← gets ksCurThread;
  epCPtr ← getRegister cur capRegister;
  lu ← lookupCap cur epCPtr;
  let '(status, c) := lu in
  let missing :=
    set_lookup_fault (lookup_fault_missing_capability 0);;
    modify (set_current_fault (seL4_Fault_CapFault epCPtr true));;
    handleFault cur in
  if negb (status_ok status) then
    modify (set_current_fault (seL4_Fault_CapFault epCPtr true));;
    handleFault cur
  else
    match c with
    | cap_endpoint_cap _ _ _ _ capCanReceive _ =>
      if negb capCanReceive then missing else
      if canReply then
        lu ← lookupReply;
        let '(status, reply_cap) := lu in
        if negb (status_ok status) then mret ()
        else receiveIPC cur c isBlocking reply_cap
      else receiveIPC cur c isBlocking cap_null_cap
    | cap_notification_cap _ capNtfnCanReceive _ ntfnPtr =>
      n ← get_ntfn ntfnPtr;
      let boundTCB := ntfnBoundTCB n in
      if negb capNtfnCanReceive || (negb (boundTCB =? NULL) && negb (boundTCB =? cur)) then missing
      else receiveSignal cur c isBlocking
    | _ => missing
    end.

(** ** Budget *)
Definition mcsPreemptionPoint : K unit :=
  cur ← gets ksCurThread;
  b ← isSchedulable cur;
  if b : bool then _ ← checkBudget; mret () else
  cursc ← gets ksCurSC;
  c ← get_sc cursc;
  if sc_active c then consumed ← gets ksConsumed; chargeBudget consumed false
  else modify (set_ksConsumed 0).

Definition handleYield : K unit :=
  cursc ← gets ksCurSC;
  c ← get_sc cursc;
  k ← gets ksConsumed;
  let consumed := scConsumed c +w k in
  head ← on_sc cursc refill_head;
  chargeBudget (rAmount head) false;;
  cursc ← gets ksCurSC;
  mod_sc cursc (set_scConsumed consumed).

Definition checkInterrupt : K unit :=
  irq ← getActiveIRQ;
  if negb (irq =? irqInvalid) then handleInterrupt irq else handleSpuriousIRQ.

(** [MCS_DO_IF_BUDGET] *)
Definition MCS_DO_IF_BUDGET (block : K unit) : K unit :=
  updateTimestamp;;
  b ← checkBudgetRestart;
  when b block.

(** ** Events *)
Definition handleInterruptEntry : K exception_t :=
  updateTimestamp;;
  _ ← checkBudget;
  checkInterrupt;;
  schedule;;
  activateThread;;
  mret EXCEPTION_NONE.

Definition handleUnknownSyscall (w : Z) : K exception_t :=
  MCS_DO_IF_BUDGET
    (modify (set_current_fault (seL4_Fault_UnknownSyscall w));;
     cur ← gets ksCurThread;
     handleFault cur);;
  schedule;;
  activateThread;;
  mret EXCEPTION_NONE.

Definition handleUserLevelFault (w_a w_b : Z) : K exception_t :=
  MCS_DO_IF_BUDGET
    (modify (set_current_fault (seL4_Fault_UserException w_a w_b));;
     cur ← gets ksCurThread;
     handleFault cur);;
  schedule;;
  activateThread;;
  mret EXCEPTION_NONE.

Definition handleVMFaultEvent (vm_faultType : Z) : K exception_t :=
  MCS_DO_IF_BUDGET
    (cur ← gets ksCurThread;
     status ← handleVMFault cur vm_faultType;
     when (negb (status_ok status)) (cur ← gets ksCurThread; handleFault cur));;
  schedule;;
  activateThread;;
  mret EXCEPTION_NONE.

Definition getNBSendRecvDest : K Z := cur ← gets ksCurThread; getRegister cur nbsendRecvDest.

(** An invocation that may have been preempted. *)
Definition after_invocation (ret : exception_t) (k : K unit) : K unit :=
  if negb (status_ok ret) then mcsPreemptionPoint;; checkInterrupt else k.

Definition handleSyscall (sys : syscall) : K exception_t :=
  MCS_DO_IF_BUDGET
    (cur ← gets ksCurThread;
     match sys with
     | SysSend =>
       cptr ← getRegister cur capRegister;
       ret ← handleInvocation false true false false cptr;
       after_invocation ret (mret ())
     | SysNBSend =>
       cptr ← getRegister cur capRegister;
       ret ← handleInvocation false false false false cptr;
       after_invocation ret (mret ())
     | SysCall =>
       cptr ← getRegister cur capRegister;
       ret ← handleInvocation true true true false cptr;
       after_invocation ret (mret ())
     | SysRecv => handleRecv true true
     | SysWait => handleRecv true false
     | SysNBWait => handleRecv false false
     | SysReplyRecv =>
       reply ← getRegister cur replyRegister;
       ret ← handleInvocation false false true true reply;
       assert! (status_ok ret);;
       handleRecv true true
     | SysNBSendRecv =>
       dest ← getNBSendRecvDest;
       ret ← handleInvocation false false true true dest;
       after_invocation ret (handleRecv true true)
     | SysNBSendWait =>
       dest ← getRegister cur replyRegister;
       ret ← handleInvocation false false true true dest;
       after_invocation ret (handleRecv true false)
     | SysNBRecv => handleRecv false true
     | SysYield => handleYield
     end);;
  schedule;;
  activateThread;;
  mret EXCEPTION_NONE.
End syscall.
