(* ===== verification/Traps.v ===== *)
(** * Traps and the return to user mode

    [trap_entry] of [kernel/arch/riscv/traps.S] saves the registers of the current
    thread and dispatches on [scause]; the handlers of [kernel/arch/riscv/c_traps.c]
    select the event and end in [restore_user_context], whose value here is what the
    hardware resumes with (no debug build; the entry with the fast path is in [Fastpath.v]). *)
From S2P Require Import Prelude Words Platform State Machine VSpace Syscall.

Definition SCAUSE : Z := 31.
Definition SSTATUS : Z := 32.
(** The registers 0 to 30 of the context are those of the user. *)
Definition n_gpRegisters : Z := 31.

(** System call numbers, counted down from -1 in an unsigned word
    ([libsel4/include/api/syscall.xml], numbered by [tools/syscall_header_gen.py]). *)
Definition syscall_number (sys : syscall) : Z :=
  wrap (match sys with
        | SysCall => -1 | SysReplyRecv => -2 | SysNBSendRecv => -3 | SysNBSendWait => -4 | SysSend => -5
        | SysNBSend => -6 | SysRecv => -7 | SysNBRecv => -8 | SysWait => -9 | SysNBWait => -10 | SysYield => -11
        end).
Definition SYSCALL_MAX : Z := wrap (-1).
Definition SYSCALL_MIN : Z := wrap (-11).
Definition all_syscalls : list syscall :=
  [SysCall; SysReplyRecv; SysNBSendRecv; SysNBSendWait; SysSend; SysNBSend; SysRecv; SysNBRecv; SysWait;
   SysNBWait; SysYield].
(** The [enum] value of a word. *)
Definition syscall_of (w : Z) : option syscall := List.find (λ sys, syscall_number sys =? w) all_syscalls.

(** What the hardware holds when a trap is taken, and what it resumes with. *)
Record trap := Trap { trap_regs : Z → Z; trap_scause : Z; trap_sstatus : Z; trap_sepc : Z }.
Record user_context := UserContext { uc_regs : Z → Z; uc_sstatus : Z; uc_sepc : Z }.

Section traps.
Context `{Platform}.

Definition restore_user_context : K user_context :=
  cur ← gets ksCurThread;
  t ← get_tcb cur;
  let reg r := wrap (default 0 (tcbContext t !! r)) in
  mret (UserContext reg (reg SSTATUS) (reg NextIP)).

Definition slowpath (w : Z) : K user_context :=
  (if (w <? SYSCALL_MIN) || (SYSCALL_MAX <? w) then handleUnknownSyscall w
   else sys ← deref (syscall_of w); handleSyscall sys);;
  restore_user_context.
Definition c_handle_syscall (cptr msgInfo w : Z) : K user_context := slowpath w.
Definition c_handle_interrupt : K user_context := handleInterruptEntry;; restore_user_context.

Definition isVMFaultCause (scause : Z) : bool :=
  (scause =? RISCVInstructionAccessFault) || (scause =? RISCVLoadAccessFault) ||
  (scause =? RISCVStoreAccessFault) || (scause =? RISCVLoadPageFault) ||
  (scause =? RISCVStorePageFault) || (scause =? RISCVInstructionPageFault).
Definition c_handle_exception (scause : Z) : K user_context :=
  (if isVMFaultCause scause then handleVMFaultEvent scause else handleUserLevelFault scause 0);;
  restore_user_context.

(** The stores of [trap_entry] into the registers of the current thread. *)
Definition saved_context (tr : trap) (nextIP : Z) (ctx : gmap Z Z) : gmap Z Z :=
  <[NextIP := wrap nextIP]> (<[FaultIP := trap_sepc tr]>
    (<[SCAUSE := trap_scause tr]> (<[SSTATUS := trap_sstatus tr]>
       (foldr (λ r ctx, <[r := trap_regs tr r]> ctx) ctx (seqZ 0 n_gpRegisters))))).
Definition save_context (tr : trap) (nextIP : Z) : K unit :=
  cur ← gets ksCurThread;
  mod_tcb cur (λ t, set_tcbContext (saved_context tr nextIP (tcbContext t)) t).

(** [bltz s0]: the sign bit of [scause] marks an interrupt; 8 is an [ecall] from user mode. *)
Definition trap_entry (tr : trap) : K user_context :=
  let scause := trap_scause tr in
  let sepc := trap_sepc tr in
  if Z.testbit scause 63 then
    save_context tr sepc;; c_handle_interrupt
  else if scause =? 8 then
    save_context tr (sepc + 4);;
    c_handle_syscall (trap_regs tr capRegister) (trap_regs tr msgInfoRegister) (trap_regs tr 16)
  else
    save_context tr sepc;; c_handle_exception scause.
End traps.
