(* ===== verification/Fastpath.v ===== *)
(** * The IPC fast path

    [kernel/fastpath/fastpath.c] with [kernel/include/fastpath/fastpath.h] and
    [kernel/include/arch/riscv/arch/fastpath/fastpath.h], as [CONFIG_FASTPATH] builds it:
    calls and reply-and-receive of short messages that need no general scheduling are
    done in one go; every other case falls back to [slowpath]. *)
From S2P Require Import Prelude Words Platform State Machine RefillList Sporadic Queues CapOps CSpace VSpace Thread CNode Message SchedContext Reply Notification Endpoint Syscall Traps.

(** ** Looking a capability up; the null capability stands for every failure *)
Definition lookup_fp_step (cptr : Z) : cap * Z → K (cap * Z + cap) := λ '(c, bits),
  match c with
  | cap_cnode_cap radixBits guardBits capGuard nodePtr =>
    let cptr2 := cptr <<w bits in
    if negb (guardBits =? 0) && negb (Z.shiftr cptr2 (wordBits -w guardBits) =? capGuard) then
      mret (inr cap_null_cap)
    else
      let radix := Z.shiftr (cptr2 <<w guardBits) (wordBits -w radixBits) in
      slot ← get_cte (cte_index nodePtr radix);
      let c := cte_cap slot in
      let bits := bits +w (guardBits +w radixBits) in
      if (bits <? wordBits) && (cap_get_capType c =? 10) then mret (inl (c, bits))
      else if wordBits <? bits then mret (inr cap_null_cap) else mret (inr c)
  | _ => stuck BadPointer
  end.
Definition lookup_fp (c : cap) (cptr : Z) : K cap :=
  match c with
  | cap_cnode_cap _ _ _ _ => while64 (lookup_fp_step cptr) (c, 0)
  | _ => mret cap_null_cap
  end.

(** ** Accesses that write whole words *)
(** The thread state word also holds [blockingObject]. *)
Definition thread_state_ptr_set_tsType_np (thread : Z) (ty : _thread_state) : K unit :=
  mod_ts thread (λ ts, set_tsType ty (set_blockingObject 0 ts)).
Definition thread_state_ptr_mset_blockingObject_tsType (thread ep_ref : Z) (ty : _thread_state) : K unit :=
  mod_ts thread (λ ts, set_tsType ty (set_blockingObject ep_ref ts)).
Definition thread_state_ptr_set_replyObject_np (thread reply : Z) : K unit :=
  t ← get_tcb thread;
  assert! (negb (tcbQueued (tcbState t)));;
  assert! (negb (tcbInReleaseQueue (tcbState t)));;
  mod_ts thread (set_replyObject reply).
Definition thread_state_get_replyObject_np (ts : thread_state) : K Z :=
  assert! (negb (tcbQueued ts));;
  assert! (negb (tcbInReleaseQueue ts));;
  mret (replyObject ts).
Definition endpoint_ptr_set_epQueue_head_np (ep head : Z) : K unit := mod_ep ep (set_epQueue_head head).
Definition endpoint_ptr_mset_epQueue_tail_state (ep tail : Z) (st : endpoint_state) : K unit :=
  mod_ep ep (λ e, set_ep_state st (set_epQueue_tail tail e)).

(** ** Parts of the two paths *)
Definition fastpath_mi_check (msgInfo : Z) : bool := 4 <? Z.land msgInfo (MASK (7 + seL4_MsgExtraCapBits)).
Definition isValidVTableRoot_fp (c : cap) : bool :=
  match c with cap_page_table_cap _ _ capPTIsMapped _ => capPTIsMapped | _ => false end.
Definition fastpath_copy_mrs (length src dest : Z) : K unit :=
  for_range 0 length (λ i,
    let reg := msg_register 0 + i in
    w ← getRegister src reg; setRegister dest reg w).

Section fastpath.
Context `{Platform}.

Definition switchToThread_fp (thread vroot asid : Z) : K unit :=
  setVSpaceRoot (addrFromPPtr vroot) asid;;
  modify (set_ksCurThread thread).

(** The registers of the thread with badge and message tag in place. *)
Definition fastpath_restore (badge msgInfo cur_thread : Z) : K user_context :=
  t ← get_tcb cur_thread;
  let reg r := wrap (default 0 (tcbContext t !! r)) in
  mret (UserContext (λ r, if r =? badgeRegister then badge else if r =? msgInfoRegister then msgInfo else reg r)
          (reg SSTATUS) (reg NextIP)).

(** After the point of no return of [fastpath_call]. *)
Definition fastpath_call_commit (length badge ep dest reply pd asid info : Z) : K user_context :=
  cur ← gets ksCurThread;
  d ← get_tcb dest;
  endpoint_ptr_set_epQueue_head_np ep (tcbEPNext d);;
  (if negb (tcbEPNext d =? NULL) then mod_tcb (tcbEPNext d) (set_tcbEPPrev NULL)
   else endpoint_ptr_mset_epQueue_tail_state ep 0 EPState_Idle);;
  thread_state_ptr_set_tsType_np cur ThreadState_BlockedOnReply;;
  thread_state_ptr_set_replyObject_np dest 0;;
  thread_state_ptr_set_replyObject_np cur reply;;
  mod_reply reply (set_replyTCB cur);;
  t ← get_tcb cur;
  let sc := tcbSchedContext t in
  mod_sc sc (set_scTcb dest);;
  mod_tcb dest (set_tcbSchedContext sc);;
  mod_tcb cur (set_tcbSchedContext NULL);;
  c ← get_sc sc;
  let old_caller := scReply c in
  mod_reply reply (set_replyPrev (call_stack_new old_caller false));;
  when (negb (old_caller =? NULL)) (mod_reply old_caller (set_replyNext (call_stack_new reply false)));;
  mod_reply reply (set_replyNext (call_stack_new sc true));;
  mod_sc sc (set_scReply reply);;
  fastpath_copy_mrs length cur dest;;
  thread_state_ptr_set_tsType_np dest ThreadState_Running;;
  switchToThread_fp dest pd asid;;
  fastpath_restore badge (wordFromMessageInfo (seL4_MessageInfo_set_capsUnwrapped info 0)) dest.

Definition fastpath_call (cptr msgInfo : Z) : K user_context :=
  let slow := slowpath (syscall_number SysCall) in
  let info := msgInfo in
  let length := seL4_MessageInfo_get_length info in
  cur ← gets ksCurThread;
  ct ← get_tcb cur;
  if fastpath_mi_check msgInfo || negb (fault_is_null (tcbFault ct)) then slow else
  ctable ← get_cte (TCB_PTR_CTE_PTR cur tcbCTable);
  ep_cap ← lookup_fp (cte_cap ctable) cptr;
  match ep_cap with
  | cap_endpoint_cap badge capCanGrantReply capCanGrant true _ ep =>
    e ← get_ep ep;
    let dest := epQueue_head e in
    if negb (bool_decide (ep_state e = EPState_Recv)) then slow else
    vtable ← get_cte (TCB_PTR_CTE_PTR dest tcbVTable);
    let newVTable := cte_cap vtable in
    if negb (isValidVTableRoot_fp newVTable) then slow else
    match newVTable with
    | cap_page_table_cap asid pd _ _ =>
      curdom ← gets ksCurDomain;
      let dom := if negb (numDomains - 1 =? 0) then curdom else 0 in
      d ← get_tcb dest;
      low ← (if tcbPriority d <? tcbPriority ct then
               b ← isHighestPrio dom (tcbPriority d); mret (negb b)
             else mret false);
      if low : bool then slow else
      if negb capCanGrant && negb capCanGrantReply then slow else
      if negb (tcbDomain d =? curdom) && (0 <? numDomains - 1) then slow else
      if negb (tcbSchedContext d =? NULL) then slow else
      reply ← thread_state_get_replyObject_np (tcbState d);
      if reply =? NULL then slow else
      fastpath_call_commit length badge ep dest reply pd asid info
    | _ => slow
    end
  | _ => slow
  end.

(** After the point of no return of [fastpath_reply_recv]. *)
Definition fastpath_reply_recv_commit (length ep reply caller pd asid info : Z) : K user_context :=
  cur ← gets ksCurThread;
  thread_state_ptr_mset_blockingObject_tsType cur ep ThreadState_BlockedOnReceive;;
  thread_state_ptr_set_replyObject_np caller 0;;
  thread_state_ptr_set_replyObject_np cur reply;;
  mod_reply reply (set_replyTCB cur);;
  e ← get_ep ep;
  let endpointTail := epQueue_tail e in
  (if endpointTail =? NULL then
     mod_tcb cur (set_tcbEPPrev NULL);;
     mod_tcb cur (set_tcbEPNext NULL);;
     endpoint_ptr_set_epQueue_head_np ep cur;;
     endpoint_ptr_mset_epQueue_tail_state ep cur EPState_Recv
   else
     queue ← ep_ptr_get_queue ep;
     queue ← tcbEPAppend cur queue;
     endpoint_ptr_set_epQueue_head_np ep (q_head queue);;
     endpoint_ptr_mset_epQueue_tail_state ep (q_end queue) EPState_Recv);;
  r ← get_reply reply;
  let prev_ptr := callStackPtr (replyPrev r) in
  t ← get_tcb cur;
  let sc := tcbSchedContext t in
  mod_tcb cur (set_tcbSchedContext NULL);;
  mod_tcb caller (set_tcbSchedContext sc);;
  mod_sc sc (set_scTcb caller);;
  mod_sc sc (set_scReply prev_ptr);;
  when (negb (prev_ptr =? NULL))
    (r ← get_reply reply; mod_reply prev_ptr (set_replyNext (replyNext r)));;
  mod_reply reply (set_replyPrev (call_stack_new 0 false));;
  mod_reply reply (set_replyNext (call_stack_new 0 false));;
  fastpath_copy_mrs length cur caller;;
  thread_state_ptr_set_tsType_np caller ThreadState_Running;;
  switchToThread_fp caller pd asid;;
  fastpath_restore 0 (wordFromMessageInfo (seL4_MessageInfo_set_capsUnwrapped info 0)) caller.

Definition fastpath_reply_recv (cptr msgInfo reply : Z) : K user_context :=
  let slow := slowpath (syscall_number SysReplyRecv) in
  let info := msgInfo in
  let length := seL4_MessageInfo_get_length info in
  cur ← gets ksCurThread;
  ct ← get_tcb cur;
  if fastpath_mi_check msgInfo || negb (fault_is_null (tcbFault ct)) then slow else
  ctable ← get_cte (TCB_PTR_CTE_PTR cur tcbCTable);
  ep_cap ← lookup_fp (cte_cap ctable) cptr;
  match ep_cap with
  | cap_endpoint_cap _ _ _ _ true ep =>
    reply_cap ← lookup_fp (cte_cap ctable) reply;
    match reply_cap with
    | cap_reply_cap reply_ptr _ =>
      active ← (if tcbBoundNotification ct =? NULL then mret false
                else n ← get_ntfn (tcbBoundNotification ct); mret (bool_decide (ntfn_state n = NtfnState_Active)));
      if active : bool then slow else
      e ← get_ep ep;
      if bool_decide (ep_state e = EPState_Send) then slow else
      r ← get_reply reply_ptr;
      if (replyTCB r =? NULL) || negb (isHead (replyNext r)) ||
         negb (callStackPtr (replyNext r) =? tcbSchedContext ct) then slow else
      let caller := replyTCB r in
      k ← get_tcb caller;
      if negb (fault_is_null (tcbFault k)) then slow else
      vtable ← get_cte (TCB_PTR_CTE_PTR caller tcbVTable);
      let newVTable := cte_cap vtable in
      if negb (isValidVTableRoot_fp newVTable) then slow else
      match newVTable with
      | cap_page_table_cap asid pd _ _ =>
        curdom ← gets ksCurDomain;
        let dom := if negb (numDomains - 1 =? 0) then curdom else 0 in
        b ← isHighestPrio dom (tcbPriority k);
        if negb b then slow else
        if negb (tcbDomain k =? curdom) && (0 <? numDomains - 1) then slow else
        if negb (tcbSchedContext k =? NULL) then slow else
        fastpath_reply_recv_commit length ep reply_ptr caller pd asid info
      | _ => slow
      end
    | _ => slow
    end
  | _ => slow
  end.

Definition c_handle_fastpath_call (cptr msgInfo : Z) : K user_context := fastpath_call cptr msgInfo.
Definition c_handle_fastpath_reply_recv (cptr msgInfo reply : Z) : K user_context :=
  fastpath_reply_recv cptr msgInfo reply.

(** [trap_entry] as [CONFIG_FASTPATH] builds it: the two system calls go to the fast path. *)
Definition trap_entry_fastpath (tr : trap) : K user_context :=
  let scause := trap_scause tr in
  let sepc := trap_sepc tr in
  if Z.testbit scause 63 then
    save_context tr sepc;; c_handle_interrupt
  else if scause =? 8 then
    save_context tr (sepc + 4);;
    let a0 := trap_regs tr capRegister in
    let a1 := trap_regs tr msgInfoRegister in
    let a7 := trap_regs tr 16 in
    if a7 =? syscall_number SysCall then c_handle_fastpath_call a0 a1
    else if a7 =? syscall_number SysReplyRecv then c_handle_fastpath_reply_recv a0 a1 (trap_regs tr replyRegister)
    else c_handle_syscall a0 a1 a7
  else
    save_context tr sepc;; c_handle_exception scause.
End fastpath.
