(* ===== verification/Frames.v ===== *)
(** * Code that only reads the heap, reports errors or sets a thread's state

    These functions keep every invariant that does not depend on the error
    registers ([ErrFrame]) or on the run state of a thread and the scheduler's
    next action ([RunFrame]). *)
From S2P Require Import Prelude Words Platform State Machine Keeps RefillList Sporadic Queues CapOps CSpace VSpace Thread CNode Message.

Class ErrFrame (I : kstate → Prop) : Prop := {
  ef_lookup : ∀ v s, I s → I (set_current_lookup_fault v s);
  ef_error : ∀ v s, I s → I (set_current_syscall_error v s)
}.
Class RunFrame (I : kstate → Prop) : Prop := {
  rf_tcb : ∀ s p t f, I s → tcbs s !! p = Some t →
    I (set_tcbs (<[p := set_tcbState (f (tcbState t)) t]> (tcbs s)) s);
  rf_action : ∀ v s, I s → I (set_ksSchedulerAction v s)
}.

Section reads.
Context (I : kstate → Prop).

Lemma keeps_get_cte p : keeps I (get_cte p) (λ c, ∃ s, I s ∧ ctes s !! p = Some c).
Proof. eapply keeps_bind; [keep_call|]. intros s Hs. eapply keeps_conseq; [keep_call|]. eauto. Qed.
Lemma keeps_get_tcb p : keeps I (get_tcb p) (λ c, ∃ s, I s ∧ tcbs s !! p = Some c).
Proof. eapply keeps_bind; [keep_call|]. intros s Hs. eapply keeps_conseq; [keep_call|]. eauto. Qed.
Lemma keeps_get_ep p : kept I (get_ep p).
Proof. unfold get_ep. keep. Qed.
Lemma keeps_get_ntfn p : kept I (get_ntfn p).
Proof. unfold get_ntfn. keep. Qed.
Lemma keeps_get_sc p : kept I (get_sc p).
Proof. unfold get_sc. keep. Qed.
Lemma keeps_get_reply p : kept I (get_reply p).
Proof. unfold get_reply. keep. Qed.
Lemma keeps_load_word b i : keeps I (load_word b i) is_word.
Proof. eapply keeps_conseq; [apply keeps_gets|]. intros a (s & _ & ->). apply wrap_word. Qed.
Lemma keeps_lift {A} (o : option A) : keeps I (lift o) (λ a, o = Some a).
Proof. destruct o; [exact (keeps_ret I a _ eq_refl)|exact (keeps_stuck I AssertFailed _)]. Qed.
End reads.
#[export] Hint Resolve keeps_get_cte keeps_get_tcb | 5 : keeps.
#[export] Hint Resolve keeps_get_ep keeps_get_ntfn keeps_get_sc keeps_get_reply keeps_load_word keeps_lift : keeps.

Section reads2.
Context (I : kstate → Prop).
Lemma keeps_getRegister t r : keeps I (getRegister t r) is_word.
Proof. unfold getRegister. keep. apply wrap_word. Qed.
Lemma keeps_excapref i : kept I (excapref i).
Proof. unfold excapref. keep. Qed.
Lemma keeps_isSchedulable p : kept I (isSchedulable p).
Proof. unfold isSchedulable. keep. Qed.
End reads2.
#[export] Hint Resolve keeps_getRegister keeps_excapref keeps_isSchedulable : keeps.

Section reads3.
Context (I : kstate → Prop).
Lemma keeps_getSyscallArg i b : keeps I (getSyscallArg i b) is_word.
Proof. unfold getSyscallArg. keep. Qed.
Lemma keeps_isMDBParentOf a b : kept I (isMDBParentOf a b).
Proof. unfold isMDBParentOf. keep. Qed.
Lemma keeps_isFinalCapability p : kept I (isFinalCapability p).
Proof. unfold isFinalCapability. keep. Qed.
Lemma keeps_lookupIPCBuffer b t : kept I (lookupIPCBuffer b t).
Proof. unfold lookupIPCBuffer. keep. Qed.
Lemma keeps_loadCapTransfer b : kept I (loadCapTransfer b).
Proof. unfold loadCapTransfer. keep. Qed.
End reads3.
#[export] Hint Resolve keeps_getSyscallArg keeps_isMDBParentOf keeps_isFinalCapability
  keeps_lookupIPCBuffer keeps_loadCapTransfer : keeps.

Section errors.
Context (I : kstate → Prop) `{!ErrFrame I}.

Lemma keeps_set_error_type e : kept I (set_error_type e).
Proof. apply keeps_modify. intros s. apply ef_error. Qed.
Lemma keeps_mod_error f : kept I (mod_error f).
Proof. apply keeps_modify. intros s. apply ef_error. Qed.
Lemma keeps_set_lookup_fault f : kept I (set_lookup_fault f).
Proof. apply keeps_modify. intros s. apply ef_lookup. Qed.
End errors.
#[export] Hint Resolve keeps_set_error_type keeps_mod_error keeps_set_lookup_fault : keeps.

Section errors2.
Context (I : kstate → Prop) `{!ErrFrame I}.

Lemma keeps_syscall_error_ret e : keeps I (syscall_error_ret e) (λ r, r = EXCEPTION_SYSCALL_ERROR).
Proof. unfold syscall_error_ret. keep. Qed.
Lemma keeps_invalid_argument_ret n : keeps I (invalid_argument_ret n) (λ r, r = EXCEPTION_SYSCALL_ERROR).
Proof. unfold invalid_argument_ret. keep. Qed.
Lemma keeps_invalid_cap_ret n : keeps I (invalid_cap_ret n) (λ r, r = EXCEPTION_SYSCALL_ERROR).
Proof. unfold invalid_cap_ret. keep. Qed.
Lemma keeps_range_error_ret lo hi : keeps I (range_error_ret lo hi) (λ r, r = EXCEPTION_SYSCALL_ERROR).
Proof. unfold range_error_ret. keep. Qed.
Lemma keeps_failed_lookup b : keeps I (failed_lookup b) (λ r, r.1 = EXCEPTION_SYSCALL_ERROR).
Proof. unfold failed_lookup. keep. Qed.
Lemma keeps_resolveAddressBits c p n : kept I (resolveAddressBits c p n).
Proof.
  unfold resolveAddressBits. keep.
  apply (keeps_while64 _ (λ _, True) (λ _, True)); [|done]. intros [] _. unfold resolveAddressBits_step. keep.
Qed.
End errors2.
#[export] Hint Resolve keeps_syscall_error_ret keeps_invalid_argument_ret keeps_invalid_cap_ret
  keeps_range_error_ret keeps_failed_lookup keeps_resolveAddressBits : keeps.

Section lookups.
Context (I : kstate → Prop) `{!ErrFrame I}.

Lemma keeps_lookupSlot t p : kept I (lookupSlot t p).
Proof. unfold lookupSlot. keep. Qed.
Lemma keeps_lookupSlotForCNodeOp b c p n : kept I (lookupSlotForCNodeOp b c p n).
Proof. unfold lookupSlotForCNodeOp. keep. Qed.
End lookups.
#[export] Hint Resolve keeps_lookupSlot keeps_lookupSlotForCNodeOp : keeps.

Section lookups2.
Context (I : kstate → Prop) `{!ErrFrame I}.

Lemma keeps_lookupSourceSlot c p n : kept I (lookupSourceSlot c p n).
Proof. unfold lookupSourceSlot. keep. Qed.
Lemma keeps_lookupTargetSlot c p n : kept I (lookupTargetSlot c p n).
Proof. unfold lookupTargetSlot. keep. Qed.
Lemma keeps_lookupPivotSlot c p n : kept I (lookupPivotSlot c p n).
Proof. unfold lookupPivotSlot. keep. Qed.
Lemma keeps_ensureNoChildren p : kept I (ensureNoChildren p).
Proof. unfold ensureNoChildren. keep. Qed.
Lemma keeps_ensureEmptySlot p : kept I (ensureEmptySlot p).
Proof. unfold ensureEmptySlot. keep. Qed.
Lemma keeps_slotCapLongRunningDelete p : kept I (slotCapLongRunningDelete p).
Proof. unfold slotCapLongRunningDelete. keep. Qed.
Lemma keeps_checkValidIPCBuffer v c : kept I (checkValidIPCBuffer v c).
Proof. unfold checkValidIPCBuffer. keep. Qed.
End lookups2.
#[export] Hint Resolve keeps_lookupSourceSlot keeps_lookupTargetSlot keeps_lookupPivotSlot keeps_ensureNoChildren
  keeps_ensureEmptySlot keeps_slotCapLongRunningDelete keeps_checkValidIPCBuffer : keeps.

Section run.
Context (I : kstate → Prop) `{!RunFrame I}.

Lemma keeps_mod_ts p f : kept I (mod_ts p f).
Proof.
  apply keeps_intro. intros s HI. apply wlp_bind. unfold wlp, get_tcb, mbind, M_bind, get_state, deref.
  destruct (tcbs s !! p) as [t|] eqn:Ht; [|done]. split; [|done]. by apply rf_tcb.
Qed.
End run.
#[export] Hint Resolve keeps_mod_ts : keeps.

Section run2.
Context (I : kstate → Prop) `{!RunFrame I}.
Lemma keeps_scheduleTCB p : kept I (scheduleTCB p).
Proof. unfold scheduleTCB. keep. apply keeps_modify. intros s. apply rf_action. Qed.
End run2.
#[export] Hint Resolve keeps_scheduleTCB : keeps.

Section run3.
Context (I : kstate → Prop) `{!RunFrame I}.
Lemma keeps_setThreadState p ts : kept I (setThreadState p ts).
Proof. unfold setThreadState. keep. Qed.
Lemma keeps_setThreadStateBlockedOnReply p r : kept I (setThreadStateBlockedOnReply p r).
Proof. unfold setThreadStateBlockedOnReply. keep. Qed.
End run3.
#[export] Hint Resolve keeps_setThreadState keeps_setThreadStateBlockedOnReply : keeps.
