(* ===== verification/Invariant.v ===== *)
(** * The invariant of the kernel state

    What every entry into the kernel may rely on: thread control blocks, capability
    fields and the domain schedule stay within the ranges that the indexing of
    arrays, the shifts and the [switch] statements of the kernel assume. The file
    defines the invariant and proves the rules for the primitive state changes;
    [InvariantCore.v] and [InvariantKernel.v] prove it for the code. *)
From S2P Require Import Prelude Words Platform State Machine Keeps RefillList Sporadic Queues CapOps CSpace VSpace Thread CNode Message Frames.

(** A bound on the priorities threads have and may give; the kernel raises none above it. *)
Class PrioBound := prio_bound : Z.

Section invariant.
Context `{Platform} `{PrioBound}.

Definition tcb_wf (t : tcb) : Prop :=
  0 ≤ tcbPriority t ≤ prio_bound ∧ 0 ≤ tcbMCP t ≤ prio_bound ∧ 0 ≤ tcbDomain t < numDomains ∧
  tcbLookupFailure t = lookup_fault_invalid_root.

Definition asid_wf (asid : Z) : Prop := 0 ≤ asid < 2 ^ 16.

Definition cap_wf (c : cap) : Prop :=
  match c with
  | cap_untyped_cap _ _ bits _ => seL4_MinUntypedBits ≤ bits ≤ seL4_MaxUntypedBits
  | cap_cnode_cap radix guardSize guard _ =>
    1 ≤ radix ≤ 33 ∧ 0 ≤ guardSize ∧ radix + guardSize ≤ 64 ∧ 0 ≤ guard < 2 ^ guardSize
  | cap_irq_handler_cap irq => 1 ≤ irq ≤ maxIRQ
  | cap_zombie_cap _ type => type = ZombieType_ZombieTCB ∨ 1 ≤ type ≤ 33
  | cap_sched_context_cap _ bits => seL4_MinSchedContextBits ≤ bits ≤ seL4_MaxUntypedBits
  | cap_frame_cap asid _ size rights _ _ => asid_wf asid ∧ 0 ≤ size ≤ 2 ∧ 1 ≤ rights ≤ 3
  | cap_page_table_cap asid _ _ _ => asid_wf asid
  | cap_asid_pool_cap base _ => asid_wf base ∧ base mod 2 ^ asidLowBits = 0
  | _ => True
  end.

(** An entry of the domain schedule: a domain with a positive duration, or the end marker. *)
Definition dschedule_wf (d : Z) : Prop :=
  d = 0 ∨ 0 ≤ dschedule_domain d < numDomains ∧ 0 < dschedule_duration d.
Definition domain_schedule_wf (sched : list Z) (start idx : Z) : Prop :=
  Z.of_nat (length sched) = CONFIG_NUM_DOMAIN_SCHEDULES ∧ Forall dschedule_wf sched ∧
  sched !! Z.to_nat (CONFIG_NUM_DOMAIN_SCHEDULES - 1) = Some 0 ∧
  0 ≤ start ∧ (∃ d, sched !! Z.to_nat start = Some d ∧ d ≠ 0) ∧
  0 ≤ idx ≤ CONFIG_NUM_DOMAIN_SCHEDULES - 2.

Record kernel_inv (s : kstate) : Prop := {
  ki_tcbs : map_Forall (λ _ t, tcb_wf t) (tcbs s);
  ki_ctes : map_Forall (λ _ c, cap_wf (cte_cap c)) (ctes s);
  ki_domain : 0 ≤ ksCurDomain s < numDomains;
  ki_schedule : domain_schedule_wf (ksDomSchedule s) (ksDomScheduleStart s) (ksDomScheduleIdx s);
  ki_asids : Z.of_nat (length (riscvKSASIDTable s)) = nASIDPools;
  ki_excaps : length (current_extra_caps s) = 3%nat;
  ki_ready : Z.of_nat (length (ksReadyQueues s)) = numDomains * 256;
  ki_bitmap : length (ksReadyQueuesL1Bitmap s) = Z.to_nat numDomains ∧
    length (ksReadyQueuesL2Bitmap s) = Z.to_nat numDomains;
  ki_irq : 0 ≤ active_irq s ≤ maxIRQ;
  ki_bound : 0 ≤ prio_bound ≤ 255
}.

#[global] Instance kinv_err : ErrFrame kernel_inv.
Proof. split; intros v s []; by split. Qed.
#[global] Instance kinv_run : RunFrame kernel_inv.
Proof.
  split.
  - intros s p t f [Ht]. intros Hp. split; try done. apply map_Forall_insert_2; [|done]. by apply (Ht p) in Hp.
  - intros v s []; by split.
Qed.

(** ** The primitive state changes *)
Lemma kinv_get_tcb p : keeps kernel_inv (get_tcb p) tcb_wf.
Proof. eapply keeps_conseq; [apply keeps_get_tcb|]. intros t (s & [Ht] & Hp). by apply (Ht p). Qed.
Lemma kinv_get_cte p : keeps kernel_inv (get_cte p) (λ c, cap_wf (cte_cap c)).
Proof. eapply keeps_conseq; [apply keeps_get_cte|]. intros t (s & [_ Ht] & Hp). by apply (Ht p). Qed.
Lemma kinv_mod_tcb p f : (∀ t, tcb_wf t → tcb_wf (f t)) → kept kernel_inv (mod_tcb p f).
Proof.
  intros Hf. eapply keeps_bind; [apply kinv_get_tcb|]. intros t Ht. apply keeps_modify. intros s []. split; try done.
  apply map_Forall_insert_2; auto.
Qed.
Lemma kinv_mod_cte p f : (∀ c, cap_wf (cte_cap c) → cap_wf (cte_cap (f c))) → kept kernel_inv (mod_cte p f).
Proof.
  intros Hf. eapply keeps_bind; [apply kinv_get_cte|]. intros t Ht. apply keeps_modify. intros s []. split; try done.
  apply map_Forall_insert_2; auto.
Qed.
Lemma kinv_set_cap p c : cap_wf c → kept kernel_inv (mod_cte p (set_cte_cap c)).
Proof. intros Hc. by apply kinv_mod_cte. Qed.
Lemma kinv_mod_ep p f : kept kernel_inv (mod_ep p f).
Proof. unfold mod_ep. keep. apply keeps_modify. intros s []. by split. Qed.
Lemma kinv_mod_ntfn p f : kept kernel_inv (mod_ntfn p f).
Proof. unfold mod_ntfn. keep. apply keeps_modify. intros s []. by split. Qed.
Lemma kinv_mod_sc p f : kept kernel_inv (mod_sc p f).
Proof. unfold mod_sc. keep. apply keeps_modify. intros s []. by split. Qed.
Lemma kinv_mod_reply p f : kept kernel_inv (mod_reply p f).
Proof. unfold mod_reply. keep. apply keeps_modify. intros s []. by split. Qed.
Lemma kinv_on_sc {A} p (m : M sched_context A) : kept kernel_inv (on_sc p m).
Proof.
  apply keeps_intro. intros s HI. unfold wlp, on_sc. destruct (scs s !! p) as [c|]; [|done].
  destruct (m c); [|done]. split; [|done]. destruct HI. by split.
Qed.
Lemma kinv_store_word b i w : kept kernel_inv (store_word b i w).
Proof. apply keeps_modify. intros s []. by split. Qed.
Lemma kinv_setRegister t r w : kept kernel_inv (setRegister t r w).
Proof. by apply kinv_mod_tcb. Qed.
Lemma kinv_dev_input {A} (f : device_state → nat → A) : kept kernel_inv (dev_input f).
Proof. unfold dev_input. keep. apply keeps_modify. intros s []. by split. Qed.
End invariant.

(** A field the invariant does not mention, or one whose new value is easy. *)
Ltac kinv_modify := apply keeps_modify; intros ? []; split; simpl; try done; rewrite ?length_insert; done.

(** A [while] loop, with an invariant on its variables. *)
Ltac keep_loop J := apply (keeps_while64 _ J (λ _, True)); [|done].

(** ** The next entry of the domain schedule *)
Section domains.
Context `{PlatformOk} `{PrioBound}.

Definition next_schedule_idx (s : kstate) : Z :=
  if bool_decide (ksDomSchedule s !! Z.to_nat (ksDomScheduleIdx s + 1) = Some 0)
  then ksDomScheduleStart s else ksDomScheduleIdx s + 1.
Definition with_domain (i d : Z) (s : kstate) : kstate :=
  set_ksDomainTime (dschedule_duration d) (set_ksCurDomain (dschedule_domain d)
    (set_ksWorkUnitsCompleted 0 (set_ksReprogram true (set_ksDomScheduleIdx i s)))).
Lemma nextDomain_spec s : kernel_inv s →
  let i := next_schedule_idx s in
  ∃ d, ksDomSchedule s !! Z.to_nat i = Some d ∧ 0 ≤ i ≤ CONFIG_NUM_DOMAIN_SCHEDULES - 2 ∧
    0 ≤ dschedule_domain d < numDomains ∧ 0 < dschedule_duration d ∧ nextDomain s = Done () (with_domain i d s).
Proof.
  pose proof num_schedules_ok as HN. intros HI i. pose proof (ki_schedule _ HI) as (Hl & Hall & Hend & Hst & Hs0 & Hidx).
  assert (wrap (ksDomScheduleIdx s + 1) = ksDomScheduleIdx s + 1) as Hw by (apply wrap_small; unfold is_word; lia).
  destruct (ksDomSchedule s !! Z.to_nat (ksDomScheduleIdx s + 1)) as [d|] eqn:Hd.
  2: { apply lookup_ge_None in Hd. lia. }
  assert (i = if d =? 0 then ksDomScheduleStart s else ksDomScheduleIdx s + 1) as Hi.
  { subst i. unfold next_schedule_idx. rewrite Hd. destruct (Z.eqb_spec d 0) as [->|]; case_bool_decide; naive_solver. }
  assert (∃ d', ksDomSchedule s !! Z.to_nat i = Some d' ∧ d' ≠ 0 ∧ 0 ≤ i) as (d' & Hd' & Hd0 & Hi0).
  { rewrite Hi. destruct (Z.eqb_spec d 0); [naive_solver|]. exists d. split_and!; [done..|lia]. }
  assert (i ≤ CONFIG_NUM_DOMAIN_SCHEDULES - 2) as Hi2.
  { pose proof (lookup_lt_Some _ _ _ Hd'). destruct (decide (i = CONFIG_NUM_DOMAIN_SCHEDULES - 1)) as [E|]; [|lia].
    rewrite E, Hend in Hd'. congruence. }
  assert (dschedule_wf d') as [?|[Hdom Hdur]] by (by eapply Forall_lookup_1); [done|].
  exists d'. split_and!; try done; try lia.
  unfold nextDomain, dschedule_is_end_marker, get_dschedule, when, modify, gets, mbind, M_bind, get_state, deref, mret, M_ret.
  simpl. rewrite Hw, Hd. rewrite Hi in *. destruct (d =? 0); simpl; by rewrite Hd'.
Qed.
Lemma with_domain_inv i d s : 0 ≤ i ≤ CONFIG_NUM_DOMAIN_SCHEDULES - 2 → 0 ≤ dschedule_domain d < numDomains →
  kernel_inv s → kernel_inv (with_domain i d s).
Proof.
  intros Hi Hd []. split; try done. destruct ki_schedule0 as (?&?&?&?&?&?).
  unfold domain_schedule_wf, with_domain. simpl. split_and!; naive_solver lia.
Qed.
End domains.

#[export] Hint Resolve kinv_get_tcb kinv_get_cte | 1 : keeps.
#[export] Hint Resolve kinv_set_cap kinv_mod_ep kinv_mod_ntfn kinv_mod_sc kinv_mod_reply kinv_on_sc
  kinv_store_word kinv_setRegister kinv_dev_input : keeps.
#[export] Hint Extern 2 (keeps kernel_inv (mod_tcb _ _) _) => (apply kinv_mod_tcb; by intros) : keeps.
#[export] Hint Extern 2 (keeps kernel_inv (mod_cte _ _) _) => (apply kinv_mod_cte; by intros) : keeps.
#[export] Hint Extern 2 (keeps kernel_inv (modify _) _) => kinv_modify : keeps.
