(* ===== verification/InvariantCore.v ===== *)
(** * The kernel invariant: machine, scheduler, capabilities and messages

    One lemma per function: it keeps [kernel_inv], with what is known of the value
    it returns. *)
From S2P Require Import Prelude Words Platform State Machine Keeps DList RefillList Sporadic Queues CapOps CSpace VSpace Thread CNode Message Frames Invariant.

Section code.
Context `{PlatformOk} `{PrioBound}.
Lemma cap_wf_set_free c i : cap_wf c → cap_wf (cap_untyped_cap_set_capFreeIndex c i).
Proof. by destruct c. Qed.
Lemma cap_wf_null : cap_wf cap_null_cap.
Proof. done. Qed.
#[local] Hint Resolve cap_wf_set_free cap_wf_null : keeps.
Lemma keeps_addrFromKPPtr p : kept kernel_inv (addrFromKPPtr p).
Proof. unfold addrFromKPPtr. keep. Qed.
#[local] Hint Resolve keeps_addrFromKPPtr : keeps.

(** ** [Machine.v] *)
Lemma kinv_getCurrentTime : kept kernel_inv getCurrentTime.
Proof. unfold getCurrentTime. keep. Qed.
#[local] Hint Resolve kinv_getCurrentTime : keeps.
Lemma kinv_setDeadline (deadline : Z) : kept kernel_inv (setDeadline deadline).
Proof. unfold setDeadline. keep. Qed.
#[local] Hint Resolve kinv_setDeadline : keeps.
Lemma kinv_ackDeadlineIRQ : kept kernel_inv ackDeadlineIRQ.
Proof. unfold ackDeadlineIRQ. keep. Qed.
#[local] Hint Resolve kinv_ackDeadlineIRQ : keeps.
Lemma kinv_read_sip : kept kernel_inv read_sip.
Proof. unfold read_sip. keep. Qed.
#[local] Hint Resolve kinv_read_sip : keeps.
Lemma kinv_read_stval : kept kernel_inv read_stval.
Proof. unfold read_stval. keep. Qed.
#[local] Hint Resolve kinv_read_stval : keeps.
Lemma kinv_write_satp (w : Z) : kept kernel_inv (write_satp w).
Proof. unfold write_satp. keep. Qed.
#[local] Hint Resolve kinv_write_satp : keeps.
Lemma kinv_set_sie_mask (mask_high : Z) : kept kernel_inv (set_sie_mask mask_high).
Proof. unfold set_sie_mask. keep. Qed.
#[local] Hint Resolve kinv_set_sie_mask : keeps.
Lemma kinv_clear_sie_mask (mask_low : Z) : kept kernel_inv (clear_sie_mask mask_low).
Proof. unfold clear_sie_mask. keep. Qed.
#[local] Hint Resolve kinv_clear_sie_mask : keeps.
Lemma kinv_readl addr : keeps kernel_inv (readl addr) (λ w, 0 ≤ w).
Proof. unfold readl. keep. apply Z.mod_pos_bound. lia. Qed.
#[local] Hint Resolve kinv_readl : keeps.
Lemma kinv_writel (val addr : Z) : kept kernel_inv (writel val addr).
Proof. unfold writel. keep. Qed.
#[local] Hint Resolve kinv_writel : keeps.
Lemma kinv_setVSpaceRoot (addr asid : Z) : kept kernel_inv (setVSpaceRoot addr asid).
Proof. unfold setVSpaceRoot. keep. Qed.
#[local] Hint Resolve kinv_setVSpaceRoot : keeps.
Lemma kinv_plic_get_claim : keeps kernel_inv plic_get_claim (λ w, 0 ≤ w).
Proof. unfold plic_get_claim. keep. Qed.
#[local] Hint Resolve kinv_plic_get_claim : keeps.
Lemma kinv_plic_complete_claim (irq : Z) : kept kernel_inv (plic_complete_claim irq).
Proof. unfold plic_complete_claim. keep. Qed.
#[local] Hint Resolve kinv_plic_complete_claim : keeps.
Lemma kinv_plic_mask_irq (disable : bool) (irq : Z) : kept kernel_inv (plic_mask_irq disable irq).
Proof. unfold plic_mask_irq. keep. Qed.
#[local] Hint Resolve kinv_plic_mask_irq : keeps.
Lemma kinv_plic_irq_set_trigger (irq : Z) (edge_triggered : bool) : kept kernel_inv (plic_irq_set_trigger irq edge_triggered).
Proof. unfold plic_irq_set_trigger. keep. Qed.
#[local] Hint Resolve kinv_plic_irq_set_trigger : keeps.
Lemma kinv_getActiveIRQ : keeps kernel_inv getActiveIRQ (λ irq, 0 ≤ irq ≤ maxIRQ).
Proof.
  pose proof plic_irqs. assert (0 ≤ maxIRQ) by (unfold maxIRQ, KERNEL_TIMER_IRQ; lia).
  assert (∀ irq, 0 ≤ irq → IS_IRQ_VALID irq = true → 0 ≤ irq ≤ maxIRQ) as Hv.
  { intros irq Hi [Hle%Z.leb_le _]%andb_prop. done. }
  unfold getActiveIRQ. eapply keeps_bind; [apply keeps_gets|]. intros irq (s & HI & ->).
  destruct (IS_IRQ_VALID (active_irq s)) eqn:E; [apply keeps_ret; apply HI|].
  eapply keeps_bind; [keep_call|]. intros sip _. eapply (keeps_bind _ _ _ (λ irq, 0 ≤ irq)).
  - keep. case_match; unfold KERNEL_TIMER_IRQ, irqInvalid; lia.
  - intros irq Hi. destruct (IS_IRQ_VALID irq) eqn:E2; simpl; keep; [|by apply Hv].
    apply keeps_modify. intros s' []. split; simpl; auto.
Qed.
#[local] Hint Resolve kinv_getActiveIRQ : keeps.
Lemma kinv_setIRQTrigger (irq : Z) (edge_triggered : bool) : kept kernel_inv (setIRQTrigger irq edge_triggered).
Proof. unfold setIRQTrigger. keep. Qed.
#[local] Hint Resolve kinv_setIRQTrigger : keeps.
Lemma kinv_isIRQPending : kept kernel_inv isIRQPending.
Proof. unfold isIRQPending. keep. Qed.
#[local] Hint Resolve kinv_isIRQPending : keeps.
Lemma kinv_maskInterrupt (disable : bool) (irq : Z) : kept kernel_inv (maskInterrupt disable irq).
Proof. unfold maskInterrupt. keep. Qed.
#[local] Hint Resolve kinv_maskInterrupt : keeps.
Lemma kinv_ackInterrupt irq : kept kernel_inv (ackInterrupt irq).
Proof.
  unfold ackInterrupt. keep. apply keeps_modify. intros s []. split; try done. simpl.
  pose proof plic_irqs. unfold irqInvalid, maxIRQ, KERNEL_TIMER_IRQ. lia.
Qed.
#[local] Hint Resolve kinv_ackInterrupt : keeps.
Lemma kinv_handleSpuriousIRQ : kept kernel_inv handleSpuriousIRQ.
Proof. unfold handleSpuriousIRQ. keep. Qed.
#[local] Hint Resolve kinv_handleSpuriousIRQ : keeps.

(** ** [VSpace.v] *)
Lemma kinv_load_pte (p : Z) : kept kernel_inv (load_pte p).
Proof. unfold load_pte. keep. Qed.
#[local] Hint Resolve kinv_load_pte : keeps.
Lemma kinv_store_pte (p pte : Z) : kept kernel_inv (store_pte p pte).
Proof. unfold store_pte. keep. Qed.
#[local] Hint Resolve kinv_store_pte : keeps.
Lemma kinv_lookupPTSlot_loop level pt vptr bits : kept kernel_inv (lookupPTSlot_loop level pt vptr bits).
Proof. revert pt bits. induction level as [|level IH]; intros pt bits; simpl; keep. Qed.
#[local] Hint Resolve kinv_lookupPTSlot_loop : keeps.
Lemma kinv_lookupPTSlot (lvl1pt vptr : Z) : kept kernel_inv (lookupPTSlot lvl1pt vptr).
Proof. unfold lookupPTSlot. keep. Qed.
#[local] Hint Resolve kinv_lookupPTSlot : keeps.
Lemma kinv_riscvKSASIDTable_get (i : Z) : kept kernel_inv (riscvKSASIDTable_get i).
Proof. unfold riscvKSASIDTable_get. keep. Qed.
#[local] Hint Resolve kinv_riscvKSASIDTable_get : keeps.
Lemma kinv_riscvKSASIDTable_set (i pool : Z) : kept kernel_inv (riscvKSASIDTable_set i pool).
Proof. unfold riscvKSASIDTable_set. keep. Qed.
#[local] Hint Resolve kinv_riscvKSASIDTable_set : keeps.
Lemma kinv_findVSpaceForASID (asid : Z) : kept kernel_inv (findVSpaceForASID asid).
Proof. unfold findVSpaceForASID. keep. Qed.
#[local] Hint Resolve kinv_findVSpaceForASID : keeps.
Lemma kinv_setKernelVSpaceRoot : kept kernel_inv setKernelVSpaceRoot.
Proof. unfold setKernelVSpaceRoot. keep. Qed.
#[local] Hint Resolve kinv_setKernelVSpaceRoot : keeps.
Lemma kinv_setVMRoot (tcb : Z) : kept kernel_inv (setVMRoot tcb).
Proof. unfold setVMRoot. keep. Qed.
#[local] Hint Resolve kinv_setVMRoot : keeps.
Lemma kinv_copyGlobalMappings (newLvl1pt : Z) : kept kernel_inv (copyGlobalMappings newLvl1pt).
Proof. unfold copyGlobalMappings. keep. Qed.
#[local] Hint Resolve kinv_copyGlobalMappings : keeps.
Lemma kinv_deleteASIDPool (asid_base pool : Z) : kept kernel_inv (deleteASIDPool asid_base pool).
Proof. unfold deleteASIDPool. keep. Qed.
#[local] Hint Resolve kinv_deleteASIDPool : keeps.
Lemma kinv_deleteASID (asid vspace : Z) : kept kernel_inv (deleteASID asid vspace).
Proof. unfold deleteASID. keep. Qed.
#[local] Hint Resolve kinv_deleteASID : keeps.
Lemma kinv_unmapPageTable_loop n i vptr target slot pt : kept kernel_inv (unmapPageTable_loop n i vptr target slot pt).
Proof. revert i slot pt. induction n as [|n IH]; intros i slot pt; simpl; keep. Qed.
#[local] Hint Resolve kinv_unmapPageTable_loop : keeps.
Lemma kinv_unmapPageTable (asid vptr target_pt : Z) : kept kernel_inv (unmapPageTable asid vptr target_pt).
Proof. unfold unmapPageTable. keep. Qed.
#[local] Hint Resolve kinv_unmapPageTable : keeps.
Lemma kinv_unmapPage (page_size asid vptr pptr : Z) : kept kernel_inv (unmapPage page_size asid vptr pptr).
Proof. unfold unmapPage. keep. Qed.
#[local] Hint Resolve kinv_unmapPage : keeps.
Lemma kinv_handleVMFault (thread vm_faultType : Z) : kept kernel_inv (handleVMFault thread vm_faultType).
Proof. unfold handleVMFault. keep. Qed.
#[local] Hint Resolve kinv_handleVMFault : keeps.

(** ** [Queues.v] *)
Lemma kinv_tcb_queue_prepend (queue : tcb_queue) (tcb : Z) : kept kernel_inv (tcb_queue_prepend queue tcb).
Proof. unfold tcb_queue_prepend. keep. Qed.
#[local] Hint Resolve kinv_tcb_queue_prepend : keeps.
Lemma kinv_tcb_queue_append (queue : tcb_queue) (tcb : Z) : kept kernel_inv (tcb_queue_append queue tcb).
Proof. unfold tcb_queue_append. keep. Qed.
#[local] Hint Resolve kinv_tcb_queue_append : keeps.
Lemma kinv_tcb_queue_insert (tcb after : Z) : kept kernel_inv (tcb_queue_insert tcb after).
Proof. unfold tcb_queue_insert. keep. Qed.
#[local] Hint Resolve kinv_tcb_queue_insert : keeps.
Lemma kinv_tcb_queue_remove (queue : tcb_queue) (tcb : Z) : kept kernel_inv (tcb_queue_remove queue tcb).
Proof. unfold tcb_queue_remove. keep. Qed.
#[local] Hint Resolve kinv_tcb_queue_remove : keeps.
Lemma kinv_tcbEPAppend_find tcb before after : kept kernel_inv (tcbEPAppend_find tcb before after).
Proof. unfold tcbEPAppend_find. keep_loop (λ _ : Z * Z, True). intros [] _. keep. Qed.
#[local] Hint Resolve kinv_tcbEPAppend_find : keeps.
Lemma kinv_tcbEPAppend tcb queue : kept kernel_inv (tcbEPAppend tcb queue).
Proof. unfold tcbEPAppend. keep. Qed.
#[local] Hint Resolve kinv_tcbEPAppend_find kinv_tcbEPAppend : keeps.
Lemma kinv_tcbEPDequeue (tcb : Z) (queue : tcb_queue) : kept kernel_inv (tcbEPDequeue tcb queue).
Proof. unfold tcbEPDequeue. keep. Qed.
#[local] Hint Resolve kinv_tcbEPDequeue : keeps.
Lemma kinv_invert_l1index (l1index : Z) : kept kernel_inv (invert_l1index l1index).
Proof. unfold invert_l1index. keep. Qed.
#[local] Hint Resolve kinv_invert_l1index : keeps.
Lemma kinv_ready_queues_index (dom prio : Z) : kept kernel_inv (ready_queues_index dom prio).
Proof. unfold ready_queues_index. keep. Qed.
#[local] Hint Resolve kinv_ready_queues_index : keeps.
Lemma kinv_get_ready_queue (idx : Z) : kept kernel_inv (get_ready_queue idx).
Proof. unfold get_ready_queue. keep. Qed.
#[local] Hint Resolve kinv_get_ready_queue : keeps.
Lemma kinv_set_ready_queue (idx : Z) (q : tcb_queue) : kept kernel_inv (set_ready_queue idx q).
Proof. unfold set_ready_queue. keep. Qed.
#[local] Hint Resolve kinv_set_ready_queue : keeps.
Lemma kinv_get_l1 (dom : Z) : kept kernel_inv (get_l1 dom).
Proof. unfold get_l1. keep. Qed.
#[local] Hint Resolve kinv_get_l1 : keeps.
Lemma kinv_set_l1 (dom w : Z) : kept kernel_inv (set_l1 dom w).
Proof. unfold set_l1. keep. Qed.
#[local] Hint Resolve kinv_set_l1 : keeps.
Lemma kinv_get_l2 (dom i : Z) : kept kernel_inv (get_l2 dom i).
Proof. unfold get_l2. keep. Qed.
#[local] Hint Resolve kinv_get_l2 : keeps.
Lemma kinv_set_l2 dom i w : kept kernel_inv (set_l2 dom i w).
Proof. unfold set_l2. keep. apply keeps_modify. intros s []. split; try done. simpl. by rewrite length_alter. Qed.
#[local] Hint Resolve kinv_set_l2 : keeps.
Lemma kinv_addToBitmap (dom prio : Z) : kept kernel_inv (addToBitmap dom prio).
Proof. unfold addToBitmap. keep. Qed.
#[local] Hint Resolve kinv_addToBitmap : keeps.
Lemma kinv_removeFromBitmap (dom prio : Z) : kept kernel_inv (removeFromBitmap dom prio).
Proof. unfold removeFromBitmap. keep. Qed.
#[local] Hint Resolve kinv_removeFromBitmap : keeps.
Lemma kinv_getHighestPrio (dom : Z) : kept kernel_inv (getHighestPrio dom).
Proof. unfold getHighestPrio. keep. Qed.
#[local] Hint Resolve kinv_getHighestPrio : keeps.
Lemma kinv_isHighestPrio (dom prio : Z) : kept kernel_inv (isHighestPrio dom prio).
Proof. unfold isHighestPrio. keep. Qed.
#[local] Hint Resolve kinv_isHighestPrio : keeps.
Lemma kinv_sc_refill_ready (sc : Z) : kept kernel_inv (sc_refill_ready sc).
Proof. unfold sc_refill_ready. keep. Qed.
#[local] Hint Resolve kinv_sc_refill_ready : keeps.
Lemma kinv_sc_refill_sufficient (sc usage : Z) : kept kernel_inv (sc_refill_sufficient sc usage).
Proof. unfold sc_refill_sufficient. keep. Qed.
#[local] Hint Resolve kinv_sc_refill_sufficient : keeps.
Lemma kinv_tcbSchedEnqueue (tcb : Z) : kept kernel_inv (tcbSchedEnqueue tcb).
Proof. unfold tcbSchedEnqueue. keep. Qed.
#[local] Hint Resolve kinv_tcbSchedEnqueue : keeps.
Lemma kinv_tcbSchedAppend (tcb : Z) : kept kernel_inv (tcbSchedAppend tcb).
Proof. unfold tcbSchedAppend. keep. Qed.
#[local] Hint Resolve kinv_tcbSchedAppend : keeps.
Lemma kinv_tcbSchedDequeue (tcb : Z) : kept kernel_inv (tcbSchedDequeue tcb).
Proof. unfold tcbSchedDequeue. keep. Qed.
#[local] Hint Resolve kinv_tcbSchedDequeue : keeps.
Lemma kinv_tcbReleaseRemove (tcb : Z) : kept kernel_inv (tcbReleaseRemove tcb).
Proof. unfold tcbReleaseRemove. keep. Qed.
#[local] Hint Resolve kinv_tcbReleaseRemove : keeps.
Lemma kinv_tcbReadyTime (tcb : Z) : kept kernel_inv (tcbReadyTime tcb).
Proof. unfold tcbReadyTime. keep. Qed.
#[local] Hint Resolve kinv_tcbReadyTime : keeps.
Lemma kinv_time_after (tcb new_time : Z) : kept kernel_inv (time_after tcb new_time).
Proof. unfold time_after. keep. Qed.
#[local] Hint Resolve kinv_time_after : keeps.
Lemma kinv_find_time_after tcb t : kept kernel_inv (find_time_after tcb t).
Proof. unfold find_time_after. keep_loop (λ _ : Z, True). intros after _. keep. Qed.
#[local] Hint Resolve kinv_find_time_after : keeps.
Lemma kinv_tcbReleaseEnqueue (tcb : Z) : kept kernel_inv (tcbReleaseEnqueue tcb).
Proof. unfold tcbReleaseEnqueue. keep. Qed.
#[local] Hint Resolve kinv_tcbReleaseEnqueue : keeps.

(** ** [Thread.v] *)
Lemma kinv_refill_unblock_check (sc : Z) : kept kernel_inv (refill_unblock_check sc).
Proof. unfold refill_unblock_check. keep. Qed.
#[local] Hint Resolve kinv_refill_unblock_check : keeps.
Lemma kinv_sc_sporadic (sc : Z) : kept kernel_inv (sc_sporadic sc).
Proof. unfold sc_sporadic. keep. Qed.
#[local] Hint Resolve kinv_sc_sporadic : keeps.
Lemma kinv_sc_constant_bandwidth (sc : Z) : kept kernel_inv (sc_constant_bandwidth sc).
Proof. unfold sc_constant_bandwidth. keep. Qed.
#[local] Hint Resolve kinv_sc_constant_bandwidth : keeps.
Lemma kinv_rescheduleRequired : kept kernel_inv rescheduleRequired.
Proof. unfold rescheduleRequired. keep. Qed.
#[local] Hint Resolve kinv_rescheduleRequired : keeps.
Lemma kinv_possibleSwitchTo (target : Z) : kept kernel_inv (possibleSwitchTo target).
Proof. unfold possibleSwitchTo. keep. Qed.
#[local] Hint Resolve kinv_possibleSwitchTo : keeps.
Lemma kinv_postpone (sc : Z) : kept kernel_inv (postpone sc).
Proof. unfold postpone. keep. Qed.
#[local] Hint Resolve kinv_postpone : keeps.
Lemma kinv_Arch_switchToThread (tcb : Z) : kept kernel_inv (Arch_switchToThread tcb).
Proof. unfold Arch_switchToThread. keep. Qed.
#[local] Hint Resolve kinv_Arch_switchToThread : keeps.
Lemma kinv_Arch_switchToIdleThread : kept kernel_inv Arch_switchToIdleThread.
Proof. unfold Arch_switchToIdleThread. keep. Qed.
#[local] Hint Resolve kinv_Arch_switchToIdleThread : keeps.
Lemma kinv_switchToThread (thread : Z) : kept kernel_inv (switchToThread thread).
Proof. unfold switchToThread. keep. Qed.
#[local] Hint Resolve kinv_switchToThread : keeps.
Lemma kinv_switchToIdleThread : kept kernel_inv switchToIdleThread.
Proof. unfold switchToIdleThread. keep. Qed.
#[local] Hint Resolve kinv_switchToIdleThread : keeps.
Lemma kinv_chooseThread : kept kernel_inv chooseThread.
Proof. unfold chooseThread. keep. Qed.
#[local] Hint Resolve kinv_chooseThread : keeps.
Lemma kinv_get_dschedule (index : Z) : kept kernel_inv (get_dschedule index).
Proof. unfold get_dschedule. keep. Qed.
#[local] Hint Resolve kinv_get_dschedule : keeps.
Lemma kinv_dschedule_is_end_marker (index : Z) : kept kernel_inv (dschedule_is_end_marker index).
Proof. unfold dschedule_is_end_marker. keep. Qed.
#[local] Hint Resolve kinv_dschedule_is_end_marker : keeps.
Lemma kinv_nextDomain : kept kernel_inv nextDomain.
Proof.
  apply keeps_intro. intros s HI. destruct (nextDomain_spec s HI) as (d & _ & Hi & Hd & _ & E).
  unfold wlp. rewrite E. split; [by apply with_domain_inv|done].
Qed.
#[local] Hint Resolve kinv_nextDomain : keeps.
Lemma kinv_scheduleChooseNewThread : kept kernel_inv scheduleChooseNewThread.
Proof. unfold scheduleChooseNewThread. keep. Qed.
#[local] Hint Resolve kinv_scheduleChooseNewThread : keeps.
Lemma kinv_setDomain tptr dom : 0 ≤ dom < numDomains → kept kernel_inv (setDomain tptr dom).
Proof. intros Hd. unfold setDomain. keep. apply kinv_mod_tcb. by intros t (?&?&?&?). Qed.
#[local] Hint Resolve kinv_setDomain : keeps.
Lemma kinv_setMCPriority tptr mcp : 0 ≤ mcp ≤ prio_bound → kept kernel_inv (setMCPriority tptr mcp).
Proof. intros Hm. apply kinv_mod_tcb. by intros t (?&?&?&?). Qed.
#[local] Hint Resolve kinv_setMCPriority : keeps.
Lemma kinv_isCurDomainExpired : kept kernel_inv isCurDomainExpired.
Proof. unfold isCurDomainExpired. keep. Qed.
#[local] Hint Resolve kinv_isCurDomainExpired : keeps.
Lemma kinv_commitTime : kept kernel_inv commitTime.
Proof. unfold commitTime. keep. Qed.
#[local] Hint Resolve kinv_commitTime : keeps.
Lemma kinv_switchSchedContext : kept kernel_inv switchSchedContext.
Proof. unfold switchSchedContext. keep. Qed.
#[local] Hint Resolve kinv_switchSchedContext : keeps.
Lemma kinv_setNextInterrupt : kept kernel_inv setNextInterrupt.
Proof. unfold setNextInterrupt. keep. Qed.
#[local] Hint Resolve kinv_setNextInterrupt : keeps.
Lemma kinv_updateTimestamp : kept kernel_inv updateTimestamp.
Proof. unfold updateTimestamp. keep. Qed.
#[local] Hint Resolve kinv_updateTimestamp : keeps.
Lemma kinv_checkDomainTime : kept kernel_inv checkDomainTime.
Proof. unfold checkDomainTime. keep. Qed.
#[local] Hint Resolve kinv_checkDomainTime : keeps.
Lemma kinv_release_q_non_empty_and_ready : kept kernel_inv release_q_non_empty_and_ready.
Proof. unfold release_q_non_empty_and_ready. keep. Qed.
#[local] Hint Resolve kinv_release_q_non_empty_and_ready : keeps.
Lemma kinv_tcbReleaseDequeue : kept kernel_inv tcbReleaseDequeue.
Proof. unfold tcbReleaseDequeue. keep. Qed.
#[local] Hint Resolve kinv_tcbReleaseDequeue : keeps.
Lemma kinv_awaken : kept kernel_inv awaken.
Proof. unfold awaken. keep_loop (λ _ : unit, True). intros [] _. keep. Qed.
#[local] Hint Resolve kinv_awaken : keeps.
Lemma kinv_schedule : kept kernel_inv schedule.
Proof. unfold schedule. keep. Qed.
#[local] Hint Resolve kinv_schedule : keeps.
Lemma kinv_updateRestartPC (tcb : Z) : kept kernel_inv (updateRestartPC tcb).
Proof. unfold updateRestartPC. keep. Qed.
#[local] Hint Resolve kinv_updateRestartPC : keeps.

(** ** [CSpace.v] *)
Lemma kinv_lookupCap t p : keeps kernel_inv (lookupCap t p) (λ r, cap_wf r.2).
Proof. unfold lookupCap. keep. Qed.
#[local] Hint Resolve kinv_lookupCap : keeps.
Lemma kinv_lookupCapAndSlot t p : keeps kernel_inv (lookupCapAndSlot t p) (λ r, cap_wf r.1.2).
Proof. unfold lookupCapAndSlot. keep. Qed.
#[local] Hint Resolve kinv_lookupCapAndSlot : keeps.

(** ** [CNode.v] *)
Lemma kinv_mod_mdb (p : Z) (f : mdb_node → mdb_node) : kept kernel_inv (mod_mdb p f).
Proof. unfold mod_mdb. keep. Qed.
#[local] Hint Resolve kinv_mod_mdb : keeps.
Lemma kinv_setUntypedCapAsFull srcCap newCap srcSlot : kept kernel_inv (setUntypedCapAsFull srcCap newCap srcSlot).
Proof. unfold setUntypedCapAsFull. keep. apply kinv_mod_cte. intros c. apply cap_wf_set_free. Qed.
#[local] Hint Resolve kinv_setUntypedCapAsFull : keeps.
Lemma kinv_cteInsert newCap src dest : cap_wf newCap → kept kernel_inv (cteInsert newCap src dest).
Proof. intros Hc. unfold cteInsert. keep. Qed.
#[local] Hint Resolve kinv_cteInsert : keeps.
Lemma kinv_cteMove newCap src dest : cap_wf newCap → kept kernel_inv (cteMove newCap src dest).
Proof. intros Hc. unfold cteMove. keep. Qed.
#[local] Hint Resolve kinv_cteMove : keeps.
Lemma kinv_cteSwap cap1 slot1 cap2 slot2 : cap_wf cap1 → cap_wf cap2 → kept kernel_inv (cteSwap cap1 slot1 cap2 slot2).
Proof. intros HX1 HX2. unfold cteSwap. keep. Qed.
#[local] Hint Resolve kinv_cteSwap : keeps.
Lemma kinv_capSwapForDelete (slot1 slot2 : Z) : kept kernel_inv (capSwapForDelete slot1 slot2).
Proof. unfold capSwapForDelete. keep. Qed.
#[local] Hint Resolve kinv_capSwapForDelete : keeps.
Lemma kinv_insertNewCap parent slot c : cap_wf c → kept kernel_inv (insertNewCap parent slot c).
Proof. intros Hc. unfold insertNewCap. keep. Qed.
#[local] Hint Resolve kinv_insertNewCap : keeps.
Lemma kinv_Arch_deriveCap slot c : cap_wf c → keeps kernel_inv (Arch_deriveCap slot c) (λ r, cap_wf r.2).
Proof. intros Hc. unfold Arch_deriveCap. keep. destruct Hc as (_ & ?). done. Qed.
#[local] Hint Resolve kinv_Arch_deriveCap : keeps.
Lemma kinv_deriveCap slot c : cap_wf c → keeps kernel_inv (deriveCap slot c) (λ r, cap_wf r.2).
Proof. intros Hc. unfold deriveCap. keep. simpl. by destruct (status_ok _). Qed.
#[local] Hint Resolve kinv_deriveCap : keeps.

(** ** [Message.v] *)
Lemma kinv_setMR (receiver receiveIPCBuffer offset reg : Z) : kept kernel_inv (setMR receiver receiveIPCBuffer offset reg).
Proof. unfold setMR. keep. Qed.
#[local] Hint Resolve kinv_setMR : keeps.
Lemma kinv_mode_parseTimeArg i buffer : keeps kernel_inv (mode_parseTimeArg i buffer) is_word.
Proof. apply keeps_getSyscallArg. Qed.
#[local] Hint Resolve kinv_mode_parseTimeArg : keeps.
Lemma kinv_mode_setTimeArg (i time buffer thread : Z) : kept kernel_inv (mode_setTimeArg i time buffer thread).
Proof. unfold mode_setTimeArg. keep. Qed.
#[local] Hint Resolve kinv_mode_setTimeArg : keeps.
Lemma kinv_set_excapref (i p : Z) : kept kernel_inv (set_excapref i p).
Proof. unfold set_excapref. keep. Qed.
#[local] Hint Resolve kinv_set_excapref : keeps.
Lemma kinv_getExtraCPtr (bufferPtr i : Z) : kept kernel_inv (getExtraCPtr bufferPtr i).
Proof. unfold getExtraCPtr. keep. Qed.
#[local] Hint Resolve kinv_getExtraCPtr : keeps.
Lemma kinv_setExtraBadge (bufferPtr badge i : Z) : kept kernel_inv (setExtraBadge bufferPtr badge i).
Proof. unfold setExtraBadge. keep. Qed.
#[local] Hint Resolve kinv_setExtraBadge : keeps.
Lemma kinv_getReceiveSlots (thread buffer : Z) : kept kernel_inv (getReceiveSlots thread buffer).
Proof. unfold getReceiveSlots. keep. Qed.
#[local] Hint Resolve kinv_getReceiveSlots : keeps.
Lemma kinv_lookupExtraCaps_loop thread b n i : kept kernel_inv (lookupExtraCaps_loop thread b n i).
Proof. revert i. induction n as [|n IH]; intros i; simpl; keep. Qed.
#[local] Hint Resolve kinv_lookupExtraCaps_loop : keeps.
Lemma kinv_lookupExtraCaps (thread bufferPtr info : Z) : kept kernel_inv (lookupExtraCaps thread bufferPtr info).
Proof. unfold lookupExtraCaps. keep. Qed.
#[local] Hint Resolve kinv_lookupExtraCaps : keeps.
Lemma kinv_copyMRs (sender sendBuf receiver recvBuf n : Z) : kept kernel_inv (copyMRs sender sendBuf receiver recvBuf n).
Proof. unfold copyMRs. keep. Qed.
#[local] Hint Resolve kinv_copyMRs : keeps.
Lemma kinv_getRestartPC (thread : Z) : kept kernel_inv (getRestartPC thread).
Proof. unfold getRestartPC. keep. Qed.
#[local] Hint Resolve kinv_getRestartPC : keeps.
Lemma kinv_setNextPC (thread v : Z) : kept kernel_inv (setNextPC thread v).
Proof. unfold setNextPC. keep. Qed.
#[local] Hint Resolve kinv_setNextPC : keeps.
Lemma kinv_setMRs_lookup_failure (receiver receiveIPCBuffer : Z) (luf : lookup_fault) (offset : Z) : kept kernel_inv (setMRs_lookup_failure receiver receiveIPCBuffer luf offset).
Proof. unfold setMRs_lookup_failure. keep. Qed.
#[local] Hint Resolve kinv_setMRs_lookup_failure : keeps.
Lemma kinv_copyMRsFaultReply (sender receiver : Z) (id : MessageID) (length : Z) : kept kernel_inv (copyMRsFaultReply sender receiver id length).
Proof. unfold copyMRsFaultReply. keep. Qed.
#[local] Hint Resolve kinv_copyMRsFaultReply : keeps.
Lemma kinv_copyMRsFault (sender receiver : Z) (id : MessageID) (length receiveIPCBuffer : Z) : kept kernel_inv (copyMRsFault sender receiver id length receiveIPCBuffer).
Proof. unfold copyMRsFault. keep. Qed.
#[local] Hint Resolve kinv_copyMRsFault : keeps.
Lemma kinv_Arch_handleFaultReply (receiver sender : Z) (fault : seL4_Fault) : kept kernel_inv (Arch_handleFaultReply receiver sender fault).
Proof. unfold Arch_handleFaultReply. keep. Qed.
#[local] Hint Resolve kinv_Arch_handleFaultReply : keeps.
Lemma kinv_handleFaultReply (receiver sender : Z) : kept kernel_inv (handleFaultReply receiver sender).
Proof. unfold handleFaultReply. keep. Qed.
#[local] Hint Resolve kinv_handleFaultReply : keeps.
Lemma kinv_Arch_setMRs_fault (sender receiver receiveIPCBuffer : Z) (fault : seL4_Fault) : kept kernel_inv (Arch_setMRs_fault sender receiver receiveIPCBuffer fault).
Proof. unfold Arch_setMRs_fault. keep. Qed.
#[local] Hint Resolve kinv_Arch_setMRs_fault : keeps.
Lemma kinv_schedContext_updateConsumed (sc : Z) : kept kernel_inv (schedContext_updateConsumed sc).
Proof. unfold schedContext_updateConsumed. keep. Qed.
#[local] Hint Resolve kinv_schedContext_updateConsumed : keeps.
Lemma kinv_setMRs_fault (sender receiver receiveIPCBuffer : Z) : kept kernel_inv (setMRs_fault sender receiver receiveIPCBuffer).
Proof. unfold setMRs_fault. keep. Qed.
#[local] Hint Resolve kinv_setMRs_fault : keeps.
Lemma kinv_setMRs_syscall_error (thread receiveIPCBuffer : Z) : kept kernel_inv (setMRs_syscall_error thread receiveIPCBuffer).
Proof. unfold setMRs_syscall_error. keep. Qed.
#[local] Hint Resolve kinv_setMRs_syscall_error : keeps.
Lemma kinv_replyFromKernel_error (thread : Z) : kept kernel_inv (replyFromKernel_error thread).
Proof. unfold replyFromKernel_error. keep. Qed.
#[local] Hint Resolve kinv_replyFromKernel_error : keeps.
Lemma kinv_replyFromKernel_success_empty (thread : Z) : kept kernel_inv (replyFromKernel_success_empty thread).
Proof. unfold replyFromKernel_success_empty. keep. Qed.
#[local] Hint Resolve kinv_replyFromKernel_success_empty : keeps.
End code.

#[export] Hint Resolve kinv_getCurrentTime kinv_setDeadline kinv_ackDeadlineIRQ kinv_read_sip kinv_read_stval
  kinv_write_satp kinv_set_sie_mask kinv_clear_sie_mask kinv_readl kinv_writel kinv_setVSpaceRoot
  kinv_plic_get_claim kinv_plic_complete_claim kinv_plic_mask_irq kinv_plic_irq_set_trigger kinv_getActiveIRQ
  kinv_setIRQTrigger kinv_isIRQPending kinv_maskInterrupt kinv_ackInterrupt kinv_handleSpuriousIRQ
  kinv_load_pte kinv_store_pte kinv_lookupPTSlot_loop kinv_lookupPTSlot kinv_riscvKSASIDTable_get
  kinv_riscvKSASIDTable_set kinv_findVSpaceForASID kinv_setKernelVSpaceRoot kinv_setVMRoot
  kinv_copyGlobalMappings kinv_deleteASIDPool kinv_deleteASID kinv_unmapPageTable_loop kinv_unmapPageTable
  kinv_unmapPage kinv_handleVMFault kinv_tcb_queue_prepend kinv_tcb_queue_append kinv_tcb_queue_insert
  kinv_tcb_queue_remove kinv_tcbEPAppend_find kinv_tcbEPAppend kinv_tcbEPDequeue kinv_invert_l1index
  kinv_ready_queues_index kinv_get_ready_queue kinv_set_ready_queue kinv_get_l1 kinv_set_l1 kinv_get_l2
  kinv_set_l2 kinv_addToBitmap kinv_removeFromBitmap kinv_getHighestPrio kinv_isHighestPrio
  kinv_sc_refill_ready kinv_sc_refill_sufficient kinv_tcbSchedEnqueue kinv_tcbSchedAppend kinv_tcbSchedDequeue
  kinv_tcbReleaseRemove kinv_tcbReadyTime kinv_time_after kinv_find_time_after kinv_tcbReleaseEnqueue
  kinv_refill_unblock_check kinv_sc_sporadic kinv_sc_constant_bandwidth kinv_rescheduleRequired
  kinv_possibleSwitchTo kinv_postpone kinv_Arch_switchToThread kinv_Arch_switchToIdleThread kinv_switchToThread
  kinv_switchToIdleThread kinv_chooseThread kinv_get_dschedule kinv_dschedule_is_end_marker kinv_nextDomain
  kinv_scheduleChooseNewThread kinv_setDomain kinv_setMCPriority kinv_isCurDomainExpired kinv_commitTime
  kinv_switchSchedContext kinv_setNextInterrupt kinv_updateTimestamp kinv_checkDomainTime
  kinv_release_q_non_empty_and_ready kinv_tcbReleaseDequeue kinv_awaken kinv_schedule kinv_updateRestartPC
  kinv_lookupCap kinv_lookupCapAndSlot kinv_mod_mdb kinv_setUntypedCapAsFull kinv_cteInsert kinv_cteMove
  kinv_cteSwap kinv_capSwapForDelete kinv_insertNewCap kinv_Arch_deriveCap kinv_deriveCap kinv_setMR
  kinv_mode_parseTimeArg kinv_mode_setTimeArg kinv_set_excapref kinv_getExtraCPtr kinv_setExtraBadge
  kinv_getReceiveSlots kinv_lookupExtraCaps_loop kinv_lookupExtraCaps kinv_copyMRs kinv_getRestartPC
  kinv_setNextPC kinv_setMRs_lookup_failure kinv_copyMRsFaultReply kinv_copyMRsFault kinv_Arch_handleFaultReply
  kinv_handleFaultReply kinv_Arch_setMRs_fault kinv_schedContext_updateConsumed kinv_setMRs_fault
  kinv_setMRs_syscall_error kinv_replyFromKernel_error kinv_replyFromKernel_success_empty : keeps.
#[export] Hint Resolve cap_wf_set_free cap_wf_null keeps_addrFromKPPtr : keeps.
