(* ===== verification/InvariantIpc.v ===== *)
(** * The kernel invariant: scheduling contexts, replies, notifications, endpoints *)
From S2P Require Import Prelude Words Platform State Machine Keeps DList RefillList Sporadic Queues CapOps CSpace VSpace Thread CNode Message Frames Invariant InvariantCore SchedContext Reply Notification Endpoint.

Section code.
Context `{PlatformOk} `{PrioBound}.


(** ** [SchedContext.v] *)
Lemma kinv_ready_and_sufficient (sc : Z) : kept kernel_inv (ready_and_sufficient sc).
Proof. unfold ready_and_sufficient. keep. Qed.
#[local] Hint Resolve kinv_ready_and_sufficient : keeps.
Lemma kinv_schedContext_resume (sc : Z) : kept kernel_inv (schedContext_resume sc).
Proof. unfold schedContext_resume. keep. Qed.
#[local] Hint Resolve kinv_schedContext_resume : keeps.
Lemma kinv_schedContext_bindTCB (sc tcb : Z) : kept kernel_inv (schedContext_bindTCB sc tcb).
Proof. unfold schedContext_bindTCB. keep. Qed.
#[local] Hint Resolve kinv_schedContext_bindTCB : keeps.
Lemma kinv_schedContext_unbindTCB (sc : Z) : kept kernel_inv (schedContext_unbindTCB sc).
Proof. unfold schedContext_unbindTCB. keep. Qed.
#[local] Hint Resolve kinv_schedContext_unbindTCB : keeps.
Lemma kinv_schedContext_unbindAllTCBs (sc : Z) : kept kernel_inv (schedContext_unbindAllTCBs sc).
Proof. unfold schedContext_unbindAllTCBs. keep. Qed.
#[local] Hint Resolve kinv_schedContext_unbindAllTCBs : keeps.
Lemma kinv_schedContext_donate (sc to : Z) : kept kernel_inv (schedContext_donate sc to).
Proof. unfold schedContext_donate. keep. Qed.
#[local] Hint Resolve kinv_schedContext_donate : keeps.
Lemma kinv_schedContext_bindNtfn (sc ntfn : Z) : kept kernel_inv (schedContext_bindNtfn sc ntfn).
Proof. unfold schedContext_bindNtfn. keep. Qed.
#[local] Hint Resolve kinv_schedContext_bindNtfn : keeps.
Lemma kinv_schedContext_unbindNtfn (sc : Z) : kept kernel_inv (schedContext_unbindNtfn sc).
Proof. unfold schedContext_unbindNtfn. keep. Qed.
#[local] Hint Resolve kinv_schedContext_unbindNtfn : keeps.
Lemma kinv_schedContextMaybeUnbindNtfn (ntfnPtr : Z) : kept kernel_inv (schedContextMaybeUnbindNtfn ntfnPtr).
Proof. unfold schedContextMaybeUnbindNtfn. keep. Qed.
#[local] Hint Resolve kinv_schedContextMaybeUnbindNtfn : keeps.
Lemma kinv_schedContext_unbindReply (sc : Z) : kept kernel_inv (schedContext_unbindReply sc).
Proof. unfold schedContext_unbindReply. keep. Qed.
#[local] Hint Resolve kinv_schedContext_unbindReply : keeps.
Lemma kinv_replyFromKernel_consumed (thread consumed : Z) : kept kernel_inv (replyFromKernel_consumed thread consumed).
Proof. unfold replyFromKernel_consumed. keep. Qed.
#[local] Hint Resolve kinv_replyFromKernel_consumed : keeps.
Lemma kinv_setConsumed (sc thread : Z) (write_msg : bool) : kept kernel_inv (setConsumed sc thread write_msg).
Proof. unfold setConsumed. keep. Qed.
#[local] Hint Resolve kinv_setConsumed : keeps.
Lemma kinv_schedContext_cancelYieldTo (tcb : Z) : kept kernel_inv (schedContext_cancelYieldTo tcb).
Proof. unfold schedContext_cancelYieldTo. keep. Qed.
#[local] Hint Resolve kinv_schedContext_cancelYieldTo : keeps.
Lemma kinv_schedContext_completeYieldTo (yielder : Z) : kept kernel_inv (schedContext_completeYieldTo yielder).
Proof. unfold schedContext_completeYieldTo. keep. Qed.
#[local] Hint Resolve kinv_schedContext_completeYieldTo : keeps.
Lemma kinv_invokeSchedContext_YieldTo (sc : Z) (call : bool) : kept kernel_inv (invokeSchedContext_YieldTo sc call).
Proof. unfold invokeSchedContext_YieldTo. keep. Qed.
#[local] Hint Resolve kinv_invokeSchedContext_YieldTo : keeps.
Lemma kinv_decodeSchedContext_YieldTo (sc : Z) (call : bool) : kept kernel_inv (decodeSchedContext_YieldTo sc call).
Proof. unfold decodeSchedContext_YieldTo. keep. Qed.
#[local] Hint Resolve kinv_decodeSchedContext_YieldTo : keeps.
Lemma kinv_invokeSchedContext_UnbindObject (sc : Z) (c : cap) : kept kernel_inv (invokeSchedContext_UnbindObject sc c).
Proof. unfold invokeSchedContext_UnbindObject. keep. Qed.
#[local] Hint Resolve kinv_invokeSchedContext_UnbindObject : keeps.
Lemma kinv_decodeSchedContext_UnbindObject (sc : Z) : kept kernel_inv (decodeSchedContext_UnbindObject sc).
Proof. unfold decodeSchedContext_UnbindObject. keep. Qed.
#[local] Hint Resolve kinv_decodeSchedContext_UnbindObject : keeps.
Lemma kinv_invokeSchedContext_Bind (sc : Z) (c : cap) : kept kernel_inv (invokeSchedContext_Bind sc c).
Proof. unfold invokeSchedContext_Bind. keep. Qed.
#[local] Hint Resolve kinv_invokeSchedContext_Bind : keeps.
Lemma kinv_decodeSchedContext_Bind (sc : Z) : kept kernel_inv (decodeSchedContext_Bind sc).
Proof. unfold decodeSchedContext_Bind. keep. Qed.
#[local] Hint Resolve kinv_decodeSchedContext_Bind : keeps.
Lemma kinv_invokeSchedContext_Unbind (sc : Z) : kept kernel_inv (invokeSchedContext_Unbind sc).
Proof. unfold invokeSchedContext_Unbind. keep. Qed.
#[local] Hint Resolve kinv_invokeSchedContext_Unbind : keeps.
Lemma kinv_invokeSchedContext_Consumed (sc : Z) (call : bool) : kept kernel_inv (invokeSchedContext_Consumed sc call).
Proof. unfold invokeSchedContext_Consumed. keep. Qed.
#[local] Hint Resolve kinv_invokeSchedContext_Consumed : keeps.
Lemma kinv_decodeSchedContextInvocation (label sc : Z) (call : bool) : kept kernel_inv (decodeSchedContextInvocation label sc call).
Proof. unfold decodeSchedContextInvocation. keep. Qed.
#[local] Hint Resolve kinv_decodeSchedContextInvocation : keeps.

(** ** [Reply.v] *)
Lemma kinv_reply_unlink (reply tcb : Z) : kept kernel_inv (reply_unlink reply tcb).
Proof. unfold reply_unlink. keep. Qed.
#[local] Hint Resolve kinv_reply_unlink : keeps.
Lemma kinv_reply_push (tcb_caller tcb_callee reply : Z) (canDonate : bool) : kept kernel_inv (reply_push tcb_caller tcb_callee reply canDonate).
Proof. unfold reply_push. keep. Qed.
#[local] Hint Resolve kinv_reply_push : keeps.
Lemma kinv_reply_pop (reply tcb : Z) : kept kernel_inv (reply_pop reply tcb).
Proof. unfold reply_pop. keep. Qed.
#[local] Hint Resolve kinv_reply_pop : keeps.
Lemma kinv_reply_remove (reply tcb : Z) : kept kernel_inv (reply_remove reply tcb).
Proof. unfold reply_remove. keep. Qed.
#[local] Hint Resolve kinv_reply_remove : keeps.
Lemma kinv_reply_remove_tcb (tcb : Z) : kept kernel_inv (reply_remove_tcb tcb).
Proof. unfold reply_remove_tcb. keep. Qed.
#[local] Hint Resolve kinv_reply_remove_tcb : keeps.

(** ** [Notification.v] *)
Lemma kinv_ep_ptr_get_queue (epptr : Z) : kept kernel_inv (ep_ptr_get_queue epptr).
Proof. unfold ep_ptr_get_queue. keep. Qed.
#[local] Hint Resolve kinv_ep_ptr_get_queue : keeps.
Lemma kinv_ep_ptr_set_queue (epptr : Z) (queue : tcb_queue) : kept kernel_inv (ep_ptr_set_queue epptr queue).
Proof. unfold ep_ptr_set_queue. keep. Qed.
#[local] Hint Resolve kinv_ep_ptr_set_queue : keeps.
Lemma kinv_ntfn_ptr_get_queue (ntfnPtr : Z) : kept kernel_inv (ntfn_ptr_get_queue ntfnPtr).
Proof. unfold ntfn_ptr_get_queue. keep. Qed.
#[local] Hint Resolve kinv_ntfn_ptr_get_queue : keeps.
Lemma kinv_ntfn_ptr_set_queue (ntfnPtr : Z) (queue : tcb_queue) : kept kernel_inv (ntfn_ptr_set_queue ntfnPtr queue).
Proof. unfold ntfn_ptr_set_queue. keep. Qed.
#[local] Hint Resolve kinv_ntfn_ptr_set_queue : keeps.
Lemma kinv_ntfn_set_active (ntfnPtr badge : Z) : kept kernel_inv (ntfn_set_active ntfnPtr badge).
Proof. unfold ntfn_set_active. keep. Qed.
#[local] Hint Resolve kinv_ntfn_set_active : keeps.
Lemma kinv_doUnbindNotification (ntfnPtr tcbptr : Z) : kept kernel_inv (doUnbindNotification ntfnPtr tcbptr).
Proof. unfold doUnbindNotification. keep. Qed.
#[local] Hint Resolve kinv_doUnbindNotification : keeps.
Lemma kinv_unbindMaybeNotification (ntfnPtr : Z) : kept kernel_inv (unbindMaybeNotification ntfnPtr).
Proof. unfold unbindMaybeNotification. keep. Qed.
#[local] Hint Resolve kinv_unbindMaybeNotification : keeps.
Lemma kinv_unbindNotification (tcb : Z) : kept kernel_inv (unbindNotification tcb).
Proof. unfold unbindNotification. keep. Qed.
#[local] Hint Resolve kinv_unbindNotification : keeps.
Lemma kinv_bindNotification (tcb ntfnPtr : Z) : kept kernel_inv (bindNotification tcb ntfnPtr).
Proof. unfold bindNotification. keep. Qed.
#[local] Hint Resolve kinv_bindNotification : keeps.
Lemma kinv_reorderEP (epptr thread : Z) : kept kernel_inv (reorderEP epptr thread).
Proof. unfold reorderEP. keep. Qed.
#[local] Hint Resolve kinv_reorderEP : keeps.
Lemma kinv_reorderNTFN (ntfnPtr thread : Z) : kept kernel_inv (reorderNTFN ntfnPtr thread).
Proof. unfold reorderNTFN. keep. Qed.
#[local] Hint Resolve kinv_reorderNTFN : keeps.
Lemma kinv_doNBRecvFailedTransfer (thread : Z) : kept kernel_inv (doNBRecvFailedTransfer thread).
Proof. unfold doNBRecvFailedTransfer. keep. Qed.
#[local] Hint Resolve kinv_doNBRecvFailedTransfer : keeps.
Lemma kinv_unblock_not_current (sc : Z) : kept kernel_inv (unblock_not_current sc).
Proof. unfold unblock_not_current. keep. Qed.
#[local] Hint Resolve kinv_unblock_not_current : keeps.
Lemma kinv_cancelSignal (threadPtr ntfnPtr : Z) : kept kernel_inv (cancelSignal threadPtr ntfnPtr).
Proof. unfold cancelSignal. keep. Qed.
#[local] Hint Resolve kinv_cancelSignal : keeps.
Lemma kinv_cancelIPC (tptr : Z) : kept kernel_inv (cancelIPC tptr).
Proof. unfold cancelIPC. keep. Qed.
#[local] Hint Resolve kinv_cancelIPC : keeps.
Lemma kinv_maybeReturnSchedContext (ntfnPtr tcb : Z) : kept kernel_inv (maybeReturnSchedContext ntfnPtr tcb).
Proof. unfold maybeReturnSchedContext. keep. Qed.
#[local] Hint Resolve kinv_maybeReturnSchedContext : keeps.
Lemma kinv_maybeDonateSchedContext (tcb ntfnPtr : Z) : kept kernel_inv (maybeDonateSchedContext tcb ntfnPtr).
Proof. unfold maybeDonateSchedContext. keep. Qed.
#[local] Hint Resolve kinv_maybeDonateSchedContext : keeps.
Lemma kinv_signal_wakeup (tcb ntfnPtr badge : Z) : kept kernel_inv (signal_wakeup tcb ntfnPtr badge).
Proof. unfold signal_wakeup. keep. Qed.
#[local] Hint Resolve kinv_signal_wakeup : keeps.
Lemma kinv_sendSignal (ntfnPtr badge : Z) : kept kernel_inv (sendSignal ntfnPtr badge).
Proof. unfold sendSignal. keep. Qed.
#[local] Hint Resolve kinv_sendSignal : keeps.
Lemma kinv_receiveSignal (thread : Z) (c : cap) (isBlocking : bool) : kept kernel_inv (receiveSignal thread c isBlocking).
Proof. unfold receiveSignal. keep. Qed.
#[local] Hint Resolve kinv_receiveSignal : keeps.
Lemma kinv_cancelAllSignals ntfnPtr : kept kernel_inv (cancelAllSignals ntfnPtr).
Proof. unfold cancelAllSignals. keep. keep_loop (λ _ : Z, True). intros thread _. keep. Qed.
#[local] Hint Resolve kinv_cancelAllSignals : keeps.
Lemma kinv_completeSignal (ntfnPtr tcb : Z) : kept kernel_inv (completeSignal ntfnPtr tcb).
Proof. unfold completeSignal. keep. Qed.
#[local] Hint Resolve kinv_completeSignal : keeps.

(** ** [Endpoint.v] *)
Lemma kinv_transferCaps_loop endpoint b n i info destSlot : kept kernel_inv (transferCaps_loop endpoint b n i info destSlot).
Proof. revert i info destSlot. induction n as [|n IH]; intros i info destSlot; simpl; keep. Qed.
#[local] Hint Resolve kinv_transferCaps_loop : keeps.
Lemma kinv_transferCaps (info endpoint receiver receiveBuffer : Z) : kept kernel_inv (transferCaps info endpoint receiver receiveBuffer).
Proof. unfold transferCaps. keep. Qed.
#[local] Hint Resolve kinv_transferCaps : keeps.
Lemma kinv_doNormalTransfer (sender sendBuffer endpoint badge : Z) (canGrant : bool) (receiver receiveBuffer : Z) : kept kernel_inv (doNormalTransfer sender sendBuffer endpoint badge canGrant receiver receiveBuffer).
Proof. unfold doNormalTransfer. keep. Qed.
#[local] Hint Resolve kinv_doNormalTransfer : keeps.
Lemma kinv_doFaultTransfer (badge sender receiver receiverIPCBuffer : Z) : kept kernel_inv (doFaultTransfer badge sender receiver receiverIPCBuffer).
Proof. unfold doFaultTransfer. keep. Qed.
#[local] Hint Resolve kinv_doFaultTransfer : keeps.
Lemma kinv_doIPCTransfer (sender endpoint badge : Z) (grant : bool) (receiver : Z) : kept kernel_inv (doIPCTransfer sender endpoint badge grant receiver).
Proof. unfold doIPCTransfer. keep. Qed.
#[local] Hint Resolve kinv_doIPCTransfer : keeps.
Lemma kinv_sendIPC (blocking do_call : bool) (badge : Z) (canGrant canGrantReply canDonate : bool) (thread epptr : Z) : kept kernel_inv (sendIPC blocking do_call badge canGrant canGrantReply canDonate thread epptr).
Proof. unfold sendIPC. keep. Qed.
#[local] Hint Resolve kinv_sendIPC : keeps.
Lemma kinv_receiveIPC_from_sender (thread epptr replyPtr : Z) : kept kernel_inv (receiveIPC_from_sender thread epptr replyPtr).
Proof. unfold receiveIPC_from_sender. keep. Qed.
#[local] Hint Resolve kinv_receiveIPC_from_sender : keeps.
Lemma kinv_receiveIPC (thread : Z) (c : cap) (isBlocking : bool) (replyCap : cap) : kept kernel_inv (receiveIPC thread c isBlocking replyCap).
Proof. unfold receiveIPC. keep. Qed.
#[local] Hint Resolve kinv_receiveIPC : keeps.
Lemma kinv_restart_thread_if_no_fault (thread : Z) : kept kernel_inv (restart_thread_if_no_fault thread).
Proof. unfold restart_thread_if_no_fault. keep. Qed.
#[local] Hint Resolve kinv_restart_thread_if_no_fault : keeps.
Lemma kinv_cancelAllIPC epptr : kept kernel_inv (cancelAllIPC epptr).
Proof. unfold cancelAllIPC. keep; keep_loop (λ _ : Z, True); intros thread _; keep. Qed.
#[local] Hint Resolve kinv_cancelAllIPC : keeps.
Lemma kinv_cancelBadgedSends epptr badge : kept kernel_inv (cancelBadgedSends epptr badge).
Proof. unfold cancelBadgedSends. keep. keep_loop (λ _ : Z * tcb_queue, True). intros [] _. keep. Qed.
#[local] Hint Resolve kinv_cancelBadgedSends : keeps.
Lemma kinv_validTimeoutHandler (tptr : Z) : kept kernel_inv (validTimeoutHandler tptr).
Proof. unfold validTimeoutHandler. keep. Qed.
#[local] Hint Resolve kinv_validTimeoutHandler : keeps.
Lemma kinv_sendFaultIPC (tptr : Z) (handlerCap : cap) (can_donate : bool) : kept kernel_inv (sendFaultIPC tptr handlerCap can_donate).
Proof. unfold sendFaultIPC. keep. Qed.
#[local] Hint Resolve kinv_sendFaultIPC : keeps.
Lemma kinv_handleNoFaultHandler (tptr : Z) : kept kernel_inv (handleNoFaultHandler tptr).
Proof. unfold handleNoFaultHandler. keep. Qed.
#[local] Hint Resolve kinv_handleNoFaultHandler : keeps.
Lemma kinv_handleFault (tptr : Z) : kept kernel_inv (handleFault tptr).
Proof. unfold handleFault. keep. Qed.
#[local] Hint Resolve kinv_handleFault : keeps.
Lemma kinv_handleTimeout (tptr : Z) : kept kernel_inv (handleTimeout tptr).
Proof. unfold handleTimeout. keep. Qed.
#[local] Hint Resolve kinv_handleTimeout : keeps.
Lemma kinv_doReplyTransfer (sender reply : Z) (grant : bool) : kept kernel_inv (doReplyTransfer sender reply grant).
Proof. unfold doReplyTransfer. keep. Qed.
#[local] Hint Resolve kinv_doReplyTransfer : keeps.
Lemma kinv_suspend (target : Z) : kept kernel_inv (suspend target).
Proof. unfold suspend. keep. Qed.
#[local] Hint Resolve kinv_suspend : keeps.
Lemma kinv_restart (target : Z) : kept kernel_inv (restart target).
Proof. unfold restart. keep. Qed.
#[local] Hint Resolve kinv_restart : keeps.
Lemma kinv_Arch_activateIdleThread (tcb : Z) : kept kernel_inv (Arch_activateIdleThread tcb).
Proof. unfold Arch_activateIdleThread. keep. Qed.
#[local] Hint Resolve kinv_Arch_activateIdleThread : keeps.
Lemma kinv_activateThread : kept kernel_inv activateThread.
Proof. unfold activateThread. keep. Qed.
#[local] Hint Resolve kinv_activateThread : keeps.
Lemma kinv_setPriority tptr prio : 0 ≤ prio ≤ prio_bound → kept kernel_inv (setPriority tptr prio).
Proof.
  intros Hp. assert (kept kernel_inv (mod_tcb tptr (set_tcbPriority prio))) by (apply kinv_mod_tcb; by intros t (?&?&?&?)).
  unfold setPriority. keep.
Qed.
#[local] Hint Resolve kinv_setPriority : keeps.
Lemma kinv_endTimeslice (can_timeout_fault : bool) : kept kernel_inv (endTimeslice can_timeout_fault).
Proof. unfold endTimeslice. keep. Qed.
#[local] Hint Resolve kinv_endTimeslice : keeps.
Lemma kinv_chargeBudget (consumed : Z) (canTimeoutFault : bool) : kept kernel_inv (chargeBudget consumed canTimeoutFault).
Proof. unfold chargeBudget. keep. Qed.
#[local] Hint Resolve kinv_chargeBudget : keeps.
Lemma kinv_checkBudget : kept kernel_inv checkBudget.
Proof. unfold checkBudget. keep. Qed.
#[local] Hint Resolve kinv_checkBudget : keeps.
Lemma kinv_checkBudgetRestart : kept kernel_inv checkBudgetRestart.
Proof. unfold checkBudgetRestart. keep. Qed.
#[local] Hint Resolve kinv_checkBudgetRestart : keeps.
End code.

#[export] Hint Resolve kinv_ready_and_sufficient kinv_schedContext_resume kinv_schedContext_bindTCB
  kinv_schedContext_unbindTCB kinv_schedContext_unbindAllTCBs kinv_schedContext_donate
  kinv_schedContext_bindNtfn kinv_schedContext_unbindNtfn kinv_schedContextMaybeUnbindNtfn
  kinv_schedContext_unbindReply kinv_replyFromKernel_consumed kinv_setConsumed kinv_schedContext_cancelYieldTo
  kinv_schedContext_completeYieldTo kinv_invokeSchedContext_YieldTo kinv_decodeSchedContext_YieldTo
  kinv_invokeSchedContext_UnbindObject kinv_decodeSchedContext_UnbindObject kinv_invokeSchedContext_Bind
  kinv_decodeSchedContext_Bind kinv_invokeSchedContext_Unbind kinv_invokeSchedContext_Consumed
  kinv_decodeSchedContextInvocation kinv_reply_unlink kinv_reply_push kinv_reply_pop kinv_reply_remove
  kinv_reply_remove_tcb kinv_ep_ptr_get_queue kinv_ep_ptr_set_queue kinv_ntfn_ptr_get_queue
  kinv_ntfn_ptr_set_queue kinv_ntfn_set_active kinv_doUnbindNotification kinv_unbindMaybeNotification
  kinv_unbindNotification kinv_bindNotification kinv_reorderEP kinv_reorderNTFN kinv_doNBRecvFailedTransfer
  kinv_unblock_not_current kinv_cancelSignal kinv_cancelIPC kinv_maybeReturnSchedContext
  kinv_maybeDonateSchedContext kinv_signal_wakeup kinv_sendSignal kinv_receiveSignal kinv_cancelAllSignals
  kinv_completeSignal kinv_transferCaps_loop kinv_transferCaps kinv_doNormalTransfer kinv_doFaultTransfer
  kinv_doIPCTransfer kinv_sendIPC kinv_receiveIPC_from_sender kinv_receiveIPC kinv_restart_thread_if_no_fault
  kinv_cancelAllIPC kinv_cancelBadgedSends kinv_validTimeoutHandler kinv_sendFaultIPC kinv_handleNoFaultHandler
  kinv_handleFault kinv_handleTimeout kinv_doReplyTransfer kinv_suspend kinv_restart
  kinv_Arch_activateIdleThread kinv_activateThread kinv_setPriority kinv_endTimeslice kinv_chargeBudget
  kinv_checkBudget kinv_checkBudgetRestart : keeps.
