(* ===== verification/InvariantDelete.v ===== *)
(** * The kernel invariant: deletion, CNode and untyped invocations *)
From S2P Require Import Prelude Words Platform State Machine Keeps DList RefillList Sporadic Queues CapOps CSpace VSpace Thread CNode Message Frames Invariant InvariantCore InvariantIpc SchedContext Reply Notification Endpoint Delete CNodeInv Untyped.

Section code.
Context `{PlatformOk} `{PrioBound}.
Lemma maskCapRights_wf r c : cap_wf c → cap_wf (maskCapRights r c).
Proof.
  destruct c; try done. unfold maskCapRights, Arch_maskCapRights, maskVMRights; simpl. intros (? & ? & ?).
  split_and!; try done; repeat case_match; unfold VMReadOnly, VMReadWrite, VMKernelOnly; lia.
Qed.
Lemma updateCapData_wf b d c : cap_wf c → cap_wf (updateCapData b d c).
Proof.
  destruct c; try (intros Hc; unfold updateCapData; simpl; by repeat case_match). intros Hc. unfold updateCapData; simpl.
  assert (0 ≤ seL4_CNode_CapData_get_guardSize d < 2 ^ 6) as Hg.
  { unfold seL4_CNode_CapData_get_guardSize. rewrite land_MASK by lia. by apply Z.mod_pos_bound. }
  case_match eqn:Hlt; [done|]. apply Z.ltb_ge in Hlt. destruct Hc as (? & _).
  rewrite wrap_small in Hlt by (unfold is_word; lia). unfold wordBits in Hlt. simpl.
  rewrite land_MASK by lia. split_and!; [lia..| |]; apply Z.mod_pos_bound; lia.
Qed.
Lemma zombie_number_wf c n c' : cap_wf c → cap_zombie_cap_set_capZombieNumber c n = Some c' → cap_wf c'.
Proof. destruct c; try done. intros Hc [= <-]. done. Qed.
#[local] Hint Resolve maskCapRights_wf updateCapData_wf : keeps.

(** The sizes the decoding of a retype leaves: of a CNode, an untyped and a scheduling context. *)
Definition user_size_wf (t userSize : Z) : Prop :=
  (t = seL4_CapTableObject → 1 ≤ userSize ≤ 33) ∧
  (t = seL4_UntypedObject → seL4_MinUntypedBits ≤ userSize ≤ seL4_MaxUntypedBits) ∧
  (t = seL4_SchedContextObject → seL4_MinSchedContextBits ≤ userSize ≤ seL4_MaxUntypedBits).
Lemma new_slots_wf base n m : map_Forall (λ _ c, cap_wf (cte_cap c)) m → map_Forall (λ _ c, cap_wf (cte_cap c)) (new_slots base n m).
Proof. revert base. induction n as [|n IH]; intros base Hm; simpl; [done|]. by apply map_Forall_insert_2, IH. Qed.
Lemma kinv_new_slots base n : kept kernel_inv (modify (λ s, set_ctes (new_slots base n (ctes s)) s)).
Proof. apply keeps_modify. intros s []. split; try done. by apply new_slots_wf. Qed.
#[local] Hint Resolve kinv_new_slots : keeps.
Lemma decoded_size_wf t userSize bits : is_word userSize → getObjectSize t userSize = Some bits →
  ¬ (64 ≤ userSize ∨ seL4_MaxUntypedBits < bits) → ¬ (t = seL4_CapTableObject ∧ userSize = 0) →
  ¬ (t = seL4_UntypedObject ∧ userSize < seL4_MinUntypedBits) →
  ¬ (t = seL4_SchedContextObject ∧ userSize < seL4_MinSchedContextBits) → user_size_wf t userSize.
Proof.
  intros Hw Hs Hb Hc Hu Hsc. unfold is_word in Hw. split_and!; intros ->; injection Hs as <-; try lia.
  rewrite wrap_small in Hb by (unfold is_word, seL4_SlotBits; lia). unfold seL4_MaxUntypedBits, seL4_SlotBits in Hb. lia.
Qed.

(** ** [Delete.v] *)
Lemma kinv_preemptionPoint : kept kernel_inv preemptionPoint.
Proof. unfold preemptionPoint. keep. Qed.
#[local] Hint Resolve kinv_preemptionPoint : keeps.
Lemma kinv_setIRQState (irqState : irq_state) (irq : Z) : kept kernel_inv (setIRQState irqState irq).
Proof. unfold setIRQState. keep. Qed.
#[local] Hint Resolve kinv_setIRQState : keeps.
Lemma kinv_isIRQActive (irq : Z) : kept kernel_inv (isIRQActive irq).
Proof. unfold isIRQActive. keep. Qed.
#[local] Hint Resolve kinv_isIRQActive : keeps.
Lemma kinv_deletedIRQHandler (irq : Z) : kept kernel_inv (deletedIRQHandler irq).
Proof. unfold deletedIRQHandler. keep. Qed.
#[local] Hint Resolve kinv_deletedIRQHandler : keeps.
Lemma kinv_Arch_postCapDeletion (c : cap) : kept kernel_inv (Arch_postCapDeletion c).
Proof. unfold Arch_postCapDeletion. keep. Qed.
#[local] Hint Resolve kinv_Arch_postCapDeletion : keeps.
Lemma kinv_postCapDeletion (c : cap) : kept kernel_inv (postCapDeletion c).
Proof. unfold postCapDeletion. keep. Qed.
#[local] Hint Resolve kinv_postCapDeletion : keeps.
Lemma kinv_Arch_finaliseCap (c : cap) (final : bool) : kept kernel_inv (Arch_finaliseCap c final).
Proof. unfold Arch_finaliseCap. keep. Qed.
#[local] Hint Resolve kinv_Arch_finaliseCap : keeps.
Lemma kinv_Arch_prepareThreadDelete (thread : Z) : kept kernel_inv (Arch_prepareThreadDelete thread).
Proof. unfold Arch_prepareThreadDelete. keep. Qed.
#[local] Hint Resolve kinv_Arch_prepareThreadDelete : keeps.
Lemma kinv_no_remainder : kept kernel_inv no_remainder.
Proof. unfold no_remainder. keep. Qed.
#[local] Hint Resolve kinv_no_remainder : keeps.
Lemma kinv_finaliseCap_with del c final exposed : (∀ irq, kept kernel_inv (del irq)) → cap_wf c →
  keeps kernel_inv (finaliseCap_with del c final exposed) (λ r, cap_wf r.1 ∧ cap_wf r.2).
Proof.
  intros Hd Hc. unfold finaliseCap_with, no_remainder, Arch_finaliseCap. keep; simpl.
  - split; [right|done]. destruct Hc; lia.
  - split; [by left|done].
Qed.
#[local] Hint Resolve kinv_finaliseCap_with : keeps.
Lemma kinv_emptySlot (slot : Z) (cleanupInfo : cap) : kept kernel_inv (emptySlot slot cleanupInfo).
Proof. unfold emptySlot. keep. Qed.
#[local] Hint Resolve kinv_emptySlot : keeps.
Lemma kinv_cteDeleteOne (slot : Z) : kept kernel_inv (cteDeleteOne slot).
Proof. unfold cteDeleteOne. keep. Qed.
#[local] Hint Resolve kinv_cteDeleteOne : keeps.
Lemma kinv_deletingIRQHandler irq : kept kernel_inv (deletingIRQHandler irq).
Proof. unfold deletingIRQHandler. keep. Qed.
Lemma kinv_finaliseCap c final exposed : cap_wf c → keeps kernel_inv (finaliseCap c final exposed) (λ r, cap_wf r.1 ∧ cap_wf r.2).
Proof. intros Hc. apply kinv_finaliseCap_with; [apply kinv_deletingIRQHandler|done]. Qed.
#[local] Hint Resolve kinv_deletingIRQHandler kinv_finaliseCap : keeps.
Lemma kinv_reduceZombie_with del slot immediate : (∀ x b, kept kernel_inv (del x b)) →
  kept kernel_inv (reduceZombie_with del slot immediate).
Proof.
  intros Hd. unfold reduceZombie_with. keep. apply kinv_set_cap. eapply zombie_number_wf; [|eassumption]; done.
Qed.
#[local] Hint Resolve kinv_reduceZombie_with : keeps.
Lemma kinv_finaliseSlot_with del slot immediate : (∀ x b, kept kernel_inv (del x b)) →
  kept kernel_inv (finaliseSlot_with del slot immediate).
Proof.
  intros Hd. unfold finaliseSlot_with. keep_loop (λ _ : unit, True). intros [] _. keep.
  apply kinv_set_cap. match goal with H : cap_wf _ ∧ _ |- _ => apply H end.
Qed.
#[local] Hint Resolve kinv_finaliseSlot_with : keeps.
Lemma kinv_cteDelete_with del slot exposed : (∀ x b, kept kernel_inv (del x b)) →
  kept kernel_inv (cteDelete_with del slot exposed).
Proof. intros Hd. unfold cteDelete_with. keep. Qed.
Lemma kinv_cteDelete slot exposed : kept kernel_inv (cteDelete slot exposed).
Proof. apply kinv_cteDelete_with. intros x b. apply kinv_cteDelete_with. intros. apply keeps_stuck. Qed.
#[local] Hint Resolve kinv_cteDelete_with kinv_cteDelete : keeps.
Lemma kinv_cteRevoke slot : kept kernel_inv (cteRevoke slot).
Proof. unfold cteRevoke. keep_loop (λ _ : unit, True). intros [] _. keep. Qed.
#[local] Hint Resolve kinv_cteRevoke : keeps.

(** ** [CNodeInv.v] *)
Lemma kinv_excap i : keeps kernel_inv (excap i) cap_wf.
Proof. unfold excap. keep. Qed.
#[local] Hint Resolve kinv_excap : keeps.
Lemma kinv_missing_capability_ret (wasSource : bool) (depth : Z) : kept kernel_inv (missing_capability_ret wasSource depth).
Proof. unfold missing_capability_ret. keep. Qed.
#[local] Hint Resolve kinv_missing_capability_ret : keeps.
Lemma kinv_invokeCNodeRevoke (destSlot : Z) : kept kernel_inv (invokeCNodeRevoke destSlot).
Proof. unfold invokeCNodeRevoke. keep. Qed.
#[local] Hint Resolve kinv_invokeCNodeRevoke : keeps.
Lemma kinv_invokeCNodeDelete (destSlot : Z) : kept kernel_inv (invokeCNodeDelete destSlot).
Proof. unfold invokeCNodeDelete. keep. Qed.
#[local] Hint Resolve kinv_invokeCNodeDelete : keeps.
Lemma kinv_invokeCNodeCancelBadgedSends (c : cap) : kept kernel_inv (invokeCNodeCancelBadgedSends c).
Proof. unfold invokeCNodeCancelBadgedSends. keep. Qed.
#[local] Hint Resolve kinv_invokeCNodeCancelBadgedSends : keeps.
Lemma kinv_invokeCNodeInsert c src dest : cap_wf c → kept kernel_inv (invokeCNodeInsert c src dest).
Proof. intros Hc. unfold invokeCNodeInsert. keep. Qed.
#[local] Hint Resolve kinv_invokeCNodeInsert : keeps.
Lemma kinv_invokeCNodeMove c src dest : cap_wf c → kept kernel_inv (invokeCNodeMove c src dest).
Proof. intros Hc. unfold invokeCNodeMove. keep. Qed.
#[local] Hint Resolve kinv_invokeCNodeMove : keeps.
Lemma kinv_invokeCNodeRotate cap1 cap2 slot1 slot2 slot3 : cap_wf cap1 → cap_wf cap2 →
  kept kernel_inv (invokeCNodeRotate cap1 cap2 slot1 slot2 slot3).
Proof. intros HX1 HX2. unfold invokeCNodeRotate. keep. Qed.
#[local] Hint Resolve kinv_invokeCNodeRotate : keeps.
Lemma kinv_decodeCNode_newCap lbl len slot b :
  keeps kernel_inv (decodeCNode_newCap lbl len slot b) (λ r, match r with inr (c, _) => cap_wf c | inl _ => True end).
Proof. unfold decodeCNode_newCap. keep; [by destruct (status_ok _)..|by apply updateCapData_wf]. Qed.
#[local] Hint Resolve kinv_decodeCNode_newCap : keeps.
Lemma kinv_decodeCNode_transfer (invLabel length destSlot buffer : Z) : kept kernel_inv (decodeCNode_transfer invLabel length destSlot buffer).
Proof. unfold decodeCNode_transfer. keep. Qed.
#[local] Hint Resolve kinv_decodeCNode_transfer : keeps.
Lemma kinv_decodeCNode_rotate (length destSlot buffer : Z) : kept kernel_inv (decodeCNode_rotate length destSlot buffer).
Proof. unfold decodeCNode_rotate. keep. Qed.
#[local] Hint Resolve kinv_decodeCNode_rotate : keeps.
Lemma kinv_decodeCNodeInvocation (invLabel length : Z) (c : cap) (buffer : Z) : kept kernel_inv (decodeCNodeInvocation invLabel length c buffer).
Proof. unfold decodeCNodeInvocation. keep. Qed.
#[local] Hint Resolve kinv_decodeCNodeInvocation : keeps.

(** ** [Untyped.v] *)
Lemma kinv_clearMemory base bits : kept kernel_inv (clearMemory base bits).
Proof.
  apply keeps_modify. intros s []. split; simpl; try done; intros k x [Hk _]%map_lookup_filter_Some; eauto.
Qed.
#[local] Hint Resolve kinv_clearMemory : keeps.
Lemma kinv_createObject t base userSize dev : user_size_wf t userSize →
  keeps kernel_inv (createObject t base userSize dev) cap_wf.
Proof.
  intros (Hcn & Hut & Hsc). unfold createObject. repeat (case_match; [|]);
    repeat match goal with H : (_ =? _) = true |- _ => apply Z.eqb_eq in H end; keep.
  - unfold Arch_createObject in *. repeat case_match; simplify_eq; done.
  - apply keeps_modify. intros s []. split; try done. apply map_Forall_insert_2; [|done].
    match goal with H : ∃ s, _ ∧ _ |- _ => destruct H as (s0 & HI & ->) end. split_and!; try done; apply HI.
  - simpl. pose proof (Hcn ltac:(done)). lia.
  - by apply Hut.
  - by apply Hsc.
Qed.
#[local] Hint Resolve kinv_createObject : keeps.
Lemma kinv_createNewObjects t parent dest off len base userSize dev : user_size_wf t userSize →
  kept kernel_inv (createNewObjects t parent dest off len base userSize dev).
Proof. intros Hu. unfold createNewObjects. keep. Qed.
#[local] Hint Resolve kinv_createNewObjects : keeps.
Lemma kinv_resetUntypedCap slot : kept kernel_inv (resetUntypedCap slot).
Proof. unfold resetUntypedCap. keep. keep_loop (λ _ : Z, True). intros off _. keep. Qed.
#[local] Hint Resolve kinv_resetUntypedCap : keeps.
Lemma kinv_invokeUntyped_Retype slot reset base t userSize dest off len dev : user_size_wf t userSize →
  kept kernel_inv (invokeUntyped_Retype slot reset base t userSize dest off len dev).
Proof.
  intros Hu. unfold invokeUntyped_Retype. keep. apply kinv_mod_cte. intros c'. apply cap_wf_set_free.
Qed.
#[local] Hint Resolve kinv_invokeUntyped_Retype : keeps.
Lemma kinv_ensureEmptySlots dest n i : kept kernel_inv (ensureEmptySlots dest n i).
Proof. revert i. induction n as [|n IH]; intros i; simpl; keep. Qed.
#[local] Hint Resolve kinv_ensureEmptySlots : keeps.
Lemma kinv_decodeUntyped_place slot c t userSize bits dest off len : user_size_wf t userSize →
  kept kernel_inv (decodeUntyped_place slot c t userSize bits dest off len).
Proof. intros Hu. unfold decodeUntyped_place. keep. Qed.
#[local] Hint Resolve kinv_decodeUntyped_place : keeps.
Lemma kinv_decodeUntypedInvocation lbl len slot c call buffer : kept kernel_inv (decodeUntypedInvocation lbl len slot c call buffer).
Proof.
  unfold decodeUntypedInvocation. keep; apply kinv_decodeUntyped_place; eapply decoded_size_wf; try eassumption;
    repeat match goal with
    | H : (_ || _) = false |- _ => apply orb_false_iff in H as [??]
    | H : (_ && _) = false |- _ => apply andb_false_iff in H
    | H : (_ <=? _) = false |- _ => apply Z.leb_gt in H
    | H : (_ <? _) = false |- _ => apply Z.ltb_ge in H
    end; rewrite ?Z.eqb_neq, ?Z.ltb_ge in *; unfold wordBits in *; lia.
Qed.
#[local] Hint Resolve kinv_decodeUntypedInvocation : keeps.
End code.

#[export] Hint Resolve kinv_preemptionPoint kinv_setIRQState kinv_isIRQActive kinv_deletedIRQHandler
  kinv_Arch_postCapDeletion kinv_postCapDeletion kinv_Arch_finaliseCap kinv_Arch_prepareThreadDelete
  kinv_no_remainder kinv_finaliseCap_with kinv_emptySlot kinv_cteDeleteOne kinv_deletingIRQHandler
  kinv_finaliseCap kinv_reduceZombie_with kinv_finaliseSlot_with kinv_cteDelete_with kinv_cteDelete
  kinv_cteRevoke kinv_excap kinv_missing_capability_ret kinv_invokeCNodeRevoke kinv_invokeCNodeDelete
  kinv_invokeCNodeCancelBadgedSends kinv_invokeCNodeInsert kinv_invokeCNodeMove kinv_invokeCNodeRotate
  kinv_decodeCNode_newCap kinv_decodeCNode_transfer kinv_decodeCNode_rotate kinv_decodeCNodeInvocation
  kinv_clearMemory kinv_createObject kinv_createNewObjects kinv_resetUntypedCap kinv_invokeUntyped_Retype
  kinv_ensureEmptySlots kinv_decodeUntyped_place kinv_decodeUntypedInvocation : keeps.
#[export] Hint Resolve maskCapRights_wf updateCapData_wf : keeps.
