(* ===== verification/InvariantKernel.v ===== *)
(** * The kernel invariant: the remaining invocations and the kernel entries *)
From S2P Require Import Prelude Words Platform State Machine Keeps DList RefillList Sporadic Queues CapOps CSpace VSpace Thread CNode Message Frames Invariant InvariantCore InvariantIpc InvariantDelete SchedContext Reply Notification Endpoint Delete CNodeInv Untyped MmuInv Domain Interrupt SchedControl TcbInv Syscall.

Section code.
Context `{PlatformOk} `{PrioBound}.
Lemma status_ok_inv e : negb (status_ok e) = false → e = EXCEPTION_NONE.
Proof. by destruct e. Qed.
(** What a check that returned no error has established *)
Ltac status_facts := repeat match goal with
  | H : negb (status_ok ?e) = false, HX2 : ?e = EXCEPTION_NONE → _ |- _ => specialize (HX2 (status_ok_inv _ H)) end.

(** The invariant, with a fixed domain schedule or start of the schedule *)
Definition schedule_is (l : list Z) (start : Z) (s : kstate) : Prop :=
  kernel_inv s ∧ ksDomSchedule s = l ∧ ksDomScheduleStart s = start.
#[global] Instance schedule_is_err l st : ErrFrame (schedule_is l st).
Proof. split; intros v s [? ?]; (split; [|done]); by apply kinv_err. Qed.
#[global] Instance schedule_is_run l st : RunFrame (schedule_is l st).
Proof. split; [intros s p t f [? ?] ?|intros v s [? ?]]; (split; [|done]); by apply kinv_run. Qed.
Lemma schedule_is_wlp {A} (m : K A) Q s : keeps (schedule_is (ksDomSchedule s) (ksDomScheduleStart s)) m Q → kernel_inv s →
  wlp m (λ a s', (kernel_inv s' ∧ ksDomSchedule s' = ksDomSchedule s ∧ ksDomScheduleStart s' = ksDomScheduleStart s) ∧ Q a) s.
Proof. intros Hm HI. by apply (keeps_wlp _ _ _ _ Hm). Qed.

Lemma keeps_is_end_marker I index : keeps I (dschedule_is_end_marker index)
  (λ b, ∃ s d, I s ∧ ksDomSchedule s !! Z.to_nat index = Some d ∧ b = (d =? 0)).
Proof.
  eapply (keeps_bind _ _ _ (λ d, ∃ s, I s ∧ ksDomSchedule s !! Z.to_nat index = Some d)).
  - eapply keeps_bind; [apply keeps_get_state|]. intros s Hs. eapply keeps_conseq; [apply keeps_deref|]. eauto.
  - intros d (s & ? & ?). apply keeps_ret. eauto.
Qed.
#[local] Hint Resolve keeps_is_end_marker : keeps.
(** The code up to the change of the schedule, which leaves the schedule alone *)
Ltac schedule_steps := repeat first
  [ apply wlp_bind; eapply wlp_mono; [apply schedule_is_wlp; [keep_call|done]|]; cbv beta; intros ? ? ((? & ? & ?) & ?)
  | match goal with |- wlp (if ?b then _ else _) _ _ => destruct b eqn:?; [apply keeps_wlp; [keep|done]|] end ].
Ltac bool_facts := repeat match goal with
  | H : (_ || _) = false |- _ => apply orb_false_iff in H as [??]
  | H : (_ && _) = false |- _ => apply andb_false_iff in H
  | H : (_ <=? _) = false |- _ => apply Z.leb_gt in H
  | H : (_ <? _) = false |- _ => apply Z.ltb_ge in H
  | H : (_ =? _) = false |- _ => apply Z.eqb_neq in H
  end; rewrite ?negb_false_iff, ?Z.eqb_neq, ?Z.eqb_eq in *.

(** The domain and the duration come back out of a packed schedule entry. *)
Lemma dschedule_make_fields domain duration : 0 ≤ domain < 256 → 0 ≤ duration ≤ DSCHED_MAX_DURATION →
  dschedule_domain (dschedule_make domain duration) = domain ∧ dschedule_duration (dschedule_make domain duration) = duration.
Proof.
  change DSCHED_MAX_DURATION with (Z.ones 56). intros Hd Ht. rewrite Z.ones_equiv in Ht.
  unfold dschedule_make, dschedule_domain, dschedule_duration, DSCHED_DOMAIN_SHIFT. change DSCHED_MAX_DURATION with (Z.ones 56).
  rewrite wrap_small by (rewrite Z.shiftl_mul_pow2 by lia; unfold is_word; lia).
  split.
  - rewrite Z.shiftr_lor, Z.shiftr_shiftl_l, Z.sub_diag, Z.shiftl_0_r, Z.shiftr_div_pow2, (Z.div_small duration) by lia.
    apply Z.lor_0_r.
  - rewrite Z.land_lor_distr_l, !Z.land_ones, Z.shiftl_mul_pow2, Z.mod_mul, (Z.mod_small duration) by lia. done.
Qed.
Lemma asid_base_wf i : 0 ≤ i < nASIDPools → asid_wf (i <<w asidLowBits) ∧ (i <<w asidLowBits) mod 2 ^ asidLowBits = 0.
Proof.
  change nASIDPools with 128. intros Hi. unfold asid_wf, asidLowBits. rewrite Z.shiftl_mul_pow2 by lia.
  rewrite wrap_small by (unfold is_word; lia). split; [lia|]. apply Z.mod_mul. lia.
Qed.
Lemma asid_pool_member_wf base i : asid_wf base → base mod 2 ^ asidLowBits = 0 → 0 ≤ i < BIT asidLowBits → asid_wf (base +w i).
Proof.
  change (BIT asidLowBits) with 512. change (2 ^ asidLowBits) with 512. unfold asid_wf. intros Hb Hm Hi.
  rewrite wrap_small by (unfold is_word; lia). apply Z.div_exact in Hm; lia.
Qed.

(** ** [MmuInv.v] *)
Lemma kinv_checkVPAlignment (sz w : Z) : kept kernel_inv (checkVPAlignment sz w).
Proof. unfold checkVPAlignment. keep. Qed.
#[local] Hint Resolve kinv_checkVPAlignment : keeps.
Lemma kinv_find_free n i used : (∀ j, kept kernel_inv (used j)) →
  keeps kernel_inv (find_free n i used) (λ r, i ≤ r ≤ i + Z.of_nat n).
Proof.
  intros Hu. revert i. induction n as [|n IH]; intros i; cbn [find_free]; [apply keeps_ret; lia|].
  eapply keeps_bind; [apply Hu|]. intros b _. destruct b; [|apply keeps_ret; lia].
  eapply keeps_conseq; [apply IH|]. cbv beta. lia.
Qed.
#[local] Hint Extern 1 (keeps kernel_inv (find_free _ _ _) _) => (apply kinv_find_free; intros; keep) : keeps.
#[local] Hint Resolve kinv_find_free : keeps.
Lemma kinv_failed_lookup_ret : kept kernel_inv failed_lookup_ret.
Proof. unfold failed_lookup_ret. keep. Qed.
#[local] Hint Resolve kinv_failed_lookup_ret : keeps.
Lemma kinv_performPageTableInvocationMap c slot pte ptSlot : cap_wf c →
  kept kernel_inv (performPageTableInvocationMap c slot pte ptSlot).
Proof. intros Hc. unfold performPageTableInvocationMap. keep. Qed.
#[local] Hint Resolve kinv_performPageTableInvocationMap : keeps.
Lemma kinv_performPageTableInvocationUnmap (c : cap) (ctSlot : Z) : kept kernel_inv (performPageTableInvocationUnmap c ctSlot).
Proof. unfold performPageTableInvocationUnmap. keep. Qed.
#[local] Hint Resolve kinv_performPageTableInvocationUnmap : keeps.
Lemma kinv_updatePTE (pte base : Z) : kept kernel_inv (updatePTE pte base).
Proof. unfold updatePTE. keep. Qed.
#[local] Hint Resolve kinv_updatePTE : keeps.
Lemma kinv_performPageInvocationMapPTE c slot pte base : cap_wf c →
  kept kernel_inv (performPageInvocationMapPTE c slot pte base).
Proof. intros Hc. unfold performPageInvocationMapPTE. keep. Qed.
#[local] Hint Resolve kinv_performPageInvocationMapPTE : keeps.
Lemma kinv_performPageInvocationUnmap c slot : kept kernel_inv (performPageInvocationUnmap c slot).
Proof.
  unfold performPageInvocationUnmap. keep. apply kinv_set_cap.
  match goal with H : cap_wf _ |- _ => destruct H as (_ & ? & ?) end. done.
Qed.
#[local] Hint Resolve kinv_performPageInvocationUnmap : keeps.
Lemma kinv_performPageGetAddress (vbase_ptr : Z) (call : bool) : kept kernel_inv (performPageGetAddress vbase_ptr call).
Proof. unfold performPageGetAddress. keep. Qed.
#[local] Hint Resolve kinv_performPageGetAddress : keeps.
Lemma kinv_performASIDControlInvocation frame slot parent base : cap_wf (cap_asid_pool_cap base frame) →
  kept kernel_inv (performASIDControlInvocation frame slot parent base).
Proof. intros Hb. unfold performASIDControlInvocation. keep. Qed.
#[local] Hint Resolve kinv_performASIDControlInvocation : keeps.
Lemma kinv_performASIDPoolInvocation asid pool slot : asid_wf asid → kept kernel_inv (performASIDPoolInvocation asid pool slot).
Proof. intros Ha. unfold performASIDPoolInvocation. keep. Qed.
#[local] Hint Resolve kinv_performASIDPoolInvocation : keeps.
Lemma kinv_decodeRISCVPageTableInvocation lbl len slot c buffer :
  kept kernel_inv (decodeRISCVPageTableInvocation lbl len slot c buffer).
Proof. unfold decodeRISCVPageTableInvocation. keep. Qed.
#[local] Hint Resolve kinv_decodeRISCVPageTableInvocation : keeps.
Lemma kinv_checkFrameMapping (c : cap) (asid vaddr old : Z) : kept kernel_inv (checkFrameMapping c asid vaddr old).
Proof. unfold checkFrameMapping. keep. Qed.
#[local] Hint Resolve kinv_checkFrameMapping : keeps.
Lemma kinv_decodeRISCVFrameInvocation lbl len slot c call buffer : cap_wf c →
  kept kernel_inv (decodeRISCVFrameInvocation lbl len slot c call buffer).
Proof.
  intros Hc. unfold decodeRISCVFrameInvocation. keep. apply kinv_performPageInvocationMapPTE.
  destruct Hc as (_ & ? & ?). split; [assumption|by split].
Qed.
#[local] Hint Resolve kinv_decodeRISCVFrameInvocation : keeps.
Lemma kinv_decodeASIDControl lbl len buffer : kept kernel_inv (decodeASIDControl lbl len buffer).
Proof.
  unfold decodeASIDControl. keep. apply kinv_performASIDControlInvocation, asid_base_wf.
  match goal with H : (?i =? nASIDPools) = false, HX2 : _ ≤ ?i ≤ _ |- _ => apply Z.eqb_neq in H; revert H HX2 end.
  change nASIDPools with 128. lia.
Qed.
#[local] Hint Resolve kinv_decodeASIDControl : keeps.
Lemma kinv_decodeASIDPool lbl base pool : cap_wf (cap_asid_pool_cap base pool) → kept kernel_inv (decodeASIDPool lbl base pool).
Proof.
  intros [Hb Hm]. unfold decodeASIDPool. keep. apply kinv_performASIDPoolInvocation, asid_pool_member_wf; [done..|].
  match goal with H : (?i =? BIT asidLowBits) = false, HX2 : _ ≤ ?i ≤ _ |- _ => apply Z.eqb_neq in H; revert H HX2 end.
  change (BIT asidLowBits) with 512. lia.
Qed.
#[local] Hint Resolve kinv_decodeASIDPool : keeps.
Lemma kinv_decodeRISCVMMUInvocation lbl len cptr slot c call buffer : cap_wf c →
  kept kernel_inv (decodeRISCVMMUInvocation lbl len cptr slot c call buffer).
Proof. intros Hc. unfold decodeRISCVMMUInvocation. keep. Qed.
#[local] Hint Resolve kinv_decodeRISCVMMUInvocation : keeps.

(** ** [Domain.v] *)
Lemma kinv_Arch_prepareSetDomain (tptr dom : Z) : kept kernel_inv (Arch_prepareSetDomain tptr dom).
Proof. unfold Arch_prepareSetDomain. keep. Qed.
#[local] Hint Resolve kinv_Arch_prepareSetDomain : keeps.
Lemma kinv_prepareSetDomain (tptr dom : Z) : kept kernel_inv (prepareSetDomain tptr dom).
Proof. unfold prepareSetDomain. keep. Qed.
#[local] Hint Resolve kinv_prepareSetDomain : keeps.
Lemma kinv_invokeDomainSetSet tcb domain : 0 ≤ domain < numDomains → kept kernel_inv (invokeDomainSetSet tcb domain).
Proof. intros Hd. unfold invokeDomainSetSet. keep. Qed.
#[local] Hint Resolve kinv_invokeDomainSetSet : keeps.
Lemma kinv_decodeDomainSetSetInvocation len buffer : kept kernel_inv (decodeDomainSetSetInvocation len buffer).
Proof.
  unfold decodeDomainSetSetInvocation. keep. apply kinv_invokeDomainSetSet.
  match goal with H : is_word _ |- _ => destruct H end. match goal with H : (numDomains <=? _) = false |- _ => apply Z.leb_gt in H end. lia.
Qed.
#[local] Hint Resolve kinv_decodeDomainSetSetInvocation : keeps.
Lemma kinv_invokeDomainScheduleConfigure index domain duration s :
  kernel_inv s → 0 ≤ index < CONFIG_NUM_DOMAIN_SCHEDULES - 1 → 0 ≤ domain < numDomains → 0 ≤ duration ≤ DSCHED_MAX_DURATION →
  (duration = 0 → domain = 0) → (index = ksDomScheduleStart s → duration ≠ 0) →
  wlp (invokeDomainScheduleConfigure index domain duration) (λ _ s', kernel_inv s' ∧ True) s.
Proof.
  intros HI Hi Hd Hdur Hend Hstart. pose proof num_domains_ok. pose proof (ki_schedule _ HI) as (Hl & Hall & Hlast & Hst & (d & Hd0 & Hne) & Hidx).
  unfold invokeDomainScheduleConfigure, get_dschedule, wlp, modify, mbind, M_bind, get_state, deref.
  destruct (ksDomSchedule s !! Z.to_nat index); [|done]. split; [|done]. destruct HI. split; try done. simpl.
  destruct (dschedule_make_fields domain duration) as [Hmd Hmt]; [lia|done|].
  split_and!; try done; try lia.
  - by rewrite length_insert.
  - apply Forall_insert; [done|]. destruct (decide (duration = 0)) as [->|].
    + left. rewrite Hend by done. done.
    + right. rewrite Hmd, Hmt. lia.
  - rewrite list_lookup_insert_ne; [done|lia].
  - destruct (decide (Z.to_nat index = Z.to_nat (ksDomScheduleStart s))) as [E|].
    + rewrite E, list_lookup_insert_eq by (by eapply lookup_lt_Some). eexists; split; [done|].
      intros E0. rewrite E0 in Hmt. apply Hstart; [lia|]. by rewrite <-Hmt.
    + rewrite list_lookup_insert_ne by done. eauto.
Qed.
#[local] Hint Resolve kinv_invokeDomainScheduleConfigure : keeps.
Lemma kinv_decodeDomainScheduleConfigure len buffer : kept kernel_inv (decodeDomainScheduleConfigure len buffer).
Proof.
  apply keeps_intro. intros s HI. unfold decodeDomainScheduleConfigure, mode_parseTimeArg. schedule_steps.
  match goal with H : ∃ s, _ ∧ _ = ksDomScheduleStart s |- _ => destruct H as (s0 & (_ & _ & E) & ->) end.
  bool_facts. unfold is_word, domScheduleLength in *. apply wlp_bind.
  eapply wlp_mono; [apply kinv_invokeDomainScheduleConfigure; [done|lia..|intros E1; intuition congruence]|]. by intros _ ? [? _].
Qed.
#[local] Hint Resolve kinv_decodeDomainScheduleConfigure : keeps.
Lemma kinv_invokeDomainScheduleSetStart index s d :
  kernel_inv s → 0 ≤ index → ksDomSchedule s !! Z.to_nat index = Some d → d ≠ 0 →
  wlp (invokeDomainScheduleSetStart index) (λ _ s', kernel_inv s' ∧ True) s.
Proof.
  intros HI Hi Hd Hd0. pose proof num_schedules_ok. unfold invokeDomainScheduleSetStart. do 3 (apply wlp_bind; unfold wlp at 1; simpl).
  apply keeps_wlp; [apply kinv_rescheduleRequired|]. pose proof (ki_schedule _ HI) as (? & ? & ? & ? & ? & ?).
  destruct HI. split; try done. simpl. unfold domScheduleLength. split_and!; try done; [by eexists|lia..].
Qed.
#[local] Hint Resolve kinv_invokeDomainScheduleSetStart : keeps.
Lemma kinv_decodeDomainScheduleSetStart len buffer : kept kernel_inv (decodeDomainScheduleSetStart len buffer).
Proof.
  apply keeps_intro. intros s HI. unfold decodeDomainScheduleSetStart. schedule_steps.
  match goal with H : ∃ s d, _ |- _ => destruct H as (s0 & d & (_ & El & _) & Hd & Hd0%eq_sym) end. bool_facts. unfold is_word in *.
  apply wlp_bind. eapply wlp_mono; [eapply kinv_invokeDomainScheduleSetStart; [done|lia| |done]|by intros _ ? [? _]]. congruence.
Qed.
#[local] Hint Resolve kinv_decodeDomainScheduleSetStart : keeps.
Lemma kinv_decodeDomainInvocation (invLabel length buffer : Z) : kept kernel_inv (decodeDomainInvocation invLabel length buffer).
Proof. unfold decodeDomainInvocation. keep. Qed.
#[local] Hint Resolve kinv_decodeDomainInvocation : keeps.

(** ** [Interrupt.v] *)
Lemma kinv_Arch_checkIRQ irq : is_word irq → keeps kernel_inv (Arch_checkIRQ irq) (λ e, e = EXCEPTION_NONE → 1 ≤ irq ≤ maxIRQ).
Proof. intros [Hi _]. unfold Arch_checkIRQ, irqInvalid. keep; intros; simplify_eq. bool_facts. lia. Qed.
#[local] Hint Resolve kinv_Arch_checkIRQ : keeps.
Lemma kinv_invokeIRQControl irq handlerSlot controlSlot : 1 ≤ irq ≤ maxIRQ →
  kept kernel_inv (invokeIRQControl irq handlerSlot controlSlot).
Proof. intros Hi. unfold invokeIRQControl. keep. Qed.
#[local] Hint Resolve kinv_invokeIRQControl : keeps.
Lemma kinv_Arch_invokeIRQControl irq handlerSlot controlSlot trigger : 1 ≤ irq ≤ maxIRQ →
  kept kernel_inv (Arch_invokeIRQControl irq handlerSlot controlSlot trigger).
Proof. intros Hi. unfold Arch_invokeIRQControl. keep. Qed.
#[local] Hint Resolve kinv_Arch_invokeIRQControl : keeps.
Lemma kinv_Arch_decodeIRQControlInvocation lbl len slot buffer : kept kernel_inv (Arch_decodeIRQControlInvocation lbl len slot buffer).
Proof. unfold Arch_decodeIRQControlInvocation. keep. status_facts. by apply kinv_Arch_invokeIRQControl. Qed.
#[local] Hint Resolve kinv_Arch_decodeIRQControlInvocation : keeps.
Lemma kinv_decodeIRQControlInvocation lbl len slot buffer : kept kernel_inv (decodeIRQControlInvocation lbl len slot buffer).
Proof. unfold decodeIRQControlInvocation. keep. status_facts. by apply kinv_invokeIRQControl. Qed.
#[local] Hint Resolve kinv_decodeIRQControlInvocation : keeps.
Lemma kinv_invokeIRQHandler_AckIRQ (irq : Z) : kept kernel_inv (invokeIRQHandler_AckIRQ irq).
Proof. unfold invokeIRQHandler_AckIRQ. keep. Qed.
#[local] Hint Resolve kinv_invokeIRQHandler_AckIRQ : keeps.
Lemma kinv_invokeIRQHandler_SetIRQHandler irq c slot : cap_wf c → kept kernel_inv (invokeIRQHandler_SetIRQHandler irq c slot).
Proof. intros Hc. unfold invokeIRQHandler_SetIRQHandler. keep. Qed.
#[local] Hint Resolve kinv_invokeIRQHandler_SetIRQHandler : keeps.
Lemma kinv_invokeIRQHandler_ClearIRQHandler (irq : Z) : kept kernel_inv (invokeIRQHandler_ClearIRQHandler irq).
Proof. unfold invokeIRQHandler_ClearIRQHandler. keep. Qed.
#[local] Hint Resolve kinv_invokeIRQHandler_ClearIRQHandler : keeps.
Lemma kinv_decodeIRQHandlerInvocation (invLabel irq : Z) : kept kernel_inv (decodeIRQHandlerInvocation invLabel irq).
Proof. unfold decodeIRQHandlerInvocation. keep. Qed.
#[local] Hint Resolve kinv_decodeIRQHandlerInvocation : keeps.
Lemma kinv_handleReservedIRQ (irq : Z) : kept kernel_inv (handleReservedIRQ irq).
Proof. unfold handleReservedIRQ. keep. Qed.
#[local] Hint Resolve kinv_handleReservedIRQ : keeps.
Lemma kinv_handleInterrupt (irq : Z) : kept kernel_inv (handleInterrupt irq).
Proof. unfold handleInterrupt. keep. Qed.
#[local] Hint Resolve kinv_handleInterrupt : keeps.

(** ** [SchedControl.v] *)
Lemma kinv_invokeSchedControl_ConfigureFlags (target core budget period max_refills badge flags : Z) : kept kernel_inv (invokeSchedControl_ConfigureFlags target core budget period max_refills badge flags).
Proof. unfold invokeSchedControl_ConfigureFlags. keep. Qed.
#[local] Hint Resolve kinv_invokeSchedControl_ConfigureFlags : keeps.
Lemma kinv_decodeSchedControl_ConfigureFlags (length : Z) (c : cap) (buffer : Z) : kept kernel_inv (decodeSchedControl_ConfigureFlags length c buffer).
Proof. unfold decodeSchedControl_ConfigureFlags. keep. Qed.
#[local] Hint Resolve kinv_decodeSchedControl_ConfigureFlags : keeps.
Lemma kinv_decodeSchedControlInvocation (label : Z) (c : cap) (length buffer : Z) : kept kernel_inv (decodeSchedControlInvocation label c length buffer).
Proof. unfold decodeSchedControlInvocation. keep. Qed.
#[local] Hint Resolve kinv_decodeSchedControlInvocation : keeps.

(** ** [TcbInv.v] *)
Lemma kinv_checkPrio prio auth : keeps kernel_inv (checkPrio prio auth) (λ e, e = EXCEPTION_NONE → prio ≤ prio_bound).
Proof.
  unfold checkPrio. keep; intros; simplify_eq.
  match goal with H : tcb_wf _ |- _ => destruct H as (_ & ? & _) end.
  match goal with H : (_ <? _) = false |- _ => apply Z.ltb_ge in H end. lia.
Qed.
#[local] Hint Resolve kinv_checkPrio : keeps.
Lemma kinv_Arch_performTransfer (arch tcb_src tcb_dest : Z) : kept kernel_inv (Arch_performTransfer arch tcb_src tcb_dest).
Proof. unfold Arch_performTransfer. keep. Qed.
#[local] Hint Resolve kinv_Arch_performTransfer : keeps.
Lemma kinv_Arch_postModifyRegisters (tptr : Z) : kept kernel_inv (Arch_postModifyRegisters tptr).
Proof. unfold Arch_postModifyRegisters. keep. Qed.
#[local] Hint Resolve kinv_Arch_postModifyRegisters : keeps.
Lemma kinv_excaps_present n i : kept kernel_inv (excaps_present n i).
Proof. revert i. induction n as [|n IH]; intros i; simpl; keep. Qed.
#[local] Hint Resolve kinv_excaps_present : keeps.
Lemma kinv_restart_current : kept kernel_inv restart_current.
Proof. unfold restart_current. keep. Qed.
#[local] Hint Resolve kinv_restart_current : keeps.
Lemma kinv_invokeTCB_Suspend (thread : Z) : kept kernel_inv (invokeTCB_Suspend thread).
Proof. unfold invokeTCB_Suspend. keep. Qed.
#[local] Hint Resolve kinv_invokeTCB_Suspend : keeps.
Lemma kinv_invokeTCB_Resume (thread : Z) : kept kernel_inv (invokeTCB_Resume thread).
Proof. unfold invokeTCB_Resume. keep. Qed.
#[local] Hint Resolve kinv_invokeTCB_Resume : keeps.
Lemma kinv_installTCBCap target tCap slot index newCap srcSlot : cap_wf newCap →
  kept kernel_inv (installTCBCap target tCap slot index newCap srcSlot).
Proof. intros Hc. unfold installTCBCap. keep. Qed.
#[local] Hint Resolve kinv_installTCBCap : keeps.
Lemma kinv_and_then b m k : kept kernel_inv m → kept kernel_inv k → kept kernel_inv (and_then b m k).
Proof. intros Hm Hk. unfold and_then. keep. Qed.
#[local] Hint Resolve kinv_and_then : keeps.
Lemma kinv_invokeTCB_ThreadControlCaps target slot fh fhSlot th thSlot cr crSlot vr vrSlot addr buf bufSlot flags :
  cap_wf fh → cap_wf th → cap_wf cr → cap_wf vr → cap_wf buf →
  kept kernel_inv (invokeTCB_ThreadControlCaps target slot fh fhSlot th thSlot cr crSlot vr vrSlot addr buf bufSlot flags).
Proof.
  intros. unfold invokeTCB_ThreadControlCaps. repeat (apply kinv_and_then; [by apply kinv_installTCBCap|]). keep.
Qed.
#[local] Hint Resolve kinv_invokeTCB_ThreadControlCaps : keeps.
Lemma kinv_invokeTCB_ThreadControlSched target slot fh fhSlot mcp prio sc flags :
  cap_wf fh → 0 ≤ mcp ≤ prio_bound → 0 ≤ prio ≤ prio_bound →
  kept kernel_inv (invokeTCB_ThreadControlSched target slot fh fhSlot mcp prio sc flags).
Proof.
  intros. unfold invokeTCB_ThreadControlSched. apply kinv_and_then; [by apply kinv_installTCBCap|]. keep.
Qed.
#[local] Hint Resolve kinv_invokeTCB_ThreadControlSched : keeps.
Lemma kinv_invokeTCB_CopyRegisters (dest tcb_src : Z) (suspendSource resumeTarget transferFrame transferInteger : bool) (transferArch : Z) : kept kernel_inv (invokeTCB_CopyRegisters dest tcb_src suspendSource resumeTarget transferFrame transferInteger transferArch).
Proof. unfold invokeTCB_CopyRegisters. keep. Qed.
#[local] Hint Resolve kinv_invokeTCB_CopyRegisters : keeps.
Lemma kinv_invokeTCB_ReadRegisters (tcb_src : Z) (suspendSource : bool) (n arch : Z) (call : bool) : kept kernel_inv (invokeTCB_ReadRegisters tcb_src suspendSource n arch call).
Proof. unfold invokeTCB_ReadRegisters. keep. Qed.
#[local] Hint Resolve kinv_invokeTCB_ReadRegisters : keeps.
Lemma kinv_invokeTCB_WriteRegisters (dest : Z) (resumeTarget : bool) (n arch buffer : Z) : kept kernel_inv (invokeTCB_WriteRegisters dest resumeTarget n arch buffer).
Proof. unfold invokeTCB_WriteRegisters. keep. Qed.
#[local] Hint Resolve kinv_invokeTCB_WriteRegisters : keeps.
Lemma kinv_invokeTCB_NotificationControl (tcb ntfnPtr : Z) : kept kernel_inv (invokeTCB_NotificationControl tcb ntfnPtr).
Proof. unfold invokeTCB_NotificationControl. keep. Qed.
#[local] Hint Resolve kinv_invokeTCB_NotificationControl : keeps.
Lemma kinv_invokeSetTLSBase (thread tls_base : Z) : kept kernel_inv (invokeSetTLSBase thread tls_base).
Proof. unfold invokeSetTLSBase. keep. Qed.
#[local] Hint Resolve kinv_invokeSetTLSBase : keeps.
Lemma kinv_invokeSetFlags (thread clear set : Z) (call : bool) : kept kernel_inv (invokeSetFlags thread clear set call).
Proof. unfold invokeSetFlags. keep. Qed.
#[local] Hint Resolve kinv_invokeSetFlags : keeps.
Lemma kinv_decodeSetTLSBase (tcb length buffer : Z) : kept kernel_inv (decodeSetTLSBase tcb length buffer).
Proof. unfold decodeSetTLSBase. keep. Qed.
#[local] Hint Resolve kinv_decodeSetTLSBase : keeps.
Lemma kinv_decodeSetFlags (tcb length : Z) (call : bool) (buffer : Z) : kept kernel_inv (decodeSetFlags tcb length call buffer).
Proof. unfold decodeSetFlags. keep. Qed.
#[local] Hint Resolve kinv_decodeSetFlags : keeps.
Lemma kinv_decodeCopyRegisters (tcb length buffer : Z) : kept kernel_inv (decodeCopyRegisters tcb length buffer).
Proof. unfold decodeCopyRegisters. keep. Qed.
#[local] Hint Resolve kinv_decodeCopyRegisters : keeps.
Lemma kinv_decodeReadRegisters (tcb length : Z) (call : bool) (buffer : Z) : kept kernel_inv (decodeReadRegisters tcb length call buffer).
Proof. unfold decodeReadRegisters. keep. Qed.
#[local] Hint Resolve kinv_decodeReadRegisters : keeps.
Lemma kinv_decodeWriteRegisters (tcb length buffer : Z) : kept kernel_inv (decodeWriteRegisters tcb length buffer).
Proof. unfold decodeWriteRegisters. keep. Qed.
#[local] Hint Resolve kinv_decodeWriteRegisters : keeps.
Lemma kinv_decode_buffer addr slot c : cap_wf c →
  keeps kernel_inv (decode_buffer addr slot c) (λ r, match r with inr (_, c') => cap_wf c' | _ => True end).
Proof. intros Hc. unfold decode_buffer. keep. Qed.
#[local] Hint Resolve kinv_decode_buffer : keeps.
Lemma kinv_decode_roots tcb cData vData cSlot c vSlot v : cap_wf c → cap_wf v →
  keeps kernel_inv (decode_roots tcb cData vData cSlot c vSlot v)
    (λ r, match r with inr (c', v') => cap_wf c' ∧ cap_wf v' | _ => True end).
Proof.
  intros Hc Hv. unfold decode_roots.
  assert (∀ (b : bool) d c, cap_wf c → cap_wf (if b then updateCapData false d c else c)) as Hu
    by (intros [] ???; [by apply updateCapData_wf|done]).
  pose proof (Hu (negb (cData =? 0)) cData c Hc). pose proof (Hu (negb (vData =? 0)) vData v Hv).
  keep.
Qed.
#[local] Hint Resolve kinv_decode_roots : keeps.
Lemma kinv_decodeTCBConfigure tcb len slot buffer : kept kernel_inv (decodeTCBConfigure tcb len slot buffer).
Proof.
  unfold decodeTCBConfigure. keep. match goal with H : cap_wf _ ∧ _ |- _ => destruct H end.
  by apply kinv_invokeTCB_ThreadControlCaps.
Qed.
#[local] Hint Resolve kinv_decodeTCBConfigure : keeps.
Lemma kinv_decodeSetPriority tcb len buffer : kept kernel_inv (decodeSetPriority tcb len buffer).
Proof.
  unfold decodeSetPriority. keep. status_facts. unfold is_word in *. apply kinv_invokeTCB_ThreadControlSched; [done|..]; unfold NULL_PRIO; lia.
Qed.
#[local] Hint Resolve kinv_decodeSetPriority : keeps.
Lemma kinv_decodeSetMCPriority tcb len buffer : kept kernel_inv (decodeSetMCPriority tcb len buffer).
Proof.
  unfold decodeSetMCPriority. keep. status_facts. unfold is_word in *. apply kinv_invokeTCB_ThreadControlSched; [done|..]; unfold NULL_PRIO; lia.
Qed.
#[local] Hint Resolve kinv_decodeSetMCPriority : keeps.
Lemma kinv_decodeSetTimeoutEndpoint (tcb slot : Z) : kept kernel_inv (decodeSetTimeoutEndpoint tcb slot).
Proof. unfold decodeSetTimeoutEndpoint. keep. Qed.
#[local] Hint Resolve kinv_decodeSetTimeoutEndpoint : keeps.
Lemma kinv_decode_sched_context (tcb : Z) (scCap : cap) : kept kernel_inv (decode_sched_context tcb scCap).
Proof. unfold decode_sched_context. keep. Qed.
#[local] Hint Resolve kinv_decode_sched_context : keeps.
Lemma kinv_decodeSetSchedParams tcb len slot buffer : kept kernel_inv (decodeSetSchedParams tcb len slot buffer).
Proof.
  unfold decodeSetSchedParams. keep; status_facts; unfold is_word in *; apply kinv_invokeTCB_ThreadControlSched; (done || lia).
Qed.
#[local] Hint Resolve kinv_decodeSetSchedParams : keeps.
Lemma kinv_decodeSetIPCBuffer (tcb length slot buffer : Z) : kept kernel_inv (decodeSetIPCBuffer tcb length slot buffer).
Proof. unfold decodeSetIPCBuffer. keep. Qed.
#[local] Hint Resolve kinv_decodeSetIPCBuffer : keeps.
Lemma kinv_decodeSetSpace tcb len slot buffer : kept kernel_inv (decodeSetSpace tcb len slot buffer).
Proof.
  unfold decodeSetSpace. keep. match goal with H : cap_wf _ ∧ _ |- _ => destruct H end.
  by apply kinv_invokeTCB_ThreadControlCaps.
Qed.
#[local] Hint Resolve kinv_decodeSetSpace : keeps.
Lemma kinv_decodeBindNotification (tcb : Z) : kept kernel_inv (decodeBindNotification tcb).
Proof. unfold decodeBindNotification. keep. Qed.
#[local] Hint Resolve kinv_decodeBindNotification : keeps.
Lemma kinv_decodeUnbindNotification (tcb : Z) : kept kernel_inv (decodeUnbindNotification tcb).
Proof. unfold decodeUnbindNotification. keep. Qed.
#[local] Hint Resolve kinv_decodeUnbindNotification : keeps.
Lemma kinv_decodeTCBInvocation (invLabel length : Z) (c : cap) (slot : Z) (call : bool) (buffer : Z) : kept kernel_inv (decodeTCBInvocation invLabel length c slot call buffer).
Proof. unfold decodeTCBInvocation. keep. Qed.
#[local] Hint Resolve kinv_decodeTCBInvocation : keeps.

(** ** [Syscall.v] *)
Lemma kinv_performInvocation_Endpoint (ep badge : Z) (canGrant canGrantReply block call canDonate : bool) : kept kernel_inv (performInvocation_Endpoint ep badge canGrant canGrantReply block call canDonate).
Proof. unfold performInvocation_Endpoint. keep. Qed.
#[local] Hint Resolve kinv_performInvocation_Endpoint : keeps.
Lemma kinv_performInvocation_Notification (ntfn badge : Z) : kept kernel_inv (performInvocation_Notification ntfn badge).
Proof. unfold performInvocation_Notification. keep. Qed.
#[local] Hint Resolve kinv_performInvocation_Notification : keeps.
Lemma kinv_performInvocation_Reply (thread reply : Z) (canGrant : bool) : kept kernel_inv (performInvocation_Reply thread reply canGrant).
Proof. unfold performInvocation_Reply. keep. Qed.
#[local] Hint Resolve kinv_performInvocation_Reply : keeps.
Lemma kinv_decodeInvocation lbl len capIndex slot c block call canDonate first buffer : cap_wf c →
  kept kernel_inv (decodeInvocation lbl len capIndex slot c block call canDonate first buffer).
Proof. intros Hc. unfold decodeInvocation. keep. Qed.
#[local] Hint Resolve kinv_decodeInvocation : keeps.
Lemma kinv_handleInvocation (isCall isBlocking canDonate firstPhase : bool) (cptr : Z) : kept kernel_inv (handleInvocation isCall isBlocking canDonate firstPhase cptr).
Proof. unfold handleInvocation. keep. Qed.
#[local] Hint Resolve kinv_handleInvocation : keeps.
Lemma kinv_lookupReply : kept kernel_inv lookupReply.
Proof. unfold lookupReply. keep. Qed.
#[local] Hint Resolve kinv_lookupReply : keeps.
Lemma kinv_handleRecv (isBlocking canReply : bool) : kept kernel_inv (handleRecv isBlocking canReply).
Proof. unfold handleRecv. keep. Qed.
#[local] Hint Resolve kinv_handleRecv : keeps.
Lemma kinv_mcsPreemptionPoint : kept kernel_inv mcsPreemptionPoint.
Proof. unfold mcsPreemptionPoint. keep. Qed.
#[local] Hint Resolve kinv_mcsPreemptionPoint : keeps.
Lemma kinv_handleYield : kept kernel_inv handleYield.
Proof. unfold handleYield. keep. Qed.
#[local] Hint Resolve kinv_handleYield : keeps.
Lemma kinv_checkInterrupt : kept kernel_inv checkInterrupt.
Proof. unfold checkInterrupt. keep. Qed.
#[local] Hint Resolve kinv_checkInterrupt : keeps.
Lemma kinv_MCS_DO_IF_BUDGET block : kept kernel_inv block → kept kernel_inv (MCS_DO_IF_BUDGET block).
Proof. intros Hb. unfold MCS_DO_IF_BUDGET. keep. Qed.
#[local] Hint Extern 1 (keeps kernel_inv (MCS_DO_IF_BUDGET _) _) => (apply kinv_MCS_DO_IF_BUDGET; keep) : keeps.
#[local] Hint Resolve kinv_MCS_DO_IF_BUDGET : keeps.
Lemma kinv_handleInterruptEntry : kept kernel_inv handleInterruptEntry.
Proof. unfold handleInterruptEntry. keep. Qed.
#[local] Hint Resolve kinv_handleInterruptEntry : keeps.
Lemma kinv_handleUnknownSyscall (w : Z) : kept kernel_inv (handleUnknownSyscall w).
Proof. unfold handleUnknownSyscall. keep. Qed.
#[local] Hint Resolve kinv_handleUnknownSyscall : keeps.
Lemma kinv_handleUserLevelFault (w_a w_b : Z) : kept kernel_inv (handleUserLevelFault w_a w_b).
Proof. unfold handleUserLevelFault. keep. Qed.
#[local] Hint Resolve kinv_handleUserLevelFault : keeps.
Lemma kinv_handleVMFaultEvent (vm_faultType : Z) : kept kernel_inv (handleVMFaultEvent vm_faultType).
Proof. unfold handleVMFaultEvent. keep. Qed.
#[local] Hint Resolve kinv_handleVMFaultEvent : keeps.
Lemma kinv_getNBSendRecvDest : kept kernel_inv getNBSendRecvDest.
Proof. unfold getNBSendRecvDest. keep. Qed.
#[local] Hint Resolve kinv_getNBSendRecvDest : keeps.
Lemma kinv_after_invocation ret k : kept kernel_inv k → kept kernel_inv (after_invocation ret k).
Proof. intros Hk. unfold after_invocation. keep. Qed.
#[local] Hint Extern 1 (keeps kernel_inv (after_invocation _ _) _) => (apply kinv_after_invocation; keep) : keeps.
#[local] Hint Resolve kinv_after_invocation : keeps.
Lemma kinv_handleSyscall (sys : syscall) : kept kernel_inv (handleSyscall sys).
Proof. unfold handleSyscall. keep. Qed.
#[local] Hint Resolve kinv_handleSyscall : keeps.
End code.

#[export] Hint Resolve kinv_checkVPAlignment kinv_find_free kinv_failed_lookup_ret
  kinv_performPageTableInvocationMap kinv_performPageTableInvocationUnmap kinv_updatePTE
  kinv_performPageInvocationMapPTE kinv_performPageInvocationUnmap kinv_performPageGetAddress
  kinv_performASIDControlInvocation kinv_performASIDPoolInvocation kinv_decodeRISCVPageTableInvocation
  kinv_checkFrameMapping kinv_decodeRISCVFrameInvocation kinv_decodeASIDControl kinv_decodeASIDPool
  kinv_decodeRISCVMMUInvocation kinv_Arch_prepareSetDomain kinv_prepareSetDomain kinv_invokeDomainSetSet
  kinv_decodeDomainSetSetInvocation kinv_invokeDomainScheduleConfigure kinv_decodeDomainScheduleConfigure
  kinv_invokeDomainScheduleSetStart kinv_decodeDomainScheduleSetStart kinv_decodeDomainInvocation
  kinv_Arch_checkIRQ kinv_invokeIRQControl kinv_Arch_invokeIRQControl kinv_Arch_decodeIRQControlInvocation
  kinv_decodeIRQControlInvocation kinv_invokeIRQHandler_AckIRQ kinv_invokeIRQHandler_SetIRQHandler
  kinv_invokeIRQHandler_ClearIRQHandler kinv_decodeIRQHandlerInvocation kinv_handleReservedIRQ
  kinv_handleInterrupt kinv_invokeSchedControl_ConfigureFlags kinv_decodeSchedControl_ConfigureFlags
  kinv_decodeSchedControlInvocation kinv_checkPrio kinv_Arch_performTransfer kinv_Arch_postModifyRegisters
  kinv_excaps_present kinv_restart_current kinv_invokeTCB_Suspend kinv_invokeTCB_Resume kinv_installTCBCap
  kinv_and_then kinv_invokeTCB_ThreadControlCaps kinv_invokeTCB_ThreadControlSched kinv_invokeTCB_CopyRegisters
  kinv_invokeTCB_ReadRegisters kinv_invokeTCB_WriteRegisters kinv_invokeTCB_NotificationControl
  kinv_invokeSetTLSBase kinv_invokeSetFlags kinv_decodeSetTLSBase kinv_decodeSetFlags kinv_decodeCopyRegisters
  kinv_decodeReadRegisters kinv_decodeWriteRegisters kinv_decode_buffer kinv_decode_roots
  kinv_decodeTCBConfigure kinv_decodeSetPriority kinv_decodeSetMCPriority kinv_decodeSetTimeoutEndpoint
  kinv_decode_sched_context kinv_decodeSetSchedParams kinv_decodeSetIPCBuffer kinv_decodeSetSpace
  kinv_decodeBindNotification kinv_decodeUnbindNotification kinv_decodeTCBInvocation
  kinv_performInvocation_Endpoint kinv_performInvocation_Notification kinv_performInvocation_Reply
  kinv_decodeInvocation kinv_handleInvocation kinv_lookupReply kinv_handleRecv kinv_mcsPreemptionPoint
  kinv_handleYield kinv_checkInterrupt kinv_MCS_DO_IF_BUDGET kinv_handleInterruptEntry
  kinv_handleUnknownSyscall kinv_handleUserLevelFault kinv_handleVMFaultEvent kinv_getNBSendRecvDest
  kinv_after_invocation kinv_handleSyscall : keeps.
