(* ===== verification/Example.v ===== *)
(** * A concrete kernel state

    Six threads of one domain at time 5000: [tA] runs, [tB] is ready, [tC] and
    [tE] are runnable but in no queue, [tD] waits for its release at 7000 and
    [tI] is the idle thread. The witnesses of the other files evaluate the
    kernel's operations on it. *)
From S2P Require Import Prelude Words Platform State Machine DList RefillList Sporadic Budget Queues QueueSpec Bitmap ReadyQueues CapOps CSpace VSpace Thread.

#[local] Existing Instance example_platform.

Definition tA : Z := 66048.
Definition tB : Z := 67072.
Definition tC : Z := 68096.
Definition tD : Z := 69120.
Definition tE : Z := 70144.
Definition tI : Z := 71168.
Definition scA : Z := 131072.
Definition scB : Z := 131328.
Definition scC : Z := 131584.
Definition scD : Z := 131840.
Definition scE : Z := 132096.
Definition scI : Z := 132352.

Definition ex_ts (ty : _thread_state) (queued release : bool) : thread_state :=
  ThreadState 0 false false false queued release 0 0 ty.
Definition ex_tcb (ts : thread_state) (prio sc : Z) : tcb :=
  Tcb ∅ ts 0 NULL seL4_Fault_NullFault lookup_fault_invalid_root 0 255 prio sc NULL 0 NULL NULL NULL NULL.
Definition ex_sc (tcb time : Z) : sched_context :=
  SchedContext 5000 0 0 tcb NULL NULL 0 NULL 2 0 0 false [Refill time 1000; Refill 0 0].

Definition ex_tcbs : list (Z * tcb) := [
  (tA, ex_tcb (ex_ts ThreadState_Running false false) 5 scA);
  (tB, ex_tcb (ex_ts ThreadState_Running true false) 5 scB);
  (tC, ex_tcb (ex_ts ThreadState_Running false false) 5 scC);
  (tD, ex_tcb (ex_ts ThreadState_Running false true) 7 scD);
  (tE, ex_tcb (ex_ts ThreadState_Running false false) 3 scE);
  (tI, ex_tcb (ex_ts ThreadState_IdleThreadState false false) 0 scI)].
Definition ex_scs : list (Z * sched_context) := [
  (scA, ex_sc tA 4000); (scB, ex_sc tB 3000); (scC, ex_sc tC 2000);
  (scD, ex_sc tD 7000); (scE, ex_sc tE 6000); (scI, ex_sc tI 0)].

(** The capability space of [tA]: a root CNode [cn1] of four slots behind a guard
    of 60 zeros, and below it [cn2] of four slots. *)
Definition cn1 : Z := 262144.
Definition cn2 : Z := 266240.
Definition ep1 : Z := 327680.
Definition nt1 : Z := 328192.
Definition ut1 : Z := 1048576.
Definition slotA : Z := 65536.
Definition slot1 (i : Z) : Z := cn1 + 32 * i.
Definition slot2 (i : Z) : Z := cn2 + 32 * i.
Definition ex_null : cte := Cte cap_null_cap nullMDBNode.
Definition ex_root : cap := cap_cnode_cap 2 60 0 cn1.
Definition ex_ctes : list (Z * cte) := [
  (slotA, Cte ex_root (mdb_node_new (slot1 1) true true NULL));
  (slot1 0, ex_null);
  (slot1 1, Cte (cap_cnode_cap 2 0 0 cn2) (mdb_node_new (slot1 2) true true slotA));
  (slot1 2, Cte (cap_endpoint_cap 0 true true true true ep1) (mdb_node_new (slot1 3) true true (slot1 1)));
  (slot1 3, Cte (cap_untyped_cap 0 false 12 ut1) (mdb_node_new (slot2 0) true true (slot1 2)));
  (slot2 0, Cte (cap_notification_cap 0 true true nt1) (mdb_node_new NULL true true (slot1 3)));
  (slot2 1, ex_null); (slot2 2, ex_null); (slot2 3, ex_null);
  (tA - 480, ex_null); (tB - 480, ex_null); (tC - 480, ex_null); (tD - 480, ex_null); (tE - 480, ex_null);
  (tI - 480, ex_null)].

Definition ex_state : kstate := {|
  ctes := list_to_map ex_ctes; tcbs := list_to_map ex_tcbs;
  eps := {[ep1 := Endpoint NULL NULL EPState_Idle]};
  ntfns := {[nt1 := Notification NULL NULL 0 NULL NULL NtfnState_Idle]}; scs := list_to_map ex_scs;
  replies := ∅; user_mem := ∅;
  ksReadyQueues := <[5%nat := TcbQueue tB tB]> (replicate 256 (TcbQueue NULL NULL));
  ksReadyQueuesL1Bitmap := [1]; ksReadyQueuesL2Bitmap := [[0; 0; 0; 32]];
  ksReleaseQueue := TcbQueue tD tD;
  ksCurThread := tA; ksIdleThread := tI; ksSchedulerAction := 0; ksConsumed := 0; ksReprogram := false;
  ksCurTime := 5000; ksCurSC := scA; ksIdleSC := scI; ksWorkUnitsCompleted := 0;
  intStateIRQTable := ∅; ksCurDomain := 0; ksDomainTime := 0; ksDomScheduleIdx := 0;
  ksDomScheduleStart := 0; ksDomSchedule := [dschedule_make 0 1; 0];
  riscvKSASIDTable := replicate 128 NULL; active_irq := 0; current_extra_caps := [0; 0; 0];
  current_syscall_error := SyscallError 0 0 0 0 0 false seL4_NoError;
  current_lookup_fault := lookup_fault_invalid_root; current_fault := seL4_Fault_NullFault;
  devices := DeviceState (λ _, 5000) (λ _, 0) (λ _ _, 0) 0 0 0 0 0 []
|}.

(** Case analysis over the threads of the example. *)
Lemma ex_tcb_lookup x t : tcbs ex_state !! x = Some t → (x, t) ∈ ex_tcbs.
Proof. apply elem_of_list_to_map_2. Qed.
Ltac ex_threads H :=
  unfold qview in H; apply fmap_Some in H as (?t & H & ->);
  apply ex_tcb_lookup in H; unfold ex_tcbs in H;
  repeat first [apply elem_of_nil in H; done | apply elem_of_cons in H as [[= -> ->]|H]].

Lemma ex_ready dom prio x : ready (qview ex_state) dom prio x ↔ dom = 0 ∧ prio = 5 ∧ x = tB.
Proof.
  split.
  - intros (r & Hx). unfold qview in Hx. destruct (tcbs ex_state !! x) as [t|] eqn:Ht; [|done].
    apply ex_tcb_lookup in Ht. simpl in Hx. unfold ex_tcbs in Ht.
    repeat first [by apply elem_of_nil in Ht | apply elem_of_cons in Ht as [[= -> ->]|Ht]]; vm_compute in Hx; by simplify_eq.
  - intros (-> & -> & ->). by exists false.
Qed.
Lemma ex_awaiting x : awaiting (qview ex_state) x ↔ x = tD.
Proof.
  split.
  - intros (b & d & p & Hx). unfold qview in Hx. destruct (tcbs ex_state !! x) as [t|] eqn:Ht; [|done].
    apply ex_tcb_lookup in Ht. simpl in Hx. unfold ex_tcbs in Ht.
    repeat first [by apply elem_of_nil in Ht | apply elem_of_cons in Ht as [[= -> ->]|Ht]]; vm_compute in Hx; by simplify_eq.
  - intros ->. by exists false, 0, 7.
Qed.

Lemma ex_ready_list prio : 0 ≤ prio < 256 →
  queue_holds ex_state (Qready 0 prio) (if prio =? 5 then [tB] else []).
Proof.
  intros Hp. unfold queue_holds, ready_list, slot. destruct (Z.eqb_spec prio 5) as [->|Hne].
  - exists (TcbQueue tB tB). split_and!; [done| |].
    + split_and!; [by repeat constructor; set_solver|by vm_compute|done..].
    + intros x. rewrite ex_ready. set_solver.
  - exists (TcbQueue NULL NULL). split_and!.
    + change (ksReadyQueues ex_state) with (<[5%nat := TcbQueue tB tB]> (replicate 256 (TcbQueue NULL NULL))).
      rewrite list_lookup_insert_ne by lia. apply lookup_replicate_2. lia.
    + apply dlist_nil.
    + intros x. rewrite ex_ready. set_solver.
Qed.

Lemma ex_queues_ok : queues_ok (qview ex_state) (sched_links ex_state) (ksReadyQueues ex_state) (ksReleaseQueue ex_state).
Proof.
  split.
  - intros x i Hx. ex_threads Hx; unfold valid_slot; vm_compute; naive_solver.
  - intros dom prio [Hd Hp]. assert (dom = 0) as -> by (change numDomains with 1 in Hd; lia).
    eexists. by apply (ex_ready_list prio).
  - exists [tD]. split.
    + split_and!; [by repeat constructor; set_solver|by vm_compute|done..].
    + intros x. rewrite ex_awaiting. set_solver.
  - intros x i Hx. by ex_threads Hx.
  - intros x i Hx. by ex_threads Hx.
Qed.

Lemma ex_sched_inv : sched_inv ex_state.
Proof.
  split_and!; [apply ex_queues_ok| |by vm_compute|by vm_compute].
  intros dom Hd. assert (dom = 0) as -> by (change numDomains with 1 in Hd; lia).
  exists (λ p, p =? 5). split.
  - exists 1, [0; 0; 0; 32]. split_and!; [done..|]. split_and!; [lia..|done|]. intros i Hi.
    assert (i = 0 ∨ i = 1 ∨ i = 2 ∨ i = 3) as [->|[->|[->| ->]]] by lia;
      [exists 32|exists 0..]; (split_and!; [done|unfold is_word; lia| |done]); intros j Hj.
    + change 32 with (2 ^ 5). rewrite Z.pow2_bits_eqb by lia. rewrite Z.eqb_sym. f_equal.
    + rewrite Z.testbit_0_l. symmetry. apply Z.eqb_neq. lia.
    + rewrite Z.testbit_0_l. symmetry. apply Z.eqb_neq. lia.
    + rewrite Z.testbit_0_l. symmetry. apply Z.eqb_neq. lia.
  - intros p Hp. setoid_rewrite ex_ready. rewrite Z.eqb_eq. naive_solver.
Qed.

