(* ===== verification/FieldSpec.v ===== *)
(** * Packed words

    The round trips of the message tag and of zombie capabilities, whose fields share
    a word. *)
From S2P Require Import Prelude Words Platform State CapOps Message.

(** ** Message tags *)
Lemma MessageInfo_value label caps extra len :
  0 ≤ label < 2 ^ 52 → 0 ≤ caps < 8 → 0 ≤ extra < 4 → 0 ≤ len < 128 →
  seL4_MessageInfo_new label caps extra len = label * 4096 + caps * 512 + extra * 128 + len.
Proof.
  intros Hl Hc He Hn. unfold seL4_MessageInfo_new. rewrite !land_MASK by done. rewrite !Z.mod_small by lia.
  rewrite !wrap_small by (unfold is_word; rewrite Z.shiftl_mul_pow2 by done; lia).
  rewrite (lor_shift_add extra), (lor_shift_add caps), (lor_shift_add label) by lia. lia.
Qed.
Ltac fields := unfold seL4_MessageInfo_get_label, seL4_MessageInfo_get_capsUnwrapped, seL4_MessageInfo_get_extraCaps,
  seL4_MessageInfo_get_length; rewrite ?land_MASK, ?Z.shiftr_div_pow2 by done.

(** The fields a message tag is made of are read back from its word. *)
Theorem messageInfo_roundtrip label caps extra len :
  0 ≤ label < 2 ^ 52 → 0 ≤ caps < 8 → 0 ≤ extra < 4 → 0 ≤ len ≤ seL4_MsgMaxLength →
  let mi := messageInfoFromWord (wordFromMessageInfo (seL4_MessageInfo_new label caps extra len)) in
  is_word mi ∧ seL4_MessageInfo_get_label mi = label ∧ seL4_MessageInfo_get_capsUnwrapped mi = caps ∧
  seL4_MessageInfo_get_extraCaps mi = extra ∧ seL4_MessageInfo_get_length mi = len.
Proof.
  unfold seL4_MsgMaxLength. intros Hl Hc He Hn. unfold wordFromMessageInfo. rewrite MessageInfo_value by lia.
  unfold messageInfoFromWord, is_word, seL4_MsgMaxLength. fields. case_match; [Z.to_euclidean_division_equations; lia|].
  change (2 ^ 12) with 4096. change (2 ^ 9) with 512. change (2 ^ 7) with 128. change (2 ^ 3) with 8. change (2 ^ 2) with 4.
  split_and!; Z.to_euclidean_division_equations; lia.
Qed.

(** Whatever word a user passes, the tag the kernel works with has at most 120
    message words and otherwise the fields of the word. *)
Theorem messageInfo_bounded w : is_word w →
  let mi := messageInfoFromWord w in
  seL4_MessageInfo_get_length mi = Z.min (seL4_MessageInfo_get_length w) seL4_MsgMaxLength ∧
  seL4_MessageInfo_get_label mi = seL4_MessageInfo_get_label w ∧
  seL4_MessageInfo_get_extraCaps mi = seL4_MessageInfo_get_extraCaps w ∧ messageInfoFromWord mi = mi.
Proof.
  intros Hw. unfold messageInfoFromWord.
  destruct (Z.ltb_spec seL4_MsgMaxLength (seL4_MessageInfo_get_length w)) as [Hlt|Hge].
  - assert (seL4_MessageInfo_set_length w seL4_MsgMaxLength = w / 128 * 128 + 120) as ->.
    { unfold seL4_MessageInfo_set_length. rewrite land_wnot_MASK by done. change (Z.land seL4_MsgMaxLength (MASK 7)) with 120.
      rewrite <-Z.shiftl_mul_pow2 by done. by rewrite lor_shift_add. }
    revert Hlt. unfold is_word, seL4_MsgMaxLength in *. fields.
    change (2 ^ 12) with 4096. change (2 ^ 7) with 128. change (2 ^ 2) with 4. intros Hlt.
    case_match; split_and!; Z.to_euclidean_division_equations; lia.
  - rewrite (proj2 (Z.ltb_ge _ _)) by done. split_and!; lia.
Qed.

(** ** Zombies *)
(** A zombie capability keeps the address of its CNode or TCB and the number of
    slots left in one word, and counting down changes only the number. *)
Theorem zombie_roundtrip type number number' ptr :
  type = ZombieType_ZombieTCB ∨ 1 ≤ type ≤ 33 → let n := zombie_bits type + 1 in
  is_word ptr → ptr mod 2 ^ n = 0 → 0 ≤ number < 2 ^ n → 0 ≤ number' < 2 ^ n →
  let z := Zombie_new number type ptr in
  cap_zombie_cap_get_capZombieNumber z = Some number ∧ cap_zombie_cap_get_capZombiePtr z = Some ptr ∧
  cap_zombie_cap_get_capZombieBits z = Some (zombie_bits type) ∧
  cap_zombie_cap_set_capZombieNumber z number' = Some (Zombie_new number' type ptr).
Proof.
  intros Ht n Hp Ha Hn Hn' z.
  assert (0 ≤ n < 64 ∧ (if type =? ZombieType_ZombieTCB then MASK (TCB_CNODE_RADIX + 1) else MASK (type + 1)) = MASK n) as [Hb Hm].
  { unfold n, zombie_bits. destruct (Z.eqb_spec type ZombieType_ZombieTCB); [done|]. destruct Ht as [|Ht]; [done|].
    unfold ZombieType_ZombieCNode, wordRadix. rewrite land_MASK, Z.mod_small by lia. split; [lia|done]. }
  assert (∃ q, ptr = q * 2 ^ n) as [q Hq] by (apply Z.mod_divide in Ha as [q ?]; [by exists q|lia]).
  assert (∀ m, 0 ≤ m < 2 ^ n → Zombie_new m type ptr = cap_zombie_cap (ptr + m) type) as Hnew.
  { intros m Hm'. unfold Zombie_new. rewrite Hm. f_equal. rewrite land_wnot_MASK by done. rewrite Hq, Z.div_mul by lia.
    rewrite land_MASK, Z.mod_small by lia. rewrite <-Z.shiftl_mul_pow2 by lia. by rewrite lor_shift_add, Z.shiftl_mul_pow2 by lia. }
  assert (is_word (ptr + number)) as Hw.
  { rewrite Hq in *. unfold is_word in *. assert (2 ^ 64 = 2 ^ (64 - n) * 2 ^ n) as E by (rewrite <-Z.pow_add_r by lia; f_equal; lia).
    assert (q < 2 ^ (64 - n)) by (apply (Z.mul_lt_mono_pos_r (2 ^ n)); lia). nia. }
  assert (Z.land (ptr + number) (MASK n) = number ∧ Z.land (ptr + number) (wnot (MASK n)) = ptr) as [E1 E2].
  { rewrite land_MASK, land_wnot_MASK by done. rewrite Hq, (Z.add_comm _ number), Z.mod_add, Z.div_add by lia.
    rewrite Z.mod_small, Z.div_small by lia. split; [done|lia]. }
  subst z. rewrite !Hnew by done. simpl. fold n. rewrite E1, E2. split_and!; [done..|]. do 2 f_equal.
  rewrite land_MASK, Z.mod_small by lia. rewrite Hq at 1. rewrite <-Z.shiftl_mul_pow2 by lia.
  rewrite lor_shift_add by lia. lia.
Qed.

(** ** Examples *)
Lemma messageInfo_witness : seL4_MessageInfo_get_length (messageInfoFromWord (wordFromMessageInfo (seL4_MessageInfo_new 5 1 2 17))) = 17.
Proof. apply (messageInfo_roundtrip 5 1 2 17); by vm_compute. Defined.
Lemma messageInfo_bounded_witness : seL4_MessageInfo_get_length (messageInfoFromWord 127) = 120.
Proof. destruct (messageInfo_bounded 127) as [H _]; [by vm_compute|]. rewrite H. reflexivity. Defined.
Lemma zombie_witness : cap_zombie_cap_get_capZombieNumber (Zombie_new 5 4 0x1000) = Some 5 ∧
  cap_zombie_cap_set_capZombieNumber (Zombie_new 5 4 0x1000) 3 = Some (Zombie_new 3 4 0x1000).
Proof. destruct (zombie_roundtrip 4 5 3 0x1000) as (H & _ & _ & H'); [by right|by vm_compute..|]. by split. Defined.
