(* ===== verification/KernelSpec.v ===== *)
(** * The kernel as a transition system

    A step is a trap taken by the current thread, handled up to the return to user mode
    by [trap_entry], with or without the fast path, or anything user code and devices do in between. The
    invariant of [Invariant.v] holds in every state the steps reach. *)
From stdpp Require Import relations.
From S2P Require Import Prelude Words Platform State Machine Keeps Budget CapOps CSpace CNode Message TcbInv Syscall Traps Fastpath Frames Invariant InvariantCore InvariantIpc InvariantDelete InvariantKernel Thread Domain Example.

Section system.
Context `{PlatformOk} `{PrioBound}.

(** User code writes any memory the model keeps as plain words, and the devices any input. *)
Inductive system_step (s : kstate) : kstate → Prop :=
  | step_trap tr uc s' : trap_entry tr s = Done uc s' → system_step s s'
  | step_trap_fastpath tr uc s' : trap_entry_fastpath tr s = Done uc s' → system_step s s'
  | step_user mem dev : system_step s (set_devices dev (set_user_mem mem s)).
#[local] Hint Constructors system_step : core.

Lemma kinv_restore_user_context : kept kernel_inv restore_user_context.
Proof. unfold restore_user_context. keep. Qed.
Lemma kinv_save_context tr pc : kept kernel_inv (save_context tr pc).
Proof. unfold save_context. keep. Qed.
#[local] Hint Resolve kinv_restore_user_context kinv_save_context : keeps.
Lemma kinv_trap_entry tr : kept kernel_inv (trap_entry tr).
Proof. unfold trap_entry, c_handle_syscall, slowpath, c_handle_interrupt, c_handle_exception. keep. Qed.
#[local] Hint Resolve kinv_trap_entry : keeps.
Lemma kinv_lookup_fp c cptr : kept kernel_inv (lookup_fp c cptr).
Proof. unfold lookup_fp. case_match; keep. keep_loop (λ _ : cap * Z, True). intros [] _. unfold lookup_fp_step. keep. Qed.
#[local] Hint Resolve kinv_lookup_fp : keeps.
Local Ltac unfold_np := unfold endpoint_ptr_set_epQueue_head_np, endpoint_ptr_mset_epQueue_tail_state,
  thread_state_ptr_set_tsType_np, thread_state_ptr_mset_blockingObject_tsType, thread_state_ptr_set_replyObject_np,
  thread_state_get_replyObject_np, fastpath_copy_mrs, switchToThread_fp, fastpath_restore.
Lemma kinv_slowpath w : kept kernel_inv (slowpath w).
Proof. unfold slowpath. keep. Qed.
Lemma kinv_fastpath_call_commit length badge ep dest reply pd asid info :
  kept kernel_inv (fastpath_call_commit length badge ep dest reply pd asid info).
Proof. unfold fastpath_call_commit. unfold_np. keep. Qed.
Lemma kinv_fastpath_reply_recv_commit length ep reply caller pd asid info :
  kept kernel_inv (fastpath_reply_recv_commit length ep reply caller pd asid info).
Proof. unfold fastpath_reply_recv_commit. unfold_np. keep. Qed.
#[local] Hint Resolve kinv_slowpath kinv_fastpath_call_commit kinv_fastpath_reply_recv_commit : keeps.
Lemma kinv_fastpath_call cptr msgInfo : kept kernel_inv (fastpath_call cptr msgInfo).
Proof. unfold fastpath_call. unfold_np. keep. Qed.
Lemma kinv_fastpath_reply_recv cptr msgInfo reply : kept kernel_inv (fastpath_reply_recv cptr msgInfo reply).
Proof. unfold fastpath_reply_recv. keep. Qed.
#[local] Hint Resolve kinv_fastpath_call kinv_fastpath_reply_recv : keeps.
Lemma kinv_trap_entry_fastpath tr : kept kernel_inv (trap_entry_fastpath tr).
Proof.
  unfold trap_entry_fastpath, c_handle_syscall, c_handle_interrupt, c_handle_exception, c_handle_fastpath_call,
    c_handle_fastpath_reply_recv. keep.
Qed.

Lemma system_step_inv s s' : kernel_inv s → system_step s s' → kernel_inv s'.
Proof.
  intros HI [tr uc s'' Ht|tr uc s'' Ht|mem dev].
  - by apply (keeps_elim _ _ _ _ _ _ (kinv_trap_entry tr) HI) in Ht as [? _].
  - by apply (keeps_elim _ _ _ _ _ _ (kinv_trap_entry_fastpath tr) HI) in Ht as [? _].
  - by destruct HI.
Qed.

Lemma system_inv s s' : kernel_inv s → rtc system_step s s' → kernel_inv s'.
Proof. intros HI Hs. revert HI. induction Hs; eauto using system_step_inv. Qed.

(** C1: Every state the kernel reaches from one with the invariant has it again: after
    any sequence of traps (system calls, faults, interrupts) with any registers, and
    of steps of user code and devices, thread control blocks, capability fields, the
    domain schedule and the kernel's tables stay within their ranges. *)
Theorem kernel_invariant s s' : kernel_inv s → rtc system_step s s' → kernel_inv s'.
Proof. apply system_inv. Qed.

(** C28: No sequence of system calls gives a thread a priority, or the right to
    give a priority, above the highest one a thread started with. *)
Theorem priority_confined s s' x t : kernel_inv s → rtc system_step s s' → tcbs s' !! x = Some t →
  tcbPriority t ≤ prio_bound ∧ tcbMCP t ≤ prio_bound.
Proof. intros HI Hs Hx. destruct (system_inv _ _ HI Hs) as [Hwf]. destruct (Hwf _ _ Hx) as (? & ? & _). lia. Qed.

(** C39: Every way of deriving a capability (masking its rights, setting its data,
    [deriveCap]) turns a well-formed capability into a well-formed one. *)
Theorem derived_caps_wf s slot c r b d : kernel_inv s → cap_wf c →
  cap_wf (maskCapRights r c) ∧ cap_wf (updateCapData b d c) ∧
  ∀ st c' s', deriveCap slot c s = Done (st, c') s' → cap_wf c' ∧ kernel_inv s'.
Proof.
  intros HI Hc. split_and!; [by apply maskCapRights_wf|by apply updateCapData_wf|].
  intros st c' s' E. by apply (keeps_elim _ _ _ _ _ _ (kinv_deriveCap slot c Hc) HI) in E as [? ?].
Qed.

(** The authority check of priority changes accepts exactly the priorities up to
    the MCP of the authority's thread; otherwise it changes only the error, to a range
    error with the range that would be accepted. The assertion in it never fails. *)
Theorem checkPrio_ok s prio auth t : kernel_inv s → tcbs s !! auth = Some t →
  checkPrio prio auth s =
    if prio <=? tcbMCP t then Done EXCEPTION_NONE s
    else Done EXCEPTION_SYSCALL_ERROR (set_current_syscall_error
      (set_err_type seL4_RangeError (set_rangeErrorMax (tcbMCP t) (set_rangeErrorMin 0 (current_syscall_error s)))) s).
Proof.
  intros HI Ht. destruct (ki_tcbs _ HI _ _ Ht) as (_ & Hm & _). pose proof (ki_bound _ HI).
  unfold checkPrio, get_tcb, guard_assert, mbind, M_bind, get_state, deref. rewrite Ht.
  rewrite (proj2 (Z.leb_le (tcbMCP t) seL4_MaxPrio)) by (change seL4_MaxPrio with 255; lia).
  rewrite Z.leb_antisym. by destruct (tcbMCP t <? prio).
Qed.

(** The state with the user registers of a thread replaced. *)
Definition with_regs (s : kstate) (p : Z) (t : tcb) (ctx : gmap Z Z) : kstate :=
  set_tcbs (<[p := set_tcbContext ctx t]> (tcbs s)) s.
Lemma with_regs_id s p t : tcbs s !! p = Some t → with_regs s p t (tcbContext t) = s.
Proof. intros Ht. unfold with_regs. destruct t, s; unfold set_tcbs; simpl in *. by rewrite insert_id. Qed.
Lemma setMR_reg s p t ctx buffer i w : 0 ≤ i < n_msgRegisters →
  setMR p buffer i w (with_regs s p t ctx) = Done (i + 1) (with_regs s p t (<[msg_register i := w]> ctx)).
Proof.
  intros Hi. unfold setMR. destruct (Z.leb_spec n_msgRegisters i); [lia|].
  unfold setRegister, mod_tcb, get_tcb, with_regs, mbind, M_bind, get_state, deref; simpl.
  rewrite lookup_insert_eq. unfold modify, set_tcbs; simpl. by rewrite insert_insert_eq.
Qed.

(** The message registers of a cap fault, as [setMRs_fault] fills them. *)
Definition cap_fault_regs (ctx : gmap Z Z) (pc addr phase failure : Z) : gmap Z Z :=
  <[msg_register 3 := failure]> (<[msg_register 2 := phase]> (<[msg_register 1 := addr]> (<[msg_register 0 := pc]> ctx))).

(** C36: The message of a cap fault holds the faulting address, the capability
    address and the phase, and then always reports an invalid root as the reason,
    whatever lookup failure caused the fault: no reachable state has another value
    in [tcbLookupFailure]. *)
Theorem capFault_message s s' sender receiver buffer t r addr phase :
  kernel_inv s → rtc system_step s s' →
  tcbs s' !! sender = Some t → tcbFault t = seL4_Fault_CapFault addr phase →
  tcbs s' !! receiver = Some r → sender ≠ receiver →
  setMRs_fault sender receiver buffer s' =
    Done 4 (with_regs s' receiver r (cap_fault_regs (tcbContext r)
      (wrap (default 0 (tcbContext t !! FaultIP))) addr (Z.b2z phase) 1)).
Proof.
  intros HI Hs Ht Hf Hr Hne.
  assert (tcbLookupFailure t = lookup_fault_invalid_root) as Hl.
  { destruct (system_inv _ _ HI Hs) as [Hwf]. by destruct (Hwf _ _ Ht) as (_ & _ & _ & ?). }
  assert (∀ ctx, get_tcb sender (with_regs s' receiver r ctx) = Done t (with_regs s' receiver r ctx)) as Hget.
  { intros ctx. unfold get_tcb, with_regs, mbind, M_bind, get_state, deref; simpl. by rewrite lookup_insert_ne, Ht. }
  rewrite <-(with_regs_id s' receiver r Hr) at 1.
  unfold setMRs_fault, setMRs_lookup_failure, getRestartPC, getRegister, mbind, M_bind, mret, M_ret.
  rewrite Hget, Hf, Hget, setMR_reg by done. rewrite setMR_reg by done. rewrite setMR_reg by done.
  rewrite Hget, Hl. by rewrite setMR_reg by done.
Qed.
End system.

(** ** A concrete system

    The state of [Example.v] with the remaining TCB slots, where [tA] has a fault handler. *)
Section example.
#[local] Existing Instances example_platform example_platform_ok.
Definition ex_bound : PrioBound := 255.
#[local] Existing Instance ex_bound.

Definition ex_tcb_slots : list (Z * cte) :=
  (TCB_PTR_CTE_PTR tA tcbFaultHandler, Cte (cap_endpoint_cap 7 true true true true ep1) nullMDBNode) ::
  flat_map (λ t, (λ i, (TCB_PTR_CTE_PTR t i, ex_null)) <$> [tcbCTable; tcbBuffer; tcbFaultHandler; tcbTimeoutHandler])
    [tA; tB; tC; tD; tE; tI].
Definition ex_system : kstate := set_ctes (list_to_map (ex_ctes ++ ex_tcb_slots)) ex_state.
(** A system call from [tA]. *)
Definition ex_syscall (sys : syscall) (cptr : Z) : trap :=
  Trap (λ r, if r =? 16 then syscall_number sys else if r =? capRegister then cptr else 0) 8 288 4096.

Lemma list_to_map_Forall {A} (P : A → Prop) (l : list (Z * A)) :
  Forall (λ p, P p.2) l → map_Forall (λ _, P) (list_to_map l : gmap Z A).
Proof. intros Hl i x Hx%elem_of_list_to_map_2. rewrite Forall_forall in Hl. by apply (Hl (i, x)). Qed.
Lemma ex_system_inv : kernel_inv ex_system.
Proof.
  split.
  - apply list_to_map_Forall. repeat (apply Forall_cons; split; [by vm_compute|]). constructor.
  - apply list_to_map_Forall. repeat (apply Forall_cons; split; [by vm_compute|]). constructor.
  - by vm_compute.
  - split_and!; [done| |done|done| |done|by vm_compute].
    + apply Forall_cons; split; [right; by vm_compute|]. apply Forall_singleton. by left.
    + by exists (dschedule_make 0 1).
  - done.
  - done.
  - by vm_compute.
  - by vm_compute.
  - by vm_compute.
  - done.
Qed.

(** [tA] calls a capability it does not have: the fault goes to its handler's endpoint and [tB] runs. *)
Definition ex_trap : trap := ex_syscall SysCall 77.
Definition ex_after : kstate := match trap_entry ex_trap ex_system with Done _ s' => s' | Stuck _ => ex_system end.
Lemma ex_step : rtc system_step ex_system ex_after.
Proof.
  assert (is_Some (match trap_entry ex_trap ex_system with Done uc s' => Some uc | Stuck _ => None end)) as [uc Hu]
    by (vm_compute; eauto).
  apply rtc_once, (step_trap _ ex_trap uc). unfold ex_after. destruct (trap_entry ex_trap ex_system); naive_solver.
Qed.
Lemma kernel_invariant_witness : ksCurThread ex_after = tB ∧ kernel_inv ex_after.
Proof. split; [by vm_compute|]. apply (kernel_invariant ex_system); [apply ex_system_inv|apply ex_step]. Defined.

(** The lookup of [tA] failed at a guard, and its handler is told the root was invalid. *)
Lemma capFault_message_witness : current_lookup_fault ex_after = lookup_fault_guard_mismatch 0 64 60 ∧
  ∃ t r, tcbs ex_after !! tA = Some t ∧ tcbs ex_after !! tC = Some r ∧
  setMRs_fault tA tC NULL ex_after = Done 4 (with_regs ex_after tC r (cap_fault_regs (tcbContext r) 4096 77 0 1)).
Proof.
  split; [by vm_compute|].
  destruct (tcbs ex_after !! tA) as [t|] eqn:Ht; [|by vm_compute in Ht].
  destruct (tcbs ex_after !! tC) as [r|] eqn:Hr; [|by vm_compute in Hr].
  exists t, r. split_and!; [done..|].
  assert ((λ t, (tcbFault t, tcbContext t !! FaultIP)) <$> tcbs ex_after !! tA =
    Some (seL4_Fault_CapFault 77 false, Some 4096)) as Hf by (by vm_compute).
  rewrite Ht in Hf. injection Hf as Hf Hc.
  assert (tA ≠ tC) as Hne by (by vm_compute).
  pose proof (capFault_message ex_system ex_after tA tC NULL t r 77 false ex_system_inv ex_step Ht Hf Hr Hne) as E.
  rewrite Hc in E. exact E.
Defined.

Lemma priority_confined_witness : from_option (λ t, tcbPriority t ≤ 255) False (tcbs ex_after !! tB).
Proof.
  destruct (tcbs ex_after !! tB) as [t|] eqn:Ht; [|by vm_compute in Ht].
  apply (priority_confined ex_system ex_after tB t ex_system_inv ex_step Ht).
Defined.
Lemma derived_caps_witness : cap_wf (maskCapRights 2 (cap_frame_cap 1 0x80000000 0 3 false 0x5000)) ∧
  cap_wf (updateCapData false 0x1044 (cap_cnode_cap 4 60 0 cn1)).
Proof.
  split.
  - apply (derived_caps_wf ex_system (slot1 2) _ 2 false 0); [apply ex_system_inv|by vm_compute].
  - apply (derived_caps_wf ex_system (slot1 2) _ 2 false 0x1044); [apply ex_system_inv|by vm_compute].
Defined.
(** A thread with MCP 255 may set any priority but 256. *)
Lemma checkPrio_witness : checkPrio 255 tA ex_system = Done EXCEPTION_NONE ex_system ∧
  ∃ s', checkPrio 256 tA ex_system = Done EXCEPTION_SYSCALL_ERROR s'.
Proof.
  destruct (tcbs ex_system !! tA) as [t|] eqn:Ht; [|by vm_compute in Ht].
  assert (tcbMCP <$> (tcbs ex_system !! tA) = Some 255) as Hm by (by vm_compute). rewrite Ht in Hm. injection Hm as Hm.
  split; [|eexists]; rewrite (checkPrio_ok ex_system _ tA t ex_system_inv Ht), Hm; reflexivity.
Defined.
End example.
