(* ===== verification/BootInv.v ===== *)
(** * Booting establishes the kernel's invariant

    The state [init_kernel] hands to user level satisfies the invariant of
    [Invariant.v], so every state the kernel ever reaches does. The domain
    schedule is only set up near the end of the boot; [boot_inv S] is the
    invariant with [S] in place of its clause on the schedule, and the code before
    and after that point keeps it for every [S]. *)
From stdpp Require Import relations.
From S2P Require Import Prelude Words Platform State Machine Keeps RefillList Sporadic Queues CapOps CSpace VSpace Thread CNode Message Delete Untyped TcbInv Endpoint Frames Invariant InvariantCore InvariantIpc InvariantDelete InvariantKernel KernelSpec BootMemory Boot BootInit.

(** The first thread has the highest priority. *)
Definition boot_bound : PrioBound := seL4_MaxPrio.
#[local] Existing Instance boot_bound.

Section boot_inv.
Context `{PlatformOk} `{BootPlatformOk} (S : list Z → Z → Z → Prop).

Record core_inv (s : kstate) : Prop := {
  ci_tcbs : map_Forall (λ _ t, tcb_wf t) (tcbs s);
  ci_ctes : map_Forall (λ _ c, cap_wf (cte_cap c)) (ctes s);
  ci_domain : 0 ≤ ksCurDomain s < numDomains;
  ci_asids : Z.of_nat (length (riscvKSASIDTable s)) = nASIDPools;
  ci_excaps : length (current_extra_caps s) = 3%nat;
  ci_ready : Z.of_nat (length (ksReadyQueues s)) = numDomains * 256;
  ci_bitmap : length (ksReadyQueuesL1Bitmap s) = Z.to_nat numDomains ∧
    length (ksReadyQueuesL2Bitmap s) = Z.to_nat numDomains;
  ci_irq : 0 ≤ active_irq s ≤ maxIRQ
}.
Definition boot_inv (s : kstate) : Prop :=
  core_inv s ∧ S (ksDomSchedule s) (ksDomScheduleStart s) (ksDomScheduleIdx s).

Ltac boot_modify := apply keeps_modify; intros s [[] HS]; split; [split; simpl; try done|done].

#[global] Instance binv_err : ErrFrame boot_inv.
Proof. split; by intros v s [[] ?]. Qed.
#[global] Instance binv_run : RunFrame boot_inv.
Proof.
  split; [|by intros v s [[] ?]].
  intros s p t f [[Ht] HS] Hp. split; [|done]. split; try done. apply map_Forall_insert_2; [|done]. by apply (Ht p) in Hp.
Qed.

Lemma binv_mod_tcb p f : (∀ t, tcb_wf t → tcb_wf (f t)) → kept boot_inv (mod_tcb p f).
Proof.
  intros Hf. unfold mod_tcb. eapply keeps_bind; [apply keeps_get_tcb|]. intros t (s0 & [[Ht _] _] & Hp).
  boot_modify. apply map_Forall_insert_2; [|done]. by apply Hf, (Ht p).
Qed.
Lemma binv_mod_cte p f : (∀ c, cap_wf (cte_cap c) → cap_wf (cte_cap (f c))) → kept boot_inv (mod_cte p f).
Proof.
  intros Hf. unfold mod_cte. eapply keeps_bind; [apply keeps_get_cte|]. intros t (s0 & [[_ Ht _] _] & Hp).
  boot_modify. apply map_Forall_insert_2; [|done]. by apply Hf, (Ht p).
Qed.
Lemma binv_set_cap p c : cap_wf c → kept boot_inv (mod_cte p (set_cte_cap c)).
Proof. intros Hc. by apply binv_mod_cte. Qed.
Lemma binv_mod_mdb p f : kept boot_inv (mod_mdb p f).
Proof. by apply binv_mod_cte. Qed.
Lemma binv_mod_sc p f : kept boot_inv (mod_sc p f).
Proof. unfold mod_sc. keep. boot_modify. Qed.
Lemma binv_on_sc {A} p (m : M sched_context A) : kept boot_inv (on_sc p m).
Proof.
  apply keeps_intro. intros s [[] HS]. unfold wlp, on_sc. destruct (scs s !! p) as [c|]; [|done].
  destruct (m c); [|done]. split; [|done]. split; [by split|done].
Qed.
Lemma binv_store_word b i w : kept boot_inv (store_word b i w).
Proof. boot_modify. Qed.
Lemma binv_setRegister t r w : kept boot_inv (setRegister t r w).
Proof. by apply binv_mod_tcb. Qed.
Lemma binv_dev_input {A} (f : device_state → nat → A) : kept boot_inv (dev_input f).
Proof. unfold dev_input. keep. boot_modify. Qed.
Lemma binv_keep_objects P `{∀ p, Decision (P p)} : kept boot_inv (modify (keep_objects P)).
Proof. boot_modify; intros k x [Hk _]%map_lookup_filter_Some; eauto. Qed.
Lemma binv_new_slots p n : kept boot_inv (modify (λ s, set_ctes (new_slots p n (ctes s)) s)).
Proof.
  boot_modify. by apply new_slots_wf.
Qed.
End boot_inv.

#[export] Hint Resolve binv_set_cap binv_mod_mdb binv_mod_sc binv_on_sc binv_store_word binv_setRegister
  binv_dev_input binv_keep_objects binv_new_slots : keeps.
#[export] Hint Extern 2 (keeps (boot_inv _) (mod_tcb _ _) _) => (apply binv_mod_tcb; by intros) : keeps.
#[export] Hint Extern 2 (keeps (boot_inv _) (mod_cte _ _) _) => (apply binv_mod_cte; by intros) : keeps.
#[export] Hint Extern 2 (keeps (boot_inv _) (modify _) _) =>
  (apply keeps_modify; intros ? [[] ?]; split; [split; simpl; try done; rewrite ?length_insert; done|done]) : keeps.

(** ** Kernel functions the boot code calls *)
Section kernel.
Context `{PlatformOk} `{BootPlatformOk} (S : list Z → Z → Z → Prop).
Notation I := (boot_inv S).

Lemma binv_getCurrentTime : kept I getCurrentTime.
Proof. unfold getCurrentTime. keep. Qed.
Lemma binv_readl a : kept I (readl a).
Proof. unfold readl. keep. Qed.
Lemma binv_writel v a : kept I (writel v a).
Proof. unfold writel. keep. Qed.
#[local] Hint Resolve binv_getCurrentTime binv_readl binv_writel : keeps.
Lemma binv_maskInterrupt d i : kept I (maskInterrupt d i).
Proof. unfold maskInterrupt, plic_mask_irq, clear_sie_mask, set_sie_mask. keep. Qed.
#[local] Hint Resolve binv_maskInterrupt : keeps.
Lemma binv_setIRQState st i : kept I (setIRQState st i).
Proof. unfold setIRQState. keep. Qed.
Lemma binv_initLocalIRQController : kept I initLocalIRQController.
Proof. unfold initLocalIRQController, plic_init_hart, plic_mask_irq, set_sie_mask. keep. Qed.
Lemma binv_initIRQController : kept I initIRQController.
Proof.
  unfold initIRQController, plic_init_controller, plic_pending_interrupt. keep.
  apply keeps_modify. intros s [[] HS]. split; [split; simpl; try done|done].
  pose proof plic_irqs. unfold irqInvalid, maxIRQ, KERNEL_TIMER_IRQ. lia.
Qed.
Lemma binv_setKernelVSpaceRoot : kept I setKernelVSpaceRoot.
Proof. unfold setKernelVSpaceRoot, setVSpaceRoot, write_satp, addrFromKPPtr. keep. Qed.
Lemma binv_store_pte p v : kept I (store_pte p v).
Proof. unfold store_pte. keep. Qed.
#[local] Hint Resolve binv_store_pte : keeps.
Lemma binv_copyGlobalMappings p : kept I (copyGlobalMappings p).
Proof. unfold copyGlobalMappings, load_pte. keep. Qed.
Lemma binv_lookupPTSlot pt v : kept I (lookupPTSlot pt v).
Proof.
  unfold lookupPTSlot. generalize (PT_INDEX_BITS * (CONFIG_PT_LEVELS - 1) + seL4_PageBits).
  generalize (Z.to_nat (CONFIG_PT_LEVELS - 1)). intros n. revert pt.
  induction n as [|n IH]; intros pt b; simpl; unfold load_pte; keep. 
Qed.
Lemma binv_riscvKSASIDTable_set i p : kept I (riscvKSASIDTable_set i p).
Proof. unfold riscvKSASIDTable_set, riscvKSASIDTable_get. keep. Qed.
Lemma binv_cteInsert c src dest : cap_wf c → kept I (cteInsert c src dest).
Proof. intros Hc. unfold cteInsert, setUntypedCapAsFull. keep. apply binv_mod_cte. intros c'. apply cap_wf_set_free. Qed.
Lemma binv_deriveCap_frame slot asid base sz r d a : cap_wf (cap_frame_cap asid base sz r d a) →
  keeps I (deriveCap slot (cap_frame_cap asid base sz r d a)) (λ x, cap_wf x.2).
Proof. intros (_ & ? & ?). unfold deriveCap. simpl. keep. Qed.
Lemma binv_memzero a n : kept I (memzero a n).
Proof. unfold memzero. keep. Qed.
Lemma binv_clearMemory a n : kept I (clearMemory a n).
Proof. unfold clearMemory. keep. Qed.
Lemma binv_memcpy d s n : kept I (memcpy d s n).
Proof. unfold memcpy, load_byte, store_byte. keep. Qed.
Lemma binv_new_tcb_object p : kept I (new_tcb_object p).
Proof.
  unfold new_tcb_object. keep. apply keeps_modify. intros s [[] HS]. split; [split; simpl; try done|done].
  apply map_Forall_insert_2; [|done]. split_and!; try done. pose proof num_domains_ok. simpl. lia.
Qed.
Lemma binv_new_sc_object p : kept I (new_sc_object p).
Proof. unfold new_sc_object. keep. Qed.
Lemma binv_configure_sched_context t sc ts : kept I (configure_sched_context t sc ts).
Proof. unfold configure_sched_context. keep. Qed.
#[local] Hint Resolve binv_configure_sched_context : keeps.
Lemma binv_create_idle_thread : kept I create_idle_thread.
Proof. unfold create_idle_thread, configureIdleThread, Arch_configureIdleThread. keep. Qed.
End kernel.
#[export] Hint Resolve binv_getCurrentTime binv_setIRQState binv_initLocalIRQController binv_initIRQController
  binv_setKernelVSpaceRoot binv_store_pte binv_copyGlobalMappings binv_lookupPTSlot binv_riscvKSASIDTable_set
  binv_cteInsert binv_memzero binv_clearMemory binv_memcpy binv_new_tcb_object binv_new_sc_object
  binv_configure_sched_context binv_create_idle_thread : keeps.

(** ** The boot code *)
Section boot.
Context `{PlatformOk} `{BootPlatformOk} (S : list Z → Z → Z → Prop).

Definition bkern_inv (b : boot_state) : Prop := boot_inv S (kern b).
Notation I := bkern_inv.

Lemma bk_on_kern {A} (m : K A) Q : keeps (boot_inv S) m Q → keeps I (on_kern m) Q.
Proof.
  intros Hm. apply keeps_intro. intros b HI. unfold wlp, on_kern.
  destruct (m (kern b)) as [a s|] eqn:E; [|done]. by apply (keeps_elim _ _ _ _ _ _ Hm HI) in E as [? ?].
Qed.
Lemma bk_on_ndks {A} (m : R A) : kept I (on_ndks m).
Proof. apply keeps_intro. intros b HI. unfold wlp, on_ndks. by destruct (m (ndks b)). Qed.
End boot.
#[export] Hint Resolve bk_on_kern bk_on_ndks : keeps.
#[export] Hint Extern 2 (keeps (bkern_inv _) (modify _) _) => (apply keeps_modify; by intros) : keeps.

Section boot2.
Context `{PlatformOk} `{BootPlatformOk} (S : list Z → Z → Z → Prop).
Notation I := (bkern_inv S).

Lemma bk_lift {A} (o : option A) : kept I (on_kern (lift o)).
Proof. apply bk_on_kern. eapply keeps_conseq; [apply keeps_lift|done]. Qed.
#[local] Hint Resolve bk_lift : keeps.
Lemma bk_write_slot p c : cap_wf c → kept I (write_slot p c).
Proof. intros Hc. unfold write_slot. keep. Qed.
#[local] Hint Resolve bk_write_slot : keeps.
Lemma bk_write_root_slot root pos c : cap_wf c → kept I (write_root_slot root pos c).
Proof. intros Hc. unfold write_root_slot, pptr_of_cap. keep. Qed.
#[local] Hint Resolve bk_write_root_slot : keeps.
Lemma bk_provide_cap root c : cap_wf c → kept I (provide_cap root c).
Proof. intros Hc. unfold provide_cap. keep. Qed.
#[local] Hint Resolve bk_provide_cap : keeps.
Lemma bk_bi_put i w : kept I (bi_put i w).
Proof. unfold bi_put. keep. Qed.
#[local] Hint Resolve bk_bi_put : keeps.
Lemma bk_bi_put_region i r : kept I (bi_put_region i r).
Proof. unfold bi_put_region. keep. Qed.
#[local] Hint Resolve bk_bi_put_region : keeps.
Lemma bk_alloc size n : kept I (alloc_rootserver_obj size n).
Proof. unfold alloc_rootserver_obj. keep. Qed.
#[local] Hint Resolve bk_alloc : keeps.
Lemma bk_maybe_alloc c e : kept I (maybe_alloc_extra_bi c e).
Proof. unfold maybe_alloc_extra_bi, mod_rootserver. keep. Qed.
#[local] Hint Resolve bk_maybe_alloc : keeps.
Lemma bk_create_rootserver_objects start r e : kept I (create_rootserver_objects start r e).
Proof. unfold create_rootserver_objects, alloc_root_cnode, alloc_root_vspace, mod_rootserver, new_cnode. keep. Qed.
#[local] Hint Resolve bk_create_rootserver_objects : keeps.
Lemma bk_init_freemem av res r e : kept I (init_freemem av res r e).
Proof.
  unfold init_freemem. keep. apply (keeps_while64 _ (λ _, True) (λ _, True)); [|done].
  intros i _. unfold place_rootserver_step. keep.
Qed.
#[local] Hint Resolve bk_init_freemem : keeps.
Lemma binv_map_kernel_frame p v r : kept (boot_inv S) (map_kernel_frame p v r).
Proof. unfold map_kernel_frame, kernel_root_put. keep. Qed.
Lemma binv_map_physical_window : kept (boot_inv S) map_physical_window.
Proof.
  unfold map_physical_window. keep. apply (keeps_while64 _ (λ _, True) (λ _, True)); [|done].
  intros [] _. unfold kernel_root_put. keep.
Qed.
Lemma binv_map_kernel_image a b : kept (boot_inv S) (map_kernel_image a b).
Proof.
  unfold map_kernel_image. keep. apply (keeps_while64 _ (λ _, True) (λ _, True)); [|done]. intros [[] ] _. keep.
Qed.
#[local] Hint Resolve binv_map_kernel_frame binv_map_physical_window binv_map_kernel_image : keeps.
Lemma bk_map_kernel_window : kept I map_kernel_window.
Proof. unfold map_kernel_window, map_kernel_devices, addrFromKPPtr, kernel_root_put. keep. Qed.
#[local] Hint Resolve bk_map_kernel_window : keeps.
Lemma bk_init_memory a b c d e : kept I (init_memory a b c d e).
Proof.
  unfold init_memory, init_cpu, init_plat, activate_kernel_vspace, arch_init_freemem, get_p_reg_kernel_img, addrFromKPPtr.
  keep.
Qed.
Lemma bk_init_irqs root : kept I (init_irqs root).
Proof. unfold init_irqs. keep. Qed.
Lemma bk_populate_bi_frame a b c d : kept I (populate_bi_frame a b c d).
Proof. unfold populate_bi_frame. keep. Qed.
Lemma bk_write_extra_bi a b c : kept I (write_extra_bi a b c).
Proof. unfold write_extra_bi, put_header. keep. Qed.
(** Frames and page tables *)
Lemma it_asid_wf : asid_wf IT_ASID.
Proof. done. Qed.
Lemma bk_create_mapped pd p v large x : keeps I (create_mapped_it_frame_cap pd p v IT_ASID large x)
  (λ c, ∃ sz, c = cap_frame_cap IT_ASID p sz VMReadWrite false v ∧ cap_wf c).
Proof.
  unfold create_mapped_it_frame_cap, map_it_frame_cap, pptr_of_cap. keep.
  eexists. split; [done|]. destruct large; vm_compute; split_and!; done.
Qed.
Lemma bk_create_mapped_wf pd p v large x : keeps I (create_mapped_it_frame_cap pd p v IT_ASID large x) cap_wf.
Proof. eapply keeps_conseq; [apply bk_create_mapped|]. by intros c (? & _ & ?). Qed.
#[local] Hint Resolve bk_create_mapped_wf : keeps.
Lemma bk_create_frames_of_region root pd r off : kept I (create_frames_of_region root pd r true off).
Proof.
  unfold create_frames_of_region.
  keep. apply (keeps_while64 _ (λ _, True) (λ _, True)); [|done].
  intros f _. keep; by repeat case_match.
Qed.
#[local] Hint Resolve bk_create_frames_of_region : keeps.
#[local] Hint Extern 1 (cap_wf _) => (vm_compute; solve [split_and!; done|done]) : keeps.
Lemma bk_create_it_pt_cap pd p v : keeps I (create_it_pt_cap pd p v IT_ASID) cap_wf.
Proof. unfold create_it_pt_cap, map_it_pt_cap, pptr_of_cap. keep. Qed.
#[local] Hint Resolve bk_create_it_pt_cap : keeps.
Lemma bk_create_it_pts root pt r i : kept I (create_it_pts root pt r i).
Proof.
  unfold create_it_pts, it_alloc_paging, mod_rootserver.
  apply (keeps_while64 _ (λ _, True) (λ _, True)); [|done]. intros f _. keep; by repeat case_match.
Qed.
#[local] Hint Resolve bk_create_it_pts : keeps.
Lemma bk_create_it_address_space root r : keeps I (create_it_address_space root r) cap_wf.
Proof. unfold create_it_address_space. keep. Qed.
Lemma bk_create_bi_frame_cap root pd v : kept I (create_bi_frame_cap root pd v).
Proof. unfold create_bi_frame_cap. keep. Qed.
Lemma bk_create_ipcbuf_frame_cap root pd v : keeps I (create_ipcbuf_frame_cap root pd v)
  (λ c, ∃ p sz, c = cap_frame_cap IT_ASID p sz VMReadWrite false v ∧ cap_wf c).
Proof.
  unfold create_ipcbuf_frame_cap. eapply keeps_bind; [keep_call|]. intros rs _.
  eapply (keeps_bind _ _ _ (λ _, True)); [keep|]. intros _ _.
  eapply keeps_bind; [apply bk_create_mapped|]. intros c (sz & -> & Hc). keep. eauto.
Qed.
Lemma bk_map_extra_bi root pd a b : kept I (map_extra_bi root pd a b).
Proof. unfold map_extra_bi. keep. Qed.
Lemma bk_init_sched_control root n : kept I (init_sched_control root n).
Proof.
  unfold init_sched_control. keep. apply (keeps_while64 _ (λ _, True) (λ _, True)); [|done]. intros i _. keep; by repeat case_match.
Qed.
Lemma bk_create_it_asid_pool root : kept I (create_it_asid_pool root).
Proof. unfold create_it_asid_pool. keep. Qed.
Lemma bk_write_it_asid_pool a b : kept I (write_it_asid_pool a b).
Proof. unfold write_it_asid_pool, pptr_of_cap. keep. Qed.
Lemma root_cnode_cap_wf p :
  cap_wf (cap_cnode_cap CONFIG_ROOT_CNODE_SIZE_BITS (wordBits - CONFIG_ROOT_CNODE_SIZE_BITS) 0 p).
Proof.
  destruct root_cnode_size_valid as [Hl Hh]. unfold seL4_PageBits, seL4_SlotBits in *. unfold wordBits. simpl.
  assert (0 < 2 ^ (64 - CONFIG_ROOT_CNODE_SIZE_BITS)) by (apply Z.pow_pos_nonneg; lia). lia.
Qed.
Lemma bk_create_root_cnode : keeps I create_root_cnode cap_wf.
Proof. unfold create_root_cnode. pose proof root_cnode_cap_wf. keep; auto. Qed.
Lemma bk_create_domain_cap root : kept I (create_domain_cap root).
Proof. unfold create_domain_cap. keep. Qed.
End boot2.
#[export] Hint Resolve bk_lift bk_write_slot bk_write_root_slot bk_provide_cap bk_bi_put bk_bi_put_region
  bk_init_memory bk_init_irqs bk_populate_bi_frame bk_write_extra_bi bk_create_it_address_space
  bk_create_frames_of_region bk_create_bi_frame_cap bk_map_extra_bi bk_init_sched_control
  bk_create_it_asid_pool bk_write_it_asid_pool bk_create_root_cnode bk_create_domain_cap : keeps.

Section boot3.
Context `{PlatformOk} `{BootPlatformOk} (S : list Z → Z → Z → Prop).
Notation I := (bkern_inv S).

#[local] Hint Resolve binv_deriveCap_frame : keeps.
#[local] Hint Extern 1 (cap_wf _) => (vm_compute; solve [split_and!; done|done]) : keeps.
Lemma bk_set_tcb p f : (∀ t, tcb_wf t → tcb_wf (f t)) → kept I (on_kern (mod_tcb p f)).
Proof. intros Hf. by apply bk_on_kern, binv_mod_tcb. Qed.
Lemma bk_create_initial_thread root pd entry bi ipc p sz v :
  cap_wf root → cap_wf pd → cap_wf (cap_frame_cap IT_ASID p sz VMReadWrite false v) →
  kept I (create_initial_thread root pd entry bi ipc (cap_frame_cap IT_ASID p sz VMReadWrite false v)).
Proof.
  intros Hr Hp Hf. pose proof num_domains_ok. unfold create_initial_thread, pptr_of_cap, setNextPC.
  keep; apply bk_set_tcb; intros t (? & ? & ? & ?); split_and!;
    solve [done|simpl; lia|vm_compute; done].
Qed.

Lemma bk_provide_untyped_cap root dev p bits first : kept I (provide_untyped_cap root dev p bits first).
Proof.
  unfold provide_untyped_cap, bi_put_untyped. keep. apply bk_provide_cap. simpl.
  match goal with H : _ || _ = false |- _ => apply orb_false_iff in H as [?%Z.ltb_ge ?%Z.ltb_ge] end. lia.
Qed.
#[local] Hint Resolve bk_provide_untyped_cap : keeps.
Lemma bk_create_untypeds_for_region root dev r first : kept I (create_untypeds_for_region root dev r first).
Proof.
  unfold create_untypeds_for_region. apply (keeps_while64 _ (λ _, True) (λ _, True)); [|done].
  intros reg _. keep; by repeat case_match.
Qed.
#[local] Hint Resolve bk_create_untypeds_for_region : keeps.
Lemma bk_create_untypeds_device root first : kept I (create_untypeds_device root first).
Proof.
  unfold create_untypeds_device. apply (keeps_while64 _ (λ _, True) (λ _, True)); [|done].
  intros [i start] _. keep; by repeat case_match.
Qed.
Lemma bk_create_untypeds_freemem root first : kept I (create_untypeds_freemem root first).
Proof.
  unfold create_untypeds_freemem. apply (keeps_while64 _ (λ _, True) (λ _, True)); [|done].
  intros i _. keep; by repeat case_match.
Qed.
#[local] Hint Resolve bk_create_untypeds_device bk_create_untypeds_freemem : keeps.
Lemma bk_create_untypeds root : kept I (create_untypeds root).
Proof. unfold create_untypeds, get_p_reg_kernel_img_boot, addrFromKPPtr. keep. Qed.
Lemma bk_bi_finalise : kept I bi_finalise.
Proof. unfold bi_finalise. keep. Qed.
End boot3.
#[export] Hint Resolve bk_create_initial_thread bk_create_untypeds bk_bi_finalise : keeps.

(** ** The whole boot *)
Section init.
Context `{PlatformOk} `{BootPlatformOk}.

(** Before [init_core_state] the domain schedule is all zero. *)
Definition no_schedule (sched : list Z) (start idx : Z) : Prop :=
  sched = replicate (Z.to_nat CONFIG_NUM_DOMAIN_SCHEDULES) 0 ∧ start = 0 ∧ idx = 0.

Lemma boot_inv_kernel_inv s : boot_inv domain_schedule_wf s ↔ kernel_inv s.
Proof. split; [by intros [[] ?]|by intros []]. Qed.

(** A step with an invariant, then one that may break it *)
Lemma wlp_keeps_bind {Σ A B} (I : Σ → Prop) (m : M Σ A) (k : A → M Σ B) P Q s :
  keeps I m P → I s → (∀ a s', I s' → P a → wlp (k a) Q s') → wlp (m ≫= k) Q s.
Proof. intros Hm HI Hk. apply wlp_bind. eapply wlp_mono; [by apply keeps_wlp|]. intros a s' [??]. by apply Hk. Qed.

Lemma init_core_state_inv a s : boot_inv no_schedule s → wlp (init_core_state a) (λ _ s', kernel_inv s') s.
Proof.
  pose proof num_schedules_ok as Hn. pose proof num_domains_ok as Hd.
  intros HI. unfold init_core_state.
  do 9 (eapply (wlp_keeps_bind (boot_inv no_schedule)); [keep_call|eassumption|clear dependent s; intros ? s ? _]).
  match goal with HI : boot_inv _ s |- _ => destruct HI as [[] (Hs & Hst & Hi)] end.
  unfold wlp, mbind, M_bind, modify, get_state, deref. simpl. rewrite Hs.
  destruct (replicate _ 0 !! 0%nat) as [d|] eqn:E; [|done].
  assert (∃ n, Z.to_nat CONFIG_NUM_DOMAIN_SCHEDULES = Datatypes.S (Datatypes.S n)) as [n En].
  { exists (Z.to_nat (CONFIG_NUM_DOMAIN_SCHEDULES - 2)). lia. }
  split; try done; simpl; [lia|]. rewrite Hst, Hi. unfold domain_schedule_wf. rewrite En. simpl.
  split_and!; try lia.
  - rewrite length_replicate. lia.
  - apply Forall_cons. split.
    { right. change (dschedule_domain _) with 0. split; [lia|by vm_compute]. }
    apply Forall_cons. split; [by left|].
    apply Forall_replicate. by left.
  - replace (Z.to_nat (CONFIG_NUM_DOMAIN_SCHEDULES - 1)) with (Datatypes.S n) by lia. simpl.
    apply (lookup_replicate_2 (Datatypes.S n)). lia.
  - by eexists.
Qed.

Lemma wlp_on_kern {A} (m : K A) (Q : A → boot_state → Prop) b :
  wlp m (λ a s, Q a (set_kern s b)) (kern b) → wlp (on_kern m) Q b.
Proof. unfold wlp, on_kern. by destruct (m (kern b)). Qed.

(** The steps of the boot code up to the first one that does not keep [no_schedule] *)
Ltac boot_steps J := repeat first
  [ match goal with H : ∃ _ _, _ = cap_frame_cap _ _ _ _ _ _ ∧ _ |- _ => destruct H as (? & ? & -> & ?) end
  | match goal with |- wlp (if ?c then _ else _) _ _ => destruct c; [by intros ?|] end
  | eapply (wlp_keeps_bind J); [keep_call|eassumption|];
    let b := fresh "b" in let H := fresh in intros ? b ? H; cbv beta in H ].

Definition booted (ok : bool) (b : boot_state) : Prop := ok = true → kernel_inv (kern b).
#[local] Hint Resolve bk_create_ipcbuf_frame_cap : keeps.
Lemma init_rootserver_inv ul off entry dtb dtbsz b : bkern_inv no_schedule b →
  wlp (init_rootserver ul off entry dtb dtbsz) booted b.
Proof.
  intros HI. unfold init_rootserver. boot_steps (bkern_inv no_schedule).
  apply wlp_bind, wlp_on_kern. eapply wlp_mono; [by apply init_core_state_inv|].
  intros _ s' HI'%boot_inv_kernel_inv.
  match goal with |- wlp _ _ ?b => assert (bkern_inv domain_schedule_wf b) by done; generalize dependent b end.
  clear. intros b HI. boot_steps (bkern_inv domain_schedule_wf).
  intros _. by apply boot_inv_kernel_inv.
Qed.

Lemma loader_inv mem dev : bkern_inv no_schedule (loader_state mem dev).
Proof.
  pose proof num_domains_ok as Hd. pose proof plic_irqs.
  split; [|by split_and!]. split; simpl; try done.
  - apply map_Forall_singleton. split_and!; solve [done|simpl; lia|vm_compute; done].
  - by apply new_slots_wf, new_slots_wf.
  - lia.
  - rewrite length_replicate. lia.
  - by rewrite !length_replicate.
  - unfold maxIRQ, KERNEL_TIMER_IRQ. lia.
Qed.

Lemma bk_kernel {A} (m : K A) : kept kernel_inv m → kept (bkern_inv domain_schedule_wf) (on_kern m).
Proof.
  intros Hm. apply bk_on_kern, keeps_intro. intros s HI%boot_inv_kernel_inv.
  eapply wlp_mono; [by apply (keeps_wlp _ _ _ _ Hm)|]. intros a s' [? _]. split; [|done]. by apply boot_inv_kernel_inv.
Qed.

(** C2: Whatever the loader hands over, a boot that reaches user level has established
    the invariant of the kernel, with 255 as the bound of the priorities: every state
    the system reaches from there by traps and user steps satisfies it. *)
Theorem boot_invariant ui_start ui_end pv_offset v_entry dtb dtb_size mem dev b s :
  init_kernel ui_start ui_end pv_offset v_entry dtb dtb_size (loader_state mem dev) = Done () b →
  rtc system_step (kern b) s → kernel_inv s.
Proof.
  intros Hb. apply system_inv. revert Hb. apply (wlp_done _ (λ _ b, kernel_inv (kern b))).
  unfold init_kernel, try_init_kernel. apply wlp_bind, wlp_bind.
  eapply wlp_mono; [apply keeps_wlp; [apply bk_init_memory|apply loader_inv]|].
  intros [ul|] b1 [HI _]; [|done].
  eapply wlp_mono; [by apply init_rootserver_inv|]. intros [] b2 HI2; [|done]. simpl.
  assert (bkern_inv domain_schedule_wf b2) as HJ by (by apply boot_inv_kernel_inv, HI2).
  eapply wlp_mono; [eapply (keeps_wlp (bkern_inv domain_schedule_wf) _ (λ _, True)); [|done]|].
  - keep; apply bk_kernel; [apply kinv_schedule|apply kinv_activateThread].
  - intros _ b3 [? _]. by apply boot_inv_kernel_inv.
Qed.
End init.
