(* ===== verification/BootRegions.v ===== *)
(** * The array of reserved regions

    [reserve_region] keeps the reserved regions sorted, disjoint and without two
    adjacent ones, and adds exactly the addresses of the new region. A list of
    regions stands for the used part of the array. *)
From stdpp Require Import sorting.
From S2P Require Import Prelude Words Platform State RefillList Sporadic CapOps CSpace VSpace Untyped BootMemory Machine.

(** ** Sets of regions *)
Definition in_region (x : Z) (r : region) : Prop := r_start r ≤ x < r_end r.
Definition in_regions (x : Z) (l : list region) : Prop := ∃ r, r ∈ l ∧ in_region x r.
Definition nonempty (r : region) : Prop := r_start r < r_end r.
(** One region before another, with or without a gap *)
Definition before (a b : region) : Prop := r_end a ≤ r_start b.
Definition gap (a b : region) : Prop := r_end a < r_start b.
Definition regions_sorted (l : list region) : Prop := Forall nonempty l ∧ StronglySorted before l.
Definition regions_ok (l : list region) : Prop := Forall nonempty l ∧ StronglySorted gap l.
Definition disjoint_from (r : region) (l : list region) : Prop := ∀ r', r' ∈ l → before r r' ∨ before r' r.

Lemma in_regions_nil x : in_regions x [] ↔ False.
Proof. split; [|done]. by intros (r & ?%elem_of_nil & _). Qed.
Lemma in_regions_cons x r l : in_regions x (r :: l) ↔ in_region x r ∨ in_regions x l.
Proof. unfold in_regions. setoid_rewrite elem_of_cons. naive_solver. Qed.
Lemma in_regions_app x l1 l2 : in_regions x (l1 ++ l2) ↔ in_regions x l1 ∨ in_regions x l2.
Proof. unfold in_regions. setoid_rewrite elem_of_app. naive_solver. Qed.
Lemma ss_snoc {A} (R : A → A → Prop) l x : StronglySorted R l → Forall (λ y, R y x) l → StronglySorted R (l ++ [x]).
Proof.
  intros Hl Hx. apply StronglySorted_app. split_and!; [|done|repeat constructor].
  intros y z Hy ->%list_elem_of_singleton. rewrite Forall_forall in Hx. auto.
Qed.
Lemma ss_impl {A} (R R' : A → A → Prop) l : (∀ x y, R x y → R' x y) → StronglySorted R l → StronglySorted R' l.
Proof. intros Hi. induction 1 as [|x l _ IH Hx]; constructor; [done|]. eapply Forall_impl; [done|auto]. Qed.
Lemma regions_ok_sorted l : regions_ok l → regions_sorted l.
Proof. intros [Hn Hs]. split; [done|]. eapply ss_impl; [|done]. unfold gap, before. lia. Qed.

(** ** The array *)
Definition resv_repr (l : list region) (b : ndks_boot) : Prop :=
  ∃ junk, reserved b = l ++ junk ∧ resv_count b = Z.of_nat (length l).
(** The other arrays *)
Definition same_free (b b' : ndks_boot) : Prop :=
  length (reserved b') = length (reserved b) ∧ freemem b' = freemem b ∧ avail_reg b' = avail_reg b.
Definition with_resv (l : list region) (b : ndks_boot) : ndks_boot := set_reserved l b.

Section array.
Implicit Types (b : ndks_boot) (l : list region) (Q : unit → ndks_boot → Prop).

Lemma wp_get_resv i r b (Q : region → ndks_boot → Prop) :
  0 ≤ i → reserved b !! Z.to_nat i = Some r → Q r b → wp (get_resv i) Q b.
Proof. intros _ Hr HQ. unfold get_resv. apply wp_bind, wp_gets. by eapply wp_deref. Qed.
Lemma wp_put_resv i r b Q : 0 ≤ i < Z.of_nat (length (reserved b)) →
  Q () (set_reserved (<[Z.to_nat i := r]> (reserved b)) b) → wp (put_resv i r) Q b.
Proof.
  intros Hi HQ. destruct (lookup_lt_is_Some_2 (reserved b) (Z.to_nat i)) as [r0 Hr]; [lia|].
  unfold put_resv. apply wp_bind. eapply wp_get_resv; [lia|done|]. by apply wp_modify.
Qed.

Lemma insert_middle {A} (l1 l2 : list A) x y n : n = length l1 → <[n := y]> (l1 ++ x :: l2) = l1 ++ y :: l2.
Proof. intros ->. rewrite insert_app_r_alt by done. by rewrite Nat.sub_diag. Qed.
Lemma lookup_middle {A} (l1 l2 : list A) x n : n = length l1 → (l1 ++ x :: l2) !! n = Some x.
Proof. intros ->. by apply list_lookup_middle. Qed.

(** Making room: the elements of [l2] move up by one place, into the junk [y]. *)
Lemma wp_shift_up l1 l2 y junk b Q :
  reserved b = l1 ++ l2 ++ y :: junk → resv_count b = Z.of_nat (length (l1 ++ l2)) →
  (∀ z, Q () (set_reserved (l1 ++ z :: l2 ++ junk) b)) →
  wp (for_range 0 (resv_count b - Z.of_nat (length l1)) (λ k,
    r ← get_resv (resv_count b - k - 1); put_resv (resv_count b - k) r)) Q b.
Proof.
  intros Hres Hcount HQ. rewrite Hcount, length_app.
  apply (wp_for_range (λ k b', ∃ l3 l4 z, l2 = l3 ++ l4 ∧ Z.of_nat (length l4) = k ∧
    b' = set_reserved (l1 ++ l3 ++ z :: l4 ++ junk) b)); [lia|..].
  - exists l2, [], y. split_and!; [by rewrite app_nil_r|done|]. destruct b; simpl in *. by rewrite Hres.
  - intros k b' Hk (l3 & l4 & z & -> & Hl4 & ->). rewrite length_app in Hk.
    destruct l3 as [|x l3 _] using rev_ind; [simpl in *; lia|]. rewrite !length_app in *. simpl in *.
    apply wp_bind. eapply wp_get_resv; [lia| |].
    { simpl. rewrite <-!app_assoc, (app_assoc l1). apply lookup_middle. rewrite length_app. lia. }
    apply wp_put_resv; simpl.
    { rewrite !length_app. simpl. rewrite !length_app. simpl. lia. }
    exists l3, (x :: l4), x. split_and!; [by rewrite <-app_assoc|simpl; lia|].
    unfold set_reserved; simpl. f_equal. rewrite <-!app_assoc. simpl.
    change (x :: z :: l4 ++ junk) with ([x] ++ z :: l4 ++ junk). rewrite !(app_assoc l1), (app_assoc _ [x]).
    rewrite insert_middle; [by rewrite <-!app_assoc|]. rewrite !length_app. simpl. lia.
  - intros b' (l3 & l4 & z & -> & Hl4 & ->). rewrite length_app in Hl4.
    destruct l3; [|simpl in *; lia]. apply HQ.
Qed.

(** Closing a gap: the elements of [l2] move down by one place, over [x]. *)
Lemma wp_shift_down l1 x l2 junk lo hi b Q :
  reserved b = l1 ++ x :: l2 ++ junk → lo = Z.of_nat (length l1) + 1 → hi = lo + Z.of_nat (length l2) →
  (∀ z, Q () (set_reserved (l1 ++ l2 ++ z :: junk) b)) →
  wp (for_range lo hi (λ j, r ← get_resv j; put_resv (j - 1) r)) Q b.
Proof.
  intros Hres -> -> HQ.
  apply (wp_for_range (λ j b', ∃ l3 l4 z, l2 = l3 ++ l4 ∧ j = Z.of_nat (length l1) + 1 + Z.of_nat (length l3) ∧
    b' = set_reserved (l1 ++ l3 ++ z :: l4 ++ junk) b)); [lia|..].
  - exists [], l2, x. split_and!; [done|simpl; lia|]. destruct b; simpl in *. by rewrite Hres.
  - intros j b' Hj (l3 & l4 & z & -> & -> & ->). rewrite length_app in Hj.
    destruct l4 as [|y l4]; [simpl in *; lia|].
    apply wp_bind. eapply wp_get_resv; [lia| |].
    { simpl. change (z :: y :: l4 ++ junk) with ([z] ++ y :: l4 ++ junk). rewrite !(app_assoc l1), (app_assoc _ [z]).
      apply lookup_middle. rewrite !length_app. simpl. lia. }
    apply wp_put_resv; simpl.
    { rewrite !length_app. simpl. rewrite !length_app. simpl. lia. }
    exists (l3 ++ [y]), l4, y. rewrite !length_app. split_and!; [by rewrite <-app_assoc|simpl; lia|].
    unfold set_reserved; simpl. f_equal. rewrite (app_assoc l1), insert_middle by (rewrite length_app; lia).
    by rewrite <-!app_assoc.
  - intros b' (l3 & l4 & z & -> & Hj & ->). rewrite length_app in Hj.
    destruct l4; [|simpl in *; lia]. rewrite app_nil_r in *. apply HQ.
Qed.
End array.

(** ** Merging *)
Section merge.
Context `{Platform} `{BootPlatform}.

Lemma sorted_merge l1 p c l2 : regions_sorted (l1 ++ p :: c :: l2) → r_end p = r_start c →
  regions_sorted (l1 ++ set_end (r_end c) p :: l2) ∧
  ∀ x, in_regions x (l1 ++ set_end (r_end c) p :: l2) ↔ in_regions x (l1 ++ p :: c :: l2).
Proof.
  intros [Hn Hs] He. apply Forall_app in Hn as [Hn1 Hn]. apply Forall_cons in Hn as [Hp Hn].
  apply Forall_cons in Hn as [Hc Hn2]. unfold nonempty in *.
  apply StronglySorted_app in Hs as (Hx & Hs1 & Hs2). apply StronglySorted_cons in Hs2 as [Hpl Hs2].
  apply StronglySorted_cons in Hs2 as [Hcl Hs2]. apply Forall_cons in Hpl as [_ Hpl].
  split; [split|].
  - apply Forall_app. split; [done|]. apply Forall_cons. split; [unfold nonempty; simpl; lia|done].
  - apply StronglySorted_app. split_and!; [|done|by apply StronglySorted_cons].
    intros x y Hx1 [->|Hy]%elem_of_cons; [apply (Hx x p); [done|by left]|apply Hx; [done|by do 2 right]].
  - intros x. rewrite !in_regions_app, !in_regions_cons.
    assert (in_region x (set_end (r_end c) p) ↔ in_region x p ∨ in_region x c) as -> by (unfold in_region; simpl; lia).
    tauto.
Qed.
Lemma ok_grow l1 p q : regions_ok (l1 ++ [p]) → r_start q = r_start p → nonempty q → regions_ok (l1 ++ [q]).
Proof.
  intros [Hn Hs] Hq Hnq. apply Forall_app in Hn as [Hn _]. apply StronglySorted_app in Hs as (Hx & Hs & _).
  split; [by apply Forall_app; split; [|apply Forall_singleton]|].
  apply ss_snoc; [done|]. apply Forall_forall. intros y Hy. unfold gap. rewrite Hq. apply Hx; [done|by left].
Qed.
Lemma ok_snoc l1 p c : regions_ok (l1 ++ [p]) → nonempty c → gap p c → regions_ok ((l1 ++ [p]) ++ [c]).
Proof.
  intros [Hn Hs] Hc Hg. split; [by apply Forall_app; split; [|apply Forall_singleton]|].
  apply ss_snoc; [done|]. apply Forall_app. apply Forall_app in Hn as [_ Hp]. rewrite Forall_singleton in *. split; [|done].
  apply StronglySorted_app in Hs as (Hx & _ & _). apply Forall_forall. intros y Hy.
  assert (gap y p) by (apply Hx; [done|by left]). unfold gap, nonempty in *. lia.
Qed.

Definition merged (l : list region) (b b' : ndks_boot) : Prop :=
  ∃ l', resv_repr l' b' ∧ regions_ok l' ∧ (∀ x, in_regions x l' ↔ in_regions x l) ∧
    (length l' ≤ length l)%nat ∧ same_free b b'.

(** Before round [i] the first [i] regions are as they should be. *)
Definition merge_inv (l : list region) (b : ndks_boot) (i : Z) (b' : ndks_boot) : Prop :=
  ∃ l1 p l2 junk, i = Z.of_nat (length l1) + 1 ∧
    reserved b' = l1 ++ p :: l2 ++ junk ∧ resv_count b' = i + Z.of_nat (length l2) ∧
    regions_ok (l1 ++ [p]) ∧ regions_sorted (l1 ++ p :: l2) ∧ (∀ x, in_regions x (l1 ++ p :: l2) ↔ in_regions x l) ∧
    (length (l1 ++ p :: l2) ≤ length l)%nat ∧ same_free b b'.
Lemma merge_inv_join l b l1 p c l2 junk b' (Q : Z + unit → ndks_boot → Prop) :
  reserved b' = l1 ++ p :: c :: l2 ++ junk → resv_count b' = Z.of_nat (length l1) + 2 + Z.of_nat (length l2) →
  regions_ok (l1 ++ [p]) → regions_sorted (l1 ++ p :: c :: l2) → (∀ x, in_regions x (l1 ++ p :: c :: l2) ↔ in_regions x l) →
  (length (l1 ++ p :: c :: l2) ≤ length l)%nat → same_free b b' → r_end p = r_start c →
  let i := Z.of_nat (length l1) + 1 in
  (∀ b'', merge_inv l b i b'' → resv_count b'' = resv_count b' - 1 → Q (inl i) b'') →
  wp (put_resv (i - 1) (set_end (r_end c) p);;
      for_range (i + 1) (resv_count b') (λ j, r ← get_resv j; put_resv (j - 1) r);;
      modify (set_resv_count (resv_count b' - 1));; mret (inl i)) Q b'.
Proof.
  intros Hr Hc Hok Hs Hin Hle (Hf1 & Hf2 & Hf3) He i HQ. subst i. destruct (sorted_merge _ _ _ _ Hs He) as [Hs' Hin'].
  apply wp_bind, wp_put_resv; [rewrite Hr, length_app; simpl; lia|].
  apply wp_bind. rewrite Hr, insert_middle by lia. rewrite Hc in *.
  change (l1 ++ set_end (r_end c) p :: c :: l2 ++ junk) with (l1 ++ [set_end (r_end c) p] ++ c :: l2 ++ junk).
  rewrite app_assoc.
  eapply wp_shift_down; [done|rewrite length_app; simpl; lia|lia|]. intros z. apply wp_bind, wp_modify, wp_ret. apply HQ; [|simpl; lia].
  exists l1, (set_end (r_end c) p), l2, (z :: junk). split_and!; try done; simpl; try lia.
  - by rewrite <-app_assoc.
  - eapply ok_grow; [done..|]. destruct Hs' as [Hn _]. by eapply Forall_elt.
  - intros x. by rewrite Hin', Hin.
  - rewrite !length_app in *. simpl in *. lia.
  - split_and!; [|done..]. simpl. rewrite <-Hf1, Hr. rewrite !length_app. simpl. rewrite !length_app. simpl. lia.
Qed.
Lemma merge_regions_spec l b : resv_repr l b → regions_sorted l → Z.of_nat (length l) < 2 ^ 64 →
  wp merge_regions (λ _ b', merged l b b') b.
Proof.
  intros (junk & Hr & Hc) Hs Hlen. destruct l as [|r l0].
  { unfold merge_regions. apply (wp_while64 (λ i b', i = 1 ∧ b' = b) (λ _ _, 0)); [|done|lia].
    intros i b' [-> ->]. apply wp_bind, wp_gets. rewrite Hc. simpl.
    exists []. split_and!; try done; [by exists junk|split; constructor]. }
  apply (wp_while64 (merge_inv (r :: l0) b) (λ i b', resv_count b' - i)).
  - clear Hr Hc Hs junk. intros i b' (l1 & p & l2 & junk & -> & Hr & Hc & Hok & Hs & Hin & Hle & Hf).
    apply wp_bind, wp_gets. destruct l2 as [|c l2]; simpl in Hc.
    { rewrite (proj2 (Z.ltb_ge _ _)) by lia. apply wp_ret. exists (l1 ++ [p]). split_and!; try done.
      exists junk. rewrite <-app_assoc, length_app. simpl. split; [done|lia]. }
    rewrite (proj2 (Z.ltb_lt _ _)) by lia. simpl.
    apply wp_bind. eapply wp_get_resv; [lia|rewrite Hr; apply lookup_middle; lia|].
    apply wp_bind. eapply wp_get_resv; [lia| |].
    { rewrite Hr. simpl. change (p :: c :: l2 ++ junk) with ([p] ++ c :: l2 ++ junk). rewrite app_assoc.
      apply lookup_middle. rewrite length_app. simpl. lia. }
    destruct (Z.eqb_spec (r_end p) (r_start c)) as [He|He].
    + eapply (merge_inv_join _ b l1 p c l2 junk); try done; [lia|]. intros b'' HI ->. split; [done|lia].
    + apply wp_ret. split; [|lia]. exists (l1 ++ [p]), c, l2, junk. rewrite <-app_assoc, length_app. simpl.
      rewrite <-!(app_assoc l1 [p]). split_and!; try done; try lia. destruct Hs as [Hn Hs]. apply Forall_app in Hn as [_ Hn].
      apply Forall_cons in Hn as [_ Hn]. apply Forall_cons in Hn as [Hnc _].
      rewrite app_assoc. apply ok_snoc; [done..|]. apply StronglySorted_app in Hs as (_ & _ & Hs).
      apply StronglySorted_cons in Hs as [Hs _]. apply Forall_cons in Hs as [Hb _]. unfold gap, before in *. lia.
  - exists [], r, l0, junk. destruct Hs as [Hn Hs]. pose proof Hn as [Hnr _]%Forall_cons.
    simpl in *. split_and!; try done; try lia. split; [by apply Forall_singleton|repeat constructor].
  - simpl in *. lia.
Qed.
End merge.

(** ** Reserving a region *)
Section reserve.
Context `{Platform} `{BootPlatformOk}.

Lemma ok_insert l1 l2 r : regions_ok (l1 ++ l2) → nonempty r →
  (∀ a, a ∈ l1 → gap a r) → (∀ a, a ∈ l2 → gap r a) → regions_ok (l1 ++ r :: l2).
Proof.
  intros [Hn Hs] Hr Hl1 Hl2. apply Forall_app in Hn as [Hn1 Hn2]. apply StronglySorted_app in Hs as (Hx & Hs1 & Hs2).
  split; [by apply Forall_app; split; [|constructor]|]. apply StronglySorted_app. split_and!; [|done|].
  - intros a c Ha [->|Hc]%elem_of_cons; auto.
  - apply StronglySorted_cons. split; [|done]. by apply Forall_forall.
Qed.
Lemma ok_mid l1 r l2 : regions_ok (l1 ++ r :: l2) →
  regions_ok (l1 ++ l2) ∧ nonempty r ∧ (∀ a, a ∈ l1 → gap a r) ∧ (∀ a, a ∈ l2 → nonempty a ∧ gap r a).
Proof.
  intros [Hn Hs]. apply Forall_app in Hn as [Hn1 Hn2]. apply Forall_cons in Hn2 as [Hr Hn2].
  apply StronglySorted_app in Hs as (Hx & Hs1 & Hs2). apply StronglySorted_cons in Hs2 as [Hr2 Hs2].
  rewrite Forall_forall in Hr2, Hn2. split_and!; try done; [split| |].
  - apply Forall_app. split; [done|]. by apply Forall_forall.
  - apply StronglySorted_app. split_and!; try done. intros a c Ha Hc. apply Hx; [done|by right].
  - intros a Ha. apply Hx; [done|by left].
  - auto.
Qed.
Lemma sorted_replace l1 r l2 r' : regions_ok (l1 ++ r :: l2) → nonempty r' →
  (∀ a, a ∈ l1 → gap a r') → (∀ a, a ∈ l2 → before r' a) → regions_sorted (l1 ++ r' :: l2).
Proof.
  intros ([Hn Hs]%regions_ok_sorted & _)%ok_mid Hr Hl1 Hl2.
  apply Forall_app in Hn as [Hn1 Hn2]. apply StronglySorted_app in Hs as (Hx & Hs1 & Hs2).
  split; [by apply Forall_app; split; [|constructor]|]. apply StronglySorted_app. split_and!; [|done|].
  - intros a c Ha [->|Hc]%elem_of_cons; [|auto]. apply Hl1 in Ha. unfold gap, before in *. lia.
  - apply StronglySorted_cons. split; [|done]. by apply Forall_forall.
Qed.

(** What [reserve_region] promises; it never uses the last entry of the array, and fails when
    it would need that. *)
Definition reserve_post (l : list region) (reg : region) (b : ndks_boot) (ok : bool) (b' : ndks_boot) : Prop :=
  if ok then ∃ l', resv_repr l' b' ∧ regions_ok l' ∧ (∀ x, in_regions x l' ↔ in_regions x l ∨ in_region x reg) ∧
    (length l' ≤ Datatypes.S (length l))%nat ∧ same_free b b'
  else b' = b ∧ MAX_NUM_RESV_REG ≤ Z.of_nat (length l) + 1.

Definition reserve_result (l : list region) (reg : region) (b : ndks_boot) (r : Z + bool) (b' : ndks_boot) : Prop :=
  match r with inl _ => False | inr ok => reserve_post l reg b ok b' end.

(** Extending the region [r] to [r'] and merging *)
Lemma wp_reserve_extend l1 r l2 junk r' reg b (Q : Z + bool → ndks_boot → Prop) :
  reserved b = l1 ++ r :: l2 ++ junk → resv_count b = Z.of_nat (length (l1 ++ r :: l2)) → resv_count b < 2 ^ 64 →
  regions_sorted (l1 ++ r' :: l2) → (∀ x, in_region x r' ↔ in_region x r ∨ in_region x reg) →
  (∀ b', reserve_post (l1 ++ r :: l2) reg b true b' → Q (inr true) b') →
  wp (put_resv (Z.of_nat (length l1)) r' ≫= λ _, merge_regions ≫= λ _, mret (inr true)) Q b.
Proof.
  intros Hr Hc Hlen Hs Hx HQ. rewrite length_app in Hc. simpl in Hc.
  apply wp_bind, wp_put_resv; [rewrite Hr, length_app; simpl; lia|]. rewrite Hr, insert_middle by lia.
  apply wp_bind. eapply wp_mono; [apply (merge_regions_spec (l1 ++ r' :: l2))|].
  - exists junk. simpl. rewrite <-app_assoc, length_app. split; [done|]. simpl. lia.
  - done.
  - rewrite length_app. simpl. lia.
  - intros _ b' (l' & Hl' & Hok & Hin & Hle & Hf1 & Hf2 & Hf3). apply wp_ret, HQ. simpl in Hf1, Hf2, Hf3. exists l'.
    rewrite !length_app in *. simpl in *. split_and!; try done; [|lia|].
    + intros x. rewrite Hin, !in_regions_app, !in_regions_cons, Hx. tauto.
    + split_and!; try done. rewrite Hf1, Hr, !length_app. simpl. by rewrite !length_app.
Qed.

Definition reserve_inv (l : list region) (reg : region) (b : ndks_boot) (i : Z) (b' : ndks_boot) : Prop :=
  b' = b ∧ ∃ l1 l2, l = l1 ++ l2 ∧ i = Z.of_nat (length l1) ∧ ∀ a, a ∈ l1 → gap a reg.

Lemma wp_reserve_append l reg junk b :
  reserved b = l ++ junk → resv_count b = Z.of_nat (length l) → Z.of_nat (length (reserved b)) = MAX_NUM_RESV_REG →
  regions_ok l → nonempty reg → (∀ a, a ∈ l → gap a reg) → Z.of_nat (length l) < MAX_NUM_RESV_REG →
  wp (if Z.of_nat (length l) + 1 =? MAX_NUM_RESV_REG then mret (inr false) else
      put_resv (Z.of_nat (length l)) reg;; modify (set_resv_count (resv_count b + 1));; mret (inr true))
    (reserve_result l reg b) b.
Proof.
  intros Hr Hc Hmax Hok Hreg Hg Hlt. destruct (Z.eqb_spec (Z.of_nat (length l) + 1) MAX_NUM_RESV_REG) as [He|He].
  { apply wp_ret. split; [done|lia]. }
  destruct junk as [|y junk]; [rewrite Hr, app_nil_r in Hmax; lia|].
  apply wp_bind, wp_put_resv; [rewrite Hr, length_app; simpl; lia|]. rewrite Hr, insert_middle by lia.
  apply wp_bind, wp_modify, wp_ret. exists (l ++ [reg]). split_and!.
  - exists junk. simpl. rewrite <-app_assoc, length_app. simpl. split; [done|lia].
  - rewrite <-(app_nil_r l) in Hok. apply ok_insert; [done..|]. by intros a ?%elem_of_nil.
  - intros x. rewrite in_regions_app, in_regions_cons, in_regions_nil. tauto.
  - rewrite length_app. simpl. lia.
  - split_and!; try done. simpl. rewrite Hr, !length_app. done.
Qed.

Lemma wp_reserve_insert l1 l2 reg junk b :
  reserved b = l1 ++ l2 ++ junk → resv_count b = Z.of_nat (length (l1 ++ l2)) →
  Z.of_nat (length (reserved b)) = MAX_NUM_RESV_REG → regions_ok (l1 ++ l2) → nonempty reg →
  (∀ a, a ∈ l1 → gap a reg) → (∀ a, a ∈ l2 → gap reg a) →
  wp (if MAX_NUM_RESV_REG <=? resv_count b + 1 then mret (inr false) else
      for_range 0 (resv_count b - Z.of_nat (length l1)) (λ k, r ← get_resv (resv_count b - k - 1); put_resv (resv_count b - k) r);;
      put_resv (Z.of_nat (length l1)) reg;; modify (set_resv_count (resv_count b + 1));; mret (inr true))
    (reserve_result (l1 ++ l2) reg b) b.
Proof.
  intros Hr Hc Hmax Hok Hreg Hl1 Hl2. destruct (Z.leb_spec MAX_NUM_RESV_REG (resv_count b + 1)) as [He|He].
  { apply wp_ret. split; [done|lia]. }
  destruct junk as [|y junk]; [rewrite Hr, app_nil_r in Hmax; rewrite Hc in He; lia|].
  apply wp_bind. eapply wp_shift_up; [done..|]. intros z. cbn beta.
  apply wp_bind, wp_put_resv; [simpl; rewrite length_app; simpl; lia|]. simpl. rewrite insert_middle by lia.
  apply wp_bind, wp_modify, wp_ret. exists (l1 ++ reg :: l2). split_and!.
  - exists junk. simpl. rewrite <-app_assoc, Hc, !length_app. simpl. split; [done|lia].
  - by apply ok_insert.
  - intros x. rewrite !in_regions_app, in_regions_cons. tauto.
  - rewrite !length_app. simpl. lia.
  - split_and!; try done. simpl. rewrite Hr, !length_app. simpl. rewrite !length_app. simpl. lia.
Qed.

Lemma reserve_region_spec l reg b :
  resv_repr l b → Z.of_nat (length (reserved b)) = MAX_NUM_RESV_REG → Z.of_nat (length l) < MAX_NUM_RESV_REG →
  regions_ok l → r_start reg ≤ r_end reg → disjoint_from reg l →
  wp (reserve_region reg) (reserve_post l reg b) b.
Proof.
  intros (junk & Hr & Hc) Hmax Hlt Hok Hle Hdis. unfold reserve_region.
  apply wp_bind, wp_assert; [by apply Z.leb_le|]. destruct (Z.eqb_spec (r_start reg) (r_end reg)) as [Heq|Hne].
  { apply wp_ret. exists l. split_and!; try done; [by exists junk| |lia].
    intros x. assert (¬ in_region x reg) by (unfold in_region; lia). tauto. }
  assert (nonempty reg) as Hreg by (unfold nonempty; lia).
  apply (wp_while64 (reserve_inv l reg b) (λ i b', resv_count b' - i)).
  2: { split; [done|]. exists [], l. split_and!; try done. by intros a ?%elem_of_nil. }
  2: { pose proof num_device_frames. unfold MAX_NUM_RESV_REG, NUM_KERNEL_DEVICE_FRAMES, MAX_NUM_FREEMEM_REG, NUM_RESERVED_REGIONS in *. lia. }
  intros i b' (-> & l1 & l2 & Hl & -> & Hg). apply wp_bind, wp_gets. destruct l2 as [|cur l2].
  { rewrite app_nil_r in Hl. subst l1. rewrite (proj2 (Z.ltb_ge _ _)) by lia. simpl.
    eapply wp_mono; [by eapply wp_reserve_append|]. by intros [i|ok]. }
  subst l. rewrite length_app in *. simpl in Hc, Hlt. rewrite (proj2 (Z.ltb_lt _ _)) by lia. simpl.
  rewrite <-app_assoc in Hr. simpl in Hr.
  apply wp_bind. eapply wp_get_resv; [lia|rewrite Hr; apply lookup_middle; lia|].
  destruct (ok_mid _ _ _ Hok) as (Hok' & Hcur & Hl1 & Hl2).
  assert (resv_count b < 2 ^ 64) as H64.
  { pose proof num_device_frames. unfold MAX_NUM_RESV_REG, NUM_KERNEL_DEVICE_FRAMES, MAX_NUM_FREEMEM_REG, NUM_RESERVED_REGIONS in *. lia. }
  assert (∀ a, a ∈ l2 → nonempty a ∧ (before reg a ∨ before a reg)) as Hd2.
  { intros a Ha. split; [by apply Hl2|]. apply Hdis. apply elem_of_app. right. by right. }
  assert (before reg cur ∨ before cur reg) as Hdc by (apply Hdis, elem_of_app; right; by left).
  unfold before, gap, nonempty in *.
  destruct (Z.eqb_spec (r_start cur) (r_end reg)) as [E1|E1].
  { eapply (wp_reserve_extend l1 cur l2 junk _ reg); [done|by rewrite length_app|done| | |by intros b' ?].
    - eapply sorted_replace; [done|unfold nonempty; simpl; lia|done|].
      intros a Ha. destruct (Hl2 a Ha). unfold before. simpl. lia.
    - intros x. unfold in_region. simpl. lia. }
  destruct (Z.eqb_spec (r_end cur) (r_start reg)) as [E2|E2].
  { eapply (wp_reserve_extend l1 cur l2 junk _ reg); [done|by rewrite length_app|done| | |by intros b' ?].
    - eapply sorted_replace; [done|unfold nonempty; simpl; lia| |].
      + intros a Ha. unfold gap. simpl. apply Hl1, Ha.
      + intros a Ha. destruct (Hl2 a Ha) as [? ?], (Hd2 a Ha) as [? [?|?]]; unfold before; simpl; lia.
    - intros x. unfold in_region. simpl. lia. }
  destruct (Z.ltb_spec (r_end reg) (r_start cur)) as [E3|E3].
  - eapply wp_mono; [eapply (wp_reserve_insert l1 (cur :: l2)); try done; [by rewrite length_app|]|by intros [?|?]].
    intros a [->|Ha]%elem_of_cons; unfold gap; [lia|]. destruct (Hl2 a Ha). lia.
  - apply wp_ret. split; [|lia]. split; [done|]. exists (l1 ++ [cur]), l2.
    rewrite <-app_assoc, length_app. simpl. split_and!; [done|lia|].
    intros a [Ha| ->%list_elem_of_singleton]%elem_of_app; [by apply Hg|unfold gap; lia].
Qed.

(** C40: [reserve_region] keeps the reserved regions sorted and apart: in every case (an
    adjacent region grows, two regions merge, a new one is inserted in its place) the
    array holds exactly the memory it held and the new region; it fails, without a
    change, only when all entries of the array but one are in use (the last entry is
    never used). *)
Theorem reserve_region_ok l reg b :
  resv_repr l b → Z.of_nat (length (reserved b)) = MAX_NUM_RESV_REG → Z.of_nat (length l) < MAX_NUM_RESV_REG →
  regions_ok l → r_start reg ≤ r_end reg → disjoint_from reg l →
  wp (reserve_region reg) (reserve_post l reg b) b.
Proof. apply reserve_region_spec. Qed.
End reserve.

(** * The free memory

    Regions of the kernel window and their physical addresses, and the array
    [freemem]: [insert_region] appends a region to it and reserves the region. *)

(** The physical addresses of a region of the kernel window *)
Definition phys `{Platform} (r : region) : region := Region (r_start r - PPTR_BASE) (r_end r - PPTR_BASE).
Definition in_window `{Platform} (r : region) : Prop := PPTR_BASE ≤ r_start r ∧ r_start r ≤ r_end r ∧ r_end r < 2 ^ 64.

Section window.
Context `{Platform}.

Lemma addrFromPPtr_window x : PPTR_BASE ≤ x < 2 ^ 64 → addrFromPPtr x = x - PPTR_BASE.
Proof.
  intros Hx. unfold addrFromPPtr. change PPTR_BASE_OFFSET with PPTR_BASE. apply wrap_small.
  unfold is_word, PPTR_BASE in *. lia.
Qed.
Lemma ptrFromPAddr_window x : 0 ≤ x < 2 ^ 64 - PPTR_BASE → ptrFromPAddr x = x + PPTR_BASE.
Proof.
  intros Hx. unfold ptrFromPAddr. change PPTR_BASE_OFFSET with PPTR_BASE. apply wrap_small.
  unfold is_word, PPTR_BASE in *. lia.
Qed.
Lemma pptr_to_paddr_phys r : in_window r → pptr_to_paddr_reg r = phys r.
Proof. intros (? & ? & ?). unfold pptr_to_paddr_reg. by rewrite !addrFromPPtr_window by lia. Qed.
Lemma in_phys x r : in_region x (phys r) ↔ in_region (x + PPTR_BASE) r.
Proof. unfold in_region, phys. simpl. lia. Qed.
Lemma in_regions_phys x l : in_regions x (phys <$> l) ↔ in_regions (x + PPTR_BASE) l.
Proof.
  unfold in_regions. setoid_rewrite list_elem_of_fmap. split.
  - intros (r & (r' & -> & Hr) & Hx). exists r'. by rewrite <-in_phys.
  - intros (r & Hr & Hx). exists (phys r). rewrite in_phys. eauto.
Qed.

(** The physical addresses of an available region that the kernel window can map *)
Definition clip (p : region) : region :=
  Region (PPTR_BASE + Z.min (r_start p) PADDR_TOP) (PPTR_BASE + Z.min (r_end p) PADDR_TOP).
Lemma ceiling_clip x : is_word x → ceiling_kernel_window (ptrFromPAddr x) = PPTR_BASE + Z.min x PADDR_TOP.
Proof.
  intros Hx. unfold ceiling_kernel_window.
  assert (addrFromPPtr (ptrFromPAddr x) = x) as ->.
  { unfold addrFromPPtr, ptrFromPAddr, wrap. rewrite Zminus_mod_idemp_l, Z.add_simpl_r. by apply Z.mod_small. }
  change PADDR_TOP with (PPTR_TOP - PPTR_BASE). unfold is_word, PPTR_TOP in *.
  destruct (Z.ltb_spec (0xFFFFFFFF80000000 - PPTR_BASE) x); [lia|].
  rewrite ptrFromPAddr_window; unfold PPTR_BASE in *; lia.
Qed.
End window.

(** ** Sets and disjointness *)
Lemma disjoint_sets r l : nonempty r → Forall nonempty l → (∀ x, in_region x r → ¬ in_regions x l) → disjoint_from r l.
Proof.
  intros Hr Hl Hx r' Hr'. rewrite Forall_forall in Hl. specialize (Hl r' Hr'). unfold nonempty, before in *.
  destruct (Z.le_gt_cases (r_end r) (r_start r')); [by left|]. destruct (Z.le_gt_cases (r_end r') (r_start r)); [by right|].
  exfalso. apply (Hx (Z.max (r_start r) (r_start r'))); [unfold in_region; lia|]. exists r'. split; [done|unfold in_region; lia].
Qed.
Lemma before_disjoint a b x : before a b → in_region x a → in_region x b → False.
Proof. unfold before, in_region. lia. Qed.

(** ** The array of free regions *)
Definition free_repr (fl : list region) (b : ndks_boot) : Prop :=
  ∃ n, freemem b = fl ++ replicate n REG_EMPTY ∧ Z.of_nat (length fl + n) = MAX_NUM_FREEMEM_REG.

Section insert.
Context `{Platform} `{BootPlatformOk}.

Lemma wp_get_freemem i r b (Q : region → ndks_boot → Prop) :
  freemem b !! Z.to_nat i = Some r → Q r b → wp (get_freemem i) Q b.
Proof. intros Hr HQ. unfold get_freemem. apply wp_bind, wp_gets. by eapply wp_deref. Qed.
Lemma wp_put_freemem i r r0 b Q : freemem b !! Z.to_nat i = Some r0 →
  Q () (set_freemem (<[Z.to_nat i := r]> (freemem b)) b) → wp (put_freemem i r) Q b.
Proof. intros Hr HQ. unfold put_freemem. apply wp_bind. eapply wp_get_freemem; [done|]. by apply wp_modify. Qed.
Lemma wp_get_avail i r b (Q : region → ndks_boot → Prop) :
  avail_reg b !! Z.to_nat i = Some r → Q r b → wp (get_avail i) Q b.
Proof. intros Hr HQ. unfold get_avail. apply wp_bind, wp_gets. by eapply wp_deref. Qed.
Lemma wp_put_avail i r r0 b Q : avail_reg b !! Z.to_nat i = Some r0 →
  Q () (set_avail_reg (<[Z.to_nat i := r]> (avail_reg b)) b) → wp (put_avail i r) Q b.
Proof. intros Hr HQ. unfold put_avail. apply wp_bind. eapply wp_get_avail; [done|]. by apply wp_modify. Qed.

(** The arrays of a state: used part of [reserved], free regions *)
Definition arrays (l fl : list region) (b : ndks_boot) : Prop :=
  resv_repr l b ∧ Z.of_nat (length (reserved b)) = MAX_NUM_RESV_REG ∧ free_repr fl b.

(** Reserving a region for which there is room *)
Lemma reserve_region_room l fl r b : arrays l fl b → regions_ok l → in_window r → Z.of_nat (length l) + 1 < MAX_NUM_RESV_REG →
  (∀ x, in_region x (phys r) → ¬ in_regions x l) →
  wp (reserve_region (pptr_to_paddr_reg r)) (λ _ b', ∃ l', arrays l' fl b' ∧ regions_ok l' ∧
    (∀ x, in_regions x l' ↔ in_regions x l ∨ in_region x (phys r)) ∧ (length l' ≤ Datatypes.S (length l))%nat ∧
    avail_reg b' = avail_reg b) b.
Proof.
  intros (Hl & Hmax & Hfl) Hok Hwin Hlen Hdis. rewrite pptr_to_paddr_phys by done.
  destruct Hwin as (Hw1 & Hw2 & Hw3). destruct (decide (r_start r = r_end r)) as [Heq|Hne].
  { unfold reserve_region. apply wp_bind, wp_assert; [apply Z.leb_le; simpl; lia|]. simpl.
    rewrite (proj2 (Z.eqb_eq _ _)) by lia. apply wp_ret. exists l. split_and!; try done; [|lia].
    intros x. assert (¬ in_region x (phys r)) by (unfold in_region; simpl; lia). tauto. }
  eapply wp_mono; [apply (reserve_region_spec l); try done; [lia|simpl; lia|]|].
  - apply disjoint_sets; [unfold nonempty; simpl; lia|apply Hok|done].
  - intros [] b'; [|intros [_ ?]; lia]. intros (l' & Hl' & Hok' & Hin & Hle & Hf1 & Hf2 & Hf3).
    exists l'. split_and!; try done. destruct Hfl as (n & Hfl & Hn). split_and!; [done|by rewrite Hf1|].
    exists n. by rewrite Hf2.
Qed.

Lemma insert_region_spec l fl r b : arrays l fl b → regions_ok l → in_window r → nonempty r → Forall nonempty fl →
  Z.of_nat (length l) + 1 < MAX_NUM_RESV_REG → Z.of_nat (length fl) < MAX_NUM_FREEMEM_REG →
  (∀ x, in_region x (phys r) → ¬ in_regions x l) →
  wp (insert_region r) (λ _ b', ∃ l', arrays l' (fl ++ [r]) b' ∧ regions_ok l' ∧
    (∀ x, in_regions x l' ↔ in_regions x l ∨ in_region x (phys r)) ∧ (length l' ≤ Datatypes.S (length l))%nat ∧
    avail_reg b' = avail_reg b) b.
Proof.
  intros Ha Hok Hwin Hr Hfl Hlen Hlenf Hdis. unfold insert_region.
  apply wp_bind, wp_assert; [apply Z.leb_le; unfold nonempty in Hr; lia|].
  unfold is_reg_empty at 1. rewrite (proj2 (Z.eqb_neq _ _)) by (unfold nonempty in Hr; lia).
  apply (wp_while64 (λ i b', b' = b ∧ 0 ≤ i ≤ Z.of_nat (length fl)) (λ i _, Z.of_nat (length fl) - i)); [|split; [done|lia]|].
  2: { unfold MAX_NUM_FREEMEM_REG in *. lia. }
  intros i b' [-> Hi]. rewrite (proj2 (Z.ltb_lt _ _)) by lia. simpl.
  pose proof Ha as (_ & _ & n & Hf & Hn). destruct (decide (i = Z.of_nat (length fl))) as [->|Hne].
  - destruct n as [|n]; [lia|]. simpl in Hf.
    apply wp_bind. eapply wp_get_freemem; [rewrite Hf; apply lookup_middle; lia|]. simpl.
    apply wp_bind. eapply wp_mono; [by apply (reserve_region_room l fl)|].
    intros _ b' (l' & (Hl' & Hmax' & n' & Hf' & Hn') & Hok' & Hin & Hle & Hav). destruct n' as [|n']; [lia|]. simpl in Hf'.
    apply wp_bind. eapply wp_put_freemem; [rewrite Hf'; apply lookup_middle; lia|]. apply wp_ret.
    exists l'. split_and!; try done. split_and!; [done..|]. exists n'. simpl. rewrite Hf', insert_middle by lia.
    rewrite <-app_assoc. split; [done|]. rewrite length_app. simpl. lia.
  - destruct (lookup_lt_is_Some_2 fl (Z.to_nat i)) as [f Hfi]; [lia|].
    apply wp_bind. eapply wp_get_freemem; [rewrite Hf; by apply lookup_app_l_Some|].
    assert (nonempty f) as Hnf by (by eapply Forall_lookup_1). unfold is_reg_empty, nonempty in *.
    rewrite (proj2 (Z.eqb_neq _ _)) by lia. apply wp_ret. split; [split; [done|]|]; lia.
Qed.
End insert.

