(* ===== verification/BootTrim.v ===== *)
(** * The division of memory

    [init_freemem] leaves in [freemem] exactly the available memory of the kernel
    window without the reserved regions, as sorted and disjoint regions, and adds
    it with the reserved regions to the array [reserved]. The loop walks over both
    lists; the invariant says what is left of the available regions, which reserved
    regions were passed, and that the free regions and the rest make up what is free. *)
From stdpp Require Import sorting.
From S2P Require Import Prelude Words Platform State RefillList Sporadic CapOps CSpace VSpace Untyped BootMemory Machine BootRegions.

(** ** Removing the reserved regions *)

(** Regions in order that may be empty *)
Definition regions_ordered (l : list region) : Prop := Forall (λ r, r_start r ≤ r_end r) l ∧ StronglySorted before l.

Section trim.
Context `{Platform} `{BootPlatformOk}.
(** The available and the reserved regions, and the regions reserved before *)
Context (A Rs l0 : list region).

(** In the middle of the loop: [As] is what is left of the available regions, [Rd] are
    the reserved regions that were passed, and [Rr] the rest. *)
Record trim_ok (As Rd Rr fl l : list region) : Prop := {
  to_R : Rs = Rd ++ Rr;
  to_As : regions_ordered As;
  to_win : Forall in_window As;
  to_fl : regions_sorted fl;
  to_order : ∀ f a, f ∈ fl → a ∈ As → before f a;
  to_free : ∀ x, in_regions x fl ∨ in_regions x As ∧ ¬ in_regions x Rs ↔ in_regions x A ∧ ¬ in_regions x Rs;
  to_done : ∀ r a, r ∈ Rd → a ∈ As → r_start r = r_end r ∨ before r a;
  to_resv : regions_ok l;
  to_resv_in : ∀ x, in_regions x l ↔ in_regions x l0 ∨ in_regions x (phys <$> Rd) ∨ in_regions x (phys <$> fl);
  to_len : (length l ≤ length l0 + length Rd + length fl)%nat
}.

Lemma ordered_cons a l : regions_ordered (a :: l) ↔ r_start a ≤ r_end a ∧ (∀ x, x ∈ l → before a x) ∧ regions_ordered l.
Proof.
  unfold regions_ordered. rewrite Forall_cons, StronglySorted_cons, (Forall_forall (before a)). tauto.
Qed.
Lemma sorted_snoc l r : regions_sorted l → nonempty r → (∀ a, a ∈ l → before a r) → regions_sorted (l ++ [r]).
Proof.
  intros [Hn Hs] Hr Hl. split; [by apply Forall_app; split; [|apply Forall_singleton]|].
  apply ss_snoc; [done|]. by apply Forall_forall.
Qed.

(** Dropping the first available region, if it is empty or nothing of it is free *)
Lemma trim_drop a As Rd Rr fl l : trim_ok (a :: As) Rd Rr fl l →
  (∀ x, in_region x a → in_regions x Rs ∨ in_regions x fl) → trim_ok As Rd Rr fl l.
Proof.
  intros [? Has ? ? ? Hfree ? ? ? ?] Ha. apply ordered_cons in Has as (? & ? & ?). split; try done.
  - by apply Forall_cons in to_win0 as [].
  - intros. apply to_order0; [done|by right].
  - intros x. rewrite <-Hfree, in_regions_cons. specialize (Ha x). tauto.
  - intros. apply to_done0; [done|by right].
Qed.
(** Moving the start of the first available region *)
Lemma trim_start a As Rd Rr fl l s : trim_ok (a :: As) Rd Rr fl l → r_start a ≤ s ≤ r_end a →
  (∀ x, in_region x a → in_region x (set_start s a) ∨ in_regions x Rs ∨ in_regions x fl) →
  (∀ f, f ∈ fl → r_end f ≤ s) → trim_ok (set_start s a :: As) Rd Rr fl l.
Proof.
  intros [? Has Hwin ? Hord Hfree Hdone ? ? ?] Hs Ha Hf. apply ordered_cons in Has as (? & Hb & ?).
  apply Forall_cons in Hwin as [(? & ? & ?) ?]. split; try done.
  - apply ordered_cons. simpl. split_and!; [lia| |done]. intros x Hx. by apply Hb.
  - apply Forall_cons. split; [|done]. split_and!; simpl; lia.
  - intros f x Hf' [->|Hx]%elem_of_cons; [by apply Hf|]. apply Hord; [done|by right].
  - intros x. rewrite <-Hfree, !in_regions_cons. specialize (Ha x).
    assert (in_region x (set_start s a) → in_region x a) by (unfold in_region; simpl; lia). tauto.
  - intros r x Hr [->|Hx]%elem_of_cons; [|apply Hdone; [done|by right]].
    destruct (Hdone r a Hr) as [?|?]; [by left|by left|]. right. unfold before in *. simpl. lia.
Qed.
(** Passing a reserved region that is empty or below all that is left *)
Lemma trim_pass r As Rd Rr fl l l' : trim_ok As Rd (r :: Rr) fl l →
  (∀ a, a ∈ As → r_start r = r_end r ∨ before r a) →
  regions_ok l' → (∀ x, in_regions x l' ↔ in_regions x l ∨ in_region x (phys r)) → (length l' ≤ Datatypes.S (length l))%nat →
  trim_ok As (Rd ++ [r]) Rr fl l'.
Proof.
  intros [? ? ? ? ? ? Hdone ? Hin Hlen] Hr Hok Hin' Hlen'. split; try done.
  - by rewrite <-app_assoc.
  - intros r' a [Hr'| ->%list_elem_of_singleton]%elem_of_app Ha; auto.
  - intros x. rewrite Hin', Hin, fmap_app, in_regions_app. simpl. rewrite in_regions_cons, in_regions_nil. tauto.
  - rewrite length_app. simpl. lia.
Qed.
(** Taking a free region [m] from the front of what is left *)
Lemma trim_take m As As' Rd Rr fl l l' : trim_ok As Rd Rr fl l → nonempty m →
  regions_ordered As' → Forall in_window As' → (∀ f, f ∈ fl → before f m) → (∀ a, a ∈ As' → before m a) →
  (∀ x, in_region x m → ¬ in_regions x Rs) →
  (∀ x, in_regions x As ∧ ¬ in_regions x Rs ↔ in_region x m ∨ in_regions x As' ∧ ¬ in_regions x Rs) →
  (∀ r a, r ∈ Rd → a ∈ As' → r_start r = r_end r ∨ before r a) →
  regions_ok l' → (∀ x, in_regions x l' ↔ in_regions x l ∨ in_region x (phys m)) → (length l' ≤ Datatypes.S (length l))%nat →
  trim_ok As' Rd Rr (fl ++ [m]) l'.
Proof.
  intros [? ? ? ? ? Hfree ? ? Hin ?] Hm ? ? Hf Ha HmR Has Hdone' ? Hin' ?. split; try done.
  - by apply sorted_snoc.
  - intros f a [Hf'| ->%list_elem_of_singleton]%elem_of_app Ha'; [|auto].
    specialize (Hf f Hf'). specialize (Ha a Ha'). unfold before, nonempty in *. lia.
  - intros x. rewrite <-Hfree, in_regions_app, in_regions_cons, in_regions_nil. specialize (Has x). tauto.
  - intros x. rewrite Hin', Hin, fmap_app, in_regions_app. simpl. rewrite in_regions_cons, in_regions_nil. tauto.
  - rewrite length_app. simpl. lia.
Qed.

(** ** The loop *)
Definition settled (As Rr : list region) : Z :=
  match As, Rr with
  | a :: _, r :: _ => if decide (r_end r ≤ r_start a ∨ r_end a ≤ r_start a) then 1 else 0
  | _, _ => 0
  end.
#[local] Arguments settled : simpl never.
Lemma settled_bounds As Rr : 0 ≤ settled As Rr ≤ 1.
Proof. unfold settled. repeat case_match; lia. Qed.

Record trim_state (As Rd Rr fl l : list region) (a r : Z) (b : ndks_boot) : Prop := {
  ts_ok : trim_ok As Rd Rr fl l;
  ts_arrays : arrays l fl b;
  ts_avail : ∃ pre junk, avail_reg b = pre ++ As ++ junk ∧ a = Z.of_nat (length pre);
  ts_a : a + Z.of_nat (length As) = Z.of_nat (length A);
  ts_r : r = Z.of_nat (length Rd);
  ts_room : Z.of_nat (length fl + length As + length Rr) - settled As Rr ≤ Z.of_nat (length A + length Rs)
}.
Definition trim_left (As Rr : list region) : Z := 2 * Z.of_nat (length As + length Rr) - settled As Rr.
Definition trim_inv (n : Z) (ar : Z * Z) (b : ndks_boot) : Prop :=
  ∃ As Rd Rr fl l, trim_state As Rd Rr fl l ar.1 ar.2 b ∧ n = trim_left As Rr.
(** One round gets closer to the end, or is the last. *)
Definition trim_next (n : Z) (v : Z * Z + Z * Z) (b : ndks_boot) : Prop :=
  match v with
  | inl ar => ∃ m, 0 ≤ m < n ∧ trim_inv m ar b
  | inr ar => ∃ As Rd Rr fl l, trim_state As Rd Rr fl l ar.1 ar.2 b ∧ (As = [] ∨ Rr = [])
  end.

Context (HR : regions_ordered Rs) (HRwin : Forall in_window Rs).
Context (Hl0 : ∀ x, in_regions x l0 → ¬ in_regions x (phys <$> A) ∧ ¬ in_regions x (phys <$> Rs)).
Context (HN : Z.of_nat (length A + length Rs) < MAX_NUM_FREEMEM_REG).
Context (Hroom : Z.of_nat (length l0 + length Rs + (length A + length Rs)) < MAX_NUM_RESV_REG).

(** A region without reserved or taken addresses is not in [reserved] yet. *)
Lemma free_not_reserved As Rd Rr fl l m : trim_ok As Rd Rr fl l →
  (∀ x, in_region x m → in_regions x A ∧ ¬ in_regions x Rs ∧ ¬ in_regions x fl) →
  ∀ x, in_region x (phys m) → ¬ in_regions x l.
Proof.
  intros Hok Hm x Hx Hxl. apply in_phys in Hx. destruct (Hm _ Hx) as (HA & HnR & Hnf).
  apply (to_resv_in _ _ _ _ _ Hok) in Hxl as [Hxl|[Hxl|Hxl]].
  - destruct (Hl0 _ Hxl) as [Hn _]. apply Hn. by apply in_regions_phys.
  - apply in_regions_phys in Hxl. apply HnR. rewrite (to_R _ _ _ _ _ Hok). apply in_regions_app. by left.
  - apply in_regions_phys in Hxl. done.
Qed.
Lemma next_not_reserved As Rd r Rr fl l : trim_ok As Rd (r :: Rr) fl l →
  ∀ x, in_region x (phys r) → ¬ in_regions x l.
Proof.
  intros Hok x Hx Hxl. pose proof (to_R _ _ _ _ _ Hok) as ER.
  assert (in_regions (x + PPTR_BASE) Rs) as HxR.
  { rewrite ER. apply in_regions_app. right. exists r. split; [by left|by apply in_phys]. }
  apply (to_resv_in _ _ _ _ _ Hok) in Hxl as [Hxl|[Hxl|Hxl]].
  - destruct (Hl0 _ Hxl) as [_ Hn]. apply Hn. by apply in_regions_phys.
  - apply in_regions_phys in Hxl as (r' & Hr' & Hx'). destruct HR as [_ HR']. rewrite ER in HR'.
    apply StronglySorted_app in HR' as (Hb & _ & _). eapply (before_disjoint r' r); [|done|by apply in_phys].
    apply Hb; [done|by left].
  - apply in_regions_phys in Hxl. pose proof (to_free _ _ _ _ _ Hok (x + PPTR_BASE)). tauto.
Qed.

(** Going on with what is left *)
Lemma trim_continue As Rd Rr fl l a r b As' Rd' Rr' fl' l' a' r' b' :
  trim_state As Rd Rr fl l a r b → trim_ok As' Rd' Rr' fl' l' → arrays l' fl' b' →
  (∃ pre junk, avail_reg b' = pre ++ As' ++ junk ∧ a' = Z.of_nat (length pre)) →
  a' + Z.of_nat (length As') = Z.of_nat (length A) → r' = Z.of_nat (length Rd') →
  Z.of_nat (length fl' + length As' + length Rr') - settled As' Rr' ≤ Z.of_nat (length fl + length As + length Rr) - settled As Rr →
  trim_left As' Rr' < trim_left As Rr →
  trim_next (trim_left As Rr) (inl (a', r')) b'.
Proof.
  intros Hts ? ? ? ? ? Hle Hlt. exists (trim_left As' Rr'). split.
  - split; [|done]. unfold trim_left, settled. destruct As', Rr'; simpl; [lia..|]. case_decide; lia.
  - exists As', Rd', Rr', fl', l'. split; [|done]. split; try done. pose proof (ts_room _ _ _ _ _ _ _ _ Hts). lia.
Qed.
Ltac trim_count := unfold trim_left; simpl;
  repeat match goal with |- context [settled ?x ?y] => lazymatch goal with
    | _ : 0 ≤ settled x y ≤ 1 |- _ => fail | _ => pose proof (settled_bounds x y) end end;
  rewrite ?length_app; simpl; lia.

Lemma trim_avail_tail As a0 Rd Rr fl l a r b : trim_state (a0 :: As) Rd Rr fl l a r b →
  ∃ pre junk, avail_reg b = pre ++ As ++ junk ∧ a + 1 = Z.of_nat (length pre).
Proof.
  intros [_ _ (pre & junk & Hb & ->) _ _ _]. exists (pre ++ [a0]), junk. rewrite Hb, <-app_assoc, length_app. simpl.
  split; [done|lia].
Qed.
Lemma trim_skip_avail As a0 Rd Rr fl l a r b : trim_state (a0 :: As) Rd Rr fl l a r b → r_end a0 ≤ r_start a0 →
  trim_next (trim_left (a0 :: As) Rr) (inl (a + 1, r)) b.
Proof.
  intros Hts He. pose proof Hts as [Hok Harr Hav Ha Hr _]. simpl in Ha.
  eapply (trim_continue _ _ _ _ _ _ _ _ As Rd Rr fl l); [done| |done|by eapply trim_avail_tail|lia|done|trim_count..].
  eapply trim_drop; [done|]. intros x. unfold in_region. lia.
Qed.
Lemma trim_skip_empty As Rd r0 Rr fl l a r b : trim_state As Rd (r0 :: Rr) fl l a r b → r_start r0 = r_end r0 →
  trim_next (trim_left As (r0 :: Rr)) (inl (a, r + 1)) b.
Proof.
  intros Hts He. pose proof Hts as [Hok Harr Hav Ha Hr _].
  eapply (trim_continue _ _ _ _ _ _ _ _ As (Rd ++ [r0]) Rr fl l); [done| |done|done|done|rewrite length_app; simpl; lia|trim_count..].
  eapply trim_pass; [done|by left|apply Hok| |lia].
  intros x. assert (¬ in_region x (phys r0)) by (unfold in_region; simpl; lia). tauto.
Qed.
Lemma trim_reserve_next As Rd r0 Rr fl l a r b : trim_state As Rd (r0 :: Rr) fl l a r b →
  (∀ x, x ∈ As → r_start r0 = r_end r0 ∨ before r0 x) →
  wp (reserve_region (pptr_to_paddr_reg r0)) (λ _ b', ∃ l', trim_ok As (Rd ++ [r0]) Rr fl l' ∧ arrays l' fl b' ∧
    avail_reg b' = avail_reg b) b.
Proof.
  intros Hts Hb. pose proof Hts as [Hok Harr (pre & junk & Hav & Hpre) Ha Hr Hrm].
  assert (in_window r0) as Hw0.
  { rewrite (to_R _ _ _ _ _ Hok) in HRwin. apply Forall_app in HRwin as [_ [? _]%Forall_cons]. done. }
  pose proof (to_len _ _ _ _ _ Hok) as Hlen. pose proof (f_equal length (to_R _ _ _ _ _ Hok)) as HlR.
  rewrite length_app in HlR. simpl in *. pose proof (settled_bounds As (r0 :: Rr)).
  eapply wp_mono; [apply (reserve_region_room l fl); try done; [apply Hok|lia|]|].
  { by eapply next_not_reserved. }
  intros _ b' (l' & Harr' & Hok' & Hin & Hle & Hav'). exists l'. split_and!; [|done|by rewrite Hav']. by eapply trim_pass.
Qed.
Lemma trim_reserve As a0 Rd r0 Rr fl l a r b : trim_state (a0 :: As) Rd (r0 :: Rr) fl l a r b → r_end r0 ≤ r_start a0 →
  wp (_ ← reserve_region (pptr_to_paddr_reg r0); mret (inl (a, r + 1))) (trim_next (trim_left (a0 :: As) (r0 :: Rr))) b.
Proof.
  intros Hts He. pose proof Hts as [Hok _ (pre & junk & Hav & Hpre) Ha Hr _].
  apply wp_bind. eapply wp_mono; [eapply trim_reserve_next; [done|]|].
  - intros x Hx. right. unfold before. pose proof (to_As _ _ _ _ _ Hok) as (? & Hb & _)%ordered_cons.
    apply elem_of_cons in Hx as [->|Hx]; [done|]. specialize (Hb x Hx). unfold before in Hb. lia.
  - intros _ b' (l' & Hok' & Harr' & Hav'). apply wp_ret.
    eapply (trim_continue _ _ _ _ _ _ _ _ (a0 :: As) (Rd ++ [r0]) Rr fl l'); [done..| |done| |trim_count|trim_count].
    + rewrite Hav'. eauto.
    + rewrite length_app. simpl. lia.
Qed.

(** ** Overlap of the first pair of regions *)
Section overlap.
Context (As : list region) (a0 : region) (Rd : list region) (r0 : region) (Rr fl l : list region) (a r : Z) (b : ndks_boot).
Context (Hts : trim_state (a0 :: As) Rd (r0 :: Rr) fl l a r b).
Context (Ha0 : nonempty a0) (Hr0 : nonempty r0) (Hover : r_start a0 < r_end r0).

Lemma overlap_unsettled : settled (a0 :: As) (r0 :: Rr) = 0.
Proof. unfold settled. unfold nonempty in *. case_decide; [lia|done]. Qed.
Lemma overlap_R x : in_regions x Rs → in_region x a0 → in_regions x (r0 :: Rr).
Proof.
  pose proof (ts_ok _ _ _ _ _ _ _ _ Hts) as Hok. rewrite (to_R _ _ _ _ _ Hok), in_regions_app.
  intros [(r1 & Hr1 & Hx)|?] Ha; [|done]. exfalso.
  destruct (to_done _ _ _ _ _ Hok r1 a0 Hr1 ltac:(by left)) as [He|Hb]; unfold before, in_region in *; lia.
Qed.
(** Below the reserved region all is free. *)
Lemma overlap_free x : in_region x a0 → x < r_start r0 → in_regions x A ∧ ¬ in_regions x Rs ∧ ¬ in_regions x fl.
Proof.
  intros Hx Hlt. pose proof (ts_ok _ _ _ _ _ _ _ _ Hts) as Hok.
  assert (¬ in_regions x Rs) as HnR.
  { intros HxR. apply overlap_R in HxR; [|done]. apply in_regions_cons in HxR as [?|(r1 & Hr1 & Hx1)]; [unfold in_region in *; lia|].
    pose proof HR as HR'. rewrite (to_R _ _ _ _ _ Hok) in HR'. destruct HR' as [_ HR'].
    apply StronglySorted_app in HR' as (_ & _ & [Hb _]%StronglySorted_cons). rewrite Forall_forall in Hb.
    specialize (Hb r1 Hr1). unfold before, in_region, nonempty in *. lia. }
  split_and!; [|done|].
  - apply (to_free _ _ _ _ _ Hok). right. split; [|done]. apply in_regions_cons. by left.
  - intros (f & Hf & Hxf). eapply before_disjoint; [by eapply (to_order _ _ _ _ _ Hok f a0 Hf), list_elem_of_here|done..].
Qed.

(** The free part below the reserved region becomes a free region. *)
Lemma trim_insert e (Q : Z * Z + Z * Z → ndks_boot → Prop) k :
  r_start a0 < e ≤ r_end a0 → e ≤ r_start r0 →
  (∀ l' b', arrays l' (fl ++ [set_end e a0]) b' → avail_reg b' = avail_reg b →
    (∀ As', regions_ordered As' → Forall in_window As' → (∀ x, x ∈ As' → before (set_end e a0) x) →
      (∀ x, in_regions x (a0 :: As) ∧ ¬ in_regions x Rs ↔ in_region x (set_end e a0) ∨ in_regions x As' ∧ ¬ in_regions x Rs) →
      (∀ r1 x, r1 ∈ Rd → x ∈ As' → r_start r1 = r_end r1 ∨ before r1 x) →
      trim_ok As' Rd (r0 :: Rr) (fl ++ [set_end e a0]) l') →
    wp k Q b') →
  wp (insert_region (set_end e a0) ≫= λ _, k) Q b.
Proof.
  intros He He0 Hk. pose proof Hts as [Hok Harr _ _ _ Hrm]. rewrite overlap_unsettled in Hrm.
  pose proof (to_win _ _ _ _ _ Hok) as [(Hw1 & Hw2 & Hw3) _]%Forall_cons.
  pose proof (to_len _ _ _ _ _ Hok) as Hlen. pose proof (f_equal length (to_R _ _ _ _ _ Hok)) as HlR.
  rewrite length_app in HlR. simpl in *.
  apply wp_bind. eapply wp_mono; [apply (insert_region_spec l fl); try done; try lia|].
  - apply Hok.
  - split_and!; simpl; lia.
  - unfold nonempty. simpl. lia.
  - apply Hok.
  - eapply free_not_reserved; [done|]. intros x Hx. unfold in_region in Hx. simpl in Hx.
    apply overlap_free; [unfold in_region; lia|lia].
  - intros _ b' (l' & Harr' & Hok' & Hin & Hle & Hav). eapply Hk; [done..|].
    intros As' HAs Hwin Hb Hset Hdone. eapply (trim_take (set_end e a0)); try done; [unfold nonempty; simpl; lia|..].
    + intros f Hf. apply (to_order _ _ _ _ _ Hok f a0 Hf). by left.
    + intros x Hx. unfold in_region in Hx. simpl in Hx. apply overlap_free; [unfold in_region; lia|lia].
Qed.

Lemma overlap_As : ∀ x, x ∈ As → before a0 x.
Proof. pose proof (to_As _ _ _ _ _ (ts_ok _ _ _ _ _ _ _ _ Hts)) as (_ & Hb & _)%ordered_cons. done. Qed.
Lemma overlap_done s r1 x : r_start a0 ≤ s → r1 ∈ Rd → x ∈ set_start s a0 :: As → r_start r1 = r_end r1 ∨ before r1 x.
Proof.
  intros Hs Hr1 Hx. pose proof (to_done _ _ _ _ _ (ts_ok _ _ _ _ _ _ _ _ Hts) r1) as Hd.
  apply elem_of_cons in Hx as [->|Hx]; [|apply Hd; [done|by right]].
  destruct (Hd a0 Hr1 ltac:(by left)); [by left|right]. unfold before in *. simpl. lia.
Qed.
Lemma in_r0 x : in_region x r0 → in_regions x Rs.
Proof.
  intros Hx. rewrite (to_R _ _ _ _ _ (ts_ok _ _ _ _ _ _ _ _ Hts)). apply in_regions_app. right.
  exists r0. split; [by left|done].
Qed.

Lemma trim_take_whole : r_end a0 ≤ r_start r0 →
  wp (_ ← insert_region a0; mret (inl (a + 1, r))) (trim_next (trim_left (a0 :: As) (r0 :: Rr))) b.
Proof.
  intros He. replace a0 with (set_end (r_end a0) a0) at 1 by (by destruct a0).
  apply trim_insert; [unfold nonempty in *; lia|done|]. intros l' b' Harr Hav Hok. apply wp_ret.
  pose proof Hts as [Hok0 _ _ Ha Hr _]. pose proof overlap_unsettled. simpl in Ha.
  pose proof (to_As _ _ _ _ _ Hok0) as (_ & Hb & Has)%ordered_cons. pose proof (to_win _ _ _ _ _ Hok0) as [_ Hw]%Forall_cons.
  eapply (trim_continue _ _ _ _ _ _ _ _ As Rd (r0 :: Rr) (fl ++ [set_end (r_end a0) a0]) l'); [done| |done|..|done|trim_count|trim_count].
  - apply Hok; [done..| |].
    + intros x. rewrite in_regions_cons. replace (set_end (r_end a0) a0) with a0 by (by destruct a0).
      assert (in_region x a0 → ¬ in_regions x Rs) by (intros Hx; apply overlap_free; [done|unfold in_region in *; lia]). tauto.
    + intros r1 x Hr1 Hx. apply (to_done _ _ _ _ _ Hok0); [done|by right].
  - rewrite Hav. by eapply trim_avail_tail.
  - lia.
Qed.

Lemma trim_cut_start : r_start r0 ≤ r_start a0 →
  wp (put_avail a (set_start (Z.min (r_end a0) (r_end r0)) a0) ≫= λ _, mret (inl (a, r)))
    (trim_next (trim_left (a0 :: As) (r0 :: Rr))) b.
Proof.
  intros Hs. pose proof Hts as [Hok Harr (pre & junk & Hav & Hpre) Ha Hr _]. pose proof overlap_unsettled.
  apply wp_bind. eapply wp_put_avail; [rewrite Hav; apply lookup_middle; lia|]. apply wp_ret.
  set (s := Z.min (r_end a0) (r_end r0)). unfold nonempty in *.
  assert (settled (set_start s a0 :: As) (r0 :: Rr) = 1) as Hset.
  { unfold settled. case_decide; [done|]. simpl in *. lia. }
  eapply (trim_continue _ _ _ _ _ _ _ _ (set_start s a0 :: As) Rd (r0 :: Rr) fl l);
    [done| |done| |done|done|simpl; lia|unfold trim_left; simpl; lia].
  - apply trim_start; [done|lia| |].
    + intros x Hx. unfold in_region in *. destruct (Z.lt_ge_cases x (r_end r0)); [right; left|left; simpl; lia].
      apply in_r0. unfold in_region. lia.
    + intros f Hf. pose proof (to_order _ _ _ _ _ Hok f a0 Hf ltac:(by left)). unfold before in *. lia.
  - exists pre, junk. simpl in *. rewrite Hav, insert_middle by lia. done.
Qed.

(** The reserved region is in the middle: the part above it is left. *)
Lemma trim_chunk_middle l' b' : r_start a0 < r_start r0 → r_end r0 < r_end a0 →
  arrays l' (fl ++ [set_end (r_start r0) a0]) b' → avail_reg b' = avail_reg b →
  trim_ok (set_start (r_end r0) a0 :: As) Rd (r0 :: Rr) (fl ++ [set_end (r_start r0) a0]) l' →
  wp (put_avail a (set_start (r_end r0) a0) ≫= λ _, mret (inl (a, r))) (trim_next (trim_left (a0 :: As) (r0 :: Rr))) b'.
Proof.
  intros Hs He Harr Hav Hok. pose proof Hts as [_ _ (pre & junk & Hav0 & Hpre) Ha Hr _].
  pose proof overlap_unsettled. unfold nonempty in *.
  assert (settled (set_start (r_end r0) a0 :: As) (r0 :: Rr) = 1) as Hset.
  { unfold settled. case_decide; [done|]. simpl in *. lia. }
  apply wp_bind. eapply wp_put_avail; [rewrite Hav, Hav0; apply lookup_middle; lia|]. apply wp_ret.
  eapply (trim_continue _ _ _ _ _ _ _ _ (set_start (r_end r0) a0 :: As) Rd (r0 :: Rr) _ l');
    [done|done|done| |simpl in *; lia|done|rewrite length_app; simpl; lia|unfold trim_left; simpl; lia].
  exists pre, junk. simpl in *. rewrite Hav, Hav0, insert_middle by lia. done.
Qed.
Lemma trim_chunk : r_start a0 < r_start r0 < r_end a0 →
  wp (_ ← insert_region (set_end (r_start r0) a0);
      if r_end r0 <? r_end a0 then put_avail a (set_start (r_end r0) a0);; mret (inl (a, r)) else mret (inl (a + 1, r)))
    (trim_next (trim_left (a0 :: As) (r0 :: Rr))) b.
Proof.
  intros Hs. pose proof Hts as [Hok0 _ _ Ha Hr _]. pose proof overlap_unsettled. simpl in Ha.
  pose proof (to_As _ _ _ _ _ Hok0) as (_ & Hb & Has)%ordered_cons.
  pose proof (to_win _ _ _ _ _ Hok0) as [(Hw1 & Hw2 & Hw3) Hw]%Forall_cons. unfold nonempty in *.
  apply trim_insert; [lia..|]. intros l' b' Harr Hav Hok.
  assert (∀ x, in_region x (set_end (r_start r0) a0) → in_region x a0 ∧ ¬ in_regions x Rs) as Hfree.
  { intros x Hx. unfold in_region in Hx. simpl in Hx. split; [unfold in_region; lia|apply overlap_free; [unfold in_region; lia|lia]]. }
  pose proof in_r0 as Hin0. destruct (Z.ltb_spec (r_end r0) (r_end a0)) as [He|He].
  - eapply trim_chunk_middle; [lia..|done|done|]. apply Hok.
    + apply ordered_cons. simpl. split_and!; [lia| |done]. intros x Hx. by apply Hb.
    + apply Forall_cons. split; [|done]. split_and!; simpl; lia.
    + intros x [->|Hx]%elem_of_cons; unfold before; simpl; [lia|]. apply Hb in Hx. unfold before in Hx. lia.
    + intros x. rewrite !in_regions_cons. specialize (Hfree x). specialize (Hin0 x).
      assert (in_region x a0 ↔ in_region x (set_end (r_start r0) a0) ∨ in_region x r0 ∨ in_region x (set_start (r_end r0) a0))
        by (unfold in_region; simpl; lia). tauto.
    + intros. eapply overlap_done; [|done..]. lia.
  - apply wp_ret. eapply (trim_continue _ _ _ _ _ _ _ _ As Rd (r0 :: Rr) _ l'); [done| |done|..|done|trim_count|trim_count].
    + apply Hok; [done..| | |].
      * intros x Hx. apply Hb in Hx. unfold before in *. simpl. lia.
      * intros x. rewrite !in_regions_cons. specialize (Hfree x). specialize (Hin0 x).
        assert (in_region x a0 → in_region x (set_end (r_start r0) a0) ∨ in_region x r0) by (unfold in_region; simpl; lia). tauto.
      * intros r1 x Hr1 Hx. apply (to_done _ _ _ _ _ Hok0); [done|by right].
    + rewrite Hav. by eapply trim_avail_tail.
    + lia.
Qed.
End overlap.

Lemma trim_step n ar b : trim_inv n ar b → wp (trim_regions_step (Z.of_nat (length A)) Rs ar) (trim_next n) b.
Proof.
  destruct ar as [a r]. intros (As & Rd & Rr & fl & l & Hts & ->). simpl in Hts.
  pose proof Hts as [Hok _ (pre & junk & Hav & Hpre) Ha Hr _]. pose proof (to_R _ _ _ _ _ Hok) as ER.
  pose proof (f_equal length ER) as HlR. rewrite length_app in HlR. unfold trim_regions_step.
  destruct As as [|a0 As]; simpl in Ha.
  { rewrite (proj2 (Z.ltb_ge a _)) by lia. simpl. apply wp_ret. exists [], Rd, Rr, fl, l. split; [done|by left]. }
  rewrite (proj2 (Z.ltb_lt a _)) by lia. destruct Rr as [|r0 Rr]; simpl in HlR.
  { rewrite (proj2 (Z.ltb_ge r _)) by lia. simpl. apply wp_ret. exists (a0 :: As), Rd, [], fl, l. split; [done|by right]. }
  rewrite (proj2 (Z.ltb_lt r _)) by lia. simpl.
  apply wp_bind. eapply wp_deref; [rewrite ER; apply lookup_middle; lia|].
  apply wp_bind. eapply wp_get_avail; [rewrite Hav; apply lookup_middle; lia|].
  assert (r_start r0 ≤ r_end r0) as Hor.
  { destruct HR as [HR' _]. rewrite ER in HR'. by apply Forall_app in HR' as [_ [? _]%Forall_cons]. }
  destruct (Z.eqb_spec (r_start r0) (r_end r0)) as [|Hr0]; [by eapply trim_skip_empty|].
  destruct (Z.leb_spec (r_end a0) (r_start a0)) as [|Ha0]; [by eapply trim_skip_avail|].
  destruct (Z.leb_spec (r_end r0) (r_start a0)) as [|Hov]; [by eapply trim_reserve|].
  assert (nonempty r0) by (unfold nonempty; lia).
  destruct (Z.leb_spec (r_end a0) (r_start r0)) as [|Hov2]; [by eapply trim_take_whole|].
  destruct (Z.leb_spec (r_start r0) (r_start a0)) as [|Hov3]; [by eapply trim_cut_start|].
  apply wp_bind, wp_assert; [by apply Z.ltb_lt|]. eapply trim_chunk; done.
Qed.

Lemma trim_loop As Rd Rr fl l a r b : trim_state As Rd Rr fl l a r b →
  wp (while64 (trim_regions_step (Z.of_nat (length A)) Rs) (a, r)) (λ ar b', trim_next 0 (inr ar) b') b.
Proof.
  intros Hts. apply (wp_while64_idx trim_inv _ _ (trim_left As Rr)).
  - intros n ar b' _ HI. eapply wp_mono; [by apply trim_step|]. by intros [ar'|ar'] b''.
  - by exists As, Rd, Rr, fl, l.
  - pose proof Hts as [Hok _ _ Ha _ _]. pose proof (f_equal length (to_R _ _ _ _ _ Hok)) as HlR. rewrite length_app in HlR.
    destruct (ts_avail _ _ _ _ _ _ _ _ Hts) as (pre & _ & _ & ->).
    pose proof (settled_bounds As Rr). unfold trim_left, MAX_NUM_FREEMEM_REG in *.
    split; [|lia]. unfold settled. destruct As, Rr; simpl; [lia..|]. case_decide; lia.
Qed.

(** ** The rest of the arrays *)
Lemma reserve_rest_spec Rd Rr fl l a r b : trim_state [] Rd Rr fl l a r b →
  wp (reserve_rest Rs r) (λ _ b', ∃ l', trim_state [] Rs [] fl l' a (Z.of_nat (length Rs)) b') b.
Proof.
  intros Hts. pose proof (f_equal length (to_R _ _ _ _ _ (ts_ok _ _ _ _ _ _ _ _ Hts))) as HlR. rewrite length_app in HlR.
  pose proof (ts_r _ _ _ _ _ _ _ _ Hts) as Er.
  apply (wp_for_range (λ r b', ∃ Rd Rr l', trim_state [] Rd Rr fl l' a r b')); [lia|by exists Rd, Rr, l|..].
  - clear b Hts. intros r1 b Hr1 (Rd1 & Rr1 & l1 & Hts). pose proof Hts as [Hok Harr Hav Ha Hr' Hrm].
    pose proof (to_R _ _ _ _ _ Hok) as ER. pose proof (f_equal length ER) as HlR1. rewrite length_app in HlR1.
    destruct Rr1 as [|r0 Rr1]; simpl in HlR1; [lia|].
    apply wp_bind. eapply wp_deref; [rewrite ER; apply lookup_middle; lia|].
    assert (∀ l', trim_ok [] (Rd1 ++ [r0]) Rr1 fl l' → ∀ b', arrays l' fl b' → avail_reg b' = avail_reg b →
      trim_state [] (Rd1 ++ [r0]) Rr1 fl l' a (r1 + 1) b') as Hnext.
    { intros l' ? b' ? Hav'. split; try done; [by rewrite Hav'|rewrite length_app; simpl; lia|].
      unfold settled in *. simpl in Hrm |- *. lia. }
    apply wp_when; intros Hlt.
    + apply wp_bind. eapply wp_mono; [eapply trim_reserve_next; [done|by intros x ?%elem_of_nil]|].
      intros _ b' (l' & Hok' & Harr' & Hav'). apply wp_ret. eauto.
    + apply Z.ltb_ge in Hlt. exists (Rd1 ++ [r0]), Rr1, l1. apply Hnext; [|done..].
      eapply trim_pass; [done|by intros x ?%elem_of_nil|apply Hok| |lia].
      intros x. assert (¬ in_region x (phys r0)) by (unfold in_region; simpl; lia). tauto.
  - intros b' (Rd' & Rr' & l' & Hts'). pose proof Hts' as [Hok' _ _ _ Hr' _]. pose proof (to_R _ _ _ _ _ Hok') as ER.
    pose proof (f_equal length ER) as HlR'. rewrite length_app in HlR'. destruct Rr'; [|simpl in *; lia].
    rewrite app_nil_r in ER. subst Rd'. by exists l'.
Qed.

Lemma insert_rest_spec As fl l a r b : trim_state As Rs [] fl l a r b →
  wp (insert_rest (Z.of_nat (length A)) a) (λ _ b', ∃ fl' l' a', trim_state [] Rs [] fl' l' a' r b') b.
Proof.
  intros Hts. pose proof (ts_a _ _ _ _ _ _ _ _ Hts) as Ha.
  apply (wp_for_range (λ a b', ∃ As fl l, trim_state As Rs [] fl l a r b')); [lia|by exists As, fl, l|..].
  - clear As fl l b Hts Ha. intros a1 b Ha1 (As & fl & l & Hts). pose proof Hts as [Hok Harr (pre & junk & Hav & Hpre) Ha Hr Hrm].
    pose proof (to_len _ _ _ _ _ Hok) as Hlen.
    destruct As as [|a0 As]; simpl in Ha; [lia|]. pose proof (trim_avail_tail _ _ _ _ _ _ _ _ _ Hts) as Hav1.
    pose proof (to_As _ _ _ _ _ Hok) as (? & Hb & Has)%ordered_cons. pose proof (to_win _ _ _ _ _ Hok) as [Hw0 Hw]%Forall_cons.
    apply wp_bind. eapply wp_get_avail; [rewrite Hav; apply lookup_middle; lia|].
    assert (∀ x, in_region x a0 → ¬ in_regions x Rs) as HaR.
    { intros x Hx (r1 & Hr1 & Hx1). destruct (to_done _ _ _ _ _ Hok r1 a0 Hr1 ltac:(by left)); unfold before, in_region in *; lia. }
    unfold settled in Hrm. simpl in Hrm. apply wp_when; intros Hlt.
    + apply Z.ltb_lt in Hlt. apply wp_bind. eapply wp_mono; [apply (insert_region_spec l fl); try done; try apply Hok; try lia|].
      * eapply free_not_reserved; [done|]. intros x Hx. split_and!; [|by apply HaR|].
        -- apply (to_free _ _ _ _ _ Hok). right. split; [|by apply HaR]. apply in_regions_cons. by left.
        -- intros (f & Hf & Hxf). eapply before_disjoint; [by eapply (to_order _ _ _ _ _ Hok f a0 Hf), list_elem_of_here|done..].
      * intros _ b' (l' & Harr' & Hok' & Hin & Hle & Hav'). apply wp_ret. exists As, (fl ++ [a0]), l'. split; try done.
        -- eapply trim_take; try done.
           ++ intros f Hf. apply (to_order _ _ _ _ _ Hok f a0 Hf). by left.
           ++ intros x. rewrite in_regions_cons. specialize (HaR x). tauto.
           ++ intros r1 x Hr1 Hx. apply (to_done _ _ _ _ _ Hok); [done|by right].
        -- by rewrite Hav'.
        -- lia.
        -- rewrite length_app. unfold settled. destruct As; simpl in *; lia.
    + apply Z.ltb_ge in Hlt. exists As, fl, l. split; try done; [|lia|unfold settled; destruct As; simpl in *; lia].
      eapply trim_drop; [done|]. intros x. unfold in_region. lia.
  - intros b' (As' & fl' & l' & Hts'). pose proof (ts_a _ _ _ _ _ _ _ _ Hts'). destruct As'; [|simpl in *; lia]. eauto.
Qed.
End trim.

(** ** The whole division *)
Section checks.
Lemma check_reserved_ordered prev l : check_reserved_from prev l = true →
  regions_ordered l ∧ ∀ p r, prev = Some p → r ∈ l → before p r.
Proof.
  revert prev. induction l as [|r l IH]; intros prev Hc; [split; [repeat constructor|by intros ? ? _ ?%elem_of_nil]|].
  simpl in Hc. destruct (Z.ltb_spec (r_end r) (r_start r)) as [|Hr]; [done|].
  destruct (match prev with Some p => r_start r <? r_end p | None => false end) eqn:Hp; [done|].
  apply IH in Hc as [Hl Hb]. split.
  - apply ordered_cons. split_and!; [done| |done]. intros x Hx. by apply Hb.
  - intros p r' -> Hr'. apply Z.ltb_ge in Hp. apply elem_of_cons in Hr' as [->|Hr']; [done|].
    specialize (Hb r r' eq_refl Hr'). unfold before in *. lia.
Qed.
Lemma check_available_reserved prev l : check_available_from prev l = true →
  check_reserved_from prev l = true ∧ Forall nonempty l.
Proof.
  revert prev. induction l as [|r l IH]; intros prev Hc; [by split|].
  simpl in *. destruct (Z.ltb_spec (r_end r) (r_start r)) as [|Hr]; [done|].
  destruct (Z.eqb_spec (r_start r) (r_end r)) as [|Hne]; [done|].
  destruct (match prev with Some p => r_start r <? r_end p | None => false end); [done|].
  apply IH in Hc as [? ?]. split; [done|]. apply Forall_cons. split; [unfold nonempty; lia|done].
Qed.
End checks.

Section init.
Context `{Platform} `{BootPlatformOk}.

Definition word_region (r : region) : Prop := is_word (r_start r) ∧ is_word (r_end r).
Lemma clip_window p : is_word (r_start p) → r_start p ≤ r_end p → in_window (clip p).
Proof.
  intros Hp Hle. unfold in_window, clip, is_word in *. simpl. change PADDR_TOP with (PPTR_TOP - PPTR_BASE).
  unfold PPTR_TOP, PPTR_BASE. lia.
Qed.
Lemma clip_ordered l : regions_ordered l → regions_ordered (clip <$> l).
Proof.
  induction l as [|r l IH]; [done|]. intros (Hr & Hb & Hl)%ordered_cons. simpl. apply ordered_cons.
  split_and!; [simpl; lia| |auto]. intros x (y & -> & Hy)%list_elem_of_fmap. specialize (Hb y Hy).
  unfold before in *. simpl. lia.
Qed.

Lemma clear_freemem_spec b : Z.of_nat (length (freemem b)) = MAX_NUM_FREEMEM_REG →
  wp (for_range 0 MAX_NUM_FREEMEM_REG (λ i, put_freemem i REG_EMPTY))
    (λ _ b', b' = set_freemem (replicate 16 REG_EMPTY) b) b.
Proof.
  intros Hlen. apply (wp_for_range (λ i b', ∃ f, b' = set_freemem (replicate (Z.to_nat i) REG_EMPTY ++ f) b ∧
    i + Z.of_nat (length f) = MAX_NUM_FREEMEM_REG)); [done|exists (freemem b); by destruct b|..].
  - intros i b' Hi ([|r f] & -> & Hf); simpl in Hf; [lia|].
    eapply wp_put_freemem; [apply lookup_middle; rewrite length_replicate; lia|]. exists f. split; [|lia].
    unfold set_freemem; simpl. f_equal. rewrite insert_middle by (rewrite length_replicate; lia).
    replace (Z.to_nat (i + 1)) with (Z.to_nat i + 1)%nat by lia. by rewrite replicate_add, <-app_assoc.
  - intros b' (f & -> & Hf). destruct f; [|simpl in Hf; lia]. by rewrite app_nil_r.
Qed.
Lemma convert_available_spec available b :
  Forall word_region available → Z.of_nat (length (avail_reg b)) = MAX_NUM_FREEMEM_REG →
  Z.of_nat (length available) ≤ MAX_NUM_FREEMEM_REG →
  wp (for_range 0 (Z.of_nat (length available)) (λ i,
    p_reg ← deref (available !! Z.to_nat i);
    let reg := paddr_to_pptr_reg p_reg in
    put_avail i (Region (ceiling_kernel_window (r_start reg)) (ceiling_kernel_window (r_end reg)))))
  (λ _ b', ∃ junk, b' = set_avail_reg ((clip <$> available) ++ junk) b) b.
Proof.
  intros Hw Hlen Hle. apply (wp_for_range (λ i b', ∃ l1 l2 f, available = l1 ++ l2 ∧ i = Z.of_nat (length l1) ∧
    b' = set_avail_reg ((clip <$> l1) ++ f) b ∧ i + Z.of_nat (length f) = MAX_NUM_FREEMEM_REG)); [lia|..].
  - exists [], available, (avail_reg b). split_and!; [done..|by destruct b|done].
  - intros i b' Hi (l1 & l2 & f & -> & -> & -> & Hf). rewrite length_app in *.
    destruct l2 as [|p l2]; simpl in *; [lia|]. destruct f as [|r f]; simpl in *; [lia|].
    apply wp_bind. eapply wp_deref; [apply lookup_middle; lia|].
    apply Forall_app in Hw as [_ [[Hs He] _]%Forall_cons]. rewrite !ceiling_clip by done.
    eapply wp_put_avail; [apply lookup_middle; rewrite length_fmap; lia|].
    exists (l1 ++ [p]), l2, f. rewrite <-app_assoc, length_app. split_and!; [done|simpl; lia| |simpl; lia].
    unfold set_avail_reg; simpl. f_equal. rewrite insert_middle by (rewrite length_fmap; lia).
    by rewrite fmap_app, <-app_assoc.
  - intros b' (l1 & l2 & f & -> & Hi & -> & Hf). rewrite length_app in Hi.
    destruct l2; [|simpl in Hi; lia]. rewrite app_nil_r. eauto.
Qed.

(** The arrays after the division of memory *)
Definition divided (available Rs l0 fl l : list region) (b : ndks_boot) : Prop :=
  arrays l fl b ∧ regions_sorted fl ∧ regions_ok l ∧
  (∀ x, in_regions x fl ↔ in_regions x (clip <$> available) ∧ ¬ in_regions x Rs) ∧
  (∀ x, in_regions x l ↔ in_regions x l0 ∨ in_regions x (phys <$> Rs) ∨ in_regions x (phys <$> fl)) ∧
  (length fl ≤ length available + length Rs)%nat.

(** What the memory map must satisfy: addresses are words, the reserved regions are in
    the kernel window and apart from the regions reserved before, as is the available
    memory, and the arrays are large enough. *)
Record map_ok (available Rs l0 : list region) : Prop := {
  mo_words : Forall word_region available;
  mo_window : Forall in_window Rs;
  mo_apart : ∀ x, in_regions x l0 → ¬ in_regions x (phys <$> (clip <$> available)) ∧ ¬ in_regions x (phys <$> Rs);
  mo_free : Z.of_nat (length available + length Rs) < MAX_NUM_FREEMEM_REG;
  mo_resv : Z.of_nat (length l0 + length Rs + (length available + length Rs)) < MAX_NUM_RESV_REG
}.
Record ndks_ok (l0 : list region) (b : ndks_boot) : Prop := {
  no_resv : resv_repr l0 b;
  no_len : Z.of_nat (length (reserved b)) = MAX_NUM_RESV_REG;
  no_ok : regions_ok l0;
  no_free : Z.of_nat (length (freemem b)) = MAX_NUM_FREEMEM_REG;
  no_avail : Z.of_nat (length (avail_reg b)) = MAX_NUM_FREEMEM_REG
}.

Lemma init_freemem_regions_spec available Rs l0 b :
  map_ok available Rs l0 → ndks_ok l0 b →
  check_available_memory available = true → check_reserved_memory Rs = true →
  wp (init_freemem_regions available Rs) (λ _ b', ∃ fl l, divided available Rs l0 fl l b') b.
Proof.
  intros [Hw Hwin Hap Hmf Hmr] [Hl0 Hmax Hok Hf Ha] Hca Hcr.
  unfold check_available_memory in Hca. case_match; [done|].
  apply check_available_reserved in Hca as [[Hao _]%check_reserved_ordered _].
  apply check_reserved_ordered in Hcr as [Hro _].
  set (A := clip <$> available). assert (length A = length available) as HlA by apply length_fmap.
  apply wp_bind. eapply wp_mono; [by apply clear_freemem_spec|]. intros _ b1 ->.
  apply wp_bind. eapply wp_mono; [apply convert_available_spec; [done|done|lia]|]. intros _ b1 (junk & ->).
  assert (trim_state A Rs l0 A [] Rs [] l0 0 0 (set_avail_reg (A ++ junk) (set_freemem (replicate 16 REG_EMPTY) b))) as Hts.
  { split; try done; simpl.
    - split; try done; [by apply clip_ordered| | | | |by intros ? ? ?%elem_of_nil|by intros x; rewrite !in_regions_nil; tauto|lia].
      + unfold A. apply Forall_fmap. destruct Hao as [Hle _]. rewrite Forall_forall in *. intros p Hp.
        apply clip_window; [by apply Hw|by apply Hle].
      + repeat constructor.
      + by intros ? ? ?%elem_of_nil.
      + intros x. rewrite in_regions_nil. tauto.
    - split_and!; [done..|]. by exists 16%nat.
    - by exists [], junk.
    - pose proof (settled_bounds A Rs). lia. }
  change (λ i : Z, put_freemem i REG_EMPTY) with (λ i : Z, put_freemem i REG_EMPTY).
  rewrite <-HlA in *.
  apply wp_bind. eapply wp_mono; [by eapply (trim_loop A Rs l0)|].
  intros [a r] b1 (As & Rd & Rr & fl & l & Hts1 & Hend). simpl in Hts1.
  apply wp_bind. eapply wp_mono.
  { instantiate (1 := λ _ b', ∃ As r fl l, trim_state A Rs l0 As Rs [] fl l a r b'). destruct Hend as [-> | ->].
    - eapply wp_mono; [by eapply reserve_rest_spec|]. intros _ b' (l' & ?). eauto 6.
    - pose proof (to_R _ _ _ _ _ _ _ _ (ts_ok _ _ _ _ _ _ _ _ _ _ _ Hts1)) as ER. rewrite app_nil_r in ER. subst Rd.
      rewrite (ts_r _ _ _ _ _ _ _ _ _ _ _ Hts1) in *. apply (wp_for_range (λ _ b', b' = b1)); [lia|done|lia|].
      intros b' ->. eauto 6. }
  cbn beta. clear Hts1. intros _ b2 (As' & r' & fl' & l' & Hts2).
  eapply wp_mono; [by eapply insert_rest_spec|]. intros _ b3 (fl3 & l3 & a3 & [Hok3 Harr3 _ _ _ Hrm]).
  exists fl3, l3. destruct Hok3 as [_ _ _ Hfl _ Hfree _ Hok3 Hin _]. split_and!; try done; [|simpl in Hrm; lia].
  intros x. specialize (Hfree x). rewrite in_regions_nil in Hfree. fold A. tauto.
Qed.
End init.
