(* ===== verification/BootObjects.v ===== *)
(** * Placing the first thread's objects

    [create_rootserver_objects] fills its memory exactly: the objects lie one after
    the other from the start to the end, each aligned to its size, and none of the
    assertions on the way fails. [init_freemem] cuts that memory from a free region
    and leaves the rest free. *)
From stdpp Require Import sorting.
From S2P Require Import Prelude Words Platform State RefillList Sporadic CapOps CSpace VSpace Untyped BootMemory Boot Machine BootRegions BootTrim.

(** ** Objects in a row *)

(** [n] objects of [2^bits] bytes *)
Record block := Block { bk_addr : Z; bk_bits : Z; bk_count : Z }.
Definition block_size (o : block) : Z := bk_count o * 2 ^ bk_bits o.
Definition block_aligned (o : block) : Prop := (2 ^ bk_bits o | bk_addr o).
(** The blocks [l] lie one after the other from [s] to [e]. *)
Fixpoint tiles (s : Z) (l : list block) (e : Z) : Prop :=
  match l with
  | [] => s = e
  | o :: l' => bk_addr o = s ∧ tiles (s + block_size o) l' e
  end.
Lemma tiles_snoc s l o : tiles s l (bk_addr o) → tiles s (l ++ [o]) (bk_addr o + block_size o).
Proof. revert s. induction l as [|o' l IH]; intros s; simpl; [by intros ->|]. intros [? ?]. auto. Qed.
(** Two different blocks have no address in common. *)
Definition block_region (o : block) : region := Region (bk_addr o) (bk_addr o + block_size o).
Lemma tiles_sorted s l e : Forall (λ o, 0 ≤ block_size o) l → tiles s l e →
  StronglySorted before (block_region <$> l) ∧ s ≤ e ∧ Forall (λ o, s ≤ bk_addr o ∧ bk_addr o + block_size o ≤ e) l.
Proof.
  revert s. induction l as [|o l IH]; intros s; simpl; [intros _ ->; split_and!; [constructor|lia|constructor]|].
  intros [Ho Hl]%Forall_cons [<- Ht]. destruct (IH _ Hl Ht) as (Hs & Hle & Hb). split_and!; [|lia|].
  - apply StronglySorted_cons. split; [|done]. apply Forall_fmap. eapply Forall_impl; [done|].
    intros o' [? _]. unfold before. simpl. lia.
  - apply Forall_cons. split; [lia|]. eapply Forall_impl; [done|]. simpl. intros o' [? ?]. lia.
Qed.

Lemma wrap_add_l a b : wrap a +w b = wrap (a + b).
Proof. apply Zplus_mod_idemp_l. Qed.
Lemma wrap_add_r a b : a +w wrap b = wrap (a + b).
Proof. apply Zplus_mod_idemp_r. Qed.
Lemma pow2_divide a b : 0 ≤ a ≤ b → (2 ^ a | 2 ^ b).
Proof. intros Hab. exists (2 ^ (b - a)). rewrite <-Z.pow_add_r by lia. f_equal. lia. Qed.

Section objects.
Context `{Platform} `{BootPlatformOk}.

Definition cnode_bits : Z := CONFIG_ROOT_CNODE_SIZE_BITS + seL4_SlotBits.
Lemma cnode_bits_ok : 12 ≤ cnode_bits < 32.
Proof. pose proof root_cnode_size_valid. unfold cnode_bits, seL4_SlotBits, seL4_PageBits in *. lia. Qed.

(** The objects that [rootserver] points to *)
Definition extra_block (rs : rootserver_mem_t) (extra : Z) : list block :=
  if 0 <? extra then [Block (rs_extra_bi rs) extra 1] else [].
Definition rootserver_blocks (rs : rootserver_mem_t) (extra n : Z) : list block :=
  [Block (rs_cnode rs) cnode_bits 1; Block (rs_vspace rs) 12 1; Block (rs_asid_pool rs) 12 1;
   Block (rs_ipc_buf rs) 12 1; Block (rs_boot_info rs) 12 1; Block (r_start (rs_paging rs)) 12 n;
   Block (rs_tcb rs) 10 1; Block (rs_sc rs) 7 1] ++ extra_block rs extra.
Definition rootserver_bytes (extra n : Z) : Z :=
  2 ^ cnode_bits + 2 ^ 10 + 2 ^ 12 + 2 ^ 12 + 2 ^ 12 + (if 0 <? extra then 2 ^ extra else 0) + 2 ^ 12 + 2 ^ 7 + n * 2 ^ 12.
(** [calculate_extra_bi_size_bits] yields 0 or at least the size of a page. *)
Definition extra_ok (extra : Z) : Prop := extra = 0 ∨ 12 ≤ extra < 64.

Lemma arch_get_n_paging_word r : is_word (arch_get_n_paging r).
Proof. apply wrap_word. Qed.
Lemma calculate_size r extra : extra_ok extra →
  calculate_rootserver_size r extra = wrap (rootserver_bytes extra (arch_get_n_paging r)).
Proof.
  intros He. pose proof cnode_bits_ok. unfold calculate_rootserver_size. fold cnode_bits.
  change (BIT seL4_TCBBits) with (2 ^ 10). change (BIT seL4_PageBits) with (2 ^ 12).
  change (BIT seL4_BootInfoFrameBits) with (2 ^ 12). change (BIT seL4_ASIDPoolBits) with (2 ^ 12).
  change (BIT seL4_VSpaceBits) with (2 ^ 12). change (BIT seL4_MinSchedContextBits) with (2 ^ 7).
  change (BIT seL4_PageTableBits) with (2 ^ 12). rewrite (BIT_pow cnode_bits) by lia.
  repeat first [rewrite wrap_add_l | rewrite <-!Z.add_assoc]. unfold rootserver_bytes; f_equal.
  destruct (Z.ltb_spec 0 extra); [|lia]. rewrite BIT_pow by (destruct He; lia). lia.
Qed.

(** ** One allocation *)
Definition allocated (b0 : boot_state) (s e : Z) (rs : rootserver_mem_t) (b : boot_state) : Prop :=
  rootserver_mem b = Region s e ∧ rootserver b = rs ∧ ndks b = ndks b0.
Lemma wp_alloc b0 s e rs bits n b (Q : Z → boot_state → Prop) :
  allocated b0 s e rs b → 3 ≤ bits < 64 → (2 ^ bits | s) → 0 ≤ n → 0 ≤ s → s + n * 2 ^ bits ≤ e → e < 2 ^ 64 →
  (∀ b', allocated b0 (s + n * 2 ^ bits) e rs b' → Q s b') → wp (alloc_rootserver_obj bits n) Q b.
Proof.
  intros (Hm & Hrs & Hn0) Hbits Hdiv Hn Hs Hle He HQ. unfold alloc_rootserver_obj.
  assert (0 < 2 ^ bits) by (apply Z.pow_pos_nonneg; lia).
  assert (wrap (n * BIT bits) = n * 2 ^ bits) as Hw.
  { rewrite BIT_pow by lia. apply wrap_small. unfold is_word. nia. }
  assert (s +w n * 2 ^ bits = s + n * 2 ^ bits) as Hw2 by (apply wrap_small; unfold is_word; nia).
  assert (∀ x, (2 ^ bits | x) → x mod 8 = 0) as H8.
  { intros x Hx. apply Z.mod_divide; [done|]. transitivity (2 ^ bits); [|done]. apply (pow2_divide 3). lia. }
  rewrite Hw. apply wp_bind, wp_gets. rewrite Hm. simpl. rewrite Hw2.
  apply wp_bind, wp_assert; [apply Z.eqb_eq; rewrite BIT_pow by lia; apply Z.mod_divide; [lia|done]|].
  apply wp_bind, wp_modify. apply wp_bind, wp_assert; [by apply Z.leb_le|].
  apply wp_bind. unfold wp at 1, on_kern, memzero, guard_assert, modify, mbind, M_bind. simpl.
  rewrite (proj2 (Z.eqb_eq _ _) (H8 s Hdiv)), (proj2 (Z.eqb_eq _ _) (H8 _ (Z.divide_factor_r _ _))).
  apply wp_ret, HQ. done.
Qed.
Lemma wp_on_kern_modify b0 s e rs f b (Q : unit → boot_state → Prop) :
  allocated b0 s e rs b → (∀ b', allocated b0 s e rs b' → Q () b') → wp (on_kern (modify f)) Q b.
Proof. intros Ha HQ. by apply HQ. Qed.
Lemma wp_new_tcb_object b0 s e rs p b (Q : unit → boot_state → Prop) :
  allocated b0 s e rs b → (∀ b', allocated b0 s e rs b' → Q () b') → wp (on_kern (new_tcb_object p)) Q b.
Proof. intros Ha HQ. by apply HQ. Qed.
Lemma wp_mod_rootserver b0 s e rs f b (Q : unit → boot_state → Prop) :
  allocated b0 s e rs b → (∀ b', allocated b0 s e (f rs) b' → Q () b') → wp (mod_rootserver f) Q b.
Proof. intros (? & Hr & ?) HQ. apply HQ. split_and!; try done. simpl. by rewrite Hr. Qed.


(** ** The order of the allocations *)
Record placing (b0 : boot_state) (start e k cur : Z) (l : list block) (rs : rootserver_mem_t) (b : boot_state) : Prop := {
  pl_alloc : allocated b0 cur e rs b;
  pl_tiles : tiles start l cur;
  pl_aligned : Forall block_aligned l;
  pl_next : (2 ^ k | cur);
  pl_bounds : 0 < start ≤ cur
}.
Lemma wp_place b0 start e k cur l rs bits n b (Q : Z → boot_state → Prop) :
  placing b0 start e k cur l rs b → 3 ≤ bits ≤ k → bits < 64 → 0 ≤ n → cur + n * 2 ^ bits ≤ e < 2 ^ 64 →
  (∀ b', placing b0 start e bits (cur + n * 2 ^ bits) (l ++ [Block cur bits n]) rs b' → Q cur b') →
  wp (alloc_rootserver_obj bits n) Q b.
Proof.
  intros [Ha Ht Hal Hd Hb] Hbits Hlt Hn He HQ.
  assert (2 ^ bits | cur) as Hd' by (transitivity (2 ^ k); [apply pow2_divide; lia|done]).
  assert (0 < 2 ^ bits) by (apply Z.pow_pos_nonneg; lia).
  eapply wp_alloc; [done|lia|done|lia|lia|lia|lia|]. intros b' Ha'. apply HQ. split; [done| | | |nia].
  - by apply (tiles_snoc start l (Block cur bits n)).
  - apply Forall_app. split; [done|]. by apply Forall_singleton.
  - apply Z.divide_add_r; [done|apply Z.divide_factor_r].
Qed.
Lemma placing_mod b0 start e k cur l rs f b (Q : unit → boot_state → Prop) : placing b0 start e k cur l rs b →
  (∀ b', placing b0 start e k cur l (f rs) b' → Q () b') → wp (mod_rootserver f) Q b.
Proof. intros [Ha ?? ? ?] HQ. eapply wp_mod_rootserver; [done|]. intros b' ?. by apply HQ. Qed.
Lemma placing_cnode b0 start e k cur l rs p n b (Q : unit → boot_state → Prop) : placing b0 start e k cur l rs b →
  (∀ b', placing b0 start e k cur l rs b' → Q () b') → wp (on_kern (new_cnode p n)) Q b.
Proof. intros [Ha ?? ? ?] HQ. by apply HQ. Qed.
Lemma placing_tcb b0 start e k cur l rs p b (Q : unit → boot_state → Prop) : placing b0 start e k cur l rs b →
  (∀ b', placing b0 start e k cur l rs b' → Q () b') → wp (on_kern (new_tcb_object p)) Q b.
Proof. intros [Ha ?? ? ?] HQ. by apply HQ. Qed.
Lemma placing_sc b0 start e k cur l rs p b (Q : unit → boot_state → Prop) : placing b0 start e k cur l rs b →
  (∀ b', placing b0 start e k cur l rs b' → Q () b') → wp (on_kern (new_sc_object p)) Q b.
Proof. intros [Ha ?? ? ?] HQ. by apply HQ. Qed.

Definition with_extra (p : Z) (rs : rootserver_mem_t) : rootserver_mem_t :=
  Rootserver (rs_cnode rs) (rs_vspace rs) (rs_asid_pool rs) (rs_ipc_buf rs) (rs_boot_info rs) p (rs_tcb rs) (rs_sc rs) (rs_paging rs).
Lemma wp_maybe_no b0 start e k cur l rs cmp extra b (Q : unit → boot_state → Prop) : placing b0 start e k cur l rs b →
  extra < cmp ∨ rs_extra_bi rs ≠ 0 → Q () b → wp (maybe_alloc_extra_bi cmp extra) Q b.
Proof.
  intros [(_ & Hrs & _) ?? ? ?] Hno HQ. unfold maybe_alloc_extra_bi. apply wp_bind, wp_gets. rewrite Hrs.
  apply wp_when; [|done]. intros [?%Z.leb_le ?%Z.eqb_eq]%andb_true_iff. lia.
Qed.
Lemma wp_maybe_yes b0 start e k cur l rs cmp extra b (Q : unit → boot_state → Prop) : placing b0 start e k cur l rs b →
  cmp ≤ extra → rs_extra_bi rs = 0 → 3 ≤ extra ≤ k → extra < 64 → cur + 2 ^ extra ≤ e < 2 ^ 64 →
  (∀ b', placing b0 start e extra (cur + 2 ^ extra) (l ++ [Block cur extra 1]) (with_extra cur rs) b' → Q () b') →
  wp (maybe_alloc_extra_bi cmp extra) Q b.
Proof.
  intros Hp Hle Hrs Hk H64 He HQ. unfold maybe_alloc_extra_bi. apply wp_bind, wp_gets.
  destruct (pl_alloc _ _ _ _ _ _ _ _ Hp) as (_ & -> & _).
  apply wp_when; [|rewrite Hrs; simpl; rewrite andb_true_r; intros ?%Z.leb_gt; lia]. intros _.
  apply wp_bind. eapply wp_place; [done|lia|lia|lia|lia|]. intros b1. rewrite Z.mul_1_l. intros Hp1.
  by eapply placing_mod.
Qed.


(** The CNode, the root page table and the extra boot info, the largest objects first *)
Definition bytes_of (extra : Z) : Z := if 0 <? extra then 2 ^ extra else 0.
Definition big_objects (l : list block) (rs : rootserver_mem_t) (extra : Z) : Prop :=
  l ≡ₚ [Block (rs_cnode rs) cnode_bits 1; Block (rs_vspace rs) 12 1] ++ extra_block rs extra.
Lemma wp_alloc_cnode b0 start e k cur l rs b (Q : unit → boot_state → Prop) : placing b0 start e k cur l rs b →
  cnode_bits ≤ k → cur + 2 ^ cnode_bits ≤ e < 2 ^ 64 →
  (∀ b', placing b0 start e cnode_bits (cur + 2 ^ cnode_bits) (l ++ [Block cur cnode_bits 1])
    (Rootserver cur (rs_vspace rs) (rs_asid_pool rs) (rs_ipc_buf rs) (rs_boot_info rs) (rs_extra_bi rs) (rs_tcb rs) (rs_sc rs) (rs_paging rs)) b' →
    Q () b') → wp alloc_root_cnode Q b.
Proof.
  intros Hp Hk He HQ. pose proof cnode_bits_ok. unfold alloc_root_cnode. fold cnode_bits. apply wp_bind.
  eapply wp_place; [done|lia|lia|lia|lia|]. intros b1. rewrite Z.mul_1_l. intros Hp1.
  apply wp_bind. eapply placing_cnode; [done|]. intros b2 Hp2. by eapply placing_mod.
Qed.
Lemma wp_alloc_vspace b0 start e k cur l rs b (Q : unit → boot_state → Prop) : placing b0 start e k cur l rs b →
  12 ≤ k → cur + 2 ^ 12 ≤ e < 2 ^ 64 →
  (∀ b', placing b0 start e 12 (cur + 2 ^ 12) (l ++ [Block cur 12 1])
    (Rootserver (rs_cnode rs) cur (rs_asid_pool rs) (rs_ipc_buf rs) (rs_boot_info rs) (rs_extra_bi rs) (rs_tcb rs) (rs_sc rs) (rs_paging rs)) b' →
    Q () b') → wp alloc_root_vspace Q b.
Proof.
  intros Hp Hk He HQ. unfold alloc_root_vspace. apply wp_bind.
  eapply wp_place; [done|unfold seL4_VSpaceBits; lia|done|lia|unfold seL4_VSpaceBits; lia|].
  intros b1. rewrite Z.mul_1_l. intros Hp1. by eapply placing_mod.
Qed.

Section big.
Context (b0 : boot_state) (start e extra : Z).
Context (Q : unit → boot_state → Prop).
Definition big_end : Z := start + 2 ^ cnode_bits + 2 ^ 12 + bytes_of extra.
Context (He : big_end ≤ e < 2 ^ 64) (Hx : extra_ok extra).

(** The CNode and the page table, the larger one first, between two points where the
    extra boot info may be placed *)
Definition alloc_roots (b : boot_state) : Prop :=
  wp (if seL4_VSpaceBits <? cnode_bits then
        alloc_root_cnode ≫= λ _, maybe_alloc_extra_bi seL4_VSpaceBits extra ≫= λ _, alloc_root_vspace
      else alloc_root_vspace ≫= λ _, maybe_alloc_extra_bi cnode_bits extra ≫= λ _, alloc_root_cnode) Q b.
Definition roots_done : Prop :=
  ∀ l rs b, placing b0 start e 12 big_end l rs b → big_objects l rs extra →
    extra < seL4_PageBits ∨ rs_extra_bi rs ≠ 0 → Q () b.

Lemma big_facts : 0 < 2 ^ cnode_bits ∧ 0 ≤ bytes_of extra ∧ 12 ≤ cnode_bits < 32.
Proof.
  pose proof cnode_bits_ok. split_and!; [apply Z.pow_pos_nonneg; lia| |lia|lia].
  unfold bytes_of. case_match; [|done]. apply Z.pow_nonneg. lia.
Qed.

(** No extra boot info is placed between the two. *)
Lemma alloc_roots_only l rs b k cur : placing b0 start e k cur l rs b → cnode_bits ≤ k →
  extra < 12 ∨ rs_extra_bi rs ≠ 0 → cur + 2 ^ cnode_bits + 2 ^ 12 = big_end →
  l ≡ₚ extra_block rs extra → roots_done → alloc_roots b.
Proof.
  intros Hp Hk Hno Hcur Hl HQ. destruct big_facts as (? & ? & ?). unfold alloc_roots.
  destruct (Z.ltb_spec seL4_VSpaceBits cnode_bits).
  - apply wp_bind. eapply wp_alloc_cnode; [done|done|lia|]. intros b1 Hp1.
    apply wp_bind. eapply wp_maybe_no; [done|exact Hno|].
    eapply wp_alloc_vspace; [done|lia|lia|]. intros b2 Hp2.
    eapply (HQ _ _ b2); [by rewrite Hcur in Hp2| |exact Hno]. unfold big_objects. rewrite Hl. simpl. by rewrite <-app_assoc, Permutation_app_comm.
  - apply wp_bind. eapply wp_alloc_vspace; [done|lia|lia|]. intros b1 Hp1.
    apply wp_bind. eapply wp_maybe_no; [done|unfold seL4_VSpaceBits in *; simpl; lia|].
    unfold seL4_VSpaceBits in *. assert (cnode_bits = 12) as E by lia.
    eapply wp_alloc_cnode; [done|lia|lia|]. intros b2 Hp2.
    assert (cur + 2 ^ 12 + 2 ^ cnode_bits = big_end) as Hc by lia. rewrite Hc, E in Hp2.
    eapply (HQ _ _ b2); [done| |exact Hno]. unfold big_objects. rewrite Hl, E. simpl. rewrite <-app_assoc.
    rewrite Permutation_app_comm. apply Permutation_swap.
Qed.
End big.

Lemma wp_big_objects b0 start e rs extra b (k : unit → B unit) (Q : unit → boot_state → Prop) :
  extra_ok extra → rs_extra_bi rs = 0 →
  placing b0 start e (rootserver_max_size_bits extra) start [] rs b →
  big_end start extra ≤ e < 2 ^ 64 →
  (∀ l rs' b', placing b0 start e 12 (big_end start extra) l rs' b' → big_objects l rs' extra → wp (k ()) Q b') →
  wp (maybe_alloc_extra_bi (rootserver_max_size_bits extra) extra ≫= λ _,
      (if seL4_VSpaceBits <? cnode_bits then
         alloc_root_cnode ≫= λ _, maybe_alloc_extra_bi seL4_VSpaceBits extra ≫= λ _, alloc_root_vspace
       else alloc_root_vspace ≫= λ _, maybe_alloc_extra_bi cnode_bits extra ≫= λ _, alloc_root_cnode) ≫= λ _,
      maybe_alloc_extra_bi seL4_PageBits extra ≫= k) Q b.
Proof.
  intros Hx Hrs Hp He Hk. destruct (big_facts extra) as (? & ? & ?). pose proof (pl_bounds _ _ _ _ _ _ _ _ Hp).
  unfold rootserver_max_size_bits in *. fold cnode_bits in *.
  set (Q1 := λ (_ : unit), wp (maybe_alloc_extra_bi seL4_PageBits extra ≫= k) Q).
  assert (roots_done b0 start e extra Q1) as Hdone.
  { intros l rs' b' Hp' Hl Hno. apply wp_bind. eapply wp_maybe_no; [done|done|]. by eapply Hk. }
  unfold seL4_VSpaceBits in *. destruct (Z.le_gt_cases (Z.max cnode_bits 12) extra).
  { apply wp_bind. eapply wp_maybe_yes; [done|lia|done|lia|destruct Hx; lia| |].
    { unfold big_end, bytes_of in He. case_match; lia. }
    intros b1 Hp1. apply wp_bind. eapply (alloc_roots_only b0 start e extra Q1); [done|exact Hp1|lia|simpl; lia| | |done].
    - unfold big_end, bytes_of. case_match; lia.
    - simpl. unfold extra_block. rewrite (proj2 (Z.ltb_lt 0 extra)) by lia. done. }
  apply wp_bind. eapply wp_maybe_no; [done|lia|]. apply wp_bind. destruct Hx as [->|Hx].
  { eapply (alloc_roots_only b0 start e 0 Q1); [done|exact Hp|lia|lia|unfold big_end, bytes_of; simpl; lia|done|done]. }
  assert (bytes_of extra = 2 ^ extra) as Hbytes by (unfold bytes_of; case_match; lia). unfold big_end in *. rewrite Hbytes in *.
  rewrite (proj2 (Z.ltb_lt 12 cnode_bits)) by lia.
  apply wp_bind. eapply wp_alloc_cnode; [done|lia|lia|]. intros b1 Hp1.
  apply wp_bind. eapply wp_maybe_yes; [done|lia|done|lia|lia|lia|]. intros b2 Hp2.
  eapply wp_alloc_vspace; [done|lia|lia|]. intros b3 Hp3. eapply (Hdone _ _ b3).
  - unfold big_end. rewrite Hbytes. by replace (start + 2 ^ cnode_bits + 2 ^ 12 + 2 ^ extra) with (start + 2 ^ cnode_bits + 2 ^ extra + 2 ^ 12) by lia.
  - unfold big_objects, extra_block. rewrite (proj2 (Z.ltb_lt 0 extra)) by lia. simpl. constructor. apply Permutation_swap.
  - right. simpl. lia.
Qed.

(** ** All the objects *)

(** The objects fill the memory from [start] on without a gap, each aligned to its size. *)
Definition objects_placed (start : Z) (it : region) (extra : Z) (rs : rootserver_mem_t) : Prop :=
  ∃ l, l ≡ₚ rootserver_blocks rs extra (arch_get_n_paging it) ∧
       tiles start l (start + rootserver_bytes extra (arch_get_n_paging it)) ∧ Forall block_aligned l.

Ltac place :=
  match goal with Hp : placing _ _ _ _ _ _ _ ?b |- wp _ _ ?b =>
    apply wp_bind; eapply wp_place; [exact Hp|lia|lia|lia|lia|]; clear Hp; intros ? ?
  end.
Lemma create_rootserver_objects_spec start it extra b :
  extra_ok extra → rs_extra_bi (rootserver b) = 0 → 0 < start → (2 ^ rootserver_max_size_bits extra | start) →
  start + rootserver_bytes extra (arch_get_n_paging it) < 2 ^ 64 →
  wp (create_rootserver_objects start it extra) (λ _ b', ndks b' = ndks b ∧ objects_placed start it extra (rootserver b')) b.
Proof.
  intros Hx Hrs Hs Hd He. destruct (big_facts extra) as (? & ? & ?). pose proof (arch_get_n_paging_word it) as Hn.
  unfold is_word in Hn. set (n := arch_get_n_paging it) in *. set (e := start + rootserver_bytes extra n) in *.
  assert (big_end start extra + 3 * 2 ^ 12 + n * 2 ^ 12 + 2 ^ 10 + 2 ^ 7 = e) as Hsum.
  { unfold e, big_end, bytes_of, rootserver_bytes. case_match; lia. }
  unfold create_rootserver_objects. rewrite calculate_size by done. fold n. rewrite wrap_add_r. fold e.
  assert (0 < e) by (rewrite <-Hsum; unfold big_end; lia). rewrite (wrap_small e) by (unfold is_word; lia). fold cnode_bits.
  apply wp_bind, wp_modify.
  eapply (wp_big_objects b start e (rootserver b)); [done|done|split; [done|done|done|done|lia]|lia|].
  intros l rs1 b1 Hp1 Hl. set (cur := big_end start extra) in *. pose proof (pl_bounds _ _ _ _ _ _ _ _ Hp1).
  change seL4_ASIDPoolBits with 12. change seL4_PageBits with 12. change seL4_BootInfoFrameBits with 12.
  change seL4_PageTableBits with 12. change seL4_TCBBits with 10. change seL4_MinSchedContextBits with 7.
  place. place. place. place. place. apply wp_bind. eapply placing_tcb; [done|]. intros b7 Hp7.
  place. apply wp_bind. eapply placing_sc; [done|]. intros b9 Hp9.
  apply wp_bind. eapply placing_mod; [done|]. intros b10 [(Hm & Hr & Hnd) Ht Hal _ _].
  apply wp_bind, wp_gets. apply wp_assert; [rewrite Hm; simpl; lia|].
  split; [done|]. eexists. split_and!; [| |exact Hal].
  - rewrite Hr. unfold rootserver_blocks. simpl. rewrite <-!app_assoc. simpl. rewrite Hl. clear. simpl.
    constructor. constructor. rewrite Permutation_app_comm. done.
  - fold n. fold e. rewrite <-Hsum. by replace (cur + 3 * 2 ^ 12 + n * 2 ^ 12 + 2 ^ 10 + 2 ^ 7)
      with (cur + 1 * 2 ^ 12 + 1 * 2 ^ 12 + 1 * 2 ^ 12 + n * 2 ^ 12 + 1 * 2 ^ 10 + 1 * 2 ^ 7) by lia.
Qed.
End objects.

(** * Placing the first thread in free memory

    [init_freemem] divides the memory, cuts the objects of the first thread from the
    highest free region that has room for them, and leaves the rest free. It fails
    only when no region has room. *)

Lemma ROUND_DOWN_word n b : 0 ≤ b → is_word n → ROUND_DOWN n b = n / 2 ^ b * 2 ^ b.
Proof.
  intros Hb Hn. unfold ROUND_DOWN. rewrite Z.shiftr_div_pow2 by done. rewrite Z.shiftl_mul_pow2 by done.
  assert (0 < 2 ^ b) by (apply Z.pow_pos_nonneg; lia). pose proof (Z.mul_div_le n (2 ^ b)). pose proof (Z.div_pos n (2 ^ b)).
  apply wrap_small. unfold is_word in *. nia.
Qed.

(** A region has room for [size] bytes at a multiple of [2^max]. *)
Definition fits (size max : Z) (f : region) : Prop :=
  ∃ s, (2 ^ max | s) ∧ r_start f ≤ s ∧ s + size ≤ r_end f.
(** The place the code tries *)
Definition place_at (size max : Z) (f : region) : Z := ROUND_DOWN (r_end f -w size) max.
Definition has_place (size max : Z) (f : region) : bool :=
  (r_end f -w size <=? r_end f) && (r_start f <=? place_at size max f).
Lemma has_place_ok size max f : 0 ≤ max → 0 < size < 2 ^ 64 → 0 ≤ r_start f → 0 ≤ r_end f < 2 ^ 64 →
  if has_place size max f
  then (2 ^ max | place_at size max f) ∧ r_start f ≤ place_at size max f ∧ place_at size max f + size ≤ r_end f
  else ¬ fits size max f.
Proof.
  intros Hmax Hsize Hs He. assert (0 < 2 ^ max) by (apply Z.pow_pos_nonneg; lia).
  unfold has_place, place_at. rewrite ROUND_DOWN_word by (done || apply wrap_word).
  destruct (Z.le_gt_cases size (r_end f)) as [Hle|Hgt].
  - rewrite (wrap_small (r_end f - size)) by (unfold is_word; lia).
    rewrite (proj2 (Z.leb_le (r_end f - size) _)) by lia. simpl.
    pose proof (Z.mul_div_le (r_end f - size) (2 ^ max)).
    case_match eqn:E; [apply Z.leb_le in E; split_and!; [apply Z.divide_factor_r|lia|lia]|].
    apply Z.leb_gt in E. intros (s & [q ->] & ? & ?).
    assert (q ≤ (r_end f - size) / 2 ^ max) by (apply Z.div_le_lower_bound; lia). nia.
  - assert (r_end f -w size = r_end f - size + 2 ^ 64) as ->.
    { rewrite <-(Z.mul_1_l (2 ^ 64)). unfold wrap. rewrite <-(Z_mod_plus_full _ 1). apply Z.mod_small. lia. }
    rewrite (proj2 (Z.leb_gt _ _)) by lia. simpl. intros (s & _ & ? & ?). lia.
Qed.

Section place.
Context `{Platform} `{BootPlatformOk}.
Implicit Types (b : boot_state) (fl : list region).

Lemma wp_on_ndks {A} (m : R A) (Q : A → boot_state → Prop) b :
  wp m (λ a n, Q a (set_ndks n b)) (ndks b) → wp (on_ndks m) Q b.
Proof. unfold wp, on_ndks. by destruct (m (ndks b)). Qed.

Lemma set_ndks_same b : set_ndks (ndks b) b = b.
Proof. by destruct b. Qed.

(** From the end of the array down to the last free region *)
Lemma skip_empty_spec fl n : freemem n = fl ++ replicate (Z.to_nat MAX_NUM_FREEMEM_REG - length fl) REG_EMPTY →
  Forall nonempty fl → Z.of_nat (length fl) ≤ MAX_NUM_FREEMEM_REG →
  wp (skip_empty_regions (MAX_NUM_FREEMEM_REG - 1)) (λ i n', i = Z.of_nat (length fl) - 1 ∧ n' = n) n.
Proof.
  intros Hf Hne Hlen. unfold skip_empty_regions.
  apply (wp_while64 (λ i n', n' = n ∧ Z.of_nat (length fl) - 1 ≤ i < MAX_NUM_FREEMEM_REG) (λ i _, i + 1));
    [|unfold MAX_NUM_FREEMEM_REG in *; split; [done|lia]|unfold MAX_NUM_FREEMEM_REG; lia].
  intros i n' [-> Hi]. destruct (Z.ltb_spec i 0); [apply wp_ret; split; [lia|done]|].
  destruct (decide (i = Z.of_nat (length fl) - 1)) as [->|Hi'].
  - destruct (lookup_lt_is_Some_2 fl (Z.to_nat (Z.of_nat (length fl) - 1))) as [f Hfi]; [lia|].
    apply wp_bind. eapply wp_get_freemem; [rewrite Hf; by apply lookup_app_l_Some|].
    assert (nonempty f) as Hnf by (by eapply Forall_lookup_1). unfold is_reg_empty, nonempty in *.
    rewrite (proj2 (Z.eqb_neq _ _)) by lia. by apply wp_ret.
  - apply wp_bind. eapply (wp_get_freemem _ REG_EMPTY).
    { rewrite Hf, lookup_app_r by lia. apply lookup_replicate. split; [done|]. unfold MAX_NUM_FREEMEM_REG in *. lia. }
    apply wp_ret. split; [split; [done|]|]; lia.
Qed.

Lemma wp_put_two b l1 f0 g0 rest x y (k : unit → B (Z + bool)) Q : freemem (ndks b) = l1 ++ f0 :: g0 :: rest →
  wp (k ()) Q (set_ndks (set_freemem (l1 ++ y :: x :: rest) (ndks b)) b) →
  wp (on_ndks (put_freemem (Z.of_nat (length l1) + 1) x) ≫= λ _, on_ndks (put_freemem (Z.of_nat (length l1)) y) ≫= k) Q b.
Proof.
  intros Hf HQ. apply wp_bind, wp_on_ndks. eapply (wp_put_freemem _ _ g0).
  { rewrite Hf, cons_middle, app_assoc. apply lookup_middle. rewrite length_app. simpl. lia. }
  apply wp_bind, wp_on_ndks. eapply (wp_put_freemem _ _ f0); simpl.
  all: rewrite Hf, cons_middle, app_assoc, (insert_middle (l1 ++ [f0])) by (rewrite length_app; simpl; lia).
  all: rewrite <-app_assoc; simpl.
  - apply lookup_middle. lia.
  - rewrite insert_middle by lia. done.
Qed.

(** The state when region [l1] is the next to try: the regions [l2] above had no room
    and moved up by one. *)
Definition tried (fl : list region) (size max : Z) (b0 : boot_state) (i : Z) (b : boot_state) : Prop :=
  ∃ l1 l2, fl = l1 ++ l2 ∧ i = Z.of_nat (length l1) - 1 ∧ Forall (λ f, ¬ fits size max f) l2 ∧
    freemem (ndks b) = l1 ++ REG_EMPTY :: l2 ++ replicate (15 - length fl) REG_EMPTY ∧
    ndks b = set_freemem (freemem (ndks b)) (ndks b0) ∧ rs_extra_bi (rootserver b) = 0.
(** The memory at [start] is cut from the highest region that has room. *)
Definition cut (fl : list region) (size max start : Z) (free : list region) : Prop :=
  ∃ l1 f l2, fl = l1 ++ f :: l2 ∧ (2 ^ max | start) ∧ r_start f ≤ start ∧ start + size ≤ r_end f ∧
    Forall (λ f, ¬ fits size max f) l2 ∧
    free = l1 ++ Region (r_start f) start :: Region (start + size) (r_end f) :: l2 ++ replicate (15 - length fl) REG_EMPTY.
Definition place_post (fl : list region) (it : region) (extra : Z) (b0 : boot_state) (ok : bool) (b : boot_state) : Prop :=
  ndks b = set_freemem (freemem (ndks b)) (ndks b0) ∧
  let size := rootserver_bytes extra (arch_get_n_paging it) in
  let max := rootserver_max_size_bits extra in
  if ok then ∃ start, cut fl size max start (freemem (ndks b)) ∧ objects_placed start it extra (rootserver b)
  else Forall (λ f, ¬ fits size max f) fl.

Section loop.
Context (fl : list region) (it : region) (extra : Z) (b0 : boot_state).
Let size := rootserver_bytes extra (arch_get_n_paging it).
Let max := rootserver_max_size_bits extra.
Context (Hextra : extra_ok extra) (Hsize : size < 2 ^ 64) (Hfl : Forall (λ f, in_window f ∧ nonempty f) fl).
Context (Hlen : Z.of_nat (length fl) < MAX_NUM_FREEMEM_REG).

Lemma size_max_ok : 0 < size ∧ 0 ≤ max ∧ calculate_rootserver_size it extra = size.
Proof.
  destruct (big_facts extra) as (? & ? & ?). pose proof (arch_get_n_paging_word it) as [? ?].
  assert (0 < size). { unfold size, rootserver_bytes, bytes_of in *. case_match; lia. }
  split_and!; [done| |rewrite calculate_size by done; apply wrap_small; unfold is_word; fold size; lia].
  unfold max, rootserver_max_size_bits. fold cnode_bits. lia.
Qed.
Lemma place_step i b : tried fl size max b0 i b →
  wp (place_rootserver_step it extra i) (λ r b', match r with
    | inl i' => tried fl size max b0 i' b' ∧ 0 ≤ i' + 1 < i + 1
    | inr ok => place_post fl it extra b0 ok b' end) b.
Proof.
  intros (l1 & l2 & Hl & -> & Hno & Hf & Hnd & Hrs). destruct size_max_ok as (Hs0 & Hmax & Hcalc).
  unfold place_rootserver_step. fold max. rewrite Hcalc.
  destruct l1 as [|f l1 _] using rev_ind.
  { simpl. split; [done|]. simpl in Hl. by rewrite Hl. }
  assert (Z.of_nat (length (l1 ++ [f])) - 1 = Z.of_nat (length l1)) as -> by (rewrite length_app; simpl; lia).
  rewrite <-app_assoc in Hl, Hf. simpl in Hl, Hf. set (rest := l2 ++ replicate _ REG_EMPTY) in Hf.
  assert (Z.of_nat (length l1) < 15). { rewrite Hl, length_app in Hlen. simpl in Hlen. unfold MAX_NUM_FREEMEM_REG in Hlen. lia. }
  rewrite (proj2 (Z.ltb_ge _ _)) by lia. apply wp_bind, wp_assert; [by apply Z.ltb_lt|].
  apply wp_bind, wp_on_ndks. eapply (wp_get_freemem _ REG_EMPTY).
  { rewrite Hf, cons_middle, app_assoc. apply lookup_middle. rewrite length_app. simpl. lia. }
  rewrite set_ndks_same. apply wp_bind, wp_assert; [done|].
  apply wp_bind, wp_on_ndks. eapply wp_get_freemem; [rewrite Hf; apply lookup_middle; lia|]. rewrite set_ndks_same.
  assert (in_window f ∧ nonempty f) as [(Hw1 & Hw2 & Hw3) Hne] by (rewrite Forall_forall in Hfl; apply Hfl; set_solver).
  assert (0 < PPTR_BASE) by done.
  pose proof (has_place_ok size max f ltac:(lia) ltac:(lia) ltac:(lia) ltac:(lia)) as Hp.
  fold (place_at size max f). fold (has_place size max f). destruct (has_place size max f).
  - destruct Hp as (Hdiv & Hge & Hle). apply wp_bind.
    eapply wp_mono; [apply create_rootserver_objects_spec; [done|done|lia|done|fold size; lia]|].
    intros _ b1 [Hnd1 Hobj]. fold size in Hobj.
    eapply wp_put_two; [by rewrite Hnd1|]. apply wp_ret. split; [by rewrite Hnd1, Hnd|].
    exists (place_at size max f). split; [|done]. exists l1, f, l2. rewrite wrap_small by (unfold is_word; lia). by split_and!.
  - eapply wp_put_two; [done|]. apply wp_ret. split; [|lia]. exists l1, (f :: l2).
    split_and!; [done|done|by apply Forall_cons|done|by simpl; rewrite Hnd|done].
Qed.

Lemma place_loop b : tried fl size max b0 (Z.of_nat (length fl) - 1) b →
  wp (while64 (place_rootserver_step it extra) (Z.of_nat (length fl) - 1)) (place_post fl it extra b0) b.
Proof.
  intros Ht. apply (wp_while64 (tried fl size max b0) (λ i _, i + 1)); [|done|unfold MAX_NUM_FREEMEM_REG in *; lia].
  intros i b' Ht'. eapply wp_mono; [by apply place_step|]. by intros [i'|ok] b''.
Qed.
End loop.

(** ** [init_freemem] *)

(** Free regions lie in the kernel window. *)
Lemma divided_window available Rs l0 fl l n : Forall word_region available → check_available_memory available = true →
  divided available Rs l0 fl l n → Forall (λ f, in_window f ∧ nonempty f) fl.
Proof.
  intros Hw Hc (_ & [Hne _] & _ & Hin & _). apply Forall_forall. intros f Hf. rewrite Forall_forall in Hne.
  pose proof (Hne f Hf) as Hnf. split; [|done].
  unfold check_available_memory in Hc. case_match; [done|].
  assert (∀ x, in_region x f → PPTR_BASE ≤ x < 2 ^ 64 - 1) as Hx.
  { intros x Hx. destruct (proj1 (Hin x)) as [(r & Hr & Hxr) _]; [by exists f|].
    apply list_elem_of_fmap in Hr as (p & -> & Hp). rewrite Forall_forall in Hw. destruct (Hw p Hp) as [[? ?] [? ?]].
    unfold in_region, clip in Hxr. simpl in Hxr. assert (PADDR_TOP = PPTR_TOP - PPTR_BASE) as E by done.
    unfold PPTR_TOP, PPTR_BASE in *. lia. }
  destruct (Hx (r_start f)); [unfold in_region, nonempty in *; lia|].
  destruct (Hx (r_end f - 1)); [unfold in_region, nonempty in *; lia|]. unfold in_window, nonempty in *. lia.
Qed.

(** What [init_freemem] leaves: the memory divided as [init_freemem_regions] does, and the
    objects cut from it *)
Definition init_freemem_post (available Rs l0 : list region) (it : region) (extra : Z) (b : boot_state) (ok : bool) (b' : boot_state) : Prop :=
  if check_available_memory available && check_reserved_memory Rs then
    ∃ fl l,
      resv_repr l (ndks b') ∧ regions_ok l ∧ regions_sorted fl ∧
      Z.of_nat (length l) ≤ MAX_NUM_RESV_REG ∧ Z.of_nat (length fl) < MAX_NUM_FREEMEM_REG ∧
      (∀ x, in_regions x fl ↔ in_regions x (clip <$> available) ∧ ¬ in_regions x Rs) ∧
      (∀ x, in_regions x l ↔ in_regions x l0 ∨ in_regions x (phys <$> Rs) ∨ in_regions x (phys <$> fl)) ∧
      let size := rootserver_bytes extra (arch_get_n_paging it) in
      let max := rootserver_max_size_bits extra in
      if ok then ∃ start, cut fl size max start (freemem (ndks b')) ∧ objects_placed start it extra (rootserver b')
      else Forall (λ f, ¬ fits size max f) fl
  else ok = false ∧ b' = b.

Lemma init_freemem_spec available Rs l0 it extra b :
  map_ok available Rs l0 → ndks_ok l0 (ndks b) → extra_ok extra → rs_extra_bi (rootserver b) = 0 →
  rootserver_bytes extra (arch_get_n_paging it) < 2 ^ 64 →
  wp (init_freemem available Rs it extra) (init_freemem_post available Rs l0 it extra b) b.
Proof.
  intros Hmap Hnd Hx Hrs Hsize. unfold init_freemem, init_freemem_post.
  destruct (check_available_memory available) eqn:Ca; simpl; [|by apply wp_ret].
  destruct (check_reserved_memory Rs) eqn:Cr; simpl; [|by apply wp_ret].
  apply wp_bind, wp_on_ndks. eapply wp_mono; [by apply (init_freemem_regions_spec _ _ l0)|].
  intros _ n (fl & l & Hdiv). pose proof Hdiv as ((Hl & Hmax & k & Hf & Hk) & Hs & Hok & Hin1 & Hin2 & Hlen).
  pose proof (mo_free _ _ _ Hmap). assert (Z.of_nat (length fl) < MAX_NUM_FREEMEM_REG) by lia.
  assert (k = Datatypes.S (15 - length fl)) as -> by (unfold MAX_NUM_FREEMEM_REG in *; lia).
  apply wp_bind, wp_on_ndks. eapply (wp_get_freemem _ REG_EMPTY); simpl.
  { rewrite Hf, lookup_app_r by (unfold MAX_NUM_FREEMEM_REG in *; lia).
    apply lookup_replicate. unfold MAX_NUM_FREEMEM_REG in *. split; [done|lia]. }
  apply wp_bind, wp_on_ndks. eapply wp_mono; [apply (skip_empty_spec fl)|].
  { simpl. rewrite Hf. repeat f_equal. unfold MAX_NUM_FREEMEM_REG in *. lia. }
  { apply Hs. }
  { lia. }
  intros i n' [-> ->]. simpl. eapply wp_mono; [apply (place_loop fl it extra (set_ndks n b))|]; try done.
  - eapply divided_window; [apply Hmap|done|done].
  - exists fl, []. rewrite app_nil_r. split_and!; [done|done|done|done|by destruct n|done].
  - intros ok b' (Hnd' & Hpost). simpl in *. exists fl, l. split_and!; try done; [by rewrite Hnd'|].
    destruct Hl as (junk & Hj & _). rewrite Hj, length_app in Hmax. lia.
Qed.

(** C23: [init_freemem] returns. On a memory map that passes its checks the free regions
    are the available memory of the kernel window without the reserved regions, the
    reserved array gains both, and the objects of the first thread are cut from the
    highest free region that has an aligned place for them; it fails only when no
    region has one. The objects fill their memory without a gap, each aligned. *)
Theorem init_freemem_ok available Rs l0 it extra b :
  map_ok available Rs l0 → ndks_ok l0 (ndks b) → extra_ok extra → rs_extra_bi (rootserver b) = 0 →
  rootserver_bytes extra (arch_get_n_paging it) < 2 ^ 64 →
  wp (init_freemem available Rs it extra) (init_freemem_post available Rs l0 it extra b) b.
Proof. apply init_freemem_spec. Qed.
End place.
