(* ===== verification/BootGrant.v ===== *)
(** * Sharing out the memory

    [create_untypeds] gives the first thread untyped objects over the device memory
    between the reserved regions, the part of the kernel image that only boot uses,
    and the free memory. No two objects overlap, device objects lie outside of every
    reserved region, and the blocks that the code forms leave nothing over but the
    reserved memory itself; those that are too small, or find boot info full, are given
    to nobody. *)
From stdpp Require Import sorting.
From S2P Require Import Prelude Words Platform State RefillList Sporadic CapOps CSpace VSpace CNode Untyped BootMemory Boot BootInit Machine BootRegions BootTrim BootObjects BootUntyped.

Definition apart (a b : region) : Prop := before a b ∨ before b a.
Definition within (a b : region) : Prop := r_start b ≤ r_start a ∧ r_end a ≤ r_end b.
Lemma apart_sym a b : apart a b → apart b a.
Proof. unfold apart. tauto. Qed.
Lemma apart_within a b b' : apart a b → within b' b → apart a b'.
Proof. unfold apart, within, before. lia. Qed.
Lemma apart_sets a b : nonempty a → nonempty b → (∀ x, in_region x a → ¬ in_region x b) → apart a b.
Proof.
  intros Ha Hb Hx. apply (disjoint_sets a [b] Ha); [by apply Forall_singleton| |by apply list_elem_of_singleton].
  intros x Hxa (r & ->%list_elem_of_singleton & Hr). by apply (Hx x).
Qed.

(** ** What a row of blocks covers *)
Lemma block_ok_size o : block_ok o → block_size o = 2 ^ bk_bits o ∧ 0 < block_size o.
Proof.
  intros (Hc & _ & [? _] & _). unfold block_size. rewrite Hc, Z.mul_1_l. split; [done|]. apply Z.pow_pos_nonneg; lia.
Qed.
Lemma covers_sorted s e al bl : covers s e al bl →
  StronglySorted before (block_region <$> bl) ∧ s ≤ e ∧ Forall (λ o, within (block_region o) (Region s e)) bl.
Proof.
  intros (Ht & Hok & _). destruct (tiles_sorted s bl e) as (? & ? & Hb); [|done|split_and!; [done|done|]].
  - eapply Forall_impl; [done|]. intros o Ho. destruct (block_ok_size o Ho). lia.
  - eapply Forall_impl; [done|]. intros o ?. by unfold within.
Qed.
Lemma tiles_cover s bl e x : Forall block_ok bl → tiles s bl e → s ≤ x < e → ∃ o, o ∈ bl ∧ in_region x (block_region o).
Proof.
  revert s. induction bl as [|o bl IH]; intros s Hok Ht Hx; simpl in Ht; [lia|].
  apply Forall_cons in Hok as [Ho Hok]. destruct Ht as [<- Ht]. destruct (Z.lt_ge_cases x (bk_addr o + block_size o)).
  - exists o. split; [by left|]. unfold in_region. simpl. lia.
  - destruct (IH _ Hok Ht) as (o' & ? & ?); [lia|]. exists o'. split; [by right|done].
Qed.

Section share.
Context `{Platform} `{BootPlatformOk}.

(** ** The objects made so far *)
Definition covered (us : list untyped) (x : Z) : Prop := ∃ u, u ∈ us ∧ in_region x (block_region u.2).
Definition device_top : Z := CONFIG_PADDR_USER_DEVICE_TOP.
(** All boundaries are multiples of the size of the least untyped object. *)
Definition cell (r : region) : Prop := (16 | r_start r) ∧ (16 | r_end r).
Definition cells (l T : list region) : Prop := Forall cell l ∧ Forall cell T ∧ (16 | device_top).
Definition fair (l T : list region) (u : untyped) : Prop :=
  block_ok u.2 ∧ (cells l T → ubig u) ∧
  if u.1 then disjoint_from (phys (block_region u.2)) l ∧ within (block_region u.2) (Region PPTR_BASE (PPTR_BASE + device_top))
  else ∃ t, t ∈ T ∧ within (block_region u.2) t.
Definition shared (l T : list region) (us : list untyped) : Prop :=
  StronglySorted apart ((λ u, block_region u.2) <$> us) ∧ Forall (fair l T) us.

Lemma covered_app us vs x : covered (us ++ vs) x ↔ covered us x ∨ covered vs x.
Proof. unfold covered. setoid_rewrite elem_of_app. naive_solver. Qed.
Lemma fair_more l T T' u : fair l T u → T ⊆ T' → fair l T' u.
Proof.
  intros (? & Hbig & Hu) HT. split_and!; [done| |destruct u.1; [done|set_solver]].
  intros (Hl & HT' & Hd). apply Hbig. split_and!; [done| |done]. rewrite Forall_forall in *. auto.
Qed.

(** Adding the objects of one region *)
Lemma shared_app l T us dev s e al bl : shared l T us → covers s e al bl →
  (s < e → ∀ u, u ∈ us → apart (block_region u.2) (Region s e)) →
  (∀ o, block_ok o → within (block_region o) (Region s e) → (al → big o) → fair l T (dev, o)) →
  shared l T (us ++ chunks dev bl) ∧ (∀ x, s ≤ x < e → covered (chunks dev bl) x).
Proof.
  intros [Hs Hf] Hc Hap Hfair. destruct (covers_sorted _ _ _ _ Hc) as (Hsort & Hle & Hin). destruct Hc as (Ht & Hok & Hbig).
  rewrite Forall_forall in Hok, Hin. split; [split|].
  - rewrite fmap_app. apply StronglySorted_app. split_and!; [|done|].
    + intros a b (u & -> & Hu)%list_elem_of_fmap (v & -> & (o & -> & Ho)%list_elem_of_fmap)%list_elem_of_fmap.
      eapply apart_within; [apply Hap; [|done]|by apply Hin]. destruct (block_ok_size o (Hok o Ho)).
      destruct (Hin o Ho). simpl in *. lia.
    + unfold chunks. rewrite <-list_fmap_compose. eapply ss_impl; [|done]. by left.
  - apply Forall_app. split; [done|]. apply Forall_fmap, Forall_forall. intros o Ho. apply Hfair; [by apply Hok|by apply Hin|].
    intros Ha. specialize (Hbig Ha). rewrite Forall_forall in Hbig. by apply Hbig.
  - intros x Hx. destruct (tiles_cover s bl e x) as (o & Ho & Hxo); [by apply Forall_forall|done|done|].
    exists (dev, o). split; [|done]. by apply list_elem_of_fmap_2.
Qed.

(** ** Device memory *)
Section give.
Context (root_cnode_cap : cap) (p : Z) (b0 : boot_state) (l : list region).
Context (Hroot : cap_get_capPtr root_cnode_cap = Some p).
Context (Hslots : slots_exist p (ctes (kern b0))) (Hpos : 0 ≤ slot_pos_cur b0 ≤ cnode_size).
Context (Htop : 0 ≤ device_top ≤ 2 ^ 64 - PPTR_BASE).
Context (Hl : resv_repr l (ndks b0)) (Hok : regions_ok l) (Hbelow : Forall (λ r, 0 ≤ r_start r ∧ r_end r ≤ device_top) l).
Definition made (T : list region) (us : list untyped) (b : boot_state) : Prop := progress p b0 us b ∧ shared l T us.

Lemma window_region a c : 0 ≤ a → paddr_to_pptr_reg (Region a c) = Region (wrap (PPTR_BASE + a)) (wrap (PPTR_BASE + a + (c - a))).
Proof. intros _. unfold paddr_to_pptr_reg, ptrFromPAddr. change PPTR_BASE_OFFSET with PPTR_BASE. simpl. f_equal; f_equal; lia. Qed.

(** The device memory from [a] to [c], which no reserved region overlaps *)
Definition device_made (us : list untyped) (c : Z) : Prop :=
  Forall (λ u, u.1 = true ∧ r_end (block_region u.2) ≤ PPTR_BASE + c) us ∧
  (∀ x, 0 ≤ x < c → ¬ in_regions x l → covered us (PPTR_BASE + x)) ∧ (cells l [] → (16 | c)).
Lemma PPTR_BASE_16 : (16 | PPTR_BASE).
Proof. by exists (PPTR_BASE / 16). Qed.
Lemma cells_member r : cells l [] → r ∈ l → (16 | r_start r) ∧ (16 | r_end r).
Proof. intros [Hc _]. rewrite Forall_forall in Hc. apply Hc. Qed.
Lemma device_gap us a c b : made [] us b → device_made us a → 0 ≤ a ≤ c → c ≤ device_top → (cells l [] → (16 | c)) →
  disjoint_from (Region a c) l →
  wp (create_untypeds_for_region root_cnode_cap true (paddr_to_pptr_reg (Region a c)) (slot_pos_cur b0))
    (λ ok b', ndks b' = ndks b ∧ if ok then ∃ us', made [] us' b' ∧ device_made us' c else full b') b.
Proof.
  intros [Hpr Hsh] (Hdev & Hcov & Ha16) Ha Hc Hc16 Hdis. rewrite window_region by lia. assert (PPTR_BASE = 2 ^ 64 - 2 ^ 38) as HB by done.
  eapply wp_mono; [apply (create_untypeds_for_region_spec root_cnode_cap p b0 Hroot Hslots Hpos us); [lia|lia|lia|done|done]|].
  intros ok b' [Hnd Hpost]. split; [done|]. destruct ok; [|done]. destruct Hpost as (bl & Hbl & Hpr').
  replace (PPTR_BASE + a + (c - a)) with (PPTR_BASE + c) in Hbl by lia. rewrite Forall_forall in Hdev.
  destruct (shared_app l [] us true _ _ _ bl Hsh Hbl) as [Hsh' Hcov'].
  { intros _ u Hu. left. by destruct (Hdev u Hu). }
  { intros o Hoo [Hw1 Hw2] Hbig. split; [done|]. split.
    - intros Hce. apply Hbig. split; [|apply Z.divide_sub_r; auto]. apply Z.divide_add_r; [apply PPTR_BASE_16|auto].
    - split; [|unfold within; simpl in *; lia]. intros r Hr. destruct (Hdis r Hr) as [Hb|Hb]; [left|right];
        unfold before, phys, block_region in *; simpl in *; lia. }
  exists (us ++ chunks true bl). split; [done|]. split.
  - apply Forall_app. split.
    + apply Forall_forall. intros u Hu. destruct (Hdev u Hu). split; [done|lia].
    + destruct (covers_sorted _ _ _ _ Hbl) as (_ & _ & Hin). apply Forall_fmap. eapply Forall_impl; [done|].
      intros o [_ Hw]. by split.
  - split; [|done]. intros x Hx Hn. apply covered_app. destruct (Z.lt_ge_cases x a); [left; apply Hcov; [lia|done]|right; apply Hcov'; lia].
Qed.

(** The loop over the reserved regions: device memory up to the end of the last one tried *)
Definition device_inv (v : Z * Z) (b : boot_state) : Prop :=
  ∃ l1 l2 us, l = l1 ++ l2 ∧ v.1 = Z.of_nat (length l1) ∧ 0 ≤ v.2 ≤ device_top ∧
    Forall (λ r, r_end r ≤ v.2) l1 ∧ Forall (λ r, v.2 ≤ r_start r) l2 ∧
    made [] us b ∧ device_made us v.2 ∧ ndks b = ndks b0.
Lemma device_made_grow us a c : device_made us a → a ≤ c → (cells l [] → (16 | c)) → (∀ x, a ≤ x < c → in_regions x l) → device_made us c.
Proof.
  intros (Hd & Hc & _) Hac Hc16 Hin. split_and!; [| |done].
  - eapply Forall_impl; [done|]. intros u [? ?]. split; [done|lia].
  - intros x Hx Hn. destruct (Z.lt_ge_cases x a); [apply Hc; [lia|done]|]. destruct Hn. apply Hin. lia.
Qed.
Lemma device_loop : Z.of_nat (length l) < 2 ^ 64 → made [] [] b0 →
  wp (create_untypeds_device root_cnode_cap (slot_pos_cur b0)) (λ r b', ndks b' = ndks b0 ∧
    match r with
    | Some c => 0 ≤ c ≤ device_top ∧ Forall (λ r, r_end r ≤ c) l ∧ ∃ us, made [] us b' ∧ device_made us c
    | None => full b' end) b0.
Proof.
  intros Hlen Hm.
  apply (wp_while64 device_inv (λ v _, Z.of_nat (length l) - v.1)).
  2: { exists [], l, []. split_and!; simpl; try done; try lia.
       - eapply Forall_impl; [done|]. simpl. lia.
       - split_and!; [done|intros x ?; lia|]. intros _. apply Z.divide_0_r. }
  2: { simpl. lia. }
  intros [i a] b (l1 & l2 & us & Hl12 & Hi & Ha & Hl1 & Hl2 & Hmade & Hdev & Hnd). simpl in Hi, Ha, Hl1, Hl2, Hdev. subst i.
  destruct Hl as (junk & Hres & Hcount).
  apply wp_bind, wp_on_ndks, wp_gets. rewrite set_ndks_same, Hnd, Hcount.
  destruct (Z.ltb_spec (Z.of_nat (length l1)) (Z.of_nat (length l))) as [Hlt|Hge]; simpl.
  2: { apply wp_ret. split; [done|]. destruct l2; [|rewrite Hl12, length_app in Hge; simpl in Hge; lia].
       rewrite app_nil_r in Hl12. subst l1. split_and!; [lia|lia|done|eauto]. }
  destruct l2 as [|r l2]; [rewrite Hl12, app_nil_r in Hlt; lia|]. apply Forall_cons in Hl2 as [Har Hl2].
  apply wp_bind, wp_on_ndks. eapply wp_get_resv; [lia|rewrite Hnd, Hres, Hl12, <-app_assoc; by apply lookup_middle; lia|].
  rewrite set_ndks_same.
  assert (r ∈ l) as Hrl by (rewrite Hl12; set_solver).
  assert (0 ≤ r_start r ∧ r_end r ≤ device_top) as Hr by (rewrite Hl12 in Hbelow; apply Forall_app in Hbelow as [_ [? _]%Forall_cons]; done).
  pose proof Hok as Hok'. rewrite Hl12 in Hok'. apply ok_mid in Hok' as (_ & Hne & _ & Hg2). unfold nonempty in Hne.
  rewrite Forall_forall in Hl1, Hl2.
  apply wp_bind. eapply (wp_mono _ (λ (ok : bool) b', ndks b' = ndks b ∧
    if ok then ∃ us', made [] us' b' ∧ device_made us' (r_start r) else full b')).
  { destruct (Z.ltb_spec a (r_start r)).
    - apply (device_gap us); [done|done|lia|lia|intros Hce; by apply (cells_member r Hce Hrl)|]. intros r' Hr'. rewrite Hl12 in Hr'. unfold before. simpl.
      apply elem_of_app in Hr' as [Hr'|[->|Hr']%elem_of_cons]; [right; by apply Hl1|left; lia|].
      left. destruct (Hg2 r' Hr') as [_ Hg]. unfold gap in Hg. lia.
    - apply wp_ret. split; [done|]. exists us. split; [done|]. by replace (r_start r) with a by lia. }
  intros [] b' [Hnd' Hpost]; apply wp_ret; [|split; [congruence|done]].
  destruct Hpost as (us' & Hmade' & Hdev'). simpl. split; [|rewrite Hl12, length_app in *; simpl in *; lia].
  exists (l1 ++ [r]), l2, us'. rewrite <-app_assoc, length_app. split_and!; simpl; try done; [lia|lia|lia| | | |congruence].
  - apply Forall_app. split; [|by apply Forall_singleton]. apply Forall_forall. intros r' Hr'. specialize (Hl1 r' Hr'). simpl in Hl1. lia.
  - apply Forall_forall. intros r' Hr'. destruct (Hg2 r' Hr') as [_ Hg]. unfold gap in Hg. lia.
  - eapply device_made_grow; [done|lia|intros Hce; by apply (cells_member r Hce Hrl)|]. intros x Hx. exists r. split; [rewrite Hl12; set_solver|done].
Qed.

(** ** The kernel's memory: a region [t], apart from the regions [T] used before *)
Definition kernel_region (t : region) : Prop := PPTR_BASE ≤ r_start t ∧ r_start t ≤ r_end t ∧ r_end t ≤ PPTR_TOP.
Definition owned (t : region) : Prop :=
  (r_start t = r_end t ∨ kernel_region t) ∧ ∀ x, in_region x (phys t) → in_regions x l.
Lemma give_empty t b (Q : bool → boot_state → Prop) : r_start t = r_end t → Q true b →
  wp (create_untypeds_for_region root_cnode_cap false t (slot_pos_cur b0)) Q b.
Proof.
  intros Ht HQ. apply (wp_while64 (λ r b', r = t ∧ b' = b) (λ _ _, 0)); [|done|done].
  intros r b' [-> ->]. unfold is_reg_empty. rewrite (proj2 (Z.eqb_eq _ _)) by done. by apply wp_ret.
Qed.
Lemma fair_apart T u t : fair l T u → owned t → nonempty t → Forall (λ t', apart t' t) T → apart (block_region u.2) t.
Proof.
  intros (Hok' & _ & Hu) [_ Hin] Hne HT. destruct (block_ok_size u.2 Hok') as [_ Hsz]. rewrite Forall_forall in HT. destruct u.1.
  - destruct Hu as [Hdis _]. apply apart_sets; [unfold nonempty; simpl; lia|done|]. intros x Hx Ht.
    destruct (Hin (x - PPTR_BASE)) as (r & Hr & Hxr); [by rewrite in_phys, Z.sub_add|].
    destruct (Hdis r Hr) as [Hb|Hb]; unfold before, in_region, phys in *; simpl in *; lia.
  - destruct Hu as (t' & Ht' & Hw). apply apart_sym. eapply apart_within; [|done]. apply apart_sym. auto.
Qed.
Lemma made_free T us b f : made T us b → made T us (set_ndks (set_freemem f (ndks b)) b).
Proof. intros [[? ? ? ?] ?]. by split. Qed.
Lemma give_region T us t b : made T us b → owned t → Forall (λ t', apart t' t) T →
  wp (create_untypeds_for_region root_cnode_cap false t (slot_pos_cur b0)) (λ ok b', ndks b' = ndks b ∧
    if ok then ∃ vs, made (T ++ [t]) (us ++ vs) b' ∧ ∀ x, in_region x t → covered vs x else full b') b.
Proof.
  intros [Hpr [Hs Hf]] Ht HT. destruct (decide (r_start t = r_end t)) as [Hemp|Hne].
  { apply give_empty; [done|]. split; [done|]. exists []. rewrite app_nil_r. split; [|unfold in_region; intros; lia].
    split; [done|]. split; [done|]. eapply Forall_impl; [done|]. intros u Hu. eapply fair_more; [done|set_solver]. }
  destruct (proj1 Ht) as [?|(Hw1 & Hw2 & Hw3)]; [done|]. unfold PPTR_BASE, PPTR_TOP in Hw1, Hw3.
  assert (t = Region (wrap (r_start t)) (wrap (r_start t + (r_end t - r_start t)))) as Et.
  { rewrite !wrap_small by (unfold is_word; lia). rewrite Zplus_minus. by destruct t. }
  rewrite Et at 1.
  eapply wp_mono; [apply (create_untypeds_for_region_spec root_cnode_cap p b0 Hroot Hslots Hpos us); [lia|lia|lia| |done]|].
  { intros _. unfold PPTR_BASE, PPTR_TOP. lia. }
  intros ok b' [Hnd Hpost]. split; [done|]. destruct ok; [|done]. destruct Hpost as (bl & Hbl & Hpr').
  rewrite Zplus_minus in Hbl. exists (chunks false bl).
  destruct (shared_app l (T ++ [t]) us false (r_start t) (r_end t) (aligned16 (r_start t) (r_end t - r_start t)) bl) as [Hsh' Hcov']; [|exact Hbl|..].
  { split; [done|]. eapply Forall_impl; [done|]. intros u Hu. eapply fair_more; [done|set_solver]. }
  { intros Hlt u Hu. rewrite Forall_forall in Hf. destruct t. eapply fair_apart; [by apply Hf|done|done|done]. }
  { intros o Hoo Hw Hbig. split_and!; [done| |exists t; destruct t; split; [set_solver|done]].
    intros (_ & HT' & _). rewrite Forall_forall in HT'. destruct (HT' t ltac:(set_solver)) as [Hs16 He16].
    apply Hbig. split; [done|by apply Z.divide_sub_r]. }
  split; [done|]. intros x Hx. by apply Hcov'.
Qed.

(** The loop over the free regions *)
Definition free_inv (boot : region) (fm : list region) (us0 : list untyped) (i : Z) (b : boot_state) : Prop :=
  ∃ f1 f2 vs, fm = f1 ++ f2 ∧ i = Z.of_nat (length f1) ∧
    freemem (ndks b) = replicate (length f1) REG_EMPTY ++ f2 ∧
    made (boot :: f1) (us0 ++ vs) b ∧ (∀ x, in_regions x f1 → covered vs x).
Lemma free_loop boot fm us0 b : made [boot] us0 b → freemem (ndks b) = fm → Z.of_nat (length fm) = MAX_NUM_FREEMEM_REG →
  Forall owned fm → StronglySorted apart (boot :: fm) →
  wp (create_untypeds_freemem root_cnode_cap (slot_pos_cur b0)) (λ ok b',
    if ok then ∃ vs, made (boot :: fm) (us0 ++ vs) b' ∧ ∀ x, in_regions x fm → covered vs x else full b') b.
Proof.
  intros Hm Hf Hlen Hown Hss.
  apply (wp_while64 (free_inv boot fm us0) (λ i _, MAX_NUM_FREEMEM_REG - i)); [| |done].
  2: { exists [], fm, []. rewrite app_nil_r. split_and!; try done. by intros x ?%in_regions_nil. }
  intros i b' (f1 & f2 & vs & Hfm & -> & Hf' & Hm' & Hc). rewrite Hfm, length_app in Hlen.
  destruct (Z.ltb_spec (Z.of_nat (length f1)) MAX_NUM_FREEMEM_REG) as [Hlt|Hge]; simpl.
  2: { apply wp_ret. destruct f2; [|simpl in Hlen; lia]. rewrite app_nil_r in Hfm. subst f1. eauto. }
  destruct f2 as [|t f2]; [simpl in Hlen; lia|].
  apply wp_bind, wp_on_ndks. eapply wp_get_freemem; [rewrite Hf'; apply lookup_middle; rewrite length_replicate; lia|].
  rewrite set_ndks_same. apply wp_bind, wp_on_ndks.
  eapply wp_put_freemem; [rewrite Hf'; apply lookup_middle; rewrite length_replicate; lia|].
  assert (Forall (λ t', apart t' t) (boot :: f1)) as Hap.
  { rewrite Hfm in Hss. change (boot :: f1 ++ t :: f2) with ((boot :: f1) ++ t :: f2) in Hss.
    apply StronglySorted_app in Hss as (Hx & _). apply Forall_forall. intros t' Ht'. apply Hx; [done|by left]. }
  assert (owned t) as Ht by (rewrite Hfm in Hown; by apply Forall_app in Hown as [_ [? _]%Forall_cons]).
  apply wp_bind. eapply wp_mono; [apply (give_region (boot :: f1) (us0 ++ vs) t); [by apply made_free|done|done]|].
  intros [] b2 [Hnd Hpost]; apply wp_ret; [|done]. destruct Hpost as (ws & Hm2 & Hc2).
  split; [|unfold MAX_NUM_FREEMEM_REG in *; lia].
  exists (f1 ++ [t]), f2, (vs ++ ws). rewrite <-app_assoc, length_app. split_and!; [done|simpl; lia| |by rewrite (app_assoc us0)|].
  - rewrite Hnd. simpl. rewrite Hf', insert_middle by (rewrite length_replicate; lia).
    by rewrite replicate_add, <-app_assoc.
  - intros x [Hx|Hx]%in_regions_app; apply covered_app; [left; auto|right]. apply Hc2.
    by apply in_regions_cons in Hx as [?|[]%in_regions_nil].
Qed.
End give.

(** ** [create_untypeds] *)

(** The memory when it is shared out: [l] are the reserved regions, [fm] the free ones
    and [boot] is the boot part of the kernel image, all apart and all reserved, and
    [p] is the root CNode. *)
Record shareable (p : Z) (l fm : list region) (boot : region) (b : boot_state) : Prop := {
  sh_slots : slots_exist p (ctes (kern b));
  sh_pos : 0 ≤ slot_pos_cur b ≤ cnode_size;
  sh_top : 0 ≤ device_top ≤ 2 ^ 64 - PPTR_BASE;
  sh_resv : resv_repr l (ndks b);
  sh_ok : regions_ok l;
  sh_len : Z.of_nat (length l) < 2 ^ 64;
  sh_below : Forall (λ r, 0 ≤ r_start r ∧ r_end r ≤ device_top) l;
  sh_free : freemem (ndks b) = fm;
  sh_fm : Z.of_nat (length fm) = MAX_NUM_FREEMEM_REG;
  sh_owned : Forall (owned l) (boot :: fm);
  sh_boot_in : kernel_region boot;
  sh_apart : StronglySorted apart (boot :: fm);
  sh_boot : ∀ s : boot_state, get_p_reg_kernel_img_boot s = Done (phys boot) s
}.
(** The memory is cut into blocks that do not overlap and cover all device memory that is
    not reserved, the boot image and the free memory, and nothing else; the first thread is
    given those that are large enough, as far as boot info has room. *)
Definition shared_out (p : Z) (l T : list region) (b b' : boot_state) : Prop :=
  ∃ us, granted p b (untyped_caps us) b' ∧
    StronglySorted apart ((λ u, block_region u.2) <$> us) ∧
    Forall (fair l T) us ∧
    ∀ x, covered us x ↔ in_regions x T ∨ (0 ≤ x - PPTR_BASE < device_top ∧ ¬ in_regions (x - PPTR_BASE) l).

Lemma fair_covered l T us x : Forall (fair l T) us → covered us x →
  in_regions x T ∨ (0 ≤ x - PPTR_BASE < device_top ∧ ¬ in_regions (x - PPTR_BASE) l).
Proof.
  intros Hf (u & Hu & Hx). rewrite Forall_forall in Hf. destruct (Hf u Hu) as (_ & _ & Hfu). destruct u.1.
  - right. destruct Hfu as [Hd Hw]. unfold within, in_region in *. simpl in *. split; [lia|].
    intros (r & Hr & Hxr). destruct (Hd r Hr) as [Hb|Hb]; unfold before, in_region in *; simpl in *; lia.
  - left. destruct Hfu as (t & Ht & Hw). exists t. split; [done|]. unfold within, in_region in *. lia.
Qed.
Lemma made_nil p l b : 0 ≤ slot_pos_cur b ≤ cnode_size → made p b l [] [] b.
Proof.
  intros Hpos. split; [|by split; constructor]. unfold progress, untyped_caps. rewrite filter_nil. simpl. rewrite take_nil.
  split; simpl; [lia|done|lia|done].
Qed.

Lemma create_untypeds_spec c p l fm boot b : cap_get_capPtr c = Some p → shareable p l fm boot b →
  wp (create_untypeds c) (λ ok b', if ok then shared_out p l (boot :: fm) b b' else full b') b.
Proof.
  intros Hroot [Hslots Hpos Htop Hl Hok Hlen Hbelow Hfree Hfm [Hob Hown]%Forall_cons Hbin Hap Hboot].
  unfold create_untypeds. apply wp_bind, wp_gets.
  apply wp_bind. eapply wp_mono; [by apply (device_loop c p b l Hroot Hslots Hpos Htop Hl Hok Hbelow Hlen), made_nil|].
  intros [start|] b1 [Hnd1 Hpost]; [|by apply wp_ret]. destruct Hpost as (Hst & Hlend & us1 & Hm1 & Hd1).
  apply wp_bind. eapply (wp_mono _ (λ (ok : bool) b2, ndks b2 = ndks b1 ∧
    if ok then ∃ us2, made p b l [] us2 b2 ∧ device_made l us2 device_top else full b2)).
  { destruct (Z.ltb_spec start CONFIG_PADDR_USER_DEVICE_TOP).
    - apply (device_gap c p b l Hroot Hslots Hpos Htop us1 start); [done|done|unfold device_top; lia|done|by intros (_ & _ & ?)|].
      intros r Hr. right. rewrite Forall_forall in Hlend. by apply Hlend.
    - apply wp_ret. split; [done|]. exists us1. unfold device_top in *. by replace CONFIG_PADDR_USER_DEVICE_TOP with start by lia. }
  intros [] b2 [Hnd2 Hpost]; [|by apply wp_ret]. destruct Hpost as (us2 & Hm2 & (_ & Hd2 & _)). simpl.
  apply wp_bind. unfold wp at 1. rewrite Hboot.
  assert (paddr_to_pptr_reg (phys boot) = boot) as ->.
  { destruct Hbin as (Hk1 & Hk2 & Hk3). unfold paddr_to_pptr_reg, phys. simpl. unfold PPTR_BASE, PPTR_TOP in *.
    rewrite !ptrFromPAddr_window by (unfold PPTR_BASE; lia). unfold PPTR_BASE. rewrite !Z.sub_add. by destruct boot. }
  apply wp_bind. eapply wp_mono; [by apply (give_region c p b l Hroot Hslots Hpos Htop Hl Hok Hbelow [] us2 boot b2); [done|done|constructor]|].
  intros [] b3 [Hnd3 Hpost]; [|by apply wp_ret]. destruct Hpost as (vs & Hm3 & Hc3). simpl.
  apply wp_bind. eapply wp_mono; [by apply (free_loop c p b l Hroot Hslots Hpos Htop Hl Hok Hbelow boot fm (us2 ++ vs) b3);
    [|by rewrite Hnd3, Hnd2, Hnd1|..]|].
  intros [] b4 Hpost; [|by apply wp_ret]. destruct Hpost as (ws & [Hp4 [Hs4 Hf4]] & Hc4). simpl.
  apply wp_bind, wp_gets. unfold bi_put_region. apply wp_bind, wp_bind, wp_bi_put. intros s1 Hs1.
  apply wp_bi_put. intros s2 Hs2. apply wp_ret. exists ((us2 ++ vs) ++ ws). split_and!; [|done|done|].
  - destruct Hp4 as [? Hc ? ?]. split; simpl; [done|by rewrite Hs2; simpl; rewrite Hs1|done|done].
  - intros x. split; [by apply fair_covered|]. intros [Hx|[Hx Hn]].
    + rewrite !covered_app. apply in_regions_cons in Hx as [Hx|Hx]; auto.
    + rewrite !covered_app. left. left. rewrite <-(Zplus_minus PPTR_BASE x). by apply Hd2.
Qed.
End share.

(** * Who owns the memory after boot

    [init_freemem] and [create_untypeds] together: the untyped objects of the first
    thread do not overlap and lie within the memory that nothing else uses; with room in
    boot info and aligned boundaries they are all of it. *)

Section safe.
Context `{Platform} `{BootPlatformOk}.

(** ** The free memory after the objects were cut from it *)
Lemma cut_length fl size max start fm : cut fl size max start fm → Z.of_nat (length fl) < MAX_NUM_FREEMEM_REG →
  Z.of_nat (length fm) = MAX_NUM_FREEMEM_REG.
Proof.
  intros (l1 & f & l2 & -> & _ & _ & _ & _ & ->) Hlen. unfold MAX_NUM_FREEMEM_REG in *.
  rewrite !length_app in *. simpl in *. rewrite !length_app, length_replicate in *. simpl in *. lia.
Qed.
Lemma replicate_empty n x : in_regions x (replicate n REG_EMPTY) ↔ False.
Proof.
  split; [|done]. intros (r & Hr & Hx). apply elem_of_replicate_inv in Hr as ->. unfold in_region in Hx. simpl in Hx. lia.
Qed.
Lemma before_in l1 f l2 x : regions_sorted (l1 ++ f :: l2) → in_regions x (l1 ++ l2) → ¬ in_region x f.
Proof.
  intros [_ Hs] Hx Hf. apply StronglySorted_app in Hs as (Hx1 & _ & [Hx2 _]%StronglySorted_cons). rewrite Forall_forall in Hx2.
  apply in_regions_app in Hx as [(r & Hr & Hxr)|(r & Hr & Hxr)].
  - specialize (Hx1 r f Hr ltac:(left; done)). by apply (before_disjoint _ _ x Hx1).
  - by apply (before_disjoint _ _ x (Hx2 r Hr)).
Qed.
Lemma cut_regions fl size max start fm x : 0 ≤ size → cut fl size max start fm → regions_sorted fl →
  in_regions x fm ↔ in_regions x fl ∧ ¬ start ≤ x < start + size.
Proof.
  intros Hsz (l1 & f & l2 & -> & _ & Hle & Hge & _ & ->) Hs. pose proof (before_in l1 f l2 x Hs) as Hb.
  rewrite !in_regions_app, !in_regions_cons, in_regions_app, replicate_empty in *. unfold in_region in *. simpl.
  split; [|intuition lia]. intros [Hx|[Hx|[Hx|[Hx|[]]]]]; try (split; [tauto|]); intuition lia.
Qed.

Lemma within_apart a b a' b' : apart a b → within a' a → within b' b → apart a' b'.
Proof. unfold apart, within, before. lia. Qed.
Lemma within_refl a : within a a.
Proof. by split. Qed.
Lemma sorted_apart l : regions_sorted l → StronglySorted apart l.
Proof. intros [_ Hs]. eapply ss_impl; [|done]. by left. Qed.
Lemma apart_empties l n : StronglySorted apart l → Forall (λ r, 0 ≤ r_start r) l → StronglySorted apart (l ++ replicate n REG_EMPTY).
Proof.
  intros Hs Hpos. rewrite Forall_forall in Hpos. assert (∀ r, 0 ≤ r_start r → apart r REG_EMPTY) as He by (right; unfold before; simpl; lia).
  apply StronglySorted_app. split_and!; [|done|].
  - intros a e Ha ->%elem_of_replicate_inv. by apply He, Hpos.
  - induction n as [|n IH]; simpl; constructor; [done|]. apply Forall_forall. intros e ->%elem_of_replicate_inv. by apply He.
Qed.
(** A region replaced by two parts of it *)
Lemma apart_split l1 f l2 a b : StronglySorted apart (l1 ++ f :: l2) → within a f → within b f → apart a b →
  StronglySorted apart (l1 ++ a :: b :: l2).
Proof.
  intros (Hx & Hs1 & [Hf Hs2]%StronglySorted_cons)%StronglySorted_app Ha Hb Hab. rewrite Forall_forall in Hf.
  apply StronglySorted_app. split_and!; [|done|].
  - intros r t Hr [->|[->|Ht]%elem_of_cons]%elem_of_cons.
    + eapply apart_within; [apply Hx; [done|by left]|done].
    + eapply apart_within; [apply Hx; [done|by left]|done].
    + apply Hx; [done|by right].
  - apply StronglySorted_cons. split; [apply Forall_cons; split; [done|]|apply StronglySorted_cons; split; [|done]].
    all: apply Forall_forall; intros t Ht; eapply within_apart; [by apply Hf|done|apply within_refl].
Qed.
Lemma cut_apart fl size max start fm : 0 ≤ size → cut fl size max start fm → regions_sorted fl →
  Forall (λ f, 0 ≤ r_start f ∧ r_start f ≤ r_end f) fl →
  StronglySorted apart fm ∧ Forall (λ t, t = REG_EMPTY ∨ ∃ f, f ∈ fl ∧ within t f ∧ r_start t ≤ r_end t) fm.
Proof.
  intros Hsz (l1 & f & l2 & -> & _ & Hle & Hge & _ & ->) Hs Hpos. rewrite Forall_forall in Hpos.
  assert (∀ t, t ∈ l1 ++ f :: l2 → t = REG_EMPTY ∨ ∃ g, g ∈ l1 ++ f :: l2 ∧ within t g ∧ r_start t ≤ r_end t) as Hself.
  { intros t Ht. right. exists t. destruct (Hpos t Ht). split_and!; [done|apply within_refl|done]. }
  assert (f ∈ l1 ++ f :: l2) as Hf by set_solver. destruct (Hpos f Hf).
  set (a := Region (r_start f) start). set (b := Region (start + size) (r_end f)).
  assert (within a f ∧ within b f ∧ apart a b) as (Ha & Hb & Hab).
  { unfold within, apart, before. simpl. lia. }
  assert (l1 ++ a :: b :: l2 ++ replicate (15 - length (l1 ++ f :: l2)) REG_EMPTY =
    (l1 ++ a :: b :: l2) ++ replicate (15 - length (l1 ++ f :: l2)) REG_EMPTY) as -> by by rewrite <-app_assoc.
  assert (Forall (λ t, t = REG_EMPTY ∨ ∃ g, g ∈ l1 ++ f :: l2 ∧ within t g ∧ r_start t ≤ r_end t) (l1 ++ a :: b :: l2)) as Hall.
  { apply Forall_forall. intros t [Ht|[->|[->|Ht]%elem_of_cons]%elem_of_cons]%elem_of_app.
    - apply Hself. set_solver.
    - right. exists f. split_and!; [done..|simpl; lia].
    - right. exists f. split_and!; [done..|simpl; lia].
    - apply Hself. set_solver. }
  split.
  - apply apart_empties; [by eapply apart_split; [apply sorted_apart|..]|]. eapply Forall_impl; [done|].
    intros t [->|(g & Hg & [? ?] & ?)]; [done|]. destruct (Hpos g Hg). lia.
  - apply Forall_app. split; [done|]. apply Forall_forall. intros t ->%elem_of_replicate_inv. by left.
Qed.

(** ** From the memory map to the untyped objects *)

(** [boot] is the part of the kernel image that only boot uses; its frames are reserved. *)
Record boot_part (Rs : list region) (boot : region) : Prop := {
  bp_kernel : kernel_region boot;
  bp_some : nonempty boot;
  bp_image : ∃ img, img ∈ Rs ∧ within boot img;
  bp_code : ∀ s : boot_state, get_p_reg_kernel_img_boot s = Done (phys boot) s
}.
(** Memory ends below the top of the device memory. *)
Record below_top (Rs l0 : list region) : Prop := {
  bt_top : PADDR_TOP ≤ device_top ≤ 2 ^ 64 - PPTR_BASE;
  bt_l0 : Forall (λ r, 0 ≤ r_start r ∧ r_end r ≤ device_top) l0;
  bt_Rs : Forall (λ r, PPTR_BASE ≤ r_start r ∧ r_end r ≤ PPTR_BASE + device_top) Rs
}.
(** The memory the first thread is given: [start] and [size] are the place of its objects. *)
Definition given_memory (available Rs l0 : list region) (boot : region) (start size x : Z) : Prop :=
  in_region x boot ∨
  ¬ in_regions x Rs ∧
    (in_regions x (clip <$> available) ∧ ¬ start ≤ x < start + size ∨
     0 ≤ x - PPTR_BASE < device_top ∧ ¬ in_regions (x - PPTR_BASE) l0 ∧ ¬ in_regions x (clip <$> available)).

Lemma points_bound lo hi l : regions_sorted l → (∀ x, in_regions x l → lo ≤ x < hi) →
  Forall (λ r, lo ≤ r_start r ∧ r_start r ≤ r_end r ∧ r_end r ≤ hi) l.
Proof.
  intros [Hne _] Hx. apply Forall_forall. intros r Hr. rewrite Forall_forall in Hne. specialize (Hne r Hr). unfold nonempty in Hne.
  destruct (Hx (r_start r)); [exists r; split; [done|unfold in_region; lia]|].
  destruct (Hx (r_end r - 1)); [exists r; split; [done|unfold in_region; lia]|]. lia.
Qed.
Lemma clip_point available x : Forall word_region available → in_regions x (clip <$> available) → PPTR_BASE ≤ x < PPTR_TOP.
Proof.
  intros Hw (r & (p & -> & Hp)%list_elem_of_fmap & Hx). rewrite Forall_forall in Hw. destruct (Hw p Hp) as [[? ?] [? ?]].
  unfold in_region, clip in Hx. simpl in Hx. assert (PADDR_TOP = PPTR_TOP - PPTR_BASE) as E by done. lia.
Qed.
Lemma in_phys_list x l : in_regions (x - PPTR_BASE) (phys <$> l) ↔ in_regions x l.
Proof. rewrite in_regions_phys. by rewrite Z.sub_add. Qed.

Section map.
Context (available Rs l0 : list region) (boot : region).
Context (Hw : Forall word_region available) (Hboot : boot_part Rs boot) (Htop : below_top Rs l0).
Context (fl l : list region) (size max start : Z) (fm : list region).
Context (Hfl : regions_sorted fl) (Hl : regions_ok l) (Hlen : Z.of_nat (length fl) < MAX_NUM_FREEMEM_REG).
Context (Hinf : ∀ x, in_regions x fl ↔ in_regions x (clip <$> available) ∧ ¬ in_regions x Rs).
Context (Hinl : ∀ x, in_regions x l ↔ in_regions x l0 ∨ in_regions x (phys <$> Rs) ∨ in_regions x (phys <$> fl)).
Context (Hcut : cut fl size max start fm) (Hsize : 0 ≤ size).

Lemma free_kernel : Forall kernel_region fl.
Proof.
  eapply Forall_impl; [apply (points_bound PPTR_BASE PPTR_TOP); [done|]|done].
  intros x Hx. eapply clip_point; [done|]. by apply Hinf.
Qed.
Lemma boot_in_Rs x : in_region x boot → in_regions x Rs.
Proof.
  intros Hx. destruct (bp_image _ _ Hboot) as (img & Himg & [? ?]). exists img. split; [done|]. unfold in_region in *. lia.
Qed.
Lemma reserved_below : Forall (λ r, 0 ≤ r_start r ∧ r_end r ≤ device_top) l.
Proof.
  destruct Htop as [Ht H0' HR]. rewrite Forall_forall in H0', HR. pose proof free_kernel as Hk. rewrite Forall_forall in Hk.
  eapply Forall_impl; [apply (points_bound 0 device_top); [by apply regions_ok_sorted|]|by intros r (? & ? & ?)].
  assert (PADDR_TOP = PPTR_TOP - PPTR_BASE) as E by done.
  intros x [(r & Hr & Hx)|[(r & Hr & Hx)|(r & Hr & Hx)]]%Hinl.
  - destruct (H0' r Hr). unfold in_region in Hx. lia.
  - apply list_elem_of_fmap in Hr as (q & -> & Hq). destruct (HR q Hq). unfold in_region in Hx. simpl in Hx. lia.
  - apply list_elem_of_fmap in Hr as (q & -> & Hq). destruct (Hk q Hq) as (? & ? & ?). unfold in_region in Hx. simpl in Hx. lia.
Qed.
Lemma targets_owned : Forall (owned l) (boot :: fm) ∧ StronglySorted apart (boot :: fm).
Proof.
  pose proof free_kernel as Hk. rewrite Forall_forall in Hk. assert (0 < PPTR_BASE) by done.
  destruct (cut_apart fl size max start fm) as [Hap Hfm]; try done.
  { apply Forall_forall. intros f Hf. destruct (Hk f Hf) as (? & ? & ?). lia. }
  rewrite Forall_forall in Hfm. split.
  - apply Forall_cons. split.
    + split; [right; apply Hboot|]. intros x Hx. apply Hinl. right. left. rewrite in_phys in Hx.
      apply in_regions_phys. by apply boot_in_Rs.
    + apply Forall_forall. intros t Ht. destruct (Hfm t Ht) as [->|(f & Hf & [Hw1 Hw2] & Hle)].
      * split; [by left|]. intros x Hx. unfold in_region in Hx. simpl in Hx. lia.
      * destruct (Hk f Hf) as (? & ? & ?). split; [right; unfold kernel_region; lia|]. intros x Hx. apply Hinl. right. right.
        apply in_regions_phys. exists f. split; [done|]. unfold in_region in *. simpl in Hx. lia.
  - apply StronglySorted_cons. split; [|done]. apply Forall_forall. intros t Ht.
    destruct (Hfm t Ht) as [->|(f & Hf & Hwt & Hle)].
    { right. unfold before. simpl. destruct (bp_kernel _ _ Hboot) as (? & _). lia. }
    eapply apart_within; [|done]. pose proof (proj1 Hfl) as Hne. rewrite Forall_forall in Hne.
    apply apart_sets; [by apply Hboot|by apply Hne|]. intros x Hx Hxf. apply boot_in_Rs in Hx.
    destruct (proj1 (Hinf x)) as [_ Hn]; [by exists f|done].
Qed.

Lemma map_shareable p b : resv_repr l (ndks b) → Z.of_nat (length l) ≤ MAX_NUM_RESV_REG → freemem (ndks b) = fm →
  slots_exist p (ctes (kern b)) → 0 ≤ slot_pos_cur b ≤ cnode_size → shareable p l fm boot b.
Proof.
  intros Hr Hll Hf Hs Hp. destruct targets_owned. split; try done.
  - destruct (bt_top _ _ Htop). split; [|done]. by transitivity PADDR_TOP.
  - pose proof num_device_frames. unfold MAX_NUM_RESV_REG, NUM_KERNEL_DEVICE_FRAMES, MAX_NUM_FREEMEM_REG, NUM_RESERVED_REGIONS in *. lia.
  - apply reserved_below.
  - by eapply cut_length.
  - apply Hboot.
  - apply Hboot.
Qed.
Lemma given_iff x :
  (in_regions x (boot :: fm) ∨ (0 ≤ x - PPTR_BASE < device_top ∧ ¬ in_regions (x - PPTR_BASE) l)) ↔
  given_memory available Rs l0 boot start size x.
Proof.
  unfold given_memory. rewrite in_regions_cons, (cut_regions fl size max start fm x), Hinl, !in_phys_list, Hinf by done.
  destruct (decide (0 ≤ x - PPTR_BASE < device_top)); tauto.
Qed.
End map.

(** The blocks that are given: the big ones, as far as boot info has room. *)
Definition given_blocks (us : list untyped) : list untyped :=
  take (Z.to_nat CONFIG_MAX_NUM_BOOTINFO_UNTYPED_CAPS) (filter ubig us).
Lemma untyped_caps_given us : untyped_caps us = untyped_cap_of <$> given_blocks us.
Proof. unfold untyped_caps, given_blocks. by rewrite fmap_take. Qed.
Lemma ss_sublist {A} (R : A → A → Prop) l k : l `sublist_of` k → StronglySorted R k → StronglySorted R l.
Proof.
  induction 1 as [|x l k Hs IH|x l k Hs IH]; intros Hk; [done| |].
  - apply StronglySorted_cons in Hk as [Hx Hk]. apply StronglySorted_cons. split; [|auto]. rewrite Forall_forall in *. intros y Hy.
    apply Hx. by eapply elem_of_sublist.
  - apply StronglySorted_cons in Hk as [_ Hk]. auto.
Qed.
Lemma given_sublist us : given_blocks us `sublist_of` us.
Proof. etransitivity; [apply sublist_take|apply sublist_filter]. Qed.
Lemma given_all us : Forall ubig us → Z.of_nat (length (given_blocks us)) < CONFIG_MAX_NUM_BOOTINFO_UNTYPED_CAPS → given_blocks us = us.
Proof.
  unfold given_blocks. intros Hb. assert (filter ubig us = us) as ->.
  { induction Hb as [|u us Hu Hb IH]; [done|]. by rewrite filter_cons_True, IH. }
  rewrite length_take. intros Hl. apply take_ge. lia.
Qed.
Definition resv_list (n : ndks_boot) : list region := take (Z.to_nat (resv_count n)) (reserved n).
Lemma resv_list_repr l n : resv_repr l n → resv_list n = l.
Proof. intros (junk & Hr & Hc). unfold resv_list. rewrite Hr, Hc, Nat2Z.id. apply take_app_length. Qed.
(** The first thread got untyped objects [gs] out of the memory [given]. *)
Definition given_of (p : Z) (boot : region) (given : Z → Prop) (b b' : boot_state) : Prop :=
  ∃ gs, granted p b (untyped_cap_of <$> gs) b' ∧
    StronglySorted apart ((λ u, block_region u.2) <$> gs) ∧ Forall (λ u, block_ok u.2 ∧ ubig u) gs ∧
    (∀ x, covered gs x → given x) ∧
    (cells (resv_list (ndks b)) (boot :: freemem (ndks b)) →
      Z.of_nat (length gs) < CONFIG_MAX_NUM_BOOTINFO_UNTYPED_CAPS → ∀ x, given x → covered gs x).
Lemma shared_given p l boot (given : Z → Prop) b b' : resv_repr l (ndks b) →
  shared_out p l (boot :: freemem (ndks b)) b b' →
  (∀ x, in_regions x (boot :: freemem (ndks b)) ∨ (0 ≤ x - PPTR_BASE < device_top ∧ ¬ in_regions (x - PPTR_BASE) l) ↔ given x) →
  given_of p boot given b b'.
Proof.
  intros Hl (us & Hg & Hap & Hfair & Hcov) Hgiven. exists (given_blocks us). pose proof (given_sublist us) as Hsub.
  split_and!.
  - by rewrite <- untyped_caps_given.
  - eapply ss_sublist; [|exact Hap]. by apply fmap_sublist.
  - apply Forall_take, Forall_forall. intros u [Hb Hu]%list_elem_of_filter. rewrite Forall_forall in Hfair.
    destruct (Hfair u Hu) as [? _]. done.
  - intros x (u & Hu & Hx). apply Hgiven, Hcov. exists u. split; [|done]. by eapply elem_of_sublist.
  - rewrite (resv_list_repr l) by done. intros Hce Hlen x Hx. rewrite given_all; [by apply Hcov, Hgiven| |done].
    eapply Forall_impl; [exact Hfair|]. intros u (_ & Hb & _). auto.
Qed.

(** C3: Who owns the memory after boot. [init_freemem] returns; when it succeeds the
    objects of the first thread lie in available memory that is not reserved. If
    [create_untypeds] then runs with the regions as they were left and succeeds, the
    untyped objects whose capabilities the first thread is given do not overlap, and they
    lie within the boot part of the kernel image, the available memory that is neither
    reserved nor used for the objects, and the device memory that the kernel does not
    use. They consist of exactly that memory when boot info has room for more of them and
    all boundaries are multiples of the least untyped object; else the rest is given to
    nobody. It fails only when the root CNode is full. *)
Theorem memory_given_ok available Rs l0 it extra boot b0 :
  map_ok available Rs l0 → ndks_ok l0 (ndks b0) → extra_ok extra → rs_extra_bi (rootserver b0) = 0 →
  rootserver_bytes extra (arch_get_n_paging it) < 2 ^ 64 → boot_part Rs boot → below_top Rs l0 →
  wp (init_freemem available Rs it extra) (λ ok b1, ok = true → ∃ start,
    objects_placed start it extra (rootserver b1) ∧
    (∀ x, start ≤ x < start + rootserver_bytes extra (arch_get_n_paging it) →
      in_regions x (clip <$> available) ∧ ¬ in_regions x Rs) ∧
    ∀ c p b2, ndks b2 = ndks b1 → cap_get_capPtr c = Some p → slots_exist p (ctes (kern b2)) →
      0 ≤ slot_pos_cur b2 ≤ cnode_size →
      wp (create_untypeds c) (λ ok b3, if ok then
        given_of p boot (given_memory available Rs l0 boot start (rootserver_bytes extra (arch_get_n_paging it))) b2 b3
        else full b3) b2) b0.
Proof.
  intros Hmap Hnd Hx Hrs Hbytes Hboot Htop. eapply wp_mono; [by apply (init_freemem_spec _ _ l0)|].
  intros ok b1 Hpost ->. unfold init_freemem_post in Hpost. case_match; [|by destruct Hpost].
  destruct Hpost as (fl & l & Hl & Hok & Hfl & Hll & Hlen & Hinf & Hinl & start & Hcut & Hobj).
  assert (0 ≤ rootserver_bytes extra (arch_get_n_paging it)) as Hsize.
  { destruct (big_facts extra) as (? & ? & ?). pose proof (arch_get_n_paging_word it) as [? ?].
    unfold rootserver_bytes, bytes_of in *. case_match; lia. }
  exists start. split_and!; [done| |].
  { intros x Hxs. apply Hinf. destruct Hcut as (l1 & f & l2 & -> & _ & ? & ? & _). exists f.
    split; [set_solver|unfold in_region; lia]. }
  intros c p b2 Hnd2 Hc Hs Hp.
  eapply wp_mono; [apply (create_untypeds_spec c p l (freemem (ndks b1)) boot); [done|]|].
  - apply (map_shareable available Rs l0 boot (mo_words _ _ _ Hmap) Hboot Htop fl l
      _ _ start _ Hfl Hok Hlen Hinf Hinl Hcut Hsize); by rewrite ?Hnd2.
  - intros [] b3 Hout; [|done]. apply (shared_given p l); [by rewrite Hnd2|by rewrite Hnd2|].
    intros x. rewrite Hnd2. by apply (given_iff available Rs l0 boot fl l _ _ start _ Hfl Hinf Hinl Hcut).
Qed.
End safe.
