(* ===== verification/BootExample.v ===== *)
(** * A concrete boot

    A board with 256 MiB of memory, its interrupt controller and ten interrupts. The
    loader has put the kernel at 64 MiB, a device tree of 16 bytes behind it and a
    user image of four pages behind that. The witnesses of the boot theorems evaluate
    the boot code on it. *)
From stdpp Require Import sorting.
From S2P Require Import Prelude Words Platform State RefillList Sporadic CapOps CSpace VSpace Thread CNode Untyped BootMemory Boot BootInit Invariant InvariantCore InvariantKernel Machine KernelSpec BootInv BootRegions BootTrim BootObjects BootUntyped BootGrant.

#[local] Instance board : Platform := {
  TIMER_CLOCK_HZ := 10000000; PLIC_MAX_IRQ := 10;
  CONFIG_KERNEL_WCET_SCALE := 1; CONFIG_KERNEL_STATIC_MAX_PERIOD_US := 1000000;
  numDomains := 1; CONFIG_NUM_DOMAIN_SCHEDULES := 2;
  CONFIG_MAX_NUM_WORK_UNITS_PER_PREEMPTION := 100;
  CONFIG_RETYPE_FAN_OUT_LIMIT := 256; CONFIG_RESET_CHUNK_BITS := 8;
  CONFIG_FIRST_HART_ID := 0; PLIC_FIRST_HART_M_ONLY := false; PLIC_PPTR := 0xFFFFFFFFC0000000;
  physBase := 0x84000000; KERNEL_ELF_TOP := 0xFFFFFFFF84040000;
  kernel_root_pageTable := 0xFFFFFFFF84020000; intStateIRQNode := 0xFFFFFFFF84024000
}.
#[local] Instance board_ok : PlatformOk.
Proof. split; by vm_compute. Qed.
#[local] Instance boot_board : BootPlatform := {
  CONFIG_ROOT_CNODE_SIZE_BITS := 8; CONFIG_MAX_NUM_BOOTINFO_UNTYPED_CAPS := 230;
  CONFIG_PADDR_USER_DEVICE_TOP := 0x4000000000; CONFIG_BOOT_THREAD_TIME_SLICE := 5; CONFIG_KERNEL_STACK_BITS := 12;
  IRQ_CNODE_SLOT_BITS := 4;
  kernel_device_frames := [KernelFrame 0x0c000000 0xFFFFFFFFC0000000 false];
  avail_p_regs := [Region 0x80200000 0x90000000];
  ki_boot_end := 0xFFFFFFFF84010000;
  kernel_image_level1_pt := 0xFFFFFFFF84021000; kernel_image_level1_dev_pt := 0xFFFFFFFF84022000;
  ksIdleThreadTCB := 0xFFFFFFFF84023000; ksIdleThreadSC := 0xFFFFFFFF84023400; idle_thread := 0xFFFFFFFF84011000;
  kernel_stack_alloc := 0xFFFFFFFF84030000; trap_entry_address := 0xFFFFFFFF84012000 }.
#[local] Instance boot_board_ok : BootPlatformOk.
Proof. split; by vm_compute. Qed.

(** ** The whole boot *)
Definition board_mem : gmap Z Z :=
  list_to_map [(ptrFromPAddr 0x84041000, 0x0807060504030201); (ptrFromPAddr 0x84041008, 0xdeadbeef)].
Definition board_devices : device_state := DeviceState (λ n, 5000 + 10 * Z.of_nat n) (λ _, 0) (λ _ _, 0) 0 0 0 0 0 [].
Definition board_boot : outcome boot_state () :=
  init_kernel 0x84050000 0x84054000 0x84040000 0x10000 0x84041000 16 (loader_state board_mem board_devices).
(** The first thread runs, with the untyped capabilities in the slots 24 to 88. *)
Definition summary (m : outcome boot_state ()) : option (Z * bool) :=
  match m with
  | Done _ b => Some (slot_pos_cur b, ksCurThread (kern b) =? rs_tcb (rootserver b) +w TCB_OFFSET)
  | Stuck _ => None
  end.
Lemma board_boots : summary board_boot = Some (89, true).
Proof. by vm_compute. Qed.
#[local] Existing Instance boot_bound.
Lemma boot_invariant_witness : ∃ b, board_boot = Done () b ∧ slot_pos_cur b = 89 ∧ kernel_inv (kern b).
Proof.
  pose proof board_boots as Hs. destruct board_boot as [[] b|] eqn:E; [|done]. exists b. split; [done|].
  injection Hs as Hpos _. split; [done|].
  exact (boot_invariant _ _ _ _ _ _ _ _ b (kern b) E (rtc_refl _ _)).
Defined.

(** ** The memory map *)
Definition board_devs : list region := [Region 0x0c000000 0x0c200000].
Definition board_image : region := Region 0xFFFFFFC084000000 0xFFFFFFC084040000.
Definition board_boot_part : region := Region 0xFFFFFFC084000000 0xFFFFFFC084010000.
Definition board_reserved : list region :=
  [board_image; Region 0xFFFFFFC084041000 0xFFFFFFC084041010; Region 0xFFFFFFC084050000 0xFFFFFFC084054000].
Definition board_it : region := Region 0x10000 0x17000.
Definition board_state : boot_state :=
  set_ndks (set_resv_count 1 (set_reserved (board_devs ++ replicate 19 REG_EMPTY)
    (ndks (loader_state board_mem board_devices)))) (loader_state board_mem board_devices).

(** The region of a list an address is in *)
Ltac in_list :=
  repeat match goal with
  | H : in_regions _ [] |- _ => by apply in_regions_nil in H
  | H : in_regions _ (_ :: _) |- _ => apply in_regions_cons in H as [H|H]
  end.
Ltac address := unfold in_region, in_window, word_region, is_word, before, gap, nonempty, kernel_region, within in *; simpl in *;
  repeat match goal with |- context [PPTR_BASE] => unfold PPTR_BASE | H : context [PPTR_BASE] |- _ => unfold PPTR_BASE in H end;
  unfold PPTR_TOP in *; change PADDR_TOP with 0x3F80000000 in *; lia.

Lemma board_map_ok : map_ok avail_p_regs board_reserved board_devs.
Proof.
  split; [repeat constructor; address|repeat constructor; address| |done|done].
  intros x Hx. unfold board_devs, board_reserved, board_image in *. cbn [avail_p_regs boot_board fmap list_fmap].
  split; intros Hy; in_list; address.
Qed.
Lemma board_ndks_ok : ndks_ok board_devs (ndks board_state).
Proof. split; [by exists (replicate 19 REG_EMPTY)|done|repeat constructor|done|done]. Qed.
Lemma board_boot_ok : boot_part board_reserved board_boot_part.
Proof.
  split; [address|address| |by intros s; vm_compute].
  exists board_image. split; [by left|address].
Qed.
Lemma board_below : below_top board_reserved board_devs.
Proof. split; [done| |]; repeat constructor; address. Qed.

(** The address range behind the interrupt controller joins its region. *)
Definition board_next : region := Region 0x0c200000 0x0c300000.
Lemma reserve_region_witness : match reserve_region board_next (ndks board_state) with
  | Done ok n => ok = true ∧ take 2 (reserved n) = [Region 0x0c000000 0x0c300000; REG_EMPTY] ∧
      reserve_post board_devs board_next (ndks board_state) true n
  | Stuck _ => False
  end.
Proof.
  assert (wp (reserve_region board_next) (reserve_post board_devs board_next (ndks board_state)) (ndks board_state)) as Hw.
  { apply reserve_region_ok; [apply board_ndks_ok|done|done|apply board_ndks_ok|done|].
    intros r ->%list_elem_of_singleton. by right. }
  unfold wp in Hw. destruct (reserve_region board_next (ndks board_state)) as [ok n|] eqn:E; [|done].
  assert (Done (ok, take 2 (reserved n)) n = Done (true, [Region 0x0c000000 0x0c300000; REG_EMPTY]) n) as [= -> ->]; [|done].
  revert E. vm_compute. by intros [= <- <-].
Defined.

Definition board_freemem : outcome boot_state bool := init_freemem avail_p_regs board_reserved board_it 12 board_state.
Definition board_objects : outcome boot_state bool → option (bool * region * Z) := λ m,
  match m with Done ok b => Some (ok, rootserver_mem b, rs_cnode (rootserver b)) | Stuck _ => None end.
Lemma board_placed : board_objects board_freemem =
  Some (true, Region 0xffffffc08ffff480 0xffffffc08ffff480, 0xffffffc08fff6000).
Proof. by vm_compute. Qed.
Lemma init_freemem_witness : ∃ b, board_freemem = Done true b ∧ rs_cnode (rootserver b) = 0xffffffc08fff6000 ∧
  init_freemem_post avail_p_regs board_reserved board_devs board_it 12 board_state true b.
Proof.
  assert (wp (init_freemem avail_p_regs board_reserved board_it 12)
    (init_freemem_post avail_p_regs board_reserved board_devs board_it 12 board_state) board_state) as Hw.
  { apply init_freemem_ok; [apply board_map_ok|apply board_ndks_ok|by right|done|by vm_compute]. }
  pose proof board_placed as Hp. unfold wp in Hw. fold board_freemem in Hw.
  destruct board_freemem as [ok b|]; [|done]. injection Hp as -> _ ?. by exists b.
Defined.
(** All boundaries are multiples of the least untyped object on the board. *)
Lemma board_cells : match board_freemem with
  | Done _ b => cells (resv_list (ndks b)) (board_boot_part :: freemem (ndks b))
  | Stuck _ => False end.
Proof.
  assert (∀ l, forallb (λ r, (r_start r mod 16 =? 0) && (r_end r mod 16 =? 0)) l = true → Forall cell l) as Hl.
  { intros l Ha. apply Forall_forall. intros r Hr. rewrite forallb_forall in Ha. apply list_elem_of_In, Ha in Hr.
    apply andb_prop in Hr as [?%Z.eqb_eq ?%Z.eqb_eq]. split; by apply Z.mod_divide. }
  assert (match board_freemem with
    | Done _ b => forallb (λ r, (r_start r mod 16 =? 0) && (r_end r mod 16 =? 0)) (resv_list (ndks b)) = true ∧
        forallb (λ r, (r_start r mod 16 =? 0) && (r_end r mod 16 =? 0)) (board_boot_part :: freemem (ndks b)) = true
    | Stuck _ => False end) as Hb by (by vm_compute).
  destruct board_freemem as [ok b|]; [|done]. destruct Hb as [H1 H2]. split_and!; [by apply Hl|by apply Hl|].
  by apply Z.mod_divide.
Qed.
Lemma memory_given_witness : ∃ b1 start, board_freemem = Done true b1 ∧ objects_placed start board_it 12 (rootserver b1) ∧
  cells (resv_list (ndks b1)) (board_boot_part :: freemem (ndks b1)) ∧
  ∀ c p b2, ndks b2 = ndks b1 → cap_get_capPtr c = Some p → slots_exist p (ctes (kern b2)) → 0 ≤ slot_pos_cur b2 ≤ cnode_size →
  wp (create_untypeds c) (λ ok b3, if ok then given_of p board_boot_part
    (given_memory avail_p_regs board_reserved board_devs board_boot_part start
      (rootserver_bytes 12 (arch_get_n_paging board_it))) b2 b3 else full b3) b2.
Proof.
  pose proof (memory_given_ok avail_p_regs board_reserved board_devs board_it 12 board_boot_part board_state
    board_map_ok board_ndks_ok (or_intror (conj (Z.le_refl 12) eq_refl)) eq_refl) as Hw.
  specialize (Hw ltac:(by vm_compute) board_boot_ok board_below).
  pose proof board_placed as Hp. pose proof board_cells as Hce. unfold wp at 1 in Hw. fold board_freemem in Hw.
  destruct board_freemem as [ok b|]; [|done]. injection Hp as -> _ _.
  destruct (Hw eq_refl) as (start & Hobj & _ & Hut). by exists b, start.
Defined.

(** ** Untyped objects of one region *)
Definition board_cnode : Z := 0xffffffc08fff6000.
Definition board_root_cap : cap := cap_cnode_cap 8 56 0 board_cnode.
Definition board_slots : boot_state :=
  set_kern (set_ctes (new_slots board_cnode 256 ∅) (kern board_state)) board_state.
Lemma board_slots_exist : slots_exist board_cnode (ctes (kern board_slots)).
Proof.
  assert (forallb (λ pos, bool_decide (is_Some (ctes (kern board_slots) !! SLOT_PTR board_cnode pos))) (seqZ 0 256) = true) as Hall
    by (by vm_compute).
  rewrite forallb_forall in Hall. intros pos Hpos. eapply bool_decide_eq_true_1, Hall.
  apply list_elem_of_In, elem_of_seqZ. change cnode_size with 256 in Hpos. lia.
Qed.
Lemma board_progress : progress board_cnode board_slots [] board_slots.
Proof. apply (made_nil board_cnode [] board_slots). by vm_compute. Qed.
Lemma create_untypeds_for_region_witness :
  let start := 0xFFFFFFC084100000 in
  wrap (start + 0x18000) = 0xFFFFFFC084118000 ∧
  wp (create_untypeds_for_region board_root_cap false (Region (wrap start) (wrap (start + 0x18000))) (slot_pos_cur board_slots))
    (region_post board_cnode board_slots [] false start 0x18000 board_slots) board_slots.
Proof.
  split; [by vm_compute|].
  eapply (create_untypeds_for_region_ok board_root_cap board_cnode board_slots eq_refl board_slots_exist); [|..|apply board_progress].
  all: by vm_compute.
Defined.
