(* ===== verification/PageTable.v ===== *)
(** * Page tables against the hardware's walk

    [sv39_walk] is the translation of the RISC-V privileged architecture, on
    physical addresses; the theorems show that what the kernel writes through
    [lookupPTSlot] and [unmapPage] is what the hardware then translates. *)
From S2P Require Import Prelude Words Platform State Budget CapOps CSpace VSpace MmuInv Example Machine.

(** ** The fields of an entry *)
(** An entry of a page: the page number above ten flag bits. *)
Definition pte_of (ppn : Z) (d a g u x w r v : bool) : Z :=
  pte_new ppn 0 (Z.b2z d) (Z.b2z a) (Z.b2z g) (Z.b2z u) (Z.b2z x) (Z.b2z w) (Z.b2z r) (Z.b2z v).
Lemma pte_of_split ppn d a g u x w r v :
  pte_of ppn d a g u x w r v = Z.lor (Z.shiftl (Z.land ppn (MASK 44)) 10) (pte_of 0 d a g u x w r v).
Proof. done. Qed.
Lemma pte_flags_bound d a g u x w r v : 0 ≤ pte_of 0 d a g u x w r v < 2 ^ 10.
Proof. by destruct d, a, g, u, x, w, r, v. Qed.
Lemma pte_of_fields ppn d a g u x w r v : 0 ≤ ppn < 2 ^ 44 →
  pte_get_ppn (pte_of ppn d a g u x w r v) = ppn ∧
  ∀ k, 0 ≤ k < 10 → Z.testbit (pte_of ppn d a g u x w r v) k = Z.testbit (pte_of 0 d a g u x w r v) k.
Proof.
  intros Hp. rewrite pte_of_split.
  destruct (shift_lor_fields (Z.land ppn (MASK 44)) (pte_of 0 d a g u x w r v) 10) as [Hs Hb];
    [done|apply pte_flags_bound|].
  split; [|done]. unfold pte_get_ppn. rewrite Hs. change (MASK 44) with (Z.ones 44). by rewrite !Z.land_ones, Z.mod_mod, Z.mod_small by lia.
Qed.
Lemma pte_of_word ppn d a g u x w r v : is_word (pte_of ppn d a g u x w r v).
Proof.
  rewrite pte_of_split. apply lor_word.
  - change (MASK 44) with (Z.ones 44). rewrite Z.land_ones, Z.shiftl_mul_pow2 by lia.
    pose proof (Z.mod_pos_bound ppn (2 ^ 44)). unfold is_word. lia.
  - pose proof (pte_flags_bound d a g u x w r v). unfold is_word. lia.
Qed.

(** ** The hardware *)
Section hardware.
Context `{Platform}.

Definition phys_word (s : kstate) (a : Z) : Z := wrap (default 0 (user_mem s !! ptrFromPAddr a)).

(** What a leaf entry found at [level] gives for a user access: the physical
    address, and whether reads, writes and instruction fetches are allowed. The
    hardware faults on an unaligned superpage, on pages not marked user or accessed,
    and on writes to pages not marked dirty. *)
Record translation := Translation { tr_paddr : Z; tr_bits : Z; tr_r : bool; tr_w : bool; tr_x : bool }.
Definition sv39_leaf (level : nat) (pte va : Z) : option translation :=
  let bits := 12 + 9 * Z.of_nat level in
  let ppn := Z.shiftr pte 10 mod 2 ^ 44 in
  let r := Z.testbit pte 1 in let w := Z.testbit pte 2 in let x := Z.testbit pte 3 in
  if negb (Z.testbit pte 0) || (negb r && w) then None else
  if negb (r || x) || negb (Z.testbit pte 4) || negb (Z.testbit pte 6) then None else
  if negb (ppn mod 2 ^ (9 * Z.of_nat level) =? 0) then None else
  Some (Translation (ppn * 2 ^ 12 + va mod 2 ^ bits) bits r (w && Z.testbit pte 7) x).
(** An entry with the valid bit and none of read, write and execute points to a table. *)
Definition sv39_pointer (pte : Z) : bool :=
  Z.testbit pte 0 && negb (Z.testbit pte 1) && negb (Z.testbit pte 2) && negb (Z.testbit pte 3).
Fixpoint sv39_walk (s : kstate) (level : nat) (a va : Z) : option translation :=
  let pte := phys_word s (a + 8 * (va / 2 ^ (12 + 9 * Z.of_nat level) mod 512)) in
  if sv39_pointer pte then
    match level with
    | O => None
    | S level' => sv39_walk s level' ((Z.shiftr pte 10 mod 2 ^ 44) * 2 ^ 12) va
    end
  else sv39_leaf level pte va.
(** The translation of a user address under a root page table. *)
Definition sv39 (s : kstate) (root va : Z) : option translation := sv39_walk s 2 (addrFromPPtr root) va.

Lemma sv39_pointer_pt pte : sv39_pointer pte = isPTEPageTable pte.
Proof.
  unfold sv39_pointer, isPTEPageTable, pte_get_valid, pte_get_read, pte_get_write, pte_get_execute.
  by destruct (Z.testbit pte 0), (Z.testbit pte 1), (Z.testbit pte 2), (Z.testbit pte 3).
Qed.
Lemma sv39_leaf_pointer level pte va : sv39_pointer pte = true → sv39_leaf level pte va = None.
Proof.
  unfold sv39_pointer, sv39_leaf.
  by destruct (Z.testbit pte 0), (Z.testbit pte 1), (Z.testbit pte 2), (Z.testbit pte 3).
Qed.
(** The pointer the kernel follows from an entry, and the slot of an index in it. *)
Lemma slot_addr a i : pte_index (ptrFromPAddr a) i = ptrFromPAddr (a + 8 * i).
Proof. unfold pte_index, ptrFromPAddr, wrap. rewrite Zplus_mod_idemp_l. f_equal. lia. Qed.
Lemma getPPtrFromHWPTE_addr pte :
  getPPtrFromHWPTE pte = ptrFromPAddr ((Z.shiftr pte 10 mod 2 ^ 44) * 2 ^ 12).
Proof.
  unfold getPPtrFromHWPTE, pte_get_ppn, seL4_PageTableBits. change (MASK 44) with (Z.ones 44).
  rewrite Z.land_ones, Z.shiftl_mul_pow2 by lia. f_equal. apply wrap_small.
  pose proof (Z.mod_pos_bound (Z.shiftr pte 10) (2 ^ 44)). unfold is_word. lia.
Qed.

(** ** The kernel's walk against the hardware's *)
Definition mem_word (s : kstate) (p : Z) : Z := wrap (default 0 (user_mem s !! p)).
Definition level_bits (l : nat) : Z := 12 + 9 * Z.of_nat l.
(** [s'] has the page tables of [s], whatever its leaf entries. *)
Definition same_tables (s s' : kstate) : Prop :=
  ∀ p, isPTEPageTable (mem_word s p) = true → mem_word s' p = mem_word s p.

Lemma load_pte_spec s p : load_pte p s = Done (mem_word s p) s.
Proof. unfold load_pte, load_word, gets, mem_word. by rewrite Z.mul_0_r, Z.add_0_r. Qed.
Lemma same_page (l level : nat) va va' : (l ≤ level)%nat →
  va / 2 ^ level_bits l = va' / 2 ^ level_bits l → va / 2 ^ level_bits level = va' / 2 ^ level_bits level.
Proof.
  intros Hl Hv. unfold level_bits in *. replace (12 + 9 * Z.of_nat level) with (12 + 9 * Z.of_nat l + 9 * (Z.of_nat level - Z.of_nat l)) by lia.
  rewrite Z.pow_add_r, <-!Z.div_div by lia. by rewrite Hv.
Qed.

Lemma lookupPTSlot_loop_spec s vptr level : (level ≤ 2)%nat → ∀ a, ∃ l slot, (l ≤ level)%nat ∧
  lookupPTSlot_loop level (ptrFromPAddr a) vptr (level_bits level) s = Done (slot, level_bits l) s ∧
  (l ≠ 0%nat → isPTEPageTable (mem_word s slot) = false) ∧
  ∀ s' va, same_tables s s' → va / 2 ^ level_bits l = vptr / 2 ^ level_bits l →
    (l ≠ 0%nat → isPTEPageTable (mem_word s' slot) = false) →
    sv39_walk s' level a va = sv39_leaf l (mem_word s' slot) va.
Proof.
  intros Hle. assert (∀ (l : nat) a va, (l ≤ 2)%nat →
    pte_index (ptrFromPAddr a) (Z.land (Z.shiftr va (level_bits l)) (MASK PT_INDEX_BITS)) =
    ptrFromPAddr (a + 8 * (va / 2 ^ level_bits l mod 512))) as Hslot.
  { intros l a va Hl. rewrite slot_addr, land_MASK, Z.shiftr_div_pow2 by (unfold PT_INDEX_BITS, level_bits; lia). done. }
  induction level as [|level IH]; intros a.
  - eexists 0%nat, _. split_and!; [done| |done|].
    + simpl. unfold mbind, M_bind. rewrite load_pte_spec. done.
    + intros s' va Hs Hva _. rewrite Hslot by lia. simpl. fold (level_bits 0). rewrite Hva. set (pte := phys_word _ _).
      change (mem_word _ _) with pte. destruct (sv39_pointer pte) eqn:Hp; [by rewrite sv39_leaf_pointer|done].
  - simpl lookupPTSlot_loop. rewrite Hslot by lia. set (slot := ptrFromPAddr _).
    destruct (isPTEPageTable (mem_word s slot)) eqn:Hpt.
    + destruct (IH ltac:(lia) ((Z.shiftr (mem_word s slot) 10 mod 2 ^ 44) * 2 ^ 12)) as (l & slot' & Hl & Hk & Hnt & Hw).
      exists l, slot'. split_and!; [lia| |done|].
      * unfold mbind, M_bind. rewrite load_pte_spec, Hpt, getPPtrFromHWPTE_addr.
        replace (level_bits (S level) -w PT_INDEX_BITS) with (level_bits level); [done|].
        symmetry. unfold level_bits, PT_INDEX_BITS. rewrite wrap_small; unfold is_word; lia.
      * intros s' va Hs Hva Hf. simpl. fold (level_bits (S level)).
        rewrite (same_page l (S level) va vptr) by (done || lia). unfold phys_word. fold slot. fold (mem_word s' slot).
        rewrite (Hs slot Hpt), sv39_pointer_pt, Hpt. by apply Hw.
    + exists (S level), slot. split_and!; [done| |done|].
      * unfold mbind, M_bind. by rewrite load_pte_spec, Hpt.
      * intros s' va Hs Hva Hf. simpl. fold (level_bits (S level)). rewrite Hva. unfold phys_word. fold slot.
        fold (mem_word s' slot). by rewrite sv39_pointer_pt, Hf by done.
Qed.

Lemma lookupPTSlot_spec s root vptr : is_word root → ∃ l slot, (l ≤ 2)%nat ∧
  lookupPTSlot root vptr s = Done (slot, level_bits l) s ∧ (l ≠ 0%nat → isPTEPageTable (mem_word s slot) = false) ∧
  ∀ s' va, same_tables s s' → va / 2 ^ level_bits l = vptr / 2 ^ level_bits l →
    (l ≠ 0%nat → isPTEPageTable (mem_word s' slot) = false) → sv39 s' root va = sv39_leaf l (mem_word s' slot) va.
Proof.
  intros Hr. pose proof (lookupPTSlot_loop_spec s vptr 2 ltac:(lia) (addrFromPPtr root)) as Hl.
  by rewrite (ptrFromPAddr_inv root Hr) in Hl.
Qed.

(** Writing a leaf entry over an entry that is no table. *)
Lemma same_tables_write s s' slot pte : isPTEPageTable (mem_word s slot) = false →
  user_mem s' = <[slot := pte]> (user_mem s) → same_tables s s'.
Proof.
  intros Hs Hm p Hp. unfold mem_word. rewrite Hm, lookup_insert_ne; [done|]. intros ->. congruence.
Qed.
Lemma mem_word_write s s' slot pte : is_word pte → user_mem s' = <[slot := pte]> (user_mem s) → mem_word s' slot = pte.
Proof. intros Hp Hm. unfold mem_word. rewrite Hm, lookup_insert_eq. by apply wrap_small. Qed.

(** ** Mapping a page *)
Definition user_translation (paddr bits va : Z) (exec : bool) (rights : Z) : option translation :=
  if (rights =? VMKernelOnly) && negb exec then None
  else Some (Translation (paddr + va mod 2 ^ bits) bits (negb (rights =? VMKernelOnly)) (rights =? VMReadWrite) exec).
Lemma leaf_of l ppn exec w r va : 0 ≤ ppn < 2 ^ 44 → ppn mod 2 ^ (9 * Z.of_nat l) = 0 → (w = true → r = true) →
  sv39_leaf l (pte_of ppn true true false true exec w r true) va =
  if negb (r || exec) then None else Some (Translation (ppn * 2 ^ 12 + va mod 2 ^ level_bits l) (level_bits l) r w exec).
Proof.
  intros Hp Ha Hwr. destruct (pte_of_fields ppn true true false true exec w r true Hp) as [Hppn Hb].
  unfold sv39_leaf. unfold pte_get_ppn in Hppn. change (MASK 44) with (Z.ones 44) in Hppn. rewrite Z.land_ones in Hppn by lia.
  rewrite Hppn, Ha, !Hb by lia. destruct exec, w, r; try done; by specialize (Hwr eq_refl).
Qed.
Lemma makeUserPTE_leaf l paddr exec rights va : (l ≤ 2)%nat → 0 ≤ paddr < 2 ^ 56 → paddr mod 2 ^ level_bits l = 0 →
  is_word (makeUserPTE paddr exec rights) ∧ isPTEPageTable (makeUserPTE paddr exec rights) = false ∧
  sv39_leaf l (makeUserPTE paddr exec rights) va = user_translation paddr (level_bits l) va exec rights.
Proof.
  intros Hl Hp Ha. apply Z.mod_divide in Ha as [q ->]; [|unfold level_bits; lia].
  assert (Z.shiftr (q * 2 ^ level_bits l) seL4_PageBits = q * 2 ^ (9 * Z.of_nat l)) as Hq.
  { rewrite Z.shiftr_div_pow2 by done. unfold level_bits, seL4_PageBits. rewrite (Z.add_comm 12), Z.pow_add_r by lia.
    rewrite Z.mul_assoc, Z.div_mul by lia. done. }
  assert (0 ≤ q * 2 ^ (9 * Z.of_nat l) < 2 ^ 44) as Hr.
  { unfold level_bits in Hp. rewrite Z.pow_add_r in Hp by lia. lia. }
  unfold makeUserPTE, user_translation, RISCVGetWriteFromVMRights, RISCVGetReadFromVMRights. rewrite Hq.
  set (ppn := q * 2 ^ (9 * Z.of_nat l)) in *.
  assert (∀ w r, (w = true → r = true) → sv39_leaf l (pte_of ppn true true false true exec w r true) va =
    if negb (r || exec) then None else Some (Translation (q * 2 ^ level_bits l + va mod 2 ^ level_bits l) (level_bits l) r w exec)) as Hleaf.
  { intros w r Hwr. rewrite leaf_of by (done || subst ppn; apply Z.mod_mul; lia). subst ppn.
    replace (q * 2 ^ (9 * Z.of_nat l) * 2 ^ 12) with (q * 2 ^ level_bits l); [done|].
    unfold level_bits. rewrite Z.pow_add_r by lia. ring. }
  assert (∀ w r, isPTEPageTable (pte_of ppn true true false true exec w r true) = negb (r || w || exec)) as Hpt.
  { intros w r. unfold isPTEPageTable, pte_get_valid, pte_get_read, pte_get_write, pte_get_execute.
    rewrite !(proj2 (pte_of_fields _ _ _ _ _ _ _ _ _ Hr)) by lia. by destruct exec, w, r. }
  assert (∀ w r, is_word (pte_of ppn true true false true exec w r true)) as Hw by (intros; apply pte_of_word).
  destruct (Z.eqb_spec rights VMKernelOnly) as [->|Hk]; [destruct exec; [|done]|destruct (rights =? VMReadWrite), exec].
  all: split_and!; first [apply Hw|apply Hpt|by apply (Hleaf false false)|by apply (Hleaf true true)|by apply (Hleaf false true)].
Qed.

(** C24: Mapping a frame writes its capability and one entry; afterwards the
    hardware translates every address of the page to the address at the same offset
    in the frame, with exactly the access the rights and attributes give, and every
    other entry is unchanged. *)
Theorem page_map_translates s root vaddr c ctSlot paddr exec rights ptSlot bits :
  is_word root → lookupPTSlot root vaddr s = Done (ptSlot, bits) s →
  isPTEPageTable (mem_word s ptSlot) = false → is_Some (ctes s !! ctSlot) →
  0 ≤ paddr < 2 ^ 56 → paddr mod 2 ^ bits = 0 →
  ∃ s', performPageInvocationMapPTE c ctSlot (makeUserPTE paddr exec rights) ptSlot s = Done EXCEPTION_NONE s' ∧
    (∀ va, va / 2 ^ bits = vaddr / 2 ^ bits → sv39 s' root va = user_translation paddr bits va exec rights) ∧
    (∀ p, p ≠ ptSlot → mem_word s' p = mem_word s p) ∧ cte_cap <$> ctes s' !! ctSlot = Some c.
Proof.
  intros Hr Hlu Hpt [e He] Hp Ha. destruct (lookupPTSlot_spec s root vaddr Hr) as (l & slot & Hl & Hlu' & _ & Hwalk).
  rewrite Hlu in Hlu'. simplify_eq.
  destruct (makeUserPTE_leaf l paddr exec rights 0 Hl Hp Ha) as (Hw & Hnt & _).
  set (s1 := set_user_mem (<[slot := makeUserPTE paddr exec rights]> (user_mem s))
    (set_ctes (<[ctSlot := set_cte_cap c e]> (ctes s)) s)).
  exists s1. split_and!.
  - unfold performPageInvocationMapPTE, updatePTE, store_pte, store_word, mod_cte, get_cte, modify, mbind, M_bind, get_state, deref.
    rewrite He. simpl. by rewrite Z.mul_0_r, Z.add_0_r.
  - intros va Hva. assert (mem_word s1 slot = makeUserPTE paddr exec rights) as Hs1 by (by eapply (mem_word_write s)).
    rewrite Hwalk, Hs1; [by apply makeUserPTE_leaf|by eapply same_tables_write|done|by rewrite Hs1].
  - intros p Hne. unfold mem_word. simpl. by rewrite lookup_insert_ne.
  - simpl. by rewrite lookup_insert_eq.
Qed.

(** ** Unmapping a page *)
Lemma sv39_leaf_some l pte va t : sv39_leaf l pte va = Some t → tr_bits t = level_bits l ∧
  tr_paddr t = pte_get_ppn pte * 2 ^ 12 + va mod 2 ^ level_bits l ∧ pte_get_valid pte = true ∧ isPTEPageTable pte = false.
Proof.
  intros Hs. assert (sv39_pointer pte = false) as Hp.
  { destruct (sv39_pointer pte) eqn:Hp; [|done]. by rewrite sv39_leaf_pointer in Hs. }
  rewrite <-sv39_pointer_pt, Hp. revert Hs. unfold sv39_leaf, pte_get_ppn, pte_get_valid. change (MASK 44) with (Z.ones 44).
  rewrite Z.land_ones by lia. destruct (Z.testbit pte 0); [|done]. simpl.
  repeat case_match; try done; intros [= <-]; by split_and!.
Qed.
(** Addresses of the page of a translation are translated by the same entry. *)
Definition page_base (t : translation) (va : Z) : Z := tr_paddr t - va mod 2 ^ tr_bits t.
Lemma sv39_leaf_page l pte va va' t : sv39_leaf l pte va = Some t →
  ∃ t', sv39_leaf l pte va' = Some t' ∧ tr_bits t' = tr_bits t ∧ page_base t' va' = page_base t va.
Proof.
  unfold sv39_leaf. repeat case_match; try done; intros [= <-]; eexists; (split_and!; [done..|]);
    unfold page_base; simpl; lia.
Qed.
Lemma sv39_walk_page s level : ∀ a va va' t, sv39_walk s level a va = Some t → ∃ l, (l ≤ level)%nat ∧
  tr_bits t = level_bits l ∧ (va / 2 ^ level_bits l = va' / 2 ^ level_bits l →
    ∃ t', sv39_walk s level a va' = Some t' ∧ tr_bits t' = tr_bits t ∧ page_base t' va' = page_base t va).
Proof.
  assert (∀ level a va va' t, let pte := phys_word s (a + 8 * (va / 2 ^ level_bits level mod 512)) in
    sv39_pointer pte = false → sv39_leaf level pte va = Some t → ∃ l, (l ≤ level)%nat ∧
    tr_bits t = level_bits l ∧ (va / 2 ^ level_bits l = va' / 2 ^ level_bits l →
    ∃ t', sv39_walk s level a va' = Some t' ∧ tr_bits t' = tr_bits t ∧ page_base t' va' = page_base t va)) as Hleaf.
  { clear level. intros level a va va' t pte Hp Ht. exists level. split_and!; [done|by apply sv39_leaf_some in Ht as [? _]|].
    intros Hva. destruct level; simpl; [fold (level_bits 0)|fold (level_bits (S level))];
      rewrite <-Hva; subst pte; rewrite Hp; by apply sv39_leaf_page. }
  induction level as [|level IH]; intros a va va' t; simpl; case_match eqn:Hp; try done.
  - by apply (Hleaf 0%nat a).
  - intros Ht. destruct (IH _ va va' t Ht) as (l & Hl & Hb & Hva). exists l. split_and!; [lia|done|]. intros Hpage.
    fold (level_bits (S level)) in *. rewrite <-(same_page l (S level) va va') by (done || lia). rewrite Hp. by apply Hva.
  - by apply (Hleaf (S level) a).
Qed.

(** The page a frame is mapped at, as the hardware sees it. *)
Definition maps_page (s : kstate) (root va bits paddr : Z) : Prop :=
  ∃ t, sv39 s root va = Some t ∧ tr_bits t = bits ∧ page_base t va = paddr.

Lemma maps_page_same s root va va' bits paddr : va / 2 ^ bits = va' / 2 ^ bits →
  maps_page s root va bits paddr → maps_page s root va' bits paddr.
Proof.
  intros Hva (t & Ht & Hb & Hpb). destruct (sv39_walk_page s 2 _ va va' t Ht) as (l & _ & Hl & Hp).
  rewrite Hb in Hl. rewrite <-Hl in Hp. destruct (Hp Hva) as (t' & Ht' & Hb' & Hpb'). exists t'. split_and!; [done|congruence..].
Qed.
(** An entry that names the frame at a physical address, as [unmapPage] tests it. *)
Definition entry_maps (pte paddr : Z) : Prop :=
  pte_get_valid pte = true ∧ isPTEPageTable pte = false ∧ pte_get_ppn pte * 2 ^ 12 = paddr.
Lemma ppn_shift pte : pte_get_ppn pte <<w seL4_PageBits = pte_get_ppn pte * 2 ^ 12.
Proof.
  unfold pte_get_ppn, seL4_PageBits. change (MASK 44) with (Z.ones 44). rewrite Z.land_ones, Z.shiftl_mul_pow2 by lia.
  apply wrap_small. pose proof (Z.mod_pos_bound (Z.shiftr pte 10) (2 ^ 44)). unfold is_word. lia.
Qed.

(** [unmapPage] in terms of the entry its walk ends at. *)
Lemma unmapPage_spec s size asid vptr pptr slot l :
  asid_in_range s asid → asid_root s asid ≠ NULL → 0 ≤ size ≤ 2 →
  lookupPTSlot (asid_root s asid) vptr s = Done (slot, level_bits l) s →
  let hit := level_bits l = level_bits (Z.to_nat size) ∧ entry_maps (mem_word s slot) (addrFromPPtr pptr) in
  (hit ∧ unmapPage size asid vptr pptr s = Done () (set_user_mem (<[slot := pte_pte_invalid_new]> (user_mem s)) s)) ∨
  (¬ hit ∧ unmapPage size asid vptr pptr s = Done () s).
Proof.
  intros Hin Hroot Hsz Hlu hit.
  assert (pageBitsForSize size = Some (level_bits (Z.to_nat size))) as Hbits.
  { assert (size = 0 ∨ size = 1 ∨ size = 2) as [->|[->| ->]] by lia; done. }
  unfold unmapPage, lift, hit, entry_maps, mbind, M_bind, mret, M_ret. rewrite findVSpaceForASID_spec by done.
  rewrite (proj2 (Z.eqb_neq _ _) Hroot). cbn [status_ok negb]. rewrite Hlu, Hbits.
  destruct (Z.eqb_spec (level_bits l) (level_bits (Z.to_nat size))); cbn [negb]; [|right; naive_solver].
  rewrite load_pte_spec, ppn_shift. destruct (pte_get_valid _); cbn [negb orb]; [|right; naive_solver].
  destruct (isPTEPageTable _); cbn [orb]; [right; naive_solver|].
  destruct (Z.eqb_spec (pte_get_ppn (mem_word s slot) * 2 ^ 12) (addrFromPPtr pptr)) as [->|]; cbn [negb]; [|right; naive_solver].
  left. split; [done|]. unfold store_pte, store_word, modify. by rewrite Z.mul_0_r, Z.add_0_r.
Qed.

(** C14: Unmapping always returns; afterwards no address of the page translates to
    the frame with the size unmapped, and only entries that named the frame were
    cleared. *)
Theorem unmapPage_ok s size asid vptr pptr :
  asid_in_range s asid → asid_root s asid ≠ NULL → 0 ≤ size ≤ 2 →
  let bits := level_bits (Z.to_nat size) in
  ∃ s', unmapPage size asid vptr pptr s = Done () s' ∧
    (∀ va, va / 2 ^ bits = vptr / 2 ^ bits → ¬ maps_page s' (asid_root s asid) va bits (addrFromPPtr pptr)) ∧
    (∀ p, mem_word s' p ≠ mem_word s p →
       mem_word s' p = pte_pte_invalid_new ∧ entry_maps (mem_word s p) (addrFromPPtr pptr)).
Proof.
  intros Hin Hroot Hsz bits.
  destruct (lookupPTSlot_spec s (asid_root s asid) vptr) as (l & slot & Hl & Hlu & Hnt & Hwalk).
  { unfold asid_root in *. repeat case_match; try done. apply wrap_word. }
  destruct (unmapPage_spec s size asid vptr pptr slot l) as [[[Hb He] Hu]|[Hn Hu]]; [done..| |]; rewrite Hu; eexists; split; try done.
  - set (s' := set_user_mem _ s). assert (mem_word s' slot = pte_pte_invalid_new) as Hs' by (by eapply (mem_word_write s)).
    split.
    + intros va Hva (t & Ht & _)%(maps_page_same _ _ _ vptr); [|done].
      rewrite (Hwalk s' vptr), Hs' in Ht; [done|eapply same_tables_write; [apply He|done]|done|by rewrite Hs'].
    + intros p Hp. destruct (decide (p = slot)) as [->|Hne]; [done|]. destruct Hp. unfold mem_word. simpl. by rewrite lookup_insert_ne.
  - split; [|done]. intros va Hva (t & Ht & Hb & Hpb)%(maps_page_same _ _ _ vptr); [|done]. apply Hn.
    rewrite (Hwalk s vptr) in Ht by done. apply sv39_leaf_some in Ht as (Hb' & Hpa & Hv & Hpt).
    split; [by rewrite <-Hb'|]. split_and!; [done..|]. unfold page_base in Hpb. rewrite Hb' in Hpb. lia.
Qed.
End hardware.

(** ** A concrete address space

    ASID 1 with three levels of tables at physical [0x81000000], [0x81001000] and [0x81002000]. *)
Section example.
#[local] Existing Instances example_platform example_platform_ok.

Definition vm_pool : Z := ptrFromPAddr 0x81003000.
Definition vm_table (i : Z) : Z := ptrFromPAddr (0x81000000 + 0x1000 * i).
Definition vm_state : kstate :=
  set_riscvKSASIDTable (<[0%nat := vm_pool]> (replicate 128 NULL))
    (set_user_mem (list_to_map
       [(vm_pool + 8, vm_table 0); (vm_table 0, makeTablePTE 0x81001000); (vm_table 1, makeTablePTE 0x81002000);
        (vm_table 2 + 8 * 6, makeUserPTE 0x82001000 false VMReadOnly)]) ex_state).

Lemma page_map_witness : ∃ s',
  performPageInvocationMapPTE (cap_frame_cap 1 (ptrFromPAddr 0x82000000) 0 3 false 0x5000) (slot2 1)
    (makeUserPTE 0x82000000 false VMReadWrite) (vm_table 2 + 8 * 5) vm_state = Done EXCEPTION_NONE s' ∧
  sv39 s' (vm_table 0) 0x5123 = Some (Translation 0x82000123 12 true true false) ∧
  sv39 s' (vm_table 0) 0x6123 = Some (Translation 0x82001123 12 true false false).
Proof.
  destruct (page_map_translates vm_state (vm_table 0) 0x5000 (cap_frame_cap 1 (ptrFromPAddr 0x82000000) 0 3 false 0x5000)
    (slot2 1) 0x82000000 false VMReadWrite (vm_table 2 + 8 * 5) 12) as (s' & Hs' & Hmap & _ & _);
    [by vm_compute|by vm_compute|by vm_compute|by vm_compute; eauto|done|done|].
  exists s'. split_and!; [done|by apply (Hmap 0x5123)|]. vm_compute in Hs'. simplify_eq. by vm_compute.
Defined.

Lemma unmapPage_witness : maps_page vm_state (vm_table 0) 0x6123 12 0x82001000 ∧
  ∃ s', unmapPage 0 1 0x6000 (ptrFromPAddr 0x82001000) vm_state = Done () s' ∧ sv39 s' (vm_table 0) 0x6123 = None ∧
  ¬ maps_page s' (vm_table 0) 0x6123 12 0x82001000.
Proof.
  split; [eexists; by vm_compute|].
  destruct (unmapPage_ok vm_state 0 1 0x6000 (ptrFromPAddr 0x82001000)) as (s' & Hs' & Hmap & _);
    [by vm_compute; lia|by vm_compute|done|].
  exists s'. split_and!; [done| |by apply (Hmap 0x6123)]. vm_compute in Hs'. simplify_eq. by vm_compute.
Defined.
End example.
