(* ===== verification/DomainSpec.v ===== *)
(** * The domain schedule

    [nextDomain] cycles through the entries from the start index up to the first
    end marker; configuring an entry stores exactly the given domain and duration. *)
From S2P Require Import Prelude Words Platform State Machine Keeps Budget CapOps Thread Domain Frames Invariant InvariantCore InvariantIpc InvariantDelete InvariantKernel Example KernelSpec.

Section domains.
Context `{PlatformOk} `{PrioBound}.

(** [n] domain switches *)
Fixpoint nextDomain_times (n : nat) : K unit :=
  match n with O => mret () | S n' => nextDomain;; nextDomain_times n' end.
Lemma nextDomain_times_app n m s s' s'' :
  nextDomain_times n s = Done () s' → nextDomain_times m s' = Done () s'' → nextDomain_times (n + m) s = Done () s''.
Proof.
  revert s. induction n as [|n IH]; intros s; simpl; [by intros [= ->]|].
  unfold mbind, M_bind. destruct (nextDomain s) as [[] s1|]; [|done]. apply IH.
Qed.

(** The current domain is the one of the current entry. *)
Definition in_entry (s : kstate) : Prop :=
  ∃ d, ksDomSchedule s !! Z.to_nat (ksDomScheduleIdx s) = Some d ∧
    ksCurDomain s = dschedule_domain d ∧ ksDomainTime s = dschedule_duration d ∧ 0 < dschedule_duration d.
(** After some switches: the schedule is the same and entry [i] is current. *)
Definition switched (s s' : kstate) (i : Z) : Prop :=
  kernel_inv s' ∧ ksDomScheduleIdx s' = i ∧ in_entry s' ∧ ksDomSchedule s' = ksDomSchedule s ∧
  ksDomScheduleStart s' = ksDomScheduleStart s.

Lemma nextDomain_switched s : kernel_inv s → ∃ s', nextDomain s = Done () s' ∧ switched s s' (next_schedule_idx s).
Proof.
  intros HI. destruct (nextDomain_spec s HI) as (d & Hd & Hi & Hdom & Hdur & E). rewrite E.
  eexists. split; [done|]. split_and!; try done; [by apply with_domain_inv|]. by exists d.
Qed.
Lemma switched_trans s s' s'' i j : switched s s' i → switched s' s'' j → switched s s'' j.
Proof. intros (?&?&?&Hs&Ht) (?&?&?&Hs'&Ht'). split_and!; congruence. Qed.

(** The start entry is reached. *)
Lemma reach_start (m : nat) : ∀ s, kernel_inv s → CONFIG_NUM_DOMAIN_SCHEDULES - 1 - ksDomScheduleIdx s = Z.of_nat m →
  ∃ n s', (1 ≤ n ≤ m)%nat ∧ nextDomain_times n s = Done () s' ∧ switched s s' (ksDomScheduleStart s).
Proof.
  induction m as [|m IH]; intros s HI Hm.
  { pose proof (ki_schedule _ HI) as (_ & _ & _ & _ & _ & ?). lia. }
  pose proof (ki_schedule _ HI) as (_ & _ & Hend & _ & _ & Hidx).
  destruct (nextDomain_switched s HI) as (s1 & E & Hs1). unfold next_schedule_idx in Hs1. case_bool_decide as Hd.
  - exists 1%nat, s1. split; [lia|]. split; [|done]. simpl. unfold mbind, M_bind. by rewrite E.
  - assert (m ≠ 0%nat).
    { intros ->. replace (ksDomScheduleIdx s + 1) with (CONFIG_NUM_DOMAIN_SCHEDULES - 1) in Hd by lia. by rewrite Hend in Hd. }
    pose proof Hs1 as (HI1 & Hi1 & _ & _ & Hst). destruct (IH s1 HI1) as (n & s' & Hn & E' & Hs'); [lia|].
    exists (S n), s'. split; [lia|]. split; [simpl; unfold mbind, M_bind; by rewrite E|].
    rewrite <-Hst. by apply (switched_trans _ _ _ _ _ Hs1).
Qed.
(** From an entry, the entries that follow it without a marker. *)
Lemma reach_from (k : nat) : ∀ s, kernel_inv s → in_entry s →
  (∀ i, ksDomScheduleIdx s < i ≤ ksDomScheduleIdx s + Z.of_nat k → ksDomSchedule s !! Z.to_nat i ≠ Some 0) →
  ∃ s', nextDomain_times k s = Done () s' ∧ switched s s' (ksDomScheduleIdx s + Z.of_nat k).
Proof.
  induction k as [|k IH]; intros s HI He Hk.
  { exists s. split; [done|]. split_and!; try done. lia. }
  destruct (nextDomain_switched s HI) as (s1 & E & Hs1). unfold next_schedule_idx in Hs1.
  rewrite bool_decide_eq_false_2 in Hs1 by (apply Hk; lia).
  pose proof Hs1 as (HI1 & Hi1 & He1 & Hsch & _). destruct (IH s1 HI1 He1) as (s' & E' & Hs').
  { intros i Hi. rewrite Hsch. apply Hk. lia. }
  exists s'. split; [simpl; unfold mbind, M_bind; by rewrite E|].
  replace (ksDomScheduleIdx s + Z.of_nat (S k)) with (ksDomScheduleIdx s1 + Z.of_nat k) by lia. by eapply switched_trans.
Qed.

(** C25: Every entry of the domain schedule between the start index and the
    next end marker becomes the current one after at most two rounds of domain
    switches, with its domain and a positive duration. *)
Theorem domain_schedule_live s j : kernel_inv s → ksDomScheduleStart s ≤ j < CONFIG_NUM_DOMAIN_SCHEDULES →
  (∀ i, ksDomScheduleStart s ≤ i ≤ j → ksDomSchedule s !! Z.to_nat i ≠ Some 0) →
  ∃ n s' d, Z.of_nat n ≤ 2 * CONFIG_NUM_DOMAIN_SCHEDULES ∧ nextDomain_times n s = Done () s' ∧
    ksDomSchedule s !! Z.to_nat j = Some d ∧ ksDomScheduleIdx s' = j ∧
    ksCurDomain s' = dschedule_domain d ∧ ksDomainTime s' = dschedule_duration d ∧ 0 < ksDomainTime s'.
Proof.
  intros HI Hj Hk. pose proof (ki_schedule _ HI) as (_ & _ & _ & Hst & _ & Hidx).
  destruct (reach_start (Z.to_nat (CONFIG_NUM_DOMAIN_SCHEDULES - 1 - ksDomScheduleIdx s)) s HI) as (n & s1 & Hn & E & Hs1); [lia|].
  pose proof Hs1 as (HI1 & Hi1 & He1 & Hsch & _).
  destruct (reach_from (Z.to_nat (j - ksDomScheduleStart s)) s1 HI1 He1) as (s' & E' & Hs').
  { intros i Hi. rewrite Hsch. apply Hk. lia. }
  destruct (switched_trans _ _ _ _ _ Hs1 Hs') as (_ & Hi & (d & Hd & Hdom & Hdur & Hpos) & Hs & _).
  replace (ksDomScheduleIdx s1 + Z.of_nat (Z.to_nat (j - ksDomScheduleStart s))) with j in Hi by lia.
  rewrite Hi, Hs in Hd. eexists _, s', d. split_and!; [|by eapply nextDomain_times_app|done..|by rewrite Hdur]. lia.
Qed.

(** Configuring an entry of the domain schedule stores a domain and a
    duration that are read back exactly, and leaves the other entries alone. *)
Theorem domain_configure_roundtrip s index domain duration :
  kernel_inv s → 0 ≤ index < CONFIG_NUM_DOMAIN_SCHEDULES → 0 ≤ domain < numDomains → 0 ≤ duration ≤ DSCHED_MAX_DURATION →
  ∃ s' d, invokeDomainScheduleConfigure index domain duration s = Done () s' ∧ get_dschedule index s' = Done d s' ∧
    dschedule_domain d = domain ∧ dschedule_duration d = duration ∧
    ∀ i, 0 ≤ i → i ≠ index → ksDomSchedule s' !! Z.to_nat i = ksDomSchedule s !! Z.to_nat i.
Proof.
  intros HI Hi Hdom Hdur. pose proof (ki_schedule _ HI) as (Hl & _). pose proof num_domains_ok as Hnd.
  destruct (dschedule_make_fields domain duration) as [Hd1 Hd2]; [lia|done|].
  destruct (lookup_lt_is_Some_2 (ksDomSchedule s) (Z.to_nat index)) as [d0 Hd0]; [lia|].
  unfold invokeDomainScheduleConfigure, get_dschedule, modify, mbind, M_bind, get_state, deref. rewrite Hd0.
  eexists _, (dschedule_make domain duration). split; [done|]. simpl. rewrite list_lookup_insert_eq by lia.
  split_and!; [done..|]. intros i Hi0 Hne. rewrite list_lookup_insert_ne; [done|lia].
Qed.
End domains.

Section example.
#[local] Existing Instances example_platform example_platform_ok ex_bound.
Lemma domain_schedule_witness : ∃ n s' d, Z.of_nat n ≤ 4 ∧ nextDomain_times n ex_system = Done () s' ∧
  ksDomSchedule ex_system !! 0%nat = Some d ∧ ksDomainTime s' = 1.
Proof.
  destruct (domain_schedule_live ex_system 0 ex_system_inv) as (n & s' & d & Hn & E & Hd & _ & _ & Ht & _); [done| |].
  { intros i Hi. assert (i = 0) as -> by (change (0 ≤ i ≤ 0) in Hi; lia). done. }
  exists n, s', d. split_and!; [done..|]. vm_compute in Hd. simplify_eq. done.
Defined.
Lemma domain_configure_witness : ∃ s' d, invokeDomainScheduleConfigure 0 0 77 ex_system = Done () s' ∧
  get_dschedule 0 s' = Done d s' ∧ dschedule_duration d = 77.
Proof.
  destruct (domain_configure_roundtrip ex_system 0 0 77 ex_system_inv) as (s' & d & E & Hd & _ & Ht & _); [done..|].
  by exists s', d.
Defined.
End example.
