(* ===== verification/UntypedSpec.v ===== *)
(** * Placing objects in untyped memory

    Where [decodeUntypedInvocation] puts new objects: inside the untyped region, past
    what is already in use, aligned to their size; that it reports a lack of memory only
    when no such place exists; and what [invokeUntyped_Retype] does with the place. *)
From S2P Require Import Prelude Words Platform State Keeps RefillList Sporadic Budget Queues QueueSpec ReadyQueues CapOps CSpace VSpace Thread CNode Message SchedContext Reply Notification Endpoint Delete CNodeInv Untyped Example Machine Frames.

(** ** Alignment *)
Lemma alignUp_ceil x n : 0 ≤ n < 64 → 0 ≤ x → x + 2 ^ n ≤ 2 ^ 64 → alignUp x n = (x + (2 ^ n - 1)) / 2 ^ n * 2 ^ n.
Proof.
  intros Hn Hx Hw. unfold alignUp. fold (MASK n). rewrite land_wnot_MASK by (done || apply wrap_word).
  rewrite MASK_pow by done. rewrite wrap_small; [done|]. assert (0 < 2 ^ n) by lia. unfold is_word. lia.
Qed.

(** ** The region of an untyped capability *)
Definition untyped_ok (free bits ptr : Z) : Prop :=
  seL4_MinUntypedBits ≤ bits ≤ seL4_MaxUntypedBits ∧ 0 ≤ ptr ∧ ptr mod 2 ^ bits = 0 ∧ ptr + 2 ^ bits < 2 ^ 64 ∧
  0 ≤ free ≤ 2 ^ (bits - seL4_MinUntypedBits).
(** [n] objects of [2^os] bytes can be put at [base]. *)
Definition fits (free bits ptr os n base : Z) : Prop :=
  ptr + free * 2 ^ seL4_MinUntypedBits ≤ base ∧ base mod 2 ^ os = 0 ∧ base + n * 2 ^ os ≤ ptr + 2 ^ bits.

Lemma free_offset free bits ptr : untyped_ok free bits ptr →
  FREE_INDEX_TO_OFFSET free = free * 2 ^ seL4_MinUntypedBits ∧ free * 2 ^ seL4_MinUntypedBits ≤ 2 ^ bits ∧
  GET_FREE_REF ptr free = wrap (ptr + free * 2 ^ seL4_MinUntypedBits).
Proof.
  intros (Hb & Hp & _ & Hw & Hf).
  assert (free * 2 ^ seL4_MinUntypedBits ≤ 2 ^ bits) as Hle.
  { replace bits with (bits - seL4_MinUntypedBits + seL4_MinUntypedBits) at 1 by lia.
    rewrite Z.pow_add_r by (unfold seL4_MinUntypedBits in *; lia). apply Z.mul_le_mono_nonneg_r; [done|lia]. }
  assert (FREE_INDEX_TO_OFFSET free = free * 2 ^ seL4_MinUntypedBits) as Ho.
  { unfold FREE_INDEX_TO_OFFSET. rewrite Z.shiftl_mul_pow2 by done. apply wrap_small. unfold is_word.
    assert (2 ^ bits < 2 ^ 64) by (apply Z.pow_lt_mono_r; unfold seL4_MaxUntypedBits in *; lia).
    change (2 ^ seL4_MinUntypedBits) with 16 in *. lia. }
  split_and!; [done..|]. unfold GET_FREE_REF. by rewrite Ho.
Qed.
(** The kernel's test of the free bytes is exactly the existence of a place. *)
Lemma fits_exists free bits ptr os n : untyped_ok free bits ptr → 0 ≤ os → 1 ≤ n →
  let off := free * 2 ^ seL4_MinUntypedBits in
  ((2 ^ bits - off) / 2 ^ os < n → ∀ base, ¬ fits free bits ptr os n base) ∧
  (n ≤ (2 ^ bits - off) / 2 ^ os → fits free bits ptr os n ((ptr + off + (2 ^ os - 1)) / 2 ^ os * 2 ^ os)).
Proof.
  intros Hok Hos Hn off. assert (0 < 2 ^ os) as HS by lia. set (S := 2 ^ os) in *. split.
  - intros Hlt base (Hlo & _ & Hhi). apply Z.lt_nge in Hlt. apply Hlt, Z.div_le_lower_bound; [done|]. fold S in Hhi. lia.
  - intros Hle. destruct (free_offset _ _ _ Hok) as (_ & Hoff & _). destruct Hok as (Hb & Hp & Ha & _ & Hf). fold off in Hoff.
    assert (n * S ≤ 2 ^ bits - off) as Hroom by (pose proof (Z.mul_div_le (2 ^ bits - off) S HS); nia).
    assert (os ≤ bits) as Hob.
    { apply (Z.pow_le_mono_r_iff 2); [lia|unfold seL4_MinUntypedBits in *; lia|]. fold S. assert (0 ≤ off) by (unfold off; lia). nia. }
    assert (∃ t, ptr + 2 ^ bits = t * S) as [t Ht].
    { apply Z.mod_divide in Ha as [q ->]; [|lia]. exists ((q + 1) * 2 ^ (bits - os)).
      rewrite <-Z.mul_assoc. unfold S. rewrite <-Z.pow_add_r by lia. replace (bits - os + os) with bits by lia. lia. }
    unfold fits. fold S off. pose proof (Z.div_mod (ptr + off + (S - 1)) S). pose proof (Z.mod_pos_bound (ptr + off + (S - 1)) S HS).
    assert ((ptr + off + (S - 1)) / S < t - n + 1) as Hm by (apply Z.div_lt_upper_bound; nia).
    split_and!; [lia|apply Z.mod_mul; lia|nia].
Qed.

Section place.
Context `{Platform}.

Lemma missing_bits_64 bits : seL4_MinUntypedBits ≤ bits ≤ seL4_MaxUntypedBits → BIT bits = 2 ^ bits.
Proof. unfold seL4_MinUntypedBits, seL4_MaxUntypedBits. intros. apply BIT_pow. lia. Qed.

(** The memory left, as the decoding computes it. *)
Lemma free_bytes free bits ptr : untyped_ok free bits ptr →
  BIT bits -w FREE_INDEX_TO_OFFSET free = 2 ^ bits - free * 2 ^ seL4_MinUntypedBits.
Proof.
  intros Hok. destruct (free_offset _ _ _ Hok) as (-> & Hle & _). destruct Hok as (Hb & _ & _ & _ & Hf).
  rewrite missing_bits_64 by done. apply wrap_small. unfold is_word.
  assert (2 ^ bits < 2 ^ 64) by (apply Z.pow_lt_mono_r; unfold seL4_MaxUntypedBits in *; lia).
  change (2 ^ seL4_MinUntypedBits) with 16 in *. lia.
Qed.
(** The free index after the objects is at their end. *)
Lemma divide_pow2 x m n : 0 ≤ m ≤ n → x mod 2 ^ n = 0 → (2 ^ m | x).
Proof.
  intros Hmn [q ->]%Z.mod_divide; [|lia]. replace n with (n - m + m) by lia. rewrite Z.pow_add_r by lia.
  exists (q * 2 ^ (n - m)). lia.
Qed.
Lemma free_ref_after free bits ptr os n base : untyped_ok free bits ptr → seL4_MinUntypedBits ≤ os → 0 ≤ n →
  fits free bits ptr os n base → GET_FREE_REF ptr (GET_FREE_INDEX ptr (base +w (n <<w os))) = base + n * 2 ^ os.
Proof.
  intros Hok Hos Hn (Hlo & Ha & Hhi). pose proof Hok as (Hb & Hp & Hpa & Hw & Hf).
  assert (0 ≤ n * 2 ^ os) by (apply Z.mul_nonneg_nonneg; lia).
  assert (∃ e, base + n * 2 ^ os - ptr = e * 16) as [e He].
  { destruct (divide_pow2 base seL4_MinUntypedBits os) as [x ->]; [unfold seL4_MinUntypedBits in *; lia|done|].
    destruct (divide_pow2 ptr seL4_MinUntypedBits bits) as [y ->]; [unfold seL4_MinUntypedBits in *; lia|done|].
    destruct (divide_pow2 (n * 2 ^ os) seL4_MinUntypedBits os) as [z ->]; [unfold seL4_MinUntypedBits in *; lia| |].
    { apply Z.mod_mul, Z.pow_nonzero; unfold seL4_MinUntypedBits in *; lia. }
    exists (x + z - y). change (2 ^ seL4_MinUntypedBits) with 16. lia. }
  change (2 ^ seL4_MinUntypedBits) with 16 in *.
  unfold GET_FREE_INDEX, GET_FREE_REF, FREE_INDEX_TO_OFFSET. rewrite (Z.shiftl_mul_pow2 n) by (unfold seL4_MinUntypedBits in *; lia).
  rewrite (wrap_small (n * 2 ^ os)) by (unfold is_word; lia). rewrite (wrap_small (base + n * 2 ^ os)) by (unfold is_word; lia).
  rewrite He, (wrap_small (e * 16)) by (unfold is_word; lia).
  rewrite Z.shiftr_div_pow2, Z.shiftl_mul_pow2 by done. change (2 ^ seL4_MinUntypedBits) with 16. rewrite Z.div_mul by done.
  rewrite (wrap_small (e * 16)) by (unfold is_word; lia). rewrite wrap_small by (unfold is_word; lia). lia.
Qed.

(** Where the decoding puts the objects. *)
Lemma aligned_free_ref free bits ptr os n : untyped_ok free bits ptr → 0 ≤ os < 64 → 1 ≤ n →
  let base := (ptr + free * 2 ^ seL4_MinUntypedBits + (2 ^ os - 1)) / 2 ^ os * 2 ^ os in
  fits free bits ptr os n base → alignUp (GET_FREE_REF ptr free) os = base.
Proof.
  intros Hok Hos Hn base (Hlo & _ & Hhi). destruct (free_offset _ _ _ Hok) as (_ & Hle & ->).
  destruct Hok as (Hb & Hp & Hpa & Hw & Hf). assert (2 ^ os ≤ n * 2 ^ os) by nia.
  change (2 ^ seL4_MinUntypedBits) with 16 in *. rewrite wrap_small by (unfold is_word; lia). apply alignUp_ceil; lia.
Qed.
Lemma untyped_ok_reset (reset : bool) free bits ptr : untyped_ok free bits ptr → untyped_ok (if reset then 0 else free) bits ptr.
Proof. destruct reset; [|done]. intros (?&?&?&?&?&?). split_and!; try done; lia. Qed.
Lemma size_bound t us os : getObjectSize t us = Some os → 0 ≤ us < wordBits → os ≤ seL4_MaxUntypedBits → t = seL4_CapTableObject → us < 59.
Proof.
  intros Hs Hus Hos ->. injection Hs as <-. unfold wordBits, seL4_MaxUntypedBits, seL4_SlotBits in *. rewrite wrap_small in Hos by (unfold is_word; lia). lia.
Qed.
End place.

(** * Resetting untyped memory

    [resetUntypedCap] clears a region from its end down, chunk by chunk, with a
    preemption point after each: it returns, and when it is preempted the free index
    has dropped, so that the repeated system call makes progress. *)

Section reset.
Context `{PlatformOk}.

(** ** Preemption points *)
Definition clock_ok (s : kstate) : Prop := ∀ n, wrap (dev_clock (devices s) n) < MAX_RELEASE_TIME.
Definition sc_readable (s : kstate) : Prop :=
  ∃ c h, scs s !! ksCurSC s = Some c ∧ scRefills c !! Z.to_nat (scRefillHead c) = Some h.
(** All objects, the current scheduling context and the source of time are the same. *)
Definition same_objects (s s' : kstate) : Prop :=
  ctes s' = ctes s ∧ tcbs s' = tcbs s ∧ eps s' = eps s ∧ ntfns s' = ntfns s ∧ scs s' = scs s ∧
  replies s' = replies s ∧ user_mem s' = user_mem s ∧ ksCurSC s' = ksCurSC s ∧
  dev_clock (devices s') = dev_clock (devices s).

Lemma preemptionPoint_returns s Q : clock_ok s → sc_readable s →
  (∀ st s', st = EXCEPTION_NONE ∨ st = EXCEPTION_PREEMPTED → same_objects s s' → Q st s') →
  wp preemptionPoint Q s.
Proof.
  intros Hclk (c & h & Hc & Hh) HQ. unfold preemptionPoint.
  apply wp_bind, wp_modify, wp_bind, wp_gets. case_match; [|by apply wp_ret, HQ; [left|]].
  apply wp_bind, wp_modify. apply wp_bind.
  set (s0 := set_ksWorkUnitsCompleted 0 _).
  assert (∀ Q : unit → kstate → Prop, (∀ s', same_objects s s' → Q () s') → wp updateTimestamp Q s0) as Hts.
  { intros Q' HQ'. unfold updateTimestamp, getCurrentTime, dev_input.
    apply wp_bind, wp_gets. do 3 apply wp_bind. apply wp_gets. apply wp_bind, wp_modify, wp_ret, wp_ret.
    apply wp_bind, wp_modify, wp_bind, wp_assert; [by apply Z.ltb_lt, Hclk|]. apply wp_bind, wp_modify.
    apply wp_when; [|by intros _; apply HQ']. intros _. apply wp_bind, wp_gets. case_match; by apply wp_modify, HQ'. }
  apply Hts. intros s1 Hs1. apply wp_bind. unfold isIRQPending, read_sip, dev_input.
  do 3 apply wp_bind. apply wp_gets. apply wp_bind, wp_modify, wp_ret, wp_ret, wp_ret.
  set (s2 := set_devices _ s1). assert (same_objects s s2) as Hs2 by done.
  apply wp_bind. case_match; [by apply wp_ret, wp_ret, HQ; [right|]|].
  apply wp_bind. unfold isCurDomainExpired. apply wp_bind, wp_gets, wp_ret. case_match; [by apply wp_ret, wp_ret, HQ; [right|]|].
  apply wp_bind, wp_gets, wp_bind, wp_gets. pose proof Hs2 as (_ & _ & _ & _ & Hsc & _ & _ & Hcur & _).
  apply wp_bind. eapply wp_get_sc; [by rewrite Hsc, Hcur|]. case_match; [|by apply wp_ret, wp_ret, HQ; [right|]].
  apply wp_bind. eapply (wp_on_sc_read _ c); [by rewrite Hsc, Hcur| |].
  { unfold refill_sufficient, refill_capacity, refill_head, refill_index, mbind, M_bind, get_state, deref. by rewrite Hh. }
  apply wp_ret, wp_ret. case_match; (apply HQ; [|done]); [by right|by left].
Qed.

(** ** Clearing *)
(** No object and no memory content in the bytes from [lo] to [hi]. *)
Definition cleared (lo hi : Z) (s : kstate) : Prop := ∀ p, lo ≤ p < hi →
  ctes s !! p = None ∧ tcbs s !! p = None ∧ eps s !! p = None ∧ ntfns s !! p = None ∧ scs s !! p = None ∧
  replies s !! p = None ∧ user_mem s !! p = None.
Lemma filter_inside {A} (m : gmap Z A) b n p : ¬ outside b n p → filter (λ kv, outside b n kv.1) m !! p = None.
Proof. intros Hp. apply map_lookup_filter_None. right. by intros. Qed.
Lemma filter_outside {A} (m : gmap Z A) b n p : outside b n p → filter (λ kv, outside b n kv.1) m !! p = m !! p.
Proof.
  intros Hp. destruct (m !! p) as [x|] eqn:Hx.
  - by apply map_lookup_filter_Some.
  - apply map_lookup_filter_None. by left.
Qed.
Lemma filter_none {A} (m : gmap Z A) b n p : m !! p = None → filter (λ kv, outside b n kv.1) m !! p = None.
Proof. intros Hx. apply map_lookup_filter_None. by left. Qed.

(** What the reset keeps of the state: the slot, and what preemption points read. *)
Definition reset_env (slot free bits ptr : Z) (dev : bool) (s : kstate) : Prop :=
  (∃ e, ctes s !! slot = Some e ∧ cte_cap e = cap_untyped_cap free dev bits ptr) ∧
  outside ptr bits slot ∧ outside ptr bits (ksCurSC s) ∧ clock_ok s ∧ sc_readable s.

Lemma clear_chunk b n lo hi s Q slot free dev bits ptr :
  lo ≤ b → ptr ≤ b → b + 2 ^ n ≤ ptr + 2 ^ bits → reset_env slot free bits ptr dev s → cleared (b + 2 ^ n) hi s →
  (∀ s', reset_env slot free bits ptr dev s' → cleared b hi s' → Q () s') → wp (clearMemory b n) Q s.
Proof.
  intros Hlo Hb Hin ((e & He & Hcap) & Hslot & Hcur & Hclk & (c & h & Hc & Hh)) Hcl HQ.
  assert (∀ p, outside ptr bits p → outside b n p) as Hout by (unfold outside; lia).
  apply wp_modify, HQ.
  - split_and!; [|done..|].
    + exists e. split; [|done]. simpl. rewrite filter_outside; auto.
    + exists c, h. split; [|done]. simpl. rewrite filter_outside; auto.
  - intros p Hp. simpl. destruct (decide (outside b n p)) as [Ho|Ho].
    + destruct (Hcl p) as (?&?&?&?&?&?&?); [unfold outside in Ho; lia|]. by rewrite !filter_none.
    + by rewrite !filter_inside.
Qed.
Lemma set_free_index slot free free' bits ptr dev s lo hi Q :
  reset_env slot free bits ptr dev s → ptr ≤ lo → hi ≤ ptr + 2 ^ bits → cleared lo hi s →
  (∀ s', reset_env slot free' bits ptr dev s' → cleared lo hi s' → Q () s') →
  wp (mod_cte slot (set_cte_cap (cap_untyped_cap free' dev bits ptr))) Q s.
Proof.
  intros ((e & He & Hcap) & Hslot & Hrest) Hlo Hhi Hcl HQ. eapply wp_mod_cte; [done|]. apply HQ.
  - split_and!; try apply Hrest; [|done]. eexists. split; [by simpl; rewrite lookup_insert_eq|done].
  - intros p Hp. destruct (Hcl p Hp) as [Hn Ho]. split; [|done]. simpl. rewrite lookup_insert_ne; [done|].
    unfold outside in Hslot. lia.
Qed.
Lemma preempt_env slot free bits ptr dev s lo hi Q :
  reset_env slot free bits ptr dev s → cleared lo hi s →
  (∀ st s', st = EXCEPTION_NONE ∨ st = EXCEPTION_PREEMPTED → reset_env slot free bits ptr dev s' → cleared lo hi s' → Q st s') →
  wp preemptionPoint Q s.
Proof.
  intros (Hs & Hslot & Hcur & Hclk & Hsc) Hcl HQ. apply preemptionPoint_returns; [done..|].
  intros st s' Hst (E1 & E2 & E3 & E4 & E5 & E6 & E7 & E8 & E9). apply HQ; [done| |].
  - split_and!; rewrite ?E1, ?E8; [done..| |].
    + intros n. rewrite E9. apply Hclk.
    + unfold sc_readable. by rewrite E5, E8.
  - intros p Hp. rewrite E1, E2, E3, E4, E5, E6, E7. by apply Hcl.
Qed.

(** ** The loop *)
#[local] Abbreviation C := (2 ^ CONFIG_RESET_CHUNK_BITS).

Lemma chunk_pos : 16 ≤ C ∧ C < 2 ^ 64 ∧ BIT CONFIG_RESET_CHUNK_BITS = C.
Proof.
  pose proof reset_chunk_ok. split_and!; [|by apply Z.pow_lt_mono_r; lia|by apply BIT_pow; lia].
  change 16 with (2 ^ 4). apply Z.pow_le_mono_r; lia.
Qed.
Lemma chunk_index k : 0 ≤ k → OFFSET_TO_FREE_INDEX (k * C) * 16 = k * C.
Proof.
  pose proof reset_chunk_ok as Hc. intros Hk. unfold OFFSET_TO_FREE_INDEX. rewrite Z.shiftr_div_pow2 by done.
  change (2 ^ seL4_MinUntypedBits) with 16. replace CONFIG_RESET_CHUNK_BITS with (CONFIG_RESET_CHUNK_BITS - 4 + 4) by lia.
  rewrite Z.pow_add_r by lia. change (2 ^ 4) with 16. rewrite Z.mul_assoc, Z.div_mul by lia. lia.
Qed.
Lemma chunk_step k : 0 ≤ k → k * C + C < 2 ^ 64 →
  wrap (k * C) = k * C ∧ wrap (k * C) -w C = wrap ((k - 1) * C) ∧ k * C ≠ wrap (- C).
Proof.
  destruct chunk_pos as (? & ? & _). intros Hk Hw. assert (0 ≤ k * C) by (apply Z.mul_nonneg_nonneg; lia).
  assert (wrap (k * C) = k * C) as E by (apply wrap_small; unfold is_word; lia).
  split_and!; [done|rewrite E; f_equal; lia|].
  assert (wrap (- C) = 2 ^ 64 - C) as ->; [|lia]. unfold wrap. rewrite <-(Z.mod_add _ 1) by lia. rewrite Z.mod_small; lia.
Qed.

(** What a reset that ends with [st] promises. *)
Definition reset_post (slot free bits ptr : Z) (dev : bool) (st : exception_t) (s : kstate) : Prop :=
  ∃ f, reset_env slot f bits ptr dev s ∧
  match st with
  | EXCEPTION_NONE => f = 0 ∧ (dev = false → cleared ptr (ptr + free * 2 ^ seL4_MinUntypedBits) s)
  | EXCEPTION_PREEMPTED => 0 ≤ f < free
  | _ => False
  end.

(** Chunks [0] to [k] are left to clear. *)
Definition reset_loop (slot free bits ptr : Z) (dev : bool) (n off : Z) (s : kstate) : Prop :=
  ∃ f, let k := n - 1 in -1 ≤ k ∧ k * C + C ≤ 2 ^ bits ∧ k * C < free * 16 ∧ off = wrap (k * C) ∧
    cleared (ptr + (k + 1) * C) (ptr + free * 16) s ∧ reset_env slot f bits ptr dev s ∧ (k = -1 → f = 0).

Lemma reset_body slot free bits ptr dev n off s :
  untyped_ok free bits ptr → reset_loop slot free bits ptr dev n off s →
  wp (if off =? wrap (- BIT CONFIG_RESET_CHUNK_BITS) then mret (inr EXCEPTION_NONE) else
      clearMemory (GET_OFFSET_FREE_PTR ptr off) CONFIG_RESET_CHUNK_BITS;;
      mod_cte slot (set_cte_cap (cap_untyped_cap (OFFSET_TO_FREE_INDEX off) dev bits ptr));;
      status ← preemptionPoint;
      if negb (status_ok status) then mret (inr status)
      else mret (inl (off -w BIT CONFIG_RESET_CHUNK_BITS)))
    (λ r s', match r with
      | inl off' => ∃ m, 0 ≤ m < n ∧ reset_loop slot free bits ptr dev m off' s'
      | inr st => reset_post slot free bits ptr dev st s' end) s.
Proof.
  intros Hok (f & Hk & Hkb & Hkf & -> & Hcl & Henv & Hf0). destruct chunk_pos as (HC & HC' & ->).
  pose proof Hok as (Hb & Hp & _ & Hw & Hfree). destruct (free_offset _ _ _ Hok) as (_ & Hle & _).
  change (2 ^ seL4_MinUntypedBits) with 16 in *. set (k := n - 1) in *.
  destruct (decide (k = -1)) as [E|Hne].
  { rewrite E in *. replace (-1 * C) with (- C) by lia. rewrite Z.eqb_refl. apply wp_ret. exists f.
    split; [done|]. split; [auto|]. intros _. by rewrite Z.add_0_r in Hcl. }
  assert (0 ≤ k * C) by (apply Z.mul_nonneg_nonneg; lia).
  destruct (chunk_step k) as (E & Estep & En); [lia..|]. rewrite Estep, E.
  rewrite (proj2 (Z.eqb_neq _ _) En). unfold GET_OFFSET_FREE_PTR. rewrite (wrap_small (ptr + k * C)) by (unfold is_word; lia).
  apply wp_bind. apply (clear_chunk _ _ ptr (ptr + free * 16) _ _ slot f dev bits ptr); [lia..|done| |].
  { by replace (ptr + k * C + C) with (ptr + (k + 1) * C) by lia. }
  intros s1 Henv1 Hcl1. apply wp_bind. apply (set_free_index slot f _ bits ptr dev s1 (ptr + k * C) (ptr + free * 16)); [done|lia|lia|done|]. intros s2 Henv2 Hcl2.
  apply wp_bind. eapply preempt_env; [done..|]. intros st s3 Hst Henv3 Hcl3. pose proof (chunk_index k ltac:(lia)) as Hi.
  destruct Hst as [-> | ->]; apply wp_ret.
  - exists k. split; [lia|]. exists (OFFSET_TO_FREE_INDEX (k * C)). split_and!; [lia..|done| |done|].
    + by replace (k - 1 + 1) with k by lia.
    + intros Hk1. assert (k = 0) as -> by lia. by rewrite Z.mul_0_l in *.
  - exists (OFFSET_TO_FREE_INDEX (k * C)). split; [done|]. lia.
Qed.

(** The first chunk that is cleared is the one that the used part of the region ends in. *)
Lemma reset_start free bits ptr : untyped_ok free bits ptr → 0 < free * 2 ^ seL4_MinUntypedBits → CONFIG_RESET_CHUNK_BITS ≤ bits →
  let K := (free * 2 ^ seL4_MinUntypedBits - 1) / C in
  (0 ≤ K ∧ K * C ≤ free * 2 ^ seL4_MinUntypedBits - 1 < K * C + C) ∧ K * C + C ≤ 2 ^ bits ∧
  ROUND_DOWN (free * 2 ^ seL4_MinUntypedBits -w 1) CONFIG_RESET_CHUNK_BITS = wrap (K * C).
Proof.
  intros Hok Hpos Hbr K. destruct (free_offset _ _ _ Hok) as (_ & Hle & _). pose proof Hok as (Hb & Hp & _ & Hw & Hfree).
  change (2 ^ seL4_MinUntypedBits) with 16 in *. destruct chunk_pos as (HC & HC' & _). assert (0 < 2 ^ bits) by lia.
  assert (K * C ≤ free * 16 - 1 < K * C + C) as HK.
  { pose proof (Z.mul_div_le (free * 16 - 1) C). pose proof (Z.mul_succ_div_gt (free * 16 - 1) C). lia. }
  assert (0 ≤ K) by (apply Z.div_pos; lia). split_and!; [lia..| |].
  - pose proof reset_chunk_ok. set (D := 2 ^ (bits - CONFIG_RESET_CHUNK_BITS)).
    assert (2 ^ bits = D * C) by (unfold D; rewrite <-Z.pow_add_r by lia; f_equal; lia).
    assert (K < D) by (apply (Z.mul_lt_mono_pos_r C); lia). nia.
  - unfold ROUND_DOWN. rewrite (wrap_small (free * 16 - 1)) by (unfold is_word; lia).
    pose proof reset_chunk_ok. by rewrite Z.shiftr_div_pow2, Z.shiftl_mul_pow2 by lia.
Qed.

(** C19: Resetting an untyped region returns: either the region in use is
    cleared and the free index is zero, or the reset was preempted and the free index
    has dropped. *)
Theorem resetUntypedCap_terminates s slot e free dev bits ptr :
  ctes s !! slot = Some e → cte_cap e = cap_untyped_cap free dev bits ptr → untyped_ok free bits ptr →
  outside ptr bits slot → outside ptr bits (ksCurSC s) → clock_ok s → sc_readable s →
  ∃ st s', resetUntypedCap slot s = Done st s' ∧ reset_post slot free bits ptr dev st s'.
Proof.
  intros He Hcap Hok Hslot Hcur Hclk Hsc. apply wp_done.
  assert (reset_env slot free bits ptr dev s) as Henv by (split_and!; [by exists e|done..]).
  destruct (free_offset _ _ _ Hok) as (Hoff & Hle & _). pose proof Hok as (Hb & Hp & _ & Hw & Hfree).
  unfold resetUntypedCap. apply wp_bind. eapply wp_get_cte; [done|]. rewrite Hcap, Hoff.
  change (2 ^ seL4_MinUntypedBits) with 16 in *. destruct chunk_pos as (HC & HC' & _).
  destruct (Z.eqb_spec (free * 16) 0) as [E|Hne].
  { apply wp_ret. exists free. split; [done|]. split; [lia|]. intros _ q Hq. change (2 ^ seL4_MinUntypedBits) with 16 in Hq. lia. }
  destruct (dev || (bits <? CONFIG_RESET_CHUNK_BITS)) eqn:Hbr.
  - apply wp_bind.
    assert (∀ Q : unit → kstate → Prop, (∀ s', reset_env slot free bits ptr dev s' →
      (dev = false → cleared ptr (ptr + free * 16) s') → Q () s') →
      wp (when (negb dev) (clearMemory ptr bits)) Q s) as Hclear.
    { intros Q HQ. apply wp_when; [|intros; apply HQ; [done|by destruct dev]]. intros _.
      apply (clear_chunk _ _ ptr (ptr + free * 16) _ _ slot free dev bits ptr); [lia..|done|intros q Hq; lia|auto]. }
    apply Hclear. intros s1 Henv1 Hcl1. apply wp_bind.
    destruct dev; [eapply (set_free_index _ _ _ _ _ _ _ ptr ptr)|eapply (set_free_index _ _ _ _ _ _ _ ptr (ptr + free * 16))];
      try done; try lia; [intros q Hq; lia| |auto|]; intros s2 Henv2 Hcl2; apply wp_ret; exists 0; by split_and!.
  - apply orb_false_iff in Hbr as [-> Hbr%Z.ltb_ge].
    pose proof (reset_start free bits ptr Hok) as Hst. change (2 ^ seL4_MinUntypedBits) with 16 in Hst.
    destruct Hst as (HK & HKb & ->); [lia|done|]. set (K := (free * 16 - 1) / C) in *.
    eapply (wp_while64_idx (reset_loop slot free bits ptr false) _ _ (K + 1)).
    + intros n off s' _. by apply reset_body.
    + exists free. split_and!; [lia| |lia|f_equal; lia| |done|lia].
      * lia.
      * intros q Hq. lia.
    + assert (K ≤ K * C) by nia. lia.
Qed.
End reset.

Section example.
#[local] Existing Instances example_platform example_platform_ok.
(** The untyped memory of the example, all in use. *)
Definition ex_full : kstate :=
  set_ctes (<[slot1 3 := Cte (cap_untyped_cap 256 false 12 ut1) nullMDBNode]> (ctes ex_state)) ex_state.
Lemma resetUntypedCap_witness : ∃ st s', resetUntypedCap (slot1 3) ex_full = Done st s' ∧
  reset_post (slot1 3) 256 12 ut1 false st s'.
Proof.
  apply (resetUntypedCap_terminates ex_full (slot1 3) (Cte (cap_untyped_cap 256 false 12 ut1) nullMDBNode));
    [by vm_compute|done|by vm_compute|by left; vm_compute|by left; vm_compute|by intros n; vm_compute|].
  by eexists _, _; split; vm_compute.
Defined.
End example.

(** * Retyping

    What the system call leaves behind when it is carried out. *)

Section retype.
Context `{PlatformOk}.
#[local] Abbreviation C := (2 ^ CONFIG_RESET_CHUNK_BITS).
(** ** Making the objects

    What [invokeUntyped_Retype] leaves behind: the free index of the untyped capability and
    the capabilities in the destination slots. *)
Definition cap_in (s : kstate) (x : Z) : option cap := cte_cap <$> ctes s !! x.
(** The type of object that a capability is to. *)
Definition object_type (c : cap) : option Z :=
  match c with
  | cap_untyped_cap _ _ _ _ => Some seL4_UntypedObject
  | cap_endpoint_cap _ _ _ _ _ _ => Some seL4_EndpointObject
  | cap_notification_cap _ _ _ _ => Some seL4_NotificationObject
  | cap_cnode_cap _ _ _ _ => Some seL4_CapTableObject
  | cap_thread_cap _ => Some seL4_TCBObject
  | cap_reply_cap _ _ => Some seL4_ReplyObject
  | cap_sched_context_cap _ _ => Some seL4_SchedContextObject
  | cap_page_table_cap _ _ _ _ => Some seL4_RISCV_PageTableObject
  | cap_frame_cap _ _ size _ _ _ =>
    if size =? RISCV_4K_Page then Some seL4_RISCV_4K_Page else if size =? RISCV_Mega_Page then Some seL4_RISCV_Mega_Page
    else if size =? RISCV_Giga_Page then Some seL4_RISCV_Giga_Page else None
  | _ => None
  end.
(** A capability to an object of type [t] in the [2^os] bytes at [p]. *)
Definition new_object (t os p : Z) (c : cap) : Prop :=
  object_type c = Some t ∧ cap_get_capPtr c = Some p ∧ cap_get_capSizeBits c = Some os.
(** [slot] holds the untyped capability, with some free index. *)
Definition untyped_in (slot : Z) (dev : bool) (bits ptr : Z) (s : kstate) : Prop :=
  ∃ f, cap_in s slot = Some (cap_untyped_cap f dev bits ptr).
(** After [n] objects of [2^os] bytes were made at [base]: the free index is at their end, and
    each has its capability in its slot. *)
Definition retyped (slot : Z) (dev : bool) (bits ptr t os base dest off n : Z) (s : kstate) : Prop :=
  (∃ f, cap_in s slot = Some (cap_untyped_cap f dev bits ptr) ∧ GET_FREE_REF ptr f = base + n * 2 ^ os) ∧
  ∀ i, 0 ≤ i < n → ∃ c, cap_in s (cte_index dest (off + i)) = Some c ∧ new_object t os (base + i * 2 ^ os) c.

Lemma wlp_mod_cte p f Q s : (∀ e, ctes s !! p = Some e → Q () (set_ctes (<[p := f e]> (ctes s)) s)) → wlp (mod_cte p f) Q s.
Proof. intros HQ. apply wlp_get_cte_bind. intros e He. by apply HQ. Qed.
Lemma cap_in_insert s p e x : cap_in (set_ctes (<[p := e]> (ctes s)) s) x = if decide (x = p) then Some (cte_cap e) else cap_in s x.
Proof. unfold cap_in; simpl. case_decide as E; [by rewrite E, lookup_insert_eq|by rewrite lookup_insert_ne by auto]. Qed.
(** Changes of the derivation tree leave the capabilities. *)
Lemma wlp_mod_mdb_caps p f s : wlp (mod_mdb p f) (λ _ s', ∀ x, cap_in s' x = cap_in s x) s.
Proof.
  apply wlp_mod_cte. intros e He x. rewrite cap_in_insert. case_decide as E; [|done]. rewrite E. unfold cap_in. by rewrite He.
Qed.
Lemma insertNewCap_caps parent slot c s :
  wlp (insertNewCap parent slot c) (λ _ s', ∀ x, cap_in s' x = if decide (x = slot) then Some c else cap_in s x) s.
Proof.
  apply wlp_get_cte_bind. intros p Hp. apply wlp_bind, wlp_mod_cte. intros e He. apply wlp_bind, wlp_mod_cte. intros e' He'.
  set (s2 := set_ctes _ _). assert (∀ x, cap_in s2 x = if decide (x = slot) then Some c else cap_in s x) as H2.
  { intros x. unfold s2. rewrite !cap_in_insert. simpl in He'. rewrite lookup_insert_eq in He'. simplify_eq. by case_decide. }
  apply wlp_bind. eapply (wlp_mono _ (λ _ s3, ∀ x, cap_in s3 x = cap_in s2 x)).
  { unfold when. case_match; [apply wlp_mod_mdb_caps|done]. }
  intros [] s3 H3. eapply wlp_mono; [apply wlp_mod_mdb_caps|]. intros [] s4 H4 x. by rewrite H4, H3, H2.
Qed.
Lemma new_slots_outside base n m x : 0 ≤ base → base + 32 * Z.of_nat n < 2 ^ 64 → x < base ∨ base + 32 * Z.of_nat n ≤ x →
  new_slots base n m !! x = m !! x.
Proof.
  revert base. induction n as [|n IH]; intros base Hb Hw Hx; [done|]. simpl. rewrite lookup_insert_ne by lia.
  unfold cte_index. change cte_size with 32. rewrite wrap_small by (unfold is_word; lia). apply IH; lia.
Qed.
Lemma new_tcb_ptr p : 0 ≤ p → p + 2 ^ seL4_TCBBits < 2 ^ 64 → p mod 2 ^ seL4_TCBBits = 0 → TCB_PTR_CTE_PTR (p +w TCB_OFFSET) 0 = p.
Proof.
  change seL4_TCBBits with 10. change (2 ^ 10) with 1024. intros Hp Hw Ha. unfold TCB_PTR_CTE_PTR.
  change TCB_OFFSET with 512. change seL4_TCBBits with 10.
  rewrite (wrap_small (p + 512)) by (unfold is_word; lia). rewrite land_wnot_MASK; [|unfold is_word; lia|lia].
  change (2 ^ 10) with 1024. assert ((p + 512) / 1024 * 1024 = p) as -> 
    by (apply Z.mod_divide in Ha as [q ->]; [rewrite Z.div_add_l by done; change (512 / 1024) with 0; lia|done]).
  rewrite Z.add_0_r. apply wrap_small. unfold is_word. lia.
Qed.

(** The capability to a new object; only slots inside the object change. *)
Lemma createObject_caps t us dev os p s : getObjectSize t us = Some os → 0 ≤ us → (t = seL4_CapTableObject → us < 59) → 0 ≤ p → p mod 2 ^ os = 0 → p + 2 ^ os < 2 ^ 64 →
  wlp (createObject t p us dev) (λ c s', new_object t os p c ∧ ∀ x, outside p os x → cap_in s' x = cap_in s x) s.
Proof.
  intros Hs Hus Hus' Hp Ha Hw. unfold createObject. unfold getObjectSize in Hs.
  assert (∀ n x, Z.of_nat n * 32 ≤ 2 ^ os → outside p os x → new_slots p n (ctes s) !! x = ctes s !! x) as Hnew.
  { intros n x Hn Hx. unfold outside in Hx. apply new_slots_outside; lia. }
  destruct (seL4_NonArchObjectTypeCount <=? t).
  { unfold Arch_getObjectSize, Arch_createObject in *. unfold lift.
    destruct (Z.eqb_spec t seL4_RISCV_4K_Page) as [->|]; [by injection Hs as <-|].
    destruct (Z.eqb_spec t seL4_RISCV_Mega_Page) as [->|]; [by injection Hs as <-|].
    destruct (Z.eqb_spec t seL4_RISCV_Giga_Page) as [->|]; [by injection Hs as <-|].
    destruct (Z.eqb_spec t seL4_RISCV_PageTableObject) as [->|]; [by injection Hs as <-|done]. }
  destruct (Z.eqb_spec t seL4_TCBObject) as [->|]; [injection Hs as <-|].
  { split; [split_and!; [done| |done]; cbn [cap_get_capPtr]; by rewrite new_tcb_ptr|].
    intros x Hx. refine (f_equal (fmap cte_cap) (Hnew (Z.to_nat tcbCNodeEntries) x _ Hx)). by vm_compute. }
  destruct (Z.eqb_spec t seL4_EndpointObject) as [->|]; [by injection Hs as <-|].
  destruct (Z.eqb_spec t seL4_NotificationObject) as [->|]; [by injection Hs as <-|].
  destruct (Z.eqb_spec t seL4_CapTableObject) as [->|]; [injection Hs as <-|].
  { split; [split_and!; [done..|]; simpl; do 2 f_equal; lia|].
    specialize (Hus' eq_refl). intros x Hx. refine (f_equal (fmap cte_cap) (Hnew (Z.to_nat (2 ^ us)) x _ Hx)).
    rewrite wrap_small by (unfold is_word, seL4_SlotBits; lia). rewrite Z.pow_add_r by (unfold seL4_SlotBits; lia).
    change (2 ^ seL4_SlotBits) with 32. rewrite Z2Nat.id by lia. lia. }
  destruct (Z.eqb_spec t seL4_UntypedObject) as [->|]; [by injection Hs as <-|].
  destruct (Z.eqb_spec t seL4_SchedContextObject) as [->|]; [by injection Hs as <-|].
  destruct (Z.eqb_spec t seL4_ReplyObject) as [->|]; [by injection Hs as <-|done].
Qed.
Lemma cte_index_inj base i j : cte_index base i = cte_index base j → Z.abs (i - j) < 2 ^ 59 → i = j.
Proof.
  unfold cte_index, wrap. change cte_size with 32. intros He Hb.
  pose proof (Z.div_mod (base + 32 * i) (2 ^ 64)) as H1. pose proof (Z.div_mod (base + 32 * j) (2 ^ 64)) as H2.
  change (2 ^ 64) with (32 * 2 ^ 59) in *. lia.
Qed.

(** The objects are made one after the other. *)
Lemma createNewObjects_caps t parent dest off n base us dev os s :
  getObjectSize t us = Some os → 0 ≤ us → (t = seL4_CapTableObject → us < 59) → 0 ≤ os → 0 ≤ base → base mod 2 ^ os = 0 → base + n * 2 ^ os < 2 ^ 64 → 0 ≤ n < 2 ^ 59 →
  parent < base ∨ base + n * 2 ^ os ≤ parent →
  (∀ i, 0 ≤ i < n → let x := cte_index dest (off + i) in x ≠ parent ∧ (x < base ∨ base + n * 2 ^ os ≤ x)) →
  wlp (createNewObjects t parent dest off n base us dev) (λ _ s', cap_in s' parent = cap_in s parent ∧
    ∀ i, 0 ≤ i < n → ∃ c, cap_in s' (cte_index dest (off + i)) = Some c ∧ new_object t os (base + i * 2 ^ os) c) s.
Proof.
  intros Hs Hus Hus' Hos Hb Ha Hw Hn Hpar Hdest. unfold createNewObjects. apply wlp_bind. rewrite Hs. simpl.
  set (I i s' := cap_in s' parent = cap_in s parent ∧
    ∀ j, 0 ≤ j < i → ∃ c, cap_in s' (cte_index dest (off + j)) = Some c ∧ new_object t os (base + j * 2 ^ os) c).
  apply (wlp_for_range I); [lia|split; [done|lia]| |by intros s' [? ?]].
  intros i s1 Hi [Hp1 Hd1]. assert (0 < 2 ^ os) by lia. assert (0 ≤ i * 2 ^ os ∧ i * 2 ^ os + 2 ^ os ≤ n * 2 ^ os) as Hio by nia.
  assert (base +w (i <<w os) = base + i * 2 ^ os) as ->.
  { rewrite Z.shiftl_mul_pow2 by done. rewrite (wrap_small (i * _)) by (unfold is_word; lia). apply wrap_small. unfold is_word. lia. }
  apply wlp_bind. eapply wlp_mono; [apply (createObject_caps t us dev os)|]; [done|lia|done|lia|by rewrite Z.mod_add by lia|lia|].
  intros c s2 [Hc Hframe]. eapply wlp_mono; [apply insertNewCap_caps|]. intros [] s3 H3.
  assert (∀ x, x < base ∨ base + n * 2 ^ os ≤ x → cap_in s2 x = cap_in s1 x) as H2 by (intros x Hx; apply Hframe; unfold outside; lia).
  destruct (Hdest i Hi) as [Hne Hx]. split.
  - rewrite H3, decide_False, H2 by auto. done.
  - intros j Hj. rewrite H3. destruct (decide (j = i)) as [->|Hji].
    + rewrite decide_True by done. by exists c.
    + rewrite decide_False. { rewrite H2 by (apply Hdest; lia). apply Hd1. lia. }
      intros He. apply cte_index_inj in He; lia.
Qed.

(** A reset changes the untyped capability in its free index only. *)
Lemma untyped_in_clear b n slot dev bits ptr s :
  outside ptr bits slot → ptr ≤ b → b + 2 ^ n ≤ ptr + 2 ^ bits → untyped_in slot dev bits ptr s →
  wlp (clearMemory b n) (λ _ s', untyped_in slot dev bits ptr s' ∧ True) s.
Proof.
  intros Hslot Hb Hin [f Hf]. split; [|done]. exists f. unfold cap_in in *; simpl. rewrite filter_outside; [done|]. unfold outside in *. lia.
Qed.
Lemma untyped_in_set f slot dev bits ptr s : untyped_in slot dev bits ptr s →
  wlp (mod_cte slot (set_cte_cap (cap_untyped_cap f dev bits ptr))) (λ _ s', untyped_in slot dev bits ptr s' ∧ True) s.
Proof. intros _. apply wlp_mod_cte. intros e He. split; [|done]. exists f. rewrite cap_in_insert. by rewrite decide_True. Qed.
Lemma untyped_in_on_sc {A} p (m : M sched_context A) slot dev bits ptr : kept (untyped_in slot dev bits ptr) (on_sc p m).
Proof.
  apply keeps_intro. intros s Hs. unfold wlp, on_sc. destruct (scs s !! p) as [c|]; [|done]. by destruct (m c).
Qed.
Lemma untyped_in_preempt slot dev bits ptr : kept (untyped_in slot dev bits ptr) preemptionPoint.
Proof.
  unfold preemptionPoint, updateTimestamp, getCurrentTime, isIRQPending, read_sip, dev_input, isCurDomainExpired, sc_refill_sufficient.
  keep; try (apply keeps_modify; done). all: apply untyped_in_on_sc.
Qed.
Lemma untyped_in_reset slot free dev bits ptr s : untyped_ok free bits ptr → outside ptr bits slot →
  cap_in s slot = Some (cap_untyped_cap free dev bits ptr) →
  wlp (resetUntypedCap slot) (λ _ s', untyped_in slot dev bits ptr s' ∧ True) s.
Proof.
  intros Hok Hslot Hcap. assert (untyped_in slot dev bits ptr s) as Hin by by exists free.
  pose proof Hok as (Hb & Hp & _ & Hw & Hf). destruct (free_offset _ _ _ Hok) as (Hoff & Hle & _).
  unfold resetUntypedCap. apply wlp_get_cte_bind. intros e He. unfold cap_in in Hcap. rewrite He in Hcap. injection Hcap as ->. rewrite Hoff.
  destruct (Z.eqb_spec (free * 2 ^ seL4_MinUntypedBits) 0) as [|Hne]; [done|].
  destruct (dev || (bits <? CONFIG_RESET_CHUNK_BITS)) eqn:Hbr.
  - apply wlp_bind. eapply (wlp_mono _ (λ _ s', untyped_in slot dev bits ptr s' ∧ True)).
    { unfold when. case_match; [apply untyped_in_clear; by auto with lia|done]. }
    intros [] s1 [Hin1 _]. apply wlp_bind. eapply wlp_mono; [by apply untyped_in_set|]. intros [] s2 [Hin2 _]. done.
  - apply orb_false_iff in Hbr as [-> Hbr%Z.ltb_ge]. destruct (reset_start free bits ptr Hok) as (HK & HKb & ->); [lia|done|].
    set (K := (free * _ - 1) / C) in *. destruct chunk_pos as (HC & HC' & HCb).
    eapply (keeps_wlp _ _ (λ _, True)); [|done].
    apply (keeps_while64 _ (λ off, ∃ k, -1 ≤ k ∧ k * C + C ≤ 2 ^ bits ∧ off = wrap (k * C))); [|exists K; lia].
    intros off (k & Hk & Hkb & ->). rewrite HCb. destruct (decide (k = -1)) as [->|Hk1].
    { replace (-1 * C) with (- C) by lia. rewrite Z.eqb_refl. by apply keeps_ret. }
    assert (0 ≤ k * C) by (apply Z.mul_nonneg_nonneg; lia).
    destruct (chunk_step k) as (E & Estep & En); [lia..|]. rewrite Estep, E, (proj2 (Z.eqb_neq _ _) En).
    unfold GET_OFFSET_FREE_PTR. rewrite (wrap_small (ptr + k * C)) by (unfold is_word; lia).
    eapply (keeps_bind _ _ _ (λ _, True)); [apply keeps_intro; intros; apply untyped_in_clear; done || lia|]. intros _ _.
    eapply (keeps_bind _ _ _ (λ _, True)); [apply keeps_intro; intros; by apply untyped_in_set|]. intros _ _.
    eapply (keeps_bind _ _ _ (λ _, True)); [apply untyped_in_preempt|]. intros st _.
    case_match; apply keeps_ret; [done|]. exists (k - 1). split_and!; [lia|lia|done].
Qed.

(** The whole of [invokeUntyped_Retype], when it returns without an exception. *)
Lemma retype_caps slot reset free dev bits ptr base t us dest off n os s :
  let free' := if reset : bool then 0 else free in
  untyped_ok free bits ptr → fits free' bits ptr os n base → getObjectSize t us = Some os → 0 ≤ us < wordBits →
  seL4_MinUntypedBits ≤ os ≤ seL4_MaxUntypedBits → 1 ≤ n → outside ptr bits slot →
  (∀ i, 0 ≤ i < n → let x := cte_index dest (off + i) in x ≠ slot ∧ outside ptr bits x) →
  cap_in s slot = Some (cap_untyped_cap free dev bits ptr) →
  wlp (invokeUntyped_Retype slot reset base t us dest off n dev)
    (λ st s', st = EXCEPTION_NONE → retyped slot dev bits ptr t os base dest off n s') s.
Proof.
  intros free' Hok Hfits Hsize Hus Hos Hn Hslot Hdest Hcap. pose proof (untyped_ok_reset reset _ _ _ Hok) as Hok'. fold free' in Hok'.
  unfold invokeUntyped_Retype. apply wlp_get_cte_bind. intros e He. pose proof Hcap as Hcap'. unfold cap_in in Hcap'. rewrite He in Hcap'.
  injection Hcap' as ->. apply wlp_bind. eapply (wlp_mono _ (λ _ s1, untyped_in slot dev bits ptr s1 ∧ True)).
  { destruct reset; [by apply (untyped_in_reset slot free)|split; [by exists free|done]]. }
  intros st s1 [[f1 Hf1] _]. destruct (status_ok st) eqn:Hst; [|by intros ->]. cbn [negb]. apply wlp_bind. rewrite Hsize. cbn.
  apply wlp_bind, wlp_mod_cte. intros e1 He1. unfold cap_in in Hf1. rewrite He1 in Hf1. injection Hf1 as Hf1. rewrite Hf1. cbn [cap_untyped_cap_set_capFreeIndex].
  set (f2 := GET_FREE_INDEX _ _). set (s2 := set_ctes _ _). pose proof (size_bound t us os Hsize Hus ltac:(lia)) as Hus'.
  pose proof Hfits as (Hlo & Ha & Hhi). destruct (free_offset _ _ _ Hok') as (_ & Hle & _). destruct Hok' as (Hb & Hp & _ & Hw & Hf').
  change (2 ^ seL4_MinUntypedBits) with 16 in *. unfold seL4_MinUntypedBits, seL4_MaxUntypedBits in *.
  assert (n < 2 ^ 59).
  { assert (2 ^ bits ≤ 2 ^ 38) by (apply Z.pow_le_mono_r; lia). assert (1 ≤ 2 ^ os) by lia. nia. }
  apply wlp_bind. eapply wlp_mono; [apply (createNewObjects_caps t slot dest off n base us dev os); [done|lia|done|lia|lia|done|lia|lia|unfold outside in *; lia|]|].
  { intros i Hi. destruct (Hdest i Hi). unfold outside in *. lia. }
  intros [] s3 [Hpar Hobj] _. split; [|done]. exists f2. split.
  - rewrite Hpar. unfold s2. rewrite cap_in_insert. by rewrite decide_True.
  - unfold f2. apply (free_ref_after free' bits); [by apply (untyped_ok_reset reset)|unfold seL4_MinUntypedBits; lia|lia|done].
Qed.

#[local] Instance cap_in_err slot c : ErrFrame (λ s, cap_in s slot = c).
Proof. by split. Qed.
#[local] Instance cap_in_run slot c : RunFrame (λ s, cap_in s slot = c).
Proof. by split. Qed.

(** C18: Retyping reports a lack of memory, with the bytes left, exactly when no
    aligned place for all objects exists in the unused part of the region. Otherwise it
    chooses such a place, inside the region and behind the objects in use, and calls
    [invokeUntyped_Retype] for it; if that is not preempted, the free index has moved to
    exactly the end of the objects, and the [i]-th destination slot holds a capability of
    the requested type to the [i]-th piece of that place, with the size of the type: the
    new objects do not overlap each other or those in use. *)
Theorem untyped_placement s s1 slot free dev bits ptr newType userSize os dest off n status :
  let free' := if status_ok status then 0 else free in
  untyped_ok free bits ptr → getObjectSize newType userSize = Some os → 0 ≤ userSize < wordBits →
  seL4_MinUntypedBits ≤ os ≤ seL4_MaxUntypedBits → 1 ≤ n →
  cap_in s slot = Some (cap_untyped_cap free dev bits ptr) → outside ptr bits slot →
  (∀ i, 0 ≤ i < n → let x := cte_index dest (off + i) in x ≠ slot ∧ outside ptr bits x) →
  ensureNoChildren slot s = Done status s1 →
  let place := decodeUntyped_place slot (cap_untyped_cap free dev bits ptr) newType userSize os dest off n in
  ((∀ base, ¬ fits free' bits ptr os n base) ∧ ∃ s', place s = Done EXCEPTION_SYSCALL_ERROR s' ∧
     err_type (current_syscall_error s') = seL4_NotEnoughMemory ∧
     memoryLeft (current_syscall_error s') = 2 ^ bits - free' * 2 ^ seL4_MinUntypedBits) ∨
  (∃ base, fits free' bits ptr os n base ∧
     place s = (if dev && negb (Arch_isFrameType newType) && negb (newType =? seL4_UntypedObject) then invalid_argument_ret 1
       else cur ← gets ksCurThread; setThreadState cur ThreadState_Restart;;
            invokeUntyped_Retype slot (status_ok status) base newType userSize dest off n dev) s1 ∧
     wlp place (λ st s', st = EXCEPTION_NONE → retyped slot dev bits ptr newType os base dest off n s') s).
Proof.
  intros free' Hok Hsize Hus Hos Hn Hcap Hslot Hdest Hc place. pose proof (untyped_ok_reset (status_ok status) _ _ _ Hok) as Hok'. fold free' in Hok'.
  destruct (fits_exists free' bits ptr os n Hok') as [Hno Hyes]; [unfold seL4_MinUntypedBits in *; lia|done|].
  unfold wlp, place, decodeUntyped_place, mbind, M_bind. rewrite Hc. fold free'. rewrite (free_bytes _ _ _ Hok').
  rewrite Z.shiftr_div_pow2 by (unfold seL4_MinUntypedBits in *; lia).
  destruct (Z.ltb_spec ((2 ^ bits - free' * 2 ^ seL4_MinUntypedBits) / 2 ^ os) n) as [Hlt|Hge].
  - left. split; [by apply Hno|]. eexists. split; [done|]. done.
  - right. specialize (Hyes Hge). set (base := (ptr + _ + _) / _ * _) in Hyes. exists base.
    assert (alignUp (GET_FREE_REF ptr free') os = base) as -> 
      by (apply (aligned_free_ref free' bits ptr os n); [done|unfold seL4_MinUntypedBits, seL4_MaxUntypedBits in *; lia|done|done]).
    split; [done|]. destruct (_ && _); [done|]. split; [done|].
    pose proof (keeps_elim _ _ _ _ _ _ (keeps_ensureNoChildren (λ t, cap_in t slot = Some (cap_untyped_cap free dev bits ptr)) slot) Hcap Hc) as [Hcap1 _].
    change (wlp (cur ← gets ksCurThread; setThreadState cur ThreadState_Restart;;
      invokeUntyped_Retype slot (status_ok status) base newType userSize dest off n dev)
      (λ st s', st = EXCEPTION_NONE → retyped slot dev bits ptr newType os base dest off n s') s1).
    apply wlp_gets_bind, wlp_bind. eapply wlp_mono; [apply (keeps_wlp _ _ _ _ (keeps_setThreadState _ _ _) Hcap1)|].
    intros [] s2 [Hcap2 _]. by apply (retype_caps slot (status_ok status) free).
Qed.
End retype.

Section example.
#[local] Existing Instances example_platform example_platform_ok.
(** Two endpoints fit in the untyped memory of the example: they are made there, and the two
    slots hold their capabilities. *)
Definition ex_place : K exception_t :=
  decodeUntyped_place (slot1 3) (cap_untyped_cap 0 false 12 ut1) seL4_EndpointObject 0 4 cn2 1 2.
Lemma untyped_placement_witness : (∀ i, 0 ≤ i < 2 → let x := cte_index cn2 (1 + i) in x ≠ slot1 3 ∧ outside ut1 12 x) ∧
  ∃ base s', fits 0 12 ut1 4 2 base ∧ ex_place ex_state = Done EXCEPTION_NONE s' ∧
    retyped (slot1 3) false 12 ut1 seL4_EndpointObject 4 base cn2 1 2 s'.
Proof.
  assert (∀ i, 0 ≤ i < 2 → let x := cte_index cn2 (1 + i) in x ≠ slot1 3 ∧ outside ut1 12 x) as Hdest.
  { intros i Hi. assert (i = 0 ∨ i = 1) as [->| ->] by lia; (split; [by vm_compute|left; by vm_compute]). }
  split; [exact Hdest|].
  destruct (untyped_placement ex_state ex_state (slot1 3) 0 false 12 ut1 seL4_EndpointObject 0 4 cn2 1 2 EXCEPTION_NONE)
    as [[Hno _]|(base & Hf & _ & Hp)];
    [by vm_compute|by vm_compute|by vm_compute|by vm_compute|done|by vm_compute|by left; vm_compute|exact Hdest|by vm_compute| |].
  - destruct (Hno ut1). by vm_compute.
  - exists base. assert (match ex_place ex_state with Done EXCEPTION_NONE _ => True | _ => False end) as Hd by (by vm_compute).
    fold ex_place in Hp. unfold wlp in Hp. destruct (ex_place ex_state) as [[] s'|]; try (by destruct Hd).
    exists s'. split; [exact Hf|]. split; [reflexivity|]. by apply Hp.
Defined.
End example.
