(* ===== verification/IpcSpec.v ===== *)
(** * Communication

    Signals accumulate in a notification until they are received; a sender without a
    receiver waits in the queue of its endpoint, by priority; the words of a message
    arrive unchanged. *)
From S2P Require Import Prelude Words Platform State Machine Keeps DList RefillList Sporadic Budget Queues QueueSpec CapOps CSpace VSpace Thread CNode Message SchedContext Reply Notification Endpoint Example KernelSpec.

Section signals.
Context `{Platform}.

Fixpoint sendSignals (ntfnPtr : Z) (badges : list Z) : K unit :=
  match badges with [] => mret () | b :: badges => sendSignal ntfnPtr b;; sendSignals ntfnPtr badges end.

(** A notification with a pending badge, or with none. *)
Definition ntfn_pending (n : notification) (badge : option Z) : notification :=
  match badge with
  | Some b => set_ntfnMsgIdentifier b (set_ntfn_state NtfnState_Active n)
  | None => n
  end.
(** What one more signal makes of the pending badge. *)
Definition add_badge (pending : option Z) (b : Z) : option Z :=
  Some (match pending with Some b' => Z.lor b' b | None => b end).
Definition with_ntfn (p : Z) (n : notification) (s : kstate) : kstate := set_ntfns (<[p := n]> (ntfns s)) s.

Lemma with_ntfn_twice p n n' s : with_ntfn p n' (with_ntfn p n s) = with_ntfn p n' s.
Proof. unfold with_ntfn, set_ntfns. simpl. by rewrite insert_insert_eq. Qed.
Lemma mod_ntfn_with p n f s : mod_ntfn p f (with_ntfn p n s) = Done () (with_ntfn p (f n) s).
Proof.
  unfold mod_ntfn, get_ntfn, mbind, M_bind, get_state, deref, with_ntfn. simpl. rewrite lookup_insert_eq.
  unfold modify. simpl. f_equal. apply with_ntfn_twice.
Qed.
Lemma sendSignal_pending s p n pending b : ntfn_state n = NtfnState_Idle → ntfnBoundTCB n = NULL →
  sendSignal p b (with_ntfn p (ntfn_pending n pending) s) = Done () (with_ntfn p (ntfn_pending n (add_badge pending b)) s).
Proof.
  intros Hi Hb. unfold sendSignal, ntfn_set_active, mbind, M_bind. unfold get_ntfn at 1, mbind, M_bind, get_state, deref, with_ntfn at 1.
  simpl. rewrite lookup_insert_eq. fold (with_ntfn p (ntfn_pending n pending) s).
  destruct pending as [b'|]; simpl; rewrite ?Hi, ?Hb; simpl; unfold mbind, M_bind; by rewrite !mod_ntfn_with.
Qed.
Lemma sendSignals_pending s p n badges : ntfn_state n = NtfnState_Idle → ntfnBoundTCB n = NULL → ∀ pending,
  sendSignals p badges (with_ntfn p (ntfn_pending n pending) s) =
  Done () (with_ntfn p (ntfn_pending n (foldl add_badge pending badges)) s).
Proof.
  intros Hi Hb. induction badges as [|b badges IH]; intros pending; [done|]. simpl. unfold mbind, M_bind.
  by rewrite sendSignal_pending, IH.
Qed.
Lemma fold_badges badges b : foldl add_badge (Some b) badges = Some (foldl Z.lor b badges).
Proof. revert b. induction badges as [|b' badges IH]; intros b; [done|]. apply IH. Qed.

(** C30: The signals sent to an idle notification are received together, as the
    bitwise or of their badges, after which the notification is idle again; nothing
    else changes. *)
Theorem signals_roundtrip s p n b badges thread t cbadge canRecv canSend isBlocking :
  ntfns s !! p = Some n → ntfn_state n = NtfnState_Idle → ntfnBoundTCB n = NULL →
  tcbs s !! thread = Some t → tcbSchedContext t ≠ NULL → tcbSchedContext t = ksCurSC s →
  let badge := foldl Z.lor b badges in
  (sendSignals p (b :: badges);; receiveSignal thread (cap_notification_cap cbadge canRecv canSend p) isBlocking) s =
  Done () (with_ntfn p (set_ntfnMsgIdentifier badge n) (with_regs s thread t (<[badgeRegister := badge]> (tcbContext t)))).
Proof.
  intros Hn Hi Hb Ht Hsc Hcur badge.
  assert (with_ntfn p (ntfn_pending n None) s = s) as Hs by (unfold with_ntfn, set_ntfns; destruct s; simpl in *; by rewrite insert_id).
  unfold mbind at 1, M_bind. rewrite <-Hs at 1. rewrite sendSignals_pending by done.
  change (foldl add_badge None (b :: badges)) with (foldl add_badge (Some b) badges). rewrite fold_badges. fold badge.
  set (n1 := ntfn_pending n (Some badge)). set (s2 := with_regs s thread t (<[badgeRegister := badge]> (tcbContext t))).
  assert (get_ntfn p (with_ntfn p n1 s) = Done n1 (with_ntfn p n1 s)) as E1.
  { unfold get_ntfn, mbind, M_bind, get_state, deref, with_ntfn. simpl. by rewrite lookup_insert_eq. }
  assert (setRegister thread badgeRegister badge (with_ntfn p n1 s) = Done () (with_ntfn p n1 s2)) as E2.
  { unfold setRegister, mod_tcb, get_tcb, mbind, M_bind, get_state, deref, with_ntfn. simpl. by rewrite Ht. }
  assert (∀ n, get_tcb thread (with_ntfn p n s2) = Done (set_tcbContext (<[badgeRegister := badge]> (tcbContext t)) t) (with_ntfn p n s2)) as E3.
  { intros n'. unfold get_tcb, mbind, M_bind, get_state, deref, with_ntfn, s2, with_regs. simpl. by rewrite lookup_insert_eq. }
  unfold receiveSignal, maybeDonateSchedContext, mbind, M_bind, mret, M_ret. rewrite E1.
  change (ntfn_state n1) with NtfnState_Active. cbv iota. change (ntfnMsgIdentifier n1) with badge.
  cbv beta. rewrite E2, mod_ntfn_with, E3. simpl tcbSchedContext. rewrite (proj2 (Z.eqb_neq _ _) Hsc). simpl when. unfold mret, M_ret.
  rewrite E3. unfold gets. simpl. rewrite (proj2 (Z.eqb_eq _ _) Hcur). unfold n1. simpl.
  do 2 f_equal. unfold set_ntfn_state, set_ntfnMsgIdentifier. destruct n; simpl in *. by rewrite Hi.
Qed.
End signals.

(** ** Waiting at an endpoint *)
Section waiting.
Context `{Platform}.

Definition with_ts (s : kstate) (p : Z) (t : tcb) (ts : thread_state) : kstate :=
  set_tcbs (<[p := set_tcbState ts t]> (tcbs s)) s.
Lemma with_ts_id s p t : tcbs s !! p = Some t → with_ts s p t (tcbState t) = s.
Proof. intros Ht. unfold with_ts. destruct t, s; unfold set_tcbs; simpl in *. by rewrite insert_id. Qed.
Lemma with_ts_lookup s p t ts : tcbs (with_ts s p t ts) !! p = Some (set_tcbState ts t).
Proof. apply lookup_insert_eq. Qed.
Lemma wp_mod_ts s p t ts f Q : Q () (with_ts s p t (f ts)) → wp (mod_ts p f) Q (with_ts s p t ts).
Proof.
  intros HQ. eapply wp_mod_tcb; [apply with_ts_lookup|]. unfold with_ts, set_tcbs in *. simpl in *.
  by rewrite insert_insert_eq.
Qed.
(** The links and the priorities are not part of the thread state. *)
Lemma with_ts_links s p t ts x : tcbs s !! p = Some t → ep_links (with_ts s p t ts) x = ep_links s x.
Proof.
  intros Ht. unfold ep_links, with_ts. simpl. destruct (decide (x = p)) as [->|]; [by rewrite lookup_insert_eq, Ht|].
  by rewrite lookup_insert_ne.
Qed.
Lemma with_ts_prio s p t ts x : tcbs s !! p = Some t → prio_of (with_ts s p t ts) x = prio_of s x.
Proof.
  intros Ht. unfold prio_of, with_ts. simpl. destruct (decide (x = p)) as [->|]; [by rewrite lookup_insert_eq, Ht|].
  by rewrite lookup_insert_ne.
Qed.
(** A thread that is not runnable gives up the processor. *)
Definition yields (x : Z) (s : kstate) : kstate :=
  if (x =? ksCurThread s) && (ksSchedulerAction s =? SchedulerAction_ResumeCurrentThread)
  then set_ksSchedulerAction SchedulerAction_ChooseNewThread s else s.
Lemma scheduleTCB_blocked s x t Q : tcbs s !! x = Some t → isRunnable t = false → Q () (yields x s) → wp (scheduleTCB x) Q s.
Proof.
  intros Ht Hr HQ. unfold yields in HQ. apply wp_bind, wp_gets, wp_bind, wp_gets. apply wp_when; intros E; rewrite E in HQ; [|done].
  apply wp_bind, wp_bind. eapply wp_get_tcb; [done|]. rewrite Hr. by apply wp_ret, wp_modify.
Qed.

(** The endpoint at [ep] is in state [st] and the threads [l] wait at it. *)
Definition ep_holds (s : kstate) (ep : Z) (st : endpoint_state) (l : list Z) : Prop :=
  ∃ e, eps s !! ep = Some e ∧ ep_state e = st ∧ dlist (ep_links s) l (ep_queue e).
(** A thread joins the queue of an endpoint: the common end of blocking on one. *)
Lemma wp_join_queue s x t ep e st l Q :
  eps s !! ep = Some e → dlist (ep_links s) l (ep_queue e) → tcbs s !! x = Some t →
  x ∉ l → x ≠ NULL → Z.of_nat (length l) < 2 ^ 64 →
  (∀ s' l1 l2, l = l1 ++ l2 → ep_position (prio_of s) x l1 l2 → ep_holds s' ep st (l1 ++ x :: l2) →
     tcbState <$> tcbs s' !! x = Some (tcbState t) → ksSchedulerAction s' = ksSchedulerAction s → Q () s') →
  wp (queue ← ep_ptr_get_queue ep; queue ← tcbEPAppend x queue; mod_ep ep (set_ep_state st);; ep_ptr_set_queue ep queue) Q s.
Proof.
  intros He Hq Hx Hnl Hx0 Hlen HQ. apply wp_bind, wp_bind. eapply wp_get_ep; [done|]. apply wp_ret, wp_bind.
  eapply wp_tcbEPAppend; [done..|]. intros q' s1 l1 l2 Hl Hpos Hq' (T & -> & Hclear & Hsame).
  apply wp_bind. eapply wp_mod_ep; [done|]. apply wp_bind. eapply wp_mod_ep; [apply lookup_insert_eq|].
  eapply wp_mod_ep; [apply lookup_insert_eq|]. apply (HQ _ l1 l2); [done..| | |done].
  - eexists. split; [apply lookup_insert_eq|]. split; [done|]. by destruct q'.
  - simpl. specialize (Hclear x). rewrite Hx in Hclear. destruct (T !! x) as [t'|]; [|done].
    simpl in *. unfold clear_ep in Hclear. f_equal. by injection Hclear.
Qed.

(** The state of a thread blocked on sending. *)
Definition blocked_on_send (ts : thread_state) (ep badge : Z) (canGrant canGrantReply isCall : bool) : thread_state :=
  ThreadState badge canGrant canGrantReply isCall (tcbQueued ts) (tcbInReleaseQueue ts) ep (replyObject ts) ThreadState_BlockedOnSend.

(** C27: Sending to an endpoint without a receiver changes nothing when it must not
    block; otherwise the sender joins the queue behind all senders of at least its
    priority, in order, remembers its badge and rights, and gives up the processor. *)
Theorem sendIPC_waits s x t ep st l badge isCall canGrant canGrantReply canDonate :
  ep_holds s ep st l → st = EPState_Idle ∨ st = EPState_Send →
  tcbs s !! x = Some t → x ∉ l → x ≠ NULL → Z.of_nat (length l) < 2 ^ 64 →
  sendIPC false isCall badge canGrant canGrantReply canDonate x ep s = Done () s ∧
  ∃ s' l1 l2, sendIPC true isCall badge canGrant canGrantReply canDonate x ep s = Done () s' ∧
    l = l1 ++ l2 ∧ ep_position (prio_of s) x l1 l2 ∧ ep_holds s' ep EPState_Send (l1 ++ x :: l2) ∧
    tcbState <$> tcbs s' !! x = Some (blocked_on_send (tcbState t) ep badge canGrant canGrantReply isCall) ∧
    (x = ksCurThread s → ksSchedulerAction s' ≠ SchedulerAction_ResumeCurrentThread).
Proof.
  intros (e & He & Hst & Hq) Hst' Hx Hnl Hx0 Hlen.
  assert (∀ b, sendIPC b isCall badge canGrant canGrantReply canDonate x ep s =
    when b (mod_ts x (set_tsType ThreadState_BlockedOnSend);; mod_ts x (set_blockingObject ep);;
      mod_ts x (set_blockingIPCBadge badge);; mod_ts x (set_blockingIPCCanGrant canGrant);;
      mod_ts x (set_blockingIPCCanGrantReply canGrantReply);; mod_ts x (set_blockingIPCIsCall isCall);; scheduleTCB x;;
      queue ← ep_ptr_get_queue ep; queue ← tcbEPAppend x queue; mod_ep ep (set_ep_state EPState_Send);;
      ep_ptr_set_queue ep queue) s) as E.
  { intros b. assert (get_ep ep s = Done e s) as Eg by (unfold get_ep, mbind, M_bind, get_state, deref; by rewrite He).
    unfold sendIPC. unfold mbind at 1, M_bind at 1. rewrite Eg, Hst. by destruct Hst' as [-> | ->]. }
  split; [by rewrite E|]. setoid_rewrite E. simpl when.
  set (ts := blocked_on_send (tcbState t) ep badge canGrant canGrantReply isCall). set (s1 := yields x (with_ts s x t ts)).
  match goal with |- ∃ s' l1 l2, ?m s = _ ∧ _ => enough (wp m (λ _ s', ∃ l1 l2, l = l1 ++ l2 ∧ ep_position (prio_of s) x l1 l2 ∧
    ep_holds s' ep EPState_Send (l1 ++ x :: l2) ∧ tcbState <$> tcbs s' !! x = Some ts ∧
    ksSchedulerAction s' = ksSchedulerAction s1) (with_ts s x t (tcbState t))) as Hw end.
  { rewrite with_ts_id in Hw by done. apply wp_unit in Hw as (s' & Hs' & l1 & l2 & ? & ? & ? & ? & Hact). exists s', l1, l2.
    split_and!; try done. intros ->. rewrite Hact. unfold s1, yields. simpl. rewrite Z.eqb_refl. simpl.
    destruct (Z.eqb_spec (ksSchedulerAction s) SchedulerAction_ResumeCurrentThread); done. }
  do 6 apply wp_bind, wp_mod_ts. change (set_blockingIPCIsCall _ _) with ts.
  apply wp_bind. eapply scheduleTCB_blocked; [apply with_ts_lookup|done|]. fold s1.
  assert (tcbs s1 = tcbs (with_ts s x t ts) ∧ eps s1 = eps s) as [Ht1 He1] by (unfold s1, yields; by case_match).
  assert (∀ y, ep_links s1 y = ep_links s y) as Hlk by (intros y; unfold ep_links at 1; rewrite Ht1; by apply with_ts_links).
  assert (∀ y, prio_of s1 y = prio_of s y) as Hpr by (intros y; unfold prio_of at 1; rewrite Ht1; by apply with_ts_prio).
  eapply (wp_join_queue s1 x (set_tcbState ts t)); [by rewrite He1| |by rewrite Ht1, with_ts_lookup|done..|].
  { destruct Hq as (Hnd & Hseg & Hh & Hend). split_and!; [done| |done|done]. eapply dseg_frame; [|done]. auto. }
  intros s' l1 l2 Hl Hpos Hh Hts Hact. exists l1, l2. split_and!; try done.
  destruct Hpos as [Hlow Hlast]. split; [eapply Forall_impl; [done|]; intros y; by rewrite !Hpr|].
  intros b Hb. rewrite <-!Hpr. by apply Hlast.
Qed.
End waiting.

(** ** The words of a message *)
Section message.

(** Word [i] of the message of a thread with IPC buffer [buffer]. *)
Definition msg_word (s : kstate) (thread buffer i : Z) : Z :=
  if i <? n_msgRegisters
  then wrap (default 0 ((t ← tcbs s !! thread; tcbContext t !! msg_register i)))
  else wrap (default 0 (user_mem s !! (buffer + 8 * (i + 1)))).

Lemma msg_register_inj i j : 0 ≤ i < n_msgRegisters → 0 ≤ j < n_msgRegisters → msg_register i = msg_register j → i = j.
Proof.
  change n_msgRegisters with 4. intros Hi Hj.
  assert (i = 0 ∨ i = 1 ∨ i = 2 ∨ i = 3) as [->|[->|[->| ->]]] by lia;
  assert (j = 0 ∨ j = 1 ∨ j = 2 ∨ j = 3) as [->|[->|[->| ->]]] by lia; done.
Qed.
Lemma wrap_wrap x : wrap (wrap x) = wrap x.
Proof. apply wrap_small, wrap_word. Qed.

(** The words in registers *)
Lemma copy_registers s sender receiver ts tr n Q :
  tcbs s !! sender = Some ts → tcbs s !! receiver = Some tr → sender ≠ receiver → 0 ≤ n ≤ n_msgRegisters →
  (∀ ctx, (∀ i, 0 ≤ i < n → wrap (default 0 (ctx !! msg_register i)) = wrap (default 0 (tcbContext ts !! msg_register i))) →
     Q () (with_regs s receiver tr ctx)) →
  wp (for_range 0 n (λ i, w ← getRegister sender (msg_register i); setRegister receiver (msg_register i) w)) Q s.
Proof.
  intros Hs Hr Hne Hn HQ.
  apply (wp_for_range (λ k s', ∃ ctx, s' = with_regs s receiver tr ctx ∧
    ∀ i, 0 ≤ i < k → wrap (default 0 (ctx !! msg_register i)) = wrap (default 0 (tcbContext ts !! msg_register i)))); [lia| | |].
  - exists (tcbContext tr). split; [by rewrite with_regs_id|lia].
  - intros k s' Hk (ctx & -> & Hctx). apply wp_bind, wp_bind.
    eapply wp_get_tcb; [simpl; by rewrite lookup_insert_ne|]. apply wp_ret.
    eapply wp_mod_tcb; [apply lookup_insert_eq|]. eexists. split.
    + unfold with_regs, set_tcbs. simpl. by rewrite insert_insert_eq.
    + intros i Hi. simpl. destruct (decide (i = k)) as [->|Hik]; [by rewrite lookup_insert_eq; apply wrap_wrap|].
      rewrite lookup_insert_ne; [apply Hctx; lia|]. intros ?%msg_register_inj; lia.
  - intros s' (ctx & -> & Hctx). by apply HQ.
Qed.
(** The words in buffers that do not overlap *)
Lemma copy_buffer s sendBuf recvBuf lo n Q : lo ≤ n →
  (∀ i j, lo ≤ i < n → lo ≤ j < n → sendBuf + 8 * (i + 1) ≠ recvBuf + 8 * (j + 1)) →
  (∀ mem, (∀ i, lo ≤ i < n → wrap (default 0 (mem !! (recvBuf + 8 * (i + 1)))) = wrap (default 0 (user_mem s !! (sendBuf + 8 * (i + 1))))) →
     Q () (set_user_mem mem s)) →
  wp (for_range lo n (λ i, w ← load_word sendBuf (i + 1); store_word recvBuf (i + 1) w)) Q s.
Proof.
  intros Hn Hdis HQ.
  apply (wp_for_range (λ k s', ∃ mem, s' = set_user_mem mem s ∧
    (∀ i, lo ≤ i < k → wrap (default 0 (mem !! (recvBuf + 8 * (i + 1)))) = wrap (default 0 (user_mem s !! (sendBuf + 8 * (i + 1))))) ∧
    (∀ i, lo ≤ i < n → mem !! (sendBuf + 8 * (i + 1)) = user_mem s !! (sendBuf + 8 * (i + 1))))); [lia| | |].
  - exists (user_mem s). split_and!; [by destruct s|lia|done].
  - intros k s' Hk (mem & -> & Hmem & Hkeep). apply wp_bind, wp_gets, wp_modify. simpl. eexists. split; [done|]. split.
    + intros i Hi. destruct (decide (i = k)) as [->|Hik].
      * rewrite lookup_insert_eq. simpl. rewrite Hkeep by lia. apply wrap_wrap.
      * rewrite lookup_insert_ne by lia. apply Hmem. lia.
    + intros i Hi. rewrite lookup_insert_ne; [by apply Hkeep|]. intros E. by apply (Hdis i k).
  - intros s' (mem & -> & Hmem & _). by apply HQ.
Qed.

(** Every word of a message arrives unchanged, the first four in registers and
    the rest in the IPC buffers, when the buffers do not overlap; without buffers the
    message is cut to the registers. Other threads are unchanged. *)
Theorem copyMRs_ok s sender sendBuf receiver recvBuf n ts tr :
  tcbs s !! sender = Some ts → tcbs s !! receiver = Some tr → sender ≠ receiver → 0 ≤ n →
  (∀ i j, n_msgRegisters ≤ i < n → n_msgRegisters ≤ j < n → sendBuf + 8 * (i + 1) ≠ recvBuf + 8 * (j + 1)) →
  ∃ k s', copyMRs sender sendBuf receiver recvBuf n s = Done k s' ∧
    k = (if (recvBuf =? NULL) || (sendBuf =? NULL) then Z.min n n_msgRegisters else n) ∧
    (∀ i, 0 ≤ i < k → msg_word s' receiver recvBuf i = msg_word s sender sendBuf i) ∧
    ∀ x, x ≠ receiver → tcbs s' !! x = tcbs s !! x.
Proof.
  intros Hs Hr Hne Hn Hdis. apply wp_done. unfold copyMRs. apply wp_bind.
  eapply copy_registers; [done..|unfold n_msgRegisters; lia|]. intros ctx Hctx.
  assert (∀ mem i, 0 ≤ i < Z.min n n_msgRegisters →
    msg_word (set_user_mem mem (with_regs s receiver tr ctx)) receiver recvBuf i = msg_word s sender sendBuf i) as Hreg.
  { intros mem i Hi. unfold msg_word. simpl. rewrite (proj2 (Z.ltb_lt _ _)) by lia. rewrite lookup_insert_eq, Hs. by apply Hctx. }
  assert (∀ x, x ≠ receiver → tcbs (with_regs s receiver tr ctx) !! x = tcbs s !! x) as Ho
    by (intros x Hx; simpl; by rewrite lookup_insert_ne).
  destruct ((recvBuf =? NULL) || (sendBuf =? NULL)).
  - apply wp_ret. split_and!; [done| |done]. intros i Hi. by apply (Hreg (user_mem s)).
  - apply wp_bind. apply copy_buffer; [lia|intros i j Hi Hj; apply Hdis; lia|]. intros mem Hmem. apply wp_ret. split_and!; [done| |done].
    intros i Hi. destruct (Z.ltb_spec i n_msgRegisters) as [Hlt|Hge]; [apply Hreg; lia|].
    unfold msg_word. rewrite (proj2 (Z.ltb_ge _ _)) by done. simpl. apply Hmem. lia.
Qed.
End message.

Section example.
#[local] Existing Instance example_platform.

Lemma ex_tA : ∃ t, tcbs ex_state !! tA = Some t ∧ tcbSchedContext t = scA.
Proof. eexists. by split. Qed.
Lemma signals_witness : ∃ s', (sendSignals nt1 [1; 4; 2];; receiveSignal tA (cap_notification_cap 0 true true nt1) true) ex_state =
  Done () s' ∧ (t ← tcbs s' !! tA; tcbContext t !! badgeRegister) = Some 7.
Proof.
  destruct ex_tA as (t & Ht & Hsc). eexists. split.
  - apply (signals_roundtrip ex_state nt1 (Notification NULL NULL 0 NULL NULL NtfnState_Idle) 1 [4; 2] tA t); try done; by rewrite Hsc.
  - simpl. rewrite lookup_insert_eq. simpl. by rewrite lookup_insert_eq.
Defined.

Lemma sendIPC_waits_witness : ∃ s', sendIPC true false 7 true true false tA ep1 ex_state = Done () s' ∧
  ep_holds s' ep1 EPState_Send [tA].
Proof.
  destruct ex_tA as (t & Ht & _).
  destruct (sendIPC_waits ex_state tA t ep1 EPState_Idle [] 7 false true true false) as (_ & s' & l1 & l2 & E & Hl & _ & Hep & _);
    try done; [|by left|by apply not_elem_of_nil|].
  - eexists. split; [done|]. split; [done|]. apply dlist_nil.
  - exists s'. symmetry in Hl. by apply app_nil in Hl as [-> ->].
Defined.

Lemma copyMRs_witness : ∃ s', copyMRs tA 0x100000 tB 0x200000 6 ex_state = Done 6 s' ∧
  ∀ i, 0 ≤ i < 6 → msg_word s' tB 0x200000 i = msg_word ex_state tA 0x100000 i.
Proof.
  destruct ex_tA as (t & Ht & _). destruct (tcbs ex_state !! tB) as [r|] eqn:Hr; [|done].
  destruct (copyMRs_ok ex_state tA 0x100000 tB 0x200000 6 t r) as (k & s' & E & -> & Hm & _); try done; [|by exists s'].
  change n_msgRegisters with 4. lia.
Defined.
End example.
