(* ===== verification/SchedSpec.v ===== *)
(** * What the scheduler promises

    The operations on the ready queues and the release queue as operations on
    lists, and the choice of the next thread: [chooseThread] switches to the
    first thread of the highest occupied priority of the current domain, or to
    the idle thread. *)
From stdpp Require Import sorting.
From S2P Require Import Prelude Words Platform State Keeps RefillList Sporadic Budget DList Queues QueueSpec Bitmap ReadyQueues CapOps CSpace VSpace Thread Frames Example Machine.

(** ** The queues of ready threads leave the timer alone *)
Definition reprogram_is (r : bool) (s : kstate) : Prop := ksReprogram s = r.
Section reprogram.
Context `{Platform} (r : bool).
#[local] Abbreviation I := (reprogram_is r).
Lemma reprogram_modify f : (∀ s, ksReprogram (f s) = ksReprogram s) → kept I (modify f).
Proof. intros Hf. apply keeps_modify. intros s Hs. unfold reprogram_is. by rewrite Hf. Qed.
Lemma reprogram_mod_tcb p f : kept I (mod_tcb p f).
Proof. unfold mod_tcb. keep. by apply reprogram_modify. Qed.
Lemma reprogram_set_ready_queue idx q : kept I (set_ready_queue idx q).
Proof. unfold set_ready_queue, get_ready_queue. keep. by apply reprogram_modify. Qed.
Lemma reprogram_set_l1 dom w : kept I (set_l1 dom w).
Proof. unfold set_l1, get_l1. keep. by apply reprogram_modify. Qed.
Lemma reprogram_set_l2 dom i w : kept I (set_l2 dom i w).
Proof. unfold set_l2, get_l2. keep. by apply reprogram_modify. Qed.
Lemma reprogram_sufficient sc u : kept I (sc_refill_sufficient sc u).
Proof. apply keeps_intro. intros s Hs. unfold sc_refill_sufficient, on_sc. unfold wlp. destruct (scs s !! sc); [|done]. by destruct (refill_sufficient _ _). Qed.
#[local] Hint Resolve reprogram_mod_tcb reprogram_set_ready_queue reprogram_set_l1 reprogram_set_l2 reprogram_sufficient : keeps.
Lemma reprogram_enqueue x : kept I (tcbSchedEnqueue x).
Proof. unfold tcbSchedEnqueue, get_ready_queue, ready_queues_index, addToBitmap, invert_l1index, get_l1, get_l2, tcb_queue_prepend, mod_ts. keep. Qed.
Lemma reprogram_dequeue x : kept I (tcbSchedDequeue x).
Proof. unfold tcbSchedDequeue, get_ready_queue, ready_queues_index, removeFromBitmap, invert_l1index, get_l1, get_l2, tcb_queue_remove, mod_ts. keep. Qed.
End reprogram.
Lemma wp_keeps {A} (I : kstate → Prop) (m : K A) P Q s : keeps I m P → I s → wp m (λ a s', I s' → P a → Q a s') s → wp m Q s.
Proof.
  intros Hk HI Hm. destruct (proj1 (wp_done _ _ _) Hm) as (a & s' & E & HQ).
  apply wp_done. exists a, s'. split; [done|]. destruct (keeps_elim _ _ _ _ _ _ Hk HI E). auto.
Qed.

Section spec.
Context `{Platform}.

(** The thread at [x] is schedulable and its head refill is released and sufficient. *)
Definition can_run (s : kstate) (x : Z) : Prop :=
  ∃ t, tcbs s !! x = Some t ∧ isSchedulable x s = Done true s ∧
    sc_refill_sufficient (tcbSchedContext t) 0 s = Done true s ∧
    sc_refill_ready (tcbSchedContext t) s = Done true s.

(** The outcome of an operation on the queue [n]: it returns, keeps the
    scheduler's invariant, changes the queue to [l'] and nothing else. *)
Definition queue_op (m : K unit) (n : qname) (l' : list Z) (s : kstate) : Prop :=
  ∃ s', m s = Done () s' ∧ sched_inv s' ∧ sched_only s s' ∧ queue_holds s' n l' ∧ others_kept n s s'.

Lemma queue_op_wp m n l' s :
  (∀ Q : unit → kstate → Prop,
     (∀ s', sched_inv s' → sched_only s s' → queue_holds s' n l' → others_kept n s s' → Q () s') → wp m Q s) →
  queue_op m n l' s.
Proof.
  intros Hwp. apply (wp_unit m (λ _ s', sched_inv s' ∧ sched_only s s' ∧ queue_holds s' n l' ∧ others_kept n s s')).
  apply Hwp. auto.
Qed.

(** Enqueueing a runnable thread that is in no queue puts it in front of the
    ready queue of its domain and priority, appending puts it at the back; the
    scheduler's invariant (queues, flags, links and bitmap agree) is kept and
    every other queue is unchanged. *)
Theorem ready_enqueue_ok s x t l :
  sched_inv s → tcbs s !! x = Some t → can_run s x →
  tcbQueued (tcbState t) = false → tcbInReleaseQueue (tcbState t) = false →
  queue_holds s (Qready (tcbDomain t) (tcbPriority t)) l →
  queue_op (tcbSchedEnqueue x) (Qready (tcbDomain t) (tcbPriority t)) (x :: l) s ∧
  queue_op (tcbSchedAppend x) (Qready (tcbDomain t) (tcbPriority t)) (l ++ [x]) s.
Proof.
  intros Hinv Hx (t' & Hx' & Hs & Hsuf & Hrdy) Hq Hr Hl. simplify_eq.
  split; apply queue_op_wp; intros Q HQ.
  - eapply tcbSchedEnqueue_spec; eauto.
  - eapply tcbSchedAppend_spec; eauto.
Qed.

(** Dequeueing removes a queued thread from its ready queue, wherever it is
    in it, keeps the order of the others and the scheduler's invariant; a thread
    that is not queued is left alone. *)
Theorem ready_dequeue_ok s x t l1 l2 :
  sched_inv s → tcbs s !! x = Some t →
  if tcbQueued (tcbState t) then
    queue_holds s (Qready (tcbDomain t) (tcbPriority t)) (l1 ++ x :: l2) →
    queue_op (tcbSchedDequeue x) (Qready (tcbDomain t) (tcbPriority t)) (l1 ++ l2) s
  else tcbSchedDequeue x s = Done () s.
Proof.
  intros Hinv Hx. destruct (tcbQueued (tcbState t)) eqn:Hq.
  - intros Hl. apply queue_op_wp. intros Q HQ. eapply tcbSchedDequeue_spec; eauto.
  - unfold tcbSchedDequeue, get_tcb, mbind, M_bind, get_state, deref. by rewrite Hx, Hq.
Qed.

(** C37: A thread that waits for its budget is inserted into the release queue
    behind every thread released no later and before every thread released
    later, so the queue stays sorted by release time; the timer is marked for
    reprogramming when the thread becomes the first one. *)
Theorem release_enqueue_ok s x t r l :
  sched_inv s → tcbs s !! x = Some t → tcbQueued (tcbState t) = false → tcbInReleaseQueue (tcbState t) = false →
  release_sorted s l → Z.of_nat (length l) < 2 ^ 64 → ready_time s x = Some r →
  ∃ s' l1 l2, tcbReleaseEnqueue x s = Done () s' ∧ l = l1 ++ l2 ∧ release_position s r l1 l2 ∧
    sched_inv s' ∧ sched_only s s' ∧ release_sorted s' (l1 ++ x :: l2) ∧ others_kept Qrelease s s' ∧
    (l1 = [] → ksReprogram s' = true).
Proof.
  intros. destruct (wp_unit (tcbReleaseEnqueue x) (λ _ s', ∃ l1 l2, l = l1 ++ l2 ∧ release_position s r l1 l2 ∧
    sched_inv s' ∧ sched_only s s' ∧ release_sorted s' (l1 ++ x :: l2) ∧ others_kept Qrelease s s' ∧
    (l1 = [] → ksReprogram s' = true)) s) as (s' & ? & l1 & l2 & ?).
  - eapply tcbReleaseEnqueue_spec; eauto 15.
  - by exists s', l1, l2.
Qed.

(** The two-level bitmap answers which priority to run: if some thread of the
    domain is ready, [getHighestPrio] returns the greatest priority of a ready
    thread of the domain, and changes nothing. *)
Theorem highest_prio_ok s dom p x :
  sched_inv s → 0 ≤ dom < numDomains → 0 ≤ p < 256 → ready (qview s) dom p x →
  ∃ h y, getHighestPrio dom s = Done h s ∧ ready (qview s) dom h y ∧
    ∀ p' z, ready (qview s) dom p' z → p' ≤ h.
Proof.
  intros (Hq & Hbm & _) Hd Hp Hx. destruct (Hbm dom Hd) as (R & HR & Hm).
  destruct (proj1 (wp_done (getHighestPrio dom) (λ h s', s' = s ∧ 0 ≤ h < 256 ∧ R h = true ∧
    ∀ p', 0 ≤ p' < 256 → R p' = true → p' ≤ h) s)) as (h & s' & Heq & -> & Hh & HRh & Hmax).
  { eapply getHighestPrio_spec; [done| |by auto]. exists p. split; [done|]. apply Hm; eauto. }
  destruct (proj1 (Hm h Hh) HRh) as [y Hy]. exists h, y. split_and!; [done..|].
  intros p' z Hz. assert (valid_slot dom p') as [_ Hp'].
  { destruct Hz as (r & Hz). apply (qok_slots _ _ _ _ Hq _ _ Hz). }
  apply Hmax; [done|]. apply Hm; eauto.
Qed.

(** ** Choosing a thread *)
Lemma wp_exec {A} (m : K A) a s s' Q : m s = Done a s' → Q a s' → wp m Q s.
Proof. unfold wp. by intros ->. Qed.

Lemma isSchedulable_inv s x t :
  tcbs s !! x = Some t → isSchedulable x s = Done true s →
  tcbSchedContext t ≠ NULL ∧ tcbInReleaseQueue (tcbState t) = false.
Proof.
  intros Hx. unfold isSchedulable, get_tcb, mbind, M_bind, get_state, deref. rewrite Hx.
  destruct (isRunnable t); simpl; [|done]. destruct (Z.eqb_spec (tcbSchedContext t) NULL); simpl; [done|].
  unfold get_sc, mbind, M_bind, get_state, deref. destruct (scs s !! tcbSchedContext t) as [c|]; [|done].
  intros [= E]. by apply andb_prop in E as [_ ?%negb_true_iff].
Qed.

(** Some priority of the domain is marked in the bitmap exactly when its first level is not zero. *)
Lemma bitmap_occupied w1 row R : bm_repr w1 row R → w1 ≠ 0 → ∃ p, 0 ≤ p < 256 ∧ R p = true.
Proof.
  intros Hbr Hw. destruct (decide (Exists (λ p, R p = true) (seqZ 0 256))) as [(p & Hp & ?)%Exists_exists|Hno].
  - exists p. by apply elem_of_seqZ in Hp.
  - destruct Hw. apply (bm_repr_empty _ _ _ Hbr). intros p Hp. destruct (R p) eqn:E; [|done].
    destruct Hno. apply Exists_exists. exists p. split; [by apply elem_of_seqZ|done].
Qed.

Lemma ready_tcb s dom p x t :
  sched_inv s → ready (qview s) dom p x → tcbs s !! x = Some t →
  tcbQueued (tcbState t) = true ∧ tcbInReleaseQueue (tcbState t) = false ∧ tcbDomain t = dom ∧ tcbPriority t = p.
Proof.
  intros (Hq & _) (r & Hrx) Hx. pose proof (qok_excl _ _ _ _ Hq _ _ Hrx) as E. simpl in E. subst r.
  unfold qview in Hrx. rewrite Hx in Hrx. injection Hrx. auto.
Qed.
Lemma ready_valid s dom p x : sched_inv s → ready (qview s) dom p x → valid_slot dom p.
Proof. intros (Hq & _) (r & Hx). apply (qok_slots _ _ _ _ Hq _ _ Hx). Qed.

Section choose.
Context `{!PlatformOk}.

(** [x] is the current thread in its address space; the rest is [s] up to the queues. *)
Definition switched_to (x : Z) (s s' : kstate) : Prop :=
  ∃ s1, setVMRoot x s = Done () s1 ∧ satp_written (thread_satp s x) s s1 ∧
    sched_only (set_ksCurThread x s1) s' ∧ ksReprogram s' = ksReprogram s.
Lemma switched_to_current x s s' : switched_to x s s' → ksCurThread s' = x ∧ dev_satp (devices s') = thread_satp s x.
Proof.
  intros (s1 & _ & (lf & ->) & [E _] & _). pose proof (f_equal ksCurThread E) as E1.
  by pose proof (f_equal (λ s, dev_satp (devices s)) E) as E2.
Qed.

Lemma switchToThread_spec s x t l1 l2 Q :
  sched_inv s → tcbs s !! x = Some t → can_run s x → vroot_ok s x → tcbQueued (tcbState t) = true →
  queue_holds s (Qready (tcbDomain t) (tcbPriority t)) (l1 ++ x :: l2) →
  (∀ s', sched_inv s' → switched_to x s s' →
     queue_holds s' (Qready (tcbDomain t) (tcbPriority t)) (l1 ++ l2) → others_kept (Qready (tcbDomain t) (tcbPriority t)) s s' → Q () s') →
  wp (switchToThread x) Q s.
Proof.
  intros Hinv Hx (t' & Hx' & Hs & Hsuf & Hrdy) Hvr Hqd Hl HQ. simplify_eq.
  destruct (isSchedulable_inv _ _ _ Hx Hs) as [Hsc Hrl].
  apply wp_bind. eapply wp_get_tcb; [done|].
  apply wp_bind, wp_assert; [by apply negb_true_iff, Z.eqb_neq|]. apply wp_bind, wp_assert; [by rewrite Hrl|].
  apply wp_bind. eapply wp_exec; [done|]. apply wp_bind, wp_assert; [done|].
  apply wp_bind. eapply wp_exec; [done|]. apply wp_bind, wp_assert; [done|].
  destruct (setVMRoot_spec s x Hvr) as (s1 & Hroot & lf & ->).
  apply wp_bind. eapply wp_exec; [exact Hroot|].
  apply wp_bind. eapply wp_keeps; [apply (reprogram_dequeue (ksReprogram s))|done|].
  eapply (tcbSchedDequeue_spec _ x t); [exact Hinv|done|done|exact Hl|]. intros s' Hinv' Hso HV Hl' Hok Hrep _.
  apply wp_modify. apply HQ; [done| |done|done].
  eexists; split; [exact Hroot|]. split; [by eexists|]. split; [|done]. destruct Hso as [E HT]. split; [|exact HT].
  by apply (f_equal (set_ksCurThread x)) in E.
Qed.

Lemma chooseThread_ready_spec s p x l Q :
  sched_inv s → 0 ≤ ksCurDomain s < numDomains →
  queue_holds s (Qready (ksCurDomain s) p) (x :: l) →
  (∀ p' z, ready (qview s) (ksCurDomain s) p' z → p' ≤ p) → can_run s x → vroot_ok s x →
  (∀ s', sched_inv s' → switched_to x s s' →
     queue_holds s' (Qready (ksCurDomain s) p) l → others_kept (Qready (ksCurDomain s) p) s s' → Q () s') →
  wp chooseThread Q s.
Proof.
  intros Hinv Hd Hl Hmax Hrun Hvr HQ. pose proof Hrun as (t & Hx & Hs & Hsuf & Hrdy).
  pose proof Hinv as (Hq & Hbm & Hn & Hnull). set (dom := ksCurDomain s) in *.
  assert (ready (qview s) dom p x) as Hrx by (apply (queue_holds_member _ _ _ Hl); by left).
  destruct (ready_tcb _ _ _ _ _ Hinv Hrx Hx) as (Hqd & Hrl & Etd & Etp).
  pose proof (ready_valid _ _ _ _ Hinv Hrx) as Hvs.
  destruct (Hbm dom Hd) as (R & HR & Hm). pose proof HR as (w1 & row & Hw1 & _ & Hbr).
  assert (R p = true) as HRp by (apply Hm; [apply Hvs|eauto]).
  apply wp_bind, wp_gets. fold dom. replace (if 1 <? numDomains then dom else 0) with dom
    by (destruct (Z.ltb_spec 1 numDomains); lia).
  apply wp_bind. eapply wp_get_l1; [done|].
  destruct (Z.eqb_spec w1 0) as [->|Hw].
  { by rewrite (proj1 (bm_repr_empty _ _ _ Hbr) eq_refl p (proj2 Hvs)) in HRp. }
  apply wp_bind. eapply getHighestPrio_spec; [done|exists p; split; [apply Hvs|done]|].
  intros p' Hp' HRp' Hmax'. assert (p' = p) as ->.
  { apply Z.le_antisymm; [|apply Hmax'; [apply Hvs|done]]. destruct (proj1 (Hm p' Hp') HRp') as [z Hz]. eauto. }
  apply wp_bind. eapply wp_ready_queues_index; [done..|].
  pose proof Hl as (q & Hqq & Hdl & Hmem). apply wp_bind. eapply wp_get_ready_queue; [done|].
  pose proof Hdl as (_ & (Hx0 & _) & -> & _). simpl first.
  apply wp_bind, wp_assert; [by apply negb_true_iff, Z.eqb_neq|].
  apply wp_bind. eapply wp_exec; [done|]. apply wp_bind, wp_assert; [done|].
  apply wp_bind. eapply wp_get_tcb; [done|].
  apply wp_bind. eapply wp_exec; [done|]. apply wp_bind, wp_assert; [done|].
  apply wp_bind. eapply wp_exec; [done|]. apply wp_bind, wp_assert; [done|].
  subst p. rewrite <-Etd in *. by eapply (switchToThread_spec s x t [] l).
Qed.

Lemma chooseThread_idle s :
  0 ≤ ksCurDomain s < numDomains → ksReadyQueuesL1Bitmap s !! Z.to_nat (ksCurDomain s) = Some 0 →
  vroot_ok s (ksIdleThread s) →
  ∃ s1, satp_written (thread_satp s (ksIdleThread s)) s s1 ∧ chooseThread s = Done () (set_ksCurThread (ksIdleThread s) s1).
Proof.
  intros Hd Hw Hvr. destruct (setVMRoot_spec s _ Hvr) as (s1 & Hroot & Hs1). exists s1. split; [done|].
  unfold chooseThread, get_l1, mbind, M_bind, gets, get_state, deref.
  replace (if 1 <? numDomains then ksCurDomain s else 0) with (ksCurDomain s)
    by (destruct (Z.ltb_spec 1 numDomains); lia).
  rewrite Hw. simpl. unfold switchToIdleThread, Arch_switchToIdleThread, mbind, M_bind, gets.
  rewrite Hroot. by destruct Hs1 as [lf ->].
Qed.

(** C4: The scheduler runs the most important thread: when some thread of the
    current domain is ready, [chooseThread] switches to the first thread of the
    ready queue of the highest occupied priority, which leaves that queue; when
    none is ready it switches to the idle thread. Either way the address space of
    that thread is installed. *)
Theorem chooseThread_ok s :
  sched_inv s → 0 ≤ ksCurDomain s < numDomains →
  (∀ p x, ready (qview s) (ksCurDomain s) p x → can_run s x ∧ vroot_ok s x) → vroot_ok s (ksIdleThread s) →
  (∃ p x l s', chooseThread s = Done () s' ∧ ksCurThread s' = x ∧ dev_satp (devices s') = thread_satp s x ∧
     queue_holds s (Qready (ksCurDomain s) p) (x :: l) ∧
     (∀ p' z, ready (qview s) (ksCurDomain s) p' z → p' ≤ p) ∧
     sched_inv s' ∧ queue_holds s' (Qready (ksCurDomain s) p) l ∧ others_kept (Qready (ksCurDomain s) p) s s') ∨
  ((∀ p x, ¬ ready (qview s) (ksCurDomain s) p x) ∧
     ∃ s1, satp_written (thread_satp s (ksIdleThread s)) s s1 ∧
       chooseThread s = Done () (set_ksCurThread (ksIdleThread s) s1)).
Proof.
  intros Hinv Hd Hrun Hidle. pose proof Hinv as (Hq & Hbm & _). set (dom := ksCurDomain s) in *.
  destruct (Hbm dom Hd) as (R & HR & Hm). pose proof HR as (w1 & row & Hw1 & _ & Hbr).
  destruct (decide (w1 = 0)) as [->|Hw].
  - right. split.
    + intros p x Hx. pose proof (ready_valid _ _ _ _ Hinv Hx) as [_ Hp].
      assert (R p = true) as E by (apply Hm; eauto). by rewrite (proj1 (bm_repr_empty _ _ _ Hbr) eq_refl p Hp) in E.
    + by apply chooseThread_idle.
  - left. destruct (bitmap_occupied _ _ _ Hbr Hw) as (p0 & Hp0 & HRp0).
    destruct (proj1 (wp_done (getHighestPrio dom) (λ p s', s' = s ∧ 0 ≤ p < 256 ∧ R p = true ∧
      ∀ p', 0 ≤ p' < 256 → R p' = true → p' ≤ p) s)) as (p & s0 & _ & -> & Hp & HRp & Hmax).
    { eapply getHighestPrio_spec; [done|by eauto|by auto]. }
    destruct (qok_ready _ _ _ _ Hq dom p) as (l & Hl); [done|].
    assert (queue_holds s (Qready dom p) l) as Hl' by exact Hl. pose proof (queue_holds_member _ _ _ Hl') as Hmem.
    destruct l as [|x l]; [destruct (proj1 (Hm p Hp) HRp) as [y Hy%Hmem]; by apply elem_of_nil in Hy|].
    assert (∀ p' z, ready (qview s) dom p' z → p' ≤ p) as Hmaxr.
    { intros p' z Hz. pose proof (ready_valid _ _ _ _ Hinv Hz) as [_ Hp']. apply Hmax; [done|]. apply Hm; eauto. }
    assert (can_run s x ∧ vroot_ok s x) as [??] by (apply (Hrun p), Hmem; by left).
    destruct (wp_unit chooseThread (λ _ s', sched_inv s' ∧ ksCurThread s' = x ∧ dev_satp (devices s') = thread_satp s x ∧
      queue_holds s' (Qready dom p) l ∧ others_kept (Qready dom p) s s') s) as (s' & ? & ? & ? & ? & ? & ?).
    { eapply chooseThread_ready_spec; [done..|]. intros s' ? [??]%switched_to_current ??. by auto 10. }
    exists p, x, l, s'. by split_and!.
Qed.
End choose.
End spec.

(** ** The example state *)
#[local] Existing Instance example_platform.

Lemma ex_can_run x : x ∈ [tA; tB; tC] → can_run ex_state x.
Proof.
  intros Hx. repeat first [by apply elem_of_nil in Hx | apply elem_of_cons in Hx as [->|Hx]];
    (eexists; split; [reflexivity|split_and!; vm_compute; reflexivity]).
Qed.

Lemma ready_enqueue_witness :
  queue_op (tcbSchedEnqueue tC) (Qready 0 5) [tC; tB] ex_state ∧
  queue_op (tcbSchedAppend tC) (Qready 0 5) [tB; tC] ex_state.
Proof.
  apply (ready_enqueue_ok ex_state tC (ex_tcb (ex_ts ThreadState_Running false false) 5 scC) [tB] ex_sched_inv);
    [done|apply ex_can_run; set_solver|done|done|by apply (ex_ready_list 5)].
Defined.

Lemma ready_dequeue_witness : queue_op (tcbSchedDequeue tB) (Qready 0 5) [] ex_state.
Proof.
  apply (ready_dequeue_ok ex_state tB (ex_tcb (ex_ts ThreadState_Running true false) 5 scB) [] [] ex_sched_inv);
    [done|by apply (ex_ready_list 5)].
Defined.

Lemma ex_release_sorted : release_sorted ex_state [tD].
Proof.
  split_and!; [split; [split_and!; [by repeat constructor; set_solver|by vm_compute|done..]|]|by repeat constructor|].
  - intros x. rewrite ex_awaiting. set_solver.
  - intros x ->%list_elem_of_singleton. by eexists.
Qed.

Lemma release_enqueue_witness : ∃ s' l1 l2, tcbReleaseEnqueue tE ex_state = Done () s' ∧ [tD] = l1 ++ l2 ∧
  release_position ex_state 6000 l1 l2 ∧ sched_inv s' ∧ sched_only ex_state s' ∧ release_sorted s' (l1 ++ tE :: l2) ∧
  others_kept Qrelease ex_state s' ∧ (l1 = [] → ksReprogram s' = true).
Proof.
  apply (release_enqueue_ok ex_state tE (ex_tcb (ex_ts ThreadState_Running false false) 3 scE));
    [apply ex_sched_inv|done..|apply ex_release_sorted|done|done].
Defined.

Lemma highest_prio_witness : ∃ h y, getHighestPrio 0 ex_state = Done h ex_state ∧
  ready (qview ex_state) 0 h y ∧ ∀ p' z, ready (qview ex_state) 0 p' z → p' ≤ h.
Proof. apply (highest_prio_ok ex_state 0 5 tB ex_sched_inv); [by vm_compute|done|by apply ex_ready]. Defined.

#[local] Existing Instance example_platform_ok.
Lemma ex_vroot_ok x : x ∈ [tB; tI] → vroot_ok ex_state x.
Proof.
  intros Hx. repeat first [by apply elem_of_nil in Hx | apply elem_of_cons in Hx as [->|Hx]]; by exists ex_null.
Qed.
Lemma chooseThread_witness :
  (∃ p x l s', chooseThread ex_state = Done () s' ∧ ksCurThread s' = x ∧
     dev_satp (devices s') = thread_satp ex_state x ∧
     queue_holds ex_state (Qready 0 p) (x :: l) ∧ (∀ p' z, ready (qview ex_state) 0 p' z → p' ≤ p) ∧
     sched_inv s' ∧ queue_holds s' (Qready 0 p) l ∧ others_kept (Qready 0 p) ex_state s') ∨
  ((∀ p x, ¬ ready (qview ex_state) 0 p x) ∧ ∃ s1, satp_written (thread_satp ex_state tI) ex_state s1 ∧
     chooseThread ex_state = Done () (set_ksCurThread tI s1)).
Proof.
  apply (chooseThread_ok ex_state ex_sched_inv); [by vm_compute| |apply ex_vroot_ok; set_solver].
  intros p x (_ & _ & ->)%ex_ready. split; [apply ex_can_run|apply ex_vroot_ok]; set_solver.
Defined.
