(* ===== verification/AwakenSpec.v ===== *)
(** * Waking threads up

    [awaken] empties the release queue of every thread whose time has come: each is
    put into a ready queue or becomes the scheduler's candidate, and the loop ends. *)
From stdpp Require Import sorting.
From S2P Require Import Prelude Words Platform State Machine DList RefillList Sporadic Budget Queues QueueSpec Bitmap ReadyQueues CapOps CSpace VSpace Thread Example SchedSpec.

Section awaken.
Context `{Platform}.

(** The thread at [x] may run when its time has come: it is runnable and its
    scheduling context is active with enough budget in the head refill. *)
Definition startable_with (s : kstate) (x : Z) (t : tcb) (c : sched_context) (h : refill) : Prop :=
  tcbs s !! x = Some t ∧ isRunnable t = true ∧ tcbSchedContext t ≠ NULL ∧ scs s !! tcbSchedContext t = Some c ∧
  sc_active c = true ∧ scRefills c !! Z.to_nat (scRefillHead c) = Some h ∧ MIN_BUDGET ≤ rAmount h ∧ 0 ≤ rAmount h < 2 ^ 64.
Definition startable (s : kstate) (x : Z) : Prop := ∃ t c h, startable_with s x t c h.

Lemma on_sc_read {A} sc c (m : M sched_context A) a s : scs s !! sc = Some c → m c = Done a c → on_sc sc m s = Done a s.
Proof. intros Hc Hm. destruct (proj1 (wp_done (on_sc sc m) (λ a' s', a' = a ∧ s' = s) s)) as (?&?&?&->&->); [|done].
  by eapply wp_on_sc_read. Qed.
Lemma refill_head_spec c h : scRefills c !! Z.to_nat (scRefillHead c) = Some h → refill_head c = Done h c.
Proof. intros Hh. unfold refill_head, refill_index, mbind, M_bind, get_state, deref. by rewrite Hh. Qed.

Section one.
Context (s : kstate) (x : Z) (t : tcb) (c : sched_context) (h : refill) (Hst : startable_with s x t c h).

Lemma startable_schedulable : tcbInReleaseQueue (tcbState t) = false → isSchedulable x s = Done true s.
Proof.
  destruct Hst as (Ht & Hr & Hn & Hc & Ha & _). intros Hq.
  unfold isSchedulable, get_tcb, get_sc, mbind, M_bind, get_state, deref. rewrite Ht, Hr, (proj2 (Z.eqb_neq _ _) Hn). simpl.
  unfold get_sc, mbind, M_bind, get_state, deref. by rewrite Hc, Ha, Hq.
Qed.
Lemma startable_sufficient : sc_refill_sufficient (tcbSchedContext t) 0 s = Done true s.
Proof.
  destruct Hst as (_ & _ & _ & Hc & _ & Hh & Hb & Hw). eapply on_sc_read; [done|].
  unfold refill_sufficient, refill_capacity, mbind, M_bind. rewrite (refill_head_spec c h Hh). unfold mret, M_ret.
  rewrite (proj2 (Z.ltb_ge (rAmount h) 0)) by lia. rewrite wrap_small by (unfold is_word; lia). do 2 f_equal. apply Z.leb_le. lia.
Qed.
Lemma startable_time : ready_time s x = Some (rTime h) ∧ sc_refill_ready (tcbSchedContext t) s = Done (rTime h <=? ksCurTime s) s.
Proof.
  destruct Hst as (Ht & _ & _ & Hc & _ & Hh & _). split.
  - unfold ready_time. rewrite Ht. simpl. rewrite Hc. simpl. by rewrite Hh.
  - unfold sc_refill_ready, gets, mbind, M_bind. eapply on_sc_read; [done|].
    unfold refill_ready, mbind, M_bind. by rewrite (refill_head_spec c h Hh).
Qed.
End one.

(** Only the scheduler's queues and its next action differ. *)
Definition scheduled (s s' : kstate) : Prop := sched_only (set_ksSchedulerAction 0 s) (set_ksSchedulerAction 0 s').
#[global] Instance scheduled_equiv : Equivalence scheduled.
Proof.
  split; unfold scheduled; [by intros s|by intros s1 s2|]. intros s1 s2 s3 H1 H2. by etrans.
Qed.
Lemma sched_only_scheduled s s' : sched_only s s' → scheduled s s'.
Proof. intros [E Hs]. split; [|done]. by apply (f_equal (set_ksSchedulerAction 0)) in E. Qed.
Lemma action_scheduled s a : scheduled s (set_ksSchedulerAction a s).
Proof. by split. Qed.
Lemma scheduled_fields s s' : scheduled s s' →
  scs s' = scs s ∧ ksCurTime s' = ksCurTime s ∧ ksCurThread s' = ksCurThread s ∧ ksCurDomain s' = ksCurDomain s ∧
  ∀ x, strip_sched <$> tcbs s' !! x = strip_sched <$> tcbs s !! x.
Proof. intros [E Hs]. split_and!; [| | | |done]; unfold erase_sched in E; by injection E. Qed.
Lemma scheduled_startable s s' x t c h : scheduled s s' → startable_with s x t c h →
  ∃ t', startable_with s' x t' c h ∧ tcbSchedContext t' = tcbSchedContext t ∧ tcbDomain t' = tcbDomain t.
Proof.
  intros (Esc & _ & _ & _ & Hs)%scheduled_fields (Ht & Hr & Hn & Hc & Hrest). specialize (Hs x). rewrite Ht in Hs.
  destruct (tcbs s' !! x) as [t'|] eqn:Ht'; [|done]. apply (inj Some) in Hs.
  assert (tsType (tcbState t') = tsType (tcbState t) ∧ tcbSchedContext t' = tcbSchedContext t ∧ tcbDomain t' = tcbDomain t)
    as (Ety & Ec & Ed).
  { unfold strip_sched, clear_sched in Hs. by injection Hs. }
  exists t'. split_and!; [|done..]. split_and!; [done| |congruence..|apply Hrest|apply Hrest|apply Hrest|apply Hrest|apply Hrest].
  unfold isRunnable in *. by rewrite Ety.
Qed.
Lemma scheduled_time s s' x : scheduled s s' → ready_time s' x = ready_time s x.
Proof. intros Hs. by apply (ready_time_relinked _ _ Hs). Qed.

(** ** Enqueueing *)
Definition not_queued (s : kstate) (x : Z) : Prop := ∃ d p, qview s x = Some (QInfo false false d p).
Lemma not_queued_flags s x t : not_queued s x → tcbs s !! x = Some t →
  tcbQueued (tcbState t) = false ∧ tcbInReleaseQueue (tcbState t) = false.
Proof. intros (d & p & Hq) Ht. unfold qview, qinfo_of in Hq. rewrite Ht in Hq. by simplify_eq/=. Qed.

(** Threads keep their places except [x]. *)
Definition places_kept (s s' : kstate) (x : Z) : Prop :=
  (∀ y, y ≠ x → qview s' y = qview s y) ∧ (∀ l, queue_holds s Qrelease l → queue_holds s' Qrelease l).

Lemma enqueue_startable s x Q : sched_inv s → startable s x → not_queued s x →
  (∀ s', sched_inv s' → sched_only s s' → places_kept s s' x → (∃ d p, ready (qview s') d p x) → Q () s') →
  wp (tcbSchedEnqueue x) Q s.
Proof.
  intros Hinv (t & c & h & Hst) Hnq HQ. pose proof Hst as (Ht & _). destruct (not_queued_flags _ _ _ Hnq Ht) as [Hq Hr].
  pose proof (valid_slot_of _ _ _ Hinv Ht) as Hv. pose proof Hinv as (Hqs & _).
  destruct (qok_ready _ _ _ _ Hqs _ _ Hv) as [l Hl].
  eapply tcbSchedEnqueue_spec; [done..|by eapply startable_schedulable|by eapply startable_sufficient|done|].
  intros s' Hinv' Hso HV _ Hok. apply HQ; [done..| |].
  - split; [intros y Hy; by rewrite HV, decide_False|]. intros l' Hl'. by apply (Hok Qrelease).
  - exists (tcbDomain t), (tcbPriority t), false. by rewrite HV, decide_True.
Qed.

(** ** Switching to a thread that may run *)
Definition runs_now (s : kstate) (x : Z) : Prop :=
  startable s x ∧ ∃ r, ready_time s x = Some r ∧ r ≤ ksCurTime s.
Definition is_thread_action (a : Z) : Prop :=
  a ≠ SchedulerAction_ResumeCurrentThread ∧ a ≠ SchedulerAction_ChooseNewThread.
#[local] Instance is_thread_action_dec a : Decision (is_thread_action a).
Proof. unfold is_thread_action. apply _. Defined.
(** The scheduler's candidate, if there is one, may run and is in no queue. *)
Definition candidate_ok (s : kstate) : Prop :=
  is_thread_action (ksSchedulerAction s) → runs_now s (ksSchedulerAction s) ∧ not_queued s (ksSchedulerAction s).
Definition made_ready (s : kstate) (x : Z) : Prop :=
  (∃ d p, ready (qview s) d p x) ∨ is_thread_action x ∧ ksSchedulerAction s = x.

Lemma scheduled_runs_now s s' x : scheduled s s' → runs_now s x → runs_now s' x.
Proof.
  intros Hs [(t & c & h & Hst) (r & Hr & Hle)]. destruct (scheduled_startable _ _ _ _ _ _ Hs Hst) as (t' & Hst' & _).
  split; [by exists t', c, h|]. exists r. rewrite (scheduled_time _ _ _ Hs). destruct (scheduled_fields _ _ Hs) as (_ & -> & _). done.
Qed.
Lemma ready_not_queued s x d p : ready (qview s) d p x → not_queued s x → False.
Proof. intros [r Hr] (d' & p' & Hn). rewrite Hr in Hn. by simplify_eq. Qed.
Lemma ready_kept s s' x y d p : not_queued s x → (∀ y, y ≠ x → qview s' y = qview s y) →
  ready (qview s) d p y → ready (qview s') d p y.
Proof.
  intros Hn HV Hr. destruct (decide (y = x)) as [->|Hne]; [by destruct (ready_not_queued s x d p)|].
  destruct Hr as [r Hr]. exists r. by rewrite HV.
Qed.

Lemma ready_back s s' x y d p : (∀ y, y ≠ x → qview s' y = qview s y) → ready (qview s') d p y →
  ready (qview s) d p y ∨ y = x.
Proof.
  intros HV [r Hr]. destruct (decide (y = x)) as [|Hne]; [by right|]. left. exists r. by rewrite <- HV.
Qed.
(** What one step of waking threads up keeps; of the others, [x] alone may become ready. *)
Definition wake_step (x : Z) (s s' : kstate) : Prop :=
  sched_inv s' ∧ scheduled s s' ∧ candidate_ok s' ∧ (∀ l, queue_holds s Qrelease l → queue_holds s' Qrelease l) ∧
  (∀ y, made_ready s y → made_ready s' y) ∧ (∀ y, made_ready s' y → made_ready s y ∨ y = x).

Lemma sched_inv_action s a : sched_inv s → sched_inv (set_ksSchedulerAction a s).
Proof. done. Qed.

Lemma rescheduleRequired_spec s Q : sched_inv s → candidate_ok s →
  (∀ s', (∀ x, wake_step x s s') → ksSchedulerAction s' = SchedulerAction_ChooseNewThread →
     (∀ y, y ≠ ksSchedulerAction s → qview s' y = qview s y) → Q () s') → wp rescheduleRequired Q s.
Proof.
  intros Hinv Hc HQ. apply wp_bind, wp_gets.
  assert (∀ s1, sched_inv s1 → sched_only s s1 → (∀ l, queue_holds s Qrelease l → queue_holds s1 Qrelease l) →
    (∀ y, y ≠ ksSchedulerAction s → qview s1 y = qview s y) → (∀ y, made_ready s y → ∃ d p, ready (qview s1) d p y) →
    (∀ y d p, ready (qview s1) d p y → made_ready s y) →
    Q () (set_ksSchedulerAction SchedulerAction_ChooseNewThread s1)) as Hend.
  { intros s1 Hinv1 Hso1 Hrel1 HV1 Hmr1 Hback. apply HQ; [|done|done]. intros x. split_and!; [done| |by intros [? ?]|done| |].
    - etrans; [by apply sched_only_scheduled|apply action_scheduled].
    - intros y Hy. left. by apply Hmr1.
    - intros y [(d & p & Hy)|[[_ Hy] E]]; left; [by eapply Hback|]. by destruct Hy. }
  apply wp_bind. destruct (decide (is_thread_action (ksSchedulerAction s))) as [[Ha1 Ha2]|Hna].
  - rewrite (proj2 (Z.eqb_neq _ _) Ha1), (proj2 (Z.eqb_neq _ _) Ha2). simpl.
    destruct Hc as [[(t & c & h & Hst) (r & Hr & Hle)] Hnq]; [done|]. pose proof Hst as (Ht & _).
    destruct (not_queued_flags _ _ _ Hnq Ht) as [_ Hnr]. destruct (startable_time _ _ _ _ _ Hst) as [Hr' Hrdy].
    rewrite Hr in Hr'. simplify_eq. rewrite (proj2 (Z.leb_le _ _) Hle) in Hrdy.
    apply wp_bind. eapply wp_exec; [by eapply startable_schedulable|]. simpl.
    apply wp_bind. eapply wp_get_tcb; [done|].
    apply wp_bind. eapply wp_exec; [by eapply startable_sufficient|]. apply wp_bind, wp_assert; [done|].
    apply wp_bind. eapply wp_exec; [exact Hrdy|]. apply wp_bind, wp_assert; [done|].
    apply enqueue_startable; [done|by exists t, c, h|done|]. intros s1 Hinv1 Hso1 [HV1 Hrel1] Hrd. apply wp_modify, Hend; try done.
    + intros y [(d & p & Hy)|[_ <-]]; [|done]. exists d, p. by eapply ready_kept.
    + intros y d p [Hy| ->]%(ready_back _ _ _ _ _ _ HV1); [left; by exists d, p|by right].
  - apply (wp_mono _ (λ _ s', s' = s)).
    { case_match; [|by apply wp_ret]. destruct Hna. apply andb_true_iff in H0 as [?%negb_true_iff%Z.eqb_neq ?%negb_true_iff%Z.eqb_neq]. done. }
    intros [] s' ->. apply wp_modify, Hend; try done; [|intros y d p Hy; left; by exists d, p].
    intros y [?|[Hy E]]; [done|]. by rewrite E in Hna.
Qed.

Lemma sched_only_action s s' : sched_only s s' → ksSchedulerAction s' = ksSchedulerAction s.
Proof. intros [E _]. unfold erase_sched in E. by injection E. Qed.
Lemma not_queued_kept s s' x y : not_queued s y → y ≠ x → (∀ y, y ≠ x → qview s' y = qview s y) → not_queued s' y.
Proof. intros (d & p & Hq) Hne HV. exists d, p. by rewrite HV. Qed.
(** Enqueueing [x] as a step. *)
Lemma enqueue_step s s' x : candidate_ok s → ksSchedulerAction s ≠ x → not_queued s x →
  sched_inv s' → sched_only s s' → places_kept s s' x → wake_step x s s'.
Proof.
  intros Hc Hne Hnq Hinv' Hso [HV Hrel]. pose proof (sched_only_scheduled _ _ Hso) as Hsch.
  split_and!; [done|done| |done| |].
  - intros Ha. rewrite (sched_only_action _ _ Hso) in *. destruct (Hc Ha) as [Hrun Hq].
    split; [by apply (scheduled_runs_now s)|by eapply not_queued_kept].
  - intros y [(d & p & Hy)|[Hy E]]; [left; exists d, p; by eapply ready_kept|].
    right. split; [done|]. by rewrite (sched_only_action _ _ Hso).
  - intros y [(d & p & [Hy| ->]%(ready_back _ _ _ _ _ _ HV))|[Hy E]]; [left; left; by exists d, p|by right|].
    left. right. split; [done|]. by rewrite <- (sched_only_action _ _ Hso).
Qed.
Lemma wake_step_trans x s1 s2 s3 : wake_step x s1 s2 → wake_step x s2 s3 → wake_step x s1 s3.
Proof. intros (?&?&?&?&?&H12) (?&?&?&?&?&H23). split_and!; try done; [by etrans|auto..|]. intros y [?%H12|?]%H23; auto. Qed.

Lemma possibleSwitchTo_spec s x Q : sched_inv s → runs_now s x → not_queued s x → candidate_ok s →
  ksSchedulerAction s ≠ x → is_thread_action x →
  (∀ s', wake_step x s s' → made_ready s' x → Q () s') → wp (possibleSwitchTo x) Q s.
Proof.
  intros Hinv Hrun Hnq Hc Hne Hx HQ. pose proof Hrun as [(t & c & h & Hst) _]. pose proof Hst as (Ht & _ & Hsc & _).
  destruct (not_queued_flags _ _ _ Hnq Ht) as [_ Hnr].
  apply wp_bind. eapply wp_get_tcb; [done|]. rewrite Hnr, (proj2 (Z.eqb_neq _ _) Hsc). simpl.
  apply wp_bind, wp_gets, wp_bind, wp_gets. case_match.
  - apply enqueue_startable; [done|by exists t, c, h|done|]. intros s' Hinv' Hso Hpl Hrd.
    apply HQ; [by eapply enqueue_step|by left].
  - destruct (Z.eqb_spec (ksSchedulerAction s) SchedulerAction_ResumeCurrentThread) as [E|E]; simpl.
    + apply wp_modify, HQ; [|by right]. split_and!; [done|apply action_scheduled| |done| |].
      * intros _. split; [by apply (scheduled_runs_now s); [apply action_scheduled|]|done].
      * intros y [?|[[Hy _] Ey]]; [by left|]. congruence.
      * intros y [?|[_ <-]]; [left; by left|by right].
    + apply wp_bind, rescheduleRequired_spec; [done..|]. intros s1 Hw Hact HV.
      pose proof (Hw x) as (Hinv1 & Hsch1 & Hc1 & _). assert (not_queued s1 x) as Hnq1 by (eapply not_queued_kept; [done| |done]; done).
      apply enqueue_startable; [done|by apply (scheduled_runs_now s)|done|]. intros s2 Hinv2 Hso Hpl Hrd.
      apply HQ; [|by left]. eapply wake_step_trans; [done|]. eapply enqueue_step; [done| |done..].
      rewrite Hact. intros Ex. by destruct Hx as [_ []].
Qed.

(** ** Taking the head out of the release queue *)
(** What [awaken] relies on for a thread in the release queue. *)
Definition sleeper (s : kstate) (x : Z) : Prop :=
  is_thread_action x ∧ x ≠ ksCurThread s ∧
  ∃ t c h, startable_with s x t c h ∧ isRoundRobin c = false.
Lemma scheduled_sleeper s s' x : scheduled s s' → sleeper s x → sleeper s' x.
Proof.
  intros Hs (Hx & Hcur & t & c & h & Hst & Hrr). destruct (scheduled_startable _ _ _ _ _ _ Hs Hst) as (t' & Hst' & _).
  destruct (scheduled_fields _ _ Hs) as (_ & _ & Ec & _). split_and!; [done|by rewrite Ec|by exists t', c, h].
Qed.

Lemma tcbReleaseDequeue_spec s x l Q : sched_inv s → candidate_ok s → sleeper s x →
  queue_holds s Qrelease (x :: l) → (∃ r, ready_time s x = Some r ∧ r ≤ ksCurTime s) →
  (∀ s', sched_inv s' → scheduled s s' → candidate_ok s' → queue_holds s' Qrelease l → made_ready s' x →
     (∀ y, made_ready s' y ↔ made_ready s y ∨ y = x) → Q () s') → wp tcbReleaseDequeue Q s.
Proof.
  intros Hinv Hc (Hx & Hcur & t & c & h & Hst & Hrr) Hrel Hready HQ. pose proof Hst as (Ht & _ & _ & Hsc & _).
  pose proof Hrel as [(Hnd & Hseg & Hh & _) Hm]. destruct Hseg as (Hx0 & Hlk & _).
  assert (awaiting (qview s) x) as (b & d0 & p0 & Hq) by (apply Hm; set_solver).
  apply wp_bind, wp_gets. rewrite Hh. simpl first. apply wp_bind, wp_assert; [by rewrite (proj2 (Z.eqb_neq _ _) Hx0)|].
  apply wp_bind. eapply wp_get_tcb; [done|].
  apply wp_bind, wp_assert.
  { unfold sched_links in Hlk. rewrite Ht in Hlk. simpl in Hlk. injection Hlk as -> _. apply Z.eqb_refl. }
  apply wp_bind, wp_gets, wp_bind, wp_assert; [by rewrite (proj2 (Z.eqb_neq _ _) Hcur)|].
  apply wp_bind. eapply (tcbReleaseRemove_spec s x t [] l); [done..| |done|].
  { unfold qview, qinfo_of in Hq. rewrite Ht in Hq. by simplify_eq/=. }
  intros s1 Hinv1 Hso1 HV1 Hrel1 _ Hok1. pose proof (sched_only_scheduled _ _ Hso1) as Hsch1.
  destruct (scheduled_startable _ _ _ _ _ _ Hsch1 Hst) as (t1 & Hst1 & Esc & _). pose proof Hst1 as (Ht1 & _ & _ & Hsc1 & _).
  assert (not_queued s1 x) as Hnq1 by (eexists _, _; by rewrite HV1, decide_True).
  assert (ksSchedulerAction s1 ≠ x) as Hne.
  { rewrite (sched_only_action _ _ Hso1). intros E. destruct Hc as [_ (d & p & Hnq)]; [by rewrite E|]. rewrite E, Hq in Hnq. by simplify_eq. }
  assert (candidate_ok s1) as Hc1.
  { intros Ha. rewrite (sched_only_action _ _ Hso1) in *. destruct (Hc Ha) as [Hrun Hnq].
    split; [by apply (scheduled_runs_now s)|]. destruct Hnq as (d & p & Hnq). exists d, p. by rewrite HV1, decide_False. }
  apply wp_bind. eapply wp_get_tcb; [done|]. apply wp_bind. eapply wp_get_sc; [done|].
  apply wp_bind, wp_assert; [by rewrite Hrr|].
  apply wp_bind. eapply wp_exec; [by eapply startable_sufficient|]. apply wp_bind, wp_assert; [done|].
  apply possibleSwitchTo_spec; [done| |done..|].
  { split; [by exists t1, c, h|]. destruct Hready as (r & Hr & Hle). exists r. rewrite (scheduled_time _ _ _ Hsch1).
    by destruct (scheduled_fields _ _ Hsch1) as (_ & -> & _). }
  intros s' (Hinv' & Hsch' & Hc' & Hrel' & Hmr' & Hback) Hmade. apply HQ; [done|by etrans|done|by apply Hrel'|done|].
  intros y. split.
  { intros [Hy|?]%Hback; [|by right]. left. destruct Hy as [(d & p & [r Hy])|[Ha E]].
    - rewrite HV1 in Hy. case_decide; [done|]. left. by exists d, p, r.
    - right. split; [done|]. by rewrite <- (sched_only_action _ _ Hso1). }
  intros [Hy| ->]; [|done]. apply Hmr'. destruct Hy as [(d & p & [r Hy])|[Ha E]].
  - left. exists d, p, r. rewrite HV1, decide_False; [done|]. intros ->. rewrite Hq in Hy. simplify_eq.
    pose proof Hinv as (Hqs & _). by pose proof (qok_excl _ _ _ _ Hqs _ _ Hq).
  - right. split; [done|]. by rewrite (sched_only_action _ _ Hso1).
Qed.

(** ** The loop *)
(** After [l1] was woken up and with [l2] still in the queue. *)
Definition woken (s s' : kstate) (l1 l2 : list Z) : Prop :=
  sched_inv s' ∧ scheduled s s' ∧ candidate_ok s' ∧ queue_holds s' Qrelease l2 ∧
  Forall (λ x, rtime s x ≤ ksCurTime s) l1 ∧ ∀ x, made_ready s' x ↔ made_ready s x ∨ x ∈ l1.

Lemma release_ready_empty s : queue_holds s Qrelease [] → release_q_non_empty_and_ready s = Done false s.
Proof.
  intros [(_ & _ & Hh & _) _]. unfold release_q_non_empty_and_ready, gets, mbind, M_bind. by rewrite Hh.
Qed.
Lemma release_ready_head s x l : queue_holds s Qrelease (x :: l) → sleeper s x →
  release_q_non_empty_and_ready s = Done (rtime s x <=? ksCurTime s) s.
Proof.
  intros [(_ & Hseg & Hh & _) _] (_ & _ & t & c & h & Hst & _). destruct Hseg as (Hx0 & _).
  destruct (startable_time _ _ _ _ _ Hst) as [Hr Hrdy]. destruct Hst as (Ht & _).
  unfold release_q_non_empty_and_ready, gets, mbind, M_bind. rewrite Hh. simpl. rewrite (proj2 (Z.eqb_neq _ _) Hx0).
  unfold get_tcb, mbind, M_bind, get_state, deref. rewrite Ht, Hrdy. unfold rtime. by rewrite Hr.
Qed.

(** One turn of the loop. *)
Lemma awaken_step s s' l1 x l2 Q : (∀ y, y ∈ l1 ++ x :: l2 → sleeper s y) → woken s s' l1 (x :: l2) →
  rtime s x ≤ ksCurTime s → (∀ s'', woken s s'' (l1 ++ [x]) l2 → Q () s'') → wp tcbReleaseDequeue Q s'.
Proof.
  intros Hsl (Hinv & Hsch & Hc & Hrel & Hl1 & Hmade) Hle HQ.
  assert (sleeper s x) as Hx by (apply Hsl; set_solver).
  eapply tcbReleaseDequeue_spec; [done..|by eapply scheduled_sleeper|done| |].
  - destruct Hx as (_ & _ & t & c & h & Hst & _). destruct (startable_time _ _ _ _ _ Hst) as [Hr _].
    exists (rTime h). rewrite (scheduled_time _ _ _ Hsch). destruct (scheduled_fields _ _ Hsch) as (_ & -> & _).
    unfold rtime in Hle. by rewrite Hr in Hle.
  - intros s'' Hinv' Hsch' Hc' Hrel' Hnew Hold. apply HQ. split_and!; [done|by etrans|done|done| |].
    + apply Forall_app. by repeat constructor.
    + intros y. rewrite Hold, Hmade, elem_of_app, list_elem_of_singleton. tauto.
Qed.

Lemma sorted_later {A} (f : A → Z) now x l : StronglySorted (λ a b, f a ≤ f b) (x :: l) → now < f x →
  Forall (λ a, now < f a) (x :: l).
Proof.
  intros [_ Hx]%StronglySorted_inv Hlt. constructor; [done|]. eapply Forall_impl; [done|]. simpl. lia.
Qed.

Lemma awaken_spec s l : release_sorted s l → Z.of_nat (length l) < 2 ^ 64 → sched_inv s → candidate_ok s →
  (∀ x, x ∈ l → sleeper s x) →
  wp awaken (λ _ s', ∃ l1 l2, l = l1 ++ l2 ∧ woken s s' l1 l2 ∧ Forall (λ x, ksCurTime s < rtime s x) l2) s.
Proof.
  intros (Hrel & Hsort & _) Hlen Hinv Hc Hsl.
  apply (wp_while64_idx (λ n _ s', ∃ l1 l2, l = l1 ++ l2 ∧ n = Z.of_nat (length l2) ∧ woken s s' l1 l2) _ _ (Z.of_nat (length l))); [| |lia].
  2:{ exists [], l. split_and!; [done..|]. split_and!; [done..| |set_solver]. constructor. }
  clear Hlen. intros n [] s' _ (l1 & l2 & -> & -> & Hw). pose proof Hw as (_ & Hsch & _ & Hrel' & _).
  apply wp_bind. destruct l2 as [|x l2].
  { eapply wp_exec; [by apply release_ready_empty|]. apply wp_ret. by exists l1, []. }
  assert (sleeper s' x) as Hx by (apply (scheduled_sleeper s); [done|apply Hsl; set_solver]).
  eapply wp_exec; [by eapply release_ready_head|]. unfold rtime. rewrite (scheduled_time _ _ _ Hsch).
  destruct (scheduled_fields _ _ Hsch) as (_ & -> & _). fold (rtime s x). destruct (Z.leb_spec (rtime s x) (ksCurTime s)) as [Hle|Hlt].
  - apply wp_bind. eapply awaken_step; [done..|]. intros s'' Hw'. apply wp_ret.
    exists (Z.of_nat (length l2)). split; [simpl; lia|]. exists (l1 ++ [x]), l2. by rewrite <- app_assoc.
  - apply wp_ret. exists l1, (x :: l2). split_and!; [done..|]. eapply sorted_later; [by eapply StronglySorted_app_1_r|done].
Qed.

(** C26: the scheduler wakes up exactly the threads whose time has come. When every
    thread of the release queue may run once it is released, [awaken] ends without
    failing: the threads at the front whose release time is not after the current time
    leave the queue and become ready (or the scheduler's candidate), nobody else becomes
    ready and everybody who was ready stays so, and those that remain in the queue
    are all later and still sorted. Nothing but the bookkeeping of the scheduler changes:
    its action, the queues with their bitmaps, the links and the two queue flags of
    threads, and the mark that the timer must be set again. *)
Theorem awaken_ok s l : sched_inv s → release_sorted s l → Z.of_nat (length l) < 2 ^ 64 → candidate_ok s →
  (∀ x, x ∈ l → sleeper s x) →
  ∃ s' l1 l2, awaken s = Done () s' ∧ l = l1 ++ l2 ∧ sched_inv s' ∧ release_sorted s' l2 ∧ scheduled s s' ∧
    Forall (λ x, rtime s x ≤ ksCurTime s) l1 ∧ Forall (λ x, ksCurTime s < rtime s x) l2 ∧
    ∀ x, made_ready s' x ↔ made_ready s x ∨ x ∈ l1.
Proof.
  intros Hinv Hrs Hlen Hc Hsl. destruct (proj1 (wp_done _ _ _) (awaken_spec _ _ Hrs Hlen Hinv Hc Hsl))
    as ([] & s' & Ha & l1 & l2 & -> & (Hinv' & Hsch & _ & Hrel & Hl1 & Hmade) & Hl2).
  exists s', l1, l2. destruct Hrs as (_ & Hsort & Hsome). split_and!; [done..| |done|done|done|done].
  split_and!; [done| |].
  - apply StronglySorted_app_1_r in Hsort. clear -Hsort Hsch. induction Hsort as [|x l2 Hsort IH Hx]; constructor; [done|].
    eapply Forall_impl; [done|]. intros y. simpl. unfold rtime. by rewrite !(scheduled_time _ _ _ Hsch).
  - intros x Hx. rewrite (scheduled_time _ _ _ Hsch). apply Hsome. set_solver.
Qed.
End awaken.

(** Time 8000 in the example: [tD] is due. *)
#[local] Existing Instance example_platform.
Definition ex_late : kstate := set_ksCurTime 8000 ex_state.
Lemma awaken_witness : ∃ s' l1 l2, awaken ex_late = Done () s' ∧ [tD] = l1 ++ l2 ∧ sched_inv s' ∧ release_sorted s' l2 ∧
  scheduled ex_late s' ∧ Forall (λ x, rtime ex_late x ≤ ksCurTime ex_late) l1 ∧
  Forall (λ x, ksCurTime ex_late < rtime ex_late x) l2 ∧ ∀ x, made_ready s' x ↔ made_ready ex_late x ∨ x ∈ l1.
Proof.
  apply (awaken_ok ex_late [tD]); [apply ex_sched_inv|apply ex_release_sorted|done|by intros []|].
  intros x ->%list_elem_of_singleton. split_and!; [by split|by vm_compute|].
  exists (ex_tcb (ex_ts ThreadState_Running false true) 7 scD), (ex_sc tD 7000), (Refill 7000 1000).
  split; [split_and!|]; by vm_compute.
Defined.
Example awaken_late : match awaken ex_late with
  | Done _ s' => (ksSchedulerAction s' =? tD) && (q_head (ksReleaseQueue s') =? NULL) | _ => false end = true.
Proof. by vm_compute. Qed.
