(* ===== verification/CSpaceSpec.v ===== *)
(** * Capability addresses are bit strings

    The reference definition of capability lookup: an address is a string of
    bits, most significant first; each CNode on the way must match its guard
    against the next bits and takes its radix bits as the index of a slot.
    [resolveAddressBits], which works on machine words by shifts and masks in a
    loop, implements it, and always returns. *)
From S2P Require Import Prelude Words Platform State Machine DList RefillList Sporadic Queues CapOps CSpace VSpace Thread Example.

(** ** Bit strings *)
Fixpoint bits_msb (n : nat) (w : Z) : list bool :=
  match n with O => [] | S n' => Z.testbit w (Z.of_nat n') :: bits_msb n' w end.
Definition bits_value (l : list bool) : Z := foldl (λ a b, 2 * a + Z.b2z b) 0 l.

(** ** The reference lookup *)
Inductive walk_result :=
  | Found (slot bitsRemaining : Z)
  | GuardMismatch (guard bitsLeft guardBits : Z)
  | DepthMismatch (levelBits bitsLeft : Z).

Fixpoint cspace_walk (fuel : nat) (heap : gmap Z cte) (node : cap) (addr : list bool) : option walk_result :=
  match fuel, node with
  | S fuel', cap_cnode_cap radix guardBits guard ptr =>
    let bitsLeft := Z.of_nat (length addr) in
    if negb (bool_decide (bits_msb (Z.to_nat guardBits) guard `prefix_of` addr)) then
      Some (GuardMismatch guard bitsLeft guardBits)
    else
      let rest := drop (Z.to_nat guardBits) addr in
      if Z.of_nat (length rest) <? radix then Some (DepthMismatch (radix + guardBits) bitsLeft)
      else
        let slot := cte_index ptr (bits_value (take (Z.to_nat radix) rest)) in
        let rest := drop (Z.to_nat radix) rest in
        if bool_decide (rest = []) then Some (Found slot 0) else
        c ← heap !! slot;
        (match cte_cap c with
         | cap_cnode_cap _ _ _ _ => cspace_walk fuel' heap (cte_cap c) rest
         | _ => Some (Found slot (Z.of_nat (length rest)))
         end)
  | _, _ => None
  end.

(** A CNode capability whose slots exist. *)
Definition cnode_ok (heap : gmap Z cte) (c : cap) : Prop :=
  match c with
  | cap_cnode_cap radix guardBits guard ptr =>
    1 ≤ radix ∧ 0 ≤ guardBits ∧ radix + guardBits ≤ 64 ∧ 0 ≤ guard < 2 ^ guardBits ∧
    ∀ i, 0 ≤ i < 2 ^ radix → is_Some (heap !! cte_index ptr i)
  | _ => True
  end.
Definition is_cnode (c : cap) : Prop := match c with cap_cnode_cap _ _ _ _ => True | _ => False end.
#[global] Instance is_cnode_dec c : Decision (is_cnode c).
Proof. destruct c; solve [left; done | right; tauto]. Defined.
Definition cspace_ok (heap : gmap Z cte) : Prop := map_Forall (λ _ c, cnode_ok heap (cte_cap c)) heap.

(** The state and the value [resolveAddressBits] returns for a result of the walk. *)
Definition walk_outcome (n_bits : Z) (r : walk_result) (s : kstate) : outcome kstate (exception_t * Z * Z) :=
  match r with
  | Found slot rest => Done (EXCEPTION_NONE, slot, rest) s
  | GuardMismatch guard bitsLeft guardBits =>
    Done (EXCEPTION_LOOKUP_FAULT, NULL, n_bits)
      (set_current_lookup_fault (lookup_fault_guard_mismatch guard bitsLeft guardBits) s)
  | DepthMismatch levelBits bitsLeft =>
    Done (EXCEPTION_LOOKUP_FAULT, NULL, n_bits)
      (set_current_lookup_fault (lookup_fault_depth_mismatch levelBits bitsLeft) s)
  end.

(** ** Lemmas on bit strings *)
Lemma bits_msb_length n w : length (bits_msb n w) = n.
Proof. induction n; simpl; congruence. Qed.
Lemma drop_bits_msb k n w : (k ≤ n)%nat → drop k (bits_msb n w) = bits_msb (n - k) w.
Proof.
  revert n. induction k as [|k IH]; intros n Hk; [by rewrite drop_0, Nat.sub_0_r|].
  destruct n as [|n]; [lia|]. simpl. apply IH. lia.
Qed.
Lemma take_bits_msb k n w : (k ≤ n)%nat → take k (bits_msb n w) = bits_msb k (Z.shiftr w (Z.of_nat (n - k))).
Proof.
  revert n. induction k as [|k IH]; intros n Hk; [done|].
  destruct n as [|n]; [lia|]. simpl. rewrite Z.shiftr_spec by lia. f_equal; [f_equal; lia|]. apply IH. lia.
Qed.
Lemma bits_value_cons a l : foldl (λ a b, 2 * a + Z.b2z b) a l = a * 2 ^ Z.of_nat (length l) + bits_value l.
Proof.
  unfold bits_value. revert a. induction l as [|b l IH]; intros a; cbn [foldl length]; [lia|].
  rewrite IH, (IH (2 * 0 + Z.b2z b)). rewrite Nat2Z.inj_succ, Z.pow_succ_r by lia. lia.
Qed.
Lemma bits_value_msb n w : bits_value (bits_msb n w) = w mod 2 ^ Z.of_nat n.
Proof.
  induction n as [|n IH]; [by rewrite Z.mod_1_r|].
  cbn [bits_msb]. unfold bits_value. cbn [foldl]. rewrite bits_value_cons, IH, bits_msb_length.
  rewrite Nat2Z.inj_succ, Z.pow_succ_r, (Z.mul_comm 2 (2 ^ _)), Z.rem_mul_r, Z.testbit_spec' by lia. ring.
Qed.
Lemma bits_msb_mod n m w : (n ≤ m)%nat → bits_msb n (w mod 2 ^ Z.of_nat m) = bits_msb n w.
Proof.
  induction n as [|n IH]; intros Hm; simpl; [done|]. rewrite Z.mod_pow2_bits_low by lia. f_equal. apply IH. lia.
Qed.
Lemma bits_msb_inj n a b : bits_msb n a = bits_msb n b ↔ a mod 2 ^ Z.of_nat n = b mod 2 ^ Z.of_nat n.
Proof.
  split; intros E.
  - by rewrite <-!bits_value_msb, E.
  - by rewrite <-(bits_msb_mod n n a), <-(bits_msb_mod n n b), E.
Qed.

(** Matching a guard against the next bits of an address, on words. *)
Lemma guard_prefix g n guard w :
  (g ≤ n)%nat → 0 ≤ guard < 2 ^ Z.of_nat g →
  bits_msb g guard `prefix_of` bits_msb n w ↔ Z.shiftr w (Z.of_nat (n - g)) mod 2 ^ Z.of_nat g = guard.
Proof.
  intros Hg Hguard. trans (bits_msb g guard = take g (bits_msb n w)).
  - split.
    + intros [k ->]. by rewrite take_app_length' by by rewrite bits_msb_length.
    + intros ->. apply prefix_take.
  - rewrite take_bits_msb, bits_msb_inj by done. rewrite (Z.mod_small guard) by done. naive_solver.
Qed.
Lemma guard_too_long g n guard w : (n < g)%nat → ¬ bits_msb g guard `prefix_of` bits_msb n w.
Proof. intros Hlt Hp%prefix_length. rewrite !bits_msb_length in Hp. lia. Qed.

(** ** One level of the walk *)
Section refine.
Implicit Types (s : kstate) (c : cap).

Lemma word_bits_left n k : 0 ≤ k ≤ n → n ≤ 64 → n -w k = n - k.
Proof. intros. apply wrap_small. unfold is_word. lia. Qed.

Lemma guard_shift n k w : 0 ≤ k ≤ n → n ≤ 64 → k < 64 →
  Z.land (Z.shiftr w (Z.land (n -w k) (MASK wordRadix))) (MASK k) = Z.shiftr w (n - k) mod 2 ^ k.
Proof.
  intros Hk Hn Hk64. rewrite word_bits_left by done. unfold wordRadix. rewrite (land_MASK _ k) by lia.
  rewrite land_MASK by lia. change (2 ^ 6) with 64. destruct (decide (k = 0)) as [->|].
  - change (2 ^ 0) with 1. by rewrite !Z.mod_1_r.
  - by rewrite (Z.mod_small (n - k)) by lia.
Qed.

(** The body of the loop performs one level. *)
Lemma resolve_step heap c capptr n0 n fuel s :
  ctes s = heap → cspace_ok heap → cnode_ok heap c → 0 < n ≤ 64 →
  is_cnode c →
  wp (resolveAddressBits_step capptr n0 (c, n)) (λ r s', match r with
    | inl (c', n') => s' = s ∧ 0 < n' < n ∧ cnode_ok heap c' ∧
        is_cnode c' ∧
        cspace_walk (S fuel) heap c (bits_msb (Z.to_nat n) capptr) =
        cspace_walk fuel heap c' (bits_msb (Z.to_nat n') capptr)
    | inr v => ∃ r, cspace_walk (S fuel) heap c (bits_msb (Z.to_nat n) capptr) = Some r ∧
        walk_outcome n0 r s = Done v s'
    end) s.
Proof.
  intros Hheap Hok Hc Hn Hcn. destruct c as [| | | | |radix g guard ptr| | | | | | | | | | |]; try done.
  destruct Hc as (Hr & Hg & Hrg & Hguard & Hslots). unfold resolveAddressBits_step.
  rewrite (wrap_small (radix + g)) by (unfold is_word; lia).
  apply wp_bind, wp_assert; [by apply negb_true_iff, Z.eqb_neq; lia|].
  cbn [cspace_walk]. rewrite bits_msb_length, Z2Nat.id by lia.
  destruct (Z.ltb_spec n g) as [Hlt|Hge]; simpl.
  { rewrite bool_decide_eq_false_2 by (apply guard_too_long; lia). simpl.
    apply wp_bind, wp_modify, wp_ret. by eexists. }
  rewrite guard_shift by lia.
  assert (bits_msb (Z.to_nat g) guard `prefix_of` bits_msb (Z.to_nat n) capptr ↔
          Z.shiftr capptr (n - g) mod 2 ^ g = guard) as Hpre.
  { rewrite guard_prefix by (rewrite ?Z2Nat.id; lia). rewrite Z2Nat.id by lia.
    by replace (Z.of_nat (Z.to_nat n - Z.to_nat g)) with (n - g) by lia. }
  destruct (Z.eqb_spec (Z.shiftr capptr (n - g) mod 2 ^ g) guard) as [E|E]; simpl.
  2: { rewrite bool_decide_eq_false_2 by (by rewrite Hpre). simpl. apply wp_bind, wp_modify, wp_ret. by eexists. }
  rewrite bool_decide_eq_true_2 by (by apply Hpre). simpl.
  rewrite drop_bits_msb, bits_msb_length by lia.
  replace (Z.of_nat (Z.to_nat n - Z.to_nat g)) with (n - g) by lia.
  destruct (Z.ltb_spec n (radix + g)) as [Hlt|Hge2].
  { rewrite (proj2 (Z.ltb_lt _ _)) by lia. apply wp_bind, wp_modify, wp_ret. by eexists. }
  rewrite (proj2 (Z.ltb_ge _ _)) by lia. rewrite word_bits_left by lia.
  rewrite take_bits_msb, drop_bits_msb, bits_value_msb by lia.
  rewrite Z2Nat.id by lia. replace (Z.of_nat (Z.to_nat n - Z.to_nat g - Z.to_nat radix)) with (n - (radix + g)) by lia.
  set (offset := Z.shiftr capptr (n - (radix + g)) mod 2 ^ radix).
  assert (Z.land (Z.shiftr capptr (n - (radix + g))) (MASK radix) = offset) as ->.
  { destruct (decide (radix = 64)) as [->|]; [|by apply land_MASK; lia].
    change (MASK 64) with (Z.ones 64). by rewrite Z.land_ones by lia. }
  destruct (Z.eqb_spec n (radix + g)) as [En|Hne].
  - rewrite bool_decide_eq_true_2.
    + apply wp_ret. by eexists.
    + replace (Z.to_nat n - Z.to_nat g - Z.to_nat radix)%nat with O by lia. done.
  - rewrite bool_decide_eq_false_2.
    2: { intros E0%(f_equal length). rewrite bits_msb_length in E0. simpl in E0. lia. }
    destruct (Hslots offset) as [e He]; [apply Z.mod_pos_bound; lia|].
    apply wp_bind. rewrite <-Hheap in He. eapply wp_get_cte; [done|]. rewrite Hheap in He. rewrite He. simpl.
    pose proof (Hok _ _ He) as Hce. simpl in Hce. rewrite bits_msb_length.
    replace (Z.to_nat n - Z.to_nat g - Z.to_nat radix)%nat with (Z.to_nat (n - (radix + g))) by lia.
    rewrite Z2Nat.id by lia.
    destruct (cte_cap e); apply wp_ret; first [by eexists | by split_and!; try done; lia].
Qed.
Lemma resolveAddressBits_spec s c capptr n :
  cspace_ok (ctes s) → cnode_ok (ctes s) c → is_cnode c → 0 < n ≤ 64 →
  ∃ r, cspace_walk (S (Z.to_nat n)) (ctes s) c (bits_msb (Z.to_nat n) capptr) = Some r ∧
    resolveAddressBits c capptr n s = walk_outcome n r s.
Proof.
  intros Hok Hc Hcn Hn.
  destruct (proj1 (wp_done (resolveAddressBits c capptr n) (λ v s', ∃ r,
    cspace_walk (S (Z.to_nat n)) (ctes s) c (bits_msb (Z.to_nat n) capptr) = Some r ∧
    walk_outcome n r s = Done v s') s)) as (v & s' & Heq & r & Hr & Hv); [|exists r; by rewrite Heq].
  destruct c as [| | | | |radix g guard ptr| | | | | | | | | | |]; try done. unfold resolveAddressBits.
  set (c := cap_cnode_cap radix g guard ptr) in *.
  apply (wp_while64_idx (λ m '(c', n') s', s' = s ∧ m = n' ∧ 0 < n' ≤ 64 ∧ cnode_ok (ctes s) c' ∧ is_cnode c' ∧
    ∃ f, (Z.to_nat n' < f)%nat ∧ cspace_walk (S (Z.to_nat n)) (ctes s) c (bits_msb (Z.to_nat n) capptr) =
      cspace_walk f (ctes s) c' (bits_msb (Z.to_nat n') capptr)) _ _ n); [|split_and!; try done; try lia; eauto with lia|lia].
  intros m [c' n'] s' _ (-> & -> & Hn' & Hc' & Hcn' & f & Hf & Ewalk). destruct f as [|f]; [lia|].
  eapply wp_mono; [by apply (resolve_step (ctes s) c' capptr n n' f)|].
  intros [[c'' n'']|v] s''.
  - intros (-> & Hlt & Hc'' & Hcn'' & E). exists n''. split_and!; try done; try lia.
    exists f. split; [lia|]. congruence.
  - intros (r & Hr & Hv). exists r. split; [congruence|done].
Qed.

(** C11: Capability lookup implements the reference definition on bit strings, in
    every case: it always returns, a successful lookup ends in the slot and with
    the number of unresolved bits the walk gives, and a failed one records the
    guard or depth mismatch of the level where the walk stops. *)
Theorem resolveAddressBits_refines s c capptr n :
  cspace_ok (ctes s) → cnode_ok (ctes s) c → 0 < n ≤ 64 →
  if bool_decide (is_cnode c) then
    ∃ r, cspace_walk (S (Z.to_nat n)) (ctes s) c (bits_msb (Z.to_nat n) capptr) = Some r ∧
      resolveAddressBits c capptr n s = walk_outcome n r s
  else resolveAddressBits c capptr n s =
    Done (EXCEPTION_LOOKUP_FAULT, NULL, n) (set_current_lookup_fault lookup_fault_invalid_root s).
Proof.
  intros Hok Hc Hn. case_bool_decide as Hcn; [by apply resolveAddressBits_spec|].
  by destruct c.
Qed.

(** A slot named by an index and a depth in a CNode operation: the operation
    succeeds exactly when the depth is between 1 and 64 and the walk of that many
    bits uses all of them; every other case is a range error or a failed lookup
    on the side of the operation it was for. *)
Theorem lookupSlotForCNodeOp_ok isSource s root capptr depth :
  cspace_ok (ctes s) → cnode_ok (ctes s) root → is_cnode root → is_word depth →
  ∃ s', ctes s' = ctes s ∧
    if bool_decide (1 ≤ depth ≤ 64) then
      match cspace_walk (S (Z.to_nat depth)) (ctes s) root (bits_msb (Z.to_nat depth) capptr) with
      | Some (Found slot 0) => lookupSlotForCNodeOp isSource root capptr depth s = Done (EXCEPTION_NONE, slot) s
      | _ => lookupSlotForCNodeOp isSource root capptr depth s = Done (EXCEPTION_SYSCALL_ERROR, NULL) s' ∧
             err_type (current_syscall_error s') = seL4_FailedLookup ∧
             failedLookupWasSource (current_syscall_error s') = isSource
      end
    else lookupSlotForCNodeOp isSource root capptr depth s = Done (EXCEPTION_SYSCALL_ERROR, NULL) s' ∧
         err_type (current_syscall_error s') = seL4_RangeError.
Proof.
  intros Hok Hc Hcn Hd. unfold is_word in Hd.
  destruct root as [| | | | |radix g guard ptr| | | | | | | | | | |]; try done.
  unfold lookupSlotForCNodeOp.
  case_bool_decide as Hrange.
  - rewrite (proj2 (Z.ltb_ge _ _)), (proj2 (Z.ltb_ge _ _)) by (unfold wordBits; lia). simpl orb. cbv iota.
    destruct (resolveAddressBits_spec s (cap_cnode_cap radix g guard ptr) capptr depth) as (r & Hr & E); [done..|lia|].
    unfold mbind, M_bind. rewrite Hr. cbn [orb]. cbv beta iota. rewrite E.
    destruct r as [slot [|rest|rest]| |]; simpl; [by exists s|eexists; split; [|split; [reflexivity|split; reflexivity]]; reflexivity..].
  - assert ((depth <? 1) || (wordBits <? depth) = true) as ->.
    { unfold wordBits. apply orb_true_iff. rewrite !Z.ltb_lt. lia. }
    eexists; split; [|split; reflexivity]; reflexivity.
Qed.
End refine.

(** ** The example capability space *)
Lemma ex_cnode_slots ptr : ptr ∈ [cn1; cn2] → ∀ i, 0 ≤ i < 2 ^ 2 → is_Some (ctes ex_state !! cte_index ptr i).
Proof.
  intros Hp i Hi. assert (i = 0 ∨ i = 1 ∨ i = 2 ∨ i = 3) as [->|[->|[->| ->]]] by lia;
    repeat first [by apply elem_of_nil in Hp | apply elem_of_cons in Hp as [->|Hp]; [by eexists|]].
Qed.
Lemma ex_root_ok : cnode_ok (ctes ex_state) ex_root.
Proof. split_and!; [done..|]. apply ex_cnode_slots. set_solver. Qed.
Lemma ex_cspace_ok : cspace_ok (ctes ex_state).
Proof.
  intros x c Hc%elem_of_list_to_map_2. unfold ex_ctes in Hc.
  repeat first [by apply elem_of_nil in Hc | apply elem_of_cons in Hc as [[= -> ->]|Hc]]; try done.
  - apply ex_root_ok.
  - split_and!; [done..|]. apply ex_cnode_slots. set_solver.
Qed.

(** The address 6 = 0110 names slot 2 of the second level. *)
Lemma resolveAddressBits_witness :
  ∃ r, cspace_walk 65 (ctes ex_state) ex_root (bits_msb 64 6) = Some r ∧
    resolveAddressBits ex_root 6 64 ex_state = walk_outcome 64 r ex_state.
Proof. apply (resolveAddressBits_refines ex_state ex_root 6 64 ex_cspace_ok ex_root_ok). done. Defined.
Example ex_walk : cspace_walk 65 (ctes ex_state) ex_root (bits_msb 64 6) = Some (Found (slot2 2) 0).
Proof. vm_compute. reflexivity. Qed.

Lemma lookupSlotForCNodeOp_witness : ∃ s', ctes s' = ctes ex_state ∧
  lookupSlotForCNodeOp true ex_root 6 64 ex_state = Done (EXCEPTION_NONE, slot2 2) ex_state.
Proof.
  destruct (lookupSlotForCNodeOp_ok true ex_state ex_root 6 64 ex_cspace_ok ex_root_ok I) as (s' & Hs & Hl);
    [by vm_compute|].
  exists s'. split; [exact Hs|]. change (Z.to_nat 64) with 64%nat in Hl. rewrite ex_walk in Hl. exact Hl.
Defined.
