(* ===== verification/FastpathSpec.v ===== *)
(** * The fast path does what the slow path does *)
From S2P Require Import Prelude Words Platform State RefillList Sporadic Budget DList Queues QueueSpec Bitmap ReadyQueues CapOps CSpace VSpace Thread CNode Message SchedContext Reply Notification Endpoint Syscall Traps Fastpath Frames Invariant Example Machine SchedSpec AwakenSpec CSpaceSpec.

(** ** Capability lookup *)
(** The capability the walk of [CSpaceSpec.v] ends in; null for a failed walk. *)
Definition walk_cap (heap : gmap Z cte) (r : walk_result) : option cap :=
  match r with Found slot _ => cte_cap <$> heap !! slot | _ => Some cap_null_cap end.

(** The words of the shifts, bit by bit. *)
Lemma shift_window w b k : 0 ≤ b → 0 ≤ k → b + k ≤ 64 →
  Z.shiftr (w <<w b) (64 - k) = Z.shiftr w (64 - b - k) mod 2 ^ k.
Proof.
  intros Hb Hk Hbk. unfold wrap. apply Z.bits_inj'. intros j Hj.
  rewrite Z.shiftr_spec by done. destruct (decide (j < k)) as [Hlt|Hge].
  - rewrite !Z.mod_pow2_bits_low, Z.shiftr_spec, Z.shiftl_spec by lia. f_equal. lia.
  - rewrite (Z.mod_pow2_bits_high _ k) by lia. rewrite Z.mod_pow2_bits_high by lia. done.
Qed.
Lemma shift_twice w b g : 0 ≤ b → 0 ≤ g → (w <<w b) <<w g = w <<w (b + g).
Proof.
  intros. unfold wrap. apply Z.bits_inj'. intros j Hj. destruct (decide (j < 64)); [|by rewrite !Z.mod_pow2_bits_high by lia].
  rewrite !Z.mod_pow2_bits_low, !Z.shiftl_spec by lia. destruct (decide (g ≤ j)).
  - rewrite Z.mod_pow2_bits_low, Z.shiftl_spec by lia. f_equal. lia.
  - by rewrite !Z.testbit_neg_r by lia.
Qed.

Lemma bits_left_index w b k r : 0 ≤ b → 0 ≤ k → 0 ≤ r → b + k + r ≤ 64 →
  Z.shiftr ((w <<w b) <<w k) (64 - r) = Z.shiftr w (64 - b - k - r) mod 2 ^ r.
Proof. intros. rewrite shift_twice by done. rewrite shift_window by lia. do 2 f_equal. lia. Qed.
Lemma shiftr_word_bound w r : is_word w → 0 ≤ r ≤ 64 → 0 ≤ Z.shiftr w (64 - r) < 2 ^ r.
Proof.
  unfold is_word. intros Hw Hr. rewrite Z.shiftr_div_pow2 by lia. split; [apply Z.div_pos; lia|].
  apply Z.div_lt_upper_bound; [lia|]. rewrite <-Z.pow_add_r by lia. replace (64 - r + r) with 64 by lia. lia.
Qed.

(** One turn of the loop performs one level of the walk. *)
Lemma lookup_fp_turn heap c cptr bits fuel s :
  ctes s = heap → cspace_ok heap → cnode_ok heap c → is_cnode c → 0 ≤ bits < 64 →
  wp (lookup_fp_step cptr (c, bits)) (λ r s', s' = s ∧ match r with
    | inl (c', bits') => bits < bits' < 64 ∧ cnode_ok heap c' ∧ is_cnode c' ∧
        cspace_walk (S fuel) heap c (bits_msb (Z.to_nat (64 - bits)) cptr) =
        cspace_walk fuel heap c' (bits_msb (Z.to_nat (64 - bits')) cptr)
    | inr v => ∃ r, cspace_walk (S fuel) heap c (bits_msb (Z.to_nat (64 - bits)) cptr) = Some r ∧ walk_cap heap r = Some v
    end) s.
Proof.
  intros Hheap Hok Hc Hcn Hb. destruct c as [| | | | |radix g guard ptr| | | | | | | | | | |]; try done.
  destruct Hc as (Hr & Hg & Hrg & Hguard & Hslots). unfold lookup_fp_step.
  set (n := 64 - bits). assert (1 ≤ n ≤ 64) as Hn by (unfold n; lia).
  unfold wordBits. rewrite !(word_bits_left 64) by lia.
  rewrite (wrap_small (g + radix)) by (unfold is_word; lia). rewrite (wrap_small (bits + _)) by (unfold is_word; lia).
  cbn [cspace_walk]. rewrite bits_msb_length, Z2Nat.id by lia.
  set (idx := Z.shiftr ((cptr <<w bits) <<w g) (64 - radix)).
  assert (0 ≤ idx < 2 ^ radix) as Hidx by (apply shiftr_word_bound; [apply wrap_word|lia]).
  destruct (Hslots idx Hidx) as [e He].
  assert (∀ (Q : (cap * Z + cap) → kstate → Prop) k, wp (k e) Q s → wp (c ← get_cte (cte_index ptr idx); k c) Q s) as Hget.
  { intros Q k Hk. apply wp_bind. eapply wp_get_cte; [by rewrite Hheap|done]. }
  destruct (Z.ltb_spec n g) as [Hlt|Hge].
  { rewrite bool_decide_eq_false_2 by (apply guard_too_long; lia). simpl.
    case_match; [apply wp_ret; split; [done|by eexists]|]. apply Hget.
    rewrite (proj2 (Z.ltb_ge _ 64)), (proj2 (Z.ltb_lt 64 _)) by (unfold n in *; lia). apply wp_ret. split; [done|by eexists]. }
  assert (bits_msb (Z.to_nat g) guard `prefix_of` bits_msb (Z.to_nat n) cptr ↔ Z.shiftr cptr (n - g) mod 2 ^ g = guard) as Hpre.
  { rewrite guard_prefix by (rewrite ?Z2Nat.id; lia). rewrite Z2Nat.id by lia.
    by replace (Z.of_nat (Z.to_nat n - Z.to_nat g)) with (n - g) by lia. }
  rewrite shift_window by (unfold n in *; lia). fold n.
  assert (negb (g =? 0) && negb (Z.shiftr cptr (n - g) mod 2 ^ g =? guard) =
    negb (bool_decide (Z.shiftr cptr (n - g) mod 2 ^ g = guard))) as ->.
  { destruct (Z.eqb_spec g 0) as [->|]; simpl.
    - change (2 ^ 0) with 1 in *. rewrite Z.mod_1_r. by rewrite bool_decide_eq_true_2 by lia.
    - f_equal. apply eq_true_iff_eq. by rewrite Z.eqb_eq, bool_decide_eq_true. }
  rewrite (bool_decide_ext _ _ Hpre). case_bool_decide as Eg; simpl; [|apply wp_ret; split; [done|by eexists]].
  apply Hget. rewrite drop_bits_msb, bits_msb_length by lia.
  replace (Z.of_nat (Z.to_nat n - Z.to_nat g)) with (n - g) by lia.
  destruct (Z.ltb_spec (n - g) radix) as [Hlt|Hge2].
  { rewrite (proj2 (Z.ltb_ge _ 64)), (proj2 (Z.ltb_lt 64 _)) by (unfold n in *; lia). apply wp_ret. split; [done|by eexists]. }
  assert (idx = bits_value (take (Z.to_nat radix) (bits_msb (Z.to_nat n - Z.to_nat g) cptr))) as Eidx.
  { unfold idx. rewrite bits_left_index by (unfold n in *; lia). rewrite take_bits_msb, bits_value_msb by lia.
    rewrite Z2Nat.id by lia. do 2 f_equal. unfold n in *. lia. }
  rewrite <-Eidx. rewrite drop_bits_msb by lia.
  replace (Z.to_nat n - Z.to_nat g - Z.to_nat radix)%nat with (Z.to_nat (64 - (bits + (g + radix)))) by (unfold n in *; lia).
  rewrite bits_msb_length.
  destruct (decide (64 = bits + (g + radix))) as [E|Hne].
  - rewrite (proj2 (Z.ltb_ge _ 64)), (proj2 (Z.ltb_ge 64 _)) by lia. rewrite bool_decide_eq_true_2.
    + apply wp_ret. split; [done|]. eexists; split; [done|]. simpl. by rewrite He.
    + replace (64 - (bits + (g + radix))) with 0 by lia. done.
  - rewrite (proj2 (Z.ltb_lt _ 64)) by (unfold n in *; lia). rewrite (proj2 (Z.ltb_ge 64 _)) by (unfold n in *; lia).
    rewrite bool_decide_eq_false_2.
    2: { intros E0%(f_equal length). rewrite bits_msb_length in E0. simpl in E0. unfold n in *. lia. }
    rewrite He. simpl. pose proof (Hok _ _ He) as Hce. simpl in Hce.
    destruct (cte_cap e) eqn:Ece; simpl; apply wp_ret; split; try done;
      first [by (eexists; split; [done|]; simpl; rewrite He; simpl; by rewrite Ece) | split_and!; try done; unfold n in *; lia].
Qed.

Lemma lookup_fp_walk s c cptr : cspace_ok (ctes s) → cnode_ok (ctes s) c → is_cnode c →
  ∃ r v, cspace_walk 65 (ctes s) c (bits_msb 64 cptr) = Some r ∧ walk_cap (ctes s) r = Some v ∧
    lookup_fp c cptr s = Done v s.
Proof.
  intros Hok Hc Hcn.
  destruct (proj1 (wp_done (lookup_fp c cptr) (λ v s', s' = s ∧ ∃ r,
    cspace_walk 65 (ctes s) c (bits_msb 64 cptr) = Some r ∧ walk_cap (ctes s) r = Some v) s)) as (v & s' & Heq & -> & r & Hr & Hv);
    [|by exists r, v].
  destruct c as [| | | | |radix g guard ptr| | | | | | | | | | |]; try done. unfold lookup_fp.
  set (c := cap_cnode_cap radix g guard ptr) in *.
  apply (wp_while64_idx (λ m '(c', bits) s', s' = s ∧ m = 64 - bits ∧ 0 ≤ bits < 64 ∧ cnode_ok (ctes s) c' ∧ is_cnode c' ∧
    ∃ f, (Z.to_nat m < f)%nat ∧ cspace_walk 65 (ctes s) c (bits_msb 64 cptr) =
      cspace_walk f (ctes s) c' (bits_msb (Z.to_nat m) cptr)) _ _ 64); [|split_and!; try done; exists 65%nat; split; [lia|done]|lia].
  intros m [c' bits] s' _ (-> & -> & Hb & Hc' & Hcn' & f & Hf & Ewalk). destruct f as [|f]; [lia|].
  eapply wp_mono; [by apply (lookup_fp_turn (ctes s) c' cptr bits f)|].
  intros [[c'' bits']|v] s''.
  - intros (-> & Hlt & Hc'' & Hcn'' & E). exists (64 - bits'). split; [lia|]. split_and!; try done; try lia.
    exists f. split; [lia|]. congruence.
  - intros (-> & r & Hr & Hv). split; [done|]. exists r. split; [congruence|done].
Qed.

(** C29: The capability lookup of the fast path agrees with [lookupCap] on every address:
    it returns the same capability, without changing the state, and the null capability
    where [lookupCap] reports a lookup failure. *)
Theorem lookup_fp_ok s thread cptr ctable :
  cspace_ok (ctes s) → ctes s !! TCB_PTR_CTE_PTR thread tcbCTable = Some ctable →
  ∃ c st s', lookup_fp (cte_cap ctable) cptr s = Done c s ∧ lookupCap thread cptr s = Done (st, c) s' ∧
    (status_ok st = false → c = cap_null_cap) ∧ (status_ok st = true → s' = s).
Proof.
  intros Hok Hct. pose proof (Hok _ _ Hct) as Hc. simpl in Hc.
  unfold lookupCap, lookupSlot, get_cte, mbind, M_bind, get_state, deref. rewrite Hct.
  destruct (decide (is_cnode (cte_cap ctable))) as [Hcn|Hcn].
  - destruct (lookup_fp_walk s (cte_cap ctable) cptr) as (r & v & Hr & Hv & Hf); [done..|].
    destruct (resolveAddressBits_spec s (cte_cap ctable) cptr 64) as (r' & Hr' & Es); [done..|].
    change (Z.to_nat 64) with 64%nat in Hr'. rewrite Hr in Hr'. injection Hr' as <-. unfold wordBits. rewrite Hf, Es.
    destruct r as [slot rest| |]; simpl in Hv |- *; [|injection Hv as <-; by eexists _, _, _..].
    destruct (ctes s !! slot) as [e|]; [|done]. injection Hv as <-. by eexists _, _, _.
  - exists cap_null_cap, EXCEPTION_LOOKUP_FAULT, (set_current_lookup_fault lookup_fault_invalid_root s).
    split_and!; [by destruct (cte_cap ctable)|by destruct (cte_cap ctable)|done..].
Qed.

(** ** Example: address 6 of [tA] *)
Definition ex_fast : kstate := set_ctes (<[TCB_PTR_CTE_PTR tA tcbCTable := Cte ex_root nullMDBNode]> (ctes ex_state)) ex_state.
Lemma lookup_fp_witness : ∃ c st s', lookup_fp ex_root 6 ex_state = Done c ex_state ∧
  lookupCap tA 6 ex_state = Done (st, c) s' ∧ (status_ok st = false → c = cap_null_cap) ∧ (status_ok st = true → s' = ex_state).
Proof. apply (lookup_fp_ok ex_state tA 6 (Cte ex_root (mdb_node_new (slot1 1) true true NULL))); [apply ex_cspace_ok|by vm_compute]. Defined.

(** * The objects of a call

    A call touches a few objects: the two threads, the endpoint and the next thread in its
    queue, the scheduling context, the reply object and the one below it on the call stack.
    A [view] is a state with the current values of these, on which code is executed by
    rewriting; this file executes the fast path on it. *)

(** ** Views: a state with the objects of a call replaced *)
Definition put {A} (p : Z) (a : A) (m : gmap Z A) : gmap Z A := if p =? NULL then m else <[p := a]> m.

Record objects := Objects {
  o_cur : tcb; o_dest : tcb; o_next : tcb; o_ep : endpoint; o_sc : sched_context;
  o_reply : reply; o_old : reply; o_action : Z; o_extra : list Z }.
Definition on_cur f o := Objects (f (o_cur o)) (o_dest o) (o_next o) (o_ep o) (o_sc o) (o_reply o) (o_old o) (o_action o) (o_extra o).
Definition on_dest f o := Objects (o_cur o) (f (o_dest o)) (o_next o) (o_ep o) (o_sc o) (o_reply o) (o_old o) (o_action o) (o_extra o).
Definition on_next f o := Objects (o_cur o) (o_dest o) (f (o_next o)) (o_ep o) (o_sc o) (o_reply o) (o_old o) (o_action o) (o_extra o).
Definition on_ep f o := Objects (o_cur o) (o_dest o) (o_next o) (f (o_ep o)) (o_sc o) (o_reply o) (o_old o) (o_action o) (o_extra o).
Definition on_sco f o := Objects (o_cur o) (o_dest o) (o_next o) (o_ep o) (f (o_sc o)) (o_reply o) (o_old o) (o_action o) (o_extra o).
Definition on_reply f o := Objects (o_cur o) (o_dest o) (o_next o) (o_ep o) (o_sc o) (f (o_reply o)) (o_old o) (o_action o) (o_extra o).
Definition on_old f o := Objects (o_cur o) (o_dest o) (o_next o) (o_ep o) (o_sc o) (o_reply o) (f (o_old o)) (o_action o) (o_extra o).
Definition with_action a o := Objects (o_cur o) (o_dest o) (o_next o) (o_ep o) (o_sc o) (o_reply o) (o_old o) a (o_extra o).
Definition with_extra l o := Objects (o_cur o) (o_dest o) (o_next o) (o_ep o) (o_sc o) (o_reply o) (o_old o) (o_action o) l.

(** The addresses of the objects. *)
Record places := Places { a_cur : Z; a_dest : Z; a_next : Z; a_ep : Z; a_sc : Z; a_reply : Z; a_old : Z }.
Record places_ok (a : places) : Prop := {
  po_cur : a_cur a ≠ NULL; po_dest : a_dest a ≠ NULL; po_sc : a_sc a ≠ NULL; po_reply : a_reply a ≠ NULL;
  po_cur_dest : a_cur a ≠ a_dest a; po_cur_next : a_cur a ≠ a_next a; po_dest_next : a_dest a ≠ a_next a;
  po_reply_old : a_reply a ≠ a_old a }.

Definition view (s : kstate) (a : places) (o : objects) : kstate :=
  set_tcbs (<[a_cur a := o_cur o]> (<[a_dest a := o_dest o]> (put (a_next a) (o_next o) (tcbs s))))
  (set_eps (<[a_ep a := o_ep o]> (eps s)) (set_scs (<[a_sc a := o_sc o]> (scs s))
  (set_replies (<[a_reply a := o_reply o]> (put (a_old a) (o_old o) (replies s)))
  (set_ksSchedulerAction (o_action o) (set_current_extra_caps (o_extra o) s))))).

Section view.
Context (s : kstate) (a : places) (Ha : places_ok a).
#[local] Abbreviation view := (view s a).

Lemma lookup_cur o : tcbs (view o) !! a_cur a = Some (o_cur o).
Proof. apply lookup_insert_eq. Qed.
Lemma lookup_dest o : tcbs (view o) !! a_dest a = Some (o_dest o).
Proof. simpl. rewrite lookup_insert_ne by apply Ha. apply lookup_insert_eq. Qed.
Lemma lookup_next o : a_next a ≠ NULL → tcbs (view o) !! a_next a = Some (o_next o).
Proof.
  intros Hn. simpl. rewrite !lookup_insert_ne by apply Ha. unfold put. rewrite (proj2 (Z.eqb_neq _ _) Hn). apply lookup_insert_eq.
Qed.
Lemma lookup_other o x : x ≠ a_cur a → x ≠ a_dest a → x ≠ a_next a → tcbs (view o) !! x = tcbs s !! x.
Proof.
  intros. simpl. rewrite !lookup_insert_ne by done. unfold put. case_match; [done|]. by rewrite lookup_insert_ne.
Qed.
Lemma lookup_old o : a_old a ≠ NULL → replies (view o) !! a_old a = Some (o_old o).
Proof.
  intros Hn. simpl. rewrite lookup_insert_ne by apply Ha. unfold put. rewrite (proj2 (Z.eqb_neq _ _) Hn). apply lookup_insert_eq.
Qed.

Lemma get_cur o : get_tcb (a_cur a) (view o) = Done (o_cur o) (view o).
Proof. unfold get_tcb, mbind, M_bind, get_state, deref. by rewrite lookup_cur. Qed.
Lemma get_dest o : get_tcb (a_dest a) (view o) = Done (o_dest o) (view o).
Proof. unfold get_tcb, mbind, M_bind, get_state, deref. by rewrite lookup_dest. Qed.
Lemma get_next o : a_next a ≠ NULL → get_tcb (a_next a) (view o) = Done (o_next o) (view o).
Proof. intros. unfold get_tcb, mbind, M_bind, get_state, deref. by rewrite lookup_next. Qed.
Lemma get_ep_view o : get_ep (a_ep a) (view o) = Done (o_ep o) (view o).
Proof. unfold get_ep, mbind, M_bind, get_state, deref. simpl. by rewrite lookup_insert_eq. Qed.
Lemma get_sc_view o : get_sc (a_sc a) (view o) = Done (o_sc o) (view o).
Proof. unfold get_sc, mbind, M_bind, get_state, deref. simpl. by rewrite lookup_insert_eq. Qed.
Lemma get_reply_view o : get_reply (a_reply a) (view o) = Done (o_reply o) (view o).
Proof. unfold get_reply, mbind, M_bind, get_state, deref. simpl. by rewrite lookup_insert_eq. Qed.
Lemma get_old o : a_old a ≠ NULL → get_reply (a_old a) (view o) = Done (o_old o) (view o).
Proof. intros. unfold get_reply, mbind, M_bind, get_state, deref. by rewrite lookup_old. Qed.

Lemma mod_cur f o : mod_tcb (a_cur a) f (view o) = Done () (view (on_cur f o)).
Proof. unfold mod_tcb, mbind, M_bind. rewrite get_cur. unfold modify, FastpathSpec.view. simpl. by rewrite insert_insert_eq. Qed.
Lemma mod_dest f o : mod_tcb (a_dest a) f (view o) = Done () (view (on_dest f o)).
Proof.
  unfold mod_tcb, mbind, M_bind. rewrite get_dest. unfold modify, FastpathSpec.view. simpl.
  rewrite (insert_insert_ne _ (a_dest a)) by (intros E; by apply (po_cur_dest _ Ha)). by rewrite insert_insert_eq.
Qed.
Lemma mod_next f o : a_next a ≠ NULL → mod_tcb (a_next a) f (view o) = Done () (view (on_next f o)).
Proof.
  intros Hn. unfold mod_tcb, mbind, M_bind. rewrite get_next by done. unfold modify, FastpathSpec.view, put. simpl.
  rewrite (proj2 (Z.eqb_neq _ _) Hn). pose proof (po_cur_next _ Ha). pose proof (po_dest_next _ Ha).
  rewrite (insert_insert_ne _ (a_next a)) by done. rewrite (insert_insert_ne _ (a_next a)) by done. by rewrite insert_insert_eq.
Qed.
Lemma mod_ep_view f o : mod_ep (a_ep a) f (view o) = Done () (view (on_ep f o)).
Proof. unfold mod_ep, mbind, M_bind. rewrite get_ep_view. unfold modify, FastpathSpec.view. simpl. by rewrite insert_insert_eq. Qed.
Lemma mod_sc_view f o : mod_sc (a_sc a) f (view o) = Done () (view (on_sco f o)).
Proof. unfold mod_sc, mbind, M_bind. rewrite get_sc_view. unfold modify, FastpathSpec.view. simpl. by rewrite insert_insert_eq. Qed.
Lemma mod_reply_view f o : mod_reply (a_reply a) f (view o) = Done () (view (on_reply f o)).
Proof. unfold mod_reply, mbind, M_bind. rewrite get_reply_view. unfold modify, FastpathSpec.view. simpl. by rewrite insert_insert_eq. Qed.
Lemma mod_old f o : a_old a ≠ NULL → mod_reply (a_old a) f (view o) = Done () (view (on_old f o)).
Proof.
  intros Hn. unfold mod_reply, mbind, M_bind. rewrite get_old by done. unfold modify, FastpathSpec.view, put. simpl.
  rewrite (proj2 (Z.eqb_neq _ _) Hn). rewrite (insert_insert_ne _ (a_old a)) by (intros E; by apply (po_reply_old _ Ha)).
  by rewrite insert_insert_eq.
Qed.
Lemma set_action x o : modify (set_ksSchedulerAction x) (view o) = Done () (view (with_action x o)).
Proof. done. Qed.
Lemma excapref_view o : o_extra o ≠ [] → excapref 0 (view o) = Done (hd 0 (o_extra o)) (view o).
Proof. unfold excapref, mbind, M_bind, get_state, deref. simpl. by destruct (o_extra o). Qed.
Lemma set_excapref_view p o : o_extra o ≠ [] → set_excapref 0 p (view o) = Done () (view (with_extra (p :: tl (o_extra o)) o)).
Proof. intros Hn. unfold set_excapref, mbind, M_bind. rewrite excapref_view by done. unfold modify. simpl. by destruct (o_extra o). Qed.
End view.

(** The message registers [0] to [n - 1]. *)
Fixpoint copied (n : nat) (i : Z) (src dst : gmap Z Z) : gmap Z Z :=
  match n with
  | O => dst
  | S n => copied n (i + 1) src (<[msg_register 0 + i := wrap (default 0 (src !! (msg_register 0 + i)))]> dst)
  end.
Lemma copy_mrs_view s a n i o' : places_ok a →
  for_count n i (λ i, w ← getRegister (a_cur a) (msg_register 0 + i); setRegister (a_dest a) (msg_register 0 + i) w) (view s a o') =
  Done () (view s a (on_dest (λ t, set_tcbContext (copied n i (tcbContext (o_cur o')) (tcbContext t)) t) o')).
Proof.
  intros Ha. revert i o'. induction n as [|n IH]; intros i o'; simpl.
  - unfold mret, M_ret. do 2 f_equal. unfold on_dest. destruct o' as [? d]; simpl. by destruct d.
  - unfold mbind at 1, M_bind. unfold getRegister, setRegister, mbind at 1 2, M_bind, mret, M_ret.
    rewrite get_cur, mod_dest by done. rewrite IH. do 3 f_equal.
Qed.

(** ** The conditions of a call *)
(** The caller runs on its scheduling context; the receiver waits with a reply object and
    without a scheduling context of its own; the endpoint's queue starts with it. *)
Record call_ok `{Platform} (s : kstate) (a : places) (o : objects) : Prop := {
  ca_places : places_ok a;
  ca_cur : ksCurThread s = a_cur a;
  ca_fault : tcbFault (o_cur o) = seL4_Fault_NullFault;
  ca_run : tsType (tcbState (o_cur o)) = ThreadState_Running;
  ca_cur_flags : tcbQueued (tcbState (o_cur o)) = false ∧ tcbInReleaseQueue (tcbState (o_cur o)) = false;
  ca_cur_sc : tcbSchedContext (o_cur o) = a_sc a;
  ca_wait : tsType (tcbState (o_dest o)) = ThreadState_BlockedOnReceive;
  ca_dest_flags : tcbQueued (tcbState (o_dest o)) = false ∧ tcbInReleaseQueue (tcbState (o_dest o)) = false;
  ca_dest_sc : tcbSchedContext (o_dest o) = NULL;
  ca_dest_reply : replyObject (tcbState (o_dest o)) = a_reply a;
  ca_dest_links : tcbEPPrev (o_dest o) = NULL ∧ tcbEPNext (o_dest o) = a_next a;
  ca_ep : ep_state (o_ep o) = EPState_Recv ∧ epQueue_head (o_ep o) = a_dest a;
  ca_sc : scTcb (o_sc o) = a_cur a ∧ scReply (o_sc o) = a_old a ∧ sc_active (o_sc o) = true;
  ca_curSC : ksCurSC s = a_sc a;
  ca_budget : ∃ h, scRefills (o_sc o) !! Z.to_nat (scRefillHead (o_sc o)) = Some h ∧
    MIN_BUDGET ≤ rAmount h < 2 ^ 64 ∧ rTime h ≤ ksCurTime s;
  ca_reply : replyTCB (o_reply o) = a_dest a ∧ callStackPtr (replyPrev (o_reply o)) = 0 ∧
    callStackPtr (replyNext (o_reply o)) = 0;
  ca_old : a_old a ≠ NULL → callStackPtr (replyNext (o_old o)) = a_sc a;
  ca_action : o_action o = SchedulerAction_ResumeCurrentThread;
  ca_extra : o_extra o ≠ [] }.

(** ** What each path makes of the objects *)
Definition when_set (p : Z) (f : objects → objects) (o : objects) : objects := if p =? NULL then o else f o.
Definition dequeued (a : places) (o : objects) : objects :=
  if a_next a =? NULL then on_ep (λ _, Endpoint NULL NULL EPState_Idle) o
  else on_next (set_tcbEPPrev NULL) (on_ep (set_epQueue_head (a_next a)) o).
Definition ts_upd (f : thread_state → thread_state) (t : tcb) : tcb := set_tcbState (f (tcbState t)) t.
(** The call stack and the scheduling context move to the receiver. *)
Definition pushed (a : places) (o : objects) : objects :=
  on_sco (λ c, set_scTcb (a_dest a) (set_scReply (a_reply a) c))
    (when_set (a_old a) (on_old (set_replyNext (call_stack_new (a_reply a) false)))
      (on_reply (λ _, Reply (a_cur a) (call_stack_new (a_old a) false) (call_stack_new (a_sc a) true)) o)).
Definition fast_objects (a : places) (length : Z) (o : objects) : objects :=
  on_cur (λ t, set_tcbSchedContext NULL (ts_upd (λ ts, set_replyObject (a_reply a) (set_tsType ThreadState_BlockedOnReply (set_blockingObject 0 ts))) t))
    (on_dest (λ t, set_tcbContext (copied (Z.to_nat length) 0 (tcbContext (o_cur o)) (tcbContext t))
        (set_tcbSchedContext (a_sc a) (ts_upd (λ ts, set_tsType ThreadState_Running (set_blockingObject 0 (set_replyObject 0 ts))) t)))
      (pushed a (dequeued a o))).

(** ** Execution by rewriting *)
Ltac view_rule := first
  [ apply get_cur; assumption | apply get_dest; assumption | apply get_ep_view; assumption | apply get_sc_view; assumption
  | apply get_reply_view; assumption | apply get_old; assumption | apply mod_cur; assumption | apply mod_dest; assumption
  | apply mod_next; assumption | apply mod_ep_view; assumption | apply mod_sc_view; assumption
  | apply mod_reply_view; assumption | apply mod_old; assumption | apply set_action ].
Ltac vbind := repeat lazymatch goal with |- wp (mbind _ _) _ _ => apply wp_bind end.
Ltac vstep := vbind; eapply wp_exec; [view_rule|]; cbv beta.
Ltac vassert := vbind; apply wp_assert; [try done|]; cbv beta.
Ltac vsimpl := cbn [o_cur o_dest o_next o_ep o_sc o_reply o_old o_action o_extra on_cur on_dest on_next on_ep on_sco
  on_reply on_old with_action with_extra tcbState tcbSchedContext set_tcbState set_tcbSchedContext tcbContext set_tcbContext tcbQueued
  tcbInReleaseQueue set_tsType set_blockingObject set_replyObject tsType blockingObject replyObject scTcb scReply set_scTcb
  set_scReply replyTCB replyPrev replyNext set_replyTCB set_replyPrev set_replyNext callStackPtr ts_upd].

Lemma wp_when_old {B} s a f o (k : unit → K B) Q : places_ok a → wp (k ()) Q (view s a (when_set (a_old a) (on_old f) o)) →
  wp (when (negb (a_old a =? NULL)) (mod_reply (a_old a) f) ≫= k) Q (view s a o).
Proof.
  intros Ha. unfold when_set. destruct (Z.eqb_spec (a_old a) NULL); intros Hk; [by apply wp_bind, wp_ret|]. simpl. by vstep.
Qed.

Section exec.
Context `{Platform} (s : kstate) (a : places) (o : objects) (Hok : call_ok s a o).
Lemma exec_places : places_ok a.
Proof using Hok. apply Hok. Qed.
#[local] Abbreviation Ha := exec_places.

Lemma dequeued_same : o_cur (dequeued a o) = o_cur o ∧ o_dest (dequeued a o) = o_dest o ∧ o_sc (dequeued a o) = o_sc o ∧
  o_reply (dequeued a o) = o_reply o ∧ o_old (dequeued a o) = o_old o ∧ o_action (dequeued a o) = o_action o ∧
  o_extra (dequeued a o) = o_extra o.
Proof. unfold dequeued. by case_match. Qed.
(** The end of the fast path: the thread is switched to and its registers restored. *)
Definition switched (x satp : Z) (s : kstate) : kstate :=
  set_ksCurThread x (set_devices (set_dev_satp satp (devices s)) s).
Definition restored (badge info : Z) (t : tcb) : user_context :=
  let reg r := wrap (default 0 (tcbContext t !! r)) in
  UserContext (λ r, if r =? badgeRegister then badge else if r =? msgInfoRegister then info else reg r) (reg SSTATUS) (reg NextIP).
Lemma wp_switch_restore s1 x t pd asid badge info Q : tcbs s1 !! x = Some t →
  Q (restored badge info t) (switched x (satp_new SATP_MODE asid (Z.shiftr (addrFromPPtr pd) 12)) s1) →
  wp (switchToThread_fp x pd asid ≫= λ _, fastpath_restore badge info x) Q s1.
Proof.
  intros Ht HQ. unfold switchToThread_fp, setVSpaceRoot, write_satp, fastpath_restore. vbind. apply wp_modify. vbind. apply wp_modify.
  vbind. eapply wp_get_tcb; [exact Ht|]. by apply wp_ret.
Qed.

Lemma fast_commit_exec length badge pd asid info Q :
  Q (restored badge (wordFromMessageInfo (seL4_MessageInfo_set_capsUnwrapped info 0)) (o_dest (fast_objects a length o)))
    (switched (a_dest a) (satp_new SATP_MODE asid (Z.shiftr (addrFromPPtr pd) 12)) (view s a (fast_objects a length o))) →
  wp (fastpath_call_commit length badge (a_ep a) (a_dest a) (a_reply a) pd asid info) Q (view s a o).
Proof.
  pose proof Hok as []. intros HQ. unfold fastpath_call_commit.
  apply wp_bind, wp_gets. change (ksCurThread (view s a o)) with (ksCurThread s). rewrite ca_cur0.
  vstep. vstep.
  assert (∀ (k : unit → K user_context), wp (k ()) Q (view s a (dequeued a o)) →
    wp ((if negb (tcbEPNext (o_dest o) =? NULL) then mod_tcb (tcbEPNext (o_dest o)) (set_tcbEPPrev NULL)
   else endpoint_ptr_mset_epQueue_tail_state (a_ep a) 0 EPState_Idle) ≫= k) Q (view s a (on_ep (set_epQueue_head (tcbEPNext (o_dest o))) o))) as Hdq.
  { intros k. unfold dequeued. rewrite (proj2 ca_dest_links0). destruct (Z.eqb_spec (a_next a) NULL) as [E|E]; simpl; intros Hk; vstep.
    - unfold on_ep in *. simpl in *. rewrite E. exact Hk.
    - exact Hk. }
  apply Hdq. clear Hdq. unfold fast_objects, pushed in HQ.
  destruct dequeued_same as (Ec & Ed & Es & Er & Eo & _). revert HQ Ec Ed Es Er Eo. generalize (dequeued a o).
  intros o1 HQ Ec Ed Es Er Eo. unfold thread_state_ptr_set_replyObject_np.
  vstep. vstep. vsimpl. rewrite Ed. destruct ca_dest_flags0 as [-> ->]. vassert. vassert. vstep. vstep. vsimpl.
  rewrite Ec. destruct ca_cur_flags0 as [-> ->]. vassert. vassert. vstep. vstep. vstep. vsimpl. rewrite Ec, ca_cur_sc0.
  vstep. vstep. vstep. vstep. vsimpl. rewrite Es. destruct ca_sc0 as (_ & -> & _). vstep.
  apply wp_when_old; [done|]. vstep. vstep. unfold fastpath_copy_mrs, for_range. rewrite Z.sub_0_r.
  vbind. eapply wp_exec; [by apply copy_mrs_view|]. vstep.
  eapply wp_switch_restore; [by apply lookup_dest|]. revert HQ. unfold when_set. rewrite <-Ec.
  case_match; vsimpl; intros HQ; exact HQ.
Qed.
End exec.
