(* ===== verification/FastpathCall.v ===== *)
(** * The slow path of a call on views

    [sendIPC] to a waiting receiver, executed step by step on the views of [FastpathSpec.v]:
    the receiver leaves the queue of the endpoint, the message is transferred, the reply
    object and the scheduling context move, and the receiver becomes ready. *)
From S2P Require Import Prelude Words Platform State RefillList Sporadic Budget DList Queues QueueSpec Bitmap ReadyQueues CapOps CSpace VSpace Thread CNode Message SchedContext Reply Notification Endpoint Syscall Traps Fastpath Frames Invariant Example Machine SchedSpec AwakenSpec CSpaceSpec FastpathSpec.

Section slow.
Context `{Platform} (s : kstate) (a : places) (Ha : places_ok a) (Hcur : ksCurThread s = a_cur a).

(** ** Thread states *)
Lemma scheduleTCB_dest o : scheduleTCB (a_dest a) (view s a o) = Done () (view s a o).
Proof using Ha Hcur.
  unfold scheduleTCB, gets, mbind, M_bind. change (ksCurThread (view s a o)) with (ksCurThread s). rewrite Hcur.
  by rewrite (proj2 (Z.eqb_neq (a_dest a) (a_cur a))) by (intros E; by apply (po_cur_dest _ Ha)).
Qed.
Lemma setThreadState_dest ts o : setThreadState (a_dest a) ts (view s a o) = Done () (view s a (on_dest (ts_upd (set_tsType ts)) o)).
Proof using Ha Hcur.
  unfold setThreadState, mbind, M_bind. unfold mod_ts. rewrite mod_dest by apply Ha. apply scheduleTCB_dest.
Qed.
Lemma schedulable_cur o : isRunnable (o_cur o) = true → tcbSchedContext (o_cur o) = a_sc a →
  tcbInReleaseQueue (tcbState (o_cur o)) = false → sc_active (o_sc o) = true → isSchedulable (a_cur a) (view s a o) = Done true (view s a o).
Proof using Ha.
  intros Hr Hsc Hq Hc. unfold isSchedulable, mbind at 1, M_bind. rewrite get_cur, Hr, Hsc, (proj2 (Z.eqb_neq _ _) (po_sc _ Ha)). cbn [andb negb]. cbv iota.
  unfold mbind, M_bind. rewrite get_sc_view. by rewrite Hc, Hq.
Qed.
Lemma blocked_cur o : isRunnable (o_cur o) = false → isSchedulable (a_cur a) (view s a o) = Done false (view s a o).
Proof. intros Hr. unfold isSchedulable, mbind at 1, M_bind. by rewrite get_cur, Hr. Qed.
Lemma scheduleTCB_cur o b : o_action o = SchedulerAction_ResumeCurrentThread →
  isSchedulable (a_cur a) (view s a o) = Done b (view s a o) →
  scheduleTCB (a_cur a) (view s a o) = Done () (view s a (if b then o else with_action SchedulerAction_ChooseNewThread o)).
Proof using Hcur.
  intros Hact Hb. unfold scheduleTCB, gets, mbind, M_bind. change (ksCurThread (view s a o)) with (ksCurThread s). rewrite Hcur.
  change (ksSchedulerAction (view s a o)) with (o_action o). rewrite Hact, !Z.eqb_refl. cbn [andb]. unfold when.
  unfold mbind, M_bind. rewrite Hb. by destruct b.
Qed.
Lemma setThreadState_restart o : o_action o = SchedulerAction_ResumeCurrentThread → tcbSchedContext (o_cur o) = a_sc a →
  tcbInReleaseQueue (tcbState (o_cur o)) = false → sc_active (o_sc o) = true →
  setThreadState (a_cur a) ThreadState_Restart (view s a o) = Done () (view s a (on_cur (ts_upd (set_tsType ThreadState_Restart)) o)).
Proof using Ha Hcur.
  intros Hact Hsc Hr Hc. unfold setThreadState, mbind, M_bind, mod_ts. rewrite mod_cur.
  fold (ts_upd (set_tsType ThreadState_Restart)). apply (scheduleTCB_cur _ true); [exact Hact|by apply schedulable_cur].
Qed.
Lemma blocked_on_reply o : o_action o = SchedulerAction_ResumeCurrentThread →
  setThreadStateBlockedOnReply (a_cur a) (a_reply a) (view s a o) =
  Done () (view s a (with_action SchedulerAction_ChooseNewThread
    (on_cur (ts_upd (set_replyObject (a_reply a))) (on_cur (ts_upd (set_tsType ThreadState_BlockedOnReply)) o)))).
Proof using Hcur.
  intros Hact. unfold setThreadStateBlockedOnReply, mbind, M_bind, mod_ts. rewrite !mod_cur.
  apply (scheduleTCB_cur _ false); [exact Hact|by apply blocked_cur].
Qed.
Lemma rescheduleRequired_none o : o_action o = SchedulerAction_ChooseNewThread → rescheduleRequired (view s a o) = Done () (view s a o).
Proof.
  intros Hact. unfold rescheduleRequired, gets, mbind, M_bind. change (ksSchedulerAction (view s a o)) with (o_action o).
  rewrite Hact. change (Done () (view s a (with_action SchedulerAction_ChooseNewThread o)) = Done () (view s a o)).
  destruct o; simpl in *. by subst.
Qed.

(** ** The receiver leaves the queue of the endpoint *)
Lemma slow_dequeue {A} o (k : K A) Q :
  tcbEPPrev (o_dest o) = NULL → tcbEPNext (o_dest o) = a_next a → ep_state (o_ep o) = EPState_Recv →
  epQueue_head (o_ep o) = a_dest a → wp k Q (view s a (dequeued a o)) →
  wp (queue ← tcbEPDequeue (a_dest a) (ep_queue (o_ep o)); ep_ptr_set_queue (a_ep a) queue;;
      when (q_head queue =? NULL) (mod_ep (a_ep a) (set_ep_state EPState_Idle));; k) Q (view s a o).
Proof using Ha.
  intros Hp Hn Hst Hh Hk. unfold tcbEPDequeue. vstep. rewrite Hp, Hn. cbn [negb Z.eqb NULL].
  change (negb (NULL =? NULL)) with false. cbv iota. vbind. apply wp_ret. vstep. rewrite Hn, Hp. unfold dequeued in Hk.
  destruct (Z.eqb_spec (a_next a) NULL) as [E|E]; cbn [negb].
  - apply wp_ret. unfold ep_ptr_set_queue. vstep. vstep. cbn [q_head set_q_head set_q_end]. rewrite E.
    change (NULL =? NULL) with true. vstep. exact Hk.
  - vstep. apply wp_ret. unfold ep_ptr_set_queue. vstep. vstep. cbn [q_head set_q_head set_q_end].
    rewrite (proj2 (Z.eqb_neq _ _) E). vbind. apply wp_ret. 
    destruct o as [? ? ? [? ? ?] ? ? ? ? ?]; exact Hk.
Qed.

(** ** The message *)
Definition buffer_slot_ok (x : Z) : Prop := ∃ c, ctes s !! TCB_PTR_CTE_PTR x tcbBuffer = Some c ∧ cap_wf (cte_cap c).
Lemma lookupIPCBuffer_view x t r o : buffer_slot_ok x → get_tcb x (view s a o) = Done t (view s a o) →
  ∃ b, lookupIPCBuffer r x (view s a o) = Done b (view s a o).
Proof.
  intros (c & Hc & Hwf) Ht. unfold lookupIPCBuffer, mbind at 1 2, M_bind. rewrite Ht.
  unfold get_cte at 1, mbind at 1, M_bind at 1, get_state, deref. change (ctes (view s a o)) with (ctes s). rewrite Hc.
  destruct (cte_cap c) as [| | | | | | | | | | | | |asid base size rights dev va| | |]; try by eexists.
  destruct Hwf as (_ & Hsz & _). case_match; [by eexists|]. case_match; [|by eexists].
  assert (size = 0 ∨ size = 1 ∨ size = 2) as [->|[->| ->]] by lia; by eexists.
Qed.

(** A tag the fast path accepts. *)
Definition short_tag (w : Z) : Prop := is_word w ∧ fastpath_mi_check w = false.
Lemma short_tag_fields w : short_tag w →
  seL4_MessageInfo_get_extraCaps w = 0 ∧ 0 ≤ seL4_MessageInfo_get_length w ≤ 4 ∧ messageInfoFromWord w = w.
Proof.
  intros [Hw Hc]. unfold fastpath_mi_check in Hc. apply Z.ltb_ge in Hc. change (7 + seL4_MsgExtraCapBits) with 9 in Hc.
  rewrite land_MASK in Hc by lia. unfold is_word in Hw.
  assert (seL4_MessageInfo_get_extraCaps w = 0) as He.
  { unfold seL4_MessageInfo_get_extraCaps. rewrite land_MASK, Z.shiftr_div_pow2 by lia.
    change (2 ^ 9) with 512 in *. change (2 ^ 7) with 128. change (2 ^ 2) with 4. Z.to_euclidean_division_equations; lia. }
  assert (0 ≤ seL4_MessageInfo_get_length w ≤ 4) as Hl.
  { unfold seL4_MessageInfo_get_length. rewrite land_MASK by lia. change (2 ^ 9) with 512 in *. change (2 ^ 7) with 128. Z.to_euclidean_division_equations; lia. }
  split_and!; try done; try lia. unfold messageInfoFromWord. by rewrite (proj2 (Z.ltb_ge _ _)) by (unfold seL4_MsgMaxLength; lia).
Qed.
Lemma land_wnot_disjoint w m : is_word w → is_word m → Z.land w m = 0 → Z.land w (wnot m) = w.
Proof.
  intros Hw Hm H0. apply Z.bits_inj'. intros k Hk. rewrite Z.land_spec, wnot_spec by done.
  apply (f_equal (λ x, Z.testbit x k)) in H0. rewrite Z.land_spec, Z.bits_0 in H0.
  destruct (Z.ltb_spec k 64) as [Hlt|Hge]; [by destruct (Z.testbit w k), (Z.testbit m k)|].
  by rewrite testbit_word_high.
Qed.
Lemma lor_land_split w m : is_word w → is_word m → Z.lor (Z.land w (wnot m)) (Z.land w m) = w.
Proof.
  intros Hw Hm. apply Z.bits_inj'. intros k Hk. rewrite Z.lor_spec, !Z.land_spec, wnot_spec by done.
  destruct (Z.ltb_spec k 64) as [Hlt|Hge]; [by destruct (Z.testbit w k), (Z.testbit m k)|].
  by rewrite testbit_word_high.
Qed.

(** The tag that arrives is the same. *)
Lemma short_tag_sent w : short_tag w →
  seL4_MessageInfo_set_length (seL4_MessageInfo_set_capsUnwrapped (seL4_MessageInfo_set_extraCaps w 0) 0)
    (seL4_MessageInfo_get_length w) = seL4_MessageInfo_set_capsUnwrapped w 0.
Proof.
  intros [Hw Hc]. unfold fastpath_mi_check in Hc. apply Z.ltb_ge in Hc. change (7 + seL4_MsgExtraCapBits) with 9 in Hc.
  assert (seL4_MessageInfo_set_extraCaps w 0 = w) as ->.
  { unfold seL4_MessageInfo_set_extraCaps. change (Z.land 0 (MASK 2) <<w 7) with 0. rewrite Z.lor_0_r.
    apply land_wnot_disjoint; [done|by vm_compute|].
    change (MASK 2 <<w 7) with (Z.land (MASK 9) 384). rewrite Z.land_assoc.
    assert (0 ≤ Z.land w (MASK 9)) by (apply Z.land_nonneg; by right). 
    assert (∃ n, (n ≤ 4)%nat ∧ Z.land w (MASK 9) = Z.of_nat n) as (n & Hn & ->) by (exists (Z.to_nat (Z.land w (MASK 9))); lia).
    do 5 (destruct n as [|n]; [done|]). lia. }
  unfold seL4_MessageInfo_set_capsUnwrapped. change (Z.land 0 (MASK 3) <<w 9) with 0. rewrite Z.lor_0_r.
  set (v := Z.land w (wnot (MASK 3 <<w 9))). unfold seL4_MessageInfo_set_length, seL4_MessageInfo_get_length.
  rewrite <-Z.land_assoc, Z.land_diag.
  assert (Z.land w (MASK 7) = Z.land v (MASK 7)) as -> by (unfold v; rewrite <-Z.land_assoc; f_equal).
  apply lor_land_split; [by apply land_word|by vm_compute].
Qed.

Lemma lookupExtraCaps_none thread buf w o : seL4_MessageInfo_get_extraCaps w = 0 → o_extra o ≠ [] →
  lookupExtraCaps thread buf w (view s a o) = Done EXCEPTION_NONE (view s a (with_extra (NULL :: tl (o_extra o)) o)).
Proof.
  intros Hw He. unfold lookupExtraCaps. case_match; [unfold mbind, M_bind; by rewrite set_excapref_view|].
  rewrite Hw. change (Z.to_nat 0) with O. simpl lookupExtraCaps_loop. change (0 <? seL4_MsgMaxExtraCaps) with true. unfold when.
  unfold mbind, M_bind. by rewrite set_excapref_view.
Qed.
Lemma for_count_ext n i (b1 b2 : Z → K unit) s0 : (∀ j s, i ≤ j < i + Z.of_nat n → b1 j s = b2 j s) → for_count n i b1 s0 = for_count n i b2 s0.
Proof.
  revert i s0. induction n as [|n IH]; intros i s0 Hb; [done|]. simpl. unfold mbind, M_bind. rewrite Hb by lia.
  destruct (b2 i s0) as [[] s1|]; [|done]. apply IH. intros j s2 Hj. apply Hb. lia.
Qed.
Lemma copyMRs_short sb rb n o : 0 ≤ n ≤ 4 →
  copyMRs (a_cur a) sb (a_dest a) rb n (view s a o) =
  Done n (view s a (on_dest (λ t, set_tcbContext (copied (Z.to_nat n) 0 (tcbContext (o_cur o)) (tcbContext t)) t) o)).
Proof using Ha.
  intros Hn. unfold copyMRs. rewrite Z.min_l by (unfold n_msgRegisters; lia). unfold for_range. rewrite Z.sub_0_r, Z.sub_diag.
  unfold mbind at 1, M_bind.
  rewrite (for_count_ext _ _ _ (λ i, w ← getRegister (a_cur a) (msg_register 0 + i); setRegister (a_dest a) (msg_register 0 + i) w)).
  - rewrite (copy_mrs_view s a _ _ _ Ha). destruct ((rb =? NULL) || (sb =? NULL)); reflexivity.
  - intros j s1 Hj. assert (msg_register j = msg_register 0 + j) as ->; [|done].
    assert (j = 0 ∨ j = 1 ∨ j = 2 ∨ j = 3) as [->|[->|[->| ->]]] by lia; done.
Qed.

(** What the receiver's registers become. *)
Definition delivered (badge info : Z) (ctx : gmap Z Z) : gmap Z Z := <[badgeRegister := badge]> (<[msgInfoRegister := info]> ctx).
Definition transferred (w badge : Z) (o : objects) : objects :=
  with_extra (NULL :: tl (o_extra o))
    (on_dest (λ t, set_tcbContext (delivered badge (seL4_MessageInfo_set_capsUnwrapped w 0)
       (copied (Z.to_nat (seL4_MessageInfo_get_length w)) 0 (tcbContext (o_cur o)) (tcbContext t))) t) o).
Lemma slow_transfer w badge grant o Q : short_tag w → tcbContext (o_cur o) !! msgInfoRegister = Some w →
  tcbFault (o_cur o) = seL4_Fault_NullFault → o_extra o ≠ [] → buffer_slot_ok (a_cur a) → buffer_slot_ok (a_dest a) →
  Q () (view s a (transferred w badge o)) →
  wp (doIPCTransfer (a_cur a) (a_ep a) badge grant (a_dest a)) Q (view s a o).
Proof using Ha.
  intros Hw Hreg Hf He Hbc Hbd HQ. pose proof (short_tag_fields _ Hw) as (Hx & Hl & Htag). pose proof (short_tag_sent _ Hw) as Hsent.
  unfold doIPCTransfer. destruct (lookupIPCBuffer_view (a_dest a) _ true o Hbd (get_dest _ _ Ha o)) as [rb Hrb].
  vbind. eapply wp_exec; [exact Hrb|]. vstep. rewrite Hf. cbn [fault_is_null].
  destruct (lookupIPCBuffer_view (a_cur a) _ false o Hbc (get_cur _ _ o)) as [sb Hsb]. vbind. eapply wp_exec; [exact Hsb|].
  unfold doNormalTransfer, getRegister. vstep. vbind. apply wp_ret. rewrite Hreg. cbn [default from_option]. change (wrap (id w)) with (wrap w). rewrite (wrap_small w) by apply Hw.
  rewrite Htag. vbind.
  assert (wp (if grant then status ← lookupExtraCaps (a_cur a) sb w; when (negb (status_ok status)) (set_excapref 0 NULL) else set_excapref 0 NULL)
    (λ _ s', s' = view s a (with_extra (NULL :: tl (o_extra o)) o)) (view s a o)) as Hextra.
  { destruct grant; [vbind; eapply wp_exec; [by apply lookupExtraCaps_none|]; by apply wp_ret|].
    by eapply wp_exec; [apply set_excapref_view|]. }
  eapply wp_mono; [exact Hextra|]. intros [] s' ->. vbind. eapply wp_exec; [by apply copyMRs_short|]. vbind.
  unfold transferCaps. vbind. eapply wp_exec; [by apply excapref_view|]. cbn [hd o_extra with_extra on_dest]. change (NULL =? NULL) with true.
  cbn [orb]. apply wp_ret. rewrite Hsent. unfold wordFromMessageInfo, setRegister. vstep. eapply wp_exec; [view_rule|]. 
  exact HQ.
Qed.

(** ** The call stack *)
Lemma slow_unlink o Q : tsType (tcbState (o_dest o)) = ThreadState_BlockedOnReceive → replyTCB (o_reply o) = a_dest a →
  replyObject (tcbState (o_dest o)) = a_reply a →
  Q () (view s a (on_dest (ts_upd (set_tsType ThreadState_Inactive)) (on_reply (set_replyTCB NULL) o))) →
  wp (reply_unlink (a_reply a) (a_dest a)) Q (view s a o).
Proof using Ha Hcur.
  intros Hts Hr Ho HQ. unfold reply_unlink. vstep. vassert; [unfold ts_is; by rewrite Hts|]. vstep.
  vassert; [rewrite Hr; apply Z.eqb_refl|]. vassert; [rewrite Ho; apply Z.eqb_refl|]. vstep.
  eapply wp_exec; [apply setThreadState_dest|]. exact HQ.
Qed.

Lemma slow_donate o Q : tcbSchedContext (o_dest o) = NULL → scTcb (o_sc o) = a_cur a →
  tcbQueued (tcbState (o_cur o)) = false → tcbInReleaseQueue (tcbState (o_cur o)) = false →
  o_action o = SchedulerAction_ChooseNewThread →
  Q () (view s a (on_dest (set_tcbSchedContext (a_sc a)) (on_sco (set_scTcb (a_dest a)) (on_cur (set_tcbSchedContext NULL) o)))) →
  wp (schedContext_donate (a_sc a) (a_dest a)) Q (view s a o).
Proof using Ha Hcur.
  intros Hd Ht Hq Hr Hact HQ. unfold schedContext_donate.
  vassert; [by rewrite (proj2 (Z.eqb_neq _ _) (po_sc _ Ha))|]. vassert; [by rewrite (proj2 (Z.eqb_neq _ _) (po_dest _ Ha))|].
  vstep. vassert; [by rewrite Hd|]. vstep. rewrite Ht, (proj2 (Z.eqb_neq _ _) (po_cur _ Ha)). cbn [negb]. unfold when at 1.
  unfold tcbSchedDequeue, tcbReleaseRemove. vstep. rewrite Hq. apply wp_ret. vstep. rewrite Hr. apply wp_ret. vstep.
  vbind. apply wp_gets. vbind. apply wp_gets. change (ksCurThread (view s a _)) with (ksCurThread s). rewrite Hcur, Z.eqb_refl. cbn [orb]. unfold when.
  eapply wp_exec; [by apply rescheduleRequired_none|]. vstep. eapply wp_exec; [view_rule|]. exact HQ.
Qed.

Definition push_objects (o : objects) : objects :=
  on_cur (λ t, set_tcbSchedContext NULL (ts_upd (λ ts, set_replyObject (a_reply a) (set_tsType ThreadState_BlockedOnReply ts)) t))
    (on_dest (set_tcbSchedContext (a_sc a)) (pushed a (with_action SchedulerAction_ChooseNewThread o))).
Lemma slow_push o Q :
  replyTCB (o_reply o) = NULL ∧ callStackPtr (replyPrev (o_reply o)) = 0 ∧ callStackPtr (replyNext (o_reply o)) = 0 →
  tsType (tcbState (o_cur o)) = ThreadState_Restart → tcbSchedContext (o_cur o) = a_sc a →
  tcbQueued (tcbState (o_cur o)) = false → tcbInReleaseQueue (tcbState (o_cur o)) = false →
  tsType (tcbState (o_dest o)) = ThreadState_Inactive → tcbSchedContext (o_dest o) = NULL →
  scTcb (o_sc o) = a_cur a → scReply (o_sc o) = a_old a →
  (a_old a ≠ NULL → callStackPtr (replyNext (o_old o)) = a_sc a) →
  o_action o = SchedulerAction_ResumeCurrentThread →
  Q () (view s a (push_objects o)) →
  wp (reply_push (a_cur a) (a_dest a) (a_reply a) true) Q (view s a o).
Proof using Ha Hcur.
  intros (Hr1 & Hr2 & Hr3) Hct Hcs Hcq Hcr Hdt Hds Hst Hso Hold Hact HQ. unfold reply_push. vstep.
  vassert; [by rewrite (proj2 (Z.eqb_neq _ _) (po_cur _ Ha))|]. vassert; [by rewrite (proj2 (Z.eqb_neq _ _) (po_reply _ Ha))|].
  vstep. vassert; [by rewrite Hr1|]. vassert; [by rewrite Hr2|]. vassert; [by rewrite Hr3|].
  vassert; [unfold ts_is; by rewrite Hct|]. vstep. vassert; [unfold ts_is; by rewrite Hdt|]. vstep.
  vbind. eapply wp_exec; [by apply blocked_on_reply|]. vstep. vsimpl. rewrite Hcs, Hds, (proj2 (Z.eqb_neq _ _) (po_sc _ Ha)).
  change (NULL =? NULL) with true. cbn [andb negb]. unfold when at 1. vstep. vsimpl. rewrite Hso. vbind.
  apply (wp_mono _ (λ _ s', s' = view s a (with_action SchedulerAction_ChooseNewThread (on_cur (ts_upd (set_replyObject (a_reply a)))
    (on_cur (ts_upd (set_tsType ThreadState_BlockedOnReply)) (on_reply (set_replyTCB (a_cur a)) o)))))).
  { destruct (Z.eqb_spec (a_old a) NULL) as [E|E]; [by apply wp_ret|]. vstep. apply wp_assert; [|done]. vsimpl. apply Z.eqb_eq. auto. }
  intros [] s' ->. apply wp_when_old; [done|]. vstep. vstep. vstep.
  revert HQ. unfold push_objects, pushed, when_set. case_match; intros HQ; apply slow_donate; try done; exact HQ.
Qed.

(** ** The receiver becomes ready *)
(** The objects of the call in the state. *)
Record call_in (o : objects) : Prop := {
  ci_cur : tcbs s !! a_cur a = Some (o_cur o);
  ci_dest : tcbs s !! a_dest a = Some (o_dest o);
  ci_next : a_next a ≠ NULL → tcbs s !! a_next a = Some (o_next o);
  ci_ep : eps s !! a_ep a = Some (o_ep o);
  ci_sc : scs s !! a_sc a = Some (o_sc o);
  ci_reply : replies s !! a_reply a = Some (o_reply o);
  ci_old : a_old a ≠ NULL → replies s !! a_old a = Some (o_old o) }.
Lemma put_id {A} (p : Z) (x : A) m : (p ≠ NULL → m !! p = Some x) → put p x m = m.
Proof. intros Hp. unfold put. destruct (Z.eqb_spec p NULL); [done|]. by apply insert_id, Hp. Qed.
Lemma view_id o : call_in o → ksSchedulerAction s = o_action o → current_extra_caps s = o_extra o → view s a o = s.
Proof using.
  intros [] Hact Hex. unfold view. rewrite !put_id by done. rewrite (insert_id _ (a_dest a)), insert_id by done. rewrite !insert_id by done.
  rewrite <-Hact, <-Hex. clear. by destruct s.
Qed.

Definition same_sched (t t' : tcb) : Prop :=
  qinfo_of t' = qinfo_of t ∧ tcbSchedPrev t' = tcbSchedPrev t ∧ tcbSchedNext t' = tcbSchedNext t.
Lemma view_tcb o o' x : call_in o → same_sched (o_cur o) (o_cur o') → same_sched (o_dest o) (o_dest o') → same_sched (o_next o) (o_next o') →
  qview (view s a o') x = qview s x ∧ sched_links (view s a o') x = sched_links s x.
Proof using Ha.
  intros Hin (Hc1 & Hc2 & Hc3) (Hd1 & Hd2 & Hd3) (Hn1 & Hn2 & Hn3). unfold qview, sched_links.
  destruct (decide (x = a_cur a)) as [->|Hxc]; [rewrite lookup_cur, (ci_cur _ Hin); simpl; by rewrite Hc1, Hc2, Hc3|].
  destruct (decide (x = a_dest a)) as [->|Hxd]; [rewrite lookup_dest, (ci_dest _ Hin) by done; simpl; by rewrite Hd1, Hd2, Hd3|].
  destruct (decide (x = a_next a)) as [->|Hxn]; [|by rewrite lookup_other].
  destruct (decide (a_next a = NULL)) as [E|Hn].
  - simpl. rewrite !lookup_insert_ne by (apply not_eq_sym; done). unfold put. by rewrite (proj2 (Z.eqb_eq _ _) E).
  - rewrite lookup_next, (ci_next _ Hin) by done. simpl. by rewrite Hn1, Hn2, Hn3.
Qed.
Lemma sched_inv_view o o' : sched_inv s → call_in o → same_sched (o_cur o) (o_cur o') → same_sched (o_dest o) (o_dest o') →
  same_sched (o_next o) (o_next o') → sched_inv (view s a o').
Proof using Ha.
  intros Hinv Hin Hc Hde Hne. apply (sched_inv_ext s); [|done..]. intros x. by apply (view_tcb o).
Qed.

(** What the slow path makes of the objects. *)
Definition slow_objects (w badge : Z) (o : objects) : objects :=
  on_dest (ts_upd (set_tsType ThreadState_Running))
    (push_objects (on_dest (ts_upd (set_tsType ThreadState_Inactive)) (on_reply (set_replyTCB NULL)
      (transferred w badge (dequeued a (on_cur (ts_upd (set_tsType ThreadState_Restart)) o)))))).
Lemma slow_objects_fields w badge o :
  let f := slow_objects w badge o in
  tcbSchedContext (o_dest f) = a_sc a ∧ tcbState (o_dest f) = set_tsType ThreadState_Running (set_tsType ThreadState_Inactive (tcbState (o_dest o))) ∧
  o_sc f = set_scTcb (a_dest a) (set_scReply (a_reply a) (o_sc o)) ∧ o_action f = SchedulerAction_ChooseNewThread ∧
  same_sched (o_cur o) (o_cur f) ∧ same_sched (o_dest o) (o_dest f) ∧ same_sched (o_next o) (o_next f) ∧
  tcbDomain (o_dest f) = tcbDomain (o_dest o) ∧ tcbPriority (o_dest f) = tcbPriority (o_dest o).
Proof. unfold slow_objects, push_objects, pushed, when_set, dequeued. by case_match; case_match. Qed.
Lemma slow_startable w badge o : call_ok s a o →
  ∃ h, startable_with (view s a (slow_objects w badge o)) (a_dest a) (o_dest (slow_objects w badge o)) (o_sc (slow_objects w badge o)) h ∧ rTime h ≤ ksCurTime s.
Proof using Ha.
  intros Hok. destruct (ca_budget _ _ _ Hok) as (h & Hh & Hb & Ht). exists h. split; [|done].
  destruct (slow_objects_fields w badge o) as (E1 & E2 & E3 & _). split_and!.
  - by apply lookup_dest.
  - unfold isRunnable. by rewrite E2.
  - rewrite E1. apply Ha.
  - rewrite E1. apply lookup_insert_eq.
  - rewrite E3. by destruct (ca_sc _ _ _ Hok) as (_ & _ & ?).
  - by rewrite E3.
  - lia.
  - pose proof (wrap_word (2 * getKernelWcetTicks * CONFIG_KERNEL_WCET_SCALE)) as [? _]. unfold MIN_BUDGET in Hb. lia.
  - lia.
Qed.

(** After the call: the receiver is the first ready thread of its priority, with [l] behind it. *)
Record called (w badge : Z) (o : objects) (l : list Z) (s' : kstate) : Prop := {
  cd_inv : sched_inv s';
  cd_only : sched_only (view s a (slow_objects w badge o)) s';
  cd_others : ∀ y, y ≠ a_dest a → qview s' y = qview s y;
  cd_queue : queue_holds s' (Qready (tcbDomain (o_dest o)) (tcbPriority (o_dest o))) (a_dest a :: l);
  cd_kept : others_kept (Qready (tcbDomain (o_dest o)) (tcbPriority (o_dest o))) s s';
  cd_reprogram : ksReprogram s' = ksReprogram s }.

(** The end of [sendIPC]: the receiver is enqueued. *)
Lemma slow_enqueue w badge o l Q : sched_inv s → call_in o → call_ok s a o →
  queue_holds s (Qready (tcbDomain (o_dest o)) (tcbPriority (o_dest o))) l →
  (∀ s', called w badge o l s' → Q () s') →
  wp (possibleSwitchTo (a_dest a)) Q (view s a (slow_objects w badge o)).
Proof using Ha Hcur.
  intros Hinv Hin Hok Hl HQ. destruct (slow_objects_fields w badge o) as (E1 & E2 & E3 & E4 & Sc & Sd & Sn & Ed & Ep).
  destruct (slow_startable w badge o Hok) as (h & Hst & _). destruct (ca_dest_flags _ _ _ Hok) as [Hq Hr].
  set (f := slow_objects w badge o) in *. pose proof (sched_inv_view o f Hinv Hin Sc Sd Sn) as Hinv'.
  assert (wp (tcbSchedEnqueue (a_dest a)) Q (view s a f)) as Henq.
  { assert (∀ n k, queue_holds s n k → queue_holds (view s a f) n k) as Hqs.
    { intros n k. apply queue_holds_ext; [|done..]. intros x. by apply (view_tcb o f). }
    eapply wp_keeps; [apply (reprogram_enqueue (ksReprogram s))|done|].
    eapply (tcbSchedEnqueue_spec _ _ (o_dest f) l); [done|by apply lookup_dest|by rewrite E2|by rewrite E2| | | |].
    - eapply startable_schedulable; [done|by rewrite E2].
    - by eapply startable_sufficient.
    - rewrite Ed, Ep. by apply (Hqs (Qready _ _)).
    - rewrite Ed, Ep. intros s' Hi Hso HV Hrl Hok' Hrep _. apply HQ. split; try done.
      + intros y Hy. rewrite HV, decide_False by done. by apply (view_tcb o f).
      + intros n k Hn Hv Hk. by apply Hok', Hqs. }
  unfold possibleSwitchTo. vstep. rewrite E1, E2, (proj2 (Z.eqb_neq _ _) (po_sc _ Ha)). cbn [tcbInReleaseQueue set_tsType]. rewrite Hr.
  cbn [negb andb]. unfold when. vbind. apply wp_gets. vbind. apply wp_gets. case_match; [done|].
  change (ksSchedulerAction (view s a f)) with (o_action f). rewrite E4. change (negb (_ =? _)) with true. cbv iota.
  vbind. eapply wp_exec; [by apply rescheduleRequired_none|]. done.
Qed.

Definition tag_ok (w : Z) (o : objects) : Prop := short_tag w ∧ tcbContext (o_cur o) !! msgInfoRegister = Some w.
Lemma slow_sendIPC w badge cg cgr o l Q : sched_inv s → call_in o → call_ok s a o → tag_ok w o →
  buffer_slot_ok (a_cur a) → buffer_slot_ok (a_dest a) → cg || cgr = true →
  queue_holds s (Qready (tcbDomain (o_dest o)) (tcbPriority (o_dest o))) l →
  (∀ s', called w badge o l s' → Q () s') →
  wp (sendIPC true true badge cg cgr true (a_cur a) (a_ep a)) Q (view s a (on_cur (ts_upd (set_tsType ThreadState_Restart)) o)).
Proof using Ha Hcur.
  intros Hinv Hin Hok [Hw Hreg] Hbc Hbd Hg Hl HQ.
  pose proof (ca_ep _ _ _ Hok) as [ca_ep0 ca_ep1]. pose proof (ca_dest_links _ _ _ Hok) as [ca_dl0 ca_dl1].
  pose proof (ca_dest_reply _ _ _ Hok) as ca_dest_reply0.
  set (o1 := on_cur (ts_upd (set_tsType ThreadState_Restart)) o).
  unfold sendIPC. vstep. change (ep_state (o_ep o1)) with (ep_state (o_ep o)). rewrite ca_ep0. cbv iota.
  unfold ep_ptr_get_queue. vstep. vbind. apply wp_ret. change (q_head (ep_queue (o_ep o1))) with (epQueue_head (o_ep o)).
  rewrite ca_ep1. vassert; [by rewrite (proj2 (Z.eqb_neq _ _) (po_dest _ Ha))|].
  apply slow_dequeue; [exact ca_dl0|exact ca_dl1|exact ca_ep0|exact ca_ep1|].
  destruct (dequeued_same a o1) as (Ec & Ed & Es & Er & Eo & Ea & Ex). set (o2 := dequeued a o1) in *.
  vbind. apply (slow_transfer w badge); [done|rewrite Ec; exact Hreg|rewrite Ec; exact (ca_fault _ _ _ Hok)|rewrite Ex; exact (ca_extra _ _ _ Hok)|done..|]. vstep.
  assert (tcbState (o_dest (transferred w badge o2)) = tcbState (o_dest o) ∧
    tcbSchedContext (o_dest (transferred w badge o2)) = tcbSchedContext (o_dest o)) as [Fd Fds] by (cbn; by rewrite Ed).
  assert (o_cur (transferred w badge o2) = o_cur o1 ∧ o_sc (transferred w badge o2) = o_sc o ∧ o_reply (transferred w badge o2) = o_reply o ∧
    o_old (transferred w badge o2) = o_old o ∧ o_action (transferred w badge o2) = o_action o) as (Fc & Fs & Fr & Fo & Fa) by done.
  change (replyObject _) with (replyObject (tcbState (o_dest (transferred w badge o2)))).
  rewrite Fd, ca_dest_reply0, (proj2 (Z.eqb_neq _ _) (po_reply _ Ha)). cbn [negb andb orb]. unfold when at 1.
  destruct (ca_reply _ _ _ Hok) as (Hr1 & Hr2 & Hr3). destruct (ca_sc _ _ _ Hok) as (Hs1 & Hs2 & Hs3).
  destruct (ca_cur_flags _ _ _ Hok) as [Hcq Hcr]. pose proof (ca_old _ _ _ Hok). pose proof (ca_cur_sc _ _ _ Hok).
  vbind. apply slow_unlink; [rewrite Fd; apply Hok|by rewrite Fr|by rewrite Fd|]. vstep. vstep. rewrite Hg. vbind.
  apply slow_push; [cbn; rewrite Er; done|cbn; by rewrite Ec|cbn; by rewrite Ec|cbn; by rewrite Ec|cbn; by rewrite Ec|done|
    etrans; [exact Fds|apply Hok]|cbn; by rewrite Es|cbn; by rewrite Es|cbn; by rewrite Eo|etrans; [exact Fa|apply Hok]|].
  vbind. eapply wp_exec; [apply setThreadState_dest|].
  change (wp ?m Q _) with (wp m Q (view s a (slow_objects w badge o))).
  destruct (slow_objects_fields w badge o) as (E1 & E2 & E3 & _). destruct (slow_startable w badge o Hok) as (h & Hst & Hle).
  pose proof (startable_sufficient _ _ _ _ _ Hst) as Hsuf. pose proof (startable_time _ _ _ _ _ Hst) as [_ Hrdy].
  rewrite E1 in Hsuf, Hrdy. change (ksCurTime (view s a _)) with (ksCurTime s) in Hrdy. rewrite (proj2 (Z.leb_le _ _) Hle) in Hrdy.
  vstep. rewrite E1, (proj2 (Z.eqb_neq _ _) (po_sc _ Ha)). vbind. eapply wp_exec; [exact Hsuf|]. apply wp_assert; [done|].
  vbind. eapply wp_exec; [exact Hrdy|]. apply wp_assert; [done|].
  unfold sc_sporadic. rewrite (proj2 (Z.eqb_neq _ _) (po_sc _ Ha)). vstep. vassert; [assert (sc_active (o_sc (slow_objects w badge o)) = true) as -> by (rewrite E3; exact Hs3); apply orb_true_r|].
  apply wp_ret. vbind. apply wp_gets. change (ksCurSC (view s a _)) with (ksCurSC s). rewrite (ca_curSC _ _ _ Hok), Z.eqb_refl.
  rewrite andb_false_r. vbind. apply wp_ret. eapply slow_enqueue; done.
Qed.
End slow.
