(* ===== verification/FastpathEq.v ===== *)
(** * A call on the fast path and on the slow path

    The whole slow path of a call, from the capability lookup over [sendIPC] and the
    scheduler to the return to user mode, against the fast path: the two outcomes agree. *)
From S2P Require Import Prelude Words Platform State Keeps RefillList Sporadic Budget DList Queues QueueSpec Bitmap ReadyQueues CapOps CSpace VSpace Thread CNode Message SchedContext Reply Notification Endpoint Syscall Traps Fastpath Frames Invariant Example Machine SchedSpec AwakenSpec CSpaceSpec FastpathSpec FastpathCall.

(** ** Lists and queues *)
#[global] Instance qname_eq_dec : EqDecision qname.
Proof. solve_decision. Defined.
Lemma dseg_unique lk p l l' : dseg lk p l NULL → dseg lk p l' NULL → first NULL l = first NULL l' → l = l'.
Proof.
  revert p l'. induction l as [|x l IH]; intros p [|y l'] Hl Hl' Hf; simpl in *; [done|by destruct Hl' as [[] _]|by destruct Hl as [[] _]|].
  subst y. destruct Hl as (_ & E & Hl), Hl' as (_ & E' & Hl'). rewrite E in E'. injection E' as E'. f_equal. by apply (IH x).
Qed.
Lemma queue_holds_unique `{Platform} s n l l' : queue_holds s n l → queue_holds s n l' → l = l'.
Proof.
  assert (∀ lk q, dlist lk l q → dlist lk l' q → l = l') as Hu.
  { intros lk q (_ & H1 & H2 & _) (_ & H1' & H2' & _). apply (dseg_unique lk NULL); [done..|congruence]. }
  destruct n as [d p|]; [intros (q & Hq & Hd & _) (q' & Hq' & Hd' & _); simplify_eq|intros [Hd _] [Hd' _]]; by eapply Hu.
Qed.

(** A thread of a state that is the same up to the queues. *)
Lemma sched_only_tcb s s' x t : sched_only s s' → tcbs s !! x = Some t →
  ∃ t', tcbs s' !! x = Some t' ∧ tsType (tcbState t') = tsType (tcbState t) ∧ tcbSchedContext t' = tcbSchedContext t ∧
    tcbYieldTo t' = tcbYieldTo t ∧ tcbContext t' = tcbContext t.
Proof.
  intros [_ HT] Ht. specialize (HT x). rewrite Ht in HT. destruct (tcbs s' !! x) as [t'|]; [|done]. exists t'. split; [done|].
  simpl in HT. assert (strip_sched t' = strip_sched t) as E by congruence. split_and!.
  - by apply (f_equal (λ t, tsType (tcbState t))) in E.
  - by apply (f_equal tcbSchedContext) in E.
  - by apply (f_equal tcbYieldTo) in E.
  - by apply (f_equal tcbContext) in E.
Qed.

Lemma switched_fields x w s : tcbs (switched x w s) = tcbs s ∧ ksCurThread (switched x w s) = x ∧ ksCurSC (switched x w s) = ksCurSC s.
Proof. done. Qed.
Lemma resumed_fields x w s (s' := set_ksSchedulerAction SchedulerAction_ResumeCurrentThread (switched x w s)) :
  tcbs s' = tcbs s ∧ ksCurThread s' = x ∧ ksCurSC s' = ksCurSC s.
Proof. done. Qed.
Lemma slow_yield a w badge o : tcbYieldTo (o_dest (slow_objects a w badge o)) = tcbYieldTo (o_dest o).
Proof. unfold slow_objects, push_objects, pushed, when_set, dequeued. by case_match; case_match. Qed.
Lemma sched_only_current s s' : sched_only s s' → ksCurThread s' = ksCurThread s ∧ ksCurSC s' = ksCurSC s.
Proof. intros [E _]. split; [by apply (f_equal ksCurThread) in E|by apply (f_equal ksCurSC) in E]. Qed.
Lemma sched_only_switched x w s s' : sched_only s s' → sched_only (switched x w s) (switched x w s').
Proof. intros [E HT]. split; [|exact HT]. by apply (f_equal (switched x w)) in E. Qed.
Lemma sched_only_set_action x s s' : sched_only s s' → sched_only (set_ksSchedulerAction x s) (set_ksSchedulerAction x s').
Proof. intros [E HT]. split; [|exact HT]. by apply (f_equal (set_ksSchedulerAction x)) in E. Qed.

Section sched.
Context `{PlatformOk}.

Lemma isHighestPrio_true s dom prio : sched_inv s → 0 ≤ dom < numDomains → (∀ p z, ready (qview s) dom p z → p ≤ prio) →
  isHighestPrio dom prio s = Done true s.
Proof.
  intros (_ & Hb & _) Hd Hp. destruct (Hb dom Hd) as (R & HR & Hm). pose proof HR as (w1 & row & Hw1 & _ & Hbr).
  destruct (proj1 (wp_done (isHighestPrio dom prio) (λ b s', b = true ∧ s' = s) s)) as (b & s' & E & -> & ->); [|done].
  unfold isHighestPrio. apply wp_bind. eapply wp_get_l1; [done|]. destruct (Z.eqb_spec w1 0) as [|Hw]; [by apply wp_ret|].
  destruct (bitmap_occupied _ _ _ Hbr Hw) as (p0 & Hp0 & HRp0). apply wp_bind.
  eapply getHighestPrio_spec; [done|by eauto|]. intros p Hp' HRp _. apply wp_ret. split; [|done].
  destruct (proj1 (Hm p Hp') HRp) as [z Hz]. apply Z.leb_le. by eapply Hp.
Qed.

(** Nothing wakes up while no thread of the release queue is due. *)
Definition all_asleep (s : kstate) : Prop := ∀ x, awaiting (qview s) x → ∃ r, ready_time s x = Some r ∧ ksCurTime s < r.
Lemma awaken_none s : sched_inv s → all_asleep s → awaken s = Done () s.
Proof.
  intros (Hq & _) Hsl. destruct (qok_release _ _ _ _ Hq) as (l & (Hnd & Hseg & Hh & _) & Hm).
  assert (release_q_non_empty_and_ready s = Done false s) as Hr.
  { unfold release_q_non_empty_and_ready, gets, mbind, M_bind. rewrite Hh. destruct l as [|x l]; [done|]. simpl.
    destruct Hseg as (Hx0 & _). rewrite (proj2 (Z.eqb_neq _ _) Hx0).
    destruct (Hsl x) as (r & Hr & Hlt); [apply Hm; set_solver|]. revert Hr. unfold ready_time, get_tcb, mbind, M_bind, option_bind, get_state, deref.
    destruct (tcbs s !! x) as [t|]; [|done]. destruct (scs s !! tcbSchedContext t) as [c|] eqn:Hc; [|done].
    destruct (scRefills c !! Z.to_nat (scRefillHead c)) as [h|] eqn:Hrf; [|done]. intros [= <-].
    unfold sc_refill_ready, gets, mbind, M_bind. rewrite (on_sc_read _ c _ false); [done..|].
    unfold refill_ready, mbind, M_bind. rewrite (refill_head_spec c h Hrf). unfold mret, M_ret. do 2 f_equal. by apply Z.leb_gt. }
  destruct (proj1 (wp_done awaken (λ _ s', s' = s) s)) as ([] & s' & E & ->); [|done].
  apply (wp_while64_idx (λ n _ s', s' = s ∧ n = 0) _ _ 0); [|done|lia]. intros n [] s' _ [-> ->].
  apply wp_bind. eapply wp_exec; [exact Hr|]. by apply wp_ret.
Qed.

Lemma setVMRoot_found s x v asid pd mapped va : ctes s !! TCB_PTR_CTE_PTR x tcbVTable = Some v →
  cte_cap v = cap_page_table_cap asid pd mapped va → asid_in_range s asid → pd ≠ NULL → asid_root s asid = pd →
  setVMRoot x s = Done () (set_devices (set_dev_satp (satp_new SATP_MODE asid (Z.shiftr (addrFromPPtr pd) 12)) (devices s)) s).
Proof.
  intros Hv Hc Hr Hpd Ha. unfold setVMRoot, get_cte, mbind, M_bind, get_state, deref. rewrite Hv, Hc.
  rewrite findVSpaceForASID_spec, Ha, (proj2 (Z.eqb_neq _ _) Hpd) by done. cbn. by rewrite Z.eqb_refl.
Qed.
End sched.

(** ** Comparing the two outcomes *)
(** The fields of a thread state that mean nothing in that state, and the scratch list of
    capabilities, are left out of the comparison. *)
Definition live_ts (ts : thread_state) : thread_state :=
  let ts := match tsType ts with
    | ThreadState_BlockedOnReceive | ThreadState_BlockedOnSend | ThreadState_BlockedOnNotification => ts
    | _ => set_blockingObject 0 ts end in
  match tsType ts with ThreadState_BlockedOnReceive | ThreadState_BlockedOnReply => ts | _ => set_replyObject 0 ts end.
Definition live (s : kstate) : kstate := set_tcbs (ts_upd live_ts <$> tcbs s) (set_current_extra_caps [] s).
(** Badge and tag, which the fast path hands over in registers, written to the context. *)
Definition deliver_to (x badge info : Z) (s : kstate) : kstate :=
  set_tcbs (alter (λ t, set_tcbContext (delivered badge info (tcbContext t)) t) x (tcbs s)) s.

Lemma live_tcbs s : tcbs (live s) = ts_upd live_ts <$> tcbs s.
Proof. done. Qed.
Lemma deliver_tcbs x badge info s : tcbs (deliver_to x badge info s) = alter (λ t, set_tcbContext (delivered badge info (tcbContext t)) t) x (tcbs s).
Proof. done. Qed.
Lemma strip_live t t' : strip_sched t' = strip_sched t → strip_sched (ts_upd live_ts t') = strip_sched (ts_upd live_ts t).
Proof.
  assert (∀ t, strip_sched (ts_upd live_ts t) = ts_upd live_ts (strip_sched t)) as E; [|intros Ht; by rewrite !E, Ht].
  intros [? [? ? ? ? ? ? ? ? ty] ? ? ? ? ? ? ? ? ? ? ? ? ? ?]. by destruct ty.
Qed.
Lemma sched_only_live s s' : sched_only s s' → sched_only (live s) (live s').
Proof.
  intros [E HT]. split; [by apply (f_equal (set_current_extra_caps [])) in E|]. intros x. specialize (HT x). simpl. rewrite !lookup_fmap.
  destruct (tcbs s' !! x) as [t'|], (tcbs s !! x) as [t|]; simpl in *; try done. f_equal. apply strip_live. congruence.
Qed.

(** Two views with the same objects but for dead fields and the delivered registers. *)
Definition same_objects (badge info : Z) (o1 o2 : objects) : Prop :=
  ts_upd live_ts (o_cur o1) = ts_upd live_ts (o_cur o2) ∧
  ts_upd live_ts (set_tcbContext (delivered badge info (tcbContext (o_dest o1))) (o_dest o1)) = ts_upd live_ts (o_dest o2) ∧
  o_next o1 = o_next o2 ∧ o_ep o1 = o_ep o2 ∧ o_sc o1 = o_sc o2 ∧ o_reply o1 = o_reply o2 ∧ o_old o1 = o_old o2.
Lemma view_agree s a w badge info o1 o2 : places_ok a → same_objects badge info o1 o2 → o_action o1 = SchedulerAction_ResumeCurrentThread →
  sched_only (live (deliver_to (a_dest a) badge info (switched (a_dest a) w (view s a o1))))
    (live (set_ksSchedulerAction SchedulerAction_ResumeCurrentThread (switched (a_dest a) w (view s a o2)))).
Proof.
  intros Ha (E1 & E2 & E3 & E4 & E5 & E6 & E7) Eact. split.
  - destruct o1, o2; simpl in E3, E4, E5, E6, E7, Eact; subst. reflexivity.
  - intros x. rewrite !live_tcbs, deliver_tcbs, (proj1 (resumed_fields _ _ _)), (proj1 (switched_fields _ _ _)).
    rewrite !lookup_fmap. destruct (decide (x = a_dest a)) as [->|Hd]; [rewrite lookup_alter_eq, !lookup_dest by done; simpl; by rewrite E2|].
    rewrite lookup_alter_ne by done. destruct (decide (x = a_cur a)) as [->|Hc]; [rewrite !lookup_cur; simpl; by rewrite E1|].
    simpl. rewrite !lookup_insert_ne by done. by rewrite E3.
Qed.

(** ** The slow path of a call *)
(** [slowpath] for [SysCall] after the timestamp and the budget check. *)
Section slow_call.
Context `{Platform}.
Definition slow_call : K user_context :=
  cur ← gets ksCurThread;
  cptr ← getRegister cur capRegister;
  ret ← handleInvocation true true true false cptr;
  after_invocation ret (mret ());;
  schedule;;
  activateThread;;
  restore_user_context.
Lemma slowpath_call s0 s1 s u s' : updateTimestamp s0 = Done () s1 → checkBudgetRestart s1 = Done true s → slow_call s = Done u s' →
  slowpath (syscall_number SysCall) s0 = Done u s'.
Proof.
  intros H1 H2 H3. change (slowpath (syscall_number SysCall)) with (handleSyscall SysCall;; restore_user_context).
  revert H3. unfold slow_call, handleSyscall, MCS_DO_IF_BUDGET, gets, when, mbind, M_bind. rewrite H1, H2.
  destruct (getRegister _ _ s) as [cptr sa|]; [|done]. destruct (handleInvocation _ _ _ _ _ sa) as [ret sb|]; [|done].
  destruct (after_invocation _ _ sb) as [[] sc|]; [|done]. destruct (schedule sc) as [[] sd|]; [|done].
  by destruct (activateThread sd) as [[] se|].
Qed.
End slow_call.
(** The registers a thread resumes with. *)
Definition user_registers (t : tcb) : user_context :=
  let reg r := wrap (default 0 (tcbContext t !! r)) in UserContext reg (reg SSTATUS) (reg NextIP).
Definition same_context (u u' : user_context) : Prop :=
  (∀ r, uc_regs u r = uc_regs u' r) ∧ uc_sstatus u = uc_sstatus u' ∧ uc_sepc u = uc_sepc u'.

(** ** The situation of a call *)
(** The arguments of the call and the capabilities it goes through. *)
Record call_args := CallArgs {
  k_cptr : Z; k_tag : Z; k_badge : Z; k_grant : bool; k_grantReply : bool; k_receive : bool;
  k_asid : Z; k_root : Z; k_vaddr : Z }.
Definition k_cap (k : call_args) (ep : Z) : cap := cap_endpoint_cap (k_badge k) (k_grantReply k) (k_grant k) true (k_receive k) ep.
Definition k_satp (k : call_args) : Z := satp_new SATP_MODE (k_asid k) (Z.shiftr (addrFromPPtr (k_root k)) 12).

(** [call_in] and [call_ok] locate the objects; then the registers of the caller, the capability
    it names, the address space of the receiver, the priorities, and that no other event is due. *)
Record fast_call `{Platform} (s : kstate) (a : places) (o : objects) (k : call_args) : Prop := {
  fc_inv : sched_inv s;
  fc_in : call_in s a o;
  fc_ok : call_ok s a o;
  fc_now : ksSchedulerAction s = o_action o ∧ current_extra_caps s = o_extra o;
  fc_cptr : is_word (k_cptr k) ∧ tcbContext (o_cur o) !! capRegister = Some (k_cptr k);
  fc_tag : tag_ok (k_tag k) o;
  fc_buffers : buffer_slot_ok s (a_cur a) ∧ buffer_slot_ok s (a_dest a);
  fc_cspace : cspace_ok (ctes s);
  fc_cap : ∃ ct, ctes s !! TCB_PTR_CTE_PTR (a_cur a) tcbCTable = Some ct ∧
    lookup_fp (cte_cap ct) (k_cptr k) s = Done (k_cap k (a_ep a)) s;
  fc_grant : k_grant k || k_grantReply k = true;
  fc_badge : is_word (k_badge k);
  fc_vtable : ∃ v, ctes s !! TCB_PTR_CTE_PTR (a_dest a) tcbVTable = Some v ∧
    cte_cap v = cap_page_table_cap (k_asid k) (k_root k) true (k_vaddr k);
  fc_root : asid_in_range s (k_asid k) ∧ k_root k ≠ NULL ∧ asid_root s (k_asid k) = k_root k;
  fc_domain : tcbDomain (o_dest o) = ksCurDomain s ∧ ksDomainTime s ≠ 0;
  fc_prio : ∀ p z, ready (qview s) (ksCurDomain s) p z → p ≤ tcbPriority (o_dest o);
  fc_asleep : all_asleep s;
  fc_reprogram : ksReprogram s = false;
  fc_yield : tcbYieldTo (o_dest o) = NULL }.

Lemma wp_eq_state {A} (m : K A) Q s s1 : s1 = s → wp m Q s1 → wp m Q s.
Proof. by intros ->. Qed.

Section call.
Context `{PlatformOk} (s : kstate) (a : places) (o : objects) (k : call_args) (Hk : fast_call s a o k).
#[local] Abbreviation Hok := (fc_ok s a o k Hk).
#[local] Abbreviation Hin := (fc_in s a o k Hk).
#[local] Abbreviation Ha := (ca_places s a o Hok).
#[local] Abbreviation Hcur := (ca_cur s a o Hok).
#[local] Abbreviation info := (seL4_MessageInfo_set_capsUnwrapped (k_tag k) 0).
#[local] Abbreviation len := (seL4_MessageInfo_get_length (k_tag k)).

Lemma call_view : view s a o = s.
Proof. apply view_id; [exact Hin|apply Hk..]. Qed.
Lemma call_domain : 0 ≤ ksCurDomain s < numDomains.
Proof.
  destruct (fc_domain _ _ _ _ Hk) as [<- _]. apply (valid_slot_of s (a_dest a) (o_dest o)); [apply Hk|apply Hin].
Qed.

(** ** The fast path *)
Lemma call_fast : ∃ u, fastpath_call (k_cptr k) (k_tag k) s = Done u (switched (a_dest a) (k_satp k) (view s a (fast_objects a len o))) ∧
  u = restored (k_badge k) (wordFromMessageInfo info) (o_dest (fast_objects a len o)).
Proof.
  destruct (proj1 (wp_done (fastpath_call (k_cptr k) (k_tag k)) (λ u s', s' = switched (a_dest a) (k_satp k) (view s a (fast_objects a len o)) ∧
    u = restored (k_badge k) (wordFromMessageInfo info) (o_dest (fast_objects a len o))) s)) as (u & s' & E & -> & ->); [|by eexists].
  pose proof Hk as []. pose proof Hin as []. pose proof Hok as []. destruct fc_tag0 as [[Hw Hmi] _]. destruct fc_vtable0 as (v & Hv & Hvc).
  destruct fc_cap0 as (ct & Hct & Hcap). destruct fc_domain0 as [Hd _].
  unfold fastpath_call. apply wp_bind, wp_gets. rewrite ca_cur. apply wp_bind. eapply wp_get_tcb; [done|].
  rewrite Hmi, ca_fault. cbn [fault_is_null negb orb]. apply wp_bind. eapply wp_get_cte; [done|].
  apply wp_bind. eapply wp_exec; [exact Hcap|]. unfold k_cap. apply wp_bind. eapply wp_get_ep; [done|].
  rewrite (proj1 ca_ep), (proj2 ca_ep). apply wp_bind. eapply wp_get_cte; [done|]. rewrite Hvc. cbn [isValidVTableRoot_fp negb bool_decide].
  apply wp_bind, wp_gets. apply wp_bind. eapply wp_get_tcb; [done|]. apply wp_bind.
  apply (wp_mono _ (λ b s', b = false ∧ s' = s)).
  { case_match; [|by apply wp_ret]. apply wp_bind. eapply wp_exec; [apply isHighestPrio_true; [done| |]|by apply wp_ret].
    - pose proof call_domain. destruct (Z.eqb_spec (numDomains - 1) 0); simpl; lia.
    - pose proof call_domain. destruct (Z.eqb_spec (numDomains - 1) 0); simpl; [|done]. by replace 0 with (ksCurDomain s) by lia. }
  intros b s' [-> ->]. assert (negb (k_grant k) && negb (k_grantReply k) = false) as -> by (by destruct (k_grant k), (k_grantReply k)).
  rewrite Hd, Z.eqb_refl. cbn [negb andb]. rewrite ca_dest_sc. change (NULL =? NULL) with true. cbn [negb].
  unfold thread_state_get_replyObject_np. destruct ca_dest_flags as [-> ->]. vassert. vassert. vbind. apply wp_ret.
  rewrite ca_dest_reply, (proj2 (Z.eqb_neq _ _) (po_reply _ ca_places)). eapply wp_eq_state; [apply call_view|].
  by apply fast_commit_exec.
Qed.

(** ** The invocation on the slow path *)
Lemma call_lookup : ∃ slot, lookupCapAndSlot (a_cur a) (k_cptr k) s = Done (EXCEPTION_NONE, k_cap k (a_ep a), slot) s.
Proof.
  destruct (fc_cap _ _ _ _ Hk) as (ct & Hct & Hcap). pose proof (fc_cspace _ _ _ _ Hk) as Hcs. pose proof (Hcs _ _ Hct) as Hcn.
  unfold lookupCapAndSlot, lookupSlot, get_cte, mbind, M_bind, get_state, deref. rewrite Hct.
  destruct (decide (is_cnode (cte_cap ct))) as [Hc|Hc]; [|by destruct (cte_cap ct)].
  destruct (lookup_fp_walk s (cte_cap ct) (k_cptr k)) as (r & v & Hr & Hv & Hf); [done..|].
  destruct (resolveAddressBits_spec s (cte_cap ct) (k_cptr k) 64) as (r' & Hr' & Es); [done..|].
  change (Z.to_nat 64) with 64%nat in Hr'. rewrite Hr in Hr'. injection Hr' as <-. rewrite Hcap in Hf. injection Hf as <-.
  unfold wordBits. rewrite Es. destruct r as [slot rest| |]; simpl in Hv |- *; [|done..].
  destruct (ctes s !! slot) as [e|]; [|done]. injection Hv as Hv. exists slot. unfold mret, M_ret. by rewrite Hv.
Qed.

(** The capability is invoked: with the rest of the message's capabilities cleared the caller restarts and sends. *)
Lemma call_extra : call_in s a (with_extra (NULL :: tl (o_extra o)) o) ∧ call_ok s a (with_extra (NULL :: tl (o_extra o)) o) ∧
  tag_ok (k_tag k) (with_extra (NULL :: tl (o_extra o)) o).
Proof. pose proof Hin as []. pose proof Hok as []. split_and!; [by split|by split|apply Hk]. Qed.
Definition call_objects : objects := slow_objects a (k_tag k) (k_badge k) (with_extra (NULL :: tl (o_extra o)) o).

Lemma call_invoke l Q : queue_holds s (Qready (tcbDomain (o_dest o)) (tcbPriority (o_dest o))) l →
  (∀ s', called s a (k_tag k) (k_badge k) (with_extra (NULL :: tl (o_extra o)) o) l s' → Q EXCEPTION_NONE s') →
  wp (handleInvocation true true true false (k_cptr k)) Q s.
Proof.
  intros Hl HQ. destruct call_lookup as [slot Hslot]. destruct call_extra as (Hin' & Hok' & Htag'). set (o' := with_extra _ o) in *.
  destruct (fc_tag _ _ _ _ Hk) as [Hw Hreg]. destruct (short_tag_fields _ Hw) as (Hx & _ & Hinfo). destruct (fc_buffers _ _ _ _ Hk) as [Hbc Hbd].
  unfold handleInvocation. apply wp_bind, wp_gets. rewrite Hcur. unfold getRegister. vbind. eapply wp_get_tcb; [apply Hin|]. vbind. apply wp_ret. rewrite Hreg.
  cbn [default from_option]. change (wrap (id (k_tag k))) with (wrap (k_tag k)). rewrite (wrap_small (k_tag k)) by apply Hw. rewrite Hinfo.
  vbind. eapply wp_exec; [exact Hslot|]. cbn [negb status_ok]. eapply wp_eq_state; [apply call_view|].
  destruct (lookupIPCBuffer_view s a (a_cur a) _ false o Hbc (get_cur _ _ o)) as [b Hb]. vbind. eapply wp_exec; [exact Hb|].
  vbind. eapply wp_exec; [by apply lookupExtraCaps_none, Hok|]. cbn [negb status_ok]. fold o'. unfold decodeInvocation, k_cap. cbv zeta.
  vbind. change (isArchCap _) with false. cbv iota. vbind. apply wp_gets. change (ksCurThread (view s a o')) with (ksCurThread s). rewrite Hcur. cbn [negb].
  vbind. eapply wp_exec; [apply setThreadState_restart; [exact Ha|exact Hcur|apply Hok'..]|].
  unfold performInvocation_Endpoint. vbind. apply wp_gets. change (ksCurThread (view s a _)) with (ksCurThread s). rewrite Hcur. vbind.
  eapply (slow_sendIPC s a Ha Hcur (k_tag k) (k_badge k) (k_grant k) (k_grantReply k) o' l); [apply Hk|done..|apply Hk|exact Hl|].
  intros s' Hs'. apply wp_ret. destruct (sched_only_tcb _ _ _ _ (cd_only _ _ _ _ _ _ _ Hs') (lookup_cur _ _ _)) as (t & Ht & Hty & _).
  vbind. eapply wp_get_tcb; [exact Ht|].
  unfold ts_is. rewrite Hty. apply wp_ret. by apply HQ.
Qed.

(** ** The scheduler then runs the receiver *)
#[local] Abbreviation o' := (with_extra (NULL :: tl (o_extra o)) o).
#[local] Abbreviation after := (called s a (k_tag k) (k_badge k) o').
#[local] Abbreviation prio := (tcbPriority (o_dest o)).
#[local] Abbreviation dest_queue := (Qready (tcbDomain (o_dest o)) (tcbPriority (o_dest o))).

Lemma after_fields l s' : after l s' →
  ksCurDomain s' = ksCurDomain s ∧ ksDomainTime s' = ksDomainTime s ∧ ctes s' = ctes s ∧ riscvKSASIDTable s' = riscvKSASIDTable s ∧
  user_mem s' = user_mem s ∧ ksSchedulerAction s' = SchedulerAction_ChooseNewThread ∧ ksCurThread s' = a_cur a ∧ ksCurSC s' = a_sc a ∧
  ksCurTime s' = ksCurTime s ∧ scs s' = <[a_sc a := o_sc call_objects]> (scs s).
Proof.
  intros Hs'. destruct (cd_only _ _ _ _ _ _ _ Hs') as [E _]. destruct (slow_objects_fields a (k_tag k) (k_badge k) o') as (_ & _ & _ & Eact & _).
  split_and!; [by apply (f_equal ksCurDomain) in E|by apply (f_equal ksDomainTime) in E|by apply (f_equal ctes) in E|
    by apply (f_equal riscvKSASIDTable) in E|by apply (f_equal user_mem) in E|rewrite <-Eact; by apply (f_equal ksSchedulerAction) in E|
    rewrite <-Hcur; by apply (f_equal ksCurThread) in E|rewrite <-(ca_curSC _ _ _ Hok); by apply (f_equal ksCurSC) in E|
    by apply (f_equal ksCurTime) in E|by apply (f_equal scs) in E].
Qed.

Lemma after_time l s' x t : after l s' → x ≠ a_cur a → x ≠ a_dest a → tcbs s !! x = Some t → ready_time s' x = ready_time s x.
Proof.
  intros Hs' Hc Hd Ht. rewrite (ready_time_relinked _ _ (cd_only _ _ _ _ _ _ _ Hs')). unfold ready_time, mbind, option_bind.
  destruct (slow_objects_fields a (k_tag k) (k_badge k) o') as (_ & _ & Esc & _).
  assert (∃ t', tcbs (view s a call_objects) !! x = Some t' ∧ tcbSchedContext t' = tcbSchedContext t) as (t' & Ht' & Et).
  { destruct (decide (x = a_next a ∧ a_next a ≠ NULL)) as [[-> Hn]|Hn].
    - rewrite lookup_next by (exact Ha || done). eexists; split; [done|]. rewrite (ci_next _ _ _ Hin Hn) in Ht. injection Ht as <-.
      unfold call_objects, slow_objects, push_objects, pushed, when_set, dequeued. by case_match; case_match.
    - exists t. split; [|done]. simpl. rewrite !lookup_insert_ne by done. unfold put. destruct (Z.eqb_spec (a_next a) NULL); [done|].
      rewrite lookup_insert_ne; [done|]. intros <-. by destruct Hn. }
  fold call_objects. rewrite Ht', Ht, Et. change (scs (view s a call_objects)) with (<[a_sc a := o_sc call_objects]> (scs s)).
  destruct (decide (tcbSchedContext t = a_sc a)) as [->|Hne]; [|by rewrite lookup_insert_ne].
  change (slow_objects _ _ _ o') with call_objects in Esc.
  rewrite lookup_insert_eq, (ci_sc _ _ _ Hin), Esc. done.
Qed.

Lemma after_asleep l s' : after l s' → all_asleep s'.
Proof.
  intros Hs' x (b & d & p & Hx). destruct (after_fields _ _ Hs') as (_ & _ & _ & _ & _ & _ & _ & _ & -> & _).
  assert (x ≠ a_dest a) as Hxd.
  { intros ->. assert (member (qview s') dest_queue (a_dest a)) as Hm by (apply (queue_holds_member _ _ _ (cd_queue _ _ _ _ _ _ _ Hs')); set_solver).
    destruct (cd_inv _ _ _ _ _ _ _ Hs') as [Hq _]. by apply (member_excl _ _ _ _ dest_queue Qrelease (a_dest a) Hq); [|done|exists b, d, p]. }
  rewrite (cd_others _ _ _ _ _ _ _ Hs' x Hxd) in Hx. assert (x ≠ a_cur a) as Hxc.
  { intros ->. unfold qview in Hx. rewrite (ci_cur _ _ _ Hin) in Hx. simpl in Hx. unfold qinfo_of in Hx. destruct (ca_cur_flags _ _ _ Hok) as [_ Hr]. congruence. }
  destruct (tcbs s !! x) as [t|] eqn:Ht; [|unfold qview in Hx; by rewrite Ht in Hx].
  rewrite (after_time l s' x t); [|done..]. apply (fc_asleep _ _ _ _ Hk). by exists b, d, p.
Qed.

Lemma after_max l s' : after l s' → ∀ p z, ready (qview s') (ksCurDomain s') p z → p ≤ prio.
Proof.
  intros Hs' p z Hz. destruct (after_fields _ _ Hs') as (Ed & _). rewrite Ed in Hz. destruct (decide (z = a_dest a)) as [->|Hne].
  - assert (member (qview s') dest_queue (a_dest a)) as Hm by (apply (queue_holds_member _ _ _ (cd_queue _ _ _ _ _ _ _ Hs')); set_solver).
    destruct Hm as [r Hm], Hz as [r' Hz]. rewrite Hm in Hz. by injection Hz as _ _ ->.
  - apply (fc_prio _ _ _ _ Hk p z). destruct Hz as [r Hz]. exists r. by rewrite <-(cd_others _ _ _ _ _ _ _ Hs').
Qed.
Lemma after_runs l s' : after l s' → can_run s' (a_dest a).
Proof.
  intros Hs'. destruct (slow_startable s a Ha (k_tag k) (k_badge k) o') as (h & Hst & Hh); [apply call_extra|].
  destruct (scheduled_startable _ _ _ _ _ _ (sched_only_scheduled _ _ (cd_only _ _ _ _ _ _ _ Hs')) Hst) as (t & Hst' & _).
  assert (member (qview s') dest_queue (a_dest a)) as Hm by (apply (queue_holds_member _ _ _ (cd_queue _ _ _ _ _ _ _ Hs')); set_solver).
  destruct (ready_tcb s' _ _ _ t (cd_inv _ _ _ _ _ _ _ Hs') Hm) as (_ & Hr & _); [apply Hst'|].
  destruct (startable_time _ _ _ _ _ Hst') as [_ Hrdy]. exists t. split_and!; [apply Hst'|by eapply startable_schedulable|by eapply startable_sufficient|].
  rewrite Hrdy. destruct (after_fields _ _ Hs') as (_ & _ & _ & _ & _ & _ & _ & _ & -> & _). by rewrite (proj2 (Z.leb_le _ _) Hh).
Qed.
Lemma after_root l s' : after l s' → vroot_ok s' (a_dest a) ∧
  setVMRoot (a_dest a) s' = Done () (set_devices (set_dev_satp (k_satp k) (devices s')) s').
Proof.
  intros Hs'. destruct (after_fields _ _ Hs') as (_ & _ & Ec & Et & Em & _). destruct (fc_vtable _ _ _ _ Hk) as (v & Hv & Hc).
  destruct (fc_root _ _ _ _ Hk) as (Hr & Hn & Ha'). split.
  - exists v. rewrite Ec, Hc. split; [done|]. unfold asid_in_range. by rewrite Et.
  - apply (setVMRoot_found s' (a_dest a) v (k_asid k) (k_root k) true (k_vaddr k)); [by rewrite Ec|exact Hc| |exact Hn|].
    + unfold asid_in_range. by rewrite Et.
    + unfold asid_root in *. by rewrite Et, Em.
Qed.

(** The state both paths end in, up to the queues and dead fields. *)
Definition call_state : kstate := set_ksSchedulerAction SchedulerAction_ResumeCurrentThread (switched (a_dest a) (k_satp k) (view s a call_objects)).
Record finished (l : list Z) (ss : kstate) : Prop := {
  fi_inv : sched_inv ss;
  fi_only : sched_only call_state ss;
  fi_queue : queue_holds ss dest_queue l;
  fi_kept : others_kept dest_queue s ss }.

Lemma after_choose l s' Q : after l s' →
  (∀ s2, sched_inv s2 → sched_only (switched (a_dest a) (k_satp k) (view s a call_objects)) s2 → ksReprogram s2 = false →
     queue_holds s2 dest_queue l → others_kept dest_queue s s2 → Q () s2) → wp chooseThread Q s'.
Proof.
  intros Hs' HQ. destruct (after_fields _ _ Hs') as (Ed & _). destruct (after_root _ _ Hs') as [Hvr Hroot]. pose proof call_domain as Hdom.
  destruct (fc_domain _ _ _ _ Hk) as [Edom _].
  eapply (chooseThread_ready_spec s' prio (a_dest a) l); [apply Hs'|by rewrite Ed|rewrite Ed, <-Edom; apply Hs'|
    by eapply after_max|by eapply after_runs|done|].
  intros s2 Hinv2 (s1 & Hroot' & _ & Hso & Hrep) Hl2 Hok2. rewrite Hroot in Hroot'. injection Hroot' as <-. rewrite Ed, <-Edom in Hl2, Hok2.
  apply HQ; [done| | |done|].
  - etrans; [|exact Hso]. apply sched_only_switched, Hs'.
  - rewrite Hrep, (cd_reprogram _ _ _ _ _ _ _ Hs'). apply Hk.
  - intros n j Hn Hv Hj. apply Hok2; [done..|]. by apply (cd_kept _ _ _ _ _ _ _ Hs').
Qed.

Lemma finished_dest l ss : finished l ss → ksCurThread ss = a_dest a ∧ ksCurSC ss = a_sc a ∧ ∃ t, tcbs ss !! a_dest a = Some t ∧
  tsType (tcbState t) = ThreadState_Running ∧ tcbSchedContext t = a_sc a ∧ tcbYieldTo t = NULL ∧ tcbContext t = tcbContext (o_dest call_objects).
Proof.
  intros Hfi. pose proof (fi_only _ _ Hfi) as Hso.
  destruct (resumed_fields (a_dest a) (k_satp k) (view s a call_objects)) as (Et & Ec & Es). fold call_state in Et, Ec, Es.
  change (ksCurSC (view s a call_objects)) with (ksCurSC s) in Es. rewrite (ca_curSC _ _ _ Hok) in Es.
  destruct (sched_only_current _ _ Hso) as [-> ->]. split_and!; [exact Ec|exact Es|].
  destruct (sched_only_tcb _ _ (a_dest a) (o_dest call_objects) Hso) as (t & Ht & Ety & Esc & Ey & Ectx); [rewrite Et; apply lookup_dest, Ha|].
  destruct (slow_objects_fields a (k_tag k) (k_badge k) o') as (Fsc & Fty & _). change (slow_objects _ _ _ o') with call_objects in Fsc, Fty.
  exists t. split_and!; [done|by rewrite Ety, Fty|by rewrite Esc|rewrite Ey|done]. rewrite <-(fc_yield _ _ _ _ Hk). unfold call_objects.
  change (o_dest o) with (o_dest o'). apply slow_yield.
Qed.

Lemma finished_switchSchedContext l ss : finished l ss → ksReprogram ss = false → switchSchedContext ss = Done () ss.
Proof.
  intros Hfi Hrep. destruct (finished_dest _ _ Hfi) as (Ec & Es & t & Ht & _ & Et & _).
  unfold switchSchedContext, gets, get_tcb, mbind, M_bind, get_state, deref. rewrite Ec, Es, Ht, Et, Z.eqb_refl. cbn [negb when].
  unfold mret, M_ret. rewrite Hrep. cbn [when]. unfold mret, M_ret. rewrite Ht, Et, <-Es. unfold modify. f_equal. clear. by destruct ss.
Qed.

Lemma after_schedule l s' Q : after l s' → (∀ ss, finished l ss → Q () ss) → wp schedule Q s'.
Proof.
  intros Hs' HQ. destruct (after_fields _ _ Hs') as (_ & Et & _ & _ & _ & Eact & Ec & _). destruct (fc_domain _ _ _ _ Hk) as [_ Hdt].
  destruct (sched_only_tcb _ _ (a_cur a) _ (cd_only _ _ _ _ _ _ _ Hs') (lookup_cur _ _ _)) as (t & Ht & Hty & _).
  unfold schedule. vbind. eapply wp_exec; [apply awaken_none; [apply Hs'|by eapply after_asleep]|].
  unfold checkDomainTime, isCurDomainExpired. vbind. apply wp_gets. vbind. apply wp_ret. rewrite Et, (proj2 (Z.eqb_neq _ _) Hdt), andb_false_r.
  vbind. apply wp_ret. vbind. apply wp_gets. rewrite Eact. change (negb (SchedulerAction_ChooseNewThread =? _)) with true. vbind. cbn [when]. vbind. apply wp_gets. rewrite Ec.
  unfold isSchedulable. vbind. eapply wp_get_tcb; [exact Ht|]. unfold isRunnable. rewrite Hty. cbn [andb]. vbind. apply wp_ret.
  vbind. apply wp_ret. vbind. apply wp_gets. rewrite Eact, Z.eqb_refl. unfold scheduleChooseNewThread. vbind. apply wp_gets. rewrite Et, (proj2 (Z.eqb_neq _ _) Hdt).
  vbind. apply wp_ret. eapply after_choose; [exact Hs'|]. intros s2 Hinv2 Hso Hrep Hl2 Hok2. vbind. apply wp_modify.
  assert (finished l (set_ksSchedulerAction SchedulerAction_ResumeCurrentThread s2)) as Hfi.
  { split; [by apply sched_inv_action|by apply sched_only_set_action|done|done]. }
  vbind. eapply wp_exec; [by eapply finished_switchSchedContext|]. vbind. apply wp_gets.
  change (ksReprogram (set_ksSchedulerAction _ s2)) with (ksReprogram s2). rewrite Hrep. apply wp_ret. by apply HQ.
Qed.

Lemma finished_activate l ss : finished l ss → activateThread ss = Done () ss.
Proof.
  intros Hfi. destruct (finished_dest _ _ Hfi) as (Ec & _ & t & Ht & Ety & _ & Ey & _).
  unfold activateThread, gets, get_tcb, mbind, M_bind, get_state, deref. rewrite Ec, Ht, Ey. cbn [negb Z.eqb NULL].
  change (negb (NULL =? NULL)) with false. unfold when, mret, M_ret. by rewrite Ht, Ety.
Qed.

(** ** Both outcomes *)
Lemma call_agree : same_objects (k_badge k) (wordFromMessageInfo info) (fast_objects a len o) call_objects.
Proof.
  unfold same_objects, fast_objects, call_objects, slow_objects, push_objects, pushed, transferred, dequeued, when_set.
  destruct o as [[[]] [[]] ? ? ? ? ? ? ?]. by case_match; case_match.
Qed.
Lemma fast_action : o_action (fast_objects a len o) = SchedulerAction_ResumeCurrentThread.
Proof. rewrite <-(ca_action _ _ _ Hok). unfold fast_objects, pushed, when_set, dequeued. by case_match; case_match. Qed.
Lemma fast_same : same_sched (o_cur o) (o_cur (fast_objects a len o)) ∧ same_sched (o_dest o) (o_dest (fast_objects a len o)) ∧
  same_sched (o_next o) (o_next (fast_objects a len o)).
Proof. unfold fast_objects, pushed, when_set, dequeued. by case_match; case_match. Qed.
#[local] Abbreviation fast_state := (switched (a_dest a) (k_satp k) (view s a (fast_objects a len o))).
Lemma fast_queues : sched_inv fast_state ∧ ∀ n l, queue_holds s n l → queue_holds fast_state n l.
Proof.
  destruct fast_same as (Sc & Sd & Sn).
  assert (∀ x, qview fast_state x = qview s x ∧ sched_links fast_state x = sched_links s x) as HV.
  { intros x. apply (view_tcb s a Ha o (fast_objects a len o) x Hin Sc Sd Sn). }
  split; [by apply (sched_inv_ext s); [done..|apply Hk]|]. intros n l. by apply queue_holds_ext.
Qed.

(** The slow path from the capability lookup to the return to user mode. *)
Lemma call_slow l : queue_holds s dest_queue l → ∃ u ss t, slow_call s = Done u ss ∧ finished l ss ∧
  tcbContext t = tcbContext (o_dest call_objects) ∧ u = user_registers t.
Proof.
  intros Hl. destruct (proj1 (wp_done slow_call (λ u ss, ∃ t, finished l ss ∧
    tcbContext t = tcbContext (o_dest call_objects) ∧ u = user_registers t) s)) as (u & ss & E & t & Hfi & Ht & Hu); [|by exists u, ss, t].
  destruct (fc_cptr _ _ _ _ Hk) as [Hw Hreg]. unfold slow_call. vbind. apply wp_gets. rewrite Hcur. unfold getRegister. vbind.
  eapply wp_get_tcb; [apply Hin|]. vbind. apply wp_ret. rewrite Hreg. cbn [default from_option]. change (wrap (id (k_cptr k))) with (wrap (k_cptr k)).
  rewrite (wrap_small (k_cptr k)) by apply Hw. vbind. eapply call_invoke; [exact Hl|]. intros s' Hs'. vbind. apply wp_ret. vbind.
  eapply after_schedule; [exact Hs'|]. intros ss Hfi. vbind. eapply wp_exec; [by eapply finished_activate|].
  destruct (finished_dest _ _ Hfi) as (Ec & _ & t & Ht & _ & _ & _ & Ectx). unfold restore_user_context. vbind. apply wp_gets. rewrite Ec.
  vbind. eapply wp_get_tcb; [exact Ht|]. apply wp_ret. by exists t.
Qed.
Lemma call_context t : tcbContext t = tcbContext (o_dest call_objects) →
  same_context (restored (k_badge k) (wordFromMessageInfo info) (o_dest (fast_objects a len o))) (user_registers t).
Proof.
  intros Et. destruct call_agree as (_ & E & _). apply (f_equal tcbContext) in E.
  change (delivered (k_badge k) (wordFromMessageInfo info) (tcbContext (o_dest (fast_objects a len o))) = tcbContext (o_dest call_objects)) in E.
  rewrite <-E in Et. unfold same_context, restored, user_registers. rewrite Et. unfold delivered. cbn [uc_regs uc_sstatus uc_sepc].
  split; [|by rewrite !lookup_insert_ne by done]. intros r.
  destruct (Z.eqb_spec r badgeRegister) as [->|Hb]; [rewrite lookup_insert_eq; symmetry; apply wrap_small, Hk|].
  rewrite lookup_insert_ne by done. destruct (Z.eqb_spec r msgInfoRegister) as [->|Hm]; [|by rewrite lookup_insert_ne].
  rewrite lookup_insert_eq. symmetry. apply wrap_small. unfold wordFromMessageInfo, seL4_MessageInfo_set_capsUnwrapped.
  change (Z.land 0 (MASK 3) <<w 9) with 0. rewrite Z.lor_0_r. destruct (fc_tag _ _ _ _ Hk) as [[Hw _] _]. by apply land_word.
Qed.
Lemma call_result : ∃ u v sf ss,
  fastpath_call (k_cptr k) (k_tag k) s = Done u sf ∧ slow_call s = Done v ss ∧ same_context u v ∧
  sched_only (live (deliver_to (a_dest a) (k_badge k) (wordFromMessageInfo info) sf)) (live ss) ∧ sched_inv sf ∧ sched_inv ss ∧
  ∀ n l, valid_queue n → queue_holds s n l → queue_holds sf n l ∧ queue_holds ss n l.
Proof.
  pose proof (fc_inv _ _ _ _ Hk) as Hinv. pose proof (valid_slot_of s (a_dest a) (o_dest o) Hinv (ci_dest _ _ _ Hin)) as Hv.
  pose proof Hinv as (Hq & _). destruct (qok_ready _ _ _ _ Hq _ _ Hv) as (l & Hl). change (queue_holds s dest_queue l) in Hl.
  destruct call_fast as (u & Hfast & ->). destruct (call_slow l Hl) as (v & ss & t & Hslow & Hfi & Ht & ->). destruct fast_queues as [Hfi1 Hfq].
  eexists _, _, _, ss. split_and!; [exact Hfast|exact Hslow|by apply call_context| |exact Hfi1|apply Hfi|].
  - etrans; [apply view_agree; [exact Ha|exact call_agree|exact fast_action]|]. apply sched_only_live, Hfi.
  - intros n l' Hn Hl'. split; [by apply Hfq|]. destruct (decide (n = dest_queue)) as [->|Hne]; [|by apply (fi_kept _ _ Hfi)].
    rewrite (queue_holds_unique _ _ _ _ Hl' Hl). apply Hfi.
Qed.
End call.

(** C5: The fast path of a call does what the slow path does. Let a running thread call an endpoint
    at which a thread of its domain waits that is as important as every ready thread, has an
    address space and takes the caller's scheduling context, with a short message. Then both
    [fastpath_call] and the slow path (from the capability lookup over the message transfer,
    the donation and the scheduler to the return to user mode, that is [slowpath] once its
    timestamp and budget check are through) return; the same thread resumes with the same
    registers, program counter and status; the same threads are in the same queues, in the same
    order as before the call; and all kernel state agrees, but for fields that mean nothing in
    the state of their thread, the scratch list of capabilities, and badge and tag, which the
    fast path hands over in registers without storing them. *)
Theorem fastpath_call_ok `{PlatformOk} s a o k : fast_call s a o k → ∃ u v sf ss,
  fastpath_call (k_cptr k) (k_tag k) s = Done u sf ∧ slow_call s = Done v ss ∧ same_context u v ∧
  sched_only (live (deliver_to (a_dest a) (k_badge k) (wordFromMessageInfo (seL4_MessageInfo_set_capsUnwrapped (k_tag k) 0)) sf)) (live ss) ∧
  sched_inv sf ∧ sched_inv ss ∧
  (∀ n l, valid_queue n → queue_holds s n l → queue_holds sf n l ∧ queue_holds ss n l) ∧
  (∀ s0 s1, updateTimestamp s0 = Done () s1 → checkBudgetRestart s1 = Done true s → slowpath (syscall_number SysCall) s0 = Done v ss).
Proof.
  intros Hk. destruct (call_result s a o k Hk) as (u & v & sf & ss & Hf & Hs & Hc & Ho & Hi1 & Hi2 & Hq).
  exists u, v, sf, ss. split_and!; try done. intros s0 s1 H1 H2. by eapply slowpath_call.
Qed.

(** ** Example: [tA] calls [ep1], at which [tC] and then [tE] wait *)
#[local] Existing Instance example_platform.
#[local] Existing Instance example_platform_ok.
Definition rp1 : Z := 393216.
Definition pool1 : Z := 397312.
Definition pt1 : Z := 401408.
Definition ex_tag : Z := seL4_MessageInfo_new 7 0 0 2.
Definition ex_waiting (prio reply next prev : Z) : tcb :=
  Tcb {[msg_register 0 := 1; msg_register 1 := 2; NextIP := 4096]} (ThreadState ep1 false false false false false 0 reply ThreadState_BlockedOnReceive) 0 NULL
    seL4_Fault_NullFault lookup_fault_invalid_root 0 255 prio NULL NULL 0 NULL NULL next prev.
Definition ex_caller : tcb :=
  set_tcbContext {[capRegister := 8; msgInfoRegister := ex_tag; msg_register 0 := 42; msg_register 1 := 43; msg_register 2 := 44]} (ex_tcb (ex_ts ThreadState_Running false false) 5 scA).
Definition ex_reply : reply := Reply tC (call_stack_new 0 false) (call_stack_new 0 false).
Definition ex_call_tcbs : gmap Z tcb :=
  <[tA := ex_caller]> (<[tC := ex_waiting 5 rp1 tE NULL]> (<[tE := ex_waiting 3 NULL NULL tC]> (tcbs ex_state))).
Definition ex_call_ctes : gmap Z cte :=
  <[TCB_PTR_CTE_PTR tA tcbBuffer := ex_null]> (<[TCB_PTR_CTE_PTR tC tcbBuffer := ex_null]>
    (<[TCB_PTR_CTE_PTR tC tcbVTable := Cte (cap_page_table_cap 1 pt1 true 0) nullMDBNode]> (ctes ex_state))).
Definition ex_call : kstate :=
  set_tcbs ex_call_tcbs (set_ctes ex_call_ctes (set_eps {[ep1 := Endpoint tC tE EPState_Recv]} (set_replies {[rp1 := ex_reply]}
  (set_riscvKSASIDTable (<[0%nat := pool1]> (replicate 128 NULL)) (set_user_mem {[pool1 + 8 := pt1]} (set_ksDomainTime 1 ex_state)))))).
Definition ex_places : places := Places tA tC tE ep1 scA rp1 NULL.
Definition ex_objects : objects :=
  Objects ex_caller (ex_waiting 5 rp1 tE NULL) (ex_waiting 3 NULL NULL tC) (Endpoint tC tE EPState_Recv) (ex_sc tA 4000) ex_reply ex_reply 0 [0; 0; 0].
Definition ex_args : call_args := CallArgs 8 ex_tag 0 true true true 1 pt1 0.

Lemma ex_call_view x : qview ex_call x = qview ex_state x ∧ sched_links ex_call x = sched_links ex_state x.
Proof.
  unfold qview, sched_links. change (tcbs ex_call) with ex_call_tcbs. unfold ex_call_tcbs.
  destruct (decide (x = tA)) as [->|HA]; [by rewrite lookup_insert_eq|]. rewrite lookup_insert_ne by done.
  destruct (decide (x = tC)) as [->|HC]; [by rewrite lookup_insert_eq|]. rewrite lookup_insert_ne by done.
  destruct (decide (x = tE)) as [->|HE]; [by rewrite lookup_insert_eq|]. by rewrite lookup_insert_ne.
Qed.
Lemma ex_call_inv : sched_inv ex_call.
Proof. apply (sched_inv_ext ex_state); [apply ex_call_view|done..|apply ex_sched_inv]. Qed.
Lemma ex_call_cspace : cspace_ok (ctes ex_call).
Proof.
  assert (∀ x c, ctes ex_state !! x = Some c → is_Some (ctes ex_call !! x)) as Hsub.
  { intros x c Hx. change (ctes ex_call) with ex_call_ctes. unfold ex_call_ctes. rewrite !lookup_insert_is_Some'. do 3 right. by exists c. }
  assert (∀ c, cnode_ok (ctes ex_state) c → cnode_ok (ctes ex_call) c) as Hmono.
  { intros [] Hc; try done. destruct Hc as (? & ? & ? & [] & Hs). split_and!; try done. intros i Hi. destruct (Hs i Hi) as [c Hc]. by eapply Hsub. }
  intros x c Hx. change (ctes ex_call) with ex_call_ctes in Hx. unfold ex_call_ctes in Hx.
  repeat (apply lookup_insert_Some in Hx as [[<- <-]|[_ Hx]]; [done|]). by eapply Hmono, ex_cspace_ok.
Qed.
Lemma ex_call_ok : call_ok ex_call ex_places ex_objects.
Proof.
  split; [by split|done..| |done|done|done|done]. exists (Refill 4000 1000). by vm_compute.
Qed.
Lemma ex_call_in : call_in ex_call ex_places ex_objects.
Proof. split; done. Qed.
Lemma ex_fast_call : fast_call ex_call ex_places ex_objects ex_args.
Proof.
  split; [apply ex_call_inv|apply ex_call_in|apply ex_call_ok|done| | |split; by exists ex_null|apply ex_call_cspace| |done| | | |done| | |done|done].
  - split; [|done]. unfold is_word. simpl. lia.
  - split; [|done]. split; [|done]. assert (ex_tag = 28674) as Et by done. unfold is_word. simpl. lia.
  - exists (Cte ex_root (mdb_node_new (slot1 1) true true NULL)). split; vm_compute; reflexivity.
  - unfold is_word. simpl. lia.
  - eexists; split; [by vm_compute|done].
  - split_and!; [unfold asid_in_range; vm_compute; lia|done|by vm_compute].
  - intros p z. change (ksCurDomain ex_call) with 0. unfold ready. rewrite (proj1 (ex_call_view z)). by intros (_ & -> & _)%ex_ready.
  - intros x. unfold awaiting. rewrite (proj1 (ex_call_view x)). intros ->%ex_awaiting. exists 7000. by vm_compute.
Qed.
Lemma fastpath_call_witness : ∃ u v sf ss,
  fastpath_call 8 ex_tag ex_call = Done u sf ∧ slow_call ex_call = Done v ss ∧ same_context u v ∧
  sched_only (live (deliver_to tC 0 (wordFromMessageInfo (seL4_MessageInfo_set_capsUnwrapped ex_tag 0)) sf)) (live ss) ∧
  sched_inv sf ∧ sched_inv ss ∧
  (∀ n l, valid_queue n → queue_holds ex_call n l → queue_holds sf n l ∧ queue_holds ss n l) ∧
  (∀ s0 s1, updateTimestamp s0 = Done () s1 → checkBudgetRestart s1 = Done true ex_call → slowpath (syscall_number SysCall) s0 = Done v ss).
Proof. apply (fastpath_call_ok ex_call ex_places ex_objects ex_args ex_fast_call). Defined.
(** The message that arrives. *)
#[local] Abbreviation ex_arrived u := (map (uc_regs u) [badgeRegister; msgInfoRegister; msg_register 0; msg_register 1]).
Example ex_call_regs : match fastpath_call 8 ex_tag ex_call, slow_call ex_call with
  | Done u sf, Done v ss => ex_arrived u = [0; ex_tag; 42; 43] ∧ ex_arrived v = [0; ex_tag; 42; 43] ∧
      ksCurThread sf = tC ∧ ksCurThread ss = tC ∧ uc_sepc u = 4096 ∧ uc_sepc v = 4096
  | _, _ => False end.
Proof. by vm_compute. Qed.

(** Without the hypothesis on the ASID the two paths differ: once the ASID pool is deleted the slow
    path runs the receiver in the kernel's address space, the fast path in its stale page table. *)
Definition ex_stale : kstate := set_riscvKSASIDTable (replicate 128 NULL) ex_call.
Lemma fastpath_stale_asid : match fastpath_call 8 ex_tag ex_stale, slow_call ex_stale with
  | Done _ sf, Done _ ss => ksCurThread sf = tC ∧ ksCurThread ss = tC ∧ dev_satp (devices sf) = k_satp ex_args ∧
      dev_satp (devices ss) = kernel_satp ∧ k_satp ex_args ≠ kernel_satp
  | _, _ => False end.
Proof. by vm_compute. Qed.
