(* ===== verification/MdbSpec.v ===== *)
(** * The mapping database

    [mdb_inv s ls]: the slots that hold a capability form the chains [ls] of
    doubly linked lists, each slot in one chain, and an empty slot is linked
    nowhere. Inserting, moving, swapping and deleting capabilities keep it, and
    change the chains in the way the derivation order asks for. *)
From S2P Require Import Prelude Words Platform State RefillList Sporadic Budget DList Queues CapOps CSpace VSpace Thread CNode Message SchedContext Reply Notification Endpoint Delete Example Machine.

Definition mdb_links (s : kstate) : links := λ x,
  (λ c, (mdbPrev (cteMDBNode c), mdbNext (cteMDBNode c))) <$> ctes s !! x.
Definition cap_at (s : kstate) (x : Z) : option cap := cte_cap <$> ctes s !! x.
Definition mdb_flags (s : kstate) (x : Z) : option (bool * bool) :=
  (λ c, (mdbRevocable (cteMDBNode c), mdbFirstBadged (cteMDBNode c))) <$> ctes s !! x.

Record mdb_inv (s : kstate) (ls : list (list Z)) : Prop := {
  mi_nodup : NoDup (concat ls);
  mi_chain : ∀ l, l ∈ ls → dseg (mdb_links s) NULL l NULL;
  mi_empty : ∀ x c, ctes s !! x = Some c → x ∉ concat ls → c = Cte cap_null_cap nullMDBNode;
  mi_live : ∀ x c, ctes s !! x = Some c → x ∈ concat ls → cte_cap c ≠ cap_null_cap;
  mi_null : ctes s !! NULL = None
}.

(** ** The neighbours of a slot *)
Lemma elem_of_concat {A} (ls : list (list A)) x : x ∈ concat ls ↔ ∃ l, x ∈ l ∧ l ∈ ls.
Proof. rewrite list_elem_of_In, in_concat. setoid_rewrite <-list_elem_of_In. naive_solver. Qed.

Lemma mdb_links_some s x p n : mdb_links s x = Some (p, n) →
  ∃ c, ctes s !! x = Some c ∧ mdbPrev (cteMDBNode c) = p ∧ mdbNext (cteMDBNode c) = n.
Proof. unfold mdb_links. destruct (ctes s !! x) as [c|]; simpl; [|done]. intros [= <- <-]. eauto. Qed.

Section chains.
Context (s : kstate) (ls : list (list Z)) (Hinv : mdb_inv s ls).

Lemma mdb_split x : x ∈ concat ls → ∃ L l1 l2 L', ls = L ++ (l1 ++ x :: l2) :: L'.
Proof.
  intros (l & Hx & Hl)%elem_of_concat.
  apply list_elem_of_split in Hx as (l1 & l2 & ->). apply list_elem_of_split in Hl as (L & L' & ->). eauto.
Qed.

Lemma mdb_chain_at L l1 x l2 L' :
  ls = L ++ (l1 ++ x :: l2) :: L' →
  dseg (mdb_links s) NULL (l1 ++ x :: l2) NULL ∧ NoDup (l1 ++ x :: l2) ∧ mdb_links s x = Some (final NULL l1, first NULL l2).
Proof.
  intros ->. pose proof (mi_chain _ _ Hinv (l1 ++ x :: l2) ltac:(set_solver)) as Hd. split; [done|].
  split; [|by apply dseg_middle in Hd].
  pose proof (mi_nodup _ _ Hinv) as Hnd. rewrite concat_app in Hnd. simpl in Hnd.
  apply NoDup_app in Hnd as (_ & _ & Hnd). by apply NoDup_app in Hnd as (? & _).
Qed.

Lemma mdb_next x p n : mdb_links s x = Some (p, n) → n ≠ NULL →
  ∃ n', mdb_links s n = Some (x, n') ∧ x ∈ concat ls ∧ n ∈ concat ls ∧ n ≠ x ∧ n ≠ p ∧ n' ≠ n ∧ n' ≠ x.
Proof.
  intros Hx Hn. destruct (mdb_links_some _ _ _ _ Hx) as (c & Hc & Hp & Hn').
  destruct (decide (x ∈ concat ls)) as [Hin|Hout].
  2: { apply (mi_empty _ _ Hinv) in Hc as ->; [|done]. by subst. }
  destruct (mdb_split x Hin) as (L & l1 & l2 & L' & E).
  destruct (mdb_chain_at _ _ _ _ _ E) as (Hd & Hnd & Hl). rewrite Hx in Hl. injection Hl as -> ->.
  destruct l2 as [|y l2]; [done|]. simpl in *.
  assert (mdb_links s y = Some (x, first NULL l2)) as Hy.
  { rewrite dseg_app in Hd. simpl in Hd. tauto. }
  apply NoDup_app in Hnd as (_ & Hd1 & Hnd2). apply NoDup_cons in Hnd2 as [Hxy Hnd2].
  apply NoDup_cons in Hnd2 as [Hyl _].
  assert (first NULL l2 ∈ NULL :: l2) as Hf by (destruct l2; set_solver).
  assert (y ≠ NULL ∧ x ≠ NULL) as [? ?].
  { split; eapply dseg_nonnull; eauto; set_solver. }
  assert (final NULL l1 ∈ NULL :: l1) as Hf1 by apply final_in.
  exists (first NULL l2). subst ls. split_and!; try done; try (rewrite concat_app; set_solver).
  - set_solver.
  - intros E. rewrite <-E in Hf1. apply elem_of_cons in Hf1 as [?|Hf1]; [done|]. apply (Hd1 _ Hf1). set_solver.
  - intros E. rewrite E in Hf. set_solver.
  - intros E. rewrite E in Hf. set_solver.
Qed.

Lemma mdb_prev x p n : mdb_links s x = Some (p, n) → p ≠ NULL →
  ∃ p', mdb_links s p = Some (p', x) ∧ x ∈ concat ls ∧ p ∈ concat ls ∧ p ≠ x ∧ p' ≠ p ∧ p' ≠ x.
Proof.
  intros Hx Hn. destruct (mdb_links_some _ _ _ _ Hx) as (c & Hc & Hp & Hn').
  destruct (decide (x ∈ concat ls)) as [Hin|Hout].
  2: { apply (mi_empty _ _ Hinv) in Hc as ->; [|done]. by subst. }
  destruct (mdb_split x Hin) as (L & l1 & l2 & L' & E).
  destruct (mdb_chain_at _ _ _ _ _ E) as (Hd & Hnd & Hl). rewrite Hx in Hl. injection Hl as -> ->.
  destruct l1 as [|y l1 _] using rev_ind; [done|]. rewrite final_snoc in *. rewrite <-app_assoc in E, Hd, Hnd.
  destruct (mdb_chain_at _ _ _ _ _ E) as (_ & _ & Hy). simpl in Hy.
  apply NoDup_app in Hnd as (_ & Hd1 & Hnd2). simpl in Hnd2. apply NoDup_cons in Hnd2 as [Hxy Hnd2].
  assert (y ≠ NULL ∧ x ≠ NULL) as [? ?].
  { split; eapply dseg_nonnull; eauto; set_solver. }
  assert (final NULL l1 ∈ NULL :: l1) as Hf1 by apply final_in.
  exists (final NULL l1). subst ls. split_and!; try done; try (rewrite concat_app; set_solver).
  - set_solver.
  - intros E. rewrite E in Hf1. apply elem_of_cons in Hf1 as [?|Hf1]; [done|]. apply (Hd1 _ Hf1). set_solver.
  - intros E. rewrite E in Hf1. apply elem_of_cons in Hf1 as [?|Hf1]; [done|]. apply (Hd1 _ Hf1). set_solver.
Qed.
End chains.

(** ** A new slot behind [src] *)
Lemma concat_middle {A} (L : list (list A)) l L' x : x ∈ concat (L ++ l :: L') ↔ x ∈ l ∨ x ∈ concat (L ++ L').
Proof. rewrite !concat_app. simpl. rewrite !elem_of_app. tauto. Qed.
Lemma NoDup_concat_middle {A} (L : list (list A)) l L' :
  NoDup (concat (L ++ l :: L')) ↔ NoDup l ∧ NoDup (concat (L ++ L')) ∧ ∀ x, x ∈ l → x ∉ concat (L ++ L').
Proof.
  rewrite !concat_app. simpl. rewrite !NoDup_app. setoid_rewrite elem_of_app. naive_solver.
Qed.
Lemma chain_middle (L : list (list Z)) l L' l0 : l0 ∈ L ++ l :: L' ↔ l0 = l ∨ l0 ∈ L ++ L'.
Proof. set_solver. Qed.

(** The other chains are not affected by an update within one chain and [dest]. *)
Lemma chains_frame s s' L l L' l' :
  mdb_inv s (L ++ l :: L') → (∀ y, y ∈ concat (L ++ L') → mdb_links s' y = mdb_links s y) →
  dseg (mdb_links s') NULL l' NULL → ∀ l0, l0 ∈ L ++ l' :: L' → dseg (mdb_links s') NULL l0 NULL.
Proof.
  intros Hinv Hf Hl' l0 [->|Hl0]%chain_middle; [done|]. eapply dseg_frame; [|apply (mi_chain _ _ Hinv); set_solver].
  intros y Hy. apply Hf, elem_of_concat. eauto.
Qed.

Lemma mdb_inv_insert s s' L l1 src l2 L' dest :
  mdb_inv s (L ++ (l1 ++ src :: l2) :: L') → dest ∉ concat (L ++ (l1 ++ src :: l2) :: L') → dest ≠ NULL →
  (∀ y, y ≠ dest → mdb_links s' y =
     if decide (y = src) then Some (final NULL l1, dest)
     else if decide (y = first src l2) then (λ '(_, n), (dest, n)) <$> mdb_links s y
     else mdb_links s y) →
  mdb_links s' dest = Some (src, first NULL l2) →
  (∀ y, y ∉ [src; dest; first src l2] → ctes s' !! y = ctes s !! y) →
  (∀ y c, y ∈ [src; dest; first src l2] → ctes s' !! y = Some c → cte_cap c ≠ cap_null_cap) →
  mdb_inv s' (L ++ (l1 ++ src :: dest :: l2) :: L').
Proof.
  intros Hinv Hdest Hd0 Hlk Hlkd Hsame Hlive.
  destruct (mdb_chain_at _ _ Hinv _ _ _ _ _ eq_refl) as (Hd & Hnd & Hsrc).
  pose proof (mi_nodup _ _ Hinv) as Hnda. rewrite NoDup_concat_middle in Hnda. destruct Hnda as (_ & HndL & Hdis).
  rewrite concat_middle in Hdest.
  apply NoDup_app in Hnd as (Hnd1 & Hd1 & Hnd2). apply NoDup_cons in Hnd2 as [Hs2 Hnd2].
  rewrite dseg_app in Hd. destruct Hd as [Hd1' (Hs0 & _ & Hd2)]. simpl in Hd1'.
  assert (first src l2 ∈ src :: l2) as Hfirst by (destruct l2; set_solver).
  assert (∀ y, y ≠ src → y ≠ dest → y ≠ first src l2 → mdb_links s' y = mdb_links s y) as Hkeep.
  { intros y ???. rewrite Hlk, !decide_False by done. done. }
  split.
  - apply NoDup_concat_middle. split_and!; [|done|].
    + apply NoDup_app. split_and!; [done|set_solver|]. apply NoDup_cons; split; [set_solver|].
      apply NoDup_cons; split; [set_solver|done].
    + intros y Hy. destruct (decide (y = dest)) as [->|]; [set_solver|]. apply Hdis. set_solver.
  - eapply chains_frame; [done| |].
    + intros y Hy. apply Hkeep; [intros ->; apply (Hdis src); set_solver|set_solver|].
      intros ->. apply (Hdis (first src l2)); set_solver.
    + rewrite dseg_app. split.
      * eapply dseg_frame; [|exact Hd1']. intros y Hy. apply Hkeep; set_solver.
      * simpl. split_and!; [done| |done|done|].
        -- rewrite Hlk, decide_True by (done || set_solver). done.
        -- destruct l2 as [|a l2]; [done|]. simpl in Hd2 |- *. destruct Hd2 as (Ha & Hla & Hd2).
           apply NoDup_cons in Hnd2 as [Ha2 Hnd2]. split_and!; [done| |].
           ++ rewrite Hlk, decide_False, decide_True by (done || set_solver). by rewrite Hla.
           ++ eapply dseg_frame; [|exact Hd2]. intros y Hy. apply Hkeep; set_solver.
  - intros y c Hc Hy. rewrite concat_middle in Hy. rewrite Hsame in Hc by set_solver.
    apply (mi_empty _ _ Hinv _ _ Hc). rewrite concat_middle. set_solver.
  - intros y c Hc Hy. destruct (decide (y ∈ [src; dest; first src l2])) as [Hin|Hout]; [by eapply Hlive|].
    rewrite Hsame in Hc by done. apply (mi_live _ _ Hinv _ _ Hc).
    rewrite concat_middle in Hy |- *. set_solver.
  - rewrite Hsame; [apply Hinv|]. assert (first src l2 ≠ NULL); [|set_solver].
    apply elem_of_cons in Hfirst as [->|Hf]; [done|]. by eapply dseg_nonnull.
Qed.

(** ** Insertion *)
Definition full_cap (srcCap newCap : cap) : cap :=
  match srcCap, newCap with
  | cap_untyped_cap _ dev bits ptr, cap_untyped_cap _ _ bits' ptr' =>
    if (ptr =? ptr') && (bits' =? bits) then cap_untyped_cap (MAX_FREE_INDEX bits) dev bits ptr else srcCap
  | _, _ => srcCap
  end.

Lemma wp_setUntypedCapAsFull s slot c newCap Q :
  ctes s !! slot = Some c →
  Q () (set_ctes (<[slot := set_cte_cap (full_cap (cte_cap c) newCap) c]> (ctes s)) s) →
  wp (setUntypedCapAsFull (cte_cap c) newCap slot) Q s.
Proof.
  intros Hc HQ. assert (full_cap (cte_cap c) newCap = cte_cap c → Q () s) as Hid.
  { intros E. rewrite E in HQ. replace (set_cte_cap (cte_cap c) c) with c in HQ by (by destruct c).
    rewrite insert_id in HQ by done. by destruct s. }
  unfold setUntypedCapAsFull. destruct (cte_cap c) eqn:Ec; try (by apply wp_ret, Hid).
  destruct newCap; try (by apply wp_ret, Hid). apply wp_when; intros Hb; [|apply Hid; simpl; by rewrite Hb].
  eapply wp_mod_cte; [done|]. rewrite Ec. simpl in *. rewrite Hb in HQ. done.
Qed.

(** Reading links and capabilities of an updated heap. *)
Ltac ctes_eval := unfold mdb_links, cap_at, set_cteMDBNode, set_cte_cap, set_mdbNext, set_mdbPrev,
    set_mdbRevocable, set_mdbFirstBadged; simpl; simplify_map_eq/=;
  repeat (case_decide; simplify_map_eq/=); try done; try congruence.

(** The guarded link assignments [if (p) p->mdb.f = v], on the heap. *)
Definition upd_mdb (p : Z) (f : mdb_node → mdb_node) (h : gmap Z cte) : gmap Z cte :=
  if decide (p = NULL) then h else alter (λ c, set_cteMDBNode (f (cteMDBNode c)) c) p h.

Lemma lookup_upd_mdb p f h y : y ≠ NULL →
  upd_mdb p f h !! y = if decide (y = p) then (λ c, set_cteMDBNode (f (cteMDBNode c)) c) <$> h !! y else h !! y.
Proof. intros Hy. unfold upd_mdb. repeat case_decide; simplify_map_eq; done. Qed.
(** The same as a change of the next and the previous field. *)
Definition node_map (fn fp : Z → Z) (c : cte) : cte :=
  let m := cteMDBNode c in
  Cte (cte_cap c) (mdb_node_new (fn (mdbNext m)) (mdbRevocable m) (mdbFirstBadged m) (fp (mdbPrev m))).
Definition redirect (y p v n : Z) : Z := if decide (y = p) then v else n.
Lemma lookup_upd_next p v h y : y ≠ NULL →
  upd_mdb p (set_mdbNext v) h !! y = node_map (redirect y p v) id <$> h !! y.
Proof.
  intros Hy. rewrite lookup_upd_mdb by done. unfold redirect, node_map.
  case_decide; destruct (h !! y) as [[? []]|]; done.
Qed.
Lemma lookup_upd_prev p v h y : y ≠ NULL →
  upd_mdb p (set_mdbPrev v) h !! y = node_map id (redirect y p v) <$> h !! y.
Proof.
  intros Hy. rewrite lookup_upd_mdb by done. unfold redirect, node_map.
  case_decide; destruct (h !! y) as [[? []]|]; done.
Qed.
Lemma node_map_id c : node_map id id c = c.
Proof. by destruct c as [? []]. Qed.
Lemma upd_mdb_null p f h : upd_mdb p f h !! NULL = h !! NULL.
Proof. unfold upd_mdb. case_decide; [done|]. by simplify_map_eq. Qed.
Lemma upd_mdb_other p f h y : y ≠ p → upd_mdb p f h !! y = h !! y.
Proof. intros. unfold upd_mdb. case_decide; [done|]. by simplify_map_eq. Qed.
Lemma upd_mdb_is_Some p f h y : is_Some (upd_mdb p f h !! y) ↔ is_Some (h !! y).
Proof.
  unfold upd_mdb. case_decide; [done|]. destruct (decide (y = p)) as [->|]; simplify_map_eq; [|done].
  by rewrite fmap_is_Some.
Qed.
Lemma wp_upd_mdb p f Q s :
  (p ≠ NULL → is_Some (ctes s !! p)) → Q () (set_ctes (upd_mdb p f (ctes s)) s) →
  wp (when (negb (p =? NULL)) (mod_mdb p f)) Q s.
Proof.
  intros Hp HQ. unfold upd_mdb in HQ. destruct (Z.eqb_spec p NULL) as [->|Hne]; simpl.
  - apply wp_ret. rewrite decide_True in HQ by done. by destruct s.
  - rewrite decide_False in HQ by done. destruct (Hp Hne) as [c Hc]. eapply wp_mod_cte; [done|].
    erewrite (map_eq (<[p := _]> _)); [exact HQ|]. intros y.
    destruct (decide (y = p)) as [->|]; simplify_map_eq; done.
Qed.

(** ** Renaming slots *)
Definition swap (a b x : Z) : Z := if decide (x = a) then b else if decide (x = b) then a else x.
#[global] Instance swap_inj a b : Inj (=) (=) (swap a b).
Proof. intros x y. unfold swap. repeat case_decide; naive_solver. Qed.

Lemma swap_null a b : a ≠ NULL → b ≠ NULL → swap a b NULL = NULL.
Proof. intros. unfold swap. by rewrite !decide_False. Qed.
Lemma swap_nonnull a b x : a ≠ NULL → b ≠ NULL → x ≠ NULL → swap a b x ≠ NULL.
Proof. intros. unfold swap. by repeat case_decide. Qed.
Lemma swap_l a b : swap a b a = b.
Proof. unfold swap. by rewrite decide_True. Qed.
Lemma swap_r a b : swap a b b = a.
Proof. unfold swap. repeat case_decide; congruence. Qed.
Lemma swap_ne a b x : x ≠ a → x ≠ b → swap a b x = x.
Proof. intros. unfold swap. by rewrite !decide_False. Qed.
Lemma swap_invol a b x : swap a b (swap a b x) = x.
Proof. unfold swap. repeat case_decide; congruence. Qed.
Lemma elem_of_map_swap a b x l : x ∈ map (swap a b) l ↔ swap a b x ∈ l.
Proof.
  rewrite list_elem_of_fmap. split.
  - intros (y & -> & Hy). by rewrite swap_invol.
  - intros Hx. exists (swap a b x). by rewrite swap_invol.
Qed.

(** The links the swap leaves: of the two slots and of another slot [y]. *)
Lemma swap_self x1 x2 p1 n1 p2 n2 :
  x1 ≠ x2 → (n1 = x2 ↔ p2 = x1) → (n2 = x1 ↔ p1 = x2) → x2 ≠ n2 → x2 ≠ p2 → x1 ≠ n1 → x1 ≠ p1 →
  (n1 = x2 → p1 ≠ x2) →
  let pm := if decide (x2 = n1) then x2 else p2 in let nm := if decide (x2 = p1) then x2 else n2 in
  redirect x1 pm x1 nm = swap x1 x2 n2 ∧ redirect x1 nm x1 pm = swap x1 x2 p2 ∧
  redirect x2 pm x1 n1 = swap x1 x2 n1 ∧ redirect x2 nm x1 p1 = swap x1 x2 p1.
Proof. intros ????????; simpl; unfold redirect, swap. split_and!; repeat case_decide; subst; try done; try congruence; naive_solver. Qed.
Lemma swap_other y x1 x2 p1 n1 p2 n2 p n :
  x1 ≠ x2 → (n1 = x2 ↔ p2 = x1) → (n2 = x1 ↔ p1 = x2) → y ≠ x1 → y ≠ x2 →
  (n1 = y ↔ p = x1) → (n2 = y ↔ p = x2) → (n = x1 ↔ p1 = y) → (n = x2 ↔ p2 = y) →
  (n1 = x2 → p1 ≠ x2) →
  let pm := if decide (x2 = n1) then x2 else p2 in let nm := if decide (x2 = p1) then x2 else n2 in
  redirect y pm x1 (redirect y p1 x2 n) = swap x1 x2 n ∧ redirect y nm x1 (redirect y n1 x2 p) = swap x1 x2 p.
Proof. intros ??????????; simpl; unfold redirect, swap. split_and!; repeat case_decide; subst; try done; try congruence; naive_solver. Qed.

Lemma dseg_relabel lk lk' (σ : Z → Z) `{!Inj (=) (=) σ} p l n :
  σ NULL = NULL → (∀ x a b, x ∈ l → lk x = Some (a, b) → lk' (σ x) = Some (σ a, σ b)) →
  dseg lk p l n → dseg lk' (σ p) (map σ l) (σ n).
Proof.
  intros H0. revert p. induction l as [|x l IH]; intros p Hlk; simpl; [done|]. intros (Hx & Hl & Hd).
  split_and!.
  - rewrite <-H0. by intros ?%(inj σ).
  - erewrite Hlk by (done || set_solver). destruct l; done.
  - apply IH; [|done]. intros y a b Hy. apply Hlk. set_solver.
Qed.

Lemma mdb_inv_relabel s s' ls (σ : Z → Z) `{!Inj (=) (=) σ} :
  mdb_inv s ls → σ NULL = NULL →
  (∀ x p n, x ∈ concat ls → mdb_links s x = Some (p, n) → mdb_links s' (σ x) = Some (σ p, σ n)) →
  (∀ x c, ctes s' !! x = Some c → x ∉ map σ (concat ls) → c = Cte cap_null_cap nullMDBNode) →
  (∀ x c, ctes s' !! x = Some c → x ∈ map σ (concat ls) → cte_cap c ≠ cap_null_cap) →
  ctes s' !! NULL = None →
  mdb_inv s' (map (map σ) ls).
Proof.
  intros Hinv H0 Hlk Hemp Hlive Hnull. split; rewrite <-?concat_map.
  - apply NoDup_fmap_2; [done|apply Hinv].
  - intros l (l0 & -> & Hl0)%list_elem_of_fmap. rewrite <-H0. eapply dseg_relabel; [done|done| |by apply (mi_chain _ _ Hinv)].
    intros x a b Hx. apply Hlk, elem_of_concat. eauto.
  - done.
  - done.
  - done.
Qed.

(** [b] is next of [x] exactly when [x] is previous of [b]. *)
Lemma mdb_recip s ls x a b y p n :
  mdb_inv s ls → mdb_links s x = Some (a, b) → mdb_links s y = Some (p, n) → x ≠ NULL → y ≠ NULL →
  b = y ↔ p = x.
Proof.
  intros Hinv Hx Hy Hx0 Hy0. split; intros <-.
  - destruct (mdb_next _ _ Hinv _ _ _ Hx Hy0) as (n' & E & _). congruence.
  - destruct (mdb_prev _ _ Hinv _ _ _ Hy Hx0) as (p' & E & _). congruence.
Qed.
Lemma mdb_member_nonnull s ls x : mdb_inv s ls → x ∈ concat ls → x ≠ NULL.
Proof. intros Hinv (l & Hx & Hl)%elem_of_concat. eapply dseg_nonnull; [by apply (mi_chain _ _ Hinv)|done]. Qed.
Lemma mdb_neighbours s ls x p n :
  mdb_inv s ls → mdb_links s x = Some (p, n) →
  (p ≠ NULL → is_Some (ctes s !! p) ∧ p ≠ x) ∧ (n ≠ NULL → is_Some (ctes s !! n) ∧ n ≠ x ∧ n ≠ p).
Proof.
  intros Hinv Hx. split; intros H0.
  - destruct (mdb_prev _ _ Hinv _ _ _ Hx H0) as (p' & (c & ? & _)%mdb_links_some & _ & _ & ? & _). eauto.
  - destruct (mdb_next _ _ Hinv _ _ _ Hx H0) as (n' & (c & ? & _)%mdb_links_some & _ & _ & ? & ? & _). eauto.
Qed.

Section operations.
Implicit Types (s : kstate).

(** The heap [cteSwap] leaves. *)
Definition swapped (x1 x2 : Z) (cap1 cap2 : cap) (m1 m2 : mdb_node) (h h' : gmap Z cte) : Prop :=
  h' !! NULL = None ∧ ∀ y, y ≠ NULL → h' !! y =
    if decide (y = x1) then Some (node_map (swap x1 x2) (swap x1 x2) (Cte cap2 m2))
    else if decide (y = x2) then Some (node_map (swap x1 x2) (swap x1 x2) (Cte cap1 m1))
    else node_map (swap x1 x2) (swap x1 x2) <$> h !! y.

Lemma swapped_flags s x1 x2 cap1 cap2 k1 k2 m1 m2 h ls : mdb_inv s ls →
  ctes s !! x1 = Some (Cte k1 m1) → ctes s !! x2 = Some (Cte k2 m2) → x1 ≠ NULL → x2 ≠ NULL →
  swapped x1 x2 cap1 cap2 m1 m2 (ctes s) h → ∀ x, mdb_flags (set_ctes h s) x = mdb_flags s (swap x1 x2 x).
Proof.
  intros Hinv Hc1 Hc2 Hn1 Hn2 [H0 Hh] x. unfold mdb_flags; simpl.
  destruct (decide (x = NULL)) as [->|Hx]; [by rewrite swap_ne, H0, (mi_null _ _ Hinv) by done|]. rewrite Hh by done.
  destruct (decide (x = x1)) as [->|]; [by rewrite swap_l, Hc2|]. destruct (decide (x = x2)) as [->|]; [by rewrite swap_r, Hc1|].
  rewrite swap_ne by done. by destruct (ctes s !! x).
Qed.
Lemma wp_cteSwap s cap1 x1 cap2 x2 ls k1 k2 m1 m2 Q :
  mdb_inv s ls → ctes s !! x1 = Some (Cte k1 m1) → ctes s !! x2 = Some (Cte k2 m2) →
  x1 ≠ NULL → x2 ≠ NULL → x1 ≠ x2 →
  (∀ h, swapped x1 x2 cap1 cap2 m1 m2 (ctes s) h → Q () (set_ctes h s)) →
  wp (cteSwap cap1 x1 cap2 x2) Q s.
Proof.
  intros Hinv Hc1 Hc2 Hn1 Hn2 Hne HQ. destruct m1 as [nx1 r1 f1 p1], m2 as [nx2 r2 f2 p2].
  assert (mdb_links s x1 = Some (p1, nx1)) as Hl1 by (unfold mdb_links; by rewrite Hc1).
  assert (mdb_links s x2 = Some (p2, nx2)) as Hl2 by (unfold mdb_links; by rewrite Hc2).
  destruct (mdb_neighbours _ _ _ _ _ Hinv Hl1) as [Hp1 Hnx1].
  destruct (mdb_neighbours _ _ _ _ _ Hinv Hl2) as [Hp2 Hnx2].
  pose proof (mdb_recip _ _ _ _ _ _ _ _ Hinv Hl1 Hl2 Hn1 Hn2) as R12.
  pose proof (mdb_recip _ _ _ _ _ _ _ _ Hinv Hl2 Hl1 Hn2 Hn1) as R21.
  apply wp_bind. eapply wp_mod_cte; [done|]. apply wp_bind. eapply wp_mod_cte; [by simplify_map_eq|].
  apply wp_bind. eapply wp_get_cte; [by simplify_map_eq|]. simpl.
  apply wp_bind, wp_upd_mdb; simpl.
  { intros H0. rewrite !lookup_insert_is_Some'. naive_solver. }
  apply wp_bind, wp_upd_mdb; simpl.
  { intros H0. rewrite upd_mdb_is_Some, !lookup_insert_is_Some'. naive_solver. }
  set (mdb2 := mdb_node_new (if decide (x2 = p1) then x2 else nx2) r2 f2 (if decide (x2 = nx1) then x2 else p2)).
  apply wp_bind. eapply (wp_get_cte _ (Cte cap1 mdb2)).
  { simpl. rewrite !lookup_upd_mdb by done. rewrite lookup_insert_eq. unfold mdb2. by repeat case_decide. }
  assert (x1 ≠ p1 ∧ x1 ≠ nx1 ∧ x2 ≠ p2 ∧ x2 ≠ nx2) as (Hx1p & Hx1n & Hx2p & Hx2n).
  { repeat split; intros E; subst; naive_solver. }
  apply wp_bind. eapply (wp_mod_cte _ _ (Cte cap2 (mdb_node_new nx1 r1 f1 p1))).
  { simpl. rewrite !lookup_upd_mdb by done. rewrite !decide_False by done. by simplify_map_eq. }
  apply wp_bind. eapply (wp_mod_cte _ _ (Cte cap1 mdb2)).
  { simpl. rewrite lookup_insert_ne, !lookup_upd_mdb by done. rewrite lookup_insert_eq. unfold mdb2. by repeat case_decide. }
  apply wp_bind, wp_upd_mdb; simpl.
  { intros H0. rewrite !lookup_insert_is_Some', !upd_mdb_is_Some, !lookup_insert_is_Some'.
    case_decide; [by eauto|]. naive_solver. }
  apply wp_upd_mdb; simpl.
  { intros H0. rewrite upd_mdb_is_Some, !lookup_insert_is_Some', !upd_mdb_is_Some, !lookup_insert_is_Some'.
    case_decide; [by eauto|]. naive_solver. }
  match goal with |- Q () (set_ctes ?h _) => set (h6 := h) end. apply HQ. split.
  { apply eq_None_not_Some. unfold h6. rewrite !upd_mdb_is_Some, !lookup_insert_is_Some', !upd_mdb_is_Some, !lookup_insert_is_Some'.
    rewrite (mi_null _ _ Hinv). unfold is_Some. naive_solver. }
  destruct (swap_self x1 x2 p1 nx1 p2 nx2) as (E1 & E2 & E3 & E4); [done..|naive_solver|]. simpl in E1, E2, E3, E4.
  intros y Hy. unfold h6, mdb2. rewrite lookup_upd_prev, lookup_upd_next by done. destruct (decide (y = x1)) as [->|Hyx1].
    - rewrite lookup_insert_ne, lookup_insert_eq by done. unfold node_map; simpl. by rewrite E1, E2.
    - destruct (decide (y = x2)) as [->|Hyx2].
      { rewrite lookup_insert_eq. unfold node_map; simpl. by rewrite E3, E4. }
      rewrite !lookup_insert_ne, lookup_upd_prev, lookup_upd_next, !lookup_insert_ne by done.
      destruct (ctes s !! y) as [[k [n r f p]]|] eqn:Hcy; [|done].
      assert (mdb_links s y = Some (p, n)) as Hly by (unfold mdb_links; by rewrite Hcy).
      pose proof (mdb_recip _ _ _ _ _ _ _ _ Hinv Hl1 Hly Hn1 Hy). pose proof (mdb_recip _ _ _ _ _ _ _ _ Hinv Hl2 Hly Hn2 Hy).
      pose proof (mdb_recip _ _ _ _ _ _ _ _ Hinv Hly Hl1 Hy Hn1). pose proof (mdb_recip _ _ _ _ _ _ _ _ Hinv Hly Hl2 Hy Hn2).
      destruct (swap_other y x1 x2 p1 nx1 p2 nx2 p n) as [F1 F2]; [done..|naive_solver|]. simpl in F1, F2.
      unfold node_map; simpl. by rewrite F1, F2.
Qed.

(** C17: Swapping two slots exchanges their places in the mapping database, also
    when they are neighbours: every chain is the old one with the two slots
    renamed into each other, the flags of each slot (revocable, first badged) go with
    its place, and each slot gets the capability given for it. The other slots keep
    their capabilities and flags, and the rest of the state is unchanged. *)
Theorem cteSwap_ok s cap1 x1 cap2 x2 ls c1 c2 :
  mdb_inv s ls → ctes s !! x1 = Some c1 → ctes s !! x2 = Some c2 →
  x1 ∈ concat ls → x2 ∈ concat ls → x1 ≠ x2 → cap1 ≠ cap_null_cap → cap2 ≠ cap_null_cap →
  ∃ s', cteSwap cap1 x1 cap2 x2 s = Done () s' ∧ mdb_inv s' (map (map (swap x1 x2)) ls) ∧
    cap_at s' x1 = Some cap2 ∧ cap_at s' x2 = Some cap1 ∧
    (∀ x, x ≠ x1 → x ≠ x2 → cap_at s' x = cap_at s x) ∧
    (∀ x, mdb_flags s' x = mdb_flags s (swap x1 x2 x)) ∧ s' = set_ctes (ctes s') s.
Proof.
  intros Hinv Hc1 Hc2 Hx1 Hx2 Hne Hcap1 Hcap2.
  pose proof (mdb_member_nonnull _ _ _ Hinv Hx1) as Hn1. pose proof (mdb_member_nonnull _ _ _ Hinv Hx2) as Hn2.
  destruct c1 as [k1 m1], c2 as [k2 m2]. apply (wp_unit (cteSwap cap1 x1 cap2 x2) (λ _ s', mdb_inv s' _ ∧ _)).
  eapply wp_cteSwap; [done..|]. intros h6 [Hh0 Hh6]. split_and!; try done.
  - apply (mdb_inv_relabel s); [apply _|done|by apply swap_null| | | |done].
    + intros x p n Hx Hl. pose proof (mdb_member_nonnull _ _ _ Hinv Hx) as Hx0. unfold mdb_links in Hl |- *; simpl.
      destruct (decide (x = x1)) as [->|Hxx1]; [|destruct (decide (x = x2)) as [->|Hxx2]].
      * rewrite swap_l, Hh6, decide_False, decide_True by done. rewrite Hc1 in Hl. by simplify_eq/=.
      * rewrite swap_r, Hh6, decide_True by done. rewrite Hc2 in Hl. by simplify_eq/=.
      * rewrite (swap_ne _ _ x), Hh6, !decide_False by done. destruct (ctes s !! x); [|done]. by simplify_eq/=.
    + intros x c Hc Hx. rewrite elem_of_map_swap in Hx. simpl in Hc.
      destruct (decide (x = x1)) as [->|Hxx1]; [by rewrite swap_l in Hx|].
      destruct (decide (x = x2)) as [->|Hxx2]; [by rewrite swap_r in Hx|]. rewrite swap_ne in Hx by done.
      assert (x ≠ NULL) by (intros ->; congruence). rewrite Hh6, !decide_False in Hc by done.
      apply fmap_Some in Hc as (c0 & Hc0 & ->). apply (mi_empty _ _ Hinv) in Hc0 as ->; [|done].
      unfold node_map; simpl. by rewrite swap_null.
    + intros x c Hc Hx. rewrite elem_of_map_swap in Hx. simpl in Hc.
      assert (x ≠ NULL) by (intros ->; congruence). rewrite Hh6 in Hc by done.
      case_decide; [by injection Hc as <-|]. case_decide; [by injection Hc as <-|]. rewrite swap_ne in Hx by done. apply fmap_Some in Hc as (c0 & Hc0 & ->). by apply (mi_live _ _ Hinv _ _ Hc0).
  - unfold cap_at; simpl. by rewrite Hh6, decide_True by done.
  - unfold cap_at; simpl. by rewrite Hh6, decide_False, decide_True by done.
  - intros x Hxx1 Hxx2. unfold cap_at; simpl. destruct (decide (x = NULL)) as [->|].
    + by rewrite Hh0, (mi_null _ _ Hinv).
    + rewrite Hh6, !decide_False by done. by destruct (ctes s !! x).
  - by eapply (swapped_flags s x1 x2); [exact Hinv|exact Hc1|exact Hc2|..].
Qed.

(** Inserting a derived capability puts its slot directly behind the source in
    the source's chain, marked revocable and first badged when the new capability
    is; an untyped source that is copied whole is marked full; every other slot
    and all else is unchanged. *)
Theorem cteInsert_ok s newCap src dest L l1 l2 L' csrc b :
  mdb_inv s (L ++ (l1 ++ src :: l2) :: L') → ctes s !! src = Some csrc →
  ctes s !! dest = Some (Cte cap_null_cap nullMDBNode) → dest ≠ NULL →
  dest ∉ concat (L ++ (l1 ++ src :: l2) :: L') →
  newCap ≠ cap_null_cap → isCapRevocable newCap (cte_cap csrc) = Some b →
  ∃ s', cteInsert newCap src dest s = Done () s' ∧
    mdb_inv s' (L ++ (l1 ++ src :: dest :: l2) :: L') ∧
    ctes s' !! dest = Some (Cte newCap (mdb_node_new (first NULL l2) b b src)) ∧
    cap_at s' src = Some (full_cap (cte_cap csrc) newCap) ∧
    (∀ x, x ≠ src → x ≠ dest → cap_at s' x = cap_at s x) ∧ s' = set_ctes (ctes s') s.
Proof.
  intros Hinv Hsrc Hdest Hd0 Hdc Hnew Hrev.
  destruct (mdb_chain_at _ _ Hinv _ _ _ _ _ eq_refl) as (Hd & Hnd & Hlsrc).
  assert (src ≠ dest) as Hne by (intros ->; apply Hdc, concat_middle; set_solver).
  assert (cte_cap csrc ≠ cap_null_cap) as Hlive.
  { apply (mi_live _ _ Hinv _ _ Hsrc), concat_middle. set_solver. }
  assert (full_cap (cte_cap csrc) newCap ≠ cap_null_cap) as Hfull.
  { destruct (cte_cap csrc); try done. destruct newCap; simpl; try done. by destruct (_ && _). }
  assert (mdbPrev (cteMDBNode csrc) = final NULL l1 ∧ mdbNext (cteMDBNode csrc) = first NULL l2) as [Hp Hn].
  { unfold mdb_links in Hlsrc. rewrite Hsrc in Hlsrc. simpl in Hlsrc. by injection Hlsrc. }
  apply (wp_unit (cteInsert newCap src dest) (λ _ s', mdb_inv s' _ ∧ _)).
  apply wp_bind. eapply wp_get_cte; [done|]. apply wp_bind. unfold wp at 1, lift. rewrite Hrev.
  apply wp_bind. eapply wp_get_cte; [done|]. apply wp_bind, wp_assert; [done|]. apply wp_bind, wp_assert; [done|].
  apply wp_bind, wp_setUntypedCapAsFull; [done|].
  apply wp_bind. eapply wp_mod_cte; [by simplify_map_eq/=|]. apply wp_bind. eapply wp_mod_cte; [by simplify_map_eq/=|].
  apply wp_bind. eapply wp_mod_cte; [by simplify_map_eq/=|]. simpl. rewrite Hn.
  destruct l2 as [|n l2]; simpl.
  - apply wp_ret. split_and!; simpl; [|ctes_eval|ctes_eval|intros x ??; ctes_eval|done].
    eapply (mdb_inv_insert s); try done; simpl.
    + intros y Hy. ctes_eval.
    + ctes_eval.
    + intros y Hy. rewrite !lookup_insert_ne by set_solver. done.
    + intros y c Hy Hc. assert (y = src ∨ y = dest) as [->| ->] by set_solver; by simplify_map_eq/=.
  - destruct (mdb_next _ _ Hinv _ _ _ Hlsrc) as (n' & Hln & _ & Hnin & Hnsrc & _).
    { simpl. eapply dseg_nonnull; [exact Hd|set_solver]. }
    simpl in Hln, Hnin, Hnsrc. destruct (mdb_links_some _ _ _ _ Hln) as (cn & Hcn & Hpn & Hnn).
    assert (n ≠ dest) as Hnd' by (by intros ->).
    rewrite (proj2 (Z.eqb_neq n NULL)) by (eapply dseg_nonnull; [exact Hd|set_solver]). simpl.
    eapply wp_mod_cte; [by simplify_map_eq|].
    split_and!; simpl; [|ctes_eval|ctes_eval| |done].
    2: { intros x ??. destruct (decide (x = n)) as [->|]; ctes_eval. }
    eapply (mdb_inv_insert s); try done; simpl.
    + intros y Hy. ctes_eval.
    + ctes_eval.
    + intros y Hy. rewrite !lookup_insert_ne by set_solver. done.
    + intros y c Hy Hc. assert (y = src ∨ y = dest ∨ y = n) as [->|[->| ->]] by set_solver; simplify_map_eq/=; try done.
      by apply (mi_live _ _ Hinv _ _ Hcn).
Qed.

(** The heap [cteMove] leaves. *)
Definition moved (src dest : Z) (newCap : cap) (m : mdb_node) (h h' : gmap Z cte) : Prop :=
  h' !! NULL = None ∧ ∀ y, y ≠ NULL → h' !! y =
    if decide (y = src) then Some (Cte cap_null_cap nullMDBNode)
    else if decide (y = dest) then Some (Cte newCap m)
    else node_map (redirect y (mdbPrev m) dest) (redirect y (mdbNext m) dest) <$> h !! y.

Lemma wp_cteMove s newCap src dest ls k m Q :
  mdb_inv s ls → ctes s !! src = Some (Cte k m) → ctes s !! dest = Some (Cte cap_null_cap nullMDBNode) →
  src ≠ NULL → dest ≠ NULL → src ≠ dest →
  (∀ h, src ≠ mdbPrev m → src ≠ mdbNext m → dest ≠ mdbPrev m → dest ≠ mdbNext m →
     moved src dest newCap m (ctes s) h → Q () (set_ctes h s)) →
  wp (cteMove newCap src dest) Q s.
Proof.
  intros Hinv Hsrc Hdest Hs0 Hd0 Hne HQ. destruct m as [n r f p].
  assert (mdb_links s src = Some (p, n)) as Hl by (unfold mdb_links; by rewrite Hsrc).
  assert (mdb_links s dest = Some (NULL, NULL)) as Hld by (unfold mdb_links; by rewrite Hdest).
  destruct (mdb_neighbours _ _ _ _ _ Hinv Hl) as [Hp Hn].
  assert (src ≠ p ∧ src ≠ n) as [Hsp Hsn] by (split; intros E; subst; naive_solver).
  pose proof (mdb_recip _ _ _ _ _ _ _ _ Hinv Hl Hld Hs0 Hd0) as R1.
  pose proof (mdb_recip _ _ _ _ _ _ _ _ Hinv Hld Hl Hd0 Hs0) as R2.
  assert (dest ≠ p ∧ dest ≠ n) as [Hdp Hdn] by (split; intros E; subst; naive_solver).
  apply wp_bind. eapply wp_get_cte; [done|]. apply wp_bind, wp_assert; [done|]. apply wp_bind, wp_assert; [done|].
  apply wp_bind. eapply wp_get_cte; [done|]. apply wp_bind. eapply wp_mod_cte; [done|].
  apply wp_bind. eapply wp_mod_cte; [by simplify_map_eq|]. apply wp_bind. eapply wp_mod_cte; [by simplify_map_eq|].
  apply wp_bind. eapply wp_mod_cte; [by simplify_map_eq|]. simpl.
  apply wp_bind, wp_upd_mdb; simpl. { intros H0. rewrite !lookup_insert_is_Some'. naive_solver. }
  apply wp_upd_mdb; simpl. { intros H0. rewrite upd_mdb_is_Some, !lookup_insert_is_Some'. naive_solver. }
  match goal with |- Q () (set_ctes ?h _) => set (h6 := h) end. apply HQ; [done..|]. split.
  { apply eq_None_not_Some. unfold h6. rewrite !upd_mdb_is_Some, !lookup_insert_is_Some', (mi_null _ _ Hinv).
    unfold is_Some. naive_solver. }
  intros y Hy. unfold h6. rewrite lookup_upd_prev, lookup_upd_next by done.
    destruct (decide (y = src)) as [->|]; [|destruct (decide (y = dest)) as [->|]].
    - rewrite lookup_insert_eq. unfold node_map, redirect; simpl. by rewrite !decide_False.
    - rewrite lookup_insert_ne, lookup_insert_eq by done. unfold node_map, redirect; simpl. by rewrite !decide_False.
    - rewrite !lookup_insert_ne by done. by destruct (ctes s !! y).
Qed.

Lemma move_other y src dest n a : (n = y ↔ a = src) → a ≠ dest → redirect y n dest a = swap src dest a.
Proof. intros. unfold redirect, swap. repeat case_decide; subst; try done; naive_solver. Qed.

(** Moving a capability gives the destination the place of the source in the
    mapping database: the chains are the old ones with the source renamed to the
    destination, which takes over its flags; the source becomes an empty slot. *)
Theorem cteMove_ok s newCap src dest ls csrc :
  mdb_inv s ls → ctes s !! src = Some csrc → src ∈ concat ls →
  ctes s !! dest = Some (Cte cap_null_cap nullMDBNode) → dest ≠ NULL → dest ∉ concat ls →
  newCap ≠ cap_null_cap →
  ∃ s', cteMove newCap src dest s = Done () s' ∧ mdb_inv s' (map (map (swap src dest)) ls) ∧
    ctes s' !! dest = Some (Cte newCap (cteMDBNode csrc)) ∧
    ctes s' !! src = Some (Cte cap_null_cap nullMDBNode) ∧
    (∀ x, x ≠ src → x ≠ dest → cap_at s' x = cap_at s x) ∧ s' = set_ctes (ctes s') s.
Proof.
  intros Hinv Hsrc Hin Hdest Hd0 Hdc Hnew. pose proof (mdb_member_nonnull _ _ _ Hinv Hin) as Hs0.
  assert (src ≠ dest) as Hne by (by intros ->). destruct csrc as [k m].
  apply (wp_unit (cteMove newCap src dest) (λ _ s', mdb_inv s' _ ∧ _)).
  eapply wp_cteMove; [done..|]. intros h Hsp Hsn Hdp Hdn [Hh0 Hh]. split_and!; try done; simpl.
  - apply (mdb_inv_relabel s); [apply _|done|by apply swap_null| | | |done].
    + intros x a b Hx Hlx. pose proof (mdb_member_nonnull _ _ _ Hinv Hx) as Hx0.
      assert (mdb_links s src = Some (mdbPrev m, mdbNext m)) as Hl by (unfold mdb_links; by rewrite Hsrc).
      assert (mdb_links s dest = Some (NULL, NULL)) as Hld by (unfold mdb_links; by rewrite Hdest).
      pose proof (mdb_recip _ _ _ _ _ _ _ _ Hinv Hl Hlx Hs0 Hx0). pose proof (mdb_recip _ _ _ _ _ _ _ _ Hinv Hlx Hl Hx0 Hs0).
      pose proof (mdb_recip _ _ _ _ _ _ _ _ Hinv Hld Hlx Hd0 Hx0). pose proof (mdb_recip _ _ _ _ _ _ _ _ Hinv Hlx Hld Hx0 Hd0).
      destruct (decide (x = src)) as [->|Hxs].
      * rewrite Hl in Hlx. injection Hlx as <- <-. rewrite swap_l, !swap_ne by done. unfold mdb_links; simpl.
        by rewrite Hh, decide_False, decide_True by done.
      * assert (x ≠ dest) by (by intros ->). rewrite (swap_ne _ _ x) by done.
        destruct (mdb_links_some _ _ _ _ Hlx) as (c & Hc & Ha & Hb). unfold mdb_links; simpl.
        rewrite Hh, !decide_False, Hc by done. simpl. rewrite Ha, Hb.
        rewrite !(move_other x src dest) by naive_solver. done.
    + intros x c Hc Hx. rewrite elem_of_map_swap in Hx. simpl in Hc. assert (x ≠ NULL) by (intros ->; congruence).
      rewrite Hh in Hc by done. case_decide as Hxs; [by injection Hc as <-|].
      case_decide as Hxd; [subst; by rewrite swap_r in Hx|]. rewrite swap_ne in Hx by done.
      apply fmap_Some in Hc as (c0 & Hc0 & ->). apply (mi_empty _ _ Hinv) in Hc0 as E; [|done]. subst c0.
      assert (mdb_links s x = Some (NULL, NULL)) as Hlx by (unfold mdb_links; by rewrite Hc0).
      assert (mdb_links s src = Some (mdbPrev m, mdbNext m)) as Hl by (unfold mdb_links; by rewrite Hsrc).
      pose proof (mdb_recip _ _ _ _ _ _ _ _ Hinv Hl Hlx ltac:(done) ltac:(done)).
      pose proof (mdb_recip _ _ _ _ _ _ _ _ Hinv Hlx Hl ltac:(done) ltac:(done)).
      unfold node_map, redirect; simpl. rewrite !decide_False by naive_solver. done.
    + intros x c Hc Hx. rewrite elem_of_map_swap in Hx. simpl in Hc. assert (x ≠ NULL) by (intros ->; congruence).
      rewrite Hh in Hc by done. case_decide as Hxs; [subst; by rewrite swap_l in Hx|].
      case_decide as Hxd; [by injection Hc as <-|]. rewrite swap_ne in Hx by done.
      apply fmap_Some in Hc as (c0 & Hc0 & ->). by apply (mi_live _ _ Hinv _ _ Hc0).
  - by rewrite Hh, decide_False, decide_True by done.
  - by rewrite Hh, decide_True by done.
  - intros x Hxs Hxd. unfold cap_at; simpl. destruct (decide (x = NULL)) as [->|].
    + by rewrite Hh0, (mi_null _ _ Hinv).
    + rewrite Hh, !decide_False by done. by destruct (ctes s !! x).
Qed.

(** A new object's capability is put directly behind its parent in the parent's
    chain, revocable and first badged. *)
Theorem insertNewCap_ok s parent slot newCap L l1 l2 L' cp c0 :
  mdb_inv s (L ++ (l1 ++ parent :: l2) :: L') → ctes s !! parent = Some cp →
  ctes s !! slot = Some c0 → slot ≠ NULL → slot ∉ concat (L ++ (l1 ++ parent :: l2) :: L') →
  newCap ≠ cap_null_cap →
  ∃ s', insertNewCap parent slot newCap s = Done () s' ∧
    mdb_inv s' (L ++ (l1 ++ parent :: slot :: l2) :: L') ∧
    ctes s' !! slot = Some (Cte newCap (mdb_node_new (first NULL l2) true true parent)) ∧
    (∀ x, x ≠ slot → cap_at s' x = cap_at s x) ∧ s' = set_ctes (ctes s') s.
Proof.
  intros Hinv Hpar Hslot Hs0 Hsc Hnew.
  destruct (mdb_chain_at _ _ Hinv _ _ _ _ _ eq_refl) as (Hd & Hnd & Hlp).
  assert (parent ∈ concat (L ++ (l1 ++ parent :: l2) :: L')) as Hin by (apply concat_middle; set_solver).
  pose proof (mdb_member_nonnull _ _ _ Hinv Hin) as Hp0. assert (parent ≠ slot) as Hne by (by intros ->).
  destruct (mdb_neighbours _ _ _ _ _ Hinv Hlp) as [_ Hn]. destruct cp as [k [n r f p]].
  assert (p = final NULL l1 ∧ n = first NULL l2) as [-> ->].
  { unfold mdb_links in Hlp. rewrite Hpar in Hlp. by injection Hlp. }
  assert (first NULL l2 ≠ NULL → first NULL l2 ≠ slot) as Hns.
  { intros H0 E. apply Hsc, concat_middle. left. destruct l2; [done|]. simpl in E. set_solver. }
  assert (parent ≠ first NULL l2) as Hpn by (intros E; rewrite <-E in Hn; naive_solver).
  apply (wp_unit (insertNewCap parent slot newCap) (λ _ s', mdb_inv s' _ ∧ _)).
  apply wp_bind. eapply wp_get_cte; [done|]. apply wp_bind. eapply wp_mod_cte; [done|].
  apply wp_bind. eapply wp_mod_cte; [by simplify_map_eq|]. simpl.
  apply wp_bind, wp_upd_mdb; simpl. { intros H0. rewrite !lookup_insert_is_Some'. naive_solver. }
  eapply (wp_mod_cte _ _ (Cte k (mdb_node_new (first NULL l2) r f (final NULL l1)))); simpl.
  { rewrite lookup_upd_prev, !lookup_insert_ne, Hpar by done. unfold node_map, redirect; simpl. by rewrite decide_False. }
  split_and!; simpl; [| | |done].
  - eapply (mdb_inv_insert s); try done.
    + intros y Hy. unfold mdb_links; simpl. case_decide as Hyp; [subst; by simplify_map_eq|].
      rewrite lookup_insert_ne by done. destruct (decide (y = NULL)) as [->|Hy0].
      { rewrite upd_mdb_null, !lookup_insert_ne, (mi_null _ _ Hinv) by done. by case_decide. }
      rewrite lookup_upd_prev, !lookup_insert_ne by done. unfold node_map, redirect; simpl.
      destruct (ctes s !! y) as [cy|]; simpl; [|by case_decide]. destruct l2; simpl; repeat case_decide; subst; done.
    + unfold mdb_links; simpl. rewrite lookup_insert_ne, lookup_upd_prev, lookup_insert_eq by done.
      unfold redirect; simpl. destruct (decide (slot = first NULL l2)) as [E|]; [|done]. naive_solver.
    + intros y Hy. simpl. rewrite lookup_insert_ne by set_solver. destruct (decide (y = NULL)) as [->|].
      { by rewrite upd_mdb_null, !lookup_insert_ne. }
      rewrite upd_mdb_other, !lookup_insert_ne by (destruct l2; set_solver). done.
    + intros y c Hy Hc. simpl in Hc. destruct (decide (y = parent)) as [->|].
      { rewrite lookup_insert_eq in Hc. injection Hc as <-. by apply (mi_live _ _ Hinv _ _ Hpar). }
      assert (y ≠ NULL) as Hy0 by (intros ->; by rewrite lookup_insert_ne, upd_mdb_null, !lookup_insert_ne, (mi_null _ _ Hinv) in Hc).
      rewrite lookup_insert_ne, lookup_upd_prev in Hc by done. destruct (decide (y = slot)) as [->|].
      { rewrite lookup_insert_eq in Hc. by injection Hc as <-. }
      rewrite !lookup_insert_ne in Hc by done. apply fmap_Some in Hc as (c' & Hc' & ->).
      apply (mi_live _ _ Hinv _ _ Hc'), concat_middle. left. destruct l2; set_solver.
  - rewrite lookup_insert_ne, lookup_upd_prev, lookup_insert_eq by done. unfold node_map, redirect; simpl.
    case_decide as E; [naive_solver|done].
  - intros x Hx. unfold cap_at; simpl. destruct (decide (x = parent)) as [->|]; [by rewrite lookup_insert_eq, Hpar|].
    rewrite lookup_insert_ne by done. destruct (decide (x = NULL)) as [->|].
    { by rewrite upd_mdb_null, !lookup_insert_ne. }
    rewrite lookup_upd_prev, !lookup_insert_ne by done. by destruct (ctes s !! x).
Qed.
End operations.

(** ** The example state: one chain of the five capabilities *)
Definition ex_chain : list Z := [slotA; slot1 1; slot1 2; slot1 3; slot2 0].
Lemma ex_mdb_inv : mdb_inv ex_state [ex_chain].
Proof.
  split.
  - by_decide.
  - intros l ->%list_elem_of_singleton. vm_compute. naive_solver.
  - intros x c Hc%elem_of_list_to_map_2 Hx. unfold ex_ctes in Hc.
    repeat first [by apply elem_of_nil in Hc | apply elem_of_cons in Hc as [[= -> ->]|Hc]]; try done;
      (exfalso; apply Hx; by_decide).
  - intros x c Hc%elem_of_list_to_map_2 Hx. unfold ex_ctes in Hc.
    repeat first [by apply elem_of_nil in Hc | apply elem_of_cons in Hc as [[= -> ->]|Hc]]; try done;
      (exfalso; revert Hx; by_decide).
  - done.
Qed.

Definition ex_ep_cap : cap := cap_endpoint_cap 7 true true true true ep1.
Lemma cteInsert_witness : ∃ s', cteInsert ex_ep_cap (slot1 2) (slot2 1) ex_state = Done () s' ∧
  mdb_inv s' [[slotA; slot1 1; slot1 2; slot2 1; slot1 3; slot2 0]] ∧
  ctes s' !! slot2 1 = Some (Cte ex_ep_cap (mdb_node_new (slot1 3) true true (slot1 2))) ∧
  cap_at s' (slot1 2) = Some (cap_endpoint_cap 0 true true true true ep1) ∧
  (∀ x, x ≠ slot1 2 → x ≠ slot2 1 → cap_at s' x = cap_at ex_state x) ∧ s' = set_ctes (ctes s') ex_state.
Proof.
  apply (cteInsert_ok ex_state ex_ep_cap (slot1 2) (slot2 1) [] [slotA; slot1 1] [slot1 3; slot2 0] []
    (Cte (cap_endpoint_cap 0 true true true true ep1) (mdb_node_new (slot1 3) true true (slot1 1))) true ex_mdb_inv);
    [done|done|done|by_decide|done|done].
Defined.

Lemma insertNewCap_witness : ∃ s', insertNewCap (slot1 3) (slot2 1) (cap_thread_cap tC) ex_state = Done () s' ∧
  mdb_inv s' [[slotA; slot1 1; slot1 2; slot1 3; slot2 1; slot2 0]] ∧
  ctes s' !! slot2 1 = Some (Cte (cap_thread_cap tC) (mdb_node_new (slot2 0) true true (slot1 3))) ∧
  (∀ x, x ≠ slot2 1 → cap_at s' x = cap_at ex_state x) ∧ s' = set_ctes (ctes s') ex_state.
Proof.
  eapply (insertNewCap_ok ex_state (slot1 3) (slot2 1) (cap_thread_cap tC) [] [slotA; slot1 1; slot1 2] [slot2 0] []);
    [apply ex_mdb_inv|done|done|done|by_decide|done].
Defined.

Lemma cteMove_witness : ∃ s', cteMove (cap_untyped_cap 0 false 12 ut1) (slot1 3) (slot2 2) ex_state = Done () s' ∧
  mdb_inv s' (map (map (swap (slot1 3) (slot2 2))) [ex_chain]) ∧
  ctes s' !! slot2 2 = Some (Cte (cap_untyped_cap 0 false 12 ut1) (mdb_node_new (slot2 0) true true (slot1 2))) ∧
  ctes s' !! slot1 3 = Some (Cte cap_null_cap nullMDBNode) ∧
  (∀ x, x ≠ slot1 3 → x ≠ slot2 2 → cap_at s' x = cap_at ex_state x) ∧ s' = set_ctes (ctes s') ex_state.
Proof.
  apply (cteMove_ok ex_state _ (slot1 3) (slot2 2) _
    (Cte (cap_untyped_cap 0 false 12 ut1) (mdb_node_new (slot2 0) true true (slot1 2))) ex_mdb_inv);
    [done|by_decide|done|done|by_decide|done].
Defined.

(** The neighbours [slot1 2] and [slot1 3] change places. *)
Lemma cteSwap_witness : ∃ s',
  cteSwap ex_ep_cap (slot1 2) (cap_untyped_cap 0 false 12 ut1) (slot1 3) ex_state = Done () s' ∧
  mdb_inv s' (map (map (swap (slot1 2) (slot1 3))) [ex_chain]) ∧
  cap_at s' (slot1 2) = Some (cap_untyped_cap 0 false 12 ut1) ∧ cap_at s' (slot1 3) = Some ex_ep_cap ∧
  (∀ x, x ≠ slot1 2 → x ≠ slot1 3 → cap_at s' x = cap_at ex_state x) ∧
  (∀ x, mdb_flags s' x = mdb_flags ex_state (swap (slot1 2) (slot1 3) x)) ∧ s' = set_ctes (ctes s') ex_state.
Proof.
  eapply (cteSwap_ok ex_state ex_ep_cap (slot1 2) (cap_untyped_cap 0 false 12 ut1) (slot1 3));
    [apply ex_mdb_inv|done|done|by_decide|by_decide|done|done|done].
Defined.

(** * Deleting from the mapping database

    [emptySlot] of [kernel/object/cnode.c] takes a slot out of its chain of the
    mapping database. *)

(** ** A slot leaves its chain *)
Lemma mdb_inv_remove s s' L l1 x l2 L' :
  mdb_inv s (L ++ (l1 ++ x :: l2) :: L') →
  (∀ y, y ≠ x → y ≠ NULL → mdb_links s' y =
     (λ '(a, b), (redirect y (first NULL l2) (final NULL l1) a, redirect y (final NULL l1) (first NULL l2) b))
       <$> mdb_links s y) →
  ctes s' !! x = Some (Cte cap_null_cap nullMDBNode) → (∀ y, y ≠ x → cap_at s' y = cap_at s y) →
  (∀ y, y ∉ [x; first x l2; final x l1] → ctes s' !! y = ctes s !! y) → ctes s' !! NULL = None →
  mdb_inv s' (L ++ (l1 ++ l2) :: L').
Proof.
  intros Hinv Hlk Hx Hcap Hsame Hnull.
  destruct (mdb_chain_at _ _ Hinv _ _ _ _ _ eq_refl) as (Hd & Hnd & Hlx).
  pose proof (mi_nodup _ _ Hinv) as Hnda. rewrite NoDup_concat_middle in Hnda. destruct Hnda as (_ & HndL & Hdis).
  apply NoDup_app in Hnd as (Hnd1 & Hd1 & Hnd2). apply NoDup_cons in Hnd2 as [Hx2 Hnd2].
  rewrite dseg_app in Hd. destruct Hd as [Hs1 (Hx0 & _ & Hs2)]. simpl in Hs1.
  assert (first x l2 ∈ x :: l2 ∧ first NULL l2 ∈ NULL :: l2) as [Hf Hf'] by (destruct l2; set_solver).
  assert (final x l1 ∈ x :: l1 ∧ final NULL l1 ∈ NULL :: l1) as [Hl Hl'] by (split; apply final_in).
  assert (∀ y, y ≠ x → y ≠ NULL → y ∉ [first NULL l2; final NULL l1] → mdb_links s' y = mdb_links s y) as Hkeep.
  { intros y ?? Hy. rewrite Hlk by done. destruct (mdb_links s y) as [[a b]|]; [|done].
    simpl. unfold redirect. by rewrite !decide_False by set_solver. }
  split.
  - apply NoDup_concat_middle. split_and!; [|done|].
    + apply NoDup_app. split_and!; [done|set_solver|done].
    + intros y Hy. apply Hdis. set_solver.
  - eapply chains_frame; [done| |].
    + intros y Hy. assert (y ≠ NULL).
      { apply (mdb_member_nonnull _ _ _ Hinv). apply concat_middle. by right. }
      assert (y ∉ l1 ++ x :: l2) as Hyl by (intros ?; by apply (Hdis y)).
      apply Hkeep; set_solver.
    + rewrite dseg_app. split.
      * destruct l1 as [|b l1 _] using rev_ind; [done|]. rewrite final_snoc in *.
        assert (b ≠ NULL) by (eapply dseg_nonnull; [exact Hs1|set_solver]).
        rewrite dseg_app in Hs1 |- *. destruct Hs1 as [Hs1 (_ & Hlb & _)]. simpl in *. split.
        -- eapply dseg_frame; [|exact Hs1]. intros y Hy. apply Hkeep; [set_solver| |].
           ++ eapply dseg_nonnull; [exact Hs1|done].
           ++ apply NoDup_app in Hnd1 as (_ & Hb & _). assert (y ≠ NULL) by (eapply dseg_nonnull; [exact Hs1|done]). set_solver.
        -- split_and!; [done| |done]. rewrite Hlk, Hlb by set_solver. simpl. unfold redirect.
           repeat case_decide; try done; set_solver.
      * destruct l2 as [|a l2]; [done|]. simpl in *. destruct Hs2 as (Ha0 & Hla & Hs2).
        apply NoDup_cons in Hnd2 as [Ha2 Hnd2]. split_and!; [done| |].
        -- rewrite Hlk, Hla by set_solver. simpl. unfold redirect.
           repeat case_decide; try done; set_solver.
        -- eapply dseg_frame; [|exact Hs2]. intros y Hy. assert (y ≠ NULL) by (eapply dseg_nonnull; [exact Hs2|done]).
           apply Hkeep; set_solver.
  - intros y c Hc Hy. rewrite concat_middle in Hy. destruct (decide (y = x)) as [->|Hyx]; [congruence|].
    rewrite Hsame in Hc by set_solver. apply (mi_empty _ _ Hinv _ _ Hc). rewrite concat_middle. set_solver.
  - intros y c Hc Hy. rewrite concat_middle in Hy. assert (y ≠ x) as Hyx.
    { intros ->. destruct Hy as [Hy|Hy]; [set_solver|]. apply (Hdis x); set_solver. }
    specialize (Hcap y Hyx). unfold cap_at in Hcap. rewrite Hc in Hcap.
    destruct (ctes s !! y) as [c0|] eqn:Hc0; [|done]. simpl in Hcap. injection Hcap as ->.
    apply (mi_live _ _ Hinv _ _ Hc0). rewrite concat_middle. set_solver.
  - done.
Qed.

Definition redirect_flag (y n : Z) (f b : bool) : bool := if decide (y = n) then b || f else b.

Section deletion.
Context `{Platform}.

(** C38: Emptying a slot takes it out of its chain and joins its neighbours; the
    successor inherits the mark of the first badged capability; the slot is left
    as an empty slot and no other capability changes. *)
Theorem emptySlot_ok s slot info L l1 l2 L' c :
  mdb_inv s (L ++ (l1 ++ slot :: l2) :: L') → ctes s !! slot = Some c → (∀ irq, info ≠ cap_irq_handler_cap irq) →
  ∃ s', emptySlot slot info s = Done () s' ∧ mdb_inv s' (L ++ (l1 ++ l2) :: L') ∧
    ctes s' !! slot = Some (Cte cap_null_cap nullMDBNode) ∧ (∀ x, x ≠ slot → cap_at s' x = cap_at s x) ∧
    (∀ cn, l2 ≠ [] → ctes s !! first NULL l2 = Some cn → ∃ cn', ctes s' !! first NULL l2 = Some cn' ∧
       mdbFirstBadged (cteMDBNode cn') = mdbFirstBadged (cteMDBNode cn) || mdbFirstBadged (cteMDBNode c)) ∧
    s' = set_ctes (ctes s') s.
Proof.
  intros Hinv Hc Hinfo. destruct (mdb_chain_at _ _ Hinv _ _ _ _ _ eq_refl) as (Hd & Hnd & Hl).
  assert (slot ∈ concat (L ++ (l1 ++ slot :: l2) :: L')) as Hin by (apply concat_middle; set_solver).
  pose proof (mdb_member_nonnull _ _ _ Hinv Hin) as Hs0. pose proof (mi_live _ _ Hinv _ _ Hc Hin) as Hlive.
  destruct (mdb_neighbours _ _ _ _ _ Hinv Hl) as [Hp Hn]. destruct c as [k [n r f p]].
  assert (p = final NULL l1 ∧ n = first NULL l2) as [-> ->].
  { unfold mdb_links in Hl. rewrite Hc in Hl. by injection Hl. }
  set (p := final NULL l1) in *. set (n := first NULL l2) in *.
  assert (slot ≠ p ∧ slot ≠ n) as [Hsp Hsn] by (split; intros E; rewrite <-E in *; naive_solver).
  apply (wp_unit (emptySlot slot info) (λ _ s', mdb_inv s' _ ∧ _)).
  apply wp_bind. eapply wp_get_cte; [done|]. apply wp_when; simpl; [intros _|by destruct k].
  apply wp_bind, wp_upd_mdb; [naive_solver|].
  apply wp_bind, wp_upd_mdb; [intros Hz; simpl; rewrite upd_mdb_is_Some; naive_solver|].
  apply wp_bind, wp_upd_mdb; [intros Hz; simpl; rewrite !upd_mdb_is_Some; naive_solver|]. simpl.
  apply wp_bind. eapply (wp_mod_cte _ _ (Cte k (mdb_node_new n r f p))); simpl.
  { by rewrite !upd_mdb_other by done. }
  apply wp_bind. eapply wp_mod_cte; [by simplify_map_eq|]. simpl.
  assert (postCapDeletion info = mret ()) as ->.
  { unfold postCapDeletion. destruct info; try done. by edestruct Hinfo. }
  apply wp_ret. match goal with |- mdb_inv (set_ctes ?h _) _ ∧ _ => set (h6 := h) end.
  assert (h6 !! NULL = None) as Hh0.
  { unfold h6. by rewrite !lookup_insert_ne, !upd_mdb_null, (mi_null _ _ Hinv) by done. }
  assert (∀ y, y ≠ slot → y ≠ NULL → h6 !! y = (λ c, let c := node_map (redirect y p n) (redirect y n p) c in
     set_cteMDBNode (set_mdbFirstBadged (redirect_flag y n f (mdbFirstBadged (cteMDBNode c))) (cteMDBNode c)) c)
     <$> ctes s !! y) as Hh.
  { intros y Hy Hy0. unfold h6. rewrite !lookup_insert_ne, lookup_upd_mdb, lookup_upd_prev, lookup_upd_next by done.
    destruct (ctes s !! y) as [[ky [ny ry fy py]]|]; [|by case_decide]. unfold redirect_flag. by case_decide. }
  assert (h6 !! slot = Some (Cte cap_null_cap nullMDBNode)) as Hhs by (unfold h6; by rewrite lookup_insert_eq).
  clearbody h6. assert (∀ x, x ≠ slot → cap_at (set_ctes h6 s) x = cap_at s x) as Hcap.
  { intros x Hx. unfold cap_at; simpl. destruct (decide (x = NULL)) as [->|]; [by rewrite Hh0, (mi_null _ _ Hinv)|].
    rewrite Hh by done. by destruct (ctes s !! x). }
  split_and!; try done; simpl.
  - apply (mdb_inv_remove s _ _ _ slot _ _ Hinv); simpl; try done.
    + intros y Hy Hy0. unfold mdb_links; simpl. rewrite Hh by done. by destruct (ctes s !! y).
    + intros y Hy. destruct (decide (y = NULL)) as [->|]; [by rewrite Hh0, (mi_null _ _ Hinv)|].
      assert (y ≠ p ∧ y ≠ n) as [??].
      { unfold p, n. destruct l2; destruct l1 as [|? ? _] using rev_ind; rewrite ?final_snoc in *; set_solver. }
      rewrite Hh by set_solver. destruct (ctes s !! y) as [[? []]|]; [|done]; simpl.
      unfold node_map, redirect, redirect_flag; simpl. by rewrite !decide_False by done.
  - intros cn Hl2 Hcn. assert (n ≠ NULL) as Hn0 by (intros E; by rewrite E, (mi_null _ _ Hinv) in Hcn).
    rewrite Hh, Hcn by done. eexists; split; [done|]. simpl. unfold redirect_flag. by rewrite decide_True.
Qed.
End deletion.

(** ** The example state *)
#[local] Existing Instance example_platform.

Lemma emptySlot_witness : ∃ s', emptySlot (slot1 2) cap_null_cap ex_state = Done () s' ∧
  mdb_inv s' [[slotA; slot1 1; slot1 3; slot2 0]] ∧
  ctes s' !! slot1 2 = Some (Cte cap_null_cap nullMDBNode) ∧
  (∀ x, x ≠ slot1 2 → cap_at s' x = cap_at ex_state x) ∧
  (∀ cn, [slot1 3; slot2 0] ≠ [] → ctes ex_state !! slot1 3 = Some cn → ∃ cn', ctes s' !! slot1 3 = Some cn' ∧
     mdbFirstBadged (cteMDBNode cn') = mdbFirstBadged (cteMDBNode cn) || true) ∧ s' = set_ctes (ctes s') ex_state.
Proof.
  apply (emptySlot_ok ex_state (slot1 2) cap_null_cap [] [slotA; slot1 1] [slot1 3; slot2 0] []
    (Cte (cap_endpoint_cap 0 true true true true ep1) (mdb_node_new (slot1 3) true true (slot1 1)))); [apply ex_mdb_inv|done|done].
Defined.
