(* ===== verification/CapSpec.v ===== *)
(** * Capabilities: derivation never adds authority

    [subcap c' c]: [c'] confers no more authority than [c]: it refers to the same
    object, with a subset of the rights, and has the badge of [c] unless [c] had
    none. Every capability that the kernel derives from another one, by masking
    rights, by setting a badge or guard, or by [deriveCap], is below it. *)
From S2P Require Import Prelude Words Platform State Keeps RefillList Sporadic Budget DList Queues CapOps CSpace VSpace Thread CNode Message SchedContext Reply Notification Endpoint Delete CNodeInv Frames Example Machine MdbSpec.

Definition vm_rights_le (r' r : Z) : Prop :=
  r' = r ∨ r' = VMKernelOnly ∨ (r' = VMReadOnly ∧ r = VMReadWrite).
Definition badge_le (b' b : Z) : Prop := b' = b ∨ b = 0.
Definition implb' (a b : bool) : Prop := a = true → b = true.

Definition subcap (c' c : cap) : Prop :=
  c' = cap_null_cap ∨
  match c', c with
  | cap_untyped_cap f' d' b' p', cap_untyped_cap f d b p =>
    d' = d ∧ b' = b ∧ p' = p ∧ (f' = f ∨ f' = MAX_FREE_INDEX b)
  | cap_endpoint_cap b' gr' g' s' r' p', cap_endpoint_cap b gr g s r p =>
    p' = p ∧ badge_le b' b ∧ implb' gr' gr ∧ implb' g' g ∧ implb' s' s ∧ implb' r' r
  | cap_notification_cap b' r' s' p', cap_notification_cap b r s p =>
    p' = p ∧ badge_le b' b ∧ implb' r' r ∧ implb' s' s
  | cap_reply_cap p' g', cap_reply_cap p g => p' = p ∧ implb' g' g
  | cap_cnode_cap radix' _ _ p', cap_cnode_cap radix _ _ p => radix' = radix ∧ p' = p
  | cap_frame_cap _ b' sz' vr' d' _, cap_frame_cap _ b sz vr d _ =>
    b' = b ∧ sz' = sz ∧ d' = d ∧ vm_rights_le vr' vr
  | _, _ => c' = c
  end.

#[global] Instance subcap_preorder : PreOrder subcap.
Proof.
  split.
  - intros []; right; unfold badge_le, implb', vm_rights_le; naive_solver.
  - intros c1 c2 c3 [->|H1] H2; [by left|]. destruct H2 as [->|H2].
    + left. by destruct c1.
    + destruct c1, c2; try done; destruct c3; try done; right; simplify_eq/=; try done;
        unfold badge_le, implb', vm_rights_le in *; naive_solver.
Qed.

Lemma maskCapRights_sub rights c : subcap (maskCapRights rights c) c.
Proof.
  destruct c; try exact (reflexivity (R := subcap) _); right; simpl; unfold badge_le, implb'.
  - split_and!; try done; try (by left); intros [? _]%andb_prop; done.
  - split_and!; try done; try (by left); intros [? _]%andb_prop; done.
  - split; [done|]. by intros [? _]%andb_prop.
  - split_and!; try done. unfold vm_rights_le, maskVMRights.
    destruct (Z.eqb_spec capFVMRights VMReadOnly) as [->|]; simpl;
      [|destruct (Z.eqb_spec capFVMRights VMReadWrite) as [->|]; simpl];
      repeat case_match; tauto.
Qed.

Lemma updateCapData_sub preserve data c : subcap (updateCapData preserve data c) c.
Proof.
  unfold updateCapData, Arch_updateCapData. destruct (isArchCap c) eqn:Ha; [done|].
  destruct c; try done; try exact (reflexivity (R := subcap) _); simpl; repeat case_match; try (by left); right; simpl.
  - apply andb_prop in H as [_ ->%Z.eqb_eq]. unfold badge_le, implb'. tauto.
  - apply andb_prop in H as [_ ->%Z.eqb_eq]. unfold badge_le, implb'. tauto.
  - done.
Qed.

Lemma deriveCap_sub slot c s : wlp (deriveCap slot c) (λ '(_, c') _, subcap c' c) s.
Proof.
  unfold deriveCap, Arch_deriveCap.
  destruct c; try done; try exact (reflexivity (R := subcap) _); try (by left); simpl.
  - apply wlp_bind, wlp_trivial. intros e s'. destruct (status_ok e); [apply (reflexivity (R := subcap))|by left].
  - destruct capPTIsMapped; [apply (reflexivity (R := subcap))|by left].
Qed.

(** ** Authority is confined

    [below s0 c]: some slot of the state [s0] holds a capability of at least the
    authority of [c]. *)
Definition below (s0 : kstate) (c : cap) : Prop :=
  c = cap_null_cap ∨ ∃ x c0, cap_at s0 x = Some c0 ∧ subcap c c0.
Definition confined (s0 s : kstate) : Prop := map_Forall (λ _ c, below s0 (cte_cap c)) (ctes s).

Lemma below_sub s0 c c' : subcap c' c → below s0 c → below s0 c'.
Proof.
  intros Hs [->|(x & c0 & Hx & Hc)].
  - left. destruct Hs as [->|Hs]; [done|]. by destruct c'.
  - right. exists x, c0. split; [done|]. by trans c.
Qed.
Lemma confined_refl s : confined s s.
Proof. intros x c Hc. right. exists x, (cte_cap c). unfold cap_at. by rewrite Hc. Qed.

Section confined.
Context (s0 : kstate).

#[global] Instance confined_err : ErrFrame (confined s0).
Proof. by split. Qed.
#[global] Instance confined_run : RunFrame (confined s0).
Proof. by split. Qed.

Lemma confined_get_cte p : keeps (confined s0) (get_cte p) (λ c, below s0 (cte_cap c)).
Proof. eapply keeps_conseq; [keep_call|]. intros c (s & HI & Hc). by apply (HI p). Qed.
Lemma confined_mod_cte p f : (∀ c, below s0 (cte_cap c) → below s0 (cte_cap (f c))) → kept (confined s0) (mod_cte p f).
Proof.
  intros Hf. eapply keeps_bind; [apply confined_get_cte|]. intros c Hc. apply keeps_modify. intros s HI.
  apply map_Forall_insert_2; [by apply Hf|done].
Qed.
End confined.
#[local] Hint Resolve confined_get_cte : keeps.
#[local] Hint Extern 1 (keeps (confined _) (mod_cte _ _) _) => (apply confined_mod_cte; by intros) : keeps.

Lemma full_cap_sub c c' : subcap (full_cap c c') c.
Proof.
  unfold full_cap. destruct c; try reflexivity. destruct c'; try reflexivity. case_match; [|reflexivity].
  right. split_and!; try done. by right.
Qed.

Section transfer.
Context (s0 : kstate).

Lemma confined_mod_mdb p f : kept (confined s0) (mod_mdb p f).
Proof. by apply confined_mod_cte. Qed.
Lemma confined_set_cap p c : below s0 c → kept (confined s0) (mod_cte p (set_cte_cap c)).
Proof. intros Hc. by apply confined_mod_cte. Qed.
#[local] Hint Resolve confined_mod_mdb confined_set_cap : keeps.

Lemma confined_cteInsert newCap src dest : below s0 newCap → kept (confined s0) (cteInsert newCap src dest).
Proof.
  intros Hnew. apply keeps_intro. intros s HI. unfold cteInsert.
  apply wlp_get_cte_bind. intros c Hc. apply wlp_bind. unfold wlp at 1, lift.
  destruct (isCapRevocable newCap (cte_cap c)) as [b|]; [|done].
  apply wlp_get_cte_bind. intros d Hd. do 2 (apply wlp_assert_bind; intros _).
  apply wlp_bind, wp_wlp, wp_setUntypedCapAsFull; [done|].
  match goal with |- wlp ?m _ ?s1 => assert (confined s0 s1) as HI1; [|assert (kept (confined s0) m) as Hm] end.
  - apply map_Forall_insert_2; [|done]. simpl. eapply below_sub; [apply full_cap_sub|by apply (HI src)].
  - keep.
  - by apply keeps_wlp.
Qed.
Lemma confined_cteMove newCap src dest : below s0 newCap → kept (confined s0) (cteMove newCap src dest).
Proof. intros Hnew. unfold cteMove. keep. apply confined_mod_cte. intros c _. by left. Qed.
Lemma confined_cteSwap cap1 slot1 cap2 slot2 :
  below s0 cap1 → below s0 cap2 → kept (confined s0) (cteSwap cap1 slot1 cap2 slot2).
Proof. intros H1 H2. unfold cteSwap. keep. Qed.
Lemma confined_deriveCap slot c : below s0 c → keeps (confined s0) (deriveCap slot c) (λ r, below s0 r.2).
Proof.
  intros Hc. apply keeps_intro. intros s HI. eapply wlp_mono.
  - apply wlp_and; [apply (deriveCap_sub slot c)|apply (keeps_wlp (confined s0) _ (λ _, True)); [|done]].
    unfold deriveCap, Arch_deriveCap. keep.
  - intros [e c'] s' [Hs [HI' _]]. split; [done|]. by eapply below_sub.
Qed.
End transfer.
#[local] Hint Resolve confined_mod_mdb confined_cteInsert confined_cteMove confined_cteSwap confined_deriveCap : keeps.
#[local] Hint Extern 3 (below _ (maskCapRights _ _)) => eapply below_sub; [apply maskCapRights_sub|] : keeps.
#[local] Hint Extern 3 (below _ (updateCapData _ _ _)) => eapply below_sub; [apply updateCapData_sub|] : keeps.

Section cnode.
Context `{Platform} (s0 : kstate).

(** The capability that Copy, Mint, Move and Mutate install. *)
Lemma confined_newCap lbl len slot b :
  keeps (confined s0) (decodeCNode_newCap lbl len slot b) (λ r, match r with inr (c, _) => below s0 c | inl _ => True end).
Proof.
  unfold decodeCNode_newCap. eapply keeps_bind; [keep_call|]. intros c Hc. keep.
  - by destruct (status_ok e).
  - by destruct (status_ok e).
  - by eapply below_sub; [apply updateCapData_sub|].
Qed.
#[local] Hint Resolve confined_newCap : keeps.

Lemma confined_transfer lbl len dest b : kept (confined s0) (decodeCNode_transfer lbl len dest b).
Proof. unfold decodeCNode_transfer, excap, missing_capability_ret, invokeCNodeMove, invokeCNodeInsert. keep. Qed.
Lemma confined_rotate len dest b : kept (confined s0) (decodeCNode_rotate len dest b).
Proof. unfold decodeCNode_rotate, excap, missing_capability_ret, invokeCNodeRotate. keep. Qed.

Lemma confined_cnode_ops lbl len c b :
  CNodeCopy ≤ lbl ≤ CNodeMutate ∨ lbl = CNodeRotate → kept (confined s0) (decodeCNodeInvocation lbl len c b).
Proof.
  pose proof confined_transfer as Ht. pose proof confined_rotate as Hr.
  intros Hlbl. unfold decodeCNodeInvocation. keep; try done; exfalso;
    repeat match goal with H : _ = true |- _ => apply Z.eqb_eq in H || apply andb_prop in H as [?%Z.leb_le ?%Z.leb_le]
      | H : (_ && _) = false |- _ => apply andb_false_iff in H as [?%Z.leb_gt|?%Z.leb_gt] end;
    unfold CNodeCopy, CNodeMutate, CNodeRotate, CNodeRevoke, CNodeDelete, CNodeCancelBadgedSends in *; lia.
Qed.
End cnode.

(** C13: Copying, minting, moving, mutating and rotating capabilities in CNodes never
    adds authority: whatever the arguments, every capability in any slot
    afterwards is one of a slot before, with at most its rights, and with its
    badge unless it had none. *)
Theorem cnode_ops_confined `{Platform} invLabel length c buffer s r s' :
  CNodeCopy ≤ invLabel ≤ CNodeMutate ∨ invLabel = CNodeRotate →
  decodeCNodeInvocation invLabel length c buffer s = Done r s' →
  ∀ x c', cap_at s' x = Some c' → c' = cap_null_cap ∨ ∃ y c0, cap_at s y = Some c0 ∧ subcap c' c0.
Proof.
  intros Hlbl Hrun x c' Hc. destruct (keeps_elim (confined s) _ _ _ _ _ (confined_cnode_ops s _ length c buffer Hlbl)
    (confined_refl s) Hrun) as [Hconf _].
  apply fmap_Some in Hc as (e & He & ->). apply (Hconf _ _ He).
Qed.

(** ** The example state: thread [tA] moves the untyped capability of slot 3 to address 6 *)
#[local] Existing Instance example_platform.
Definition ex_move_state : kstate :=
  set_current_extra_caps [slotA; 0; 0] (set_tcbs (alter (set_tcbContext (list_to_map
    [(11, 6); (12, 64); (13, 3); (14, 62)])) tA (tcbs ex_state)) ex_state).
Definition ex_move : outcome kstate exception_t := decodeCNodeInvocation CNodeMove 4 ex_root 0 ex_move_state.

Lemma cnode_ops_confined_witness : match ex_move with
  | Done r s' => r = EXCEPTION_NONE ∧ cap_at s' (slot2 2) = Some (cap_untyped_cap 0 false 12 ut1) ∧
      ∀ x c', cap_at s' x = Some c' → c' = cap_null_cap ∨ ∃ y c0, cap_at ex_move_state y = Some c0 ∧ subcap c' c0
  | Stuck _ => False
  end.
Proof.
  assert (match ex_move with
    | Done r s' => r = EXCEPTION_NONE ∧ cap_at s' (slot2 2) = Some (cap_untyped_cap 0 false 12 ut1)
    | Stuck _ => False end) as Hrun by (vm_compute; split; reflexivity).
  destruct ex_move as [r s'|] eqn:E; [|done]. destruct Hrun as [-> Hslot]. split_and!; [done..|].
  apply (cnode_ops_confined CNodeMove 4 ex_root 0 ex_move_state EXCEPTION_NONE s'); [left; by vm_compute|exact E].
Defined.
