(* ===== verification/LibSel4.v ===== *)
(** * The system call stubs of user level

    [libkerl/libsel4] as user programs see it on this kernel: the stubs of
    [arch_include/riscv/sel4/arch/syscalls.h] (mixed-criticality variants, no debugging
    calls except the console), the message registers of [include/sel4/functions.h] and
    the decoding of faults of [include/sel4/faults.h]. A process is its IPC buffer, its
    global variables, and what it has exchanged with the kernel. The answers of the
    kernel are an arbitrary function of the number of earlier system calls. The
    invocations follow the stubs that [tools/syscall_stub_gen.py] generates. *)
From Stdlib Require Import Strings.String Strings.Ascii.
From S2P Require Import Prelude Words Platform State Message SchedContext Interrupt TcbInv.

(** ** The process and its exchange with the kernel

    One constructor per inline assembly block, with the registers it sets: [a7] holds
    [sys], [a0] the capability, [a1] the tag, [a2] to [a5] the message registers, [a6] the
    reply object and [t0] the second capability. *)
Inductive ecall :=
  | ecall_send (sys dest info_arg : Z) (mrs : list Z)
  | ecall_send_null (sys src info_arg : Z)
  | ecall_recv (sys src reply : Z)
  | ecall_send_recv (sys dest info_arg : Z) (mrs : list Z) (reply : Z)
  | ecall_nbsend_recv (sys dest src info_arg : Z) (mrs : list Z) (reply : Z)
  | ecall_null (sys : Z).

(** What the kernel leaves behind: [a0], [a1], [a2] to [a5], and the words of the message that
    it writes into the IPC buffer, which are those from the fifth on. *)
Record answer := Answer { ans_badge : Z; ans_info : Z; ans_mr : Z → Z; ans_ipc : Z → Z }.
Definition buffer_words (a : answer) : list Z :=
  map (λ i, wrap (ans_ipc a i)) (seqZ n_msgRegisters (seL4_MsgMaxLength - n_msgRegisters)).

(** [ipc_msg] and [ipc_caps] are [msg] and [caps_or_badges] of the IPC buffer; console output
    and system calls are kept latest first. *)
Record proc (G : Type) := Proc {
  ipc_msg : list Z;
  ipc_caps : list Z;
  console : list Z;
  ecalls : list (ecall * answer);
  globals : G;
  env : nat → answer }.
Arguments Proc {G}.
Arguments ipc_msg {G}.
Arguments ipc_caps {G}.
Arguments console {G}.
Arguments ecalls {G}.
Arguments globals {G}.
Arguments env {G}.

Definition set_ipc_msg {G} (v : list Z) (p : proc G) : proc G :=
  Proc v (ipc_caps p) (console p) (ecalls p) (globals p) (env p).
Definition set_ipc_caps {G} (v : list Z) (p : proc G) : proc G :=
  Proc (ipc_msg p) v (console p) (ecalls p) (globals p) (env p).
Definition set_console {G} (v : list Z) (p : proc G) : proc G :=
  Proc (ipc_msg p) (ipc_caps p) v (ecalls p) (globals p) (env p).
Definition set_ecalls {G} (v : list (ecall * answer)) (p : proc G) : proc G :=
  Proc (ipc_msg p) (ipc_caps p) (console p) v (globals p) (env p).
Definition set_globals {G} (v : G) (p : proc G) : proc G :=
  Proc (ipc_msg p) (ipc_caps p) (console p) (ecalls p) v (env p).

(** Whether [CONFIG_PRINTING] is set. *)
Class Printing := CONFIG_PRINTING : bool.

(** ** Characters: an array of [char] with its uninitialised elements *)
Definition carray : Type := list (option Z).
Definition chars (s : string) : list Z := map (λ c, Z.of_nat (nat_of_ascii c)) (list_ascii_of_string s).
(** A string literal. *)
Definition lit (s : string) : carray := map Some (chars s) ++ [Some 0].
(** One that ends in a newline. *)
Definition line (s : string) : carray := map Some (chars s) ++ [Some 10; Some 0].
(** The elements before the first NUL. *)
Fixpoint c_string (a : carray) : option (list Z) :=
  match a with
  | [] | None :: _ => None
  | Some c :: a' => if c =? 0 then Some [] else (c ::.) <$> c_string a'
  end.

Section stubs.
Context {G : Type}.
#[local] Abbreviation U := (M (proc G)).

Definition ecall_op (e : ecall) : U answer :=
  p ← get_state;
  let a := env p (length (ecalls p)) in
  modify (set_ecalls ((e, a) :: ecalls p));;
  mret a.

(** A block with a [memory] clobber: the kernel writes the rest of the message into the IPC buffer. *)
Definition ecall_recv_op (e : ecall) : U answer :=
  a ← ecall_op e;
  modify (λ p, set_ipc_msg (take (Z.to_nat n_msgRegisters) (ipc_msg p) ++ buffer_words a) p);;
  mret a.

Definition seL4_GetMR (i : Z) : U Z :=
  p ← get_state;
  if i <? 0 then stuck BadPointer else deref (ipc_msg p !! Z.to_nat i).
Definition seL4_SetMR (i mr : Z) : U unit :=
  _ ← seL4_GetMR i;
  modify (λ p, set_ipc_msg (<[Z.to_nat i := mr]> (ipc_msg p)) p).

Definition seL4_SetCap (i cptr : Z) : U unit :=
  p ← get_state;
  _ ← deref (ipc_caps p !! Z.to_nat i);
  modify (set_ipc_caps (<[Z.to_nat i := cptr]> (ipc_caps p))).

(** [seL4_DebugPutChar]: its argument is a [char]. *)
Definition seL4_DebugPutChar (c : Z) : U unit := modify (λ p, set_console (c mod 2 ^ 8 :: console p) p).

(** ** The assembly blocks *)
Definition riscv_sys_send (sys dest info_arg mr0 mr1 mr2 mr3 : Z) : U unit :=
  _ ← ecall_op (ecall_send sys dest info_arg [mr0; mr1; mr2; mr3]); mret ().
Definition riscv_sys_send_null (sys src info_arg : Z) : U unit :=
  _ ← ecall_op (ecall_send_null sys src info_arg); mret ().
(** Badge, tag and message registers. *)
Definition outputs (a : answer) : Z * Z * list Z :=
  (wrap (ans_badge a), wrap (ans_info a), map (λ i, wrap (ans_mr a i)) [0; 1; 2; 3]).
Definition riscv_sys_recv (sys src reply : Z) : U (Z * Z * list Z) :=
  a ← ecall_recv_op (ecall_recv sys src reply); mret (outputs a).
Definition riscv_sys_null (sys : Z) : U unit := _ ← ecall_op (ecall_null sys); mret ().
Definition riscv_sys_send_recv (sys dest info_arg : Z) (mrs : list Z) (reply : Z) : U (Z * Z * list Z) :=
  a ← ecall_recv_op (ecall_send_recv sys dest info_arg mrs reply); mret (outputs a).
Definition riscv_sys_nbsend_recv (sys dest src info_arg : Z) (mrs : list Z) (reply : Z) : U (Z * Z * list Z) :=
  a ← ecall_recv_op (ecall_nbsend_recv sys dest src info_arg mrs reply); mret (outputs a).

(** ** The stubs

    The numbers are those of [Traps.syscall_number]. A receiving stub
    returns the sender's badge and the tag; a tag is its word. *)
Definition seL4_SysCall : Z := wrap (-1).
Definition seL4_SysReplyRecv : Z := wrap (-2).
Definition seL4_SysNBSendRecv : Z := wrap (-3).
Definition seL4_SysNBSendWait : Z := wrap (-4).
Definition seL4_SysSend : Z := wrap (-5).
Definition seL4_SysNBSend : Z := wrap (-6).
Definition seL4_SysRecv : Z := wrap (-7).
Definition seL4_SysNBRecv : Z := wrap (-8).
Definition seL4_SysWait : Z := wrap (-9).
Definition seL4_SysNBWait : Z := wrap (-10).
Definition seL4_SysYield : Z := wrap (-11).

(** The four message registers out of the IPC buffer and back into it. *)
Definition load_mrs : U (list Z) :=
  msg0 ← seL4_GetMR 0; msg1 ← seL4_GetMR 1; msg2 ← seL4_GetMR 2; msg3 ← seL4_GetMR 3;
  mret [msg0; msg1; msg2; msg3].
Definition store_mrs (out : Z * Z * list Z) : U (Z * Z) :=
  let '(badge, info, msgs) := out in
  seL4_SetMR 0 (nth 0 msgs 0);;
  seL4_SetMR 1 (nth 1 msgs 0);;
  seL4_SetMR 2 (nth 2 msgs 0);;
  seL4_SetMR 3 (nth 3 msgs 0);;
  mret (badge, info).

Definition seL4_Send (dest msgInfo : Z) : U unit :=
  mr0 ← seL4_GetMR 0; mr1 ← seL4_GetMR 1; mr2 ← seL4_GetMR 2; mr3 ← seL4_GetMR 3;
  riscv_sys_send seL4_SysSend dest msgInfo mr0 mr1 mr2 mr3.
Definition seL4_NBSend (dest msgInfo : Z) : U unit :=
  mr0 ← seL4_GetMR 0; mr1 ← seL4_GetMR 1; mr2 ← seL4_GetMR 2; mr3 ← seL4_GetMR 3;
  riscv_sys_send seL4_SysNBSend dest msgInfo mr0 mr1 mr2 mr3.
Definition seL4_Signal (dest : Z) : U unit :=
  riscv_sys_send_null seL4_SysSend dest (seL4_MessageInfo_new 0 0 0 0).
Definition seL4_Recv (src reply : Z) : U (Z * Z) :=
  out ← riscv_sys_recv seL4_SysRecv src reply; store_mrs out.
Definition seL4_NBRecv (src reply : Z) : U (Z * Z) :=
  out ← riscv_sys_recv seL4_SysNBRecv src reply; store_mrs out.
Definition seL4_Wait (src : Z) : U (Z * Z) :=
  out ← riscv_sys_recv seL4_SysWait src 0; store_mrs out.
Definition seL4_NBWait (src : Z) : U (Z * Z) :=
  out ← riscv_sys_recv seL4_SysNBWait src 0; store_mrs out.
Definition seL4_Poll (src : Z) : U (Z * Z) := seL4_NBWait src.
Definition seL4_Call (dest msgInfo : Z) : U Z :=
  mrs ← load_mrs;
  out ← riscv_sys_send_recv seL4_SysCall dest msgInfo mrs 0;
  r ← store_mrs out; mret (r.2).
Definition seL4_ReplyRecv (src msgInfo reply : Z) : U (Z * Z) :=
  mrs ← load_mrs;
  out ← riscv_sys_send_recv seL4_SysReplyRecv src msgInfo mrs reply; store_mrs out.
Definition seL4_NBSendRecv (dest msgInfo src reply : Z) : U (Z * Z) :=
  mrs ← load_mrs;
  out ← riscv_sys_nbsend_recv seL4_SysNBSendRecv dest src msgInfo mrs reply; store_mrs out.
Definition seL4_NBSendWait (dest msgInfo src : Z) : U (Z * Z) :=
  mrs ← load_mrs;
  out ← riscv_sys_nbsend_recv seL4_SysNBSendWait 0 src msgInfo mrs dest; store_mrs out.
Definition seL4_Yield : U unit := riscv_sys_null seL4_SysYield.

(** *** Message registers in variables

    An argument [seL4_Word *mr] is [None] for the null pointer and the value of the variable
    otherwise (the four variables are distinct); the values after the call come back in a
    list of the same shape. *)
Definition msg_arg (msgInfo : Z) (least : Z) (mr : option Z) : Z :=
  match mr with
  | Some v => if least <? seL4_MessageInfo_get_length msgInfo then v else 0
  | None => 0
  end.
(** The sending stubs compare the length with 0 for each of the four. *)
Definition send_args (msgInfo : Z) (mr0 mr1 mr2 mr3 : option Z) : list Z :=
  [msg_arg msgInfo 0 mr0; msg_arg msgInfo 0 mr1; msg_arg msgInfo 0 mr2; msg_arg msgInfo 0 mr3].
Definition call_args (msgInfo : Z) (mr0 mr1 mr2 mr3 : option Z) : list Z :=
  [msg_arg msgInfo 0 mr0; msg_arg msgInfo 1 mr1; msg_arg msgInfo 2 mr2; msg_arg msgInfo 3 mr3].
Definition write_back (mrs : list (option Z)) (out : Z * Z * list Z) : Z * Z * list (option Z) :=
  let '(badge, info, msgs) := out in
  (badge, info, zip_with (λ mr w, match mr with Some _ => Some w | None => None end) mrs msgs).

Definition seL4_SendWithMRs (dest msgInfo : Z) (mr0 mr1 mr2 mr3 : option Z) : U unit :=
  _ ← ecall_op (ecall_send seL4_SysSend dest msgInfo (send_args msgInfo mr0 mr1 mr2 mr3)); mret ().
Definition seL4_NBSendWithMRs (dest msgInfo : Z) (mr0 mr1 mr2 mr3 : option Z) : U unit :=
  _ ← ecall_op (ecall_send seL4_SysNBSend dest msgInfo (send_args msgInfo mr0 mr1 mr2 mr3)); mret ().
Definition seL4_RecvWithMRs (src : Z) (mr0 mr1 mr2 mr3 : option Z) (reply : Z) : U (Z * Z * list (option Z)) :=
  out ← riscv_sys_recv seL4_SysRecv src reply; mret (write_back [mr0; mr1; mr2; mr3] out).
Definition seL4_WaitWithMRs (src : Z) (mr0 mr1 mr2 mr3 : option Z) : U (Z * Z * list (option Z)) :=
  out ← riscv_sys_recv seL4_SysWait src 0; mret (write_back [mr0; mr1; mr2; mr3] out).
Definition seL4_CallWithMRs (dest msgInfo : Z) (mr0 mr1 mr2 mr3 : option Z) : U (Z * Z * list (option Z)) :=
  out ← riscv_sys_send_recv seL4_SysCall dest msgInfo (call_args msgInfo mr0 mr1 mr2 mr3) 0;
  mret (write_back [mr0; mr1; mr2; mr3] out).
Definition seL4_ReplyRecvWithMRs (src msgInfo : Z) (mr0 mr1 mr2 mr3 : option Z) (reply : Z) :
    U (Z * Z * list (option Z)) :=
  out ← riscv_sys_send_recv seL4_SysReplyRecv src msgInfo (call_args msgInfo mr0 mr1 mr2 mr3) reply;
  mret (write_back [mr0; mr1; mr2; mr3] out).
Definition seL4_NBSendRecvWithMRs (dest msgInfo src : Z) (mr0 mr1 mr2 mr3 : option Z) (reply : Z) :
    U (Z * Z * list (option Z)) :=
  out ← riscv_sys_nbsend_recv seL4_SysNBSendRecv dest src msgInfo (call_args msgInfo mr0 mr1 mr2 mr3) reply;
  mret (write_back [mr0; mr1; mr2; mr3] out).
(** The source passes [seL4_SysNBSendRecv] here, with the arguments of [seL4_SysNBSendWait]. *)
Definition seL4_NBSendWaitWithMRs (dest msgInfo src : Z) (mr0 mr1 mr2 mr3 : option Z) :
    U (Z * Z * list (option Z)) :=
  out ← riscv_sys_nbsend_recv seL4_SysNBSendRecv 0 src msgInfo (call_args msgInfo mr0 mr1 mr2 mr3) dest;
  mret (write_back [mr0; mr1; mr2; mr3] out).

(** ** Invocations

    The stubs that [tools/syscall_stub_gen.py] generates from [include/interfaces/] with four
    message registers: the parameters packed into [inputs], the call, and the message
    registers stored in the IPC buffer when the result is an error. *)
Definition generated_stub (service method_id n_caps n_inputs : Z) (inputs : list Z) : U (Z * list Z) :=
  let tag := seL4_MessageInfo_new method_id 0 n_caps n_inputs in
  let mr i := Some (nth i inputs 0) in
  out ← seL4_CallWithMRs service tag (mr 0%nat) (mr 1%nat) (mr 2%nat) (mr 3%nat);
  let '(_, output_tag, mrs) := out in
  let result := seL4_MessageInfo_get_label output_tag in
  let mrs := map (default 0) mrs in
  when (negb (result =? 0))
    (seL4_SetMR 0 (nth 0 mrs 0);;
     seL4_SetMR 1 (nth 1 mrs 0);;
     seL4_SetMR 2 (nth 2 mrs 0);;
     seL4_SetMR 3 (nth 3 mrs 0));;
  mret (result, mrs).

(** [seL4_UserContext] has 32 words: [pc], [ra], [sp], [gp], [s0] to [s11], [a0] to [a7], [t0]
    to [t6], [tp]. *)
Definition n_user_context : Z := 32.
Definition register_flags (b : bool) (arch_flags : Z) : Z :=
  Z.lor (Z.land (Z.b2z b) 1) (Z.shiftl (Z.land arch_flags 0xff) 8).

Definition seL4_IRQHandler_Ack (service : Z) : U Z :=
  r ← generated_stub service IRQAckIRQ 0 0 []; mret (r.1).
Definition seL4_TCB_Suspend (service : Z) : U Z :=
  r ← generated_stub service TCBSuspend 0 0 []; mret (r.1).
Definition seL4_SchedContext_Bind (service cap : Z) : U Z :=
  seL4_SetCap 0 cap;;
  r ← generated_stub service SchedContextBind 1 0 []; mret (r.1).
(** [regs] is the context; all its words are marshalled, those behind the second through the
    IPC buffer. *)
Definition seL4_TCB_WriteRegisters (service : Z) (resume_target : bool) (arch_flags count : Z) (regs : list Z) : U Z :=
  for_range 2 n_user_context (λ i, w ← deref (regs !! Z.to_nat i); seL4_SetMR (i + 2) w);;
  r ← generated_stub service TCBWriteRegisters 0 (2 + n_user_context)
        [register_flags resume_target arch_flags; count; nth 0 regs 0; nth 1 regs 0];
  mret (r.1).
Fixpoint get_mrs (n : nat) (i : Z) : U (list Z) :=
  match n with O => mret [] | S n' => w ← seL4_GetMR i; ws ← get_mrs n' (i + 1); mret (w :: ws) end.
(** On success the context, whose words behind the fourth come out of the IPC buffer. *)
Definition seL4_TCB_ReadRegisters (service : Z) (suspend_source : bool) (arch_flags count : Z) : U (Z * list Z) :=
  r ← generated_stub service TCBReadRegisters 0 2 [register_flags suspend_source arch_flags; count];
  let '(result, mrs) := r in
  if negb (result =? 0) then mret (result, []) else
  rest ← get_mrs (Z.to_nat (n_user_context - 4)) 4;
  mret (result, mrs ++ rest).
End stubs.

(** ** Faults *)
Definition seL4_CapFault_IP : Z := 0.
Definition seL4_CapFault_Addr : Z := 1.
Definition seL4_CapFault_InRecvPhase : Z := 2.
Definition seL4_CapFault_LookupFailureType : Z := 3.
Definition seL4_CapFault_BitsLeft : Z := 4.
Definition seL4_CapFault_DepthMismatch_BitsFound : Z := 5.
Definition seL4_CapFault_GuardMismatch_GuardFound : Z := 5.
Definition seL4_CapFault_GuardMismatch_BitsFound : Z := 6.
Definition seL4_VMFault_IP : Z := 0.
Definition seL4_VMFault_Addr : Z := 1.
Definition seL4_VMFault_PrefetchFault : Z := 2.
Definition seL4_VMFault_FSR : Z := 3.

(** [seL4_Fault_t] as [seL4_getFault] builds it from a message. *)
Inductive user_fault :=
  | user_CapFault (ip addr inRecvPhase lookupFailureType mr4 mr5 mr6 : Z)
  | user_UnknownSyscall (faultIP sp ra a0 a1 a2 a3 a4 a5 a6 number : Z)
  | user_UserException (faultIP sp number code : Z)
  | user_VMFault (ip addr prefetchFault fsr : Z)
  | user_Timeout (data consumed : Z)
  | user_NullFault.

Section faults.
Context {G : Type}.
#[local] Abbreviation U := (M (proc G)).

Definition seL4_getArchFault (tag : Z) : U user_fault :=
  let label := seL4_MessageInfo_get_label tag in
  if label =? 2 then
    ip ← seL4_GetMR 0; sp ← seL4_GetMR 1; ra ← seL4_GetMR 2; a0 ← seL4_GetMR 3; a1 ← seL4_GetMR 4;
    a2 ← seL4_GetMR 5; a3 ← seL4_GetMR 6; a4 ← seL4_GetMR 7; a5 ← seL4_GetMR 8; a6 ← seL4_GetMR 9;
    number ← seL4_GetMR 10;
    mret (user_UnknownSyscall ip sp ra a0 a1 a2 a3 a4 a5 a6 number)
  else if label =? 3 then
    ip ← seL4_GetMR 0; sp ← seL4_GetMR 1; number ← seL4_GetMR 2; code ← seL4_GetMR 3;
    mret (user_UserException ip sp number code)
  else if label =? 6 then
    ip ← seL4_GetMR seL4_VMFault_IP; addr ← seL4_GetMR seL4_VMFault_Addr;
    prefetch ← seL4_GetMR seL4_VMFault_PrefetchFault; fsr ← seL4_GetMR seL4_VMFault_FSR;
    mret (user_VMFault ip addr prefetch fsr)
  else if label =? 5 then
    data ← seL4_GetMR 0; consumed ← seL4_GetMR 1;
    mret (user_Timeout data consumed)
  else mret user_NullFault.

Definition seL4_getFault (tag : Z) : U user_fault :=
  if seL4_MessageInfo_get_label tag =? 1 then
    ip ← seL4_GetMR seL4_CapFault_IP; addr ← seL4_GetMR seL4_CapFault_Addr;
    phase ← seL4_GetMR seL4_CapFault_InRecvPhase; type ← seL4_GetMR seL4_CapFault_LookupFailureType;
    mr4 ← seL4_GetMR seL4_CapFault_BitsLeft; mr5 ← seL4_GetMR seL4_CapFault_GuardMismatch_GuardFound;
    mr6 ← seL4_GetMR seL4_CapFault_GuardMismatch_BitsFound;
    mret (user_CapFault ip addr phase type mr4 mr5 mr6)
  else seL4_getArchFault tag.
End faults.
