(* ===== verification/Microkit.v ===== *)
(** * The Microkit runtime of a protection domain

    [root/libmicrokit]: the interface of [include/microkit.h] (the part without the x86 and
    ARM extensions), the console output of [src/dbg.c] and the event loop of [src/main.c].
    The code of a protection domain is a program over that interface ([app]), with memory of
    its own; the globals of the library are those the Microkit tool patches and the pending
    deferred signal. *)
From Stdlib Require Import Strings.String.
From Stdlib Require Import Strings.String Sorting.Sorted.
From S2P Require Import Prelude Words Platform State Message Interrupt LibSel4.

Definition INPUT_CAP : Z := 1.
Definition REPLY_CAP : Z := 4.
Definition MONITOR_EP : Z := 5.
Definition BASE_OUTPUT_NOTIFICATION_CAP : Z := 10.
Definition BASE_ENDPOINT_CAP : Z := 74.
Definition BASE_IRQ_CAP : Z := 138.
Definition BASE_TCB_CAP : Z := 202.
Definition MICROKIT_MAX_CHANNELS : Z := 62.
Definition MICROKIT_MAX_CHANNEL_ID : Z := MICROKIT_MAX_CHANNELS - 1.
Definition MICROKIT_PD_NAME_LENGTH : Z := 64.
Definition PD_MASK : Z := 0xff.
Definition CHANNEL_MASK : Z := 0x3f.

(** [unsigned int] arithmetic. *)
Definition u32 (x : Z) : Z := x mod 2 ^ 32.

(** The globals of the library; [user_memory] is the memory of the domain's own code. *)
Record pd (Um : Type) := Pd {
  microkit_passive : bool;
  microkit_name : carray;
  microkit_have_signal : bool;
  microkit_signal_cap : Z;
  microkit_signal_msg : Z;
  microkit_irqs : Z;
  microkit_notifications : Z;
  microkit_pps : Z;
  user_memory : Um }.
Arguments Pd {Um}.
Arguments microkit_passive {Um}.
Arguments microkit_name {Um}.
Arguments microkit_have_signal {Um}.
Arguments microkit_signal_cap {Um}.
Arguments microkit_signal_msg {Um}.
Arguments microkit_irqs {Um}.
Arguments microkit_notifications {Um}.
Arguments microkit_pps {Um}.
Arguments user_memory {Um}.

Definition set_signal {Um} (have : bool) (cap msg : Z) (g : pd Um) : pd Um :=
  Pd (microkit_passive g) (microkit_name g) have cap msg (microkit_irqs g) (microkit_notifications g)
    (microkit_pps g) (user_memory g).
Definition clear_signal {Um} (g : pd Um) : pd Um :=
  set_signal false (microkit_signal_cap g) (microkit_signal_msg g) g.
Definition set_user_memory {Um} (m : Um) (g : pd Um) : pd Um :=
  Pd (microkit_passive g) (microkit_name g) (microkit_have_signal g) (microkit_signal_cap g)
    (microkit_signal_msg g) (microkit_irqs g) (microkit_notifications g) (microkit_pps g) m.

(** ** Console output ([dbg.c]) *)
Section dbg.
Context `{Printing} {G : Type}.
#[local] Abbreviation U := (M (proc G)).

Definition microkit_dbg_putc (c : Z) : U unit := when CONFIG_PRINTING (seL4_DebugPutChar c).

(** [a] is the array from the address that [s] points to; reading behind it is an error. *)
Fixpoint microkit_dbg_puts (a : carray) : U unit :=
  match a with
  | [] | None :: _ => stuck BadPointer
  | Some c :: a' => if c =? 0 then mret () else microkit_dbg_putc c;; microkit_dbg_puts a'
  end.

Definition store_char (i c : Z) (tmp : carray) : U carray :=
  if i <? Z.of_nat (length tmp) then mret (<[Z.to_nat i := Some c]> tmp) else stuck BadPointer.

(** The loop both number printers have: the digits of [x] are stored in front of position [i]
    of [tmp], an [unsigned] index that must stay inside the array. *)
Definition put_digits (x : Z) (i : Z) (tmp : carray) : U (Z * carray) :=
  while64 (λ '(x, i, tmp),
    let c := x mod 10 in
    let i := u32 (i - 1) in
    tmp ← store_char i (48 + c) tmp;
    let x := x / 10 in
    mret (if x =? 0 then inr (i, tmp) else inl (x, i, tmp))) (x, i, tmp).
Definition microkit_dbg_put8 (x : Z) : U unit :=
  let tmp := <[3%nat := Some 0]> (replicate 4 None) in
  r ← put_digits x 3 tmp; let '(i, tmp) := r in
  microkit_dbg_puts (drop (Z.to_nat i) tmp).
Definition microkit_dbg_put32 (x : Z) : U unit :=
  let tmp := <[10%nat := Some 0]> (replicate 11 None) in
  r ← put_digits x 10 tmp; let '(i, tmp) := r in
  microkit_dbg_puts (drop (Z.to_nat i) tmp).

(** A store through a pointer into the unmapped first page: the thread faults here. *)
Definition microkit_internal_crash (err : Z) : U unit := stuck BadPointer.
End dbg.

(** ** The interface ([microkit.h]) *)
Section api.
Context `{Printing} {Um : Type}.
#[local] Abbreviation U := (M (proc (pd Um))).

Definition gget {A} (f : pd Um → A) : U A := gets (λ p, f (globals p)).
Definition gmod (f : pd Um → pd Um) : U unit := modify (λ p, set_globals (f (globals p)) p).

(** [ch > MICROKIT_MAX_CHANNEL_ID || (mask & (1ULL << ch)) == 0] *)
Definition invalid_channel (mask ch : Z) : bool :=
  (MICROKIT_MAX_CHANNEL_ID <? ch) || (Z.land mask (BIT ch) =? 0).
Definition report_channel (msg : string) (ch : Z) : U unit :=
  name ← gget microkit_name;
  microkit_dbg_puts name;;
  microkit_dbg_puts (lit msg);;
  microkit_dbg_put32 ch;;
  microkit_dbg_puts (line "'").

Definition microkit_notify (ch : Z) : U unit :=
  mask ← gget microkit_notifications;
  if invalid_channel mask ch then report_channel " microkit_notify: invalid channel given '" ch
  else seL4_Signal (u32 (BASE_OUTPUT_NOTIFICATION_CAP + ch)).
Definition microkit_irq_ack (ch : Z) : U unit :=
  mask ← gget microkit_irqs;
  if invalid_channel mask ch then report_channel " microkit_irq_ack: invalid channel given '" ch
  else _ ← seL4_IRQHandler_Ack (u32 (BASE_IRQ_CAP + ch)); mret ().
Definition microkit_pd_restart (child entry_point : Z) : U unit :=
  let ctxt := entry_point :: replicate (Z.to_nat (n_user_context - 1)) 0 in
  err ← seL4_TCB_WriteRegisters (u32 (BASE_TCB_CAP + child)) true 0 1 ctxt;
  when (negb (err =? 0))
    (microkit_dbg_puts (line "microkit_pd_restart: error writing TCB registers");;
     microkit_internal_crash err).
Definition microkit_pd_stop (child : Z) : U unit :=
  err ← seL4_TCB_Suspend (u32 (BASE_TCB_CAP + child));
  when (negb (err =? 0))
    (microkit_dbg_puts (line "microkit_pd_stop: error writing TCB registers");;
     microkit_internal_crash err).
Definition microkit_ppcall (ch msginfo : Z) : U Z :=
  mask ← gget microkit_pps;
  if invalid_channel mask ch then
    report_channel " microkit_ppcall: invalid channel given '" ch;;
    mret (seL4_MessageInfo_new 0 0 0 0)
  else seL4_Call (u32 (BASE_ENDPOINT_CAP + ch)) msginfo.
Definition microkit_msginfo_new (label count : Z) : Z := seL4_MessageInfo_new label 0 0 count.
Definition microkit_msginfo_get_label (msginfo : Z) : Z := seL4_MessageInfo_get_label msginfo.
Definition microkit_msginfo_get_count (msginfo : Z) : Z := seL4_MessageInfo_get_length msginfo.
(** [mr] is a [seL4_Uint8]. *)
Definition microkit_mr_set (mr value : Z) : U unit := seL4_SetMR (mr mod 2 ^ 8) (wrap value).
Definition microkit_mr_get (mr : Z) : U Z := seL4_GetMR (mr mod 2 ^ 8).
Definition microkit_deferred_notify (ch : Z) : U unit :=
  mask ← gget microkit_notifications;
  if invalid_channel mask ch then report_channel " microkit_deferred_notify: invalid channel given '" ch
  else gmod (set_signal true (u32 (BASE_OUTPUT_NOTIFICATION_CAP + ch)) (seL4_MessageInfo_new 0 0 0 0)).
Definition microkit_deferred_irq_ack (ch : Z) : U unit :=
  mask ← gget microkit_irqs;
  if invalid_channel mask ch then report_channel " microkit_deferred_irq_ack: invalid channel given '" ch
  else gmod (set_signal true (u32 (BASE_IRQ_CAP + ch)) (seL4_MessageInfo_new IRQAckIRQ 0 0 0)).

(** ** The code of a protection domain

    What its entry points may do: call the interface, and read and write their own memory.
    Channels and children are [unsigned int]. *)
Inductive api : Type → Type :=
  | api_notify (ch : Z) : api unit
  | api_irq_ack (ch : Z) : api unit
  | api_ppcall (ch msginfo : Z) : api Z
  | api_deferred_notify (ch : Z) : api unit
  | api_deferred_irq_ack (ch : Z) : api unit
  | api_pd_restart (child entry_point : Z) : api unit
  | api_pd_stop (child : Z) : api unit
  | api_mr_set (mr value : Z) : api unit
  | api_mr_get (mr : Z) : api Z
  | api_dbg_putc (c : Z) : api unit
  | api_dbg_puts (s : carray) : api unit
  | api_dbg_put8 (x : Z) : api unit
  | api_dbg_put32 (x : Z) : api unit
  | api_load : api Um
  | api_store (m : Um) : api unit.
Inductive app (A : Type) : Type :=
  | app_ret (a : A)
  | app_call {R : Type} (op : api R) (k : R → app A).
#[global] Arguments app_ret {A}.
#[global] Arguments app_call {A R}.

Definition run_api {R} (op : api R) : U R :=
  match op with
  | api_notify ch => microkit_notify (u32 ch)
  | api_irq_ack ch => microkit_irq_ack (u32 ch)
  | api_ppcall ch msginfo => microkit_ppcall (u32 ch) (wrap msginfo)
  | api_deferred_notify ch => microkit_deferred_notify (u32 ch)
  | api_deferred_irq_ack ch => microkit_deferred_irq_ack (u32 ch)
  | api_pd_restart child entry_point => microkit_pd_restart (u32 child) (wrap entry_point)
  | api_pd_stop child => microkit_pd_stop (u32 child)
  | api_mr_set mr value => microkit_mr_set mr value
  | api_mr_get mr => microkit_mr_get mr
  | api_dbg_putc c => microkit_dbg_putc c
  | api_dbg_puts s => microkit_dbg_puts s
  | api_dbg_put8 x => microkit_dbg_put8 (x mod 2 ^ 8)
  | api_dbg_put32 x => microkit_dbg_put32 (u32 x)
  | api_load => gget user_memory
  | api_store m => gmod (set_user_memory m)
  end.
Fixpoint run {A} (c : app A) : U A :=
  match c with app_ret a => mret a | app_call op k => r ← run_api op; run (k r) end.

(** The entry points; [protected] and [fault] may be missing. [fault] returns whether to
    reply and the value it stores through [reply_msginfo], if it stores one. *)
Record program := Program {
  init_array : list (app unit);
  init : app unit;
  notified : Z → app unit;
  user_protected : option (Z → Z → app Z);
  user_fault : option (Z → Z → app (bool * option Z)) }.

(** ** The event loop ([main.c]) *)
Section main.
Context (prog : program).

(** The weak definitions of [protected] and [fault]. *)
Definition missing_entry (msg : string) : U unit :=
  name ← gget microkit_name;
  microkit_dbg_puts name;;
  microkit_dbg_puts (line msg);;
  microkit_internal_crash 0.
Definition protected (ch msginfo : Z) : U Z :=
  match user_protected prog with
  | Some f => run (f ch msginfo)
  | None => missing_entry " is missing the 'protected' entry point";; mret (seL4_MessageInfo_new 0 0 0 0)
  end.
Definition fault (child msginfo : Z) : U (bool * option Z) :=
  match user_fault prog with
  | Some f => run (f child msginfo)
  | None => missing_entry " is missing the 'fault' entry point";; mret (false, None)
  end.

Fixpoint run_all (fs : list (app unit)) : U unit :=
  match fs with [] => mret () | f :: fs' => run f;; run_all fs' end.
Definition run_init_funcs : U unit := run_all (init_array prog).

(** [do { if (w & 1) f(idx); w >>= 1; idx++; } while (w != 0)] *)
Definition for_bits (f : Z → U unit) (w : Z) : U unit :=
  while64 (λ '(w, idx),
    when (negb (Z.land w 1 =? 0)) (f idx);;
    let w := Z.shiftr w 1 in
    let idx := u32 (idx + 1) in
    mret (if w =? 0 then inr () else inl (w, idx))) (w, 0).

Definition ack_irqs : U unit := irqs ← gget microkit_irqs; for_bits microkit_irq_ack irqs.

(** The variables of the loop: [have_reply], and [reply_tag] once it has been assigned. *)
Definition loop_vars : Type := bool * option Z.

Definition handler_receive (v : loop_vars) : U (Z * Z) :=
  let '(have_reply, reply_tag) := v in
  if have_reply : bool then
    tag ← deref reply_tag;
    seL4_ReplyRecv INPUT_CAP tag REPLY_CAP
  else
    have ← gget microkit_have_signal;
    if have : bool then
      cap ← gget microkit_signal_cap; msg ← gget microkit_signal_msg;
      r ← seL4_NBSendRecv cap msg INPUT_CAP REPLY_CAP;
      gmod clear_signal;;
      mret r
    else seL4_Recv INPUT_CAP REPLY_CAP.

Definition handler_dispatch (reply_tag : option Z) (badge tag : Z) : U loop_vars :=
  let is_endpoint := Z.shiftr badge 63 in
  let is_fault := Z.land (Z.shiftr badge 62) 1 in
  if negb (is_fault =? 0) then
    r ← fault (Z.land badge PD_MASK) tag;
    let '(reply_to_fault, stored) := r in
    mret (reply_to_fault, match stored with Some _ => stored | None => reply_tag end)
  else if negb (is_endpoint =? 0) then
    reply ← protected (Z.land badge CHANNEL_MASK) tag;
    mret (true, Some reply)
  else
    for_bits (λ idx, run (notified prog idx)) badge;;
    mret (false, reply_tag).

Definition handler_round (v : loop_vars) : U loop_vars :=
  r ← handler_receive v; let '(badge, tag) := r in
  handler_dispatch (snd v) badge tag.

(** [handler_loop] never returns: these are its first [n] rounds. *)
Fixpoint handler_rounds (n : nat) (v : loop_vars) : U loop_vars :=
  match n with O => mret v | S n' => v' ← handler_rounds n' v; handler_round v' end.
Definition handler_loop (n : nat) : U loop_vars := ack_irqs;; handler_rounds n (false, None).

Definition passive_signal : U unit :=
  passive ← gget microkit_passive;
  when passive (gmod (set_signal true MONITOR_EP (seL4_MessageInfo_new 0 0 0 0))).
Definition main (n : nat) : U loop_vars :=
  run_init_funcs;;
  run (init prog);;
  passive_signal;;
  handler_loop n.
End main.
End api.
Arguments api : clear implicits.
Arguments app : clear implicits.
Arguments program : clear implicits.

(** * The loops and the output of the Microkit runtime

    What the loops of [Microkit.v] compute: the walk over the bits of a word, the printing
    of strings and of decimal numbers, and from them the four ways an entry point is
    reached from the badge of a message. *)

(** ** Walking over the bits of a word *)
(** The positions of the set bits, in ascending order. *)
Definition set_bits (w : Z) : list Z := filter (λ i, Z.testbit w i = true) (seqZ 0 64).
Fixpoint for_each {Σ} (f : Z → M Σ unit) (l : list Z) : M Σ unit :=
  match l with [] => mret () | i :: l' => f i ≫= λ _, for_each f l' end.

Lemma elem_of_set_bits w i : i ∈ set_bits w ↔ 0 ≤ i < 64 ∧ Z.testbit w i = true.
Proof. unfold set_bits. rewrite list_elem_of_filter, elem_of_seqZ. naive_solver lia. Qed.
Lemma set_bits_sorted w : StronglySorted Z.lt (set_bits w).
Proof.
  unfold set_bits. generalize (0 : Z) as lo. change (64 : Z) with (Z.of_nat 64). generalize 64%nat as n.
  intros n. induction n as [|n IH]; intros lo; [constructor|].
  rewrite seqZ_cons by lia. rewrite filter_cons.
  replace (Z.pred (Z.of_nat (S n))) with (Z.of_nat n) by lia.
  case_decide; [|by apply IH]. constructor; [by apply IH|].
  apply Forall_forall. intros i [_ Hi]%list_elem_of_filter. apply elem_of_seqZ in Hi. lia.
Qed.
Lemma land_1_testbit w : (Z.land w 1 =? 0) = negb (Z.testbit w 0).
Proof.
  rewrite Z.bit0_odd. change 1 with (Z.ones 1). rewrite Z.land_ones, Zmod_odd by lia. by destruct (Z.odd w).
Qed.

(** The bits of a word whose position [0] stands for [idx]. *)
Definition bits_from (w idx : Z) : list Z :=
  filter (λ i, Z.testbit w (i - idx) = true) (seqZ idx (64 - idx)).
Lemma filter_ext_in {A} (P Q : A → Prop) `{∀ x, Decision (P x)} `{∀ x, Decision (Q x)} (l : list A) :
  (∀ x, x ∈ l → P x ↔ Q x) → filter P l = filter Q l.
Proof.
  induction l as [|x l IH]; intros Hl; [done|]. rewrite !filter_cons.
  rewrite IH by (intros; apply Hl; by apply list_elem_of_further).
  assert (P x ↔ Q x) as Hx by (apply Hl; apply list_elem_of_here). repeat case_decide; tauto.
Qed.
Lemma bits_from_step w idx : 0 ≤ idx < 64 →
  bits_from w idx = (if Z.testbit w 0 then [idx] else []) ++ bits_from (Z.shiftr w 1) (idx + 1).
Proof.
  intros Hi. unfold bits_from. rewrite seqZ_cons by lia. rewrite filter_cons, Z.sub_diag.
  replace (Z.succ idx) with (idx + 1) by lia. replace (Z.pred (64 - idx)) with (64 - (idx + 1)) by lia.
  assert (filter (λ i, Z.testbit w (i - idx) = true) (seqZ (idx + 1) (64 - (idx + 1))) =
          filter (λ i, Z.testbit (Z.shiftr w 1) (i - (idx + 1)) = true) (seqZ (idx + 1) (64 - (idx + 1)))) as ->.
  { apply filter_ext_in. intros i Hin%elem_of_seqZ. rewrite Z.shiftr_spec by lia.
    by replace (i - (idx + 1) + 1) with (i - idx) by lia. }
  case_decide as Hb; [by rewrite Hb|]. by destruct (Z.testbit w 0).
Qed.
Lemma bits_from_zero idx : bits_from 0 idx = [].
Proof.
  unfold bits_from. induction (seqZ idx (64 - idx)) as [|i l IH]; [done|]. rewrite filter_cons, Z.bits_0.
  by rewrite decide_False by done.
Qed.

Lemma bits_from_0 w : bits_from w 0 = set_bits w.
Proof.
  unfold bits_from, set_bits. rewrite Z.sub_0_r. apply filter_ext_in. intros i _. by rewrite Z.sub_0_r.
Qed.

Section bits.
Context {Um : Type}.
Lemma for_bits_set_bits (f : Z → M (proc (pd Um)) unit) w s : is_word w → for_bits f w s = for_each f (set_bits w) s.
Proof.
  intros Hw. unfold for_bits.
  pose (J := λ v : Z * Z, 0 ≤ v.2 < 64 ∧ 0 ≤ v.1 < 2 ^ (64 - v.2)).
  rewrite (while64_unfold J (λ v, 64 - v.2) _ (λ v, for_each f (bits_from v.1 v.2))).
  - cbn [fst snd]. by rewrite bits_from_0.
  - clear s w Hw. intros [w idx] s [Hi Hw]; simpl in *. rewrite (bits_from_step w idx) by done.
    rewrite land_1_testbit. unfold u32. rewrite Z.mod_small by lia.
    destruct (Z.testbit w 0); simpl; unfold mbind, M_bind.
    + destruct (f idx s) as [[] s'|]; [|done]. simpl. unfold mret, M_ret.
      destruct (Z.eqb_spec (Z.shiftr w 1) 0) as [->|Hne]; [|done]. by rewrite bits_from_zero.
    + unfold mret, M_ret. destruct (Z.eqb_spec (Z.shiftr w 1) 0) as [->|Hne]; [|done]. by rewrite bits_from_zero.
  - intros [w' idx] s0 [w2 idx2] s2 [Hi Hw']; simpl in *. intros Hb.
    assert (w2 = Z.shiftr w' 1 ∧ idx2 = idx + 1 ∧ Z.shiftr w' 1 ≠ 0) as (-> & -> & Hne).
    { unfold u32 in Hb. rewrite Z.mod_small in Hb by lia. unfold mbind, M_bind in Hb. destruct (when _ _ s0); [|done].
      unfold mret, M_ret in Hb. destruct (Z.eqb_spec (Z.shiftr w' 1) 0); simplify_eq. done. }
    rewrite Z.shiftr_div_pow2 in * by lia. change (2 ^ 1) with 2 in *.
    assert (idx ≠ 63). { intros ->. change (64 - 63) with 1 in Hw'. assert (w' / 2 = 0) by (apply Z.div_small; lia). done. }
    assert (2 ^ (64 - idx) = 2 * 2 ^ (64 - (idx + 1))) as Hp.
    { rewrite <- Z.pow_succ_r by lia. f_equal; lia. }
    unfold J; simpl. split; [split; [lia|]|lia]. split; [apply Z.div_pos; lia|]. apply Z.div_lt_upper_bound; lia.
  - unfold J; simpl. unfold is_word in Hw. split; [lia|exact Hw].
  - simpl. lia.
Qed.
End bits.

(** ** Output *)
(** The effect of printing characters. *)
Definition printed `{Printing} {G} (cs : list Z) (p : proc G) : proc G :=
  if CONFIG_PRINTING then set_console (rev (map (λ c, c mod 2 ^ 8) cs) ++ console p) p else p.

(** The digits of a number in decimal, the most significant first. *)
Fixpoint dec_value (cs : list Z) : Z :=
  match cs with [] => 0 | c :: cs' => (c - 48) * 10 ^ Z.of_nat (length cs') + dec_value cs' end.
Definition decimal_of (x : Z) (cs : list Z) : Prop :=
  Forall (λ c, 48 ≤ c ≤ 57) cs ∧ dec_value cs = x ∧ (cs = [48] ∨ ∃ c cs', cs = c :: cs' ∧ c ≠ 48).

Section output.
Context `{Printing} {G : Type}.
Implicit Types (p : proc G).

Lemma printed_nil p : printed [] p = p.
Proof. unfold printed. destruct CONFIG_PRINTING; [|done]. by destruct p. Qed.
Lemma printed_app cs cs' p : printed (cs ++ cs') p = printed cs' (printed cs p).
Proof.
  unfold printed. destruct CONFIG_PRINTING; [|done]. unfold set_console; simpl.
  by rewrite map_app, rev_app_distr, app_assoc.
Qed.
Lemma microkit_dbg_putc_eq c p : microkit_dbg_putc c p = Done () (printed [c] p).
Proof. unfold microkit_dbg_putc, printed. by destruct CONFIG_PRINTING. Qed.
Lemma microkit_dbg_puts_eq a cs p : c_string a = Some cs → microkit_dbg_puts a p = Done () (printed cs p).
Proof.
  revert cs p. induction a as [|[c|] a IH]; intros cs p Ha; try done. simpl in *.
  destruct (c =? 0); [injection Ha as <-; by rewrite printed_nil|].
  apply fmap_Some in Ha as (cs' & Hcs & ->). unfold mbind, M_bind. rewrite microkit_dbg_putc_eq.
  rewrite (IH cs') by done. by rewrite <- printed_app.
Qed.

Lemma dec_value_digits cs : Forall (λ c, 48 ≤ c ≤ 57) cs → 0 ≤ dec_value cs.
Proof. induction 1 as [|c cs Hc _ IH]; simpl; [lia|]. assert (0 < 10 ^ Z.of_nat (length cs)) by lia. nia. Qed.

(** The loop of the number printers stays inside an array with [i] places for the digits of
    a number below [10^i]. *)
Lemma put_digits_ok x i (tmp : carray) p : 0 ≤ x < 10 ^ i → 1 ≤ i < 2 ^ 32 → i ≤ Z.of_nat (length tmp) →
  ∃ cs, decimal_of x cs ∧ Z.of_nat (length cs) ≤ i ∧
    put_digits x i tmp p = Done (i - Z.of_nat (length cs),
      take (Z.to_nat i - length cs) tmp ++ map Some cs ++ drop (Z.to_nat i) tmp) p.
Proof.
  intros Hx Hi Hlen.
  pose (out := λ cs : list Z, take (Z.to_nat i - length cs) tmp ++ map Some cs ++ drop (Z.to_nat i) tmp).
  assert (∀ cs, Z.of_nat (length cs) ≤ i → length (out cs) = length tmp) as Hout.
  { intros cs Hcs. unfold out. rewrite !length_app, length_take, length_map, length_drop. lia. }
  pose (I := λ (n : Z) (v : Z * Z * carray) p', let '(y, j, t) := v in ∃ cs,
    p' = p ∧ n = j ∧ 1 ≤ j ∧ j = i - Z.of_nat (length cs) ∧ 0 ≤ y < 10 ^ j ∧ (cs = [] ∨ y ≠ 0) ∧
    Forall (λ c, 48 ≤ c ≤ 57) cs ∧ x = y * 10 ^ Z.of_nat (length cs) + dec_value cs ∧ t = out cs).
  assert (wp (put_digits x i tmp) (λ r p', ∃ cs, p' = p ∧ decimal_of x cs ∧ Z.of_nat (length cs) ≤ i ∧
            r = (i - Z.of_nat (length cs), out cs)) p) as Hwp.
  { apply (wp_while64_idx I _ _ i); [|exists []; simpl|lia].
    - clear Hx. intros n [[y j] t] p' Hn (cs & -> & -> & Hj & Hjcs & Hy & Hnz & Hcs & Hx & ->).
      assert (length (out cs) = length tmp) as Hl by (apply Hout; lia).
      cbv beta iota zeta. unfold store_char, u32. rewrite Z.mod_small by lia. rewrite Hl.
      destruct (Z.ltb_spec (j - 1) (Z.of_nat (length tmp))); [|lia].
      assert (<[Z.to_nat (j - 1) := Some (48 + y mod 10)]> (out cs : list (option Z)) =
              out (48 + y mod 10 :: cs)) as Hins.
      { unfold out; simpl. replace (Z.to_nat i - length cs)%nat with (S (Z.to_nat (j - 1))) by lia.
        replace (Z.to_nat i - S (length cs))%nat with (Z.to_nat (j - 1)) by lia.
        destruct (lookup_lt_is_Some_2 tmp (Z.to_nat (j - 1))) as [o Ho]; [lia|].
        rewrite (take_S_r _ _ o) by done. rewrite <- (app_assoc _ [o]).
        rewrite insert_app_r_alt by (rewrite length_take; lia). rewrite length_take.
        by replace (_ - _)%nat with 0%nat by lia. }
      change (@insert _ _ carray) with (@insert nat (option Z) (list (option Z))). rewrite Hins.
      pose proof (Z.mod_pos_bound y 10 ltac:(lia)) as Hmod. pose proof (Z.div_mod y 10 ltac:(lia)) as Hdm.
      assert (Forall (λ c, 48 ≤ c ≤ 57) (48 + y mod 10 :: cs)) by (constructor; [lia|done]).
      assert (x = y / 10 * 10 ^ Z.of_nat (length (48 + y mod 10 :: cs)) + dec_value (48 + y mod 10 :: cs)) as Hx'.
      { cbn [length dec_value]. rewrite Nat2Z.inj_succ, Z.pow_succ_r by lia.
        replace (48 + y mod 10 - 48) with (y mod 10) by lia. rewrite Hx. rewrite Hdm at 1. ring. }
      unfold wp, mbind, M_bind, mret, M_ret. destruct (Z.eqb_spec (y / 10) 0) as [He|He].
      + exists (48 + y mod 10 :: cs). split_and!; [done| |simpl; lia|f_equal; simpl; lia].
        split_and!; [done|rewrite He in Hx'; lia|].
        destruct Hnz as [->|Hnz]; [destruct (decide (y mod 10 = 0)) as [->|]; [by left|]|]; right; do 2 eexists; split; try done; lia.
      + exists (j - 1). split; [lia|]. exists (48 + y mod 10 :: cs). split_and!; try done; simpl length; try lia.
        * destruct (decide (j = 1)) as [->|]; [|lia]. rewrite Z.div_small in He by lia. done.
        * apply Z.div_lt_upper_bound; [lia|]. rewrite <- Z.pow_succ_r by lia. replace (Z.succ (j - 1)) with j by lia. lia.
    - split_and!; try done; try lia; [by left|]. unfold out; simpl. by rewrite Nat.sub_0_r, take_drop. }
  apply wp_done in Hwp as (r & p' & Heq & cs & -> & Hd & Hle & ->). exists cs. by rewrite Heq.
Qed.

Lemma c_string_digits cs : Forall (λ c, 48 ≤ c ≤ 57) cs → c_string (map Some cs ++ [Some 0]) = Some cs.
Proof.
  induction 1 as [|c cs Hc _ IH]; simpl; [done|]. destruct (Z.eqb_spec c 0); [lia|]. by rewrite IH.
Qed.
Lemma put_number_eq x i p : 0 ≤ x < 10 ^ Z.of_nat i → (1 ≤ i ≤ 20)%nat →
  ∃ cs, decimal_of x cs ∧ (length cs ≤ i)%nat ∧
    (put_digits x (Z.of_nat i) (<[i := Some 0]> (replicate (S i) None)) ≫= λ r,
      let '(j, tmp) := r in microkit_dbg_puts (drop (Z.to_nat j) tmp)) p = Done () (printed cs p).
Proof.
  intros Hx Hi.
  assert (<[i := Some 0]> (replicate (S i) None) = replicate i None ++ [Some 0]) as ->.
  { rewrite replicate_S_end, insert_app_r_alt by (rewrite length_replicate; lia).
    by rewrite length_replicate, Nat.sub_diag. }
  destruct (put_digits_ok x (Z.of_nat i) (replicate i None ++ [Some 0]) p) as (cs & Hd & Hle & Heq);
    [done|lia|rewrite length_app, length_replicate; simpl; lia|].
  exists cs. split_and!; [done|lia|]. unfold mbind, M_bind. rewrite Heq.
  apply microkit_dbg_puts_eq. rewrite Nat2Z.id.
  rewrite drop_app_ge by (rewrite length_take; lia). rewrite length_take, length_app, length_replicate. simpl length.
  replace (Z.to_nat (Z.of_nat i - Z.of_nat (length cs)) - _)%nat with 0%nat by lia. rewrite drop_0.
  rewrite drop_app_ge by (rewrite length_replicate; lia). rewrite length_replicate, Nat.sub_diag, drop_0.
  apply c_string_digits, Hd.
Qed.

Lemma put32_eq x p : 0 ≤ x < 2 ^ 32 →
  ∃ cs, decimal_of x cs ∧ (length cs ≤ 10)%nat ∧ microkit_dbg_put32 x p = Done () (printed cs p).
Proof. intros Hx. apply (put_number_eq x 10 p); [change (Z.of_nat 10) with 10; lia|lia]. Qed.
Lemma put8_eq x p : 0 ≤ x < 2 ^ 8 →
  ∃ cs, decimal_of x cs ∧ (length cs ≤ 3)%nat ∧ microkit_dbg_put8 x p = Done () (printed cs p).
Proof. intros Hx. apply (put_number_eq x 3 p); [change (Z.of_nat 3) with 3; lia|lia]. Qed.
End output.
