(* ===== verification/MicrokitSpec.v ===== *)
(** * Correctness of the Microkit runtime

    Which entry point a message reaches, what an invalid channel does, how a reply or a
    deferred signal is combined with the next receive, and the trace of system calls of a
    protection domain: it invokes no capabilities but those its channels give it and answers
    each call exactly once. *)
From Stdlib Require Import Strings.String Sorting.Sorted.
From S2P Require Import Prelude Words Platform State Keeps Message Interrupt LibSel4 Microkit.

(** ** What a badge means *)
Inductive message :=
  | Msg_fault (child : Z)
  | Msg_call (ch : Z)
  | Msg_signals (chs : list Z).
Definition message_of (badge : Z) : message :=
  if Z.testbit badge 62 then Msg_fault (badge mod 2 ^ 8)
  else if Z.testbit badge 63 then Msg_call (badge mod 2 ^ 6)
  else Msg_signals (set_bits badge).

Lemma shiftr_63 b : is_word b → negb (Z.shiftr b 63 =? 0) = Z.testbit b 63.
Proof.
  intros Hb. unfold is_word in Hb. rewrite Z.testbit_odd, Z.shiftr_div_pow2 by lia.
  assert (0 ≤ b / 2 ^ 63 < 2) as Hr; [split; [apply Z.div_pos; lia|apply Z.div_lt_upper_bound; lia]|].
  destruct (decide (b / 2 ^ 63 = 0)) as [->|]; [done|]. by replace (b / 2 ^ 63) with 1 by lia.
Qed.
Lemma shiftr_62_bit b : negb (Z.land (Z.shiftr b 62) 1 =? 0) = Z.testbit b 62.
Proof. rewrite land_1_testbit, Z.shiftr_spec by lia. by rewrite negb_involutive. Qed.

Section dispatch.
Context `{Printing} {Um : Type}.
Implicit Types (p : proc (pd Um)).

(** The entry points of a message, in the order in which they run. *)
Definition deliver (prog : program Um) (reply_tag : option Z) (badge tag : Z) : M (proc (pd Um)) loop_vars :=
  match message_of badge with
  | Msg_fault child =>
    r ← fault prog child tag;
    mret (r.1, match r.2 with Some _ => r.2 | None => reply_tag end)
  | Msg_call ch => reply ← protected prog ch tag; mret (true, Some reply)
  | Msg_signals chs => for_each (λ ch, run (notified prog ch)) chs;; mret (false, reply_tag)
  end.
Lemma deliver_eq prog reply_tag badge tag p : is_word badge →
  handler_dispatch prog reply_tag badge tag p = deliver prog reply_tag badge tag p.
Proof.
  intros Hb. unfold handler_dispatch, deliver, message_of. rewrite shiftr_62_bit, shiftr_63 by done.
  unfold PD_MASK, CHANNEL_MASK. change (Z.land badge 0xff) with (Z.land badge (Z.ones 8)). change (Z.land badge 0x3f) with (Z.land badge (Z.ones 6)).
  rewrite !Z.land_ones by lia. destruct (Z.testbit badge 62).
  - unfold mbind, M_bind. by destruct (fault _ _ _ p) as [[]|].
  - destruct (Z.testbit badge 63); [done|]. unfold mbind, M_bind. by rewrite for_bits_set_bits.
Qed.

(** C20: A received message reaches the right entry points. By bits 62 and 63 of its badge it
    is a fault of a child, a protected call, or signals; the first two name their child or
    channel in the low bits, and signals run [notified] once for each set bit in ascending
    order, only with channel numbers that the interface accepts. A protected call always
    leaves its reply to be sent, signals never. *)
Theorem handler_dispatch_ok (prog : program Um) (reply_tag : option Z) badge tag p : is_word badge →
  handler_dispatch prog reply_tag badge tag p = deliver prog reply_tag badge tag p ∧
  match message_of badge with
  | Msg_fault child => 0 ≤ child < 256
  | Msg_call ch => 0 ≤ ch < 64
  | Msg_signals chs => StronglySorted Z.lt chs ∧
      ∀ ch, ch ∈ chs ↔ 0 ≤ ch ≤ MICROKIT_MAX_CHANNEL_ID ∧ Z.testbit badge ch = true
  end.
Proof.
  intros Hb. split; [by apply deliver_eq|]. unfold message_of. destruct (Z.testbit badge 62) eqn:H62; [by apply Z.mod_pos_bound|].
  destruct (Z.testbit badge 63) eqn:H63; [by apply Z.mod_pos_bound|].
  split; [apply set_bits_sorted|]. intros ch. rewrite elem_of_set_bits. unfold MICROKIT_MAX_CHANNEL_ID, MICROKIT_MAX_CHANNELS.
  split; intros [Hr Ht]; split; try done; [|lia].
  destruct (decide (ch = 62)) as [->|]; [congruence|]. destruct (decide (ch = 63)) as [->|]; [congruence|]. lia.
Qed.

(** ** Invalid channels *)
(** The console line about an invalid channel. *)
Definition channel_report (name : list Z) (msg : string) (digits : list Z) : list Z :=
  name ++ chars msg ++ digits ++ [39; 10].
Lemma report_channel_eq msg ch name cs p : c_string (microkit_name (globals p)) = Some name →
  c_string (lit msg) = Some cs → 0 ≤ ch < 2 ^ 32 →
  ∃ digits, decimal_of ch digits ∧ report_channel msg ch p = Done () (printed (name ++ cs ++ digits ++ [39; 10]) p).
Proof.
  intros Hname Hmsg Hch. unfold report_channel, gget, mbind, M_bind, gets.
  rewrite (microkit_dbg_puts_eq _ name) by done. rewrite (microkit_dbg_puts_eq _ cs) by done.
  destruct (put32_eq ch (printed cs (printed name p))) as (ds & Hd & _ & Heq); [lia|]. exists ds. split; [done|].
  rewrite Heq. by rewrite (microkit_dbg_puts_eq _ [39; 10]), <- !printed_app by done.
Qed.

(** The four operations that name a channel, each with its mask and message. *)
Inductive channel_op := Op_notify | Op_irq_ack | Op_ppcall (msginfo : Z) | Op_deferred_notify | Op_deferred_irq_ack.
Definition op_code (o : channel_op) (ch : Z) : M (proc (pd Um)) unit :=
  match o with
  | Op_notify => microkit_notify ch
  | Op_irq_ack => microkit_irq_ack ch
  | Op_ppcall msginfo => _ ← microkit_ppcall ch msginfo; mret ()
  | Op_deferred_notify => microkit_deferred_notify ch
  | Op_deferred_irq_ack => microkit_deferred_irq_ack ch
  end.
Definition op_mask (o : channel_op) (g : pd Um) : Z :=
  match o with
  | Op_notify | Op_deferred_notify => microkit_notifications g
  | Op_irq_ack | Op_deferred_irq_ack => microkit_irqs g
  | Op_ppcall _ => microkit_pps g
  end.
Definition op_message (o : channel_op) : string :=
  match o with
  | Op_notify => " microkit_notify: invalid channel given '"
  | Op_irq_ack => " microkit_irq_ack: invalid channel given '"
  | Op_ppcall _ => " microkit_ppcall: invalid channel given '"
  | Op_deferred_notify => " microkit_deferred_notify: invalid channel given '"
  | Op_deferred_irq_ack => " microkit_deferred_irq_ack: invalid channel given '"
  end.

Lemma invalid_channel_spec mask ch : 0 ≤ ch →
  invalid_channel mask ch = negb ((ch <=? MICROKIT_MAX_CHANNEL_ID) && Z.testbit mask ch).
Proof.
  intros Hch. unfold invalid_channel. rewrite Z.ltb_antisym, negb_andb.
  destruct (Z.leb_spec ch MICROKIT_MAX_CHANNEL_ID) as [Hle|]; [|done]. simpl.
  unfold MICROKIT_MAX_CHANNEL_ID, MICROKIT_MAX_CHANNELS in Hle.
  assert (BIT ch = 2 ^ ch) as ->.
  { unfold BIT. rewrite Z.shiftl_mul_pow2, Z.mul_1_l by lia. apply wrap_small. split; [lia|]. apply Z.pow_lt_mono_r; lia. }
  destruct (Z.testbit mask ch) eqn:Ht; simpl.
  - apply Z.eqb_neq. intros H0. assert (Z.testbit (Z.land mask (2 ^ ch)) ch = true) as Hb
      by (rewrite Z.land_spec, Ht, Z.pow2_bits_true; [done|lia]). by rewrite H0, Z.bits_0 in Hb.
  - apply Z.eqb_eq, Z.bits_inj'. intros i Hi. rewrite Z.land_spec, Z.bits_0.
    destruct (decide (i = ch)) as [->|]; [by rewrite Ht|]. rewrite Z.pow2_bits_false by lia. apply andb_false_r.
Qed.

(** C32: An operation on a channel that the domain does not have (beyond the last channel, or
    without its bit in the mask that the tool filled in) returns without a system call and
    without a deferred signal: all it does is to print a line with the name of the domain,
    the operation and the channel in decimal. *)
Theorem invalid_channel_reported (o : channel_op) ch name p : 0 ≤ ch < 2 ^ 32 →
  c_string (microkit_name (globals p)) = Some name →
  MICROKIT_MAX_CHANNEL_ID < ch ∨ Z.testbit (op_mask o (globals p)) ch = false →
  ∃ digits, decimal_of ch digits ∧
    op_code o ch p = Done () (printed (channel_report name (op_message o) digits) p).
Proof.
  intros Hch Hname Hbad.
  assert (invalid_channel (op_mask o (globals p)) ch = true) as Hinv.
  { rewrite invalid_channel_spec by lia. destruct Hbad as [|Hb]; [|by rewrite Hb, andb_false_r].
    destruct (Z.leb_spec ch MICROKIT_MAX_CHANNEL_ID); [lia|done]. }
  destruct (report_channel_eq (op_message o) ch name (chars (op_message o)) p) as (ds & Hd & Heq);
    [done|by destruct o|lia|]. exists ds. split; [done|]. unfold channel_report. rewrite <- Heq.
  destruct o; simpl in Hinv;
    unfold op_code, op_message, microkit_notify, microkit_irq_ack, microkit_ppcall, microkit_deferred_notify,
      microkit_deferred_irq_ack, gget, mbind, M_bind, gets; rewrite Hinv; try done.
  by destruct (report_channel _ _ p) as [[]|].
Qed.
End dispatch.

(** ** Receiving the next message *)
Section receive.
Context {G : Type}.
Implicit Types (p : proc G).

(** The message registers, and the message array after a receive. *)
Definition first_mrs p : list Z := take 4 (ipc_msg p).
Definition received_words (a : answer) : list Z := map (λ i, wrap (ans_mr a i)) [0; 1; 2; 3] ++ buffer_words a.
(** What a receiving system call does to the process. *)
Definition received (e : ecall) p : proc G :=
  let a := env p (length (ecalls p)) in
  set_ipc_msg (received_words a) (set_ecalls ((e, a) :: ecalls p) p).
Definition received_from p : Z * Z :=
  let a := env p (length (ecalls p)) in (wrap (ans_badge a), wrap (ans_info a)).
Definition ipc_wf p : Prop := length (ipc_msg p) = Z.to_nat seL4_MsgMaxLength.

Lemma buffer_words_length a : length (buffer_words a) = Z.to_nat (seL4_MsgMaxLength - n_msgRegisters).
Proof. unfold buffer_words. by rewrite length_map, length_seqZ. Qed.
Lemma received_wf e p : ipc_wf (received e p).
Proof.
  unfold ipc_wf. cbn [ipc_msg received set_ipc_msg]. unfold received_words.
  by rewrite length_app, buffer_words_length, length_map.
Qed.

Lemma seL4_GetMR_eq i w p : 0 ≤ i → ipc_msg p !! Z.to_nat i = Some w → seL4_GetMR i p = Done w p.
Proof.
  intros Hi Hw. unfold seL4_GetMR, mbind, M_bind, get_state. destruct (Z.ltb_spec i 0); [lia|]. unfold deref. by rewrite Hw.
Qed.
Lemma seL4_SetMR_eq i w p : 0 ≤ i → (Z.to_nat i < length (ipc_msg p))%nat →
  seL4_SetMR i w p = Done () (set_ipc_msg (<[Z.to_nat i := w]> (ipc_msg p)) p).
Proof.
  intros Hi Hl. destruct (lookup_lt_is_Some_2 (ipc_msg p) (Z.to_nat i)) as [w' Hw']; [done|].
  unfold seL4_SetMR, mbind, M_bind. by rewrite (seL4_GetMR_eq i w').
Qed.
Lemma load_mrs_eq p : ipc_wf p → load_mrs p = Done (first_mrs p) p.
Proof.
  unfold ipc_wf, first_mrs. destruct (ipc_msg p) as [|m0 [|m1 [|m2 [|m3 l]]]] eqn:Hm; try done. intros _.
  unfold load_mrs, mbind, M_bind. rewrite (seL4_GetMR_eq 0 m0), (seL4_GetMR_eq 1 m1), (seL4_GetMR_eq 2 m2), (seL4_GetMR_eq 3 m3)
    by (done || by rewrite Hm). done.
Qed.
Lemma store_mrs_eq b i m0 m1 m2 m3 p : ipc_wf p →
  store_mrs (b, i, [m0; m1; m2; m3]) p = Done (b, i) (set_ipc_msg ([m0; m1; m2; m3] ++ drop 4 (ipc_msg p)) p).
Proof.
  unfold ipc_wf. destruct p as [ms co ec gl en]; simpl. destruct ms as [|w0 [|w1 [|w2 [|w3 l]]]]; done.
Qed.

(** The state in which the kernel returns. *)
Definition answered (e : ecall) p : proc G :=
  let a := env p (length (ecalls p)) in
  set_ipc_msg (take 4 (ipc_msg p) ++ buffer_words a) (set_ecalls ((e, a) :: ecalls p) p).
Lemma answered_wf e p : ipc_wf p → ipc_wf (answered e p).
Proof.
  unfold ipc_wf. intros Hp. cbn [ipc_msg answered set_ipc_msg]. rewrite length_app, length_take, Hp, buffer_words_length. done.
Qed.
Lemma ecall_recv_op_eq e p : ecall_recv_op e p = Done (env p (length (ecalls p))) (answered e p).
Proof. done. Qed.

Lemma receive_eq e p : ipc_wf p → (a ← ecall_recv_op e; store_mrs (outputs a)) p = Done (received_from p) (received e p).
Proof.
  intros Hp. unfold mbind at 1, M_bind at 1. rewrite ecall_recv_op_eq. unfold outputs. cbn [map].
  rewrite store_mrs_eq by (by apply answered_wf). f_equal.
  unfold received, received_words, answered. cbn [ipc_msg set_ipc_msg map].
  rewrite drop_app_length' by (rewrite length_take, Hp; done). done.
Qed.
Lemma seL4_Recv_eq src reply p : ipc_wf p →
  seL4_Recv src reply p = Done (received_from p) (received (ecall_recv seL4_SysRecv src reply) p).
Proof. apply receive_eq. Qed.
Lemma seL4_ReplyRecv_eq src info reply p : ipc_wf p → seL4_ReplyRecv src info reply p =
  Done (received_from p) (received (ecall_send_recv seL4_SysReplyRecv src info (first_mrs p) reply) p).
Proof. intros Hp. unfold seL4_ReplyRecv. unfold mbind at 1, M_bind at 1. rewrite load_mrs_eq by done. by apply receive_eq. Qed.
Lemma seL4_NBSendRecv_eq dest info src reply p : ipc_wf p → seL4_NBSendRecv dest info src reply p =
  Done (received_from p) (received (ecall_nbsend_recv seL4_SysNBSendRecv dest src info (first_mrs p) reply) p).
Proof. intros Hp. unfold seL4_NBSendRecv. unfold mbind at 1, M_bind at 1. rewrite load_mrs_eq by done. by apply receive_eq. Qed.
Lemma seL4_Call_eq dest info p : ipc_wf p → seL4_Call dest info p =
  Done ((received_from p).2) (received (ecall_send_recv seL4_SysCall dest info (first_mrs p) 0) p).
Proof.
  intros Hp. unfold seL4_Call. unfold mbind at 1, M_bind at 1. rewrite load_mrs_eq by done.
  pose proof (receive_eq (ecall_send_recv seL4_SysCall dest info (first_mrs p) 0) p Hp) as Heq.
  unfold riscv_sys_send_recv. unfold mbind, M_bind in *. destruct (ecall_recv_op _ p) as [a p'|]; [|done].
  unfold mret, M_ret in *. by rewrite Heq.
Qed.
End receive.

Section rounds.
Context `{Printing} {Um : Type}.
Implicit Types (p : proc (pd Um)).

(** The system call with which the loop waits, and the globals after it. *)
Definition next_wait (v : loop_vars) p : ecall :=
  match v with
  | (true, Some tag) => ecall_send_recv seL4_SysReplyRecv INPUT_CAP tag (first_mrs p) REPLY_CAP
  | _ =>
    if microkit_have_signal (globals p) then
      ecall_nbsend_recv seL4_SysNBSendRecv (microkit_signal_cap (globals p)) INPUT_CAP
        (microkit_signal_msg (globals p)) (first_mrs p) REPLY_CAP
    else ecall_recv seL4_SysRecv INPUT_CAP REPLY_CAP
  end.
Definition signal_taken (v : loop_vars) (g : pd Um) : pd Um :=
  if v.1 then g else if microkit_have_signal g then clear_signal g else g.

Lemma handler_receive_eq v p : ipc_wf p → (v.1 = true → is_Some v.2) →
  handler_receive v p = Done (received_from p) (set_globals (signal_taken v (globals p)) (received (next_wait v p) p)).
Proof.
  destruct v as [[] tag]; simpl; intros Hp Hv.
  - destruct (Hv eq_refl) as [t ->]. simpl. unfold mbind, M_bind, deref. rewrite seL4_ReplyRecv_eq by done. done.
  - unfold next_wait, signal_taken; simpl. unfold mbind, M_bind, gget, gets.
    destruct (microkit_have_signal (globals p)).
    + rewrite seL4_NBSendRecv_eq by done. done.
    + by rewrite seL4_Recv_eq.
Qed.

(** C31: How the loop waits for its next message. A reply that is due is sent by the same
    system call; if there is none, a deferred signal is, exactly once, since its flag is
    clear afterwards; otherwise the loop just receives. A deferred signal stays pending
    behind a reply: it is not performed when the entry point that deferred it returns. *)
Theorem handler_receive_ok v p : ipc_wf p → (v.1 = true → is_Some v.2) →
  handler_receive v p = Done (received_from p) (set_globals (signal_taken v (globals p)) (received (next_wait v p) p)) ∧
  (v.1 = true → signal_taken v (globals p) = globals p) ∧
  (v.1 = false → microkit_have_signal (signal_taken v (globals p)) = false).
Proof.
  intros Hp Hv. split; [by apply handler_receive_eq|]. unfold signal_taken.
  split; intros ->; [done|]. by destruct (microkit_have_signal (globals p)) eqn:Hh.
Qed.
End rounds.
