(* ===== verification/MicrokitTrace.v ===== *)
(** * What a protection domain asks of the kernel

    An invariant of the trace of system calls of [Microkit.main], for every program over the
    interface and every behaviour of the kernel: which capabilities are invoked, when replies
    are sent, and what the first wait of a passive domain does. *)
From Stdlib Require Import Strings.String.
From S2P Require Import Prelude Words Platform State Keeps Message Interrupt TcbInv LibSel4 Microkit MicrokitSpec.

(** ** Traces, the latest system call first *)
Abbreviation trace := (list (ecall * answer)).

(** Whether a system call waits for a message. *)
Definition receiving (e : ecall) : bool :=
  match e with
  | ecall_recv _ _ _ | ecall_nbsend_recv _ _ _ _ _ _ => true
  | ecall_send_recv sys _ _ _ _ => sys =? seL4_SysReplyRecv
  | _ => false
  end.
(** The badge of the last message received, and the first system call that waits. *)
Fixpoint delivered (t : trace) : option Z :=
  match t with
  | [] => None
  | (e, a) :: t' => if receiving e then Some (wrap (ans_badge a)) else delivered t'
  end.
Fixpoint first_wait (t : trace) : option ecall :=
  match t with
  | [] => None
  | (e, _) :: t' => match first_wait t' with Some e' => Some e' | None => if receiving e then Some e else None end
  end.
(** The last message was a protected call; it was one, or a fault. *)
Definition call_pending (t : trace) : bool :=
  match delivered t with Some b => Z.testbit b 63 && negb (Z.testbit b 62) | None => false end.
Definition may_reply (t : trace) : bool :=
  match delivered t with Some b => Z.testbit b 63 || Z.testbit b 62 | None => false end.

Section rights.
Context {Um : Type} (K : Z → Prop).
Implicit Types (g : pd Um).

(** [cap] is the capability of a channel of [mask] in the block of capabilities at [base]. *)
Definition granted (mask base cap : Z) : Prop :=
  ∃ ch, 0 ≤ ch ≤ MICROKIT_MAX_CHANNEL_ID ∧ Z.testbit mask ch = true ∧ cap = base + ch.
Definition deferred_ok g (cap msg : Z) : Prop :=
  granted (microkit_notifications g) BASE_OUTPUT_NOTIFICATION_CAP cap ∧ msg = seL4_MessageInfo_new 0 0 0 0 ∨
  granted (microkit_irqs g) BASE_IRQ_CAP cap ∧ msg = seL4_MessageInfo_new IRQAckIRQ 0 0 0 ∨
  microkit_passive g = true ∧ cap = MONITOR_EP ∧ msg = seL4_MessageInfo_new 0 0 0 0.
(** The two operations on children, by number. The interface does not check the number, so
    [K] are the children that the code of the domain names. *)
Definition child_call (cap info : Z) : Prop := ∃ child, K child ∧ cap = u32 (BASE_TCB_CAP + child) ∧
  (info = seL4_MessageInfo_new TCBSuspend 0 0 0 ∨
   info = seL4_MessageInfo_new TCBWriteRegisters 0 0 (2 + n_user_context)).
Definition invoke_ok g (cap info : Z) : Prop :=
  granted (microkit_pps g) BASE_ENDPOINT_CAP cap ∨
  granted (microkit_irqs g) BASE_IRQ_CAP cap ∧ info = seL4_MessageInfo_new IRQAckIRQ 0 0 0 ∨
  child_call cap info.
(** A system call that the domain may make after the trace [t]. *)
Definition call_ok g (t : trace) (e : ecall) : Prop :=
  match e with
  | ecall_send_null sys cap info =>
    sys = seL4_SysSend ∧ info = seL4_MessageInfo_new 0 0 0 0 ∧
    granted (microkit_notifications g) BASE_OUTPUT_NOTIFICATION_CAP cap
  | ecall_send_recv sys cap info mrs reply =>
    sys = seL4_SysCall ∧ reply = 0 ∧ invoke_ok g cap info ∨
    sys = seL4_SysReplyRecv ∧ cap = INPUT_CAP ∧ reply = REPLY_CAP ∧ may_reply t = true
  | ecall_nbsend_recv sys cap src info mrs reply =>
    sys = seL4_SysNBSendRecv ∧ src = INPUT_CAP ∧ reply = REPLY_CAP ∧ deferred_ok g cap info ∧ call_pending t = false
  | ecall_recv sys src reply => sys = seL4_SysRecv ∧ src = INPUT_CAP ∧ reply = REPLY_CAP ∧ call_pending t = false
  | _ => False
  end.
Fixpoint trace_ok g (t : trace) : Prop :=
  match t with [] => True | (e, _) :: t' => call_ok g t' e ∧ trace_ok g t' end.

(** The setup of a domain is constant: the tool fills it in. *)
Definition same_setup g g' : Prop :=
  microkit_passive g' = microkit_passive g ∧ microkit_irqs g' = microkit_irqs g ∧
  microkit_notifications g' = microkit_notifications g ∧ microkit_pps g' = microkit_pps g.
Definition signal_ok g g' : Prop :=
  microkit_have_signal g' = true → deferred_ok g (microkit_signal_cap g') (microkit_signal_msg g').

(** The invariant between two waits: [S] holds of the globals, [d] is the badge that is served,
    [w] the first wait. *)
Record pd_inv g (S : pd Um → Prop) (d : option Z) (w : option ecall) (p : proc (pd Um)) : Prop := {
  inv_setup : same_setup g (globals p);
  inv_trace : trace_ok g (ecalls p);
  inv_delivered : delivered (ecalls p) = d;
  inv_first : first_wait (ecalls p) = w;
  inv_globals : S (globals p);
  inv_ipc : ipc_wf p }.
End rights.

Section api.
Context `{Printing} {Um : Type} (K : Z → Prop) (g : pd Um) (S : pd Um → Prop) (d : option Z) (w : option ecall).
#[local] Abbreviation J := (pd_inv K g S d w).

Lemma keeps_console f : kept J (modify (λ p, set_console (f p) p)).
Proof. apply keeps_modify. intros p []. by split. Qed.
Lemma keeps_ipc f : (∀ p, J p → length (f p) = length (ipc_msg p)) → kept J (modify (λ p, set_ipc_msg (f p) p)).
Proof. intros Hf. apply keeps_modify. intros p Hp. pose proof (Hf p Hp) as Hl. destruct Hp. split; try done. by unfold ipc_wf in *; simpl; rewrite Hl. Qed.
Lemma keeps_gget {A} (f : pd Um → A) : keeps J (gget f) (λ a, ∃ g', same_setup g g' ∧ a = f g').
Proof.
  apply keeps_intro. intros p Hp. split; [done|]. exists (globals p). split; [apply Hp|done].
Qed.
Lemma keeps_ecall e : receiving e = false → (∀ t, call_ok K g t e) → kept J (ecall_op e).
Proof.
  intros Hr Hok. apply keeps_intro. intros p [? ? Hd Hw ? ?]. split; [|done]. split; try done; simpl.
  - by rewrite Hr.
  - rewrite Hr, Hw. by destruct w.
Qed.
Lemma keeps_ecall_recv e : receiving e = false → (∀ t, call_ok K g t e) → kept J (ecall_recv_op e).
Proof.
  intros Hr Hok. unfold ecall_recv_op. eapply keeps_bind; [by apply keeps_ecall|]. intros a _.
  eapply keeps_bind; [|intros; by apply keeps_ret]. apply keeps_ipc. intros p Hp.
  rewrite length_app, length_take, buffer_words_length. destruct Hp as [_ _ _ _ _ ->]. done.
Qed.
#[local] Hint Resolve keeps_console keeps_gget : keeps.

Lemma keeps_GetMR i : kept J (seL4_GetMR i).
Proof. unfold seL4_GetMR. keep. Qed.
Lemma keeps_SetMR i x : kept J (seL4_SetMR i x).
Proof.
  unfold seL4_SetMR. eapply keeps_bind; [apply keeps_GetMR|]. intros _ _. apply keeps_ipc. intros. apply length_insert.
Qed.
#[local] Hint Resolve keeps_GetMR keeps_SetMR : keeps.
Lemma keeps_putc c : kept J (microkit_dbg_putc c).
Proof. unfold microkit_dbg_putc, seL4_DebugPutChar. keep. Qed.
#[local] Hint Resolve keeps_putc : keeps.
Lemma keeps_puts a : kept J (microkit_dbg_puts a).
Proof. induction a as [|[c|] a IH]; simpl; keep. Qed.
#[local] Hint Resolve keeps_puts : keeps.
Lemma keeps_digits x i tmp : kept J (put_digits x i tmp).
Proof.
  apply (keeps_while64 J (λ _, True)); [|done]. intros [[y j] t] _. unfold store_char. keep; by case_match.
Qed.
#[local] Hint Resolve keeps_digits : keeps.
Lemma keeps_put8 x : kept J (microkit_dbg_put8 x).
Proof. unfold microkit_dbg_put8. keep. apply keeps_digits. Qed.
Lemma keeps_put32 x : kept J (microkit_dbg_put32 x).
Proof. unfold microkit_dbg_put32. keep. apply keeps_digits. Qed.
#[local] Hint Resolve keeps_put8 keeps_put32 : keeps.
Lemma keeps_report msg ch : kept J (report_channel msg ch).
Proof. unfold report_channel. keep. Qed.
#[local] Hint Resolve keeps_report : keeps.
Lemma keeps_crash err : kept J (microkit_internal_crash err).
Proof. unfold microkit_internal_crash. keep. Qed.
#[local] Hint Resolve keeps_crash : keeps.

Lemma granted_u32 mask base ch : 0 ≤ base < 2 ^ 20 → 0 ≤ ch < 2 ^ 32 → invalid_channel mask ch = false →
  granted mask base (u32 (base + ch)).
Proof.
  intros Hb Hch Hv. rewrite invalid_channel_spec in Hv by lia. apply negb_false_iff, andb_true_iff in Hv as [Hle Ht].
  apply Z.leb_le in Hle. unfold MICROKIT_MAX_CHANNEL_ID, MICROKIT_MAX_CHANNELS in *. exists ch. split_and!; [lia|unfold MICROKIT_MAX_CHANNEL_ID, MICROKIT_MAX_CHANNELS; lia|done|].
  unfold u32. apply Z.mod_small. lia.
Qed.
Lemma u32_range x : 0 ≤ u32 x < 2 ^ 32.
Proof. apply Z.mod_pos_bound. lia. Qed.

Lemma keeps_call service tag mrs : invoke_ok K g service tag →
  kept J (ecall_recv_op (ecall_send_recv seL4_SysCall service tag mrs 0)).
Proof. intros Hok. apply keeps_ecall_recv; [done|]. intros t. by left. Qed.
Lemma keeps_stub service id caps n inputs : invoke_ok K g service (seL4_MessageInfo_new id 0 caps n) →
  kept J (generated_stub service id caps n inputs).
Proof.
  intros Hok. unfold generated_stub, seL4_CallWithMRs, riscv_sys_send_recv.
  eapply (keeps_bind _ _ _ (λ _, True)); [|intros [[] ] _; keep].
  eapply (keeps_bind _ _ _ (λ _, True)); [|intros [[] ] _; by apply keeps_ret].
  eapply (keeps_bind _ _ _ (λ _, True)); [by apply keeps_call|]. intros a _. by apply keeps_ret.
Qed.
Lemma keeps_notify ch : 0 ≤ ch < 2 ^ 32 → kept J (microkit_notify ch).
Proof.
  intros Hch. unfold microkit_notify. eapply keeps_bind; [apply keeps_gget|]. intros mask (g' & Hs & ->).
  destruct (invalid_channel _ ch) eqn:Hv; [apply keeps_report|]. eapply (keeps_bind _ _ _ (λ _, True)); [|intros; by apply keeps_ret].
  apply keeps_ecall; [done|]. intros t. split_and!; [done..|]. destruct Hs as (_ & _ & <- & _).
  by apply granted_u32.
Qed.
Lemma keeps_irq_ack ch : 0 ≤ ch < 2 ^ 32 → kept J (microkit_irq_ack ch).
Proof.
  intros Hch. unfold microkit_irq_ack. eapply keeps_bind; [apply keeps_gget|]. intros mask (g' & Hs & ->).
  destruct (invalid_channel _ ch) eqn:Hv; [apply keeps_report|]. eapply (keeps_bind _ _ _ (λ _, True)); [|intros; by apply keeps_ret].
  unfold seL4_IRQHandler_Ack. eapply keeps_bind; [|intros; by apply keeps_ret].
  apply keeps_stub. right; left. split; [|done]. destruct Hs as (_ & <- & _). by apply granted_u32.
Qed.
Lemma keeps_ppcall ch msginfo : 0 ≤ ch < 2 ^ 32 → kept J (microkit_ppcall ch msginfo).
Proof.
  intros Hch. unfold microkit_ppcall. eapply keeps_bind; [apply keeps_gget|]. intros mask (g' & Hs & ->).
  destruct (invalid_channel _ ch) eqn:Hv; [keep|]. apply keeps_intro. intros p Hp.
  unfold wlp. rewrite seL4_Call_eq by apply Hp. split; [|done].
  destruct Hp as [? ? Hd Hw ? ?]. destruct Hs as (_ & _ & _ & Hpps).
  set (e := ecall_send_recv _ _ _ _ _). assert (receiving e = false) as Hr by done.
  split; try done; cbn -[receiving e]; [|by rewrite Hr, Hw; destruct w].
  split; [|done]. left. split_and!; [done..|]. left. rewrite <- Hpps. by apply granted_u32.
Qed.

(** The operations that change the globals. *)
Context (HS : ∀ g' cap msg, S g' → deferred_ok g cap msg → S (set_signal true cap msg g')).
Context (HSu : ∀ g' m, S g' → S (set_user_memory m g')).
Lemma keeps_signal cap msg : deferred_ok g cap msg → kept J (gmod (set_signal true cap msg)).
Proof. intros Hd. apply keeps_modify. intros p []. split; try done. by apply HS. Qed.
Lemma keeps_user_memory m : kept J (gmod (set_user_memory m)).
Proof. apply keeps_modify. intros p []. split; try done. by apply HSu. Qed.
Lemma keeps_deferred_notify ch : 0 ≤ ch < 2 ^ 32 → kept J (microkit_deferred_notify ch).
Proof.
  intros Hch. unfold microkit_deferred_notify. eapply keeps_bind; [apply keeps_gget|]. intros mask (g' & Hs & ->).
  destruct (invalid_channel _ ch) eqn:Hv; [apply keeps_report|]. apply keeps_signal. left. split; [|done].
  destruct Hs as (_ & _ & <- & _). by apply granted_u32.
Qed.
Lemma keeps_deferred_irq_ack ch : 0 ≤ ch < 2 ^ 32 → kept J (microkit_deferred_irq_ack ch).
Proof.
  intros Hch. unfold microkit_deferred_irq_ack. eapply keeps_bind; [apply keeps_gget|]. intros mask (g' & Hs & ->).
  destruct (invalid_channel _ ch) eqn:Hv; [apply keeps_report|]. apply keeps_signal. right; left. split; [|done].
  destruct Hs as (_ & <- & _). by apply granted_u32.
Qed.
Lemma keeps_pd_restart child pc : K child → kept J (microkit_pd_restart child pc).
Proof.
  intros Hk.
  unfold microkit_pd_restart, seL4_TCB_WriteRegisters. eapply (keeps_bind _ _ _ (λ _, True)); [|intros; keep].
  eapply (keeps_bind _ _ _ (λ _, True)); [keep|]. intros _ _.
  eapply keeps_bind; [apply keeps_stub; right; right; exists child; auto|]. intros. by apply keeps_ret.
Qed.
Lemma keeps_pd_stop child : K child → kept J (microkit_pd_stop child).
Proof.
  intros Hk.
  unfold microkit_pd_stop, seL4_TCB_Suspend. eapply (keeps_bind _ _ _ (λ _, True)); [|intros; keep].
  eapply keeps_bind; [apply keeps_stub; right; right; exists child; auto|]. intros. by apply keeps_ret.
Qed.

(** The code names only children in [K]. *)
Definition child_op {R} (op : api Um R) : Prop :=
  match op with api_pd_restart child _ | api_pd_stop child => K (u32 child) | _ => True end.
Fixpoint names_children {A} (c : app Um A) : Prop :=
  match c with app_ret _ => True | app_call op k => child_op op ∧ ∀ r, names_children (k r) end.
Record program_names (prog : program Um) : Prop := {
  pn_init_array : Forall names_children (init_array prog);
  pn_init : names_children (init prog);
  pn_notified ch : names_children (notified prog ch);
  pn_protected f ch tag : user_protected prog = Some f → names_children (f ch tag);
  pn_fault f child tag : user_fault prog = Some f → names_children (f child tag) }.

Lemma keeps_run_api {R} (op : api Um R) : child_op op → kept J (run_api op).
Proof.
  intros Hop. destruct op; cbn [run_api].
  - apply keeps_notify, u32_range.
  - apply keeps_irq_ack, u32_range.
  - apply keeps_ppcall, u32_range.
  - apply keeps_deferred_notify, u32_range.
  - apply keeps_deferred_irq_ack, u32_range.
  - by apply keeps_pd_restart.
  - by apply keeps_pd_stop.
  - apply keeps_SetMR.
  - apply keeps_GetMR.
  - apply keeps_putc.
  - apply keeps_puts.
  - apply keeps_put8.
  - apply keeps_put32.
  - eapply keeps_conseq; [apply keeps_gget|done].
  - apply keeps_user_memory.
Qed.
Lemma keeps_run {A} (c : app Um A) : names_children c → kept J (run c).
Proof.
  induction c as [a|R op k IH]; simpl; [intros _; by apply keeps_ret|]. intros [Hop Hk].
  eapply keeps_bind; [by apply keeps_run_api|]. intros r _. by apply IH.
Qed.

Context (prog : program Um) (Hprog : program_names prog).
Lemma keeps_missing msg : kept J (missing_entry msg).
Proof. unfold missing_entry. keep. Qed.
Lemma keeps_protected ch tag : kept J (protected prog ch tag).
Proof.
  unfold protected. destruct (user_protected prog) eqn:Hf; [by eapply keeps_run, pn_protected|].
  eapply keeps_bind; [apply keeps_missing|]. intros. by apply keeps_ret.
Qed.
Lemma keeps_fault child tag : kept J (fault prog child tag).
Proof.
  unfold fault. destruct (user_fault prog) eqn:Hf; [by eapply keeps_run, pn_fault|].
  eapply keeps_bind; [apply keeps_missing|]. intros. by apply keeps_ret.
Qed.
Lemma keeps_for_each (f : Z → M (proc (pd Um)) unit) l : (∀ i, kept J (f i)) → kept J (for_each f l).
Proof.
  intros Hf. induction l as [|i l IH]; simpl; [by apply keeps_ret|]. eapply keeps_bind; [apply Hf|]. intros. apply IH.
Qed.
Lemma keeps_run_all fs : Forall names_children fs → kept J (run_all fs).
Proof.
  induction 1 as [|f fs Hf _ IH]; simpl; [by apply keeps_ret|]. eapply keeps_bind; [by apply keeps_run|]. intros. apply IH.
Qed.
End api.

Section loop.
Context `{Printing} {Um : Type} (K : Z → Prop) (g : pd Um) (prog : program Um) (Hprog : program_names K prog).

Lemma signal_ok_deferred g' cap msg : signal_ok g g' → deferred_ok g cap msg → signal_ok g (set_signal true cap msg g').
Proof. by intros _ Hd _. Qed.
Lemma signal_ok_memory g' m : signal_ok g g' → signal_ok g (set_user_memory m g').
Proof. done. Qed.

(** Between two rounds: a reply is due only to a call or a fault, and always to a call. *)
Definition loop_inv (w : option ecall) (v : loop_vars) (p : proc (pd Um)) : Prop :=
  ∃ d, pd_inv K g (signal_ok g) d w p ∧ (v.1 = true → may_reply (ecalls p) = true) ∧
    (call_pending (ecalls p) = true → v.1 = true).

Lemma received_inv e g1 w p : receiving e = true → call_ok K g (ecalls p) e → trace_ok K g (ecalls p) →
  same_setup g g1 → signal_ok g g1 → first_wait (ecalls p) = w →
  pd_inv K g (signal_ok g) (Some (received_from p).1) (Some (default e w)) (set_globals g1 (received e p)).
Proof.
  intros Hr He Ht Hs Hsig Hw. split; try done; cbn -[receiving received_from].
  - by rewrite Hr.
  - rewrite Hw, Hr. by destruct w.
Qed.
Lemma receive_inv w v p : loop_inv w v p →
  wlp (handler_receive v) (λ r p', is_word r.1 ∧
    pd_inv K g (signal_ok g) (Some r.1) (Some (default (next_wait v p) w)) p') p.
Proof.
  intros (d & [Hs Ht Hd Hw Hsig Hipc] & Hmay & Hpend).
  assert (v.1 = true → v.2 = None → handler_receive v p = Stuck BadPointer) as Hstuck.
  { destruct v as [[] []]; done. }
  destruct (decide (v.1 = true ∧ v.2 = None)) as [[H1 H2]|Hv]; [unfold wlp; by rewrite Hstuck|].
  unfold wlp. rewrite handler_receive_eq; [|done|intros H1; destruct v as [[] [tag|]]; naive_solver].
  split; [apply Z.mod_pos_bound; lia|]. destruct v as [[] tag]; simpl in *.
  - destruct tag as [tag|]; [|naive_solver]. apply received_inv; try done. right. split_and!; auto.
  - assert (call_pending (ecalls p) = false) as Hp by (apply not_true_is_false; intros Hc; by specialize (Hpend Hc)).
    unfold next_wait, signal_taken; simpl. destruct (microkit_have_signal (globals p)) eqn:Hh.
    + apply received_inv; try done. simpl. split_and!; auto.
    + by apply received_inv.
Qed.

Lemma deliver_inv w tag0 badge tag p : pd_inv K g (signal_ok g) (Some badge) w p →
  wlp (deliver prog tag0 badge tag) (λ v p', loop_inv w v p') p.
Proof.
  intros Hp. assert (Hret : ∀ v p', pd_inv K g (signal_ok g) (Some badge) w p' →
    (v.1 = true → Z.testbit badge 63 || Z.testbit badge 62 = true) →
    (Z.testbit badge 63 && negb (Z.testbit badge 62) = true → v.1 = true) → loop_inv w v p').
  { intros v p' Hp' H1 H2. exists (Some badge). split; [done|]. unfold may_reply, call_pending.
    by rewrite (inv_delivered _ _ _ _ _ _ Hp'). }
  unfold deliver, message_of. destruct (Z.testbit badge 62) eqn:H62; [|destruct (Z.testbit badge 63) eqn:H63].
  - apply wlp_bind. eapply wlp_mono; [eapply keeps_wlp; [apply (keeps_fault K g (signal_ok g)); [apply signal_ok_deferred|apply signal_ok_memory|done]|done]|].
    intros [r o] p' [Hp' _]. apply Hret; [done| |]; rewrite ?H62; [by rewrite orb_true_r|by rewrite andb_false_r].
  - apply wlp_bind. eapply wlp_mono; [eapply keeps_wlp; [apply (keeps_protected K g (signal_ok g)); [apply signal_ok_deferred|apply signal_ok_memory|done]|done]|].
    intros r p' [Hp' _]. by apply Hret; rewrite ?H62, ?H63.
  - apply wlp_bind. eapply wlp_mono; [eapply keeps_wlp; [apply keeps_for_each; intros ch; apply (keeps_run K g (signal_ok g)); [apply signal_ok_deferred|apply signal_ok_memory|apply Hprog]|done]|].
    intros [] p' [Hp' _]. by apply Hret; rewrite ?H62, ?H63.
Qed.

Lemma round_inv w v p : loop_inv w v p →
  wlp (handler_round prog v) (λ v' p', loop_inv (Some (default (next_wait v p) w)) v' p') p.
Proof.
  intros Hp. apply wlp_bind. eapply wlp_mono; [by apply receive_inv|]. intros [badge tag] p' [Hb Hp'].
  unfold wlp. rewrite deliver_eq by done. by apply deliver_inv.
Qed.
(** The first wait is settled by the first round. *)
Lemma rounds_inv w v p n : loop_inv w v p →
  wlp (handler_rounds prog n v) (λ v' p', loop_inv (match n with O => w | S _ => Some (default (next_wait v p) w) end) v' p' ∧
    (n = 0%nat → v' = v ∧ p' = p)) p.
Proof.
  intros Hp. induction n as [|n IH]; [done|]. apply wlp_bind. eapply wlp_mono; [apply IH|]. intros v' p' [Hp' H0].
  eapply wlp_mono; [by apply round_inv|]. intros v2 p2 Hp2. split; [|done].
  destruct n as [|n]; [|done]. by destruct H0 as [-> ->].
Qed.

Lemma keeps_for_bits (S : pd Um → Prop) d w f bits : (∀ i, 0 ≤ i < 2 ^ 32 → kept (pd_inv K g S d w) (f i)) →
  kept (pd_inv K g S d w) (for_bits f bits).
Proof.
  intros Hf. apply (keeps_while64 _ (λ v, 0 ≤ v.2 < 2 ^ 32)); [|simpl; lia]. intros [b idx] Hi; simpl in Hi.
  eapply (keeps_bind _ _ _ (λ _, True)).
  - apply keeps_when. intros _. by apply Hf.
  - intros _ _. apply keeps_ret. destruct (_ =? 0); [done|]. apply u32_range.
Qed.
(** The state in which the loop starts. *)
Definition started (p : proc (pd Um)) : Prop :=
  loop_inv None (false, None) p ∧
  (microkit_passive g = true → microkit_have_signal (globals p) = true ∧ microkit_signal_cap (globals p) = MONITOR_EP ∧
     microkit_signal_msg (globals p) = seL4_MessageInfo_new 0 0 0 0).
Lemma ack_irqs_started p : started p → delivered (ecalls p) = None → wlp ack_irqs (λ _ p', started p') p.
Proof.
  intros [(d & [Hs Ht Hd Hw Hsig Hipc] & _) Hpass] Hnone.
  eapply (wlp_mono _ (λ _ p', pd_inv K g (λ g', g' = globals p) None None p' ∧ True)).
  - apply keeps_wlp; [|by split]. unfold ack_irqs. eapply keeps_bind; [apply keeps_gget|].
    intros irqs _. apply keeps_for_bits. intros i Hi. by apply keeps_irq_ack.
  - intros [] p' [[Hs' Ht' Hd' Hw' Hg' Hipc'] _]. split; [|by rewrite Hg']. exists None. split; [by split; rewrite ?Hg'|].
    unfold may_reply, call_pending. by rewrite Hd'.
Qed.
Lemma start_inv p : ecalls p = [] → ipc_wf p → microkit_have_signal (globals p) = false → globals p = g →
  wlp (run_init_funcs prog;; run (init prog);; passive_signal;; ack_irqs) (λ _ p', started p') p.
Proof.
  intros He Hipc Hh Hg. assert (Hp : pd_inv K g (signal_ok g) None None p).
  { split; rewrite ?He, ?Hg; try done. intros Hh'. rewrite Hg in Hh. congruence. }
  apply wlp_bind. eapply wlp_mono; [eapply keeps_wlp; [apply (keeps_run_all K g (signal_ok g)); [apply signal_ok_deferred|apply signal_ok_memory|apply Hprog]|done]|].
  intros [] p1 [Hp1 _]. apply wlp_bind. eapply wlp_mono; [eapply keeps_wlp; [apply (keeps_run K g (signal_ok g)); [apply signal_ok_deferred|apply signal_ok_memory|apply Hprog]|done]|].
  intros [] p2 [[Hs Ht Hd Hw Hsig Hi] _]. unfold passive_signal. apply wlp_bind. unfold wlp at 1, gget, mbind, M_bind, gets.
  assert (Hnone : may_reply (ecalls p2) = false ∧ call_pending (ecalls p2) = false) by (unfold may_reply, call_pending; by rewrite Hd).
  pose proof Hs as (Hpa & _). rewrite Hpa. destruct (microkit_passive g) eqn:Hpg; simpl.
  - apply ack_irqs_started; [|done]. split; [|done]. exists None. split.
    + split; try done. intros _. right; right. by split_and!.
    + simpl. destruct Hnone as [-> ->]. done.
  - apply ack_irqs_started; [|done]. split; [|by rewrite Hpg]. exists None. split; [by split|]. destruct Hnone as [-> ->]. done.
Qed.
End loop.

Section main.
Context `{Printing} {Um : Type}.

Lemma names_children_any {A} (c : app Um A) : names_children (λ _, True) c.
Proof. induction c as [|R op k IH]; simpl; [done|]. split; [by destruct op|done]. Qed.
Lemma program_names_any (prog : program Um) : program_names (λ _, True) prog.
Proof. split; intros; try apply Forall_true; intros; apply names_children_any. Qed.

(** C7: Whatever the code of a protection domain does through the interface, and whatever the
    kernel answers, in any number of rounds of its loop the domain makes only these system
    calls, besides console output: signals, acknowledgements and calls on capabilities of
    channels set in its masks, the two operations on the children that its code names (the
    interface does not check their numbers, so naming only its own children is up to the
    code), waits on its input, and with them, if it is passive, the empty message to the
    monitor. A protected call is answered by the very next wait, and a reply is never sent
    without a call or a fault before it. *)
Theorem pd_calls_ok (K : Z → Prop) (prog : program Um) n p : program_names K prog → ecalls p = [] → ipc_wf p →
  microkit_have_signal (globals p) = false → wlp (main prog n) (λ _ p', trace_ok K (globals p) (ecalls p')) p.
Proof.
  intros Hprog He Hipc Hh. pose proof (start_inv K (globals p) prog Hprog p He Hipc Hh eq_refl) as Hstart.
  unfold main, handler_loop. unfold wlp, mbind, M_bind in *.
  destruct (run_init_funcs prog p) as [[] p1|]; [|done]. destruct (run (init prog) p1) as [[] p2|]; [|done].
  destruct (passive_signal p2) as [[] p3|]; [|done]. destruct (ack_irqs p3) as [[] p4|]; [|done].
  destruct Hstart as [Hloop _]. pose proof (rounds_inv K (globals p) prog Hprog None _ _ n Hloop) as Hr. unfold wlp in Hr.
  destruct (handler_rounds prog n (false, None) p4) as [v p5|]; [|done]. destruct Hr as [(d & [] & _) _]. done.
Qed.

(** C35: The first wait of a passive domain asks the monitor, with an empty message, to take
    its scheduling context: that wait carries this request in place of whatever signal the
    initialisation deferred. *)
Theorem passive_first_wait (prog : program Um) n p : ecalls p = [] → ipc_wf p →
  microkit_have_signal (globals p) = false → microkit_passive (globals p) = true →
  wlp (main prog (S n)) (λ _ p', ∃ mrs, first_wait (ecalls p') =
    Some (ecall_nbsend_recv seL4_SysNBSendRecv MONITOR_EP INPUT_CAP (seL4_MessageInfo_new 0 0 0 0) mrs REPLY_CAP)) p.
Proof.
  intros He Hipc Hh Hpa.
  pose proof (start_inv _ (globals p) prog (program_names_any prog) p He Hipc Hh eq_refl) as Hstart.
  unfold main, handler_loop. unfold wlp, mbind, M_bind in *.
  destruct (run_init_funcs prog p) as [[] p1|]; [|done]. destruct (run (init prog) p1) as [[] p2|]; [|done].
  destruct (passive_signal p2) as [[] p3|]; [|done]. destruct (ack_irqs p3) as [[] p4|]; [|done].
  destruct Hstart as [Hloop Hsig]. destruct (Hsig Hpa) as (H1 & H2 & H3).
  pose proof (rounds_inv _ (globals p) prog (program_names_any prog) None _ _ (S n) Hloop) as Hr. unfold wlp in Hr.
  destruct (handler_rounds prog (S n) (false, None) p4) as [v p5|]; [|done]. destruct Hr as [(d & Hp5 & _) _].
  exists (first_mrs p4). rewrite (inv_first _ _ _ _ _ _ Hp5). cbn [default next_wait]. by rewrite H1, H2, H3.
Qed.
End main.

(** * The Microkit runtime keeps running, and an example

    A protection domain whose entry points stay within the rules of the interface never stops
    in the library: every round of its loop returns. [Demo] is such a domain; it instantiates
    the theorems about the runtime. *)

Section live.
Context `{Printing} {Um : Type}.
Implicit Types (p : proc (pd Um)).

(** The operations that return whatever the kernel answers: message registers exist, strings
    end, and no operation on a child can fail. *)
Definition safe_op {R} (op : api Um R) : Prop :=
  match op with
  | api_pd_restart _ _ | api_pd_stop _ => False
  | api_mr_set mr _ | api_mr_get mr => mr mod 2 ^ 8 < seL4_MsgMaxLength
  | api_dbg_puts s => is_Some (c_string s)
  | _ => True
  end.
(** Code made of such operations; [Q] holds of its result. *)
Inductive safe {A} (Q : A → Prop) : app Um A → Prop :=
  | safe_ret a : Q a → safe Q (app_ret a)
  | safe_call {R} (op : api Um R) k : safe_op op → (∀ r, safe Q (k r)) → safe Q (app_call op k).
Record safe_program (prog : program Um) : Prop := {
  safe_init_array : Forall (safe (λ _, True)) (init_array prog);
  safe_init : safe (λ _, True) (init prog);
  safe_notified ch : safe (λ _, True) (notified prog ch);
  safe_protected : ∃ f, user_protected prog = Some f ∧ ∀ ch tag, safe (λ _, True) (f ch tag);
  safe_fault : ∃ f, user_fault prog = Some f ∧
    ∀ child tag, safe (λ r, r.1 = true → is_Some r.2) (f child tag) }.

Definition ready p : Prop :=
  ipc_wf p ∧ is_Some (c_string (microkit_name (globals p))) ∧ is_word (microkit_irqs (globals p)).
Lemma ready_printed cs p : ready p → ready (printed cs p).
Proof. unfold printed. by destruct CONFIG_PRINTING. Qed.
Lemma ready_received e p : ready p → ready (received e p).
Proof. intros [_ Hn]. split; [apply received_wf|done]. Qed.

Lemma wp_report msg ch p : ready p → 0 ≤ ch < 2 ^ 32 → is_Some (c_string (lit msg)) → wp (report_channel msg ch) (λ _ p', ready p') p.
Proof.
  intros Hp Hch [cs Hcs]. pose proof Hp as [_ [[name Hn] _]].
  destruct (report_channel_eq msg ch name cs p) as (ds & _ & Heq); [done..|]. unfold wp. rewrite Heq. by apply ready_printed.
Qed.
Lemma wp_SetMR i w p : ready p → 0 ≤ i < seL4_MsgMaxLength → wp (seL4_SetMR i w) (λ _ p', ready p') p.
Proof.
  intros [Hi Hn] Hr. unfold wp. rewrite seL4_SetMR_eq; [|lia|unfold ipc_wf in Hi; rewrite Hi; lia].
  split; [|done]. unfold ipc_wf in *; simpl. by rewrite length_insert.
Qed.
Lemma wp_GetMR i p : ready p → 0 ≤ i < seL4_MsgMaxLength → wp (seL4_GetMR i) (λ _ p', ready p') p.
Proof.
  intros [Hi Hn] Hr. destruct (lookup_lt_is_Some_2 (ipc_msg p) (Z.to_nat i)) as [w Hw]; [unfold ipc_wf in Hi; rewrite Hi; lia|].
  unfold wp. by rewrite (seL4_GetMR_eq i w) by (done || lia).
Qed.
Lemma ready_answered e p : ready p → ready (answered e p).
Proof. intros [Hi Hn]. split; [by apply answered_wf|done]. Qed.
Lemma wp_client_ack cap p : ready p → wp (seL4_IRQHandler_Ack cap) (λ _ p', ready p') p.
Proof.
  intros Hp. unfold seL4_IRQHandler_Ack, generated_stub, seL4_CallWithMRs, riscv_sys_send_recv. apply wp_bind, wp_bind, wp_bind, wp_bind.
  unfold wp at 1. rewrite ecall_recv_op_eq. apply wp_ret, wp_ret. unfold outputs; cbn [write_back map zip_with].
  apply wp_bind, wp_when; intros _; [|by apply wp_ret, wp_ret, ready_answered].
  apply wp_bind. eapply wp_mono; [apply wp_SetMR; [by apply ready_answered|done]|]. intros [] p1 Hp1.
  apply wp_bind. eapply wp_mono; [by apply wp_SetMR|]. intros [] p2 Hp2.
  apply wp_bind. eapply wp_mono; [by apply wp_SetMR|]. intros [] p3 Hp3.
  eapply wp_mono; [by apply wp_SetMR|]. done.
Qed.

Lemma wp_channel {A} mask ch (m r : M (proc (pd Um)) A) p :
  wp r (λ _ p', ready p') p → wp m (λ _ p', ready p') p →
  wp (k ← gget mask; if invalid_channel k ch then r else m) (λ _ p', ready p') p.
Proof. intros Hr Hm. apply wp_bind, wp_gets. by destruct (invalid_channel _ _). Qed.

Lemma wp_run_api {R} (op : api Um R) p : ready p → safe_op op → wp (run_api op) (λ _ p', ready p') p.
Proof.
  intros Hp Hop. pose proof Hp as [Hi Hn].
  destruct op; cbn [run_api safe_op] in *; try done.
  - apply (wp_channel microkit_notifications); [apply wp_report; [done|apply u32_range|done]|done].
  - apply (wp_channel microkit_irqs); [apply wp_report; [done|apply u32_range|done]|].
    apply wp_bind. eapply wp_mono; [by apply wp_client_ack|]. done.
  - apply (wp_channel microkit_pps).
    + apply wp_bind. eapply wp_mono; [apply wp_report; [done|apply u32_range|done]|]. done.
    + unfold wp. rewrite seL4_Call_eq by done. by apply ready_received.
  - apply (wp_channel microkit_notifications); [apply wp_report; [done|apply u32_range|done]|done].
  - apply (wp_channel microkit_irqs); [apply wp_report; [done|apply u32_range|done]|done].
  - apply wp_SetMR; [done|]. split; [apply Z.mod_pos_bound; lia|done].
  - apply wp_GetMR; [done|]. split; [apply Z.mod_pos_bound; lia|done].
  - unfold wp. rewrite microkit_dbg_putc_eq. by apply ready_printed.
  - destruct Hop as [cs Hcs]. unfold wp. rewrite (microkit_dbg_puts_eq _ cs) by done. by apply ready_printed.
  - destruct (put8_eq (x mod 2 ^ 8) p) as (cs & _ & _ & Heq); [apply Z.mod_pos_bound; lia|]. unfold wp. rewrite Heq. by apply ready_printed.
  - destruct (put32_eq (u32 x) p) as (cs & _ & _ & Heq); [apply u32_range|]. unfold wp. rewrite Heq. by apply ready_printed.
Qed.
Lemma wp_run {A} (Q : A → Prop) c p : safe Q c → ready p → wp (run c) (λ r p', Q r ∧ ready p') p.
Proof.
  intros Hc. revert p. induction Hc as [a Ha|R op k Hop _ IH]; intros p Hp; [done|]. simpl.
  apply wp_bind. eapply wp_mono; [by apply wp_run_api|]. intros r p' Hp'. by apply IH.
Qed.

(** ** The loop *)
Context (prog : program Um) (Hprog : safe_program prog).

Definition vars_ok (v : loop_vars) : Prop := v.1 = true → is_Some v.2.
Lemma wp_for_each (f : Z → M (proc (pd Um)) unit) l p : (∀ i p, i ∈ l → ready p → wp (f i) (λ _ p', ready p') p) → ready p →
  wp (for_each f l) (λ _ p', ready p') p.
Proof.
  revert p. induction l as [|i l IH]; intros p Hf Hp; [done|]. apply wp_bind.
  eapply wp_mono; [apply Hf; [apply list_elem_of_here|done]|]. intros [] p' Hp'. apply IH; [|done].
  intros j q Hj. apply Hf. by apply list_elem_of_further.
Qed.
Lemma wp_entry (c : app Um unit) p : safe (λ _, True) c → ready p → wp (run c) (λ _ p', ready p') p.
Proof. intros Hc Hp. eapply wp_mono; [by apply (wp_run (λ _ : unit, True))|]. by intros ? ? []. Qed.

Lemma wp_round v p : ready p → vars_ok v → wp (handler_round prog v) (λ v' p', ready p' ∧ vars_ok v') p.
Proof.
  intros Hp Hv. apply wp_bind. unfold wp at 1. rewrite handler_receive_eq by (apply Hp || done).
  destruct (received_from p) as [badge tag] eqn:Hf.
  assert (is_word badge) as Hb by (injection Hf as <- _; apply Z.mod_pos_bound; lia).
  set (p1 := set_globals _ _). assert (ready p1) as Hp1.
  { split; [apply received_wf|]. destruct Hp as [_ Hn]. unfold p1, signal_taken; simpl. by destruct v.1, (microkit_have_signal (globals p)). }
  clearbody p1. unfold wp. rewrite deliver_eq by done. fold (wp (deliver prog v.2 badge tag) (λ v' p', ready p' ∧ vars_ok v') p1).
  unfold deliver. destruct (message_of badge) as [child|ch|chs].
  - destruct (safe_fault _ Hprog) as (f & Hf' & Hsafe). apply wp_bind. unfold fault. rewrite Hf'.
    eapply wp_mono; [by apply wp_run|]. intros [b o] p' [Hr Hp']. split; [done|]. intros Hb'; simpl in *.
    destruct (Hr Hb') as [t ->]. done.
  - destruct (safe_protected _ Hprog) as (f & Hf' & Hsafe). apply wp_bind. unfold protected. rewrite Hf'.
    eapply wp_mono; [by apply (wp_run (λ _ : Z, True))|]. intros r p' [_ Hp']. split; [done|]. by exists r.
  - apply wp_bind. eapply wp_mono; [apply wp_for_each; [|done]|].
    + intros ch q _ Hq. apply wp_entry; [apply Hprog|done].
    + intros [] p' Hp'. done.
Qed.
Lemma wp_rounds n v p : ready p → vars_ok v → wp (handler_rounds prog n v) (λ v' p', ready p' ∧ vars_ok v') p.
Proof.
  intros Hp Hv. induction n as [|n IH]; [done|]. apply wp_bind. eapply wp_mono; [apply IH|].
  intros v' p' [Hp' Hv']. by apply wp_round.
Qed.
Lemma wp_ack_irqs p : ready p → wp ack_irqs (λ _ p', ready p') p.
Proof.
  intros Hp. unfold ack_irqs. apply wp_bind, wp_gets. unfold wp. rewrite for_bits_set_bits by apply Hp.
  fold (wp (for_each microkit_irq_ack (set_bits (microkit_irqs (globals p)))) (λ _ p', ready p') p).
  apply wp_for_each; [|done]. intros i q [Hi _]%elem_of_set_bits Hq.
  apply (wp_channel microkit_irqs); [apply wp_report; [done|lia|done]|].
  apply wp_bind. eapply wp_mono; [by apply wp_client_ack|]. done.
Qed.
Lemma wp_run_all fs p : Forall (safe (λ _, True)) fs → ready p → wp (run_all fs) (λ _ p', ready p') p.
Proof.
  intros Hfs. revert p. induction Hfs as [|c fs Hc _ IH]; intros p Hp; [done|]. apply wp_bind.
  eapply wp_mono; [by apply wp_entry|]. intros [] p' Hp'. by apply IH.
Qed.

(** C21: A protection domain with all its entry points, whose code makes only operations that
    can be carried out and stores a tag whenever it replies to a fault, never stops in the
    library: starting with a terminated name, every number of rounds of its loop is reached,
    whatever messages arrive. *)
Theorem main_returns n p : ipc_wf p → is_Some (c_string (microkit_name (globals p))) → is_word (microkit_irqs (globals p)) →
  ∃ v p', main prog n p = Done v p'.
Proof using Hprog.
  intros Hi Hn Hw. assert (wp (main prog n) (λ v p', ready p' ∧ vars_ok v) p) as Hwp; [|apply wp_done in Hwp as (v & p' & ? & _); by exists v, p'].
  assert (Hp : ready p) by done. unfold main, handler_loop.
  apply wp_bind. eapply wp_mono; [apply wp_run_all; [apply Hprog|done]|]. intros [] p1 Hp1.
  apply wp_bind. eapply wp_mono; [apply wp_entry; [apply Hprog|done]|]. intros [] p2 Hp2.
  apply wp_bind. eapply (wp_mono _ (λ _ p', ready p')).
  { unfold passive_signal. apply wp_bind, wp_gets. by apply wp_when. }
  intros [] p3 Hp3. apply wp_bind. eapply wp_mono; [by apply wp_ack_irqs|]. intros [] p4 Hp4. by apply wp_rounds.
Qed.
End live.

(** ** An example

    A passive domain with channels 1, 3 and 5: signals are passed on, calls increment the
    first message register and defer a signal, faults are answered. *)
Section demo.
#[local] Instance demo_printing : Printing := true.
Definition demo_program : program Z :=
  Program
    [app_call (api_dbg_puts (lit "hi ")) app_ret]
    (app_call (api_deferred_notify 1) app_ret)
    (λ ch, app_call (api_notify ch) (λ _, app_call (api_irq_ack 5) app_ret))
    (Some (λ ch tag, app_call (api_mr_get 0) (λ w, app_call (api_mr_set 0 (w + 1)) (λ _,
      app_call (api_deferred_notify 3) (λ _, app_ret tag)))))
    (Some (λ child tag, app_call (api_dbg_put8 child) (λ _, app_ret (true, Some 0)))).
(** The messages: signals on 1 and 3, a call on channel 5, a fault of child 7, signals. *)
Definition demo_env (n : nat) : answer :=
  Answer (match n with 1%nat => 10 | 6%nat => 2 ^ 63 + 5 | 7%nat => 2 ^ 62 + 7 | _ => 8 end)
    (seL4_MessageInfo_new 0 0 0 1) (λ _, 41) (λ _, 0).
Definition demo : proc (pd Z) :=
  Proc (replicate 120 0) [0; 0; 0] [] [] (Pd true (lit "demo") false 0 0 32 10 0 0) demo_env.

Lemma demo_ready : ipc_wf demo ∧ is_Some (c_string (microkit_name (globals demo))) ∧ is_word (microkit_irqs (globals demo)).
Proof. split_and!; [done|by eexists|done]. Qed.
Lemma demo_safe : safe_program demo_program.
Proof.
  split; simpl; repeat (intros || constructor || eexists || split); try done.
Qed.

Lemma handler_dispatch_witness : is_word 10 ∧
  handler_dispatch demo_program None 10 0 demo = deliver demo_program None 10 0 demo ∧ message_of 10 = Msg_signals [1; 3].
Proof. split; [done|]. split; [apply (handler_dispatch_ok demo_program None 10 0 demo); done|by vm_compute]. Defined.
Lemma invalid_channel_witness : ∃ digits, decimal_of 70 digits ∧
  op_code Op_notify 70 demo = Done () (printed (channel_report (chars "demo") (op_message Op_notify) digits) demo).
Proof. apply (invalid_channel_reported Op_notify 70 (chars "demo") demo); [done|done|by left]. Defined.
Lemma handler_receive_witness : ∃ tag, handler_receive (true, Some 7) demo =
  Done (received_from demo) (set_globals (globals demo)
    (received (ecall_send_recv seL4_SysReplyRecv INPUT_CAP tag [0; 0; 0; 0] REPLY_CAP) demo)).
Proof. exists 7. apply (handler_receive_ok (true, Some 7) demo); [done|by eexists]. Defined.
(** A domain that stops its child 7 when that has a fault. *)
Definition stop_program : program Z :=
  Program [] (app_ret ()) (λ ch, app_call (api_notify ch) app_ret) (user_protected demo_program)
    (Some (λ child tag, if child =? 7 then app_call (api_pd_stop 7) (λ _, app_ret (false, None)) else app_ret (false, None))).
Lemma stop_names : program_names (λ child, child = 7) stop_program.
Proof.
  split; simpl; try done; intros f ? ?; intros [= <-]; simpl; [done|]. by destruct (_ =? 7).
Qed.
Lemma pd_calls_witness : wlp (main stop_program 5) (λ _ p', trace_ok (λ child, child = 7) (globals demo) (ecalls p')) demo ∧
  is_Some (match main stop_program 5 demo with Done _ p' => Some (length (ecalls p')) | Stuck _ => None end).
Proof. split; [apply (pd_calls_ok _ stop_program 5 demo); [apply stop_names|done..]|vm_compute; by eexists]. Defined.
Lemma passive_first_wait_witness : wlp (main demo_program 1) (λ _ p', ∃ mrs, first_wait (ecalls p') =
    Some (ecall_nbsend_recv seL4_SysNBSendRecv MONITOR_EP INPUT_CAP (seL4_MessageInfo_new 0 0 0 0) mrs REPLY_CAP)) demo ∧
  microkit_have_signal (globals demo) = false.
Proof. split; [apply (passive_first_wait demo_program 0 demo); done|done]. Defined.
Lemma main_returns_witness : ∃ v p', main demo_program 9 demo = Done v p'.
Proof. apply (main_returns demo_program demo_safe 9 demo); apply demo_ready. Defined.
End demo.
