(* ===== verification/Monitor.v ===== *)
(** * The Microkit monitor

    [root/monitor]: the fault handler of the protection domains, [src/main.c] on RISC-V and
    the helpers of [src/util.c] (no debug build). It waits for messages on its endpoint; the
    badge names the domain. A message without a fault asks to make the domain passive, any
    other is a fault and is reported on the console. *)
From Stdlib Require Import Strings.String.
From S2P Require Import Prelude Words Platform State Message LibSel4.

Definition MAX_PDS : Z := 64.
Definition MAX_NAME_LEN : Z := 64.
Definition FAULT_EP_CAP : Z := 1.
Definition MON_REPLY_CAP : Z := 2.
Definition BASE_PD_TCB_CAP : Z := 10.
Definition BASE_SCHED_CONTEXT_CAP : Z := 138.
Definition BASE_NOTIFICATION_CAP : Z := 202.

(** The globals that the tool fills in. *)
Record mon := Mon { pd_names : list carray; pd_stack_bottom_addrs : list Z }.

Section util.
Context `{Printing} {G : Type}.
#[local] Abbreviation U := (M (proc G)).

(** ** Output ([util.c]) *)
Definition putc (ch : Z) : U unit := when CONFIG_PRINTING (seL4_DebugPutChar ch).
Fixpoint puts (s : carray) : U unit :=
  match s with
  | [] | None :: _ => stuck BadPointer
  | Some c :: s' => if c =? 0 then mret () else putc c;; puts s'
  end.
Definition hexchar (v : Z) : Z := if v <? 10 then 48 + v else 97 - 10 + v.
(** [for (i = n + 1; i > 1; i--)], which stores the digits from the last to the first. *)
Fixpoint put_hex_digits (n : nat) (val : Z) (buffer : carray) : carray :=
  match n with
  | O => buffer
  | S n' => put_hex_digits n' (Z.shiftr val 4) (<[(n' + 2)%nat := Some (hexchar (Z.land val 0xf))]> buffer)
  end.
Definition hex_buffer (n : nat) : carray :=
  <[(n + 2)%nat := Some 0]> (<[1%nat := Some 120]> (<[0%nat := Some 48]> (replicate (n + 3) None))).
Definition puthex32 (val : Z) : U unit := puts (put_hex_digits 8 (val mod 2 ^ 32) (hex_buffer 8)).
Definition puthex64 (val : Z) : U unit := puts (put_hex_digits 16 val (hex_buffer 16)).
(** The caller stops after this: [fail] ends in an endless loop. *)
Definition fail (s : carray) : U unit := puts (lit "FAIL: ");; puts s;; puts (line "").
End util.

Definition sel4_strerror (err : Z) : carray :=
  if err =? 0 then lit "seL4_NoError"
  else if err =? 1 then lit "seL4_InvalidArgument"
  else if err =? 2 then lit "seL4_InvalidCapability"
  else if err =? 3 then lit "seL4_IllegalOperation"
  else if err =? 4 then lit "seL4_RangeError"
  else if err =? 5 then lit "seL4_AlignmentError"
  else if err =? 6 then lit "seL4_FailedLookup"
  else if err =? 7 then lit "seL4_TruncatedMessage"
  else if err =? 8 then lit "seL4_DeleteFirst"
  else if err =? 9 then lit "seL4_RevokeFirst"
  else if err =? 10 then lit "seL4_NotEnoughMemory"
  else lit "<invalid seL4 error>".
(** [strcpy] into an array; [None] when a string does not end or the array is too small. *)
Fixpoint strcpy (dst src : carray) : option carray :=
  match src, dst with
  | Some c :: src', _ :: dst' => if c =? 0 then Some (Some 0 :: dst') else (Some c ::.) <$> strcpy dst' src'
  | _, _ => None
  end.

Definition riscv_fsr_to_string (fsr : Z) : carray :=
  if fsr =? 0 then lit "Instruction address misaligned"
  else if fsr =? 1 then lit "Instruction access fault"
  else if fsr =? 2 then lit "Illegal instruction"
  else if fsr =? 3 then lit "Breakpoint"
  else if fsr =? 4 then lit "Load address misaligned"
  else if fsr =? 5 then lit "Load access fault"
  else if fsr =? 6 then lit "Store/AMO address misaligned"
  else if fsr =? 7 then lit "Store/AMO access fault"
  else if fsr =? 8 then lit "Environment call from U-mode"
  else if fsr =? 9 then lit "Environment call from S-mode"
  else if fsr =? 12 then lit "Instruction page fault"
  else if fsr =? 13 then lit "Load page fault"
  else if fsr =? 15 then lit "Store/AMO page fault"
  else if fsr =? 18 then lit "Software check"
  else if fsr =? 19 then lit "Hardware error"
  else lit "<Unexpected FSR>".

(** The registers printed, with their index in [seL4_UserContext]. *)
Definition printed_registers : list (string * Z) :=
  [("pc : ", 0); ("ra : ", 1); ("s0 : ", 4); ("s1 : ", 5); ("s2 : ", 6); ("s3 : ", 7);
   ("s4 : ", 8); ("s5 : ", 9); ("s6 : ", 10); ("s7 : ", 11); ("s8 : ", 12); ("s9 : ", 13);
   ("s10 : ", 14); ("s11 : ", 15); ("a0 : ", 16); ("a1 : ", 17); ("a2 : ", 18); ("a3 : ", 19);
   ("a4 : ", 20); ("a5 : ", 21); ("a6 : ", 22); ("t0 : ", 24); ("t1 : ", 25); ("t2 : ", 26);
   ("t3 : ", 27); ("t4 : ", 28); ("t5 : ", 29); ("t6 : ", 30); ("tp : ", 31)]%string.

Section monitor.
Context `{Printing}.
#[local] Abbreviation U := (M (proc mon)).

(** ** Reports *)
Fixpoint print_registers (l : list (string * Z)) (regs : list Z) : U unit :=
  match l with
  | [] => mret ()
  | (name, i) :: l' =>
    puts (lit name);; v ← deref (regs !! Z.to_nat i); puthex64 v;; puts (line "");;
    print_registers l' regs
  end.
Definition print_tcb_registers (regs : list Z) : U unit :=
  puts (line "Registers: ");; print_registers printed_registers regs.

Definition riscv_print_vm_fault : U unit :=
  ip ← seL4_GetMR seL4_VMFault_IP;
  fault_addr ← seL4_GetMR seL4_VMFault_Addr;
  is_instruction ← seL4_GetMR seL4_VMFault_PrefetchFault;
  fsr ← seL4_GetMR seL4_VMFault_FSR;
  puts (lit "MON|ERROR: VMFault: ip=");;
  puthex64 ip;;
  puts (lit "  fault_addr=");;
  puthex64 fault_addr;;
  puts (lit "  fsr=");;
  puthex64 fsr;;
  puts (lit "  ");;
  puts (if negb (is_instruction =? 0) then lit "(instruction fault)" else lit "(data fault)");;
  puts (line "");;
  puts (lit "MON|ERROR: description of fault: ");;
  puts (riscv_fsr_to_string fsr);;
  puts (line "").

Definition lookup_failure_name (type : Z) : U unit :=
  if type =? 0 then puts (lit "seL4_NoFailure")
  else if type =? 1 then puts (lit "seL4_InvalidRoot")
  else if type =? 2 then puts (lit "seL4_MissingCapability")
  else if type =? 3 then puts (lit "seL4_DepthMismatch")
  else if type =? 4 then puts (lit "seL4_GuardMismatch")
  else puthex64 type.
Definition print_cap_fault : U unit :=
  ip ← seL4_GetMR seL4_CapFault_IP;
  fault_addr ← seL4_GetMR seL4_CapFault_Addr;
  in_recv_phase ← seL4_GetMR seL4_CapFault_InRecvPhase;
  lookup_failure_type ← seL4_GetMR seL4_CapFault_LookupFailureType;
  bits_left ← seL4_GetMR seL4_CapFault_BitsLeft;
  depth_bits_found ← seL4_GetMR seL4_CapFault_DepthMismatch_BitsFound;
  guard_found ← seL4_GetMR seL4_CapFault_GuardMismatch_GuardFound;
  guard_bits_found ← seL4_GetMR seL4_CapFault_GuardMismatch_BitsFound;
  puts (lit "MON|ERROR: CapFault: ip=");;
  puthex64 ip;;
  puts (lit "  fault_addr=");;
  puthex64 fault_addr;;
  puts (lit "  in_recv_phase=");;
  puts (if in_recv_phase =? 0 then lit "false" else lit "true");;
  puts (lit "  lookup_failure_type=");;
  lookup_failure_name lookup_failure_type;;
  when ((lookup_failure_type =? 2) || (lookup_failure_type =? 3) || (lookup_failure_type =? 4))
    (puts (lit "  bits_left=");; puthex64 bits_left);;
  when (lookup_failure_type =? 3)
    (puts (lit "  depth_bits_found=");; puthex64 depth_bits_found);;
  when (lookup_failure_type =? 4)
    (puts (lit "  guard_found=");; puthex64 guard_found;;
     puts (lit "  guard_bits_found=");; puthex64 guard_bits_found);;
  puts (line "").

Definition print_vm_fault (pd_id : Z) : U unit :=
  riscv_print_vm_fault;;
  fault_addr ← seL4_GetMR seL4_VMFault_Addr;
  p ← get_state;
  stack_addr ← deref (pd_stack_bottom_addrs (globals p) !! Z.to_nat pd_id);
  when ((fault_addr <? stack_addr) && (stack_addr -w 0x1000 <=? fault_addr))
    (puts (line "MON|ERROR: potential stack overflow, fault address within one page outside of stack region")).

(** ** The loop *)
Definition pd_name (pd_id : Z) : U carray :=
  p ← get_state; deref (pd_names (globals p) !! Z.to_nat pd_id).

(** A request of a domain to become passive. *)
Definition make_passive (pd_id : Z) : U unit :=
  err ← seL4_SchedContext_Bind (BASE_SCHED_CONTEXT_CAP +w pd_id) (BASE_NOTIFICATION_CAP +w pd_id);
  if negb (err =? 0) then
    puts (line "MON|ERROR: could not bind scheduling context to notification object")
  else
    puts (lit "MON|INFO: PD '");;
    name ← pd_name pd_id;
    puts name;;
    puts (line "' is now passive!").

(** The report of a fault; [false] when it ends in [fail]. *)
Definition report_fault (badge label pd_id tcb_cap : Z) : U bool :=
  puts (lit "MON|ERROR: received message ");;
  puthex32 label;;
  puts (lit "  badge: ");;
  puthex64 badge;;
  puts (lit "  tcb cap: ");;
  puthex64 tcb_cap;;
  puts (line "");;
  known ← (if pd_id <? MAX_PDS then
             name ← pd_name pd_id; o ← deref (head name); c ← deref o; mret (negb (c =? 0))
           else mret false);
  if negb known then fail (line "MON|ERROR: unknown/invalid badge");; mret false else
  puts (lit "MON|ERROR: faulting PD: ");;
  name ← pd_name pd_id;
  puts name;;
  puts (line "");;
  r ← seL4_TCB_ReadRegisters tcb_cap false 0 n_user_context;
  let '(err, regs) := r in
  if negb (err =? 0) then fail (lit "error reading registers");; mret false else
  print_tcb_registers regs;;
  (if label =? 1 then print_cap_fault
   else if label =? 3 then puts (line "MON|ERROR: UserException")
   else if label =? 6 then print_vm_fault pd_id
   else puts (line "MON|ERROR: Unknown fault");; puthex64 label);;
  mret true.

(** One round of [monitor]; [false] when the monitor has stopped for good. *)
Definition monitor_round : U bool :=
  r ← seL4_Recv FAULT_EP_CAP MON_REPLY_CAP;
  let '(badge, tag) := r in
  let label := seL4_MessageInfo_get_label tag in
  let pd_id := badge -w 1 in
  let tcb_cap := BASE_PD_TCB_CAP +w pd_id in
  if (label =? 0) && (pd_id <? MAX_PDS) then make_passive pd_id;; mret true
  else report_fault badge label pd_id tcb_cap.

(** The first [n] rounds, and [main] up to them. *)
Fixpoint monitor (n : nat) : U bool :=
  match n with O => mret true | S n' => b ← monitor n'; if b : bool then monitor_round else mret false end.
Definition monitor_main (n : nat) : U bool := puts (line "MON|INFO: Microkit Monitor started!");; monitor n.
End monitor.
