(* ===== verification/MonitorSpec.v ===== *)
(** * Correctness of the Microkit monitor

    The numbers in its reports can be read back, it uses no capabilities but those of the
    domain that a badge names, and the report of a fault shows the words of the message as
    far as they survive the reading of the registers. *)
From Stdlib Require Import Strings.String.
From S2P Require Import Prelude Words Platform State Budget Message SchedContext TcbInv Example LibSel4 Microkit MicrokitSpec Monitor.

(** ** Hexadecimal numbers *)
Fixpoint hex_digits (n : nat) (v : Z) : list Z :=
  match n with O => [] | S n' => hex_digits n' (Z.shiftr v 4) ++ [hexchar (Z.land v 0xf)] end.
Definition hex_text (n : nat) (v : Z) : list Z := [48; 120] ++ hex_digits n v.
Definition hex_digit_value (c : Z) : Z := if c <? 58 then c - 48 else c - 87.
Definition hex_value (cs : list Z) : Z := foldl (λ v c, v * 16 + hex_digit_value c) 0 cs.

Lemma land_15 v : Z.land v 0xf = v mod 16.
Proof. change 0xf with (Z.ones 4). by rewrite Z.land_ones by lia. Qed.
Lemma hexchar_range d : 0 ≤ d < 16 → 48 ≤ hexchar d ≤ 102 ∧ hex_digit_value (hexchar d) = d.
Proof.
  intros Hd. unfold hexchar, hex_digit_value. destruct (Z.ltb_spec d 10).
  - destruct (Z.ltb_spec (48 + d) 58); lia.
  - destruct (Z.ltb_spec (97 - 10 + d) 58); lia.
Qed.
Lemma hex_digits_value n v : 0 ≤ v → hex_value (hex_digits n v) = v mod 16 ^ Z.of_nat n.
Proof.
  unfold hex_value. revert v. induction n as [|n IH]; intros v Hv.
  { simpl. by rewrite Z.mod_1_r. }
  cbn [hex_digits]. rewrite foldl_app, IH by (by apply Z.shiftr_nonneg). cbn [foldl].
  rewrite land_15. pose proof (Z.mod_pos_bound v 16 ltac:(lia)) as Hm.
  rewrite (proj2 (hexchar_range (v mod 16) Hm)). rewrite Z.shiftr_div_pow2 by lia. change (2 ^ 4) with 16.
  rewrite Nat2Z.inj_succ, Z.pow_succ_r, Z.rem_mul_r by lia. lia.
Qed.
Lemma hex_digits_length n v : length (hex_digits n v) = n.
Proof. revert v. induction n as [|n IH]; intros v; simpl; [done|]. rewrite length_app, IH. simpl. lia. Qed.
Lemma hex_digits_chars n v : Forall (λ c, 48 ≤ c ≤ 102) (hex_digits n v).
Proof.
  revert v. induction n as [|n IH]; intros v; simpl; [done|]. apply Forall_app. split; [done|].
  apply Forall_singleton. rewrite land_15. apply hexchar_range, Z.mod_pos_bound. lia.
Qed.

Lemma put_hex_digits_eq n v (a rest : list (option Z)) : length a = 2%nat →
  put_hex_digits n v (a ++ replicate n None ++ rest) = a ++ map Some (hex_digits n v) ++ rest.
Proof.
  intros Ha. revert v rest. induction n as [|n IH]; intros v rest; [done|]. cbn [put_hex_digits hex_digits].
  set (c := hexchar _).
  assert (<[(n + 2)%nat := Some c]> (a ++ replicate (S n) None ++ rest) = a ++ replicate n None ++ (Some c :: rest)) as Hins.
  { rewrite replicate_S_end, <- app_assoc. rewrite insert_app_r_alt by lia.
    rewrite insert_app_r_alt by (rewrite length_replicate; lia). rewrite length_replicate, Ha.
    by replace (n + 2 - 2 - n)%nat with 0%nat by lia. }
  change (@insert _ _ carray) with (@insert nat (option Z) (list (option Z))). rewrite Hins, IH.
  by rewrite map_app, <- app_assoc.
Qed.
Lemma c_string_app cs (a : carray) : Forall (λ c, c ≠ 0) cs → c_string (map Some cs ++ a) = (cs ++.) <$> c_string a.
Proof.
  induction 1 as [|c cs Hc _ IH]; simpl; [by destruct (c_string a)|]. destruct (Z.eqb_spec c 0); [done|].
  rewrite IH. by destruct (c_string a).
Qed.
Lemma hex_buffer_string n v : c_string (put_hex_digits n v (hex_buffer n)) = Some (hex_text n v).
Proof.
  assert (hex_buffer n = [Some 48; Some 120] ++ replicate n None ++ [Some 0]) as ->.
  { unfold hex_buffer. replace (n + 3)%nat with (S (S (n + 1))) by lia. simpl. rewrite (Nat.add_comm n 2). simpl.
    rewrite replicate_add. by rewrite insert_app_r_alt, length_replicate, Nat.sub_diag by (rewrite length_replicate; lia). }
  rewrite put_hex_digits_eq by done. change [Some 48; Some 120] with (map Some [48; 120]).
  rewrite c_string_app by (repeat constructor; lia). rewrite c_string_app; [unfold hex_text; simpl; by rewrite app_nil_r|].
  eapply Forall_impl; [apply hex_digits_chars|]. simpl. lia.
Qed.

(** ** Code that only prints *)
Section prints.
Context `{Printing} {G : Type}.
#[local] Abbreviation U := (M (proc G)).
Definition prints (m : U unit) (cs : list Z) : Prop := ∀ p, m p = Done () (printed cs p).
Lemma prints_bind m k cs cs' : prints m cs → prints k cs' → prints (m;; k) (cs ++ cs').
Proof. intros Hm Hk p. unfold mbind, M_bind. by rewrite Hm, Hk, printed_app. Qed.
Lemma prints_ret : prints (mret ()) [].
Proof. intros p. by rewrite printed_nil. Qed.
Lemma prints_when b m cs : prints m cs → prints (when b m) (if b then cs else []).
Proof. intros Hm. destruct b; [done|apply prints_ret]. Qed.
Lemma prints_puts a cs : c_string a = Some cs → prints (puts a) cs.
Proof. intros Ha p. by apply (microkit_dbg_puts_eq a cs p). Qed.
Lemma c_string_chars s (a : carray) : forallb (λ c, negb (c =? 0)) (chars s) = true →
  c_string (map Some (chars s) ++ a) = (chars s ++.) <$> c_string a.
Proof.
  intros Hs. apply c_string_app. apply Forall_forall. intros c Hc%list_elem_of_In. rewrite forallb_forall in Hs.
  specialize (Hs c Hc). by destruct (Z.eqb_spec c 0).
Qed.
Lemma prints_lit s : forallb (λ c, negb (c =? 0)) (chars s) = true → prints (puts (lit s)) (chars s).
Proof. intros Hs. apply prints_puts. unfold lit. rewrite c_string_chars by done. simpl. by rewrite app_nil_r. Qed.
Lemma prints_line s : forallb (λ c, negb (c =? 0)) (chars s) = true → prints (puts (line s)) (chars s ++ [10]).
Proof. intros Hs. apply prints_puts. unfold line. by rewrite c_string_chars. Qed.
Lemma prints_hex64 v : prints (puthex64 v) (hex_text 16 v).
Proof. apply prints_puts, hex_buffer_string. Qed.
Lemma prints_hex32 v : prints (puthex32 v) (hex_text 8 (v mod 2 ^ 32)).
Proof. apply prints_puts, hex_buffer_string. Qed.
Lemma bind_done {A B} (m : U A) (k : A → U B) p a p' : m p = Done a p' → (m ≫= k) p = k a p'.
Proof. intros Hm. unfold mbind, M_bind. by rewrite Hm. Qed.
Lemma prints_bind_eq {A} (m : U unit) (k : U A) cs p : prints m cs → (m;; k) p = k (printed cs p).
Proof. intros Hm. unfold mbind, M_bind. by rewrite Hm. Qed.
End prints.

(** [prints m ?cs] for a statement, and running the statement at the head of the code. *)
Ltac print_rule :=
  lazymatch goal with
  | |- prints (puthex64 _) _ => apply prints_hex64
  | |- prints (puthex32 _) _ => apply prints_hex32
  | |- prints (puts (lit _)) _ => apply prints_lit; reflexivity
  | |- prints (puts (line _)) _ => apply prints_line; reflexivity
  | |- prints (puts _) _ => apply prints_puts; eassumption
  | |- prints (mbind _ _) _ => apply prints_bind
  | |- prints (when _ _) _ => apply prints_when
  end.
Ltac print_head := erewrite prints_bind_eq by print_rule.

(** ** The invocations of the monitor *)
Section stubs.
Context {G : Type}.
Implicit Types (p : proc G).

Definition next_answer p : answer := env p (length (ecalls p)).
Definition answer_label (a : answer) : Z := seL4_MessageInfo_get_label (wrap (ans_info a)).
Definition answer_mrs (a : answer) : list Z := map (λ i, wrap (ans_mr a i)) [0; 1; 2; 3].
(** The system call of a generated stub. *)
Definition stub_call (service id caps n : Z) (inputs : list Z) : ecall :=
  let tag := seL4_MessageInfo_new id 0 caps n in
  ecall_send_recv seL4_SysCall service tag
    (call_args tag (Some (nth 0 inputs 0)) (Some (nth 1 inputs 0)) (Some (nth 2 inputs 0)) (Some (nth 3 inputs 0))) 0.

Lemma generated_stub_eq service id caps n inputs p : answer_label (next_answer p) = 0 →
  generated_stub service id caps n inputs p =
    Done (0, answer_mrs (next_answer p)) (answered (stub_call service id caps n inputs) p).
Proof.
  intros Hl. unfold generated_stub, seL4_CallWithMRs, riscv_sys_send_recv, mbind, M_bind. rewrite ecall_recv_op_eq.
  unfold mret, M_ret, outputs. cbn [map write_back zip_with].
  unfold answer_label, next_answer in Hl. rewrite Hl. done.
Qed.
(** Whatever the answer. *)
Lemma wp_generated_stub service id caps n inputs p : ipc_wf p →
  wp (generated_stub service id caps n inputs) (λ r p', r.1 = answer_label (next_answer p) ∧ ipc_wf p' ∧
    ipc_caps p' = ipc_caps p ∧ globals p' = globals p ∧
    ecalls p' = (stub_call service id caps n inputs, next_answer p) :: ecalls p) p.
Proof.
  intros Hp. unfold generated_stub, seL4_CallWithMRs, riscv_sys_send_recv. apply wp_bind, wp_bind, wp_bind.
  unfold wp at 1. rewrite ecall_recv_op_eq. apply wp_ret, wp_ret. unfold outputs; cbn [write_back map zip_with].
  assert (ipc_wf (answered (stub_call service id caps n inputs) p)) as Hw by by apply answered_wf.
  assert (∀ l m0 m1 m2 m3 (q : proc G), ipc_wf q → l = [m0; m1; m2; m3] →
    (seL4_SetMR 0 (nth 0 l 0);; seL4_SetMR 1 (nth 1 l 0);; seL4_SetMR 2 (nth 2 l 0);; seL4_SetMR 3 (nth 3 l 0)) q =
      Done () (set_ipc_msg ([m0; m1; m2; m3] ++ drop 4 (ipc_msg q)) q)) as Hset.
  { intros l m0 m1 m2 m3 q Hq ->. unfold ipc_wf in Hq. destruct q as [ms ca co ec gl en]; simpl in Hq.
    destruct ms as [|w0 [|w1 [|w2 [|w3 ms]]]]; done. }
  apply wp_bind, wp_when; intros _; [|apply wp_ret; by split_and!].
  unfold wp at 1. erewrite Hset; [|done|done]. apply wp_ret. split_and!; try done.
  unfold ipc_wf. cbn [ipc_msg set_ipc_msg]. by rewrite length_app, length_drop, Hw.
Qed.

Lemma get_mrs_eq n i p : 0 ≤ i → (Z.to_nat i + n ≤ length (ipc_msg p))%nat →
  get_mrs n i p = Done (take n (drop (Z.to_nat i) (ipc_msg p))) p.
Proof.
  revert i. induction n as [|n IH]; intros i Hi Hl; [done|].
  destruct (lookup_lt_is_Some_2 (ipc_msg p) (Z.to_nat i)) as [w Hw]; [lia|].
  rewrite (drop_S _ w) by done. cbn [get_mrs take]. unfold mbind, M_bind. rewrite (seL4_GetMR_eq i w) by done.
  rewrite IH by lia. by replace (Z.to_nat (i + 1)) with (S (Z.to_nat i)) by lia.
Qed.

(** The context that a successful [seL4_TCB_ReadRegisters] of all registers returns. *)
Definition context_of (a : answer) : list Z := answer_mrs a ++ take 28 (buffer_words a).
Definition read_call (tcb_cap : Z) : ecall := stub_call tcb_cap TCBReadRegisters 0 2 [0; n_user_context].
Lemma ReadRegisters_eq tcb_cap p : ipc_wf p → answer_label (next_answer p) = 0 →
  seL4_TCB_ReadRegisters tcb_cap false 0 n_user_context p = Done (0, context_of (next_answer p)) (answered (read_call tcb_cap) p).
Proof.
  intros Hp Hl. unfold seL4_TCB_ReadRegisters. unfold mbind at 1, M_bind at 1. rewrite generated_stub_eq by done.
  change (register_flags false 0) with 0. cbn [negb Z.eqb]. change (Z.to_nat (n_user_context - 4)) with 28%nat.
  unfold mbind, M_bind. pose proof (answered_wf (read_call tcb_cap) p Hp) as Hw.
  change (stub_call _ _ _ _ _) with (read_call tcb_cap). rewrite get_mrs_eq; [|done|unfold ipc_wf in Hw; rewrite Hw; apply Nat.leb_le; by vm_compute].
  unfold mret, M_ret, context_of. do 3 f_equal. cbn [ipc_msg answered set_ipc_msg]. change (Z.to_nat 4) with 4%nat.
  rewrite drop_app_length' by (rewrite length_take, Hp; done). done.
Qed.
End stubs.

(** ** The text of the reports *)
#[local] Opaque hex_text.
Definition nl : list Z := [10].
Definition register_line (regs : list Z) (r : string * Z) : list Z :=
  chars (r.1) ++ hex_text 16 (nth (Z.to_nat (r.2)) regs 0) ++ nl.
Definition registers_text (regs : list Z) : list Z := chars "Registers: " ++ nl ++ concat (map (register_line regs) printed_registers).
Definition vm_text (ip addr prefetch fsr : Z) : list Z :=
  chars "MON|ERROR: VMFault: ip=" ++ hex_text 16 ip ++ chars "  fault_addr=" ++ hex_text 16 addr ++
  chars "  fsr=" ++ hex_text 16 fsr ++ chars "  " ++
  (if negb (prefetch =? 0) then chars "(instruction fault)" else chars "(data fault)") ++ nl ++
  chars "MON|ERROR: description of fault: " ++ default [] (c_string (riscv_fsr_to_string fsr)) ++ nl.
Definition failure_text (type : Z) : list Z :=
  if type =? 0 then chars "seL4_NoFailure"
  else if type =? 1 then chars "seL4_InvalidRoot"
  else if type =? 2 then chars "seL4_MissingCapability"
  else if type =? 3 then chars "seL4_DepthMismatch"
  else if type =? 4 then chars "seL4_GuardMismatch"
  else hex_text 16 type.
Definition cap_text (ip addr phase type mr4 mr5 mr6 : Z) : list Z :=
  chars "MON|ERROR: CapFault: ip=" ++ hex_text 16 ip ++ chars "  fault_addr=" ++ hex_text 16 addr ++
  chars "  in_recv_phase=" ++ (if phase =? 0 then chars "false" else chars "true") ++
  chars "  lookup_failure_type=" ++ failure_text type ++
  (if (type =? 2) || (type =? 3) || (type =? 4) then chars "  bits_left=" ++ hex_text 16 mr4 else []) ++
  (if type =? 3 then chars "  depth_bits_found=" ++ hex_text 16 mr5 else []) ++
  (if type =? 4 then chars "  guard_found=" ++ hex_text 16 mr5 ++ chars "  guard_bits_found=" ++ hex_text 16 mr6 else []) ++ nl.
Definition header_text (badge label tcb_cap : Z) : list Z :=
  chars "MON|ERROR: received message " ++ hex_text 8 (label mod 2 ^ 32) ++ chars "  badge: " ++ hex_text 16 badge ++
  chars "  tcb cap: " ++ hex_text 16 tcb_cap ++ nl.
Definition pd_text (name : list Z) : list Z := chars "MON|ERROR: faulting PD: " ++ name ++ nl.
Definition overflow_text : list Z :=
  chars "MON|ERROR: potential stack overflow, fault address within one page outside of stack region" ++ nl.

Section reports.
Context `{Printing}.
Implicit Types (p : proc mon).

Ltac print_code := repeat first
  [ apply prints_hex64 | apply prints_hex32 | apply prints_ret
  | apply prints_when | (apply prints_puts; reflexivity)
  | apply prints_bind ].
Lemma prints_registers l regs : Forall (λ r, is_Some (c_string (lit r.1)) ∧ c_string (lit r.1) = Some (chars r.1) ∧ (Z.to_nat r.2 < length regs)%nat) l →
  prints (print_registers l regs) (concat (map (register_line regs) l)).
Proof.
  induction 1 as [|[name i] l (_ & Hs & Hi) _ IH]; [apply prints_ret|]. cbn [fst snd] in Hs, Hi.
  cbn [print_registers map concat]. unfold register_line at 1. cbn [fst snd]. rewrite <- !app_assoc. apply prints_bind; [by apply prints_puts|]. intros p.
  destruct (lookup_lt_is_Some_2 regs (Z.to_nat i)) as [v Hv]; [done|].
  unfold mbind at 1, M_bind at 1, deref. rewrite Hv. rewrite (nth_lookup_Some _ _ _ _ Hv).
  revert p. apply prints_bind; [apply prints_hex64|]. apply prints_bind; [by apply prints_puts|done].
Qed.
Lemma prints_tcb_registers regs : length regs = 32%nat → prints (print_tcb_registers regs) (registers_text regs).
Proof.
  intros Hl. unfold print_tcb_registers, registers_text. rewrite app_assoc. apply prints_bind; [by apply prints_puts|].
  apply prints_registers. rewrite Hl. repeat (constructor; [split_and!; [by eexists|done|apply Nat.ltb_lt; by vm_compute]|]). constructor.
Qed.
Lemma prints_failure_name type : prints (lookup_failure_name type) (failure_text type).
Proof. unfold lookup_failure_name, failure_text. repeat case_match; print_code. Qed.
Lemma fsr_string fsr : is_Some (c_string (riscv_fsr_to_string fsr)).
Proof. unfold riscv_fsr_to_string. repeat case_match; by eexists. Qed.

(** [m] prints once its argument has been read. *)
Lemma GetMR_bind {A} i w (k : Z → M (proc mon) A) p : 0 ≤ i → ipc_msg p !! Z.to_nat i = Some w → (seL4_GetMR i ≫= k) p = k w p.
Proof. intros Hi Hw. unfold mbind, M_bind. by rewrite (seL4_GetMR_eq i w). Qed.
Lemma print_vm_fault_eq ip addr prefetch fsr l p : ipc_msg p = ip :: addr :: prefetch :: fsr :: l →
  riscv_print_vm_fault p = Done () (printed (vm_text ip addr prefetch fsr) p).
Proof.
  intros Hm. unfold riscv_print_vm_fault. rewrite (GetMR_bind _ ip), (GetMR_bind _ addr), (GetMR_bind _ prefetch), (GetMR_bind _ fsr)
    by (done || by rewrite Hm).
  revert p Hm. intros p _. revert p. unfold vm_text. destruct (fsr_string fsr) as [d Hd]. rewrite Hd. cbn [default].
  repeat (apply prints_bind; [first [apply prints_hex64|apply prints_puts; first [done|by destruct (negb _)]]|]).
  by apply prints_puts.
Qed.
Lemma print_cap_fault_eq ip addr phase type mr4 mr5 mr6 l p : ipc_msg p = ip :: addr :: phase :: type :: mr4 :: mr5 :: mr6 :: l →
  print_cap_fault p = Done () (printed (cap_text ip addr phase type mr4 mr5 mr6) p).
Proof.
  intros Hm. unfold print_cap_fault. rewrite (GetMR_bind _ ip), (GetMR_bind _ addr), (GetMR_bind _ phase), (GetMR_bind _ type),
    (GetMR_bind _ mr4), (GetMR_bind _ mr5), (GetMR_bind _ mr5), (GetMR_bind _ mr6) by (done || by rewrite Hm).
  revert p Hm. intros p _. revert p. unfold cap_text.
  repeat (apply prints_bind; [first [apply prints_hex64|apply prints_failure_name|
    apply prints_when; repeat (apply prints_bind; [first [apply prints_hex64|by apply prints_puts]|]); apply prints_hex64 |
    apply prints_puts; first [done|by destruct (phase =? 0)]]|]).
  by apply prints_puts.
Qed.
End reports.

(** ** A round of the monitor *)
Section round.
Context `{Printing}.
Implicit Types (p : proc mon).

(** The tool fills in a terminated name (empty for the domains that do not exist) and a stack
    address for each of the 64 domains. *)
Definition mon_wf (g : mon) : Prop :=
  length (pd_names g) = Z.to_nat MAX_PDS ∧ Forall (λ name, is_Some (c_string name)) (pd_names g) ∧
  length (pd_stack_bottom_addrs g) = Z.to_nat MAX_PDS.
Definition name_of (g : mon) (pd_id : Z) : list Z := default [] (pd_names g !! Z.to_nat pd_id ≫= c_string).
(** The domain that a message names, and the message. *)
Definition sender_of (a : answer) : Z := wrap (ans_badge a) -w 1.
Definition recv_call : ecall := ecall_recv seL4_SysRecv FAULT_EP_CAP MON_REPLY_CAP.
Definition bind_call (pd_id : Z) : ecall := stub_call (BASE_SCHED_CONTEXT_CAP + pd_id) SchedContextBind 1 0 [].

Lemma pd_name_eq pd_id p : mon_wf (globals p) → 0 ≤ pd_id < MAX_PDS →
  ∃ name, pd_name pd_id p = Done name p ∧ c_string name = Some (name_of (globals p) pd_id) ∧
    head name = Some (Some (hd 0 (name_of (globals p) pd_id))) ∧ hd 1 (name_of (globals p) pd_id) ≠ 0.
Proof.
  intros (Hl & Hn & _) Hp. destruct (lookup_lt_is_Some_2 (pd_names (globals p)) (Z.to_nat pd_id)) as [name Hname]; [lia|].
  destruct (Forall_lookup_1 _ _ _ _ Hn Hname) as [cs Hcs]. exists name. unfold name_of. rewrite Hname. simpl. rewrite Hcs. simpl.
  split_and!; try done.
  - unfold pd_name, mbind, M_bind, get_state, deref. by rewrite Hname.
  - destruct name as [|[c|] name]; try done. simpl in *. destruct (Z.eqb_spec c 0) as [->|]; [by injection Hcs as <-|].
    by apply fmap_Some in Hcs as (cs' & _ & ->).
  - destruct name as [|[c|] name]; try done. simpl in Hcs. destruct (Z.eqb_spec c 0) as [->|]; [by injection Hcs as <-|].
    by apply fmap_Some in Hcs as (cs' & _ & ->).
Qed.
Lemma sender_range a pd_id : sender_of a = pd_id → pd_id < MAX_PDS → 0 ≤ pd_id < MAX_PDS.
Proof. intros <- Hlt. split; [|done]. apply Z.mod_pos_bound. lia. Qed.
Lemma small_sum base pd_id : 0 ≤ base < 1000 → 0 ≤ pd_id < MAX_PDS → base +w pd_id = base + pd_id.
Proof. unfold MAX_PDS. intros ? ?. apply wrap_small. unfold is_word. lia. Qed.

(** Printing changes nothing but the console. *)
Lemma printed_fields cs p : ipc_msg (printed cs p) = ipc_msg p ∧ ipc_caps (printed cs p) = ipc_caps p ∧
  ecalls (printed cs p) = ecalls p ∧ globals (printed cs p) = globals p ∧ env (printed cs p) = env p.
Proof. unfold printed. by destruct CONFIG_PRINTING. Qed.

Lemma wp_puts a Q p : is_Some (c_string a) → (∀ cs, Q () (printed cs p)) → wp (puts a) Q p.
Proof. intros [cs Hcs] HQ. unfold wp. by rewrite (prints_puts a cs Hcs). Qed.

Lemma make_passive_ok pd_id p : ipc_wf p → ipc_caps p ≠ [] → mon_wf (globals p) → 0 ≤ pd_id < MAX_PDS →
  wp (make_passive pd_id) (λ _ p', ipc_wf p' ∧ globals p' = globals p ∧
    ipc_caps p' !! 0%nat = Some (BASE_NOTIFICATION_CAP + pd_id) ∧
    ecalls p' = (bind_call pd_id, next_answer p) :: ecalls p) p.
Proof.
  intros Hi Hc Hg Hpd. unfold make_passive, seL4_SchedContext_Bind. rewrite !small_sum by done.
  destruct (ipc_caps p) as [|c0 caps] eqn:Hcaps; [done|]. apply wp_bind, wp_bind.
  set (p1 := set_ipc_caps (BASE_NOTIFICATION_CAP + pd_id :: caps) p).
  assert (seL4_SetCap 0 (BASE_NOTIFICATION_CAP + pd_id) p = Done () p1) as Hset.
  { unfold seL4_SetCap, mbind, M_bind, get_state, deref, modify, p1. by rewrite Hcaps. }
  unfold wp at 1. rewrite Hset. apply wp_bind. eapply wp_mono; [by apply wp_generated_stub|].
  intros [result mrs] p2 (_ & Hi2 & Hc2 & Hg2 & He2). apply wp_ret. cbn [fst].
  assert (Hcap2 : ipc_caps p2 !! 0%nat = Some (BASE_NOTIFICATION_CAP + pd_id)) by by rewrite Hc2.
  case_match.
  - apply wp_puts; [by eexists|]. intros cs. destruct (printed_fields cs p2) as (E1 & E2 & E3 & E4 & _).
    unfold ipc_wf. by rewrite E1, E2, E3, E4.
  - apply wp_bind, wp_puts; [by eexists|]. intros cs. apply wp_bind.
    destruct (printed_fields cs p2) as (E1 & E2 & E3 & E4 & _).
    destruct (pd_name_eq pd_id (printed cs p2)) as (name & Hn & Hs & _); [by rewrite E4, Hg2|done|].
    unfold wp at 1. rewrite Hn. apply wp_bind, wp_puts; [by eexists|]. intros cs2. apply wp_puts; [by eexists|]. intros cs3.
    unfold ipc_wf. rewrite <- !printed_app. destruct (printed_fields (cs ++ cs2 ++ cs3) p2) as (F1 & F2 & F3 & F4 & _).
    rewrite <- ?app_assoc. by rewrite F1, F2, F3, F4.
Qed.

(** *** Faults *)
Lemma printed_answered cs e p : answered e (printed cs p) = printed cs (answered e p).
Proof. unfold printed. by destruct CONFIG_PRINTING. Qed.
Lemma printed_next_answer cs p : next_answer (printed cs p) = next_answer p.
Proof. unfold printed. by destruct CONFIG_PRINTING. Qed.
Lemma printed_wf cs p : ipc_wf (printed cs p) ↔ ipc_wf p.
Proof. unfold ipc_wf. by rewrite (proj1 (printed_fields cs p)). Qed.
Lemma context_length a : length (context_of a) = 32%nat.
Proof. unfold context_of. rewrite length_app, length_take, buffer_words_length. done. Qed.

(** What is printed about the fault itself. *)
Definition fault_code (label pd_id : Z) : M (proc mon) unit :=
  if label =? 1 then print_cap_fault
  else if label =? 3 then puts (line "MON|ERROR: UserException")
  else if label =? 6 then print_vm_fault pd_id
  else puts (line "MON|ERROR: Unknown fault");; puthex64 label.
Definition known (g : mon) (pd_id : Z) : bool := (pd_id <? MAX_PDS) && negb (bool_decide (name_of g pd_id = [])).

Lemma report_fault_prefix badge label pd_id tcb_cap p : ipc_wf p → mon_wf (globals p) → 0 ≤ pd_id →
  report_fault badge label pd_id tcb_cap p =
    (if known (globals p) pd_id then
       r ← seL4_TCB_ReadRegisters tcb_cap false 0 n_user_context;
       if negb (fst r =? 0) then fail (lit "error reading registers");; mret false else
       print_tcb_registers (snd r);; fault_code label pd_id;; mret true
     else fail (line "MON|ERROR: unknown/invalid badge");; mret false)
      (printed (header_text badge label tcb_cap ++ (if known (globals p) pd_id then pd_text (name_of (globals p) pd_id) else [])) p).
Proof.
  intros Hi Hg Hpd. unfold report_fault. do 7 print_head.
  assert (∀ k : M (proc mon) bool, k (printed (chars "" ++ [10]) (printed (hex_text 16 tcb_cap) (printed (chars "  tcb cap: ")
    (printed (hex_text 16 badge) (printed (chars "  badge: ") (printed (hex_text 8 (label mod 2 ^ 32))
      (printed (chars "MON|ERROR: received message ") p))))))) = k (printed (header_text badge label tcb_cap) p)) as ->.
  { intros k. change (chars "" ++ [10]) with nl. unfold header_text. by rewrite !printed_app. }
  rewrite printed_app. set (q := printed (header_text badge label tcb_cap) p).
  assert (globals q = globals p) as Hgq by apply printed_fields. clearbody q.
  unfold known. destruct (Z.ltb_spec pd_id MAX_PDS) as [Hlt|]; cbn [andb]; [|by rewrite printed_nil].
  destruct (pd_name_eq pd_id q) as (name & Hn & Hs & Hh0 & Hh1); [by rewrite Hgq|done|]. rewrite Hgq in *.
  assert ((name ← pd_name pd_id; o ← deref (head name); c ← deref o; mret (negb (c =? 0))) q =
    Done (negb (hd 0 (name_of (globals p) pd_id) =? 0)) q) as Hk by (rewrite (bind_done _ _ _ _ _ Hn); by rewrite Hh0).
  rewrite (bind_done _ _ _ _ _ Hk).
  destruct (name_of (globals p) pd_id) as [|c cs] eqn:Hname; [by rewrite printed_nil|].
  rewrite bool_decide_false by done. cbn [hd] in Hh1. cbn [negb hd]. destruct (Z.eqb_spec c 0); [done|]. cbn [negb].
  print_head. assert (pd_name pd_id (printed (chars "MON|ERROR: faulting PD: ") q) = Done name (printed (chars "MON|ERROR: faulting PD: ") q)) as Hn2.
  { destruct (printed_fields (chars "MON|ERROR: faulting PD: ") q) as (_ & _ & _ & E & _).
    revert Hn. unfold pd_name, mbind, M_bind, get_state. rewrite E. unfold deref. by destruct (_ !! _); intros [= ->]. }
  rewrite (bind_done _ _ _ _ _ Hn2). do 2 print_head.
  assert (∀ k : M (proc mon) bool, k (printed (chars "" ++ [10]) (printed (c :: cs) (printed (chars "MON|ERROR: faulting PD: ") q))) =
    k (printed (pd_text (c :: cs)) q)) as ->.
  { intros k. change (chars "" ++ [10]) with nl. unfold pd_text. by rewrite !printed_app. }
  unfold mbind, M_bind. by destruct (seL4_TCB_ReadRegisters _ _ _ _ _) as [[]|].
Qed.

(** The lines before the description of a fault. *)
Definition report_text (badge label tcb_cap : Z) (name regs : list Z) : list Z :=
  header_text badge label tcb_cap ++ pd_text name ++ registers_text regs.
Lemma report_fault_eq badge label pd_id tcb_cap p : ipc_wf p → mon_wf (globals p) → 0 ≤ pd_id →
  known (globals p) pd_id = true → answer_label (next_answer p) = 0 →
  report_fault badge label pd_id tcb_cap p = (fault_code label pd_id;; mret true)
    (printed (report_text badge label tcb_cap (name_of (globals p) pd_id) (context_of (next_answer p)))
       (answered (read_call tcb_cap) p)).
Proof.
  intros Hi Hg Hpd Hk Hl. rewrite report_fault_prefix by done. rewrite Hk.
  set (cs := header_text _ _ _ ++ pd_text _). erewrite bind_done; [|apply ReadRegisters_eq; [by apply printed_wf|by rewrite printed_next_answer]].
  cbn [fst snd Z.eqb negb]. rewrite (prints_bind_eq _ _ _ _ (prints_tcb_registers _ (context_length _))).
  rewrite printed_next_answer, printed_answered, <- printed_app. unfold report_text, cs. by rewrite <- app_assoc.
Qed.
Lemma fault_code_wp label pd_id p : ipc_wf p → mon_wf (globals p) → 0 ≤ pd_id < MAX_PDS →
  ∃ cs, fault_code label pd_id p = Done () (printed cs p).
Proof.
  intros Hi (_ & _ & Hs) Hpd. unfold ipc_wf in Hi. unfold fault_code.
  destruct (ipc_msg p) as [|m0 [|m1 [|m2 [|m3 [|m4 [|m5 [|m6 ms]]]]]]] eqn:Hm; try done.
  destruct (label =? 1); [by eexists; eapply print_cap_fault_eq|].
  destruct (label =? 3); [eexists; by apply prints_line|].
  destruct (label =? 6); [|eexists; apply prints_bind; [by apply prints_line|apply prints_hex64]].
  unfold print_vm_fault. rewrite (bind_done _ _ _ _ _ (print_vm_fault_eq m0 m1 m2 m3 _ p Hm)).
  set (cs := vm_text m0 m1 m2 m3). destruct (printed_fields cs p) as (E1 & _ & _ & E4 & _).
  rewrite (GetMR_bind _ m1) by (done || by rewrite E1, Hm).
  destruct (lookup_lt_is_Some_2 (pd_stack_bottom_addrs (globals p)) (Z.to_nat pd_id)) as [st Hst]; [lia|].
  unfold mbind, M_bind, get_state, deref. rewrite E4, Hst. erewrite (prints_when _ (puts _)) by (by apply prints_line). rewrite <- printed_app. by eexists.
Qed.

Lemma fail_wp a p : is_Some (c_string a) → ∃ cs, fail a p = Done () (printed cs p).
Proof.
  intros [cs Hcs]. eexists. unfold fail. apply prints_bind; [by apply prints_lit|]. apply prints_bind; [by apply prints_puts|by apply prints_line].
Qed.

Lemma report_fault_wp badge label pd_id tcb_cap p : ipc_wf p → mon_wf (globals p) → 0 ≤ pd_id →
  wp (report_fault badge label pd_id tcb_cap) (λ go p', ipc_wf p' ∧ globals p' = globals p ∧
    if known (globals p) pd_id then
      ecalls p' = (read_call tcb_cap, next_answer p) :: ecalls p ∧ go = (answer_label (next_answer p) =? 0)
    else ecalls p' = ecalls p ∧ go = false) p.
Proof.
  intros Hi Hg Hpd. destruct (known (globals p) pd_id) eqn:Hk.
  - assert (0 ≤ pd_id < MAX_PDS) as Hr by (unfold known in Hk; apply andb_true_iff in Hk as [Hk _]; apply Z.ltb_lt in Hk; lia).
    destruct (Z.eqb_spec (answer_label (next_answer p)) 0) as [Hl|Hl].
    + unfold wp. rewrite report_fault_eq by done. set (q := printed _ _).
      destruct (printed_fields (report_text badge label tcb_cap (name_of (globals p) pd_id) (context_of (next_answer p)))
        (answered (read_call tcb_cap) p)) as (E1 & _ & E3 & E4 & _).
      assert (ipc_wf q) as Hq by (apply printed_wf; by apply answered_wf).
      fold q in E1, E3, E4. destruct (fault_code_wp label pd_id q) as [cs Hcs]; [done|by rewrite E4|done|].
      rewrite (bind_done _ _ _ _ _ Hcs). destruct (printed_fields cs q) as (F1 & _ & F3 & F4 & _). unfold mret, M_ret.
      split_and!; [by apply printed_wf|by rewrite F4, E4|by rewrite F3, E3|done].
    + unfold wp. rewrite report_fault_prefix, Hk by done. set (q := printed _ p). 
      assert (next_answer q = next_answer p) as Hna by apply printed_next_answer.
      assert (ipc_wf q) as Hq by by apply printed_wf.
      destruct (printed_fields (header_text badge label tcb_cap ++ pd_text (name_of (globals p) pd_id)) p) as (_ & _ & E3 & E4 & _). fold q in E3, E4.
      change (wp (r ← seL4_TCB_ReadRegisters tcb_cap false 0 n_user_context;
        if negb (fst r =? 0) then fail (lit "error reading registers");; mret false else
          print_tcb_registers (snd r);; fault_code label pd_id;; mret true) (λ go p', ipc_wf p' ∧ globals p' = globals p ∧
          ecalls p' = (read_call tcb_cap, next_answer p) :: ecalls p ∧ go = false) q).
      unfold seL4_TCB_ReadRegisters. apply wp_bind, wp_bind. eapply wp_mono; [by apply wp_generated_stub|].
      intros [result mrs] p2 (Hr2 & Hi2 & _ & Hg2 & He2). cbn [fst] in Hr2. rewrite Hna in *. rewrite Hr2.
      destruct (Z.eqb_spec (answer_label (next_answer p)) 0); [done|]. cbn [negb]. apply wp_ret. cbn [fst].
      destruct (Z.eqb_spec (answer_label (next_answer p)) 0); [done|]. cbn [negb].
      destruct (fail_wp (lit "error reading registers") p2) as [cs Hcs]; [by eexists|]. unfold wp. rewrite (bind_done _ _ _ _ _ Hcs).
      destruct (printed_fields cs p2) as (_ & _ & F3 & F4 & _). unfold mret, M_ret.
      split_and!; [by apply printed_wf|by rewrite F4, Hg2, <- E4|rewrite F3, He2; by rewrite <- E3|done].
  - unfold wp. rewrite report_fault_prefix, Hk by done. set (q := printed _ p).
    destruct (fail_wp (line "MON|ERROR: unknown/invalid badge") q) as [cs Hcs]; [by eexists|]. rewrite (bind_done _ _ _ _ _ Hcs).
    unfold q. rewrite <- printed_app. destruct (printed_fields ((header_text badge label tcb_cap ++ []) ++ cs) p) as (E1 & _ & E3 & E4 & _).
    unfold mret, M_ret. split_and!; [by apply printed_wf|done..].
Qed.

Lemma received_facts e p : ipc_caps (received e p) = ipc_caps p ∧ globals (received e p) = globals p ∧
  ecalls (received e p) = (e, next_answer p) :: ecalls p ∧ next_answer (received e p) = env p (S (length (ecalls p))).
Proof. done. Qed.

(** C16: What the monitor does with a message. Its badge names a domain. A message without a
    fault from an existing number binds the scheduling context of just that domain to its
    notification; a fault of a domain with a name reads the registers of just that thread,
    and the monitor goes on unless this fails; anything else stops the monitor. It always
    gets that far, touches no other capability, and its own data stays as it is. *)
Theorem monitor_round_ok p : ipc_wf p → ipc_caps p ≠ [] → mon_wf (globals p) →
  wp monitor_round (λ go p',
    let a := next_answer p in let a' := env p (S (length (ecalls p))) in let pd_id := sender_of a in
    ipc_wf p' ∧ globals p' = globals p ∧ ∃ t, ecalls p' = t ++ (recv_call, a) :: ecalls p ∧
    if (answer_label a =? 0) && (pd_id <? MAX_PDS) then
      go = true ∧ t = [(bind_call pd_id, a')] ∧ ipc_caps p' !! 0%nat = Some (BASE_NOTIFICATION_CAP + pd_id)
    else if known (globals p) pd_id then t = [(read_call (BASE_PD_TCB_CAP + pd_id), a')] ∧ go = (answer_label a' =? 0)
    else t = [] ∧ go = false) p.
Proof.
  intros Hi Hc Hg. unfold monitor_round. apply wp_bind. unfold wp at 1. rewrite seL4_Recv_eq by done.
  destruct (received_facts recv_call p) as (E2 & E4 & E3 & Ena). unfold received_from. cbv beta iota zeta.
  fold (next_answer p). fold (answer_label (next_answer p)). fold (sender_of (next_answer p)). fold recv_call.
  set (q := received recv_call p) in *. set (pd_id := sender_of (next_answer p)).
  assert (0 ≤ pd_id) as Hpos by (apply Z.mod_pos_bound; lia).
  destruct ((answer_label (next_answer p) =? 0) && (pd_id <? MAX_PDS)) eqn:Hpass.
  - apply andb_true_iff in Hpass as [_ Hlt%Z.ltb_lt]. apply wp_bind.
    eapply wp_mono; [apply make_passive_ok; [apply received_wf|by rewrite E2|by rewrite E4|lia]|].
    intros [] p' (Hi' & Hg' & Hcap & He'). apply wp_ret. split_and!; [done|by rewrite Hg', E4|]. rewrite Ena, E3 in He'.
    exists [(bind_call pd_id, env p (S (length (ecalls p))))]. by split_and!.
  - eapply wp_mono; [apply report_fault_wp; [apply received_wf|by rewrite E4|done]|].
    intros go p' (Hi' & Hg' & Hrest). split_and!; [done|by rewrite Hg', E4|]. rewrite E4 in Hrest.
    destruct (known (globals p) pd_id) eqn:Hk; destruct Hrest as [He' Hgo]; rewrite ?Ena, E3 in He'; rewrite ?Ena in Hgo.
    + unfold known in Hk. apply andb_true_iff in Hk as [Hlt%Z.ltb_lt _]. rewrite small_sum in He' by (done || lia).
      eexists [_]. split; [done|]. by split.
    + exists []. done.
Qed.

(** The monitor after it reported a fault. *)
Definition after_report (p : proc mon) (text : list Z) : proc mon :=
  let a := next_answer p in let pd_id := sender_of a in
  printed (report_text (wrap (ans_badge a)) (answer_label a) (BASE_PD_TCB_CAP + pd_id) (name_of (globals p) pd_id)
             (context_of (env p (S (length (ecalls p))))) ++ text)
    (answered (read_call (BASE_PD_TCB_CAP + pd_id)) (received recv_call p)).
Lemma monitor_report_eq p : ipc_wf p → mon_wf (globals p) → known (globals p) (sender_of (next_answer p)) = true →
  answer_label (next_answer p) ≠ 0 → answer_label (env p (S (length (ecalls p)))) = 0 →
  monitor_round p = (fault_code (answer_label (next_answer p)) (sender_of (next_answer p));; mret true) (after_report p []).
Proof.
  intros Hi Hg Hk Hl Hl'. unfold monitor_round. erewrite bind_done; [|by apply seL4_Recv_eq].
  unfold received_from. cbv beta iota zeta. fold (next_answer p). fold (answer_label (next_answer p)).
  fold (sender_of (next_answer p)). fold recv_call. destruct (Z.eqb_spec (answer_label (next_answer p)) 0); [done|]. cbn [andb].
  assert (0 ≤ sender_of (next_answer p)) by (apply Z.mod_pos_bound; lia).
  destruct (received_facts recv_call p) as (E2 & E4 & E3 & Ena). set (q := received recv_call p) in *.
  rewrite report_fault_eq; [|apply received_wf|by rewrite E4|done|by rewrite E4|by rewrite Ena].
  unfold after_report. fold q. rewrite app_nil_r, E4, Ena. unfold known in Hk.
  apply andb_true_iff in Hk as [Hlt%Z.ltb_lt _]. by rewrite small_sum by (done || lia).
Qed.
End round.

(** * From a fault in the kernel to the report of the monitor

    The message that the kernel writes for a fault ([Message.setMRs_fault]), the system call
    stub that puts it into the monitor's IPC buffer, and the lines that the monitor prints. *)

Section kernel.
Context `{Platform}.

Lemma setRegister_eq thread reg w t s : tcbs s !! thread = Some t →
  setRegister thread reg w s = Done () (set_tcbs (<[thread := set_tcbContext (<[reg := w]> (tcbContext t)) t]> (tcbs s)) s).
Proof. intros Ht. unfold setRegister, mod_tcb, get_tcb, mbind, M_bind, get_state, deref. by rewrite Ht. Qed.

(** The registers in which the receiver of a fault finds the message. *)
Lemma vm_fault_message s s' sender receiver buf len t r address fsr inst :
  tcbs s !! sender = Some t → tcbFault t = seL4_Fault_VMFault address fsr inst → sender ≠ receiver →
  setMRs_fault sender receiver buf s = Done len s' → tcbs s' !! receiver = Some r →
  map (λ i, tcbContext r !! msg_register i) [0; 1; 2; 3] =
    [Some (wrap (default 0 (tcbContext t !! FaultIP))); Some address; Some (Z.b2z inst); Some fsr].
Proof.
  intros Ht Hf Hne Hrun Hr. destruct (tcbs s !! receiver) as [r0|] eqn:Hr0.
  - unfold setMRs_fault, Arch_setMRs_fault, getRestartPC, getRegister, get_tcb, setMR in Hrun.
    unfold mbind, M_bind, get_state, deref, mret, M_ret in Hrun. rewrite Ht, Hf, Ht in Hrun. cbn [n_msgRegisters Z.leb Z.compare Pos.compare Pos.compare_cont] in Hrun.
    do 4 (erewrite setRegister_eq in Hrun by (cbn [tcbs set_tcbs]; first [exact Hr0|by rewrite lookup_insert_eq]); cbn [tcbs set_tcbs] in Hrun).
    injection Hrun as _ <-. cbn [tcbs set_tcbs] in Hr. rewrite lookup_insert_eq in Hr. injection Hr as <-. cbn [tcbContext set_tcbContext map].
    unfold msg_register; simpl. by simplify_map_eq.
  - exfalso. unfold setMRs_fault, Arch_setMRs_fault, getRestartPC, getRegister, get_tcb, setMR in Hrun.
    unfold mbind, M_bind, get_state, deref, mret, M_ret in Hrun. rewrite Ht, Hf, Ht in Hrun. cbn in Hrun.
    unfold setRegister, mod_tcb, get_tcb, mbind, M_bind, get_state, deref in Hrun. by rewrite Hr0 in Hrun.
Qed.
End kernel.

Section report.
Context `{Printing}.
Implicit Types (p : proc mon).

(** The word [i] of the message array when a fault is described: the first four come from the
    message, the others from the answer to the reading of the registers. *)
Lemma report_words p text : ipc_wf p →
  ipc_msg (after_report p text) = answer_mrs (next_answer p) ++ buffer_words (env p (S (length (ecalls p)))).
Proof. intros Hi. unfold after_report. rewrite (proj1 (printed_fields _ _)). done. Qed.
Lemma after_report_app p text more : printed more (after_report p text) = after_report p (text ++ more).
Proof. unfold after_report. by rewrite <- printed_app, <- app_assoc. Qed.
Lemma after_report_globals p text : globals (after_report p text) = globals p.
Proof. unfold after_report. by rewrite (proj1 (proj2 (proj2 (proj2 (printed_fields _ _))))). Qed.
Lemma hex_digits_word w : is_word w → hex_value (hex_digits 16 w) = w.
Proof. intros [? ?]. rewrite hex_digits_value by done. by apply Z.mod_small. Qed.
End report.

Section end_to_end.
Context `{Printing} `{Platform}.
Implicit Types (p : proc mon).

(** C15: A page fault is reported truthfully from end to end. When the kernel has put the
    message of a page fault into the registers of the monitor and the monitor's receive
    returns with them, the console line shows the program counter at which the thread
    faulted, the address, the kind of access and the fault status, as hexadecimal numbers
    that read back to these words; then the possible stack overflow is pointed out. *)
Theorem vm_fault_reported s s' sender receiver buf len t r address fsr inst p :
  tcbs s !! sender = Some t → tcbFault t = seL4_Fault_VMFault address fsr inst → sender ≠ receiver →
  setMRs_fault sender receiver buf s = Done len s' → tcbs s' !! receiver = Some r →
  let a := next_answer p in let pc := wrap (default 0 (tcbContext t !! FaultIP)) in
  (∀ i, 0 ≤ i < 4 → wrap (ans_mr a i) = wrap (default 0 (tcbContext r !! msg_register i))) →
  ipc_wf p → mon_wf (globals p) → known (globals p) (sender_of a) = true →
  answer_label a = seL4_FaultType (tcbFault t) → answer_label (env p (S (length (ecalls p)))) = 0 →
  (∃ rest, (rest = [] ∨ rest = overflow_text) ∧
    monitor_round p = Done true (after_report p (vm_text pc (wrap address) (Z.b2z inst) (wrap fsr) ++ rest))) ∧
  hex_value (hex_digits 16 pc) = pc ∧ hex_value (hex_digits 16 (wrap address)) = wrap address ∧
  hex_value (hex_digits 16 (wrap fsr)) = wrap fsr.
Proof.
  intros Ht Hf Hne Hrun Hr a pc Hmr Hi Hg Hk Hl Hl'. rewrite Hf in Hl. cbn [seL4_FaultType] in Hl.
  pose proof (vm_fault_message s s' sender receiver buf len t r address fsr inst Ht Hf Hne Hrun Hr) as Hmsg.
  injection Hmsg as H0' H1' H2' H3'. assert (∀ x, is_word (wrap x)) as Hw by (intros x; apply Z.mod_pos_bound; lia).
  split; [|split_and!; by apply hex_digits_word; try apply Hw].
  rewrite monitor_report_eq by (done || (fold a; by rewrite Hl)). fold a. rewrite Hl. unfold fault_code, print_vm_fault. cbn [Z.eqb Pos.eqb].
  assert (ipc_msg (after_report p []) = pc :: wrap address :: Z.b2z inst :: wrap fsr :: buffer_words (env p (S (length (ecalls p))))) as Hm.
  { rewrite report_words by done. unfold answer_mrs. cbn [map]. fold a. rewrite !Hmr by lia. rewrite H0', H1', H2', H3'. cbn [default from_option id].
    rewrite (wrap_small (wrap _)) by apply Hw. rewrite (wrap_small (Z.b2z inst)) by (destruct inst; by vm_compute). done. }
  unfold mbind at 1, M_bind at 1. rewrite (bind_done _ _ _ _ _ (print_vm_fault_eq _ _ _ _ _ _ Hm)).
  rewrite after_report_app. cbn [List.app]. set (txt := vm_text _ _ _ _).
  assert (ipc_msg (after_report p txt) = ipc_msg (after_report p [])) as Hm' by (by rewrite !report_words).
  rewrite (GetMR_bind _ (wrap address)) by (done || by rewrite Hm', Hm).
  pose proof (after_report_globals p txt) as Hgl.
  destruct Hg as (_ & _ & Hst). assert (0 ≤ sender_of a < MAX_PDS) as Hpd.
  { unfold known in Hk. apply andb_true_iff in Hk as [Hk%Z.ltb_lt _]. split; [apply Z.mod_pos_bound; lia|done]. }
  destruct (lookup_lt_is_Some_2 (pd_stack_bottom_addrs (globals p)) (Z.to_nat (sender_of a))) as [st Hs]; [lia|].
  unfold mbind at 1, M_bind at 1, get_state. unfold mbind at 1, M_bind at 1, deref. fold a. rewrite Hgl, Hs.
  erewrite (prints_when _ (puts _)) by (by apply prints_line). rewrite after_report_app.
  eexists; split; [|done]. case_match; [by right|by left].
Qed.

(** C34: The report of a capability fault shows the first four words of the message. The
    details of the lookup failure are lost: what is printed as the bits left, the depth and
    the guard are the words 4 to 6 of the answer to the reading of the registers, which has
    overwritten them in the IPC buffer (registers [s0] to [s2] of the faulting thread). *)
Theorem cap_fault_report p : ipc_wf p → mon_wf (globals p) →
  let a := next_answer p in let a' := env p (S (length (ecalls p))) in
  known (globals p) (sender_of a) = true → answer_label a = 1 → answer_label a' = 0 →
  monitor_round p = Done true (after_report p (cap_text (wrap (ans_mr a 0)) (wrap (ans_mr a 1)) (wrap (ans_mr a 2))
    (wrap (ans_mr a 3)) (wrap (ans_ipc a' 4)) (wrap (ans_ipc a' 5)) (wrap (ans_ipc a' 6)))) ∧
  [nth 4 (context_of a') 0; nth 5 (context_of a') 0; nth 6 (context_of a') 0] =
    [wrap (ans_ipc a' 4); wrap (ans_ipc a' 5); wrap (ans_ipc a' 6)].
Proof.
  intros Hi Hg a a' Hk Hl Hl'. split; [|done]. rewrite monitor_report_eq by (done || (fold a; by rewrite Hl)). fold a. rewrite Hl.
  unfold fault_code. cbn [Z.eqb Pos.eqb]. assert (∃ ms, buffer_words a' = wrap (ans_ipc a' 4) :: wrap (ans_ipc a' 5) :: wrap (ans_ipc a' 6) :: ms) as [ms Hms]
    by (by eexists).
  erewrite bind_done; [|eapply print_cap_fault_eq; rewrite report_words by done; fold a'; rewrite Hms; reflexivity].
  by rewrite after_report_app.
Qed.
End end_to_end.

(** ** An example

    The example state of the kernel, in which thread [tA] has a page fault that is sent to
    [tB], and a monitor for one domain with the name "net". *)
Section demo.
#[local] Existing Instance example_platform.
#[local] Instance report_printing : Printing := true.
Definition fault_state : kstate :=
  set_tcbs (alter (set_tcbFault (seL4_Fault_VMFault 0xdead000 13 false)) tA (tcbs ex_state)) ex_state.
Definition faulted : option (Z * kstate) :=
  match setMRs_fault tA tB 0 fault_state with Done l s => Some (l, s) | Stuck _ => None end.
Definition fault_regs (i : Z) : Z :=
  match faulted with
  | Some (_, s) => from_option (λ t, default 0 (tcbContext t !! msg_register i)) 0 (tcbs s !! tB)
  | None => 0
  end.
Definition mon_env (label : Z) (n : nat) : answer :=
  match n with
  | O => Answer 1 (seL4_MessageInfo_new label 0 0 4) fault_regs (λ _, 0)
  | _ => Answer 0 (seL4_MessageInfo_new 0 0 0 32) (λ i, i) (λ i, i)
  end.
Definition demo_mon (label : Z) : proc mon :=
  Proc (replicate 120 0) [0; 0; 0] [] [] (Mon (lit "net" :: replicate 63 (lit "")) (replicate 64 0xdeae000)) (mon_env label).
Lemma demo_mon_ok label : ipc_wf (demo_mon label) ∧ ipc_caps (demo_mon label) ≠ [] ∧ mon_wf (globals (demo_mon label)).
Proof.
  split; [done|]. split; [done|]. split; [done|]. split; [|done]. cbn [globals demo_mon pd_names replicate].
  repeat (constructor; [by eexists|]). constructor.
Qed.

Lemma monitor_round_witness : wp monitor_round (λ go p', go = true ∧ globals p' = globals (demo_mon 0)) (demo_mon 0).
Proof.
  destruct (demo_mon_ok 0) as (H1 & H2 & H3). eapply wp_mono; [exact (monitor_round_ok (demo_mon 0) H1 H2 H3)|].
  intros go p' (_ & Hg & t & _ & Ht). split; [|done]. revert Ht. vm_compute. by intros [-> _].
Defined.
Lemma vm_fault_witness : ∃ t r len s' text, tcbs fault_state !! tA = Some t ∧ tcbs s' !! tB = Some r ∧
  setMRs_fault tA tB 0 fault_state = Done len s' ∧ monitor_round (demo_mon 6) = Done true (after_report (demo_mon 6) text).
Proof.
  destruct faulted as [[len s']|] eqn:Hf; [|by vm_compute in Hf]. unfold faulted in Hf.
  destruct (setMRs_fault tA tB 0 fault_state) as [len0 s0|] eqn:Hrun; [|done]. injection Hf as -> ->.
  assert (∃ t, tcbs fault_state !! tA = Some t ∧ tcbFault t = seL4_Fault_VMFault 0xdead000 13 false) as (t & Ht & Htf)
    by (eexists; split; [vm_compute; reflexivity|done]).
  assert (faulted = Some (len, s')) as Hfd by (unfold faulted; by rewrite Hrun).
  destruct (tcbs s' !! tB) as [r|] eqn:Hr.
  2: { exfalso. revert Hr. assert (is_Some (faulted ≫= λ v, tcbs v.2 !! tB)) as [x Hx] by (vm_compute; by eexists).
       rewrite Hfd in Hx. simpl in Hx. by rewrite Hx. }
  destruct (demo_mon_ok 6) as (H1 & _ & H3).
  destruct (vm_fault_reported fault_state s' tA tB 0 len t r 0xdead000 13 false (demo_mon 6) Ht Htf) as ((rest & _ & Hm) & _);
    [done|done|done| |done|done|by vm_compute|by rewrite Htf; vm_compute|by vm_compute|].
  - intros i _. change (ans_mr (next_answer (demo_mon 6)) i) with (fault_regs i). unfold fault_regs. rewrite Hfd, Hr. done.
  - exists t, r, len, s'. eexists. split; [exact Ht|]. split; [exact Hr|]. split; [reflexivity|exact Hm].
Defined.
Lemma cap_fault_witness : ∃ text, monitor_round (demo_mon 1) = Done true (after_report (demo_mon 1) text).
Proof.
  destruct (demo_mon_ok 1) as (H1 & _ & H3).
  destruct (cap_fault_report (demo_mon 1) H1 H3) as [Hm _]; [by vm_compute..|]. eexists. exact Hm.
Defined.
End demo.
