(* ===== verification/Loader.v ===== *)
(** * The boot loader

    [root/loader] on 64-bit RISC-V: the copying routines of [src/cutil.c], the console of
    [src/uart.c] (SBI debug console), [src/loader.c] and the RISC-V files [src/riscv/*.c].
    Memory is bytes by address, and the loader data that the Microkit tool appends is read
    from there, while the loader copies. What the SBI firmware answers and what other cores
    do to the lock are arbitrary functions of the number of earlier accesses. *)
From Stdlib Require Import Strings.String Strings.Ascii.
From S2P Require Import Prelude Words.

(** What the build provides: the number of cores, their hart ids, and addresses of the linker. *)
Class LoaderPlatform := {
  LDR_PRINTING : bool;
  NUM_ACTIVE_CPUS : Z;
  hart_ids : list Z;
  LDR_FIRST_HART_ID : Z;
  bss_end : Z;
  stack_of : Z → Z;
  boot_lvl1_pt : Z;
  exception_handler_addr : Z;
  riscv_secondary_cpu_entry_asm : Z }.

Record sbi_event := Sbi { sbi_eid : Z; sbi_fid : Z; sbi_args : list Z }.
Record ldr := Ldr {
  l_mem : gmap Z Z;
  l_satp : Z;
  l_stvec : Z;
  l_lock : Z;
  l_sbi_calls : list sbi_event;
  l_lock_reads : nat;
  l_sbi : nat → Z * Z;
  l_others : nat → option Z }.
Definition set_l_mem (m : gmap Z Z) (s : ldr) : ldr :=
  Ldr m (l_satp s) (l_stvec s) (l_lock s) (l_sbi_calls s) (l_lock_reads s) (l_sbi s) (l_others s).
Definition set_l_satp (w : Z) (s : ldr) : ldr :=
  Ldr (l_mem s) w (l_stvec s) (l_lock s) (l_sbi_calls s) (l_lock_reads s) (l_sbi s) (l_others s).
Definition set_l_stvec (w : Z) (s : ldr) : ldr :=
  Ldr (l_mem s) (l_satp s) w (l_lock s) (l_sbi_calls s) (l_lock_reads s) (l_sbi s) (l_others s).
Definition set_l_lock (w : Z) (s : ldr) : ldr :=
  Ldr (l_mem s) (l_satp s) (l_stvec s) w (l_sbi_calls s) (l_lock_reads s) (l_sbi s) (l_others s).
Definition add_sbi_call (e : sbi_event) (s : ldr) : ldr :=
  Ldr (l_mem s) (l_satp s) (l_stvec s) (l_lock s) (e :: l_sbi_calls s) (l_lock_reads s) (l_sbi s) (l_others s).
Definition count_lock_read (s : ldr) : ldr :=
  Ldr (l_mem s) (l_satp s) (l_stvec s) (l_lock s) (l_sbi_calls s) (S (l_lock_reads s)) (l_sbi s) (l_others s).
Abbreviation L := (M ldr).

(** ** Memory *)
Definition load8 (a : Z) : L Z := s ← get_state; deref (l_mem s !! a).
Definition store8 (a v : Z) : L unit := _ ← load8 a; modify (λ s, set_l_mem (<[a := v]> (l_mem s)) s).
Fixpoint load_bytes (n : nat) (a : Z) : L Z :=
  match n with O => mret 0 | S n' => b ← load8 a; r ← load_bytes n' (a + 1); mret (b + 2 ^ 8 * r) end.
Fixpoint store_bytes (n : nat) (a v : Z) : L unit :=
  match n with O => mret () | S n' => store8 a (v mod 2 ^ 8);; store_bytes n' (a + 1) (v / 2 ^ 8) end.
(** A [uintptr_t], in little-endian order. *)
Definition load64 (a : Z) : L Z := load_bytes 8 a.
Definition store64 (a v : Z) : L unit := store_bytes 8 a v.

(** ** Copying ([cutil.c]) *)
(** [while (sz-- > 0) *dst++ = *src++]; the value is [dst]. *)
Definition memcpy (dst src sz : Z) : L Z :=
  while64 (λ '(dst_, src_, sz),
    if 0 <? sz then
      b ← load8 src_; store8 dst_ b;;
      mret (inl (dst_ + 1, src_ + 1, sz - 1))
    else mret (inr ())) (dst, src, sz);;
  mret dst.
Definition memmove (dest src n : Z) : L Z :=
  let d := dest in
  let s := src in
  if d =? s then mret dest
  else if (s + n <=? d) || (d + n <=? s) then memcpy dest src n
  else if d <? s then memcpy dest src n
  else
    while64 (λ i,
      if i <=? n then
        b ← load8 (s + (n - i)); store8 (d + (n - i)) b;;
        mret (inl (i + 1))
      else mret (inr ())) 1;;
    mret dest.

Section loader.
Context `{LoaderPlatform}.

(** ** The firmware ([riscv/sbi.c]) *)
Definition SBI_HSM_EID : Z := 0x48534D.
Definition SBI_DEBUG_CONSOLE_EID : Z := 0x4442434E.
Definition SBI_HSM_HART_START_FID : Z := 0.
Definition SBI_DEBUG_CONSOLE_WRITE_BYTE_FID : Z := 2.
Definition SBI_SUCCESS : Z := 0.
(** Error and value. *)
Definition sbi_call (eid fid arg0 arg1 arg2 arg3 arg4 arg5 : Z) : L (Z * Z) :=
  s ← get_state;
  modify (add_sbi_call (Sbi eid fid [arg0; arg1; arg2; arg3; arg4; arg5]));;
  let '(error, value) := l_sbi s (length (l_sbi_calls s)) in
  mret (wrap error, wrap value).
(** [error] is a [long]. *)
Definition sbi_error_as_string (error : Z) : string :=
  if error =? 0 then "Completed successfully"
  else if error =? -1 then "Failed"
  else if error =? -2 then "Not supported"
  else if error =? -3 then "Invalid parameter(s)"
  else if error =? -4 then "Denied or not allowed"
  else if error =? -5 then "Invalid address(s)"
  else if error =? -6 then "Already available"
  else if error =? -7 then "Already started"
  else if error =? -8 then "Already stopped"
  else if error =? -9 then "Shared memory not available"
  else if error =? -10 then "Invalid state"
  else if error =? -11 then "Bad (or invalid) range"
  else if error =? -12 then "Failed due to timeout"
  else if error =? -13 then "Input/Output error"
  else if error =? -14 then "Denied or not allowed due to lock status"
  else "<unknown error>".
(** The value of a 64-bit word as a [long]. *)
Definition as_long (w : Z) : Z := if w <? 2 ^ 63 then w else w - 2 ^ 64.

(** ** Console ([uart.c]); without [CONFIG_PRINTING] these are empty *)
Definition putc (ch : Z) : L unit :=
  _ ← sbi_call SBI_DEBUG_CONSOLE_EID SBI_DEBUG_CONSOLE_WRITE_BYTE_FID ch 0 0 0 0 0; mret ().
Fixpoint put_chars (cs : list Z) : L unit :=
  match cs with
  | [] => mret ()
  | c :: cs' => when (c =? 10) (putc 13);; putc c;; put_chars cs'
  end.
Definition chars_of (s : string) : list Z := map (λ c, Z.of_nat (nat_of_ascii c)) (list_ascii_of_string s).
Definition puts (s : string) : L unit := when LDR_PRINTING (put_chars (chars_of s)).
(** A string that ends in a newline. *)
Definition puts_line (s : string) : L unit := when LDR_PRINTING (put_chars (chars_of s ++ [10])).
Definition hexchar (v : Z) : Z := if v <? 10 then 48 + v else 97 - 10 + v.
Fixpoint hex_chars (n : nat) (val : Z) : list Z :=
  match n with O => [] | S n' => hex_chars n' (Z.shiftr val 4) ++ [hexchar (Z.land val 0xf)] end.
Definition puthex32 (val : Z) : L unit := when LDR_PRINTING (put_chars (48 :: 120 :: hex_chars 8 (val mod 2 ^ 32))).
Definition puthex64 (val : Z) : L unit := when LDR_PRINTING (put_chars (48 :: 120 :: hex_chars 16 val)).
(** [val] is a [uint8_t]. *)
Definition putdecimal (val : Z) : L unit :=
  let val := val mod 2 ^ 8 in
  if val <=? 9 then when LDR_PRINTING (putc (48 + val)) else puthex32 val.
Definition LDR_PRINT (lvl : string) (cpu : Z) (msg : L unit) : L unit :=
  puts "LDR|";; puts lvl;; puts "|CPU";; putdecimal cpu;; puts ": ";; msg.

(** ** The loader data: a header of eight words and four words for each region *)
Definition LDR_MAGIC : Z := 0x5e14dead14de5ead.
Definition loader_data : Z := bss_end.
Definition ld_magic : L Z := load64 loader_data.
Definition ld_kernel_entry : L Z := load64 (loader_data + 16).
Definition ld_ui_p_reg_start : L Z := load64 (loader_data + 24).
Definition ld_ui_p_reg_end : L Z := load64 (loader_data + 32).
Definition ld_pv_offset : L Z := load64 (loader_data + 40).
Definition ld_v_entry : L Z := load64 (loader_data + 48).
Definition ld_num_regions : L Z := load64 (loader_data + 56).
Definition region_addr (i : Z) : Z := loader_data + 64 + 32 * i.
Definition r_load_addr (i : Z) : L Z := load64 (region_addr i).
Definition r_size (i : Z) : L Z := load64 (region_addr i + 8).
Definition r_offset (i : Z) : L Z := load64 (region_addr i + 16).
Definition r_type (i : Z) : L Z := load64 (region_addr i + 24).

(** [for (uint32_t i = 0; i < loader_data->num_regions; i++)] *)
Definition for_regions (body : Z → L unit) : L unit :=
  while64 (λ i,
    n ← ld_num_regions;
    if i <? n then body i;; mret (inl ((i + 1) mod 2 ^ 32)) else mret (inr ())) 0.

(** [print_flags] prints nothing here: the kernel is no ARM hypervisor. *)
Definition print_flags : L unit := mret ().
Definition print_loader_data : L unit :=
  puts_line "LDR|INFO: flags:";;
  print_flags;;
  puts "LDR|INFO: kernel:      entry:   ";;
  ld_kernel_entry ≫= puthex64;;
  puts_line "";;
  puts "LDR|INFO: root server: physmem: ";;
  ld_ui_p_reg_start ≫= puthex64;;
  puts " -- ";;
  ld_ui_p_reg_end ≫= puthex64;;
  puts_line "";; puts "LDR|INFO:              virtmem: ";;
  s ← ld_ui_p_reg_start; pv ← ld_pv_offset; puthex64 (s -w pv);;
  puts " -- ";;
  e ← ld_ui_p_reg_end; pv ← ld_pv_offset; puthex64 (e -w pv);;
  puts_line "";; puts "LDR|INFO:              entry  : ";;
  ld_v_entry ≫= puthex64;;
  puts_line "";;
  for_regions (λ i,
    puts "LDR|INFO: region: ";; puthex32 i;;
    puts "   addr: ";; (r_load_addr i ≫= puthex64);;
    puts "   size: ";; (r_size i ≫= puthex64);;
    puts "   offset: ";; (r_offset i ≫= puthex64);;
    puts "   type: ";; (r_type i ≫= puthex64);;
    puts_line "").

Definition copy_data : L unit :=
  n ← ld_num_regions;
  let base := region_addr n in
  for_regions (λ i,
    puts "LDR|INFO: copying region ";;
    puthex32 i;;
    puts_line "";;
    addr ← r_load_addr i; offset ← r_offset i; size ← r_size i;
    _ ← memcpy addr (base + offset) size;
    mret ()).

(** ** The core ([riscv/mmu.c], [riscv/init.c], [riscv/exceptions.c]) *)
Definition VM_MODE : Z := Z.shiftl 8 60.
Definition RISCV_PGSHIFT : Z := 12.
Definition arch_mmu_enable (logical_cpu : Z) : L Z :=
  modify (set_l_satp (Z.lor VM_MODE (Z.shiftr boot_lvl1_pt RISCV_PGSHIFT)));; mret 0.
Definition arch_init : L unit :=
  puts "LDR|INFO: configured with FIRST_HART_ID ";; puthex32 LDR_FIRST_HART_ID;; puts_line "".
Definition arch_set_exception_handler : L unit := modify (set_l_stvec exception_handler_addr).

Definition scause_to_string (scause : Z) : string :=
  if negb (Z.land scause (BIT 63) =? 0) then
    let code := Z.land scause (MASK 63) in
    if code =? 1 then "Supervisor software interrupt"
    else if code =? 5 then "Supervisor timer interrupt"
    else if code =? 9 then "Supervisor external interrupt"
    else if code =? 13 then "Counter-overflow interrupt"
    else "<unknown>"
  else if scause =? 0 then "Instruction address misaligned"
  else if scause =? 1 then "Instruction access fault"
  else if scause =? 2 then "Illegal instruction"
  else if scause =? 3 then "Breakpoint"
  else if scause =? 4 then "Load address misaligned"
  else if scause =? 5 then "Load access fault"
  else if scause =? 6 then "Store/AMO address misaligned"
  else if scause =? 7 then "Store/AMO access fault"
  else if scause =? 8 then "Environment call from U-mode"
  else if scause =? 9 then "Environment call from S-mode"
  else if scause =? 12 then "Instruction page fault"
  else if scause =? 13 then "Load page fault"
  else if scause =? 15 then "Store/AMO page fault"
  else if scause =? 18 then "Software check"
  else if scause =? 19 then "Hardware error"
  else "<unknown>".
(** What is printed before the handler spins; the arguments are the registers it reads. *)
Definition exception_handler (scause stval sepc : Z) : L unit :=
  puts "LDR|ERROR: loader trapped exception with reason '";;
  puts (scause_to_string scause);;
  puts "' (scause: ";; puthex64 scause;;
  puts ", stval: ";; puthex64 stval;;
  puts ", sepc: ";; puthex64 sepc;;
  puts_line ")".

(** ** How the loader ends: in the kernel's entry point with these arguments, or in an
    endless loop *)
Inductive boot_result :=
  | Jumped (entry : Z) (args : list Z)
  | Halted.

(** The arguments are followed by hart and core id when the kernel has several cores. *)
Definition plat_get_hw_id (logical_cpu : Z) : L Z := deref (hart_ids !! Z.to_nat logical_cpu).
Definition arch_jump_to_kernel (logical_cpu : Z) : L boot_result :=
  entry ← ld_kernel_entry;
  ui_p_reg_start ← ld_ui_p_reg_start; ui_p_reg_end ← ld_ui_p_reg_end;
  pv_offset ← ld_pv_offset; v_entry ← ld_v_entry;
  extra ← (if 1 <? NUM_ACTIVE_CPUS then hart_id ← plat_get_hw_id logical_cpu; mret [hart_id; logical_cpu]
           else mret []);
  mret (Jumped entry ([ui_p_reg_start; ui_p_reg_end; pv_offset; v_entry; 0; 0] ++ extra)).

Definition start_kernel (logical_cpu : Z) : L boot_result :=
  LDR_PRINT "INFO" logical_cpu (puts_line "enabling MMU");;
  r ← arch_mmu_enable logical_cpu;
  if negb (r =? 0) then
    LDR_PRINT "ERROR" logical_cpu (puts "failed to enable MMU: ");;
    puthex32 r;; puts_line "";; mret Halted
  else
    LDR_PRINT "INFO" logical_cpu (puts_line "jumping to kernel");;
    when LDR_PRINTING (modify (set_l_lock 1));;
    arch_jump_to_kernel logical_cpu.

(** ** Several cores ([riscv/cpus.c]) *)
(** [false] when the core spins: its hart id is not the one of the build. *)
Definition plat_save_hw_id (logical_cpu hart_id : Z) : L bool :=
  expected ← plat_get_hw_id logical_cpu;
  if negb (expected =? hart_id) then
    LDR_PRINT "ERROR" logical_cpu (puts "runtime hart id ");;
    puthex64 hart_id;; puts "does not match build-time value ";; puthex64 expected;; puts_line "";;
    mret false
  else mret true.
Definition riscv_secondary_cpu_entry (hart_id logical_cpu : Z) : L boot_result :=
  LDR_PRINT "INFO" logical_cpu (puts "secondary CPU entry with hart id ");;
  puthex64 hart_id;; puts_line "";;
  if logical_cpu =? 0 then
    LDR_PRINT "ERROR" logical_cpu (puts_line "secondary CPU should not have logical id 0!!!");; mret Halted
  else if NUM_ACTIVE_CPUS <=? logical_cpu then
    LDR_PRINT "ERROR" logical_cpu (puts_line "secondary CPU should not be >NUM_ACTIVE_CPUS");; mret Halted
  else start_kernel logical_cpu.
Definition STACK_SIZE : Z := 4096.
Definition plat_start_cpu (logical_cpu : Z) : L Z :=
  LDR_PRINT "INFO" 0 (puts "starting CPU ");;
  putdecimal logical_cpu;; puts_line "";;
  if NUM_ACTIVE_CPUS <=? logical_cpu then
    LDR_PRINT "ERROR" 0 (puts_line "starting a CPU with number above the active CPU count");; mret 1
  else
    let sp := stack_of logical_cpu + STACK_SIZE - 2 * 8 in
    store64 sp logical_cpu;;
    store64 (sp + 8) 0;;
    hart_id ← plat_get_hw_id logical_cpu;
    ret ← sbi_call SBI_HSM_EID SBI_HSM_HART_START_FID hart_id riscv_secondary_cpu_entry_asm sp 0 0 0;
    when (negb (fst ret =? SBI_SUCCESS))
      (LDR_PRINT "ERROR" 0 (puts "could not start CPU, SBI call returned: ");;
       puts (sbi_error_as_string (as_long (fst ret)));; puts_line "");;
    mret 0.

(** An atomic load of the lock, which another core may have written since the last one. *)
Definition load_lock : L Z :=
  s ← get_state;
  modify count_lock_read;;
  match l_others s (l_lock_reads s) with
  | Some v => modify (set_l_lock v);; mret v
  | None => mret (l_lock s)
  end.
Definition wait_for_boot : L unit :=
  while64 (λ _, v ← load_lock; mret (if v =? 1 then inr () else inl ())) ();;
  modify (set_l_lock 0).
(** [for (cpu = 1; cpu < n; cpu++)]; [false] when a core cannot be started. *)
Fixpoint start_cpus (n : nat) (cpu : Z) : L bool :=
  match n with
  | O => mret true
  | S n' =>
    r ← plat_start_cpu cpu;
    if negb (r =? 0) then
      LDR_PRINT "ERROR" 0 (puts "unable to start CPU ");; putdecimal cpu;;
      puts " returned error: ";; puthex32 r;; mret false
    else
      when LDR_PRINTING wait_for_boot;;
      start_cpus n' (cpu + 1)
  end.

(** ** [main] ([loader.c]) *)
Definition main : L boot_result :=
  arch_set_exception_handler;;
  arch_init;;
  puts_line "LDR|INFO: loader for seL4 starting";;
  magic ← ld_magic;
  if negb (magic =? LDR_MAGIC) then
    puts_line "LDR|ERROR: mismatch on loader data structure magic number";; mret Halted
  else
    print_loader_data;;
    copy_data;;
    LDR_PRINT "INFO" 0 (puts "active CPUs to start: ");;
    puthex32 NUM_ACTIVE_CPUS;; puts_line "";;
    ok ← start_cpus (Z.to_nat (NUM_ACTIVE_CPUS - 1)) 1;
    if negb ok then mret Halted else start_kernel 0.

(** Called by the start code ([crt0.S]) when it has to move the loader. *)
Definition relocation_failed : L boot_result :=
  puts_line "LDR|ERROR: relocation failed, loader destination would overlap current loader location";; mret Halted.
Definition relocation_log (reloc_addr curr_addr : Z) : L unit :=
  puts "LDR|INFO: relocating from ";; puthex64 curr_addr;; puts " to ";; puthex64 reloc_addr;; puts_line "".
End loader.
