(* ===== verification/LoaderSpec.v ===== *)
(** * Memory of the boot loader

    [memcpy] and [memmove] of [Loader.v] against a copy that reads every byte before it
    writes one, and little-endian words as functions of memory. *)
From Stdlib Require Import Strings.String.
From S2P Require Import Prelude Words Loader.

(** [n] bytes of memory at [a]. *)
Definition present (a n : Z) (m : gmap Z Z) : Prop := ∀ x, a ≤ x < a + n → is_Some (m !! x).
(** [m'] is [m] after the [n] bytes at [s] were copied to [d] at once. *)
Definition copied (d s n : Z) (m m' : gmap Z Z) : Prop :=
  ∀ x, m' !! x = if decide (d ≤ x < d + n) then m !! (s + (x - d)) else m !! x.
(** The two ranges share no byte. *)
Definition apart (a n b k : Z) : Prop := ∀ x, a ≤ x < a + n → b ≤ x < b + k → False.
Definition bytes_wf (m : gmap Z Z) : Prop := ∀ a b, m !! a = Some b → 0 ≤ b < 2 ^ 8.

Lemma set_l_mem_same s : set_l_mem (l_mem s) s = s.
Proof. by destruct s. Qed.
Lemma present_sub a n b k m : present a n m → a ≤ b → b + k ≤ a + n → present b k m.
Proof. intros Hp ?? x Hx. apply Hp. lia. Qed.
Lemma present_copied a n d s k m m' : present s k m → copied d s k m m' → present a n m → present a n m'.
Proof. intros Hs Hc Hp x Hx. rewrite Hc. case_decide; [apply Hs; lia|by apply Hp]. Qed.

(** ** Copying *)
(** One byte. *)
Lemma wp_move_byte d s st Q b c : l_mem st !! s = Some b → l_mem st !! d = Some c →
  Q () (set_l_mem (<[d := b]> (l_mem st)) st) → wp (b ← load8 s; store8 d b) Q st.
Proof.
  intros Hb Hc HQ. unfold load8, store8, wp, mbind, M_bind, get_state, deref, modify. simpl. rewrite Hb. simpl.
  unfold load8, mbind, M_bind, get_state, deref. simpl. by rewrite Hc.
Qed.

(** The state of a copy in which the bytes of the index set [P] were moved. *)
Definition partial (P : Z → Prop) `{∀ i, Decision (P i)} (d s n : Z) (m m' : gmap Z Z) : Prop :=
  ∀ x, m' !! x = if decide (d ≤ x < d + n ∧ P (x - d)) then m !! (s + (x - d)) else m !! x.
Lemma partial_step (P P' : Z → Prop) `{∀ i, Decision (P i)} `{∀ i, Decision (P' i)} d s n m m' i b c st Q :
  l_mem st = m' → partial P d s n m m' → 0 ≤ i < n → ¬ P i → (∀ j, P' j ↔ P j ∨ j = i) →
  m !! (s + i) = Some b → m !! (d + i) = Some c → ¬ (d ≤ s + i < d + n ∧ P (s + i - d)) →
  (∀ m1, partial P' d s n m m1 → Q () (set_l_mem m1 st)) →
  wp (b ← load8 (s + i); store8 (d + i) b) Q st.
Proof.
  intros <- Hp Hi HnP HP' Hb Hc Hr HQ. eapply (wp_move_byte _ _ _ _ b c); [by rewrite Hp, decide_False..| |].
  { rewrite Hp, decide_False; [done|]. by intros [_ Hx]; replace (d + i - d) with i in Hx by lia. }
  apply HQ. intros x. destruct (decide (x = d + i)) as [->|Hx].
  - rewrite lookup_insert_eq. replace (d + i - d) with i by lia. by rewrite decide_True by (rewrite HP'; split; [lia|auto]).
  - rewrite lookup_insert_ne by done. rewrite Hp. apply decide_ext. rewrite HP'. intuition lia.
Qed.
Lemma partial_done P `{∀ i, Decision (P i)} d s n m m' : partial P d s n m m' → (∀ i, 0 ≤ i < n → P i) → copied d s n m m'.
Proof. intros Hp HP x. rewrite Hp. apply decide_ext. split; [by intros []|]. intros Hx. split; [done|]. apply HP. lia. Qed.
Lemma partial_none P `{∀ i, Decision (P i)} d s n m : (∀ i, 0 ≤ i < n → ¬ P i) → partial P d s n m m.
Proof. intros HP x. rewrite decide_False; [done|]. intros [Hx Hi]. apply (HP (x - d)); [lia|done]. Qed.

Section copying.
Context (d s n : Z) (st : ldr).
Context (Hn : 0 ≤ n < 2 ^ 64) (Hs : present s n (l_mem st)) (Hd : present d n (l_mem st)).

Lemma wp_memcpy : d ≤ s ∨ apart d n s n →
  wp (memcpy d s n) (λ r st', r = d ∧ ∃ m', copied d s n (l_mem st) m' ∧ st' = set_l_mem m' st) st.
Proof.
  intros Hdir. apply wp_bind.
  pose (I := λ (k : Z) (v : Z * Z * Z) (st' : ldr), let '(a, b, sz) := v in ∃ m',
    sz = k ∧ a = d + (n - k) ∧ b = s + (n - k) ∧ k ≤ n ∧ st' = set_l_mem m' st ∧
    partial (λ i, i < n - k) d s n (l_mem st) m').
  apply (wp_while64_idx I _ _ n); [| |lia].
  - intros k [[a b] sz] st' Hk (m' & -> & -> & -> & Hle & -> & Hp). destruct (Z.ltb_spec 0 k) as [Hk0|Hk0].
    + destruct (Hs (s + (n - k))) as [c Hc]; [lia|]. destruct (Hd (d + (n - k))) as [e He]; [lia|].
      eapply (wp_assoc (load8 _) (λ b, store8 _ b) (λ _, mret _)), wp_bind.
      eapply (partial_step (λ i, i < n - k) (λ i, i < n - (k - 1)) _ _ _ (l_mem st) m' (n - k)); try done; [lia..| |].
      { intros [Hx Hlt]. destruct Hdir as [|Hap]; [lia|]. apply (Hap (s + (n - k))); lia. }
      intros m1 Hm1. apply wp_ret. exists (k - 1). split; [lia|]. exists m1. split_and!; try done; lia.
    + apply wp_ret, wp_ret. split; [done|]. exists m'. split; [|done]. eapply partial_done; [done|]. simpl. lia.
  - exists (l_mem st). split_and!; try lia; [by rewrite set_l_mem_same|]. apply partial_none. simpl. lia.
Qed.

Lemma wp_memmove :
  wp (memmove d s n) (λ r st', r = d ∧ ∃ m', copied d s n (l_mem st) m' ∧ st' = set_l_mem m' st) st.
Proof.
  unfold memmove. destruct (Z.eqb_spec d s) as [->|Hne].
  { apply wp_ret. split; [done|]. exists (l_mem st). split; [|by rewrite set_l_mem_same].
    intros x. case_decide; [|done]. f_equal. lia. }
  destruct (Z.leb_spec (s + n) d) as [?|Hov]; [apply wp_memcpy; right; intros x; lia|].
  destruct (Z.leb_spec (d + n) s) as [?|_]; [apply wp_memcpy; lia|].
  destruct (Z.ltb_spec d s) as [?|Hlt]; [apply wp_memcpy; lia|]. simpl. apply wp_bind.
  pose (I := λ (k i : Z) (st' : ldr), ∃ m', k = n + 1 - i ∧ 1 ≤ i ≤ n + 1 ∧ st' = set_l_mem m' st ∧
    partial (λ j, n - i < j) d s n (l_mem st) m').
  apply (wp_while64_idx I _ _ n).
  - intros k i st' Hk (m' & -> & Hi & -> & Hp). destruct (Z.leb_spec i n) as [Hin|Hin].
    + destruct (Hs (s + (n - i))) as [c Hc]; [lia|]. destruct (Hd (d + (n - i))) as [e He]; [lia|].
      eapply (wp_assoc (load8 _) (λ b, store8 _ b) (λ _, mret _)), wp_bind.
      eapply (partial_step (λ j, n - i < j) (λ j, n - (i + 1) < j) _ _ _ (l_mem st) m' (n - i)); try done; [lia..|].
      intros m1 Hm1. apply wp_ret. exists (n + 1 - (i + 1)). split; [lia|]. exists m1. split_and!; try done; lia.
    + apply wp_ret, wp_ret. split; [done|]. exists m'. split; [|done]. eapply partial_done; [done|]. simpl. lia.
  - exists (l_mem st). split_and!; try lia; [by rewrite set_l_mem_same|]. apply partial_none. simpl. lia.
  - lia.
Qed.
End copying.

(** * What the boot loader does

    From the loader data in memory to the jump into the kernel: the header is checked, every
    region is copied where it belongs, the address space is switched and the kernel gets the
    arguments of the header. The console output only adds firmware calls to the state. *)

(** ** Words in memory *)
Fixpoint mem_bytes (n : nat) (a : Z) (m : gmap Z Z) : Z :=
  match n with O => 0 | S n' => default 0 (m !! a) + 2 ^ 8 * mem_bytes n' (a + 1) m end.
Definition mem_word (a : Z) (m : gmap Z Z) : Z := mem_bytes 8 a m.

Lemma load_bytes_eq n a s : present a (Z.of_nat n) (l_mem s) → load_bytes n a s = Done (mem_bytes n a (l_mem s)) s.
Proof.
  revert a. induction n as [|n IH]; intros a Ha; [done|]. simpl.
  destruct (Ha a) as [b Hb]; [lia|]. assert (load8 a s = Done b s) as Hl.
  { unfold load8, mbind, M_bind, get_state, deref. by rewrite Hb. }
  unfold mbind, M_bind. rewrite Hl, IH by (intros x Hx; apply Ha; lia). by rewrite Hb.
Qed.
Lemma load64_eq a s : present a 8 (l_mem s) → load64 a s = Done (mem_word a (l_mem s)) s.
Proof. apply (load_bytes_eq 8). Qed.
Lemma mem_bytes_same n a m m' : (∀ x, a ≤ x < a + Z.of_nat n → m' !! x = m !! x) → mem_bytes n a m' = mem_bytes n a m.
Proof.
  revert a. induction n as [|n IH]; intros a Ha; [done|]. cbn [mem_bytes]. rewrite (Ha a) by lia.
  by rewrite (IH (a + 1)) by (intros; apply Ha; lia).
Qed.
Lemma mem_word_range a m : bytes_wf m → is_word (mem_word a m).
Proof.
  intros Hm. unfold is_word, mem_word. change 64 with (8 * Z.of_nat 8). generalize 8%nat as n. intros n.
  revert a. induction n as [|n IH]; intros a; [simpl; lia|]. cbn [mem_bytes].
  rewrite Nat2Z.inj_succ, Z.mul_succ_r, Z.pow_add_r by lia. specialize (IH (a + 1)).
  assert (0 ≤ default 0 (m !! a) < 2 ^ 8). { destruct (m !! a) as [b|] eqn:Hb; [by apply (Hm a)|simpl; lia]. }
  nia.
Qed.

(** ** The state apart from memory, the lock and the calls of the console *)
Definition core (s : ldr) := (l_satp s, l_stvec s, l_sbi s, l_others s).
(** The calls that start cores, the latest first. *)
Definition starts (s : ldr) : list sbi_event := filter (λ e, sbi_eid e = SBI_HSM_EID) (l_sbi_calls s).
Definition quiet (s s' : ldr) : Prop := core s' = core s ∧ starts s' = starts s ∧ l_mem s' = l_mem s.
#[global] Instance quiet_preorder : PreOrder quiet.
Proof. split; [done|]. intros s1 s2 s3 (? & ? & ?) (? & ? & ?). split_and!; congruence. Qed.
(** Code that only prints, where memory satisfies [P]. *)
Definition prints (P : gmap Z Z → Prop) {A} (m : L A) : Prop :=
  ∀ s, P (l_mem s) → wp m (λ _ s', quiet s s') s.

Lemma wp_prints P {A B} (m : L A) (k : A → L B) Q s :
  prints P m → P (l_mem s) → (∀ a s', quiet s s' → wp (k a) Q s') → wp (m ≫= k) Q s.
Proof. intros Hm HP Hk. apply wp_bind. eapply wp_mono; [by apply Hm|]. intros a s' Hq. by apply Hk. Qed.
Lemma loader_prints_ret P {A} (a : A) : prints P (mret a).
Proof. by intros s _. Qed.
Lemma loader_prints_bind P {A B} (m : L A) (k : A → L B) : prints P m → (∀ a, prints P (k a)) → prints P (m ≫= k).
Proof.
  intros Hm Hk s HP. apply (wp_prints P); [done..|]. intros a s' Hq. pose proof Hq as (_ & _ & Hmem).
  eapply wp_mono; [apply Hk; by rewrite Hmem|]. intros ? s'' Hq'. by transitivity s'.
Qed.
Lemma loader_prints_when P b (m : L unit) : prints P m → prints P (when b m).
Proof. intros Hm. destruct b; [done|apply loader_prints_ret]. Qed.
Lemma sbi_call_eq e f a b c d g h s :
  sbi_call e f a b c d g h s = Done (wrap (l_sbi s (length (l_sbi_calls s))).1, wrap (l_sbi s (length (l_sbi_calls s))).2)
    (add_sbi_call (Sbi e f [a; b; c; d; g; h]) s).
Proof. unfold sbi_call, mbind, M_bind, get_state, modify. by destruct (l_sbi s _). Qed.
Lemma prints_sbi P e f a b c d g h : e ≠ SBI_HSM_EID → prints P (sbi_call e f a b c d g h).
Proof.
  intros He s _. unfold wp. rewrite sbi_call_eq. split_and!; [done| |done].
  unfold starts. simpl. by rewrite filter_cons, decide_False.
Qed.
Lemma prints_putc P c : prints P (putc c).
Proof. apply loader_prints_bind; [by apply prints_sbi|intros; apply loader_prints_ret]. Qed.
Lemma prints_load (P : gmap Z Z → Prop) a : (∀ m, P m → present a 8 m) → prints P (load64 a).
Proof. intros HP s Hs. unfold wp. by rewrite load64_eq by auto. Qed.
Create HintDb loader.
#[export] Hint Resolve loader_prints_ret loader_prints_bind loader_prints_when prints_putc : loader.

Section output.
Context `{LoaderPlatform} (P : gmap Z Z → Prop).
Lemma prints_put_chars cs : prints P (put_chars cs).
Proof. induction cs as [|c cs IH]; simpl; auto 10 with loader. Qed.
Hint Resolve prints_put_chars : loader.
Lemma loader_prints_puts x : prints P (puts x).
Proof. unfold puts. auto with loader. Qed.
Lemma prints_puts_line x : prints P (puts_line x).
Proof. unfold puts_line. auto with loader. Qed.
Lemma prints_puthex32 x : prints P (puthex32 x).
Proof. unfold puthex32. auto with loader. Qed.
Lemma prints_puthex64 x : prints P (puthex64 x).
Proof. unfold puthex64. auto with loader. Qed.
Lemma prints_putdecimal x : prints P (putdecimal x).
Proof. unfold putdecimal. destruct (_ <=? _); auto using prints_puthex32 with loader. Qed.
Hint Resolve loader_prints_puts prints_puts_line prints_puthex32 prints_puthex64 prints_putdecimal : loader.
Lemma prints_LDR_PRINT lvl cpu msg : prints P msg → prints P (LDR_PRINT lvl cpu msg).
Proof. intros Hm. unfold LDR_PRINT. auto 10 with loader. Qed.
End output.
#[export] Hint Resolve prints_put_chars loader_prints_puts prints_puts_line prints_puthex32 prints_puthex64
  prints_putdecimal prints_LDR_PRINT : loader.

(** ** The loader data *)
Section image.
Context `{LoaderPlatform}.

Definition num_regions (m : gmap Z Z) : Z := mem_word (loader_data + 56) m.
(** The regions in memory: destination, size and offset of number [i]. *)
Definition dest_of (m : gmap Z Z) (i : Z) : Z := mem_word (region_addr i) m.
Definition size_of (m : gmap Z Z) (i : Z) : Z := mem_word (region_addr i + 8) m.
(** The payload of region [i] follows the region table. *)
Definition payload_of (m : gmap Z Z) (i : Z) : Z := region_addr (num_regions m) + mem_word (region_addr i + 16) m.

(** The header and the table of regions are in memory, and so are the bytes of every region
    and the place for them; the copies overwrite neither each other nor what is still read. *)
Record image_ok (m : gmap Z Z) : Prop := {
  img_bytes : bytes_wf m;
  img_regions : num_regions m < 2 ^ 32;
  img_table : present loader_data (64 + 32 * num_regions m) m;
  img_dest : ∀ i, 0 ≤ i < num_regions m → present (dest_of m i) (size_of m i) m;
  img_payload : ∀ i, 0 ≤ i < num_regions m → present (payload_of m i) (size_of m i) m;
  img_apart_table : ∀ i, 0 ≤ i < num_regions m →
    apart (dest_of m i) (size_of m i) loader_data (64 + 32 * num_regions m);
  img_apart_payload : ∀ i j, 0 ≤ i < num_regions m → 0 ≤ j < num_regions m →
    apart (dest_of m i) (size_of m i) (payload_of m j) (size_of m j);
  img_apart_dest : ∀ i j, 0 ≤ i < num_regions m → 0 ≤ j < num_regions m → i ≠ j →
    apart (dest_of m i) (size_of m i) (dest_of m j) (size_of m j) }.

(** Memory after the first [k] regions were loaded. *)
Record loaded (k : Z) (m m' : gmap Z Z) : Prop := {
  ld_done : ∀ i j, 0 ≤ i < k → 0 ≤ j < size_of m i → m' !! (dest_of m i + j) = m !! (payload_of m i + j);
  ld_rest : ∀ x, (∀ i, 0 ≤ i < k → ¬ (dest_of m i ≤ x < dest_of m i + size_of m i)) → m' !! x = m !! x }.

Lemma num_regions_range m : image_ok m → 0 ≤ num_regions m < 2 ^ 32.
Proof. intros Hm. split; [|by apply img_regions]. by apply mem_word_range, img_bytes. Qed.
Lemma size_of_range m i : image_ok m → 0 ≤ size_of m i < 2 ^ 64.
Proof. intros Hm. by apply mem_word_range, img_bytes. Qed.
Lemma loaded_0 m : loaded 0 m m.
Proof. split; [lia|done]. Qed.
(** The header, the table and the payloads are as they were. *)
Lemma loaded_table k m m' x : image_ok m → loaded k m m' → k ≤ num_regions m →
  loader_data ≤ x < loader_data + (64 + 32 * num_regions m) → m' !! x = m !! x.
Proof. intros Hm Hl Hk Hx. apply (ld_rest _ _ _ Hl). intros i Hi Hd. by apply (img_apart_table _ Hm i ltac:(lia) x). Qed.
Lemma loaded_word k m m' a : image_ok m → loaded k m m' → k ≤ num_regions m →
  loader_data ≤ a → a + 8 ≤ loader_data + (64 + 32 * num_regions m) →
  present a 8 m' ∧ mem_word a m' = mem_word a m.
Proof.
  intros Hm Hl Hk Ha Ha'. assert (∀ x, a ≤ x < a + 8 → m' !! x = m !! x) as Hx.
  { intros x Hx. eapply loaded_table; [done..|lia]. }
  split; [|by apply mem_bytes_same]. intros x Hx'. rewrite Hx by done. apply (img_table _ Hm). lia.
Qed.
Lemma loaded_payload k m m' i x : image_ok m → loaded k m m' → k ≤ num_regions m → 0 ≤ i < num_regions m →
  payload_of m i ≤ x < payload_of m i + size_of m i → m' !! x = m !! x.
Proof.
  intros Hm Hl Hk Hi Hx. apply (ld_rest _ _ _ Hl). intros j Hj Hd.
  by apply (img_apart_payload _ Hm j i ltac:(lia) Hi x).
Qed.
(** The place of region [k] is still as it was before region [k] is loaded. *)
Lemma loaded_next k m m1 m2 : image_ok m → loaded k m m1 → 0 ≤ k < num_regions m →
  copied (dest_of m k) (payload_of m k) (size_of m k) m1 m2 → loaded (k + 1) m m2.
Proof.
  intros Hm Hl Hk Hc. split.
  - intros i j Hi Hj. rewrite Hc. destruct (decide (i = k)) as [->|Hne].
    + rewrite decide_True by lia. replace (payload_of m k + _) with (payload_of m k + j) by lia.
      eapply loaded_payload; [done..|lia|done|lia].
    + rewrite decide_False; [apply (ld_done _ _ _ Hl); lia|]. intros Hx.
      apply (img_apart_dest _ Hm i k ltac:(lia) Hk Hne (dest_of m i + j)); lia.
  - intros x Hx. rewrite Hc, decide_False by (apply Hx; lia). apply (ld_rest _ _ _ Hl). intros i Hi. apply Hx. lia.
Qed.
End image.

(** ** Words stored *)
Lemma wp_store_bytes n a v s : present a (Z.of_nat n) (l_mem s) →
  wp (store_bytes n a v) (λ _ s', ∃ m', s' = set_l_mem m' s ∧
    (∀ x, ¬ (a ≤ x < a + Z.of_nat n) → m' !! x = l_mem s !! x) ∧
    present a (Z.of_nat n) m' ∧ mem_bytes n a m' = v mod 2 ^ (8 * Z.of_nat n)) s.
Proof.
  revert a v s. induction n as [|n IH]; intros a v s Ha.
  { apply wp_ret. exists (l_mem s). rewrite set_l_mem_same, Z.mod_1_r. by split_and!. }
  destruct (Ha a) as [c Hc]; [lia|]. simpl store_bytes. apply wp_bind.
  unfold wp at 1, store8, load8, mbind, M_bind, get_state, deref, modify. rewrite Hc.
  set (m1 := <[a := v mod 2 ^ 8]> (l_mem s)).
  eapply wp_mono; [apply (IH (a + 1) (v / 2 ^ 8) (set_l_mem m1 s))|].
  { intros x Hx. unfold m1; simpl. rewrite lookup_insert_ne by lia. apply Ha. lia. }
  intros [] s' (m' & -> & Hx & Hp & Hv); simpl in *. exists m'.
  assert (m' !! a = Some (v mod 2 ^ 8)) as Hm'. { rewrite Hx by lia. apply lookup_insert_eq. }
  split_and!; [done| | |].
  - intros x Hx'. rewrite Hx by lia. unfold m1. rewrite lookup_insert_ne by lia. done.
  - intros x Hx'. destruct (decide (x = a)) as [->|]; [by rewrite Hm'|]. apply Hp. lia.
  - rewrite Hm', Hv. simpl default. change (Z.pos (Pos.of_succ_nat n)) with (Z.of_nat (S n)).
    rewrite Nat2Z.inj_succ, Z.mul_succ_r, (Z.add_comm (8 * _)), Z.pow_add_r by lia.
    rewrite Z.rem_mul_r by lia. lia.
Qed.
Lemma wp_store64 a v s Q : present a 8 (l_mem s) →
  (∀ m', (∀ x, ¬ (a ≤ x < a + 8) → m' !! x = l_mem s !! x) → present a 8 m' → mem_word a m' = v mod 2 ^ 64 →
    Q () (set_l_mem m' s)) → wp (store64 a v) Q s.
Proof. intros Ha HQ. eapply wp_mono; [by apply (wp_store_bytes 8)|]. intros [] s' (m' & -> & ? & ? & ?). by apply HQ. Qed.
