(* ===== verification/LoaderBoot.v ===== *)
(** * From reset to the kernel

    [main] of the boot loader as a whole: the copies, the other cores, the jump. *)
From Stdlib Require Import Strings.String.
From S2P Require Import Prelude Words Loader LoaderSpec.

Section boot.
Context `{LoaderPlatform}.

(** ** The loop over the regions *)
Lemma wp_for_regions (J : Z → ldr → Prop) n (body : Z → L unit) s Q :
  0 ≤ n < 2 ^ 32 → J 0 s →
  (∀ i s, 0 ≤ i ≤ n → J i s → present (loader_data + 56) 8 (l_mem s) ∧ num_regions (l_mem s) = n) →
  (∀ i s, 0 ≤ i < n → J i s → wp (body i) (λ _ s', J (i + 1) s') s) →
  (∀ s, J n s → Q () s) → wp (for_regions body) Q s.
Proof.
  intros Hn H0 Hw Hb HQ.
  apply (wp_while64_idx (λ k i s, k = n - i ∧ 0 ≤ i ≤ n ∧ J i s) _ _ n); [|split_and!; [lia..|done]|lia].
  clear s H0. intros k i s Hk (-> & Hi & HJ). destruct (Hw i s Hi HJ) as [Hp Hnum].
  apply wp_bind. unfold wp at 1, ld_num_regions. rewrite load64_eq by done.
  change (mem_word (loader_data + 56) (l_mem s)) with (num_regions (l_mem s)). rewrite Hnum.
  destruct (Z.ltb_spec i n) as [Hlt|Hge].
  - apply wp_bind. eapply wp_mono; [by apply Hb; [lia|]|]. intros [] s' HJ'. apply wp_ret.
    exists (n - (i + 1)). rewrite Z.mod_small by lia. split_and!; [lia..|done].
  - apply wp_ret, HQ. by replace n with i by lia.
Qed.

(** The bytes of the header and the table are in memory. *)
Definition table_in (n : Z) (m : gmap Z Z) : Prop := present loader_data (64 + 32 * n) m ∧ num_regions m = n.
Lemma prints_table n a : (loader_data ≤ a ∧ a + 8 ≤ loader_data + (64 + 32 * n)) → prints (table_in n) (load64 a).
Proof. intros Ha. apply prints_load. intros m [Hm _]. eapply present_sub; [done|lia..]. Qed.
Lemma prints_word n a : (loader_data ≤ a ∧ a + 8 ≤ loader_data + (64 + 32 * n)) → prints (table_in n) (load64 a ≫= puthex64).
Proof. intros Ha. apply loader_prints_bind; [by apply prints_table|auto with loader]. Qed.
Lemma prints_for_regions n (body : Z → L unit) : 0 ≤ n < 2 ^ 32 →
  (∀ i, 0 ≤ i < n → prints (table_in n) (body i)) → prints (table_in n) (for_regions body).
Proof.
  intros Hn Hb s Hs. apply (wp_for_regions (λ _ s', quiet s s') n); [done|done| | |done].
  - intros i s' _ (_ & _ & Hm). rewrite Hm. destruct Hs as [Hp Hs]. split; [|done]. eapply present_sub; [done|lia..].
  - intros i s' Hi Hq. pose proof Hq as (_ & _ & Hm). eapply wp_mono; [apply Hb; [done|by rewrite Hm]|].
    intros ? s'' Hq'. by transitivity s'.
Qed.
Lemma prints_loader_data n : 0 ≤ n < 2 ^ 32 → prints (table_in n) print_loader_data.
Proof.
  intros Hn. unfold print_loader_data, print_flags, ld_kernel_entry, ld_ui_p_reg_start, ld_ui_p_reg_end, ld_pv_offset, ld_v_entry.
  repeat (apply loader_prints_bind; [first [by auto with loader | apply prints_word; lia | apply prints_table; lia]|intros]).
  apply prints_for_regions; [done|]. intros i Hi. unfold r_load_addr, r_size, r_offset, r_type, region_addr.
  repeat (apply loader_prints_bind; [first [by auto with loader | apply prints_word; lia]|intros]). auto with loader.
Qed.

(** ** The regions *)
Lemma loaded_table_in k m m' : image_ok m → loaded k m m' → k ≤ num_regions m → table_in (num_regions m) m'.
Proof.
  intros Hm Hl Hk. pose proof (num_regions_range _ Hm).
  split; [|eapply loaded_word; [done..|lia|lia]]. intros x Hx.
  rewrite (loaded_table _ _ _ _ Hm Hl) by lia. by apply (img_table _ Hm).
Qed.
Lemma loaded_present k m m' a n : image_ok m → loaded k m m' → k ≤ num_regions m → present a n m → present a n m'.
Proof.
  intros Hm Hl Hk Hp x Hx.
  destruct (decide (Exists (λ i, dest_of m i ≤ x < dest_of m i + size_of m i) (seqZ 0 k))) as [He|He].
  - apply Exists_exists in He as (i & Hi%elem_of_seqZ & Hd).
    replace x with (dest_of m i + (x - dest_of m i)) by lia. rewrite (ld_done _ _ _ Hl) by lia.
    apply (img_payload _ Hm i); lia.
  - rewrite (ld_rest _ _ _ Hl); [by apply Hp|]. intros i Hi Hd. apply He, Exists_exists. exists i.
    split; [|done]. apply elem_of_seqZ. lia.
Qed.

(** The state [s] differs from [s0] in memory, of which [P] holds, in the lock and the output. *)
Definition since (s0 : ldr) (P : gmap Z Z → Prop) (s : ldr) : Prop :=
  core s = core s0 ∧ starts s = starts s0 ∧ P (l_mem s).
Lemma since_quiet s0 P s s' : quiet s s' → since s0 P s → since s0 P s'.
Proof. intros (Hc & Hst & Hm) (? & ? & ?). split_and!; [congruence..|by rewrite Hm]. Qed.
Lemma wp_since {A B} (m : L A) (k : A → L B) P Q s s0 : prints P m → since s0 P s →
  (∀ a s', since s0 P s' → wp (k a) Q s') → wp (m ≫= k) Q s.
Proof.
  intros Hm Hs Hk. apply (wp_prints P); [done|apply Hs|]. intros a s' Hq. by eapply Hk, since_quiet.
Qed.
Lemma wp_load_since {B} a v (k : Z → L B) (P : gmap Z Z → Prop) Q s s0 :
  (∀ m, P m → present a 8 m ∧ mem_word a m = v) → since s0 P s → wp (k v) Q s → wp (load64 a ≫= k) Q s.
Proof. intros Ha (_ & _ & Hs) Hk. apply wp_bind. destruct (Ha _ Hs) as [Hp <-]. unfold wp at 1. by rewrite load64_eq. Qed.

Lemma wp_copy_data m s0 s : image_ok m → since s0 (loaded 0 m) s →
  wp copy_data (λ _ s', since s0 (loaded (num_regions m) m) s') s.
Proof.
  intros Hm Hs. pose proof (num_regions_range _ Hm) as Hn. unfold copy_data, ld_num_regions.
  eapply wp_load_since; [|done|]. { intros m' Hl. eapply loaded_word; [done..|lia|lia|lia]. }
  fold (num_regions m).
  apply (wp_for_regions (λ k, since s0 (loaded k m)) (num_regions m)); [done..| | |done].
  { intros k s' Hk (_ & _ & Hl). eapply loaded_word; [done..|lia|lia|lia]. }
  clear s Hs. intros k s Hk Hs.
  do 3 (eapply wp_since; [by auto with loader|done|]; clear s Hs; intros _ s Hs).
  unfold r_load_addr, r_offset, r_size.
  do 3 (eapply wp_load_since; [|done|];
    [intros m' Hl; eapply loaded_word; [done..|lia|unfold region_addr; lia|unfold region_addr; lia]|]).
  fold (dest_of m k) (size_of m k) (payload_of m k). destruct Hs as (Hc & Hst & Hl).
  apply wp_bind. eapply wp_mono; [apply wp_memcpy|].
  - by apply size_of_range.
  - eapply loaded_present; [done..|lia|]. by apply img_payload.
  - eapply loaded_present; [done..|lia|]. by apply img_dest.
  - right. by apply img_apart_payload.
  - intros ? s' (_ & m' & Hm' & ->). apply wp_ret. split_and!; [done..|]. by eapply loaded_next.
Qed.

(** ** The other cores *)
Definition stack_top (cpu : Z) : Z := stack_of cpu + STACK_SIZE - 2 * 8.
Definition hart_of (cpu : Z) : Z := default 0 (hart_ids !! Z.to_nat cpu).
Definition start_call (cpu : Z) : sbi_event :=
  Sbi SBI_HSM_EID SBI_HSM_HART_START_FID [hart_of cpu; riscv_secondary_cpu_entry_asm; stack_top cpu; 0; 0; 0].
Definition in_stack (cpu x : Z) : Prop := stack_top cpu ≤ x < stack_top cpu + 16.
(** Every core has a hart id and a stack, and each stack has its own place. *)
Record cpus_ok (m : gmap Z Z) : Prop := {
  cpu_count : 1 ≤ NUM_ACTIVE_CPUS < 2 ^ 31;
  cpu_hart : ∀ cpu, 0 ≤ cpu < NUM_ACTIVE_CPUS → is_Some (hart_ids !! Z.to_nat cpu);
  cpu_stack : ∀ cpu, 1 ≤ cpu < NUM_ACTIVE_CPUS → present (stack_top cpu) 16 m;
  cpu_apart : ∀ cpu cpu', 1 ≤ cpu < NUM_ACTIVE_CPUS → 1 ≤ cpu' < NUM_ACTIVE_CPUS → cpu ≠ cpu' →
    apart (stack_top cpu) 16 (stack_top cpu') 16;
  cpu_apart_table : ∀ cpu, 1 ≤ cpu < NUM_ACTIVE_CPUS →
    apart (stack_top cpu) 16 loader_data (64 + 32 * num_regions m);
  cpu_apart_dest : ∀ cpu i, 1 ≤ cpu < NUM_ACTIVE_CPUS → 0 ≤ i < num_regions m →
    apart (stack_top cpu) 16 (dest_of m i) (size_of m i) }.
(** The other core takes the lock in the end. *)
Definition comes_up (s : ldr) : Prop :=
  ∀ c : nat, ∃ k : nat, (c ≤ k)%nat ∧ Z.of_nat k < Z.of_nat c + 2 ^ 63 ∧ l_others s k = Some 1.

(** The memory in which the cores from [lo] up to [hi] have their number on their stack. *)
Record stacked (lo hi : Z) (m m' : gmap Z Z) : Prop := {
  st_arg : ∀ cpu, lo ≤ cpu < hi → mem_word (stack_top cpu) m' = cpu ∧ mem_word (stack_top cpu + 8) m' = 0;
  st_rest : ∀ x, (∀ cpu, lo ≤ cpu < hi → ¬ in_stack cpu x) → m' !! x = m !! x;
  st_present : ∀ a n, present a n m → present a n m' }.

Lemma wp_plat_start_cpu cpu s m :
  1 ≤ cpu < NUM_ACTIVE_CPUS → cpus_ok m → present (stack_top cpu) 16 (l_mem s) →
  wp (plat_start_cpu cpu) (λ r s', r = 0 ∧ core s' = core s ∧ starts s' = start_call cpu :: starts s ∧
    stacked cpu (cpu + 1) (l_mem s) (l_mem s')) s.
Proof.
  intros Hcpu Hok Hst. pose proof (cpu_count _ Hok) as Hcount.
  destruct (cpu_hart _ Hok cpu) as [hart Hh]; [lia|]. unfold plat_start_cpu.
  match goal with |- wp ?m ?Q s =>
    enough (∀ s1, since s (λ m', m' = l_mem s) s1 → wp m Q s1) as He by (by apply He) end.
  intros s1 Hs.
  do 3 (eapply wp_since; [by auto with loader|done|]; clear s1 Hs; intros _ s1 Hs).
  destruct (Z.leb_spec NUM_ACTIVE_CPUS cpu) as [|_]; [lia|]. fold (stack_top cpu).
  destruct Hs as (Hc & Hs & Hm). rewrite <- Hm in Hst |- *. apply wp_bind, wp_store64.
  { eapply present_sub; [done|lia..]. }
  intros m1 Hm1 Hp1 Hv1. apply wp_bind, wp_store64.
  { intros x Hx. simpl. rewrite Hm1 by lia. apply Hst. lia. }
  intros m2 Hm2 Hp2 Hv2. simpl in Hm2. apply wp_bind. eapply wp_deref; [done|].
  apply wp_bind. unfold wp at 1. rewrite sbi_call_eq. set (s2 := add_sbi_call _ _).
  apply (wp_prints (λ _, True)); [by auto 10 with loader|done|]. intros _ s' (Hc' & Hs' & Hm'). apply wp_ret.
  split; [done|]. split; [by rewrite Hc', <- Hc|]. split.
  { rewrite Hs'. unfold s2, starts in *; simpl in *. rewrite filter_cons, decide_True by done. unfold start_call, hart_of.
    by rewrite Hh, <- Hs. }
  rewrite Hm'. subst s2; simpl. split.
  - intros c Hc2. replace c with cpu by lia. split; [|by rewrite Hv2].
    transitivity (mem_word (stack_top cpu) m1); [|rewrite Hv1; apply Z.mod_small; lia].
    apply mem_bytes_same. intros x Hx. apply Hm2. lia.
  - intros x Hx. assert (¬ in_stack cpu x) as Hn by (apply Hx; lia). unfold in_stack in Hn.
    rewrite Hm2, Hm1 by lia. done.
  - intros a n Ha x Hx. destruct (decide (in_stack cpu x)) as [Hi|Hi]; unfold in_stack in Hi.
    + destruct (decide (stack_top cpu + 8 ≤ x)); [apply Hp2; lia|]. rewrite Hm2 by lia. apply Hp1. lia.
    + rewrite Hm2, Hm1 by lia. by apply Ha.
Qed.

Lemma wp_wait_for_boot s : comes_up s →
  wp wait_for_boot (λ _ s', core s' = core s ∧ starts s' = starts s ∧ l_mem s' = l_mem s) s.
Proof.
  intros Hup. destruct (Hup (l_lock_reads s)) as (k & Hk & Hk' & Hone). apply wp_bind.
  apply (wp_while64 (λ _ s', core s' = core s ∧ starts s' = starts s ∧ l_mem s' = l_mem s ∧ (l_lock_reads s' ≤ k)%nat)
    (λ _ s', Z.of_nat k - Z.of_nat (l_lock_reads s'))); [|done|lia].
  intros _ s1 (Hc & Hs & Hm & Hr). apply wp_bind. unfold load_lock, wp, mbind, M_bind, get_state, modify; simpl.
  assert (l_others s1 = l_others s) as Ho by (unfold core in Hc; congruence).
  destruct (decide (l_lock_reads s1 = k)) as [Hreq|Hne]; [rewrite Hreq, Ho, Hone; simpl; by split_and!|].
  destruct (l_others s1 (l_lock_reads s1)) as [v|]; simpl; case_match; simpl; split_and!; try done; lia.
Qed.

Lemma core_comes_up s s' : core s' = core s → comes_up s → comes_up s'.
Proof. intros Hc Hup c. destruct (Hup c) as (k & ? & ? & ?). exists k. unfold core in Hc. by replace (l_others s') with (l_others s) by congruence. Qed.
Lemma stacked_step m0 lo hi m m1 m2 : 1 ≤ lo → hi ≤ NUM_ACTIVE_CPUS → lo < hi → cpus_ok m0 →
  stacked lo (lo + 1) m m1 → stacked (lo + 1) hi m1 m2 → stacked lo hi m m2.
Proof.
  intros Hlo Hhi Hlt Hok H1 H2. split.
  - intros cpu Hc. destruct (decide (cpu = lo)) as [->|]; [|apply (st_arg _ _ _ _ H2); lia].
    destruct (st_arg _ _ _ _ H1 lo) as [Ha Hb]; [lia|]. unfold mem_word in *.
    split; (etransitivity; [|first [exact Ha|exact Hb]]); apply mem_bytes_same; intros x Hx; apply (st_rest _ _ _ _ H2); intros c Hc' Hin;
      apply (cpu_apart _ Hok lo c ltac:(lia) ltac:(lia) ltac:(lia) x); unfold in_stack in Hin; lia.
  - intros x Hx. rewrite (st_rest _ _ _ _ H2), (st_rest _ _ _ _ H1); [done|..]; intros c Hc; apply Hx; lia.
  - intros a n Ha. by apply (st_present _ _ _ _ H2), (st_present _ _ _ _ H1).
Qed.

Lemma wp_start_cpus m0 n cpu s : cpus_ok m0 → 1 ≤ cpu → cpu + Z.of_nat n ≤ NUM_ACTIVE_CPUS →
  (LDR_PRINTING = true → comes_up s) → (∀ c, cpu ≤ c < NUM_ACTIVE_CPUS → present (stack_top c) 16 (l_mem s)) →
  wp (start_cpus n cpu) (λ r s', r = true ∧ core s' = core s ∧
    starts s' = rev (map start_call (seqZ cpu (Z.of_nat n))) ++ starts s ∧
    stacked cpu (cpu + Z.of_nat n) (l_mem s) (l_mem s')) s.
Proof.
  intros Hok. revert cpu s. induction n as [|n IH]; intros cpu s Hcpu Hle Hup Hp.
  { split_and!; try done. split; [lia|done..]. }
  simpl start_cpus. apply wp_bind. eapply wp_mono; [apply (wp_plat_start_cpu cpu s m0); [lia|done|apply Hp; lia]|].
  intros r s1 (-> & Hc & Hs & Hm). simpl. apply wp_bind.
  assert (wp (when LDR_PRINTING wait_for_boot) (λ _ s', core s' = core s1 ∧ starts s' = starts s1 ∧ l_mem s' = l_mem s1) s1) as Hwait.
  { apply wp_when; [|by intros _]. intros Hl. by apply wp_wait_for_boot, (core_comes_up s), Hup. }
  eapply wp_mono; [exact Hwait|]. clear Hwait. intros [] s2 (Hc2 & Hs2 & Hm2).
  eapply wp_mono; [apply (IH (cpu + 1) s2); [lia|lia| |]|].
  { intros Hl. apply (core_comes_up s); [congruence|auto]. }
  { intros c Hcc. rewrite Hm2. apply (st_present _ _ _ _ Hm), Hp. lia. }
  intros r s3 (-> & Hc3 & Hs3 & Hm3). split; [done|]. split; [congruence|]. split.
  - rewrite Hs3, Hs2, Hs. rewrite (seqZ_cons cpu) by lia. simpl. rewrite <- app_assoc. simpl.
    change (Z.pos (Pos.of_succ_nat n)) with (Z.of_nat (S n)).
    replace (Z.pred (Z.of_nat (S n))) with (Z.of_nat n) by lia. by replace (Z.succ cpu) with (cpu + 1) by lia.
  - replace (cpu + Z.of_nat (S n)) with (cpu + 1 + Z.of_nat n) by lia. rewrite Hm2 in Hm3.
    by apply (stacked_step m0 cpu _ _ (l_mem s1)); [lia..| | |].
Qed.

(** ** The jump *)
(** The arguments of the kernel's entry point, from the header. *)
Definition kernel_args (m : gmap Z Z) (cpu : Z) : list Z :=
  [mem_word (loader_data + 24) m; mem_word (loader_data + 32) m; mem_word (loader_data + 40) m;
   mem_word (loader_data + 48) m; 0; 0] ++ (if 1 <? NUM_ACTIVE_CPUS then [hart_of cpu; cpu] else []).
Definition kernel_satp : Z := Z.lor VM_MODE (Z.shiftr boot_lvl1_pt RISCV_PGSHIFT).

(** The bytes of the header and of the table are those of [m]. *)
Definition same_table (m m' : gmap Z Z) : Prop := ∀ a,
  loader_data ≤ a → a + 8 ≤ loader_data + (64 + 32 * num_regions m) → present a 8 m' ∧ mem_word a m' = mem_word a m.
Lemma wp_start_kernel m cpu s : image_ok m → 0 ≤ cpu < NUM_ACTIVE_CPUS → is_Some (hart_ids !! Z.to_nat cpu) →
  same_table m (l_mem s) →
  wp (start_kernel cpu) (λ r s', r = Jumped (mem_word (loader_data + 16) m) (kernel_args m cpu) ∧
    l_satp s' = kernel_satp ∧ l_stvec s' = l_stvec s ∧ starts s' = starts s ∧ l_mem s' = l_mem s) s.
Proof.
  intros Hm Hcpu [hart Hh] Ht. pose proof (num_regions_range _ Hm) as Hn. unfold start_kernel.
  match goal with |- wp ?m ?Q s =>
    enough (∀ s1, since s (λ m', m' = l_mem s) s1 → wp m Q s1) as He by (by apply He) end.
  intros s1 Hs. eapply wp_since; [by auto with loader|done|]; clear s1 Hs; intros _ s1 Hs.
  set (s2 := set_l_satp kernel_satp s1). apply wp_bind. change (arch_mmu_enable cpu s1) with (Done 0 s2 : outcome ldr Z).
  unfold wp at 1. change (arch_mmu_enable cpu s1) with (Done 0 s2 : outcome ldr Z). simpl.
  assert (since (set_l_satp kernel_satp s) (λ m', m' = l_mem s) s2) as Hs2.
  { destruct Hs as (Hc & ? & ?). split_and!; [|done..]. unfold core in *. simpl. congruence. }
  clearbody s2. clear s1 Hs. eapply wp_since; [by auto with loader|done|]. clear s2 Hs2. intros _ s2 Hs2.
  apply wp_bind. apply (wp_mono _ (λ _, since (set_l_satp kernel_satp s) (λ m', m' = l_mem s))).
  { by apply wp_when. }
  clear s2 Hs2. intros [] s2 Hs2. unfold arch_jump_to_kernel, ld_kernel_entry, ld_ui_p_reg_start, ld_ui_p_reg_end, ld_pv_offset, ld_v_entry.
  do 5 (eapply wp_load_since; [|exact Hs2|]; [intros m' ->; apply Ht; lia|]). apply wp_bind.
  apply (wp_mono _ (λ r s', s' = s2 ∧ r = if 1 <? NUM_ACTIVE_CPUS then [hart_of cpu; cpu] else [])).
  { destruct (1 <? NUM_ACTIVE_CPUS); [|done]. apply wp_bind. eapply wp_deref; [done|]. apply wp_ret. unfold hart_of. by rewrite Hh. }
  intros extra s' [-> ->]. apply wp_ret. destruct Hs2 as (Hc & Hst & Hmem). unfold core in Hc; simpl in Hc.
  split_and!; [done|congruence|congruence|done|done].
Qed.

(** ** [main] *)
(** Memory when the kernel starts. *)
Record booted (m m' : gmap Z Z) : Prop := {
  bt_loaded : ∀ i j, 0 ≤ i < num_regions m → 0 ≤ j < size_of m i → m' !! (dest_of m i + j) = m !! (payload_of m i + j);
  bt_stacks : ∀ cpu, 1 ≤ cpu < NUM_ACTIVE_CPUS → mem_word (stack_top cpu) m' = cpu;
  bt_rest : ∀ x, (∀ i, 0 ≤ i < num_regions m → ¬ (dest_of m i ≤ x < dest_of m i + size_of m i)) →
    (∀ cpu, 1 ≤ cpu < NUM_ACTIVE_CPUS → ¬ in_stack cpu x) → m' !! x = m !! x }.
Lemma loaded_stacked m m1 m2 : image_ok m → cpus_ok m → loaded (num_regions m) m m1 → stacked 1 NUM_ACTIVE_CPUS m1 m2 →
  booted m m2 ∧ same_table m m2.
Proof.
  intros Hm Hok H1 H2. pose proof (num_regions_range _ Hm) as Hn. split; [split|].
  - intros i j Hi Hj. rewrite (st_rest _ _ _ _ H2); [by apply (ld_done _ _ _ H1)|].
    intros cpu Hc Hx. apply (cpu_apart_dest _ Hok cpu i Hc Hi (dest_of m i + j)); [done|lia].
  - intros cpu Hc. by apply (st_arg _ _ _ _ H2).
  - intros x Hx Hx'. rewrite (st_rest _ _ _ _ H2) by done. by apply (ld_rest _ _ _ H1).
  - intros a Ha Ha'. destruct (loaded_word _ _ _ a Hm H1) as [Hp <-]; [lia..|].
    split; [by apply (st_present _ _ _ _ H2)|]. apply mem_bytes_same. intros x Hx. apply (st_rest _ _ _ _ H2).
    intros cpu Hc Hin. apply (cpu_apart_table _ Hok cpu Hc x); [done|lia].
Qed.

Lemma wp_main_start {B} (k : Z → L B) Q s : present loader_data 8 (l_mem s) →
  (∀ s', since (set_l_stvec exception_handler_addr s) (λ m, m = l_mem s) s' → wp (k (mem_word loader_data (l_mem s))) Q s') →
  wp (arch_set_exception_handler;; arch_init;; puts_line "LDR|INFO: loader for seL4 starting";; ld_magic ≫= k) Q s.
Proof.
  intros Hp Hk. apply wp_bind, wp_modify.
  match goal with |- wp ?m ?Q ?s0 =>
    enough (∀ s1, since s0 (λ m', m' = l_mem s) s1 → wp m Q s1) as He by (by apply He) end.
  intros s1 Hs. eapply wp_since; [unfold arch_init; by auto 10 with loader|done|]. clear s1 Hs. intros _ s1 Hs.
  eapply wp_since; [by auto with loader|done|]. clear s1 Hs. intros _ s1 Hs.
  eapply (wp_load_since _ _ _ (λ m', m' = l_mem s)); [intros m' ->; by split|done|]. by apply Hk.
Qed.

(** C6: [main] of the boot loader, on an image that is in order: every region is where its
    header says, byte by byte, every other core is started once in order, with its number on
    its stack, no other byte of memory changes, and the core is left in the kernel's entry
    point with the page table of the image and the arguments of the header. *)
Theorem main_boots m s : l_mem s = m → image_ok m → cpus_ok m → mem_word loader_data m = LDR_MAGIC →
  (LDR_PRINTING = true → comes_up s) →
  ∃ s', main s = Done (Jumped (mem_word (loader_data + 16) m) (kernel_args m 0)) s' ∧
    booted m (l_mem s') ∧ l_satp s' = kernel_satp ∧ l_stvec s' = exception_handler_addr ∧
    starts s' = rev (map start_call (seqZ 1 (NUM_ACTIVE_CPUS - 1))) ++ starts s.
Proof.
  intros Hs Hm Hok Hmagic Hup. pose proof (num_regions_range _ Hm) as Hn. pose proof (cpu_count _ Hok) as Hcount.
  enough (wp main (λ r s', r = Jumped (mem_word (loader_data + 16) m) (kernel_args m 0) ∧
    booted m (l_mem s') ∧ l_satp s' = kernel_satp ∧ l_stvec s' = exception_handler_addr ∧
    starts s' = rev (map start_call (seqZ 1 (NUM_ACTIVE_CPUS - 1))) ++ starts s) s) as (r & s' & Hr & -> & ?)%wp_done by eauto.
  apply wp_main_start. { rewrite Hs. eapply present_sub; [by apply img_table|lia..]. }
  intros s1 Hs1. rewrite Hs, Hmagic, Z.eqb_refl. simpl.
  assert (since (set_l_stvec exception_handler_addr s) (λ m', m' = m) s1) as Hs1' by (by rewrite <- Hs).
  apply (wp_prints (table_in (num_regions m))); [by apply prints_loader_data| |].
  { destruct Hs1' as (_ & _ & ->). split; [by apply img_table|done]. }
  intros _ s2 Hq. pose proof (since_quiet _ _ _ _ Hq Hs1') as Hs2. clear Hq Hs1 Hs1' s1.
  apply wp_bind. eapply wp_mono; [apply (wp_copy_data m (set_l_stvec exception_handler_addr s)); [done|]|].
  { destruct Hs2 as (? & ? & Hm2). split_and!; [done..|]. rewrite Hm2. apply loaded_0. }
  clear s2 Hs2. intros [] s2 Hs2.
  do 3 (eapply wp_since; [by auto with loader|done|]; clear s2 Hs2; intros _ s2 Hs2).
  destruct Hs2 as (Hc2 & Hst2 & Hl2). apply wp_bind.
  eapply wp_mono; [apply (wp_start_cpus m); [done|lia|lia| |]|].
  { intros Hp. apply (core_comes_up (set_l_stvec exception_handler_addr s)); [done|]. by apply Hup. }
  { intros c Hc. eapply loaded_present; [done..|]. by apply cpu_stack. }
  intros r s3 (-> & Hc3 & Hst3 & Hm3). simpl.
  replace (1 + Z.of_nat (Z.to_nat (NUM_ACTIVE_CPUS - 1))) with NUM_ACTIVE_CPUS in Hm3 by lia.
  destruct (loaded_stacked _ _ _ Hm Hok Hl2 Hm3) as [Hb Ht].
  eapply wp_mono; [apply (wp_start_kernel m 0 s3); [done|lia|apply (cpu_hart _ Hok); lia|done]|].
  intros r s' (-> & Hsatp & Hstvec & Hst & Hmem). rewrite Hmem, Hst, Hst3, Hst2, Hsatp, Hstvec.
  split_and!; [done..| |by rewrite Z2Nat.id by lia]. unfold core in *; simpl in *. congruence.
Qed.

(** An image without the magic number stops the loader before it has written to memory,
    started a core or switched the address space. *)
Theorem main_bad_magic s : present loader_data 8 (l_mem s) → mem_word loader_data (l_mem s) ≠ LDR_MAGIC →
  ∃ s', main s = Done Halted s' ∧ l_mem s' = l_mem s ∧ starts s' = starts s ∧ l_satp s' = l_satp s.
Proof.
  intros Hp Hmagic.
  enough (wp main (λ r s', r = Halted ∧ l_mem s' = l_mem s ∧ starts s' = starts s ∧ l_satp s' = l_satp s) s)
    as (r & s' & Hr & -> & ?)%wp_done by eauto.
  apply wp_main_start; [done|]. intros s1 Hs1. rewrite (proj2 (Z.eqb_neq _ _) Hmagic). simpl.
  eapply wp_since; [by auto with loader|done|]. clear s1 Hs1. intros _ s1 (Hc & Hst & Hm). apply wp_ret.
  unfold core in Hc; simpl in Hc. split_and!; [done..|congruence].
Qed.

(** C33: Starting another core passes its hart id, the entry code and the stack that holds its
    number to the firmware, and reports success whatever the firmware answers; a number that
    is too large is refused and nothing is started. *)
Theorem plat_start_cpu_ok cpu s : cpus_ok (l_mem s) → 1 ≤ cpu →
  ∃ s', plat_start_cpu cpu s = Done (if cpu <? NUM_ACTIVE_CPUS then 0 else 1) s' ∧
    starts s' = (if cpu <? NUM_ACTIVE_CPUS then [start_call cpu] else []) ++ starts s ∧
    stacked cpu (if cpu <? NUM_ACTIVE_CPUS then cpu + 1 else cpu) (l_mem s) (l_mem s').
Proof.
  intros Hok Hcpu. destruct (Z.ltb_spec cpu NUM_ACTIVE_CPUS) as [Hlt|Hge].
  - pose proof (wp_plat_start_cpu cpu s _ (conj Hcpu Hlt) Hok (cpu_stack _ Hok cpu (conj Hcpu Hlt))) as Hw.
    apply wp_done in Hw as (r & s' & Hr & -> & _ & ? & ?). by exists s'.
  - enough (wp (plat_start_cpu cpu) (λ r s', r = 1 ∧ quiet s s') s) as (r & s' & Hr & -> & _ & Hs & Hm)%wp_done.
    { exists s'. split_and!; [done..|]. rewrite Hm. split; [lia|done..]. }
    unfold plat_start_cpu. rewrite (proj2 (Z.leb_le _ _) Hge).
    do 3 (apply (wp_prints (λ _, True)); [by auto with loader|done|]; intros _ ? ?).
    apply (wp_prints (λ _, True)); [by auto 10 with loader|done|]. intros _ s4 ?. apply wp_ret. split; [done|].
    do 3 (etransitivity; [eassumption|]). done.
Qed.
End boot.

(** * A loader image

    A concrete image of two regions for two cores, on which the theorems of [LoaderSpec.v]
    and [LoaderBoot.v] apply. *)

(** C22: [memmove] leaves at the destination the bytes the source held before, and every other
    byte as it was, however the two ranges overlap, and returns the destination. *)
Theorem memmove_ok d s n st : 0 ≤ n < 2 ^ 64 → present s n (l_mem st) → present d n (l_mem st) →
  ∃ m', memmove d s n st = Done d (set_l_mem m' st) ∧ copied d s n (l_mem st) m'.
Proof.
  intros Hn Hs Hd. destruct (proj1 (wp_done _ _ _) (wp_memmove d s n st Hn Hs Hd)) as (r & s' & Hr & -> & m' & Hm & ->).
  by exists m'.
Qed.

(** ** The image *)
#[local] Instance two_harts : LoaderPlatform := {|
  LDR_PRINTING := false; NUM_ACTIVE_CPUS := 2; hart_ids := [1; 2; 3; 4]; LDR_FIRST_HART_ID := 1;
  bss_end := 8192; stack_of := λ cpu, 4096 * cpu; boot_lvl1_pt := 4096;
  exception_handler_addr := 512; riscv_secondary_cpu_entry_asm := 256 |}.
Fixpoint le_bytes (n : nat) (v : Z) : list Z :=
  match n with O => [] | S n' => v mod 256 :: le_bytes n' (v / 256) end.
Definition words (ws : list Z) : list Z := mjoin (map (le_bytes 8) ws).
(** The header, two regions, five bytes of payload and place for the regions. *)
Definition image_bytes (magic : Z) : list Z :=
  replicate 16 0 ++ words [magic; 0; 0x80200000; 0x90000000; 0x90001000; 0x100; 0x10000; 2] ++
  words [8330; 3; 0; 1] ++ words [8340; 2; 3; 1] ++ [11; 12; 13; 14; 15] ++ replicate 40 0.
Definition image (magic : Z) : gmap Z Z := list_to_map (zip (seqZ 8176 200) (image_bytes magic)).
Definition at_reset (magic : Z) : ldr := Ldr (image magic) 0 0 0 [] 0 (λ _, (0, 0)) (λ _, None).

(** ** What holds of it, by evaluation *)
Lemma present_check a n m : forallb (λ x, bool_decide (is_Some (m !! x))) (seqZ a n) = true → present a n m.
Proof.
  intros Hb x Hx. rewrite forallb_forall in Hb. apply (bool_decide_eq_true_1 (is_Some (m !! x))), Hb.
  by apply list_elem_of_In, elem_of_seqZ.
Qed.
Lemma two_cases (P : Z → Prop) : P 0 → P 1 → ∀ i, 0 ≤ i < 2 → P i.
Proof. intros H0 H1 i Hi. destruct (decide (i = 0)) as [->|]; [done|]. by replace i with 1 by lia. Qed.
Lemma image_num_regions : num_regions (image LDR_MAGIC) = 2.
Proof. by vm_compute. Qed.
Lemma image_layout : dest_of (image LDR_MAGIC) 0 = 8330 ∧ dest_of (image LDR_MAGIC) 1 = 8340 ∧
  size_of (image LDR_MAGIC) 0 = 3 ∧ size_of (image LDR_MAGIC) 1 = 2 ∧
  payload_of (image LDR_MAGIC) 0 = 8320 ∧ payload_of (image LDR_MAGIC) 1 = 8323.
Proof. by vm_compute. Qed.

Lemma image_is_ok : image_ok (image LDR_MAGIC).
Proof.
  destruct image_layout as (E0 & E1 & E2 & E3 & E4 & E5).
  split; rewrite ?image_num_regions; change loader_data with 8192.
  - intros a b Hab. apply (map_Forall_lookup_1 (λ _ b, 0 ≤ b < 2 ^ 8) (image LDR_MAGIC) a); [|done]. by_decide.
  - done.
  - apply present_check. by vm_compute.
  - apply two_cases; rewrite ?E0, ?E1, ?E2, ?E3; apply present_check; by vm_compute.
  - apply two_cases; rewrite ?E4, ?E5, ?E2, ?E3; apply present_check; by vm_compute.
  - apply two_cases; rewrite ?E0, ?E1, ?E2, ?E3; intros x; lia.
  - intros i j Hi. revert j. revert i Hi. refine (two_cases _ _ _); refine (two_cases _ _ _); rewrite ?E0, ?E1, ?E2, ?E3, ?E4, ?E5; intros x; lia.
  - intros i j Hi. revert j. revert i Hi. refine (two_cases _ _ _); refine (two_cases _ _ _); rewrite ?E0, ?E1, ?E2, ?E3; intros ? x; lia.
Qed.
Lemma cpus_are_ok : cpus_ok (image LDR_MAGIC).
Proof.
  destruct image_layout as (E0 & E1 & E2 & E3 & E4 & E5).
  split; rewrite ?image_num_regions; simpl NUM_ACTIVE_CPUS; simpl hart_ids.
  - simpl; lia.
  - apply two_cases; by eexists.
  - intros cpu Hc. replace cpu with 1 by lia. apply present_check. by vm_compute.
  - lia.
  - intros cpu Hc. replace cpu with 1 by lia. intros x. unfold stack_top, STACK_SIZE; simpl. unfold loader_data; simpl. lia.
  - intros cpu i Hc. replace cpu with 1 by lia. revert i. refine (two_cases _ _ _); rewrite ?E0, ?E1, ?E2, ?E3;
      intros x; unfold stack_top, STACK_SIZE; simpl; lia.
Qed.

(** ** Witnesses *)
Lemma memmove_witness : ∃ m', memmove 8325 8321 6 (at_reset LDR_MAGIC) = Done 8325 (set_l_mem m' (at_reset LDR_MAGIC)) ∧
  copied 8325 8321 6 (image LDR_MAGIC) m'.
Proof. apply (memmove_ok 8325 8321 6 (at_reset LDR_MAGIC)); [done|apply present_check; by vm_compute..]. Defined.
Lemma main_boots_witness : ∃ s', main (at_reset LDR_MAGIC) =
    Done (Jumped 0x80200000 [0x90000000; 0x90001000; 0x100; 0x10000; 0; 0; 1; 0]) s' ∧ booted (image LDR_MAGIC) (l_mem s').
Proof.
  destruct (main_boots (image LDR_MAGIC) (at_reset LDR_MAGIC)) as (s' & Hs & Hb & _);
    [done|apply image_is_ok|apply cpus_are_ok|by vm_compute|done|].
  exists s'. split; [|exact Hb]. rewrite Hs. by vm_compute.
Defined.
Lemma main_bad_magic_witness : ∃ s', main (at_reset 7) = Done Halted s' ∧ l_mem s' = image 7.
Proof.
  destruct (main_bad_magic (at_reset 7)) as (s' & Hs & Hm & _); [apply present_check; by vm_compute|by vm_compute|].
  exists s'. by split.
Defined.
Lemma plat_start_cpu_witness : ∃ s', plat_start_cpu 1 (at_reset LDR_MAGIC) = Done 0 s' ∧ starts s' = [start_call 1].
Proof.
  destruct (plat_start_cpu_ok 1 (at_reset LDR_MAGIC)) as (s' & Hs & Hst & _); [apply cpus_are_ok|lia|].
  exists s'. split; [exact Hs|exact Hst].
Defined.
