(* ===== verification/Smp.v ===== *)
(** * Several cores: the big kernel lock and remote calls

    [include/smp/lock.h], [smp/lock.c], [smp/ipi.c] and [arch/riscv/smp/ipi.c]: the CLH queue
    lock around the kernel, the interprocessor interrupts by which the core that holds the
    lock has a function run on other cores, and the barrier they meet at. The cores take
    turns in any order, one access to shared memory at a time; the fences and the acquire
    and release orderings of the code are there to make this the right view of memory.
    The words of a call (its function and arguments) are read and written in one step.
    What a core does with the lock held, and the functions called remotely, are not part of
    the model: a remote call is recorded when it is run. *)
From stdpp Require Import functions relations.
From S2P Require Import Prelude Words.

(** The number of cores: hart ids and core numbers agree. *)
Class SmpPlatform := { CONFIG_MAX_NUM_NODES : nat; nodes_fit : (1 ≤ CONFIG_MAX_NUM_NODES ≤ 64)%nat }.

Inductive clh_req_state_t := CLHState_Granted | CLHState_Pending.
Inductive IpiRemoteCall_t := IpiRemoteCall_Stall | IpiRemoteCall_switchFpuOwner.
Inductive ipi_irq := no_ipi | irq_remote_call_ipi | irq_reschedule_ipi.
#[global] Instance clh_req_state_eq_dec : EqDecision clh_req_state_t.
Proof. solve_decision. Defined.
#[global] Instance IpiRemoteCall_eq_dec : EqDecision IpiRemoteCall_t.
Proof. solve_decision. Defined.
#[global] Instance ipi_irq_eq_dec : EqDecision ipi_irq.
Proof. solve_decision. Defined.

Record ipi_state := IpiState {
  count : Z;
  globalsense : Z;
  totalCoreBarrier : Z;
  remoteCall : IpiRemoteCall_t;
  ipi_args : list Z }.

(** ** Where a core is

    The places between two accesses to shared memory, with the local variables there. *)
Inductive barrier_loc :=
  | b_cores
  | b_sense (cores : Z)
  | b_add (cores localsense : Z)
  | b_reset (localsense : Z)
  | b_flip (localsense : Z)
  | b_loop (localsense : Z).
(** From where a remote call is handled: the loop of [clh_lock_acquire], or an interrupt. *)
Inductive handler_origin := in_acquire | in_interrupt.
(** A remote call that was run: by which core, from where, and what. *)
Record remote_run := RemoteRun {
  run_core : nat;
  run_from : handler_origin;
  run_func : IpiRemoteCall_t;
  run_args : list Z }.
(** The call that a core is making; [op_before] is what had been run before it began. *)
Record remote_op := RemoteOp {
  op_call : IpiRemoteCall_t;
  op_args : list Z;
  op_mask : Z;
  op_before : list remote_run }.
Inductive op_loc :=
  | o_args
  | o_total
  | o_flag (mask : Z) (target_cores : list nat)
  | o_send (target_cores : list nat)
  | o_wait (b : barrier_loc).
Inductive core_loc :=
  | l_out
  | l_exchange
  | l_spin
  | l_poll
  | l_held
  | l_take
  | l_args (from : handler_origin)
  | l_check (from : handler_origin) (call : IpiRemoteCall_t) (args : list Z)
  | l_call (from : handler_origin) (call : IpiRemoteCall_t) (args : list Z)
  | l_clear (from : handler_origin)
  | l_irq (from : handler_origin)
  | l_wait (from : handler_origin) (b : barrier_loc)
  | l_ack
  | l_op (o : remote_op) (p : op_loc)
  | l_resched (mask : Z).

(** [request], [watch], [myreq], [node_ipi] and [tail] are the lock, whose requests are
    numbered; [core_at] and the list [ran] of remote calls that were run, the latest first,
    stand for what the cores do. *)
Record smp := Smp {
  request : nat → clh_req_state_t;
  watch : nat → nat;
  myreq : nat → nat;
  node_ipi : nat → bool;
  tail : nat;
  ipi : ipi_state;
  ipiIrq : nat → ipi_irq;
  core_at : nat → core_loc;
  ran : list remote_run }.
Definition set_request (f : nat → clh_req_state_t) (s : smp) : smp :=
  Smp f (watch s) (myreq s) (node_ipi s) (tail s) (ipi s) (ipiIrq s) (core_at s) (ran s).
Definition set_watch (f : nat → nat) (s : smp) : smp :=
  Smp (request s) f (myreq s) (node_ipi s) (tail s) (ipi s) (ipiIrq s) (core_at s) (ran s).
Definition set_myreq (f : nat → nat) (s : smp) : smp :=
  Smp (request s) (watch s) f (node_ipi s) (tail s) (ipi s) (ipiIrq s) (core_at s) (ran s).
Definition set_node_ipi (f : nat → bool) (s : smp) : smp :=
  Smp (request s) (watch s) (myreq s) f (tail s) (ipi s) (ipiIrq s) (core_at s) (ran s).
Definition set_tail (t : nat) (s : smp) : smp :=
  Smp (request s) (watch s) (myreq s) (node_ipi s) t (ipi s) (ipiIrq s) (core_at s) (ran s).
Definition set_ipi (i : ipi_state) (s : smp) : smp :=
  Smp (request s) (watch s) (myreq s) (node_ipi s) (tail s) i (ipiIrq s) (core_at s) (ran s).
Definition set_ipiIrq (f : nat → ipi_irq) (s : smp) : smp :=
  Smp (request s) (watch s) (myreq s) (node_ipi s) (tail s) (ipi s) f (core_at s) (ran s).
Definition set_core_at (f : nat → core_loc) (s : smp) : smp :=
  Smp (request s) (watch s) (myreq s) (node_ipi s) (tail s) (ipi s) (ipiIrq s) f (ran s).
Definition set_ran (l : list remote_run) (s : smp) : smp :=
  Smp (request s) (watch s) (myreq s) (node_ipi s) (tail s) (ipi s) (ipiIrq s) (core_at s) l.
Definition goto (cpu : nat) (l : core_loc) (s : smp) : smp := set_core_at (<[cpu := l]> (core_at s)) s.

(** ** The accesses to the lock *)
Definition clh_is_ipi_pending (cpu : nat) (s : smp) : bool := node_ipi s cpu.
(** [node->myreq->state = CLHState_Pending] *)
Definition acquire_pending (cpu : nat) (s : smp) : smp :=
  set_request (<[myreq s cpu := CLHState_Pending]> (request s)) s.
(** [node->watch = __atomic_exchange_n(&tail, node->myreq)] *)
Definition acquire_exchange (cpu : nat) (s : smp) : smp :=
  set_tail (myreq s cpu) (set_watch (<[cpu := tail s]> (watch s)) s).
Definition watch_granted (cpu : nat) (s : smp) : bool :=
  bool_decide (request s (watch s cpu) = CLHState_Granted).
(** [node->myreq->state = CLHState_Granted] *)
Definition release_grant (cpu : nat) (s : smp) : smp :=
  set_request (<[myreq s cpu := CLHState_Granted]> (request s)) s.
(** [node->myreq = node->watch] *)
Definition release_take (cpu : nat) (s : smp) : smp := set_myreq (<[cpu := watch s cpu]> (myreq s)) s.
Definition clh_is_self_in_queue (cpu : nat) (s : smp) : bool :=
  bool_decide (request s (myreq s cpu) = CLHState_Pending).

(** ** The accesses of a remote call *)
Fixpoint popcount_loop (n : nat) (mask : Z) : Z :=
  match n with
  | O => 0
  | S n' => if mask =? 0 then 0 else 1 + popcount_loop n' (Z.land mask (mask - 1))
  end.
(** Each round clears the lowest bit set: 64 rounds are enough for a word. *)
Definition popcountl (mask : Z) : Z := popcount_loop 64 mask.
Definition init_ipi_call (func : IpiRemoteCall_t) (args : list Z) (s : smp) : smp :=
  set_ipi (IpiState (count (ipi s)) (globalsense (ipi s)) (totalCoreBarrier (ipi s)) func args) s.
Definition init_ipi_total (mask : Z) (s : smp) : smp :=
  set_ipi (IpiState (count (ipi s)) (globalsense (ipi s)) (popcountl mask) (remoteCall (ipi s)) (ipi_args (ipi s))) s.
(** [wordBits - 1 - clzl(mask)] *)
Definition mask_index (mask : Z) : nat := Z.to_nat (wordBits - 1 - clzl mask).
Definition mask_without (cpu : nat) (mask : Z) : Z := Z.land mask (wnot (BIT (Z.of_nat cpu))).
Definition set_pending (cpu : nat) (b : bool) (s : smp) : smp := set_node_ipi (<[cpu := b]> (node_ipi s)) s.
Definition set_ipi_irq (cpu : nat) (i : ipi_irq) (s : smp) : smp := set_ipiIrq (<[cpu := i]> (ipiIrq s)) s.
(** The assertion of [ipi_send_target]. *)
Definition ipi_send_target_ok (cpu : nat) (s : smp) : bool :=
  match ipiIrq s cpu with
  | no_ipi | irq_reschedule_ipi => true
  | irq_remote_call_ipi => negb (clh_is_ipi_pending cpu s)
  end.
Definition run_call (cpu : nat) (from : handler_origin) (call : IpiRemoteCall_t) (args : list Z) (s : smp) : smp :=
  set_ran (RemoteRun cpu from call args :: ran s) s.

(** ** [ipi_wait]: from one place to the next, [None] at the end *)
Definition set_count (n : Z) (s : smp) : smp :=
  set_ipi (IpiState n (globalsense (ipi s)) (totalCoreBarrier (ipi s)) (remoteCall (ipi s)) (ipi_args (ipi s))) s.
Definition set_globalsense (n : Z) (s : smp) : smp :=
  set_ipi (IpiState (count (ipi s)) n (totalCoreBarrier (ipi s)) (remoteCall (ipi s)) (ipi_args (ipi s))) s.
Definition ipi_wait_step (b : barrier_loc) (s : smp) : option barrier_loc * smp :=
  match b with
  | b_cores => (Some (b_sense (totalCoreBarrier (ipi s))), s)
  | b_sense cores => (Some (b_add cores (globalsense (ipi s))), s)
  | b_add cores localsense =>
    (Some (if count (ipi s) =? cores then b_reset localsense else b_loop localsense),
     set_count (count (ipi s) +w 1) s)
  | b_reset localsense => (Some (b_flip localsense), set_count 0 s)
  | b_flip localsense => (Some (b_loop localsense), set_globalsense (globalsense (ipi s) +w 1) s)
  | b_loop localsense => (if localsense =? globalsense (ipi s) then Some (b_loop localsense) else None, s)
  end.

(** Where the handling of an interrupt goes on. *)
Definition handled (from : handler_origin) : core_loc :=
  match from with in_acquire => l_spin | in_interrupt => l_ack end.

Section steps.
Context `{SmpPlatform}.

(** ** The steps of a core *)
Inductive core_step (cpu : nat) (s : smp) : smp → Prop :=
  (** [clh_lock_acquire] *)
  | step_acquire : core_at s cpu = l_out →
      core_step cpu s (goto cpu l_exchange (acquire_pending cpu s))
  | step_exchange : core_at s cpu = l_exchange →
      core_step cpu s (goto cpu l_spin (acquire_exchange cpu s))
  | step_spin : core_at s cpu = l_spin →
      core_step cpu s (goto cpu (if watch_granted cpu s then l_held else l_poll) s)
  | step_poll : core_at s cpu = l_poll →
      core_step cpu s (goto cpu (if clh_is_ipi_pending cpu s then l_args in_acquire else l_spin) s)
  (** [clh_lock_release] *)
  | step_release : core_at s cpu = l_held →
      core_step cpu s (goto cpu l_take (release_grant cpu s))
  | step_take : core_at s cpu = l_take →
      core_step cpu s (goto cpu l_out (release_take cpu s))
  (** [c_handle_interrupt] for a remote call, without the lock; for a rescheduling with it *)
  | step_interrupt : core_at s cpu = l_out → ipiIrq s cpu = irq_remote_call_ipi →
      core_step cpu s (goto cpu (l_args in_interrupt) s)
  | step_ack : core_at s cpu = l_ack →
      core_step cpu s (goto cpu l_out (set_ipi_irq cpu no_ipi s))
  | step_ack_locked : core_at s cpu = l_held →
      core_step cpu s (set_ipi_irq cpu no_ipi s)
  (** [handleIPI], which reads the call and its arguments, and [handleRemoteCall]. A call of
      [ipiStallCoreCallback] from [clh_lock_acquire] clears the flag, meets the others and
      goes on waiting for the lock by itself, with the same accesses. *)
  | step_args from : core_at s cpu = l_args from →
      core_step cpu s (goto cpu (l_check from (remoteCall (ipi s)) (ipi_args (ipi s))) s)
  | step_check from call args : core_at s cpu = l_check from call args →
      core_step cpu s (goto cpu (if clh_is_ipi_pending cpu s then l_call from call args else handled from) s)
  | step_call from call args : core_at s cpu = l_call from call args →
      core_step cpu s (goto cpu (l_clear from) (run_call cpu from call args s))
  | step_clear from : core_at s cpu = l_clear from →
      core_step cpu s (goto cpu (l_irq from) (set_pending cpu false s))
  | step_irq from : core_at s cpu = l_irq from →
      core_step cpu s (goto cpu (l_wait from b_cores) (set_ipi_irq cpu no_ipi s))
  | step_wait from b : core_at s cpu = l_wait from b →
      core_step cpu s (goto cpu (match fst (ipi_wait_step b s) with Some b' => l_wait from b' | None => handled from end)
        (snd (ipi_wait_step b s)))
  (** [doRemoteMaskOp], for a mask of existing cores *)
  | step_op func args mask : core_at s cpu = l_held → 0 ≤ mask < 2 ^ Z.of_nat CONFIG_MAX_NUM_NODES →
      core_step cpu s (goto cpu (if mask_without cpu mask =? 0 then l_held
        else l_op (RemoteOp func args (mask_without cpu mask) (ran s)) o_args) s)
  | step_op_args o : core_at s cpu = l_op o o_args →
      core_step cpu s (goto cpu (l_op o o_total) (init_ipi_call (op_call o) (op_args o) s))
  | step_op_total o : core_at s cpu = l_op o o_total →
      core_step cpu s (goto cpu (l_op o (o_flag (op_mask o) [])) (init_ipi_total (op_mask o) s))
  | step_op_flag o mask tcs : core_at s cpu = l_op o (o_flag mask tcs) → mask ≠ 0 →
      core_step cpu s (goto cpu (l_op o (o_flag (mask_without (mask_index mask) mask) (tcs ++ [mask_index mask])))
        (set_pending (mask_index mask) true s))
  | step_op_flagged o tcs : core_at s cpu = l_op o (o_flag 0 tcs) →
      core_step cpu s (goto cpu (l_op o (o_send tcs)) s)
  | step_op_send o t tcs : core_at s cpu = l_op o (o_send (t :: tcs)) →
      core_step cpu s (goto cpu (l_op o (o_send tcs)) (set_ipi_irq t irq_remote_call_ipi s))
  | step_op_sent o : core_at s cpu = l_op o (o_send []) →
      core_step cpu s (goto cpu (l_op o (o_wait b_cores)) s)
  | step_op_wait o b : core_at s cpu = l_op o (o_wait b) →
      core_step cpu s (goto cpu (match fst (ipi_wait_step b s) with Some b' => l_op o (o_wait b') | None => l_held end)
        (snd (ipi_wait_step b s)))
  (** [doMaskReschedule] *)
  | step_resched mask : core_at s cpu = l_held → 0 ≤ mask < 2 ^ Z.of_nat CONFIG_MAX_NUM_NODES →
      core_step cpu s (goto cpu (l_resched (mask_without cpu mask)) s)
  | step_resched_send mask : core_at s cpu = l_resched mask → mask ≠ 0 →
      core_step cpu s (goto cpu (l_resched (mask_without (mask_index mask) mask))
        (set_ipi_irq (mask_index mask) irq_reschedule_ipi s))
  | step_resched_sent : core_at s cpu = l_resched 0 →
      core_step cpu s (goto cpu l_held s).

(** The same as a function of what [cpu] does where it has a choice. *)
Inductive core_choice := ch_go | ch_interrupt | ch_ack | ch_op (func : IpiRemoteCall_t) (args : list Z) (mask : Z) | ch_resched (mask : Z).
Definition is_mask (mask : Z) : bool := (0 <=? mask) && (mask <? 2 ^ Z.of_nat CONFIG_MAX_NUM_NODES).
Definition core_next (cpu : nat) (ch : core_choice) (s : smp) : option smp :=
  match ch, core_at s cpu with
  | ch_interrupt, l_out =>
    if bool_decide (ipiIrq s cpu = irq_remote_call_ipi) then Some (goto cpu (l_args in_interrupt) s) else None
  | ch_ack, l_held => Some (set_ipi_irq cpu no_ipi s)
  | ch_op func args mask, l_held =>
    if is_mask mask then Some (goto cpu (if mask_without cpu mask =? 0 then l_held
      else l_op (RemoteOp func args (mask_without cpu mask) (ran s)) o_args) s) else None
  | ch_resched mask, l_held => if is_mask mask then Some (goto cpu (l_resched (mask_without cpu mask)) s) else None
  | ch_go, l =>
    Some match l with
    | l_out => goto cpu l_exchange (acquire_pending cpu s)
    | l_exchange => goto cpu l_spin (acquire_exchange cpu s)
    | l_spin => goto cpu (if watch_granted cpu s then l_held else l_poll) s
    | l_poll => goto cpu (if clh_is_ipi_pending cpu s then l_args in_acquire else l_spin) s
    | l_held => goto cpu l_take (release_grant cpu s)
    | l_take => goto cpu l_out (release_take cpu s)
    | l_ack => goto cpu l_out (set_ipi_irq cpu no_ipi s)
    | l_args from => goto cpu (l_check from (remoteCall (ipi s)) (ipi_args (ipi s))) s
    | l_check from call args => goto cpu (if clh_is_ipi_pending cpu s then l_call from call args else handled from) s
    | l_call from call args => goto cpu (l_clear from) (run_call cpu from call args s)
    | l_clear from => goto cpu (l_irq from) (set_pending cpu false s)
    | l_irq from => goto cpu (l_wait from b_cores) (set_ipi_irq cpu no_ipi s)
    | l_wait from b => goto cpu (match fst (ipi_wait_step b s) with Some b' => l_wait from b' | None => handled from end)
        (snd (ipi_wait_step b s))
    | l_op o o_args => goto cpu (l_op o o_total) (init_ipi_call (op_call o) (op_args o) s)
    | l_op o o_total => goto cpu (l_op o (o_flag (op_mask o) [])) (init_ipi_total (op_mask o) s)
    | l_op o (o_flag mask tcs) =>
      if decide (mask = 0) then goto cpu (l_op o (o_send tcs)) s
      else goto cpu (l_op o (o_flag (mask_without (mask_index mask) mask) (tcs ++ [mask_index mask]))) (set_pending (mask_index mask) true s)
    | l_op o (o_send (t :: tcs)) => goto cpu (l_op o (o_send tcs)) (set_ipi_irq t irq_remote_call_ipi s)
    | l_op o (o_send []) => goto cpu (l_op o (o_wait b_cores)) s
    | l_op o (o_wait b) => goto cpu (match fst (ipi_wait_step b s) with Some b' => l_op o (o_wait b') | None => l_held end)
        (snd (ipi_wait_step b s))
    | l_resched mask =>
      if decide (mask = 0) then goto cpu l_held s
      else goto cpu (l_resched (mask_without (mask_index mask) mask)) (set_ipi_irq (mask_index mask) irq_reschedule_ipi s)
    end
  | _, _ => None
  end.

Definition smp_step (s s' : smp) : Prop := ∃ cpu, (cpu < CONFIG_MAX_NUM_NODES)%nat ∧ core_step cpu s s'.

(** [clh_lock_init]; everything else is zero. *)
Definition clh_lock_init : smp := {|
  request := λ _, CLHState_Granted;
  watch := λ _, 0%nat;
  myreq := λ cpu, cpu;
  node_ipi := λ _, false;
  tail := CONFIG_MAX_NUM_NODES;
  ipi := IpiState 0 0 0 IpiRemoteCall_Stall [];
  ipiIrq := λ _, no_ipi;
  core_at := λ _, l_out;
  ran := [] |}.
Definition smp_reachable : smp → Prop := rtc smp_step clh_lock_init.

(** A run: the cores that take a step in turn, with their choices. *)
Fixpoint smp_run (l : list (nat * core_choice)) (s : smp) : option smp :=
  match l with
  | [] => Some s
  | (cpu, ch) :: l' => if (cpu <? CONFIG_MAX_NUM_NODES)%nat then core_next cpu ch s ≫= smp_run l' else None
  end.

Lemma is_mask_spec mask : is_mask mask = true ↔ 0 ≤ mask < 2 ^ Z.of_nat CONFIG_MAX_NUM_NODES.
Proof. unfold is_mask. rewrite andb_true_iff, Z.leb_le, Z.ltb_lt. done. Qed.
Lemma core_next_sound cpu ch s s' : core_next cpu ch s = Some s' → core_step cpu s s'.
Proof.
  unfold core_next. intros Hn. destruct ch as [| | |func args mask|mask].
  - destruct (core_at s cpu) as [| | | | | |from|from call args|from call args|from|from|from b| |o [| |m tcs|[|t tcs]|b]|m] eqn:Hat;
      try case_decide; subst; simplify_eq; (by econstructor) || done.
  - destruct (core_at s cpu) eqn:Hat; try done. case_bool_decide; simplify_eq. by constructor.
  - destruct (core_at s cpu) eqn:Hat; try done. simplify_eq. by constructor.
  - destruct (core_at s cpu) eqn:Hat; try done. destruct (is_mask mask) eqn:Hm; simplify_eq. apply step_op; [done|by apply is_mask_spec].
  - destruct (core_at s cpu) eqn:Hat; try done. destruct (is_mask mask) eqn:Hm; simplify_eq. apply step_resched; [done|by apply is_mask_spec].
Qed.
Lemma core_next_complete cpu s s' : core_step cpu s s' → ∃ ch, core_next cpu ch s = Some s'.
Proof.
  intros Hs. destruct Hs as [Hat|Hat|Hat|Hat|Hat|Hat|Hat Hi|Hat|Hat|from Hat|from f ar Hat|from f ar Hat|from Hat|from Hat|from b Hat
    |func args mask Hat Hm|o Hat|o Hat|o mask tcs Hat Hm|o tcs Hat|o t tcs Hat|o Hat|o b Hat|mask Hat Hm|mask Hat Hm|Hat];
    try (exists ch_go; unfold core_next; rewrite Hat; rewrite ?decide_False by done; done).
  - exists ch_interrupt. unfold core_next. rewrite Hat. by rewrite bool_decide_eq_true_2.
  - exists ch_ack. unfold core_next. by rewrite Hat.
  - exists (ch_op func args mask). unfold core_next. rewrite Hat. by rewrite (proj2 (is_mask_spec mask)).
  - exists (ch_resched mask). unfold core_next. rewrite Hat. by rewrite (proj2 (is_mask_spec mask)).
Qed.
Lemma smp_run_steps l s s' : smp_run l s = Some s' → rtc smp_step s s'.
Proof.
  revert s. induction l as [|[cpu ch] l IH]; intros s Hr; simpl in Hr; [by simplify_eq|].
  destruct (Nat.ltb_spec cpu CONFIG_MAX_NUM_NODES) as [Hlt|]; [|done].
  apply bind_Some in Hr as (s1 & Hn & Hr). eapply rtc_l; [|by apply IH]. exists cpu. split; [done|]. by eapply core_next_sound.
Qed.
End steps.
