(* ===== verification/SmpLock.v ===== *)
(** * The big kernel lock is a FIFO lock

    The CLH lock of [Smp.v] implements a queue of cores whose first core holds the lock: a
    forward simulation from the steps of the cores to those of the abstract lock. With the
    order in which the cores exchanged the tail and got the lock as a history of the run, it
    follows that the two orders agree. *)
From stdpp Require Import functions relations.
From S2P Require Import Prelude Words Smp.

(** ** The abstract lock: the cores in line, and whether the first one holds the lock *)
Record fifo := Fifo { line : list nat; taken : bool }.
Inductive fifo_step : fifo → fifo → Prop :=
  | fifo_enqueue c q b : c ∉ q → fifo_step (Fifo q b) (Fifo (q ++ [c]) b)
  | fifo_acquire c q : fifo_step (Fifo (c :: q) false) (Fifo (c :: q) true)
  | fifo_release c q : fifo_step (Fifo (c :: q) true) (Fifo q false).

(** ** What a place in the code means for the lock *)
Inductive lock_class := c_outside | c_marked | c_waiting | c_holding | c_leaving.
Definition origin_class (from : handler_origin) : lock_class :=
  match from with in_acquire => c_waiting | in_interrupt => c_outside end.
Definition class_of (l : core_loc) : lock_class :=
  match l with
  | l_out | l_ack => c_outside
  | l_exchange => c_marked
  | l_spin | l_poll => c_waiting
  | l_held | l_op _ _ | l_resched _ => c_holding
  | l_take => c_leaving
  | l_args from | l_check from _ _ | l_call from _ _ | l_clear from | l_irq from | l_wait from _ => origin_class from
  end.
Definition class_at (s : smp) (cpu : nat) : lock_class := class_of (core_at s cpu).
Definition queued (l : lock_class) : Prop := l = c_waiting ∨ l = c_holding.

(** A step as the lock sees it. *)
Inductive lock_step (cpu : nat) (s s' : smp) : Prop :=
  | lock_mark : class_at s cpu = c_outside → (∀ c, class_at s' c = <[cpu := c_marked]> (class_at s) c) →
      request s' = request (acquire_pending cpu s) → watch s' = watch s → myreq s' = myreq s → tail s' = tail s →
      lock_step cpu s s'
  | lock_exchange : class_at s cpu = c_marked → (∀ c, class_at s' c = <[cpu := c_waiting]> (class_at s) c) →
      request s' = request s → watch s' = watch (acquire_exchange cpu s) → myreq s' = myreq s →
      tail s' = myreq s cpu → lock_step cpu s s'
  | lock_grant : class_at s cpu = c_waiting → watch_granted cpu s = true →
      (∀ c, class_at s' c = <[cpu := c_holding]> (class_at s) c) →
      request s' = request s → watch s' = watch s → myreq s' = myreq s → tail s' = tail s → lock_step cpu s s'
  | lock_release : class_at s cpu = c_holding → (∀ c, class_at s' c = <[cpu := c_leaving]> (class_at s) c) →
      request s' = request (release_grant cpu s) → watch s' = watch s → myreq s' = myreq s → tail s' = tail s →
      lock_step cpu s s'
  | lock_take : class_at s cpu = c_leaving → (∀ c, class_at s' c = <[cpu := c_outside]> (class_at s) c) →
      request s' = request s → watch s' = watch s → myreq s' = myreq (release_take cpu s) → tail s' = tail s →
      lock_step cpu s s'
  | lock_none : (∀ c, class_at s' c = class_at s c) →
      request s' = request s → watch s' = watch s → myreq s' = myreq s → tail s' = tail s → lock_step cpu s s'.

Lemma goto_here cpu l s : core_at (goto cpu l s) cpu = l.
Proof. apply fn_lookup_insert. Qed.
Lemma class_goto cpu l s c : class_at (goto cpu l s) c = <[cpu := class_of l]> (class_at s) c.
Proof.
  unfold class_at, goto, set_core_at; simpl.
  destruct (decide (cpu = c)) as [->|Hne]; [by rewrite !fn_lookup_insert|by rewrite !fn_lookup_insert_ne].
Qed.
Lemma class_same cpu l s c : class_of l = class_at s cpu → class_at (goto cpu l s) c = class_at s c.
Proof.
  intros Hl. rewrite class_goto, Hl.
  destruct (decide (cpu = c)) as [->|Hne]; [by rewrite fn_lookup_insert|by rewrite fn_lookup_insert_ne].
Qed.
Lemma ipi_wait_lock b s : class_at (snd (ipi_wait_step b s)) = class_at s ∧ request (snd (ipi_wait_step b s)) = request s ∧
  watch (snd (ipi_wait_step b s)) = watch s ∧ myreq (snd (ipi_wait_step b s)) = myreq s ∧ tail (snd (ipi_wait_step b s)) = tail s.
Proof. by destruct b. Qed.

Section lock.
Context `{SmpPlatform}.

Lemma core_step_lock cpu s s' : core_step cpu s s' → lock_step cpu s s'.
Proof.
  assert (∀ l s1, (class_at s1 = class_at s) → request s1 = request s → watch s1 = watch s → myreq s1 = myreq s →
    tail s1 = tail s → class_of l = class_at s cpu → lock_step cpu s (goto cpu l s1)) as Hnone.
  { intros l s1 Hc ? ? ? ? Hl. apply lock_none; try done. intros c. rewrite <- Hc. apply class_same. by rewrite Hc. }
  intros Hs. destruct Hs as [Hat|Hat|Hat|Hat|Hat|Hat|Hat _|Hat|Hat|from Hat|from f ar Hat|from f ar Hat|from Hat|from Hat|from b Hat
    |func args mask Hat _|o Hat|o Hat|o mask tcs Hat _|o tcs Hat|o t tcs Hat|o Hat|o b Hat|mask Hat _|mask Hat _|Hat];
    assert (class_at s cpu = class_of (core_at s cpu)) as Hcl by done; rewrite Hat in Hcl; simpl in Hcl.
  - apply lock_mark; try done. intros c. by rewrite class_goto.
  - apply lock_exchange; try done. intros c. by rewrite class_goto.
  - destruct (watch_granted cpu s) eqn:Hg; [|by apply Hnone]. apply lock_grant; try done. intros c. by rewrite class_goto.
  - apply Hnone; try done. by destruct (clh_is_ipi_pending _ _).
  - apply lock_release; try done. intros c. by rewrite class_goto.
  - apply lock_take; try done. intros c. by rewrite class_goto.
  - by apply Hnone.
  - by apply Hnone.
  - by apply lock_none.
  - by apply Hnone.
  - apply Hnone; try done. rewrite Hcl. by destruct (clh_is_ipi_pending _ _), from.
  - by apply Hnone.
  - by apply Hnone.
  - by apply Hnone.
  - destruct (ipi_wait_lock b s) as (? & ? & ? & ? & ?). apply Hnone; try done. rewrite Hcl.
    destruct (fst (ipi_wait_step b s)); [done|by destruct from].
  - apply Hnone; try done. by destruct (_ =? 0).
  - by apply Hnone.
  - by apply Hnone.
  - by apply Hnone.
  - by apply Hnone.
  - by apply Hnone.
  - by apply Hnone.
  - destruct (ipi_wait_lock b s) as (? & ? & ? & ? & ?). apply Hnone; try done. by destruct (fst (ipi_wait_step b s)).
  - by apply Hnone.
  - by apply Hnone.
  - by apply Hnone.
Qed.

(** ** The simulation *)
(** Each core watches the request of the one before it; the first watches [f]. *)
Fixpoint chain (s : smp) (f : nat) (q : list nat) (t : nat) : Prop :=
  match q with [] => t = f | c :: q' => watch s c = f ∧ chain s (myreq s c) q' t end.
(** The request that a core will use next: the one it watched, once it has passed the lock on. *)
Definition own (s : smp) (c : nat) : nat :=
  match class_at s c with c_leaving => watch s c | _ => myreq s c end.
(** [free] is the request that the first core in line watches. *)
Record clh_sim (free : nat) (s : smp) (a : fifo) : Prop := {
  sim_nodup : NoDup (line a);
  sim_line : ∀ c, c ∈ line a ↔ (c < CONFIG_MAX_NUM_NODES)%nat ∧ queued (class_at s c);
  sim_taken : ∀ c, (c < CONFIG_MAX_NUM_NODES)%nat → class_at s c = c_holding ↔ taken a = true ∧ head (line a) = Some c;
  sim_nonempty : taken a = true → line a ≠ [];
  sim_own : ∀ c c', (c < CONFIG_MAX_NUM_NODES)%nat → (c' < CONFIG_MAX_NUM_NODES)%nat → own s c = own s c' → c = c';
  sim_free : ∀ c, (c < CONFIG_MAX_NUM_NODES)%nat → own s c ≠ free;
  sim_granted : request s free = CLHState_Granted;
  sim_pending : ∀ c, (c < CONFIG_MAX_NUM_NODES)%nat → queued (class_at s c) ∨ class_at s c = c_marked →
    request s (myreq s c) = CLHState_Pending;
  sim_chain : chain s free (line a) (tail s) }.

Lemma chain_same s s' f q t : (∀ c, c ∈ q → watch s' c = watch s c ∧ myreq s' c = myreq s c) → chain s f q t → chain s' f q t.
Proof.
  revert f. induction q as [|c q IH]; intros f Hq; [done|]. simpl. intros [Hw Hc].
  destruct (Hq c) as [-> ->]; [by apply list_elem_of_here|]. split; [done|]. apply IH; [|done]. intros c' Hc'. apply Hq. by apply list_elem_of_further.
Qed.
Lemma chain_snoc s f q t c : chain s f q t → watch s c = t → chain s f (q ++ [c]) (myreq s c).
Proof. revert f. induction q as [|c' q IH]; intros f; simpl; [by intros <-|]. intros [? ?] ?. split; [done|by apply IH]. Qed.
(** A core that is not the first in line watches the request of another one in line. *)
Lemma chain_watch s f q t c : chain s f q t → c ∈ q → (head q = Some c ∧ watch s c = f) ∨ ∃ c', c' ∈ q ∧ watch s c = myreq s c'.
Proof.
  revert f. induction q as [|c0 q IH]; intros f; [intros _ []%not_elem_of_nil|]. intros [Hw Hc] [->|Hin]%elem_of_cons; [by left|].
  right. destruct (IH _ Hc Hin) as [[_ Hw']|(c' & Hc' & Hw')]; [exists c0|exists c']; split; try done; [by apply list_elem_of_here|by apply list_elem_of_further].
Qed.
Lemma own_in_line s c : class_at s c ≠ c_leaving → own s c = myreq s c.
Proof. unfold own. by destruct (class_at s c). Qed.

Section step.
Context (cpu : nat) (s s' : smp) (Hcpu : (cpu < CONFIG_MAX_NUM_NODES)%nat).
Implicit Types (a : fifo).

Lemma class_new l : (∀ c, class_at s' c = <[cpu := l]> (class_at s) c) → class_at s' cpu = l.
Proof. intros ->. apply fn_lookup_insert. Qed.
Lemma class_old l c : (∀ c, class_at s' c = <[cpu := l]> (class_at s) c) → c ≠ cpu → class_at s' c = class_at s c.
Proof. intros -> Hne. by rewrite fn_lookup_insert_ne. Qed.

(** Requests, watched requests and own requests of a step that changes only the class of [cpu],
    between classes that own the same request. *)
Lemma sim_own_same free a : clh_sim free s a → (∀ c, own s' c = own s c) →
  (∀ c c', (c < CONFIG_MAX_NUM_NODES)%nat → (c' < CONFIG_MAX_NUM_NODES)%nat → own s' c = own s' c' → c = c') ∧
  (∀ c, (c < CONFIG_MAX_NUM_NODES)%nat → own s' c ≠ free).
Proof.
  intros Hs Ho. split.
  - intros c c' Hc Hc'. rewrite !Ho. by apply (sim_own _ _ _ Hs).
  - intros c Hc. rewrite Ho. by apply (sim_free _ _ _ Hs).
Qed.

Lemma sim_mark free a : clh_sim free s a → class_at s cpu = c_outside → (∀ c, class_at s' c = <[cpu := c_marked]> (class_at s) c) →
  request s' = request (acquire_pending cpu s) → watch s' = watch s → myreq s' = myreq s → tail s' = tail s → clh_sim free s' a.
Proof.
  intros Hs Hc Hcl Hr Hw Hm Ht.
  assert (∀ c, own s' c = own s c) as Ho.
  { intros c. unfold own. rewrite Hw, Hm. destruct (decide (c = cpu)) as [->|Hne]; [by rewrite (class_new _ Hcl), Hc|by rewrite (class_old _ _ Hcl)]. }
  destruct (sim_own_same free a Hs Ho) as [Hinj Hfree]. split; try done.
  - apply Hs.
  - intros c. rewrite (sim_line _ _ _ Hs). unfold queued.
    destruct (decide (c = cpu)) as [->|Hne]; [rewrite (class_new _ Hcl), Hc; naive_solver|by rewrite (class_old _ _ Hcl)].
  - intros c Hlt. rewrite <- (sim_taken _ _ _ Hs) by done.
    destruct (decide (c = cpu)) as [->|Hne]; [by rewrite (class_new _ Hcl), Hc|by rewrite (class_old _ _ Hcl)].
  - apply Hs.
  - rewrite Hr. unfold acquire_pending, set_request; simpl. rewrite fn_lookup_insert_ne; [apply Hs|].
    rewrite <- own_in_line by (by rewrite Hc). by apply (sim_free _ _ _ Hs).
  - intros c Hlt Hq. rewrite Hr, Hm. unfold acquire_pending, set_request; simpl.
    destruct (decide (myreq s cpu = myreq s c)) as [->|Hne]; [by rewrite fn_lookup_insert|]. rewrite fn_lookup_insert_ne by done.
    apply (sim_pending _ _ _ Hs c Hlt). rewrite (class_old _ _ Hcl) in Hq by (by intros ->). done.
  - rewrite Ht. eapply chain_same; [|apply (sim_chain _ _ _ Hs)]. intros c _. by rewrite Hw, Hm.
Qed.

Lemma sim_exchange free a : clh_sim free s a → class_at s cpu = c_marked → (∀ c, class_at s' c = <[cpu := c_waiting]> (class_at s) c) →
  request s' = request s → watch s' = watch (acquire_exchange cpu s) → myreq s' = myreq s → tail s' = myreq s cpu →
  fifo_step a (Fifo (line a ++ [cpu]) (taken a)) ∧ clh_sim free s' (Fifo (line a ++ [cpu]) (taken a)).
Proof.
  intros Hs Hc Hcl Hr Hw Hm Ht.
  assert (cpu ∉ line a) as Hnin. { rewrite (sim_line _ _ _ Hs), Hc. unfold queued. naive_solver. }
  assert (∀ c, c ≠ cpu → watch s' c = watch s c) as Hw'. { intros c Hne. rewrite Hw. simpl. by rewrite fn_lookup_insert_ne. }
  assert (watch s' cpu = tail s) as Hwc. { rewrite Hw. simpl. apply fn_lookup_insert. }
  assert (∀ c, own s' c = own s c) as Ho.
  { intros c. unfold own. rewrite Hm. destruct (decide (c = cpu)) as [->|Hne]; [by rewrite (class_new _ Hcl), Hc|by rewrite (class_old _ _ Hcl), Hw']. }
  split; [destruct a; by apply fifo_enqueue|].
  destruct (sim_own_same free a Hs Ho) as [Hinj Hfree]. split; try done; simpl.
  - apply NoDup_app. split_and!; [apply Hs| |apply NoDup_singleton]. by intros c Hin ->%list_elem_of_singleton.
  - intros c. rewrite elem_of_app, list_elem_of_singleton, (sim_line _ _ _ Hs). unfold queued.
    destruct (decide (c = cpu)) as [->|Hne]; [rewrite (class_new _ Hcl), Hc; naive_solver|rewrite (class_old _ _ Hcl) by done; naive_solver].
  - intros c Hlt. destruct (decide (c = cpu)) as [->|Hne].
    + rewrite (class_new _ Hcl). split; [done|]. intros [Htk Hhd]. exfalso.
      pose proof (sim_nonempty _ _ _ Hs Htk) as Hne. destruct (line a) as [|c0 q]; [done|].
      simplify_eq/=. apply Hnin, list_elem_of_here.
    + rewrite (class_old _ _ Hcl), (sim_taken _ _ _ Hs) by done. destruct (line a); [|done]. simpl. naive_solver.
  - by destruct (line a).
  - by rewrite Hr; apply Hs.
  - intros c Hlt Hq. rewrite Hr, Hm. apply (sim_pending _ _ _ Hs c Hlt).
    destruct (decide (c = cpu)) as [->|Hne]; [by right|by rewrite (class_old _ _ Hcl) in Hq].
  - rewrite Ht. rewrite <- Hm. apply (chain_snoc _ _ _ (tail s)); [|done]. eapply chain_same; [|apply (sim_chain _ _ _ Hs)].
    intros c Hin. rewrite Hm, Hw'; [done|]. by intros ->.
Qed.

Lemma sim_grant free a : clh_sim free s a → class_at s cpu = c_waiting → watch_granted cpu s = true →
  (∀ c, class_at s' c = <[cpu := c_holding]> (class_at s) c) →
  request s' = request s → watch s' = watch s → myreq s' = myreq s → tail s' = tail s →
  ∃ q, a = Fifo (cpu :: q) false ∧ clh_sim free s' (Fifo (cpu :: q) true).
Proof.
  intros Hs Hc Hg Hcl Hr Hw Hm Ht.
  assert (cpu ∈ line a) as Hin. { rewrite (sim_line _ _ _ Hs), Hc. split; [done|by left]. }
  unfold watch_granted in Hg. apply bool_decide_eq_true_1 in Hg.
  assert (head (line a) = Some cpu) as Hhd.
  { destruct (chain_watch _ _ _ _ _ (sim_chain _ _ _ Hs) Hin) as [[? _]|(c' & Hc' & Hw')]; [done|].
    rewrite (sim_line _ _ _ Hs) in Hc'. destruct Hc' as [Hlt Hq]. rewrite Hw', (sim_pending _ _ _ Hs c' Hlt) in Hg by auto. done. }
  assert (taken a = false) as Hnt.
  { destruct (taken a) eqn:Htk; [|done]. pose proof (proj2 (sim_taken _ _ _ Hs cpu Hcpu) (conj Htk Hhd)) as Hh. by rewrite Hc in Hh. }
  assert (∀ c, own s' c = own s c) as Ho.
  { intros c. unfold own. rewrite Hw, Hm. destruct (decide (c = cpu)) as [->|Hne]; [by rewrite (class_new _ Hcl), Hc|by rewrite (class_old _ _ Hcl)]. }
  destruct (sim_own_same free a Hs Ho) as [Hinj Hfree].
  destruct a as [[|c0 q] tk]; simplify_eq/=. exists q. split; [done|].
  split; try done; simpl.
  - apply (sim_nodup _ _ _ Hs).
  - intros c. rewrite (sim_line _ _ _ Hs c). unfold queued.
    destruct (decide (c = cpu)) as [->|Hne]; [rewrite (class_new _ Hcl), Hc; naive_solver|by rewrite (class_old _ _ Hcl)].
  - intros c Hlt. destruct (decide (c = cpu)) as [->|Hne]; [by rewrite (class_new _ Hcl)|]. rewrite (class_old _ _ Hcl) by done.
    rewrite (sim_taken _ _ _ Hs) by done. simpl. naive_solver.
  - rewrite Hr. apply Hs.
  - intros c Hlt Hq. rewrite Hr, Hm. apply (sim_pending _ _ _ Hs c Hlt).
    destruct (decide (c = cpu)) as [->|Hne]; [left; by left|by rewrite (class_old _ _ Hcl) in Hq].
  - rewrite Ht. apply (chain_same s _ _ (cpu :: q)); [intros c _; by rewrite Hw, Hm|apply (sim_chain _ _ _ Hs)].
Qed.

Lemma sim_release free a : clh_sim free s a → class_at s cpu = c_holding → (∀ c, class_at s' c = <[cpu := c_leaving]> (class_at s) c) →
  request s' = request (release_grant cpu s) → watch s' = watch s → myreq s' = myreq s → tail s' = tail s →
  ∃ q, a = Fifo (cpu :: q) true ∧ clh_sim (myreq s cpu) s' (Fifo q false).
Proof.
  intros Hs Hc Hcl Hr Hw Hm Ht. destruct (proj1 (sim_taken _ _ _ Hs cpu Hcpu) Hc) as [Htk Hhd].
  destruct a as [[|c0 q] tk]; simplify_eq/=. exists q. split; [done|].
  pose proof (sim_nodup _ _ _ Hs) as [Hnin Hnd]%NoDup_cons. pose proof (sim_chain _ _ _ Hs) as [Hwf Hch].
  assert (own s cpu = myreq s cpu) as Hoc by (apply own_in_line; by rewrite Hc).
  assert (∀ c, c ≠ cpu → own s' c = own s c) as Ho. { intros c Hne. unfold own. by rewrite Hw, Hm, (class_old _ _ Hcl). }
  assert (own s' cpu = free) as Hoc'. { unfold own. by rewrite Hw, (class_new _ Hcl). }
  split; simpl; try done.
  - intros c. pose proof (sim_line _ _ _ Hs c) as Hl. simpl in Hl. rewrite elem_of_cons in Hl. unfold queued in *.
    destruct (decide (c = cpu)) as [->|Hne]; [rewrite (class_new _ Hcl); naive_solver|rewrite (class_old _ _ Hcl) by done; naive_solver].
  - intros c Hlt. destruct (decide (c = cpu)) as [->|Hne]; [by rewrite (class_new _ Hcl); naive_solver|].
    rewrite (class_old _ _ Hcl), (sim_taken _ _ _ Hs c) by done. simpl. naive_solver.
  - intros c c' Hlt Hlt'. destruct (decide (c = cpu)) as [->|Hne], (decide (c' = cpu)) as [->|Hne']; rewrite ?Hoc', ?Ho by done.
    + done.
    + intros He. by destruct (sim_free _ _ _ Hs c' Hlt').
    + intros He. by destruct (sim_free _ _ _ Hs c Hlt).
    + by apply (sim_own _ _ _ Hs).
  - intros c Hlt. destruct (decide (c = cpu)) as [->|Hne].
    + rewrite Hoc', <- Hoc. intros He. by apply (sim_free _ _ _ Hs cpu Hcpu).
    + rewrite Ho by done. rewrite <- Hoc. intros He. by apply Hne, (sim_own _ _ _ Hs).
  - rewrite Hr. apply fn_lookup_insert.
  - intros c Hlt Hq. destruct (decide (c = cpu)) as [->|Hne]; [rewrite (class_new _ Hcl) in Hq; unfold queued in Hq; naive_solver|].
    rewrite (class_old _ _ Hcl) in Hq by done. rewrite Hr, Hm. simpl.
    rewrite fn_lookup_insert_ne; [by apply (sim_pending _ _ _ Hs)|]. intros He. apply Hne. symmetry. apply (sim_own _ _ _ Hs); try done.
    rewrite Hoc, own_in_line; [done|]. unfold queued in Hq. intros Hx. rewrite Hx in Hq. naive_solver.
  - rewrite Ht. eapply chain_same; [|exact Hch]. intros c _. by rewrite Hw, Hm.
Qed.

Lemma sim_take free a : clh_sim free s a → class_at s cpu = c_leaving → (∀ c, class_at s' c = <[cpu := c_outside]> (class_at s) c) →
  request s' = request s → watch s' = watch s → myreq s' = myreq (release_take cpu s) → tail s' = tail s → clh_sim free s' a.
Proof.
  intros Hs Hc Hcl Hr Hw Hm Ht.
  assert (∀ c, c ≠ cpu → myreq s' c = myreq s c) as Hm'. { intros c Hne. rewrite Hm. simpl. by rewrite fn_lookup_insert_ne. }
  assert (∀ c, own s' c = own s c) as Ho.
  { intros c. unfold own. rewrite Hw. destruct (decide (c = cpu)) as [->|Hne].
    - rewrite (class_new _ Hcl), Hc, Hm. simpl. apply fn_lookup_insert.
    - by rewrite (class_old _ _ Hcl), Hm'. }
  destruct (sim_own_same free a Hs Ho) as [Hinj Hfree]. split; try done.
  - apply Hs.
  - intros c. rewrite (sim_line _ _ _ Hs). unfold queued.
    destruct (decide (c = cpu)) as [->|Hne]; [rewrite (class_new _ Hcl), Hc; naive_solver|by rewrite (class_old _ _ Hcl)].
  - intros c Hlt. rewrite <- (sim_taken _ _ _ Hs) by done.
    destruct (decide (c = cpu)) as [->|Hne]; [by rewrite (class_new _ Hcl), Hc|by rewrite (class_old _ _ Hcl)].
  - apply Hs.
  - rewrite Hr. apply Hs.
  - intros c Hlt Hq. destruct (decide (c = cpu)) as [->|Hne]; [rewrite (class_new _ Hcl) in Hq; unfold queued in Hq; naive_solver|].
    rewrite (class_old _ _ Hcl) in Hq by done. rewrite Hr, Hm' by done. by apply (sim_pending _ _ _ Hs).
  - rewrite Ht. eapply chain_same; [|apply (sim_chain _ _ _ Hs)]. intros c Hin. rewrite Hw, Hm'; [done|].
    intros ->. rewrite (sim_line _ _ _ Hs), Hc in Hin. unfold queued in Hin. naive_solver.
Qed.

Lemma sim_none free a : clh_sim free s a → (∀ c, class_at s' c = class_at s c) →
  request s' = request s → watch s' = watch s → myreq s' = myreq s → tail s' = tail s → clh_sim free s' a.
Proof.
  intros Hs Hcl Hr Hw Hm Ht. assert (∀ c, own s' c = own s c) as Ho by (intros c; unfold own; by rewrite Hw, Hm, Hcl).
  destruct (sim_own_same free a Hs Ho) as [Hinj Hfree]. split; try done.
  - apply Hs.
  - intros c. rewrite Hcl. apply Hs.
  - intros c. rewrite Hcl. apply Hs.
  - apply Hs.
  - rewrite Hr. apply Hs.
  - intros c. rewrite Hr, Hm, Hcl. apply Hs.
  - rewrite Ht. eapply chain_same; [|apply (sim_chain _ _ _ Hs)]. intros c _. by rewrite Hw, Hm.
Qed.
End step.

Lemma clh_sim_step free s s' a : clh_sim free s a → smp_step s s' → ∃ free' a', (a' = a ∨ fifo_step a a') ∧ clh_sim free' s' a'.
Proof.
  intros Hs (cpu & Hcpu & Hst%core_step_lock).
  destruct Hst.
  - exists free, a. split; [by left|]. by eapply sim_mark.
  - exists free, (Fifo (line a ++ [cpu]) (taken a)). edestruct (sim_exchange cpu s s' Hcpu free a) as [Hf Hs']; try done. split; [by right|done].
  - edestruct (sim_grant cpu s s' Hcpu free a) as (q & -> & ?); try done. exists free, (Fifo (cpu :: q) true). split; [right; constructor|done].
  - edestruct (sim_release cpu s s' Hcpu free a) as (q & -> & ?); try done. exists (myreq s cpu), (Fifo q false). split; [right; constructor|done].
  - exists free, a. split; [by left|]. by eapply sim_take.
  - exists free, a. split; [by left|]. by eapply sim_none.
Qed.
Lemma clh_sim_init : clh_sim CONFIG_MAX_NUM_NODES clh_lock_init (Fifo [] false).
Proof.
  split; simpl; try done.
  - apply NoDup_nil_2.
  - intros c. rewrite elem_of_nil. unfold queued, class_at. simpl. naive_solver.
  - intros c _. unfold class_at. simpl. naive_solver.
  - intros c Hc. unfold own, class_at. simpl. lia.
  - intros c Hc. unfold queued, class_at. simpl. naive_solver.
Qed.
Lemma clh_sim_reachable s : smp_reachable s → ∃ free a, rtc fifo_step (Fifo [] false) a ∧ clh_sim free s a.
Proof.
  revert s. apply (rtc_ind_r (R := smp_step) (λ s, ∃ free a, rtc fifo_step (Fifo [] false) a ∧ clh_sim free s a)).
  - exists CONFIG_MAX_NUM_NODES, (Fifo [] false). split; [done|apply clh_sim_init].
  - intros s s' _ Hst (free & a & Ha & Hs). destruct (clh_sim_step _ _ _ _ Hs Hst) as (free' & a' & Hrc & Hs').
    exists free', a'. split; [|done]. destruct Hrc as [->|?]; [done|]. by eapply rtc_r.
Qed.

(** ** The order of a run

    A run of the cores, with the cores in the order in which they exchanged the tail, and in
    the order in which they got the lock. *)
Definition exchanged (cpu : nat) (s : smp) : list nat :=
  match core_at s cpu with l_exchange => [cpu] | _ => [] end.
Definition acquired (cpu : nat) (s s' : smp) : list nat :=
  match core_at s cpu, core_at s' cpu with l_spin, l_held => [cpu] | _, _ => [] end.
Inductive lock_run : list nat → list nat → smp → Prop :=
  | lock_run_init : lock_run [] [] clh_lock_init
  | lock_run_step ex ac s s' cpu : lock_run ex ac s → (cpu < CONFIG_MAX_NUM_NODES)%nat → core_step cpu s s' →
      lock_run (ex ++ exchanged cpu s) (ac ++ acquired cpu s s') s'.

Lemma lock_run_reachable ex ac s : lock_run ex ac s → smp_reachable s.
Proof. induction 1 as [|ex ac s s' cpu _ IH Hcpu Hs]; [apply rtc_refl|]. eapply rtc_r; [exact IH|]. by exists cpu. Qed.
Lemma reachable_lock_run s : smp_reachable s → ∃ ex ac, lock_run ex ac s.
Proof.
  revert s. apply (rtc_ind_r (R := smp_step) (λ s, ∃ ex ac, lock_run ex ac s)); [by eexists _, _; constructor|].
  intros s s' _ (cpu & Hcpu & Hs) (ex & ac & Hl). eexists _, _. by econstructor.
Qed.
Lemma exchanged_nil cpu s : class_at s cpu ≠ c_marked → exchanged cpu s = [].
Proof. unfold class_at, exchanged. by destruct (core_at s cpu). Qed.
Lemma acquired_nil cpu s s' : class_at s cpu ≠ c_waiting ∨ class_at s' cpu ≠ c_holding → acquired cpu s s' = [].
Proof. unfold class_at, acquired. destruct (core_at s cpu), (core_at s' cpu); simpl; naive_solver. Qed.
Lemma core_step_exchange cpu s s' : core_step cpu s s' → core_at s cpu = l_exchange → class_at s' cpu = c_waiting.
Proof. intros Hs Hat. destruct Hs; try congruence. rewrite class_goto. apply fn_lookup_insert. Qed.
Lemma core_step_acquire cpu s s' : core_step cpu s s' → class_at s cpu = c_waiting → class_at s' cpu = c_holding →
  acquired cpu s s' = [cpu].
Proof.
  unfold class_at, acquired. intros Hs Hw Hh. destruct Hs; rewrite ?goto_here in *;
    match goal with H : core_at _ cpu = _ |- _ => rewrite H in Hw |- * end; try done.
  - by destruct (watch_granted cpu s).
  - by destruct (clh_is_ipi_pending cpu s).
  - by destruct from.
  - by destruct (clh_is_ipi_pending cpu s), from.
  - by destruct from.
  - by destruct from.
  - by destruct from.
  - by destruct (fst (ipi_wait_step b s)), from.
Qed.

(** The orders of a run: the cores that exchange the tail, and those that get the lock. *)
Fixpoint lock_log (l : list (nat * core_choice)) (ex ac : list nat) (s : smp) : option (list nat * list nat * smp) :=
  match l with
  | [] => Some (ex, ac, s)
  | (cpu, ch) :: l' => if (cpu <? CONFIG_MAX_NUM_NODES)%nat
    then core_next cpu ch s ≫= λ t, lock_log l' (ex ++ exchanged cpu s) (ac ++ acquired cpu s t) t else None
  end.
Lemma lock_log_run l ex ac s ex' ac' s' : lock_run ex ac s → lock_log l ex ac s = Some (ex', ac', s') → lock_run ex' ac' s'.
Proof.
  revert ex ac s. induction l as [|[cpu ch] l IH]; intros ex ac s Hs Hl; simpl in Hl; [by simplify_eq|].
  destruct (Nat.ltb_spec cpu CONFIG_MAX_NUM_NODES) as [Hlt|]; [|done]. apply bind_Some in Hl as (t & Hn & Hl).
  eapply IH; [|done]. apply lock_run_step; [done..|]. by eapply core_next_sound.
Qed.

(** The line is what the run says: the core that got the lock last, as long as it holds the
    lock, and then the cores that have exchanged the tail since, in that order. *)
Definition lock_hist (ex ac : list nat) (s : smp) (w : list nat) : Prop :=
  ∃ free a, clh_sim free s a ∧ ex = ac ++ w ∧ if taken a then ∃ c, last ac = Some c ∧ line a = c :: w else line a = w.
Lemma lock_hist_step ex ac s s' w cpu : lock_hist ex ac s w → (cpu < CONFIG_MAX_NUM_NODES)%nat → core_step cpu s s' →
  ∃ w', lock_hist (ex ++ exchanged cpu s) (ac ++ acquired cpu s s') s' w'.
Proof.
  intros (free & a & Hs & -> & Hl) Hcpu Hst.
  assert (∀ free', clh_sim free' s' a → exchanged cpu s = [] → acquired cpu s s' = [] →
    ∃ w', lock_hist ((ac ++ w) ++ exchanged cpu s) (ac ++ acquired cpu s s') s' w') as Hsame.
  { intros free' Hs' -> ->. exists w, free', a. by rewrite !app_nil_r. }
  destruct (core_step_lock _ _ _ Hst) as [Hc Hcl|Hc Hcl|Hc Hg Hcl|Hc Hcl|Hc Hcl|Hcl].
  - apply (Hsame free); [by eapply sim_mark|by apply exchanged_nil; rewrite Hc|by apply acquired_nil; left; rewrite Hc].
  - edestruct (sim_exchange cpu s s' Hcpu free a) as [_ Hs']; try done.
    assert (exchanged cpu s = [cpu]) as -> by (unfold class_at, exchanged in *; destruct (core_at s cpu) as [| | | | | |[]|[]|[]|[]|[]|[]| | |]; done).
    rewrite acquired_nil, app_nil_r, <- app_assoc by (left; by rewrite Hc). exists (w ++ [cpu]), free, (Fifo (line a ++ [cpu]) (taken a)).
    split_and!; [done..|]. simpl. destruct (taken a); [|by rewrite Hl]. destruct Hl as (c & Hc' & ->). by exists c.
  - edestruct (sim_grant cpu s s' Hcpu free a) as (q & -> & Hs'); try done. simpl in Hl. subst w.
    rewrite exchanged_nil, app_nil_r, (core_step_acquire _ _ _ Hst Hc) by (by rewrite ?Hc, ?Hcl, ?fn_lookup_insert).
    exists q, free, (Fifo (cpu :: q) true). rewrite <- app_assoc. split_and!; [done..|]. exists cpu. by rewrite last_snoc.
  - edestruct (sim_release cpu s s' Hcpu free a) as (q & -> & Hs'); try done. destruct Hl as (c & _ & [= _ ->]).
    rewrite exchanged_nil, acquired_nil, !app_nil_r by (rewrite ?Hc; auto). by eexists _, _, _.
  - apply (Hsame free); [by eapply sim_take|by apply exchanged_nil; rewrite Hc|by apply acquired_nil; left; rewrite Hc].
  - apply (Hsame free); [by eapply sim_none| |].
    + apply exchanged_nil. intros Hm. assert (core_at s cpu = l_exchange) as Hat
        by (unfold class_at in Hm; destruct (core_at s cpu) as [| | | | | |[]|[]|[]|[]|[]|[]| | |]; done).
      apply (core_step_exchange _ _ _ Hst) in Hat. by rewrite Hcl, Hm in Hat.
    + apply acquired_nil. rewrite Hcl. destruct (class_at s cpu); (by left) || by right.
Qed.
Lemma lock_run_hist ex ac s : lock_run ex ac s → ∃ w, lock_hist ex ac s w.
Proof.
  induction 1 as [|ex ac s s' cpu _ [w IH] Hcpu Hs]; [|by eapply lock_hist_step].
  exists [], CONFIG_MAX_NUM_NODES, (Fifo [] false). split; [apply clh_sim_init|done].
Qed.

(** C8: The big kernel lock is a FIFO lock. However the cores take turns, the cores that have
    got the lock are, in order, the first of those that have exchanged the tail: a core is
    never passed by one that came to the line after it. The rest of that list is just the
    cores that wait, once each; only the core that got the lock last can hold it, so never
    two; and while no core holds the lock, the next one in line finds its request granted,
    so that a lock that was passed on is not lost. *)
Theorem clh_lock_fifo ex ac s : lock_run ex ac s → ∃ waiting, ex = ac ++ waiting ∧ NoDup waiting ∧
    (∀ cpu, cpu ∈ waiting ↔ (cpu < CONFIG_MAX_NUM_NODES)%nat ∧ class_at s cpu = c_waiting) ∧
    (∀ cpu, (cpu < CONFIG_MAX_NUM_NODES)%nat → class_at s cpu = c_holding → last ac = Some cpu) ∧
    (∀ cpu, (∀ c, (c < CONFIG_MAX_NUM_NODES)%nat → class_at s c ≠ c_holding) → head waiting = Some cpu →
      watch_granted cpu s = true).
Proof.
  intros (w & free & a & Hs & -> & Hl)%lock_run_hist. exists w. pose proof (sim_nodup _ _ _ Hs) as Hnd.
  pose proof (sim_line _ _ _ Hs) as Hin. pose proof (sim_taken _ _ _ Hs) as Htk. pose proof (sim_chain _ _ _ Hs) as Hch.
  split; [done|]. unfold queued in Hin. destruct (taken a).
  - destruct Hl as (c0 & Hlast & Hl). rewrite Hl in *. apply NoDup_cons in Hnd as [Hnin Hnd]. split; [done|].
    assert ((c0 < CONFIG_MAX_NUM_NODES)%nat) as Hc0 by (by apply Hin, list_elem_of_here).
    assert (class_at s c0 = c_holding) as Hh by (by apply Htk). split_and!.
    + intros cpu. specialize (Hin cpu). rewrite elem_of_cons in Hin. split.
      * intros Hw. destruct (proj1 Hin (or_intror Hw)) as [Hlt [?|Hh']]; [done|]. apply (Htk _ Hlt) in Hh' as [_ [= ->]]. done.
      * intros [Hlt Hw]. destruct (proj2 Hin (conj Hlt (or_introl Hw))) as [->|?]; [congruence|done].
    + intros cpu Hlt [_ [= ->]]%Htk; done.
    + intros cpu Hno. by destruct (Hno c0 Hc0).
  - rewrite Hl in *. assert (∀ c, (c < CONFIG_MAX_NUM_NODES)%nat → class_at s c ≠ c_holding) as Hno by (intros c Hlt [? _]%Htk; done).
    split; [done|]. split_and!.
    + intros cpu. rewrite Hin. split; [|naive_solver]. intros [Hlt [?|Hh]]; [done|]. by destruct (Hno cpu Hlt).
    + intros cpu Hlt Hh. by destruct (Hno cpu Hlt).
    + intros cpu _ Hh. destruct w as [|c q]; [done|]. simplify_eq/=. destruct Hch as [Hw _].
      unfold watch_granted. rewrite Hw, (sim_granted _ _ _ Hs). done.
Qed.
End lock.
