(* ===== verification/SmpIpi.v ===== *)
(** * Masks of cores, and steps as remote calls see them

    Which cores a mask stands for, how many they are, and the steps of [Smp.v] sorted by what
    they mean for a remote call: what [SmpBarrier.v] is built on. *)
From stdpp Require Import functions relations.
From S2P Require Import Prelude Words Smp SmpLock.

(** ** Masks of cores *)
Definition mask_cores (mask : Z) : list nat := filter (λ i, Z.testbit mask (Z.of_nat i) = true) (seq 0 64).

Lemma elem_of_mask_cores mask i : i ∈ mask_cores mask ↔ (i < 64)%nat ∧ Z.testbit mask (Z.of_nat i) = true.
Proof. unfold mask_cores. rewrite list_elem_of_filter, elem_of_seq. naive_solver lia. Qed.
Lemma NoDup_mask_cores mask : NoDup (mask_cores mask).
Proof. apply NoDup_filter, NoDup_seq. Qed.
Lemma mask_cores_0 : mask_cores 0 = [].
Proof. by vm_compute. Qed.
Lemma mask_index_spec mask : is_word mask → mask ≠ 0 → mask_index mask ∈ mask_cores mask.
Proof.
  intros Hm Hne. unfold is_word in Hm. rewrite elem_of_mask_cores. unfold mask_index, clzl, wordBits.
  rewrite clz64_log2 by lia. assert (0 ≤ Z.log2 mask < 64) as Hl. { split; [apply Z.log2_nonneg|apply Z.log2_lt_pow2; lia]. }
  replace (64 - 1 - (63 - Z.log2 mask)) with (Z.log2 mask) by lia. rewrite Z2Nat.id by lia. split; [lia|]. apply Z.bit_log2. lia.
Qed.
Lemma mask_without_spec cpu mask i : (cpu < 64)%nat → is_word mask →
  i ∈ mask_cores (mask_without cpu mask) ↔ i ∈ mask_cores mask ∧ i ≠ cpu.
Proof.
  intros Hc Hm. rewrite !elem_of_mask_cores. unfold mask_without. rewrite Z.land_spec.
  destruct (decide (i < 64)%nat) as [Hi|]; [|naive_solver].
  rewrite wnot_spec, testbit_BIT by (lia || apply BIT_word). rewrite (proj2 (Z.ltb_lt _ _)) by lia. simpl.
  destruct (Z.eqb_spec (Z.of_nat cpu) (Z.of_nat i)); simpl; rewrite ?andb_false_r, ?andb_true_r; naive_solver lia.
Qed.

Lemma mask_without_word cpu mask : is_word mask → is_word (mask_without cpu mask).
Proof. apply land_word. Qed.

(** Clearing the lowest set bit. *)
Lemma land_pred_spec m : 0 < m < 2 ^ 64 → ∃ k, (k < 64)%nat ∧ k ∈ mask_cores m ∧
  ∀ i, i ∈ mask_cores (Z.land m (m - 1)) ↔ i ∈ mask_cores m ∧ i ≠ k.
Proof.
  intros Hm. destruct (ctz64_lowest m Hm) as [Hmod Hbit]. set (k := ctz64 m) in *.
  assert (0 ≤ k) as H0. { destruct (Z.lt_ge_cases k 0) as [Hlt|]; [|done]. by rewrite Z.testbit_neg_r in Hbit. }
  assert (k < 64) as H64.
  { destruct (Z.lt_ge_cases k 64) as [|Hge]; [done|]. rewrite Z.bits_above_log2 in Hbit; [done|lia|]. apply Z.log2_lt_pow2; [lia|].
    assert (2 ^ 64 ≤ 2 ^ k) by (apply Z.pow_le_mono_r; lia). lia. }
  apply Z.mod_divide in Hmod as [q Hq]; [|lia].
  assert (Z.odd q = true) as Hodd. { rewrite Hq, Z.mul_pow2_bits, Z.sub_diag in Hbit by lia. by rewrite Z.bit0_odd in Hbit. }
  apply Z.odd_spec in Hodd as [r Hr].
  assert (∀ i, k ≤ i → Z.testbit (m - 1) i = Z.testbit (2 * r) (i - k)) as Hpred.
  { intros i Hi. replace i with (i - k + k) at 1 by lia. rewrite <- Z.div_pow2_bits by lia. f_equal.
    replace (m - 1) with ((2 * r) * 2 ^ k + (2 ^ k - 1)) by (rewrite Hq, Hr; ring).
    rewrite Z.div_add_l by lia. rewrite Z.div_small; lia. }
  exists (Z.to_nat k). split; [lia|]. split; [rewrite elem_of_mask_cores, Z2Nat.id by lia; split; [lia|done]|].
  intros i. rewrite !elem_of_mask_cores, Z.land_spec.
  destruct (decide (Z.of_nat i < k)) as [Hlt|Hge].
  - assert (Z.testbit m (Z.of_nat i) = false) as ->. { rewrite Hq. apply Z.mul_pow2_bits_low. lia. } simpl. naive_solver.
  - rewrite Hpred by lia. assert (Z.testbit m (Z.of_nat i) = Z.testbit (2 * r + 1) (Z.of_nat i - k)) as ->.
    { rewrite Hq, Hr, Z.mul_pow2_bits by lia. done. }
    destruct (decide (Z.of_nat i = k)) as [He|Hne].
    + rewrite He, Z.sub_diag, Z.testbit_even_0, andb_false_r. split; [naive_solver|]. intros [_ Hne]. lia.
    + replace (Z.of_nat i - k) with (Z.succ (Z.of_nat i - k - 1)) by lia.
      rewrite Z.testbit_odd_succ, Z.testbit_even_succ, andb_diag by lia. split; [|naive_solver]. intros [? ?]. split; [done|lia].
Qed.
Lemma popcount_loop_spec n m : is_word m → (length (mask_cores m) ≤ n)%nat → popcount_loop n m = Z.of_nat (length (mask_cores m)).
Proof.
  revert m. induction n as [|n IH]; intros m Hm Hn; [simpl; lia|]. simpl. destruct (Z.eqb_spec m 0) as [->|Hne]; [by rewrite mask_cores_0|].
  destruct (land_pred_spec m) as (k & _ & Hk & Hc); [unfold is_word in Hm; lia|].
  assert (mask_cores m ≡ₚ k :: mask_cores (Z.land m (m - 1))) as Hp.
  { apply NoDup_Permutation; [apply NoDup_mask_cores| |].
    - apply NoDup_cons. split; [rewrite Hc; naive_solver|apply NoDup_mask_cores].
    - intros i. rewrite elem_of_cons, Hc. destruct (decide (i = k)); naive_solver. }
  apply Permutation_length in Hp. simpl in Hp. rewrite IH; [lia|by apply land_word|lia].
Qed.
Lemma popcountl_spec m : is_word m → popcountl m = Z.of_nat (length (mask_cores m)).
Proof.
  intros Hm. apply popcount_loop_spec; [done|]. unfold mask_cores. etransitivity; [apply length_filter|]. by rewrite length_seq.
Qed.

(** ** A step as the remote calls see it *)
(** A place where a core is not busy with a remote call. From an interrupt, it is not busy
    before it has found the call pending. *)
Definition free_loc (l : core_loc) : Prop :=
  match l with
  | l_op _ _ | l_args in_acquire | l_check in_acquire _ _ | l_call _ _ _ | l_clear _ | l_irq _ | l_wait _ _ => False
  | _ => True
  end.
(** The same, or the core still waits for the end of the barrier of an earlier call. *)
Definition idle_loc (l : core_loc) : Prop := free_loc l ∨ ∃ from localsense, l = l_wait from (b_loop localsense).
Definition same_ipi (s s' : smp) : Prop := node_ipi s' = node_ipi s ∧ ipi s' = ipi s ∧ ran s' = ran s.
Inductive other_step (cpu : nat) (s s' : smp) : Prop :=
  | os_idle : free_loc (core_at s cpu) → free_loc (core_at s' cpu) → same_ipi s s' → other_step cpu s s'
  | os_poll : free_loc (core_at s cpu) → node_ipi s cpu = true → core_at s' cpu = l_args in_acquire → same_ipi s s' →
      other_step cpu s s'
  | os_args : core_at s cpu = l_args in_acquire → core_at s' cpu = l_check in_acquire (remoteCall (ipi s)) (ipi_args (ipi s)) →
      same_ipi s s' → other_step cpu s s'
  | os_check call args : core_at s cpu = l_check in_acquire call args →
      core_at s' cpu = (if node_ipi s cpu then l_call in_acquire call args else l_spin) → same_ipi s s' → other_step cpu s s'
  | os_enter call args : free_loc (core_at s cpu) → node_ipi s cpu = true → core_at s' cpu = l_call in_interrupt call args →
      same_ipi s s' → other_step cpu s s'
  | os_call from call args : core_at s cpu = l_call from call args → core_at s' cpu = l_clear from → node_ipi s' = node_ipi s →
      ipi s' = ipi s → ran s' = RemoteRun cpu from call args :: ran s → other_step cpu s s'
  | os_clear from : core_at s cpu = l_clear from → core_at s' cpu = l_irq from → node_ipi s' = <[cpu := false]> (node_ipi s) →
      ipi s' = ipi s → ran s' = ran s → other_step cpu s s'
  | os_irq from : core_at s cpu = l_irq from → core_at s' cpu = l_wait from b_cores → same_ipi s s' → other_step cpu s s'
  | os_wait from b : core_at s cpu = l_wait from b →
      core_at s' cpu = match fst (ipi_wait_step b s) with Some b' => l_wait from b' | None => handled from end →
      node_ipi s' = node_ipi s → ipi s' = ipi (snd (ipi_wait_step b s)) → ran s' = ran s → other_step cpu s s'.

Lemma goto_there cpu l s c : c ≠ cpu → core_at (goto cpu l s) c = core_at s c.
Proof. intros Hc. apply fn_lookup_insert_ne. done. Qed.
Lemma ipi_wait_step_frame b s : core_at (snd (ipi_wait_step b s)) = core_at s ∧ node_ipi (snd (ipi_wait_step b s)) = node_ipi s ∧
  ran (snd (ipi_wait_step b s)) = ran s.
Proof. by destruct b. Qed.

Section ipi.
Context `{SmpPlatform}.

Lemma core_step_frame cpu s s' c : core_step cpu s s' → c ≠ cpu → core_at s' c = core_at s c.
Proof.
  intros Hs Hc. destruct Hs; rewrite ?goto_there by done; try done.
  - by rewrite (proj1 (ipi_wait_step_frame b s)).
  - by rewrite (proj1 (ipi_wait_step_frame b s)).
Qed.
(** The beginning of a remote call. *)
Definition begins (cpu : nat) (s s' : smp) : Prop := ∃ func args mask, core_at s cpu = l_held ∧
  0 ≤ mask < 2 ^ Z.of_nat CONFIG_MAX_NUM_NODES ∧ same_ipi s s' ∧
  core_at s' cpu = l_op (RemoteOp func args (mask_without cpu mask) (ran s)) o_args.
Lemma core_step_view cpu s s' : core_step cpu s s' →
  other_step cpu s s' ∨ begins cpu s s' ∨ ∃ o p, core_at s cpu = l_op o p.
Proof.
  intros Hs. destruct Hs as [Hat|Hat|Hat|Hat|Hat|Hat|Hat _|Hat|Hat|from Hat|from f ar Hat|from f ar Hat|from Hat|from Hat|from b Hat
    |func args mask Hat Hm|o Hat|o Hat|o mask tcs Hat _|o tcs Hat|o t tcs Hat|o Hat|o b Hat|mask Hat _|mask Hat _|Hat];
    try (right; right; by eexists _, _).
  - left. apply os_idle; rewrite ?goto_here, ?Hat; done.
  - left. apply os_idle; rewrite ?goto_here, ?Hat; done.
  - left. apply os_idle; rewrite ?goto_here, ?Hat; [done| |done]. by destruct (watch_granted _ _).
  - left. destruct (clh_is_ipi_pending cpu s) eqn:Hp.
    + apply os_poll; rewrite ?goto_here, ?Hat; done.
    + apply os_idle; rewrite ?goto_here, ?Hat; done.
  - left. apply os_idle; rewrite ?goto_here, ?Hat; done.
  - left. apply os_idle; rewrite ?goto_here, ?Hat; done.
  - left. apply os_idle; rewrite ?goto_here, ?Hat; done.
  - left. apply os_idle; rewrite ?goto_here, ?Hat; done.
  - left. apply os_idle; simpl; rewrite ?Hat; done.
  - left. destruct from; [by apply os_args; rewrite ?goto_here, ?Hat|by apply os_idle; rewrite ?goto_here, ?Hat].
  - left. destruct from; [by apply (os_check _ _ _ f ar); rewrite ?goto_here, ?Hat|]. destruct (clh_is_ipi_pending cpu s) eqn:Hp.
    + apply (os_enter _ _ _ f ar); rewrite ?goto_here, ?Hat; done.
    + apply os_idle; rewrite ?goto_here, ?Hat; done.
  - left. apply (os_call _ _ _ from f ar); rewrite ?goto_here; done.
  - left. apply (os_clear _ _ _ from); rewrite ?goto_here; done.
  - left. apply (os_irq _ _ _ from); rewrite ?goto_here; done.
  - left. destruct (ipi_wait_step_frame b s) as (? & ? & ?). apply (os_wait _ _ _ from b); rewrite ?goto_here; done.
  - destruct (mask_without cpu mask =? 0).
    + left. apply os_idle; rewrite ?goto_here, ?Hat; done.
    + right; left. exists func, args, mask. rewrite goto_here. done.
  - left. apply os_idle; rewrite ?goto_here, ?Hat; done.
  - left. apply os_idle; rewrite ?goto_here, ?Hat; done.
  - left. apply os_idle; rewrite ?goto_here, ?Hat; done.
Qed.
End ipi.
