(* ===== verification/SmpBarrier.v ===== *)
(** * The barrier of a remote call

    One invariant ties the cores that handle a remote call, the core that makes it and the
    shared barrier together, from the first access of [init_ipi_args] to the return from
    [ipi_wait]; it follows that each core of the mask has handled the call, once, and nobody
    else has, and that what they ran is that call if no interrupt of an earlier one was left
    over. *)
From stdpp Require Import functions relations.
From S2P Require Import Prelude Words Smp SmpLock SmpIpi.

(** How far a core of the mask is; the calling core is [st_entering] from the start. *)
Inductive stage := st_idle | st_flagged | st_ran | st_entering | st_arrived.
#[global] Instance stage_eq_dec : EqDecision stage.
Proof. solve_decision. Defined.
Definition has_run (x : stage) : bool := match x with st_idle | st_flagged => false | _ => true end.
(** How far the barrier is: cores arrive; the last one, [k], resets the count and flips the sense. *)
Inductive gate := g_gather | g_reset (k : nat) | g_flip (k : nat) | g_done.

Lemma filter_stage_same (P : stage → bool) (st st' : nat → stage) (T : list nat) :
  (∀ c, c ∈ T → P (st' c) = P (st c)) → filter (λ c, P (st' c) = true) T = filter (λ c, P (st c) = true) T.
Proof.
  induction T as [|c T IH]; intros Hp; [done|]. rewrite !filter_cons, IH by (intros; apply Hp; by apply list_elem_of_further).
  by rewrite (Hp c) by apply list_elem_of_here.
Qed.
Lemma filter_stage_none (P : stage → bool) (st : nat → stage) (T : list nat) :
  (∀ c, c ∈ T → P (st c) = false) → filter (λ c, P (st c) = true) T = [].
Proof.
  induction T as [|c T IH]; intros Hp; [done|]. rewrite filter_cons_False by (rewrite Hp by apply list_elem_of_here; done).
  apply IH. intros c' Hc'. apply Hp. by apply list_elem_of_further.
Qed.
Lemma filter_stage_all (P : stage → bool) (st : nat → stage) (T : list nat) :
  (∀ c, c ∈ T → P (st c) = true) → filter (λ c, P (st c) = true) T = T.
Proof.
  induction T as [|c T IH]; intros Hp; [done|]. rewrite filter_cons_True by (apply Hp; by apply list_elem_of_here).
  f_equal. apply IH. intros c' Hc'. apply Hp. by apply list_elem_of_further.
Qed.
Lemma filter_stage_one (P : stage → bool) (st st' : nat → stage) (T : list nat) k : NoDup T → k ∈ T →
  P (st k) = false → P (st' k) = true → (∀ c, c ∈ T → c ≠ k → st' c = st c) →
  filter (λ c, P (st' c) = true) T ≡ₚ k :: filter (λ c, P (st c) = true) T.
Proof.
  intros Hnd Hk H0 H1 Hst. apply NoDup_Permutation; [by apply NoDup_filter| |].
  - apply NoDup_cons. split; [rewrite list_elem_of_filter; naive_solver congruence|by apply NoDup_filter].
  - intros c. rewrite elem_of_cons, !list_elem_of_filter. destruct (decide (c = k)) as [->|Hne]; [naive_solver|].
    split; [intros [Hp Hc]|intros [?|[Hp Hc]]; [done|]]; [right|]; split; try done; [by rewrite <- Hst|by rewrite Hst].
Qed.

Section barrier.
Context (A : nat) (mask sense0 : Z) (Hnd : NoDup (A :: mask_cores mask)).

Definition total : Z := Z.of_nat (length (mask_cores mask)).
Definition is_arrived (x : stage) : bool := bool_decide (x = st_arrived).
Definition arrivals (st : nat → stage) : Z :=
  Z.of_nat (length (filter (λ c, is_arrived (st c) = true) (A :: mask_cores mask))).
Definition all_arrived (st : nat → stage) : Prop := ∀ c, c ∈ A :: mask_cores mask → st c = st_arrived.
Definition gate_ok (i : ipi_state) (st : nat → stage) (g : gate) : Prop :=
  match g with
  | g_gather => globalsense i = sense0 ∧ count i = arrivals st ∧ arrivals st ≤ total
  | g_reset k => all_arrived st ∧ globalsense i = sense0
  | g_flip k => all_arrived st ∧ globalsense i = sense0 ∧ count i = 0
  | g_done => all_arrived st ∧ count i = 0
  end.
Definition arrived_at (g : gate) (c : nat) (b : barrier_loc) : Prop :=
  match g with
  | g_reset k => b = if decide (c = k) then b_reset sense0 else b_loop sense0
  | g_flip k => b = if decide (c = k) then b_flip sense0 else b_loop sense0
  | g_gather | g_done => b = b_loop sense0
  end.
Definition part_at (g : gate) (c : nat) (x : stage) (b : barrier_loc) : Prop :=
  match x with
  | st_entering => b = b_cores ∨ b = b_sense total ∨ b = b_add total sense0
  | st_arrived => arrived_at g c b
  | _ => False
  end.

Lemma all_arrived_spec st : total < arrivals st → all_arrived st.
Proof.
  intros Hlt c Hc. destruct (decide (st c = st_arrived)) as [|Hne]; [done|]. exfalso.
  assert (∀ T, c ∈ T → (length (filter (λ c, is_arrived (st c) = true) T) < length T)%nat) as Hf.
  { intros T HT. pose proof (length_filter_lt (λ c, is_arrived (st c) = true) T c HT) as Hl. apply Hl.
    unfold is_arrived. by rewrite bool_decide_eq_true. }
  specialize (Hf _ Hc). unfold arrivals, total in Hlt. simpl length in Hf at 2. lia.
Qed.
Lemma arrivals_total st : arrivals st ≤ total + 1.
Proof.
  unfold arrivals, total. pose proof (length_filter (λ c, is_arrived (st c) = true) (A :: mask_cores mask)) as Hl.
  simpl length in Hl at 2. lia.
Qed.
Lemma arrivals_arrive st st' k : k ∈ A :: mask_cores mask → st k ≠ st_arrived → st' k = st_arrived →
  (∀ c, c ≠ k → st' c = st c) → arrivals st' = arrivals st + 1.
Proof.
  intros Hk H0 H1 Hst. unfold arrivals.
  rewrite (filter_stage_one is_arrived st st' _ k); try done; [simpl; lia| |by rewrite H1|by auto].
  by apply bool_decide_eq_false.
Qed.

(** What a step in the barrier gives: the new stages [st'] and gate [g']. *)
Record advance (s : smp) (st : nat → stage) (g : gate) (c : nat) (b : barrier_loc) (st' : nat → stage) (g' : gate) : Prop := {
  adv_other : ∀ c', c' ≠ c → st' c' = st c';
  adv_run : has_run (st' c) = true;
  adv_gate : gate_ok (ipi (snd (ipi_wait_step b s))) st' g';
  adv_ipi : remoteCall (ipi (snd (ipi_wait_step b s))) = remoteCall (ipi s) ∧
    ipi_args (ipi (snd (ipi_wait_step b s))) = ipi_args (ipi s) ∧
    totalCoreBarrier (ipi (snd (ipi_wait_step b s))) = totalCoreBarrier (ipi s);
  adv_part : match fst (ipi_wait_step b s) with Some b' => part_at g' c (st' c) b' | None => g' = g_done ∧ st' c = st_arrived end;
  adv_arrived : ∀ c' b', c' ≠ c → arrived_at g c' b' → arrived_at g' c' b';
  adv_done : g = g_done → g' = g_done }.

Lemma gate_entering i st g c : gate_ok i st g → c ∈ A :: mask_cores mask → st c = st_entering → g = g_gather.
Proof.
  intros Hg Hc Hst. destruct g; [done| | |]; destruct Hg as [Hall _]; by rewrite (Hall c Hc) in Hst.
Qed.
Lemma advance_stay s st g c b b' : has_run (st c) = true → gate_ok (ipi s) st g → ipi_wait_step b s = (Some b', s) →
  part_at g c (st c) b' → advance s st g c b st g.
Proof. intros Hr Hg Hw Hp. split; rewrite ?Hw; done. Qed.
Lemma total_bound : total ≤ 64.
Proof.
  unfold total, mask_cores. pose proof (length_filter (λ i, Z.testbit mask (Z.of_nat i) = true) (seq 0 64)) as Hl.
  rewrite length_seq in Hl. lia.
Qed.
Lemma advance_add s st c : c ∈ A :: mask_cores mask → gate_ok (ipi s) st g_gather → st c = st_entering →
  ∃ st' g', advance s st g_gather c (b_add total sense0) st' g'.
Proof.
  intros Hc (Hsense & Hcount & Hle) Hst. set (st' := <[c := st_arrived]> st : nat → stage).
  assert (st' c = st_arrived) as H1 by apply fn_lookup_insert.
  assert (∀ c', c' ≠ c → st' c' = st c') as H2 by (intros; by apply fn_lookup_insert_ne).
  assert (arrivals st' = arrivals st + 1) as Hn by (apply (arrivals_arrive _ _ c); try done; by rewrite Hst).
  assert (0 ≤ arrivals st) by (unfold arrivals; lia). pose proof total_bound as Hb.
  assert (count (ipi s) +w 1 = arrivals st + 1) as Hw by (rewrite Hcount; apply wrap_small; unfold is_word; lia).
  destruct (Z.eqb_spec (count (ipi s)) total) as [He|Hne].
  - exists st', (g_reset c). split; simpl; try done.
    + by rewrite H1.
    + split; [|done]. apply all_arrived_spec. lia.
    + rewrite (proj2 (Z.eqb_eq _ _) He), H1. simpl. by rewrite decide_True.
    + intros c' b' Hne ->. by rewrite decide_False.
  - exists st', g_gather. split; simpl; try done.
    + by rewrite H1.
    + rewrite Hw. split; [done|]. split; lia.
    + rewrite (proj2 (Z.eqb_neq _ _) Hne), H1. done.
Qed.

Lemma barrier_step s st g c b : c ∈ A :: mask_cores mask → totalCoreBarrier (ipi s) = total → gate_ok (ipi s) st g →
  part_at g c (st c) b → ∃ st' g', advance s st g c b st' g'.
Proof.
  intros Hc Ht Hg Hp. destruct (st c) eqn:Hst; try done; simpl in Hp.
  - pose proof (gate_entering _ _ _ _ Hg Hc Hst) as ->. destruct Hp as [ -> | [ -> | -> ] ].
    + exists st, g_gather. apply (advance_stay _ _ _ _ _ (b_sense total)); try done; [by rewrite Hst|simpl; by rewrite Ht|].
      rewrite Hst. right. by left.
    + exists st, g_gather. destruct Hg as [Hs0 Hg]. apply (advance_stay _ _ _ _ _ (b_add total sense0)); try done; [by rewrite Hst|simpl; by rewrite Hs0|].
      rewrite Hst. right. by right.
    + by apply advance_add.
  - assert (has_run (st c) = true) as Hr by by rewrite Hst.
    assert (globalsense (ipi s) = sense0 → b = b_loop sense0 → ∃ st' g', advance s st g c b st' g') as Hloop.
    { intros Hs0 ->. exists st, g. apply (advance_stay _ _ _ _ _ (b_loop sense0)); try done; [|by rewrite Hst].
      simpl. by rewrite Hs0, Z.eqb_refl. }
    destruct g as [|k|k|]; simpl in Hp.
    + apply Hloop; [apply Hg|done].
    + destruct (decide (c = k)) as [->|]; [|apply Hloop; [apply Hg|done]]. subst b. exists st, (g_flip k).
      destruct Hg as [Hall Hs0]. split; simpl; try done.
      * rewrite Hst. simpl. by rewrite decide_True.
      * intros c' b' Hne ->. by rewrite !decide_False.
    + destruct (decide (c = k)) as [->|]; [|apply Hloop; [apply Hg|done]]. subst b. exists st, g_done.
      destruct Hg as (Hall & Hs0 & Hn). split; simpl; try done.
      * by rewrite Hst.
      * intros c' b' Hne ->. by rewrite decide_False.
    + subst b. exists st, g_done. destruct Hg as [Hall Hn]. split; simpl; try done.
      destruct (_ =? _); [by rewrite Hst|done].
Qed.
End barrier.

(** ** The invariant of the remote calls *)
Section invariant.
Context `{SmpPlatform}.

Definition mask_ok (A : nat) (mask : Z) : Prop :=
  is_word mask ∧ (A ∉ mask_cores mask) ∧ (∀ c, c ∈ mask_cores mask → (c < CONFIG_MAX_NUM_NODES)%nat).
(** A run of the call [o]. One that is handled in the loop of [clh_lock_acquire] has the function
    and the arguments of the call. *)
Definition call_ok (o : remote_op) (from : handler_origin) (call : IpiRemoteCall_t) (args : list Z) : Prop :=
  match from with in_acquire => call = op_call o ∧ args = op_args o | in_interrupt => True end.
Definition entry_ok (o : remote_op) (r : remote_run) : Prop := call_ok o (run_from r) (run_func r) (run_args r).
(** What was run since the call began. *)
Definition ran_ok (o : remote_op) (st : nat → stage) (l : list remote_run) : Prop :=
  ∃ new, l = new ++ op_before o ∧ Forall (entry_ok o) new ∧
    map run_core new ≡ₚ filter (λ c, has_run (st c) = true) (mask_cores (op_mask o)).
(** On the way to the call, which was found pending. *)
Definition polled_loc (o : remote_op) (l : core_loc) : Prop :=
  match l with
  | l_args in_acquire => True
  | l_check in_acquire call args => call_ok o in_acquire call args
  | l_call from call args => call_ok o from call args
  | _ => False
  end.
Definition target_ok (o : remote_op) (sense0 : Z) (g : gate) (s : smp) (c : nat) (x : stage) : Prop :=
  match x with
  | st_idle => node_ipi s c = false ∧ idle_loc (core_at s c)
  | st_flagged => node_ipi s c = true ∧ (idle_loc (core_at s c) ∨ polled_loc o (core_at s c))
  | st_ran => node_ipi s c = true ∧ ∃ from, core_at s c = l_clear from
  | st_entering => node_ipi s c = false ∧ ((∃ from, core_at s c = l_irq from) ∨
      ∃ from b, core_at s c = l_wait from b ∧ part_at (op_mask o) sense0 g c st_entering b)
  | st_arrived => node_ipi s c = false ∧ ((g = g_done ∧ idle_loc (core_at s c)) ∨
      ∃ from b, core_at s c = l_wait from b ∧ part_at (op_mask o) sense0 g c st_arrived b)
  end.
Definition caller_ok (A : nat) (o : remote_op) (p : op_loc) (sense0 : Z) (g : gate) (st : nat → stage) : Prop :=
  match p with
  | o_args | o_total => False
  | o_flag m tcs => st A = st_entering ∧ is_word m ∧
      ∀ c, c ∈ mask_cores m ↔ c ∈ mask_cores (op_mask o) ∧ st c = st_idle
  | o_send tcs => st A = st_entering ∧ ∀ c, c ∈ mask_cores (op_mask o) → st c ≠ st_idle
  | o_wait b => part_at (op_mask o) sense0 g A (st A) b ∧ ∀ c, c ∈ mask_cores (op_mask o) → st c ≠ st_idle
  end.
Record op_inv (A : nat) (o : remote_op) (p : op_loc) (sense0 : Z) (st : nat → stage) (g : gate) (s : smp) : Prop := {
  oi_mask : mask_ok A (op_mask o);
  oi_ipi : remoteCall (ipi s) = op_call o ∧ ipi_args (ipi s) = op_args o ∧ totalCoreBarrier (ipi s) = total (op_mask o);
  oi_flag : node_ipi s A = false;
  oi_target : ∀ c, (c < CONFIG_MAX_NUM_NODES)%nat → c ≠ A → target_ok o sense0 g s c (st c);
  oi_only : ∀ c, c ≠ A → c ∉ mask_cores (op_mask o) → st c = st_idle;
  oi_caller : caller_ok A o p sense0 g st;
  oi_gate : gate_ok A (op_mask o) sense0 (ipi s) st g;
  oi_ran : ran_ok o st (ran s) }.
(** Before the total is written, nobody else knows of the call. *)
Definition prep_inv (A : nat) (o : remote_op) (p : op_loc) (s : smp) : Prop :=
  mask_ok A (op_mask o) ∧ (∀ c, (c < CONFIG_MAX_NUM_NODES)%nat → node_ipi s c = false ∧ (c ≠ A → idle_loc (core_at s c))) ∧
  count (ipi s) = 0 ∧ ran s = op_before o ∧
  match p with
  | o_args => True
  | o_total => remoteCall (ipi s) = op_call o ∧ ipi_args (ipi s) = op_args o
  | _ => False
  end.
(** No remote call is under way: no flag is set, the count is zero, and no core is on its way
    to a call or into the barrier. A core may still look at the sense at the end of
    [ipi_wait], or be in an interrupt and about to find its flag clear. *)
Definition quiet (s : smp) : Prop :=
  (∀ c, (c < CONFIG_MAX_NUM_NODES)%nat → node_ipi s c = false ∧ idle_loc (core_at s c)) ∧ count (ipi s) = 0.

Lemma mask_ok_members A mask : mask_ok A mask → NoDup (A :: mask_cores mask).
Proof. intros (_ & Hn & _). apply NoDup_cons. split; [done|apply NoDup_mask_cores]. Qed.
Lemma mask_without_ok A mask : (A < CONFIG_MAX_NUM_NODES)%nat → 0 ≤ mask < 2 ^ Z.of_nat CONFIG_MAX_NUM_NODES →
  mask_ok A (mask_without A mask).
Proof.
  intros HA Hm. pose proof nodes_fit as Hfit.
  assert (2 ^ Z.of_nat CONFIG_MAX_NUM_NODES ≤ 2 ^ 64) by (apply Z.pow_le_mono_r; lia).
  assert (is_word mask) as Hw by (unfold is_word; lia). split_and!.
  - by apply mask_without_word.
  - rewrite mask_without_spec by (done || lia). naive_solver.
  - intros c [Hc _]%mask_without_spec; [|lia|done]. rewrite elem_of_mask_cores in Hc. destruct Hc as [_ Hb].
    destruct (decide (c < CONFIG_MAX_NUM_NODES)%nat) as [|Hge]; [done|]. exfalso.
    destruct (decide (mask = 0)) as [->|Hne]; [by rewrite Z.bits_0 in Hb|].
    rewrite Z.bits_above_log2 in Hb; [done|lia|]. apply Z.log2_lt_pow2; [lia|].
    assert (2 ^ Z.of_nat CONFIG_MAX_NUM_NODES ≤ 2 ^ Z.of_nat c) by (apply Z.pow_le_mono_r; lia). lia.
Qed.
Lemma ran_ok_same o st st' l : (∀ c, c ∈ mask_cores (op_mask o) → has_run (st' c) = has_run (st c)) → ran_ok o st l → ran_ok o st' l.
Proof. intros Hr (new & Hl & Hf & Hp). exists new. split_and!; try done. by rewrite (filter_stage_same has_run st). Qed.
Lemma ran_ok_run o st st' l r : run_core r ∈ mask_cores (op_mask o) → has_run (st (run_core r)) = false →
  has_run (st' (run_core r)) = true → (∀ c, c ≠ run_core r → st' c = st c) → entry_ok o r → ran_ok o st l → ran_ok o st' (r :: l).
Proof.
  intros Hc H0 H1 Hst He (new & -> & Hf & Hp). exists (r :: new). split_and!; [done|by constructor|].
  rewrite (filter_stage_one has_run st st' _ (run_core r)) by (done || apply NoDup_mask_cores || auto). simpl. by rewrite Hp.
Qed.
Lemma gate_ok_same A mask sense0 i st st' g : (∀ c, is_arrived (st' c) = is_arrived (st c)) →
  gate_ok A mask sense0 i st g → gate_ok A mask sense0 i st' g.
Proof.
  intros Ha.
  assert (all_arrived A mask st → all_arrived A mask st') as Hall.
  { intros Hall c Hc. specialize (Hall c Hc). specialize (Ha c). unfold is_arrived in Ha. rewrite Hall in Ha.
    rewrite (bool_decide_eq_true_2 (st_arrived = st_arrived)) in Ha by done. by apply bool_decide_eq_true_1 in Ha. }
  assert (arrivals A mask st' = arrivals A mask st) as Hn by (unfold arrivals; by rewrite (filter_stage_same is_arrived st)).
  destruct g; simpl; rewrite ?Hn; naive_solver.
Qed.
(** A step of [cpu] leaves the other cores where they are. *)
Lemma target_ok_frame o sense0 g g' s s' c x : core_at s' c = core_at s c → node_ipi s' c = node_ipi s c →
  (∀ b, arrived_at sense0 g c b → arrived_at sense0 g' c b) → (g = g_done → g' = g_done) →
  target_ok o sense0 g s c x → target_ok o sense0 g' s' c x.
Proof. unfold target_ok. intros -> -> Hb Hg. destruct x; simpl; naive_solver. Qed.
Lemma caller_ok_frame A o p sense0 g g' st st' : st' A = st A → (∀ b, arrived_at sense0 g A b → arrived_at sense0 g' A b) →
  (∀ c, c ∈ mask_cores (op_mask o) → (st' c = st_idle ↔ st c = st_idle)) → caller_ok A o p sense0 g st → caller_ok A o p sense0 g' st'.
Proof.
  unfold caller_ok. intros -> Hb Hi. destruct p; try done.
  - intros (? & ? & Hm). split_and!; try done. intros c. rewrite Hm. naive_solver.
  - naive_solver.
  - intros [Hp Hm]. split; [|naive_solver]. destruct (st A); simpl in *; auto.
Qed.
Lemma idle_loc_busy l : idle_loc l →
  match l with
  | l_op _ _ | l_args in_acquire | l_check in_acquire _ _ | l_call _ _ _ | l_clear _ | l_irq _ => False
  | l_wait _ b => ∃ localsense, b = b_loop localsense
  | _ => True
  end.
Proof. intros [Hf|(from & ls & ->)]; [by destruct l as [| | | | | |[]|[]| | | | | | |]|by eexists]. Qed.
Lemma idle_other_step cpu s s' : idle_loc (core_at s cpu) → node_ipi s cpu = false → other_step cpu s s' →
  same_ipi s s' ∧ idle_loc (core_at s' cpu).
Proof.
  intros Hidle%idle_loc_busy Hflag Hst. destruct Hst as [_ Hl Hi|_ Hp|Hat|call args Hat|call args _ Hp|from call args Hat|from Hat|from Hat
    |from b Hat Hat' Hn Hi Hr]; try congruence; try (rewrite Hat in Hidle; done).
  - split; [done|by left].
  - rewrite Hat in Hidle. destruct Hidle as [ls ->]. split; [unfold same_ipi; by rewrite Hn, Hi, Hr|].
    rewrite Hat'. simpl. destruct (_ =? _); [right; by eexists _, _|left; by destruct from].
Qed.

(** ** The steps of the other cores *)
Section other.
Context (A : nat) (o : remote_op) (p : op_loc) (sense0 : Z) (st : nat → stage) (g : gate) (s s' : smp) (cpu : nat).
Context (HA : (A < CONFIG_MAX_NUM_NODES)%nat) (Hcpu : (cpu < CONFIG_MAX_NUM_NODES)%nat) (Hne : cpu ≠ A).
Context (Hinv : op_inv A o p sense0 st g s).
Context (Hat : ∀ c, c ≠ cpu → core_at s' c = core_at s c).

(** A step that keeps the barrier: [cpu] goes on to stage [x]. *)
Lemma op_inv_move x : ipi s' = ipi s → node_ipi s' A = node_ipi s A →
  (∀ c, c ≠ cpu → node_ipi s' c = node_ipi s c) → is_arrived x = is_arrived (st cpu) → (x = st_idle ↔ st cpu = st_idle) →
  target_ok o sense0 g s' cpu x → ran_ok o (<[cpu := x]> st) (ran s') →
  op_inv A o p sense0 (<[cpu := x]> st) g s'.
Proof.
  intros Hi HnA Hn Hx Hidle Ht Hr.
  assert (∀ c, c ≠ cpu → (<[cpu := x]> st : nat → stage) c = st c) as Hst by (intros; by apply fn_lookup_insert_ne).
  split.
  - apply Hinv.
  - rewrite Hi. apply Hinv.
  - rewrite HnA. apply Hinv.
  - intros c Hc HcA. destruct (decide (c = cpu)) as [->|Hd]; [by rewrite fn_lookup_insert|]. rewrite Hst by done.
    apply (target_ok_frame _ _ g _ s); auto. by apply (oi_target _ _ _ _ _ _ _ Hinv).
  - intros c HcA Hc. destruct (decide (c = cpu)) as [->|Hd]; [|by rewrite Hst; [apply (oi_only _ _ _ _ _ _ _ Hinv)|]].
    rewrite fn_lookup_insert. apply Hidle. by apply (oi_only _ _ _ _ _ _ _ Hinv).
  - apply (caller_ok_frame _ _ _ _ g _ st); auto; [|apply Hinv].
    intros c _. destruct (decide (c = cpu)) as [->|Hd]; [by rewrite fn_lookup_insert|by rewrite Hst].
  - rewrite Hi. apply (gate_ok_same _ _ _ _ st); [|apply Hinv].
    intros c. destruct (decide (c = cpu)) as [->|Hd]; [by rewrite fn_lookup_insert|by rewrite Hst].
  - done.
Qed.
Lemma ran_ok_move x : has_run x = has_run (st cpu) → ran s' = ran s → ran_ok o (<[cpu := x]> st) (ran s').
Proof.
  intros Hx ->. apply (ran_ok_same _ st); [|apply Hinv]. intros c _.
  destruct (decide (c = cpu)) as [->|Hd]; [by rewrite fn_lookup_insert|by rewrite fn_lookup_insert_ne].
Qed.
(** Only the cores of the mask leave the stage [st_idle]. *)
Lemma busy_member : st cpu ≠ st_idle → cpu ∈ mask_cores (op_mask o).
Proof.
  intros Hst. destruct (decide (cpu ∈ mask_cores (op_mask o))) as [|Hn]; [done|].
  destruct Hst. by apply (oi_only _ _ _ _ _ _ _ Hinv).
Qed.
(** A step in the barrier. *)
Lemma op_inv_wait from b : core_at s cpu = l_wait from b →
  core_at s' cpu = match fst (ipi_wait_step b s) with Some b' => l_wait from b' | None => handled from end →
  node_ipi s' = node_ipi s → ipi s' = ipi (snd (ipi_wait_step b s)) → ran s' = ran s →
  part_at (op_mask o) sense0 g cpu (st cpu) b → ∃ st' g', op_inv A o p sense0 st' g' s'.
Proof.
  intros Hb Hb' Hn Hi Hr Hp. pose proof (mask_ok_members _ _ (oi_mask _ _ _ _ _ _ _ Hinv)) as Hnd.
  assert (st cpu ≠ st_idle) as Hbusy by (intros He; by rewrite He in Hp).
  destruct (barrier_step A (op_mask o) sense0 Hnd s st g cpu b) as (st' & g' & Hadv); [|apply Hinv|apply Hinv|done|].
  { apply list_elem_of_further, busy_member, Hbusy. }
  assert (has_run (st cpu) = true) as Hrun by (by destruct (st cpu)).
  exists st', g'. split.
  - apply Hinv.
  - rewrite Hi. destruct (adv_ipi _ _ _ _ _ _ _ _ _ _ Hadv) as (-> & -> & ->). apply Hinv.
  - rewrite Hn. apply Hinv.
  - intros c Hc HcA. destruct (decide (c = cpu)) as [->|Hd].
    + assert (node_ipi s' cpu = false) as Hf.
      { rewrite Hn. pose proof (oi_target _ _ _ _ _ _ _ Hinv cpu Hc HcA) as Ht. destruct (st cpu); try done; by destruct Ht. }
      pose proof (adv_part _ _ _ _ _ _ _ _ _ _ Hadv) as Hpart. destruct (fst (ipi_wait_step b s)) as [b'|].
      * destruct (st' cpu) eqn:Hx; try done; (split; [done|right; by eexists _, _]).
      * destruct Hpart as [-> ->]. split; [done|]. left. split; [done|]. rewrite Hb'. left. by destruct from.
    + rewrite (adv_other _ _ _ _ _ _ _ _ _ _ Hadv) by done.
      apply (target_ok_frame _ _ g _ s); [by apply Hat|by rewrite Hn|..].
      * intros b'. by apply (adv_arrived _ _ _ _ _ _ _ _ _ _ Hadv).
      * apply (adv_done _ _ _ _ _ _ _ _ _ _ Hadv).
      * by apply (oi_target _ _ _ _ _ _ _ Hinv).
  - intros c HcA Hc. rewrite (adv_other _ _ _ _ _ _ _ _ _ _ Hadv); [by apply (oi_only _ _ _ _ _ _ _ Hinv)|].
    intros ->. by apply Hc, busy_member.
  - apply (caller_ok_frame _ _ _ _ g _ st); [by apply (adv_other _ _ _ _ _ _ _ _ _ _ Hadv)| | |apply Hinv].
    + intros b'. by apply (adv_arrived _ _ _ _ _ _ _ _ _ _ Hadv).
    + intros c _. destruct (decide (c = cpu)) as [->|Hd]; [|by rewrite (adv_other _ _ _ _ _ _ _ _ _ _ Hadv)].
      pose proof (adv_run _ _ _ _ _ _ _ _ _ _ Hadv) as Hx. destruct (st' cpu); naive_solver.
  - rewrite Hi. apply Hadv.
  - rewrite Hr. apply (ran_ok_same _ st); [|apply Hinv]. intros c _.
    destruct (decide (c = cpu)) as [->|Hd]; [|by rewrite (adv_other _ _ _ _ _ _ _ _ _ _ Hadv)].
    rewrite Hrun. apply (adv_run _ _ _ _ _ _ _ _ _ _ Hadv).
Qed.

Lemma idle_loc_wait from b (t t' : smp) : idle_loc (l_wait from b) →
  core_at t' cpu = match fst (ipi_wait_step b t) with Some b' => l_wait from b' | None => handled from end →
  ipi (snd (ipi_wait_step b t)) = ipi t ∧ idle_loc (core_at t' cpu).
Proof.
  intros [ls ->]%idle_loc_busy ->. split; [done|]. simpl. destruct (_ =? _); [right; by eexists _, _|left; by destruct from].
Qed.
(** The places of a remote call tell the stage. *)
Definition stage_of (l : core_loc) : option stage :=
  match l with l_args in_acquire | l_check in_acquire _ _ | l_call _ _ _ => Some st_flagged | l_clear _ => Some st_ran | l_irq _ => Some st_entering | _ => None end.
Lemma polled_stage l : polled_loc o l → stage_of l = Some st_flagged.
Proof. by destruct l as [| | | | | |[]|[]| | | | | | |]. Qed.
Lemma stage_of_busy x : stage_of (core_at s cpu) = Some x → st cpu = x ∧ target_ok o sense0 g s cpu x ∧ ¬ idle_loc (core_at s cpu).
Proof.
  pose proof (oi_target _ _ _ _ _ _ _ Hinv cpu Hcpu Hne) as Ht. intros Hx.
  assert (¬ idle_loc (core_at s cpu)) as Hidle.
  { intros Hd%idle_loc_busy. by destruct (core_at s cpu) as [| | | | | |[]|[]| | | | | | |]. }
  assert (∀ from b, core_at s cpu ≠ l_wait from b) as Hwait by (intros ?? He; by rewrite He in Hx).
  assert (st cpu = x) as He; [|by subst x].
  destruct (st cpu); simpl in Ht.
  - naive_solver.
  - destruct Ht as [_ [?|Hp%polled_stage]]; [done|]. congruence.
  - destruct Ht as [_ [from He]]. rewrite He in Hx. by simplify_eq/=.
  - destruct Ht as [_ [[from He]|(? & ? & ? & ?)]]; [|naive_solver]. rewrite He in Hx. by simplify_eq/=.
  - naive_solver.
Qed.
(** Steps on the way to the call. *)
Lemma op_inv_polled : st cpu = st_flagged → node_ipi s cpu = true → polled_loc o (core_at s' cpu) → same_ipi s s' →
  op_inv A o p sense0 (<[cpu := st_flagged]> st) g s'.
Proof.
  intros Hx Hp Hl (Hn & Hi & Hr). apply op_inv_move; rewrite ?Hn, ?Hx; try done; [|apply ran_ok_move; by rewrite ?Hx].
  split; [by rewrite Hn|by right].
Qed.
Lemma free_pending : free_loc (core_at s cpu) → node_ipi s cpu = true → st cpu = st_flagged.
Proof.
  intros Hf Hp. pose proof (oi_target _ _ _ _ _ _ _ Hinv cpu Hcpu Hne) as Ht. unfold target_ok in Ht. rewrite Hp in Ht.
  destruct (st cpu); try (by destruct Ht). destruct Ht as [_ [from He]]. by rewrite He in Hf.
Qed.
Lemma polled_flagged : stage_of (core_at s cpu) = Some st_flagged →
  st cpu = st_flagged ∧ node_ipi s cpu = true ∧ polled_loc o (core_at s cpu).
Proof. intros (Hx & [Hf [?|Hp]] & Hidle)%stage_of_busy; done. Qed.
Lemma op_inv_call from call args : core_at s cpu = l_call from call args → core_at s' cpu = l_clear from → node_ipi s' = node_ipi s →
  ipi s' = ipi s → ran s' = RemoteRun cpu from call args :: ran s → op_inv A o p sense0 (<[cpu := st_ran]> st) g s'.
Proof.
  intros Hl Hl' Hn Hi Hr. destruct polled_flagged as (Hx & Hflag & Hp); [by rewrite Hl|]. rewrite Hl in Hp.
  apply op_inv_move; rewrite ?Hn, ?Hx; try done.
  - split; [by rewrite Hn|by exists from].
  - rewrite Hr. apply (ran_ok_run _ st); simpl; try apply Hinv.
    + apply busy_member. by rewrite Hx.
    + by rewrite Hx.
    + by rewrite fn_lookup_insert.
    + intros c Hc. by apply fn_lookup_insert_ne.
    + done.
Qed.
Lemma op_inv_idle : free_loc (core_at s cpu) → free_loc (core_at s' cpu) → same_ipi s s' →
  op_inv A o p sense0 (<[cpu := st cpu]> st) g s'.
Proof.
  intros Hf Hf' (Hn & Hi & Hr). pose proof (oi_target _ _ _ _ _ _ _ Hinv cpu Hcpu Hne) as Ht.
  apply op_inv_move; rewrite ?Hn; try done; [|by apply ran_ok_move].
  unfold target_ok in *. rewrite Hn. destruct (st cpu).
  - split; [apply Ht|by left].
  - split; [apply Ht|left; by left].
  - destruct Ht as [_ [from He]]. by rewrite He in Hf.
  - destruct Ht as [_ [[from He]|(from & b & He & _)]]; by rewrite He in Hf.
  - destruct Ht as [Ht [[Hd _]|(from & b & He & _)]]; [|by rewrite He in Hf]. split; [done|]. left. split; [done|by left].
Qed.
Lemma op_inv_barrier from b : core_at s cpu = l_wait from b →
  core_at s' cpu = match fst (ipi_wait_step b s) with Some b' => l_wait from b' | None => handled from end →
  node_ipi s' = node_ipi s → ipi s' = ipi (snd (ipi_wait_step b s)) → ran s' = ran s → ∃ st' g', op_inv A o p sense0 st' g' s'.
Proof.
  intros Hl Hl' Hn Hi Hr. pose proof (oi_target _ _ _ _ _ _ _ Hinv cpu Hcpu Hne) as Ht.
  assert (idle_loc (core_at s cpu) → target_ok o sense0 g s' cpu (st cpu) → ∃ st' g', op_inv A o p sense0 st' g' s') as Hidle.
  { intros Hd Ht'. rewrite Hl in Hd. destruct (idle_loc_wait from b s s' Hd Hl') as [Hi' _].
    exists (<[cpu := st cpu]> st), g. apply op_inv_move; rewrite ?Hn; try done; [by rewrite Hi|by apply ran_ok_move]. }
  assert (idle_loc (core_at s cpu) → idle_loc (core_at s' cpu)) as Hidle'.
  { intros Hd. rewrite Hl in Hd. by apply (idle_loc_wait from b s s'). }
  destruct (st cpu) eqn:Hx; simpl in Ht.
  - apply Hidle; [apply Ht|]. split; [rewrite Hn; apply Ht|]. by apply Hidle', Ht.
  - destruct Ht as [Hflag [Hd|Hp]]; [|by rewrite Hl in Hp]. apply Hidle; [done|]. split; [by rewrite Hn|]. left. by apply Hidle'.
  - destruct Ht as [_ [from' He]]. congruence.
  - destruct Ht as [Hflag [[from' He]|(from' & b' & He & Hp)]]; [congruence|].
    assert (b' = b) as -> by congruence. apply (op_inv_wait from b); try done. by rewrite Hx.
  - destruct Ht as [Hflag [[-> Hd]|(from' & b' & He & Hp)]].
    + apply Hidle; [done|]. split; [by rewrite Hn|]. left. split; [done|by apply Hidle'].
    + assert (b' = b) as -> by congruence. apply (op_inv_wait from b); try done. by rewrite Hx.
Qed.
Lemma op_inv_other : other_step cpu s s' → ∃ st' g', op_inv A o p sense0 st' g' s'.
Proof.
  intros Hs. destruct Hs as [Hf Hf' Hsame|Hf Hp Hl Hsame|Hl Hl' Hsame|call args Hl Hl' Hsame|call args Hf Hp Hl Hsame
    |from call args Hl Hl' Hn Hi Hr|from Hl Hl' Hn Hi Hr|from Hl Hl' (Hn & Hi & Hr)|from b Hl Hl' Hn Hi Hr].
  - eexists _, g. by apply op_inv_idle.
  - eexists _, g. apply op_inv_polled; try done; [by apply free_pending|by rewrite Hl].
  - eexists _, g. destruct polled_flagged as (Hx & Hflag & Hp); [by rewrite Hl|]. apply op_inv_polled; try done. rewrite Hl'.
    by destruct (oi_ipi _ _ _ _ _ _ _ Hinv) as (? & ? & _).
  - eexists _, g. destruct polled_flagged as (Hx & Hflag & Hp); [by rewrite Hl|]. apply op_inv_polled; try done.
    rewrite Hl', Hflag. by rewrite Hl in Hp.
  - eexists _, g. apply op_inv_polled; try done; [by apply free_pending|by rewrite Hl].
  - eexists _, g. by eapply op_inv_call.
  - exists (<[cpu := st_entering]> st), g. destruct (stage_of_busy st_ran) as [Hx _]; [by rewrite Hl|].
    apply op_inv_move; rewrite ?Hn, ?Hx; try done.
    + by apply fn_lookup_insert_ne.
    + intros c Hc. by apply fn_lookup_insert_ne.
    + split; [by rewrite Hn, fn_lookup_insert|left; by exists from].
    + apply ran_ok_move; by rewrite ?Hx.
  - exists (<[cpu := st_entering]> st), g. destruct (stage_of_busy st_entering) as (Hx & [Hflag _] & _); [by rewrite Hl|].
    apply op_inv_move; rewrite ?Hn, ?Hx; try done.
    + split; [by rewrite Hn|]. right. exists from, b_cores. split; [done|by left].
    + apply ran_ok_move; by rewrite ?Hx.
  - by apply (op_inv_barrier from b).
Qed.
End other.

(** ** The steps of the calling core *)
Definition op_next (cpu : nat) (o : remote_op) (p : op_loc) (s s' : smp) : Prop :=
  match p with
  | o_args => s' = goto cpu (l_op o o_total) (init_ipi_call (op_call o) (op_args o) s)
  | o_total => s' = goto cpu (l_op o (o_flag (op_mask o) [])) (init_ipi_total (op_mask o) s)
  | o_flag mask tcs => (mask = 0 ∧ s' = goto cpu (l_op o (o_send tcs)) s) ∨ (mask ≠ 0 ∧
      s' = goto cpu (l_op o (o_flag (mask_without (mask_index mask) mask) (tcs ++ [mask_index mask]))) (set_pending (mask_index mask) true s))
  | o_send [] => s' = goto cpu (l_op o (o_wait b_cores)) s
  | o_send (t :: tcs) => s' = goto cpu (l_op o (o_send tcs)) (set_ipi_irq t irq_remote_call_ipi s)
  | o_wait b => s' = goto cpu (match fst (ipi_wait_step b s) with Some b' => l_op o (o_wait b') | None => l_held end)
      (snd (ipi_wait_step b s))
  end.
Lemma core_step_op cpu s s' o p : core_step cpu s s' → core_at s cpu = l_op o p → op_next cpu o p s s'.
Proof.
  intros Hs Hat. destruct Hs as [H1|H1|H1|H1|H1|H1|H1 _|H1|H1|from H1|from f ar H1|from f ar H1|from H1|from H1|from b H1
    |func args mask H1 Hm|o' H1|o' H1|o' mask tcs H1 Hm|o' tcs H1|o' t tcs H1|o' H1|o' b H1|mask H1 _|mask H1 _|H1];
    rewrite Hat in H1; simplify_eq; simpl; auto.
Qed.

(** Every core of the mask has run the call once since it began, and nobody else has. *)
Definition finished (o : remote_op) (s : smp) : Prop :=
  ∃ new, ran s = new ++ op_before o ∧ Forall (entry_ok o) new ∧ map run_core new ≡ₚ mask_cores (op_mask o).

Section own.
Context (A : nat) (o : remote_op) (s s' : smp) (HA : (A < CONFIG_MAX_NUM_NODES)%nat).

Lemma prep_args : prep_inv A o o_args s → op_next A o o_args s s' → prep_inv A o o_total s'.
Proof.
  intros (Hm & Hc & Hn & Hr & _) ->. split_and!; try done.
  intros c Hlt. split; [by apply Hc|]. intros HcA. rewrite goto_there by done. by apply Hc.
Qed.
Lemma prep_total : prep_inv A o o_total s → op_next A o o_total s s' →
  op_inv A o (o_flag (op_mask o) []) (globalsense (ipi s)) (<[A := st_entering]> (λ _, st_idle)) g_gather s'.
Proof.
  intros (Hm & Hc & Hn & Hr & Hcall & Hargs) ->. pose proof (proj1 Hm) as Hw.
  set (st := <[A := st_entering]> (λ _, st_idle) : nat → stage).
  assert (∀ c, c ≠ A → st c = st_idle) as Hst by (intros; by apply fn_lookup_insert_ne).
  assert (st A = st_entering) as HstA by apply fn_lookup_insert.
  assert (∀ c, c ∈ mask_cores (op_mask o) → st c = st_idle) as Hmem by (intros c Hin; apply Hst; intros ->; by apply (proj1 (proj2 Hm))).
  split; try done.
  - split_and!; [done..|]. by apply popcountl_spec.
  - by apply Hc.
  - intros c Hlt HcA. rewrite Hst by done. split; [by apply Hc|]. rewrite goto_there by done. by apply Hc.
  - by auto.
  - split_and!; [done|done|]. naive_solver.
  - assert (arrivals A (op_mask o) st = 0) as Ha.
    { unfold arrivals. rewrite filter_stage_none; [done|]. intros c [->|Hin]%elem_of_cons; [by rewrite HstA|by rewrite Hmem]. }
    split; [done|]. rewrite Ha. split; [done|]. unfold total. lia.
  - exists []. split_and!; [done|by constructor|]. rewrite filter_stage_none; [done|]. intros c Hin. by rewrite Hmem.
Qed.

(** A step of the caller that only changes where it is. *)
Lemma op_inv_goto p p' sense0 st g : op_inv A o p sense0 st g s → core_at s' = core_at (goto A (l_op o p') s) →
  same_ipi s s' → caller_ok A o p' sense0 g st → op_inv A o p' sense0 st g s'.
Proof.
  intros Hinv Hat (Hn & Hi & Hr) Hc. split; rewrite ?Hi, ?Hr; try apply Hinv; try done; [rewrite Hn; apply Hinv|].
  intros c Hlt HcA. apply (target_ok_frame _ _ g _ s); auto; [rewrite Hat; by apply goto_there|by rewrite Hn|]. by apply (oi_target _ _ _ _ _ _ _ Hinv).
Qed.
Lemma pending_here cpu l t b : node_ipi (goto cpu l (set_pending t b s)) t = b.
Proof. apply fn_lookup_insert. Qed.
Lemma pending_there cpu l t b c : c ≠ t → node_ipi (goto cpu l (set_pending t b s)) c = node_ipi s c.
Proof. intros Hc. by apply fn_lookup_insert_ne. Qed.
Lemma op_inv_flag m tcs sense0 st g : op_inv A o (o_flag m tcs) sense0 st g s → m ≠ 0 →
  s' = goto A (l_op o (o_flag (mask_without (mask_index m) m) (tcs ++ [mask_index m]))) (set_pending (mask_index m) true s) →
  op_inv A o (o_flag (mask_without (mask_index m) m) (tcs ++ [mask_index m])) sense0 (<[mask_index m := st_flagged]> st) g s'.
Proof.
  intros Hinv Hm ->. destruct (oi_caller _ _ _ _ _ _ _ Hinv) as (HstA & Hw & Hleft). destruct (oi_mask _ _ _ _ _ _ _ Hinv) as (_ & HnA & Hlt).
  pose proof (mask_index_spec m Hw Hm) as Ht. set (t := mask_index m) in *.
  pose proof (proj1 (Hleft t) Ht) as [Hin Hidle]. rewrite elem_of_mask_cores in Ht. destruct Ht as [H64 _].
  assert (t ≠ A) as HtA by (by intros ->).
  assert (∀ c, c ≠ t → (<[t := st_flagged]> st : nat → stage) c = st c) as Hst by (intros; by apply fn_lookup_insert_ne).
  assert (∀ P : stage → bool, P st_flagged = P st_idle → ∀ c, P ((<[t := st_flagged]> st : nat → stage) c) = P (st c)) as Hsame.
  { intros P HP c. destruct (decide (c = t)) as [->|Hd]; [by rewrite fn_lookup_insert, Hidle|by rewrite Hst]. }
  clearbody t. split; [apply Hinv|apply Hinv| | | | |apply (gate_ok_same _ _ _ _ st); [by apply Hsame|apply Hinv]|].
  - rewrite pending_there by done. apply Hinv.
  - intros c Hc HcA. pose proof (oi_target _ _ _ _ _ _ _ Hinv c Hc HcA) as Hto. destruct (decide (c = t)) as [->|Hd].
    + rewrite fn_lookup_insert. rewrite Hidle in Hto. split; [apply pending_here|]. left. rewrite goto_there by done. apply Hto.
    + rewrite Hst by done. apply (target_ok_frame _ _ g _ s); auto; [by rewrite goto_there|by apply pending_there].
  - intros c HcA Hc. rewrite Hst; [by apply (oi_only _ _ _ _ _ _ _ Hinv)|]. by intros ->.
  - split_and!; [by rewrite Hst|by apply mask_without_word|]. intros c. rewrite mask_without_spec, Hleft by done.
    destruct (decide (c = t)) as [->|Hd]; [rewrite fn_lookup_insert; naive_solver|rewrite Hst by done; naive_solver].
  - apply (ran_ok_same _ st); [|apply Hinv]. intros c _. by apply Hsame.
Qed.
Lemma op_inv_caller b sense0 st g : op_inv A o (o_wait b) sense0 st g s → op_next A o (o_wait b) s s' →
  match fst (ipi_wait_step b s) with
  | Some b' => ∃ st' g', op_inv A o (o_wait b') sense0 st' g' s'
  | None => quiet s' ∧ finished o s'
  end.
Proof.
  intros Hinv ->. destruct (oi_mask _ _ _ _ _ _ _ Hinv) as (Hw & HnA & Hlt). destruct (oi_caller _ _ _ _ _ _ _ Hinv) as [Hpart Hbusy].
  pose proof (mask_ok_members _ _ (oi_mask _ _ _ _ _ _ _ Hinv)) as Hnd.
  destruct (barrier_step A (op_mask o) sense0 Hnd s st g A b) as (st' & g' & Hadv); [by apply list_elem_of_here|apply Hinv|apply Hinv|done|].
  destruct (ipi_wait_step_frame b s) as (Hat & Hn & Hr).
  pose proof (adv_other _ _ _ _ _ _ _ _ _ _ Hadv) as Hst. pose proof (adv_part _ _ _ _ _ _ _ _ _ _ Hadv) as Hp.
  assert (∀ c, c ∈ mask_cores (op_mask o) → st' c = st c) as Hmem by (intros c Hc; apply Hst; by intros ->).
  assert (∀ l c, (c < CONFIG_MAX_NUM_NODES)%nat → c ≠ A → target_ok o sense0 g' (goto A l (snd (ipi_wait_step b s))) c (st' c)) as Hto.
  { intros l c Hc HcA. rewrite Hst by done. apply (target_ok_frame _ _ g _ s); [by rewrite goto_there, Hat|simpl; by rewrite Hn|..].
    - intros b'. by apply (adv_arrived _ _ _ _ _ _ _ _ _ _ Hadv).
    - apply (adv_done _ _ _ _ _ _ _ _ _ _ Hadv).
    - by apply (oi_target _ _ _ _ _ _ _ Hinv). }
  assert (ran_ok o st' (ran s)) as Hro by (apply (ran_ok_same _ st); [intros c Hc; by rewrite Hmem|apply Hinv]).
  destruct (fst (ipi_wait_step b s)) as [b'|].
  - exists st', g'. split; try done.
    + simpl. destruct (adv_ipi _ _ _ _ _ _ _ _ _ _ Hadv) as (-> & -> & ->). apply Hinv.
    + simpl. rewrite Hn. apply Hinv.
    + by apply Hto.
    + intros c HcA Hc. rewrite Hst by done. by apply (oi_only _ _ _ _ _ _ _ Hinv).
    + split; [done|]. intros c Hc. rewrite Hmem by done. by apply Hbusy.
    + simpl. apply Hadv.
    + simpl. by rewrite Hr.
  - destruct Hp as [-> HA']. destruct (adv_gate _ _ _ _ _ _ _ _ _ _ Hadv) as [Hall Hcount]. split.
    + split; [|done]. intros c Hc. destruct (decide (c = A)) as [->|HcA]; [rewrite goto_here; simpl; rewrite Hn; split; [apply Hinv|by left]|].
      specialize (Hto l_held c Hc HcA). destruct (decide (c ∈ mask_cores (op_mask o))) as [Hin|Hout].
      * rewrite (Hall c) in Hto by (by apply list_elem_of_further). destruct Hto as [Hf [[_ Hl]|(from & b' & Hl & ->)]]; [done|].
        split; [done|]. rewrite Hl. right. by eexists _, _.
      * rewrite Hst, (oi_only _ _ _ _ _ _ _ Hinv) in Hto by done. done.
    + destruct Hro as (new & Hl & Hf & Hnew). exists new. split_and!; [by etransitivity; [exact Hr|]|done|]. rewrite Hnew.
      rewrite (filter_stage_all has_run st'); [done|]. intros c Hc. by rewrite (Hall c) by (by apply list_elem_of_further).
Qed.
End own.

Definition under_way (A : nat) (o : remote_op) (p : op_loc) (s : smp) : Prop :=
  core_at s A = l_op o p ∧ (prep_inv A o p s ∨ ∃ sense0 st g, op_inv A o p sense0 st g s).
Lemma under_way_own A o p s s' : (A < CONFIG_MAX_NUM_NODES)%nat → under_way A o p s → core_step A s s' →
  (∃ p', under_way A o p' s') ∨ (core_at s' A = l_held ∧ quiet s' ∧ finished o s').
Proof.
  intros HA [Hat Hinv] Hs. pose proof (core_step_op _ _ _ _ _ Hs Hat) as Hnext. destruct Hinv as [Hprep|(sense0 & st & g & Hinv)].
  - left. destruct p; try (by destruct Hprep as (_ & _ & _ & _ & [])).
    + exists o_total. split; [rewrite Hnext; apply goto_here|]. left. by eapply prep_args.
    + exists (o_flag (op_mask o) []). split; [rewrite Hnext; apply goto_here|]. right. eexists _, _, _. by eapply prep_total.
  - pose proof (oi_caller _ _ _ _ _ _ _ Hinv) as Hc. destruct p as [| |m tcs|[|t tcs]|b].
    + done.
    + done.
    + left. destruct Hnext as [[-> ->]|[Hm ->]].
      * exists (o_send tcs). split; [apply goto_here|]. right. exists sense0, st, g. apply (op_inv_goto _ _ s _ (o_flag 0 tcs)); try done.
        destruct Hc as (HstA & _ & Hc). split; [done|]. intros c Hin Hst. assert (c ∈ mask_cores 0) as H0 by (rewrite Hc; done).
        rewrite mask_cores_0 in H0. by apply not_elem_of_nil in H0.
      * eexists. split; [apply goto_here|]. right. eexists _, _, _. by eapply op_inv_flag.
    + left. exists (o_wait b_cores). rewrite Hnext. split; [apply goto_here|]. right. destruct Hc as [HstA Hc].
      exists sense0, st, g. apply (op_inv_goto _ _ s _ (o_send [])); try done. split; [rewrite HstA; by left|done].
    + left. exists (o_send tcs). rewrite Hnext. split; [apply goto_here|]. right. exists sense0, st, g. by apply (op_inv_goto _ _ s _ (o_send (t :: tcs))).
    + pose proof (op_inv_caller _ _ _ _ _ _ _ _ Hinv Hnext) as Hw. simpl in Hnext. destruct (fst (ipi_wait_step b s)) as [b'|].
      * left. exists (o_wait b'). split; [rewrite Hnext; apply goto_here|]. right. destruct Hw as (st' & g' & ?). by eexists _, _, _.
      * right. split; [rewrite Hnext; apply goto_here|done].
Qed.

Lemma op_inv_exclusive A o p sense0 st g s cpu : op_inv A o p sense0 st g s → (cpu < CONFIG_MAX_NUM_NODES)%nat → cpu ≠ A →
  ∀ o' p', core_at s cpu ≠ l_op o' p'.
Proof.
  intros Hinv Hc Hne o' p' Hat. pose proof (oi_target _ _ _ _ _ _ _ Hinv cpu Hc Hne) as Ht. unfold target_ok in Ht. rewrite Hat in Ht.
  destruct (st cpu); try naive_solver.
  - by destruct (idle_loc_busy _ (proj2 Ht)).
  - destruct Ht as [_ [Hi|[]]]; by destruct (idle_loc_busy _ Hi).
  - destruct Ht as [_ [[_ Hi]|(? & ? & ? & _)]]; [by destruct (idle_loc_busy _ Hi)|done].
Qed.
Lemma holder_unique s c c' : smp_reachable s → (c < CONFIG_MAX_NUM_NODES)%nat → (c' < CONFIG_MAX_NUM_NODES)%nat →
  class_at s c = c_holding → class_at s c' = c_holding → c = c'.
Proof.
  intros (free & a & _ & Hs)%clh_sim_reachable Hc Hc' H1 H2.
  apply (sim_taken _ _ _ Hs) in H1 as [_ H1]; [|done]. apply (sim_taken _ _ _ Hs) in H2 as [_ H2]; [|done]. congruence.
Qed.
(** The steps of the others while a call is under way. *)
Lemma under_way_other A o p s s' cpu : smp_reachable s → (A < CONFIG_MAX_NUM_NODES)%nat → (cpu < CONFIG_MAX_NUM_NODES)%nat → cpu ≠ A →
  under_way A o p s → core_step cpu s s' → under_way A o p s'.
Proof.
  intros Hreach HA Hcpu Hne [Hat Hinv] Hs. pose proof (core_step_frame _ _ _ A Hs (not_eq_sym Hne)) as HatA.
  assert (class_at s cpu ≠ c_holding) as Hcl.
  { intros Hcl. apply Hne. apply (holder_unique s); try done. unfold class_at. by rewrite Hat. }
  destruct (core_step_view _ _ _ Hs) as [Ho|[Hb|(o' & p' & Hat')]].
  - split; [by rewrite HatA|]. destruct Hinv as [(Hm & Hc & Hn & Hr & Hp)|(sense0 & st & g & Hinv)]; [left|right].
    + destruct (Hc cpu Hcpu) as [Hf Hi]. destruct (idle_other_step cpu s s' (Hi Hne) Hf Ho) as [(Hn' & Hi' & Hr') Hidle].
      split_and!; rewrite ?Hi', ?Hr'; try done.
      intros c Hlt. rewrite Hn'. split; [by apply Hc|]. intros HcA.
      destruct (decide (c = cpu)) as [->|Hd]; [done|]. rewrite (core_step_frame _ _ _ c Hs Hd). by apply Hc.
    + exists sense0. apply (op_inv_other A o p sense0 st g s s' cpu); try done. intros c Hd. by apply (core_step_frame _ _ _ c Hs).
  - destruct Hb as (func & args & mask & Hl & _). destruct Hcl. unfold class_at. by rewrite Hl.
  - destruct Hcl. unfold class_at. by rewrite Hat'.
Qed.
Lemma quiet_step s s' cpu : (cpu < CONFIG_MAX_NUM_NODES)%nat → quiet s → core_step cpu s s' → quiet s' ∨ ∃ o, under_way cpu o o_args s'.
Proof.
  intros Hcpu [Hc Hn] Hs. destruct (Hc cpu Hcpu) as [Hf Hi]. destruct (core_step_view _ _ _ Hs) as [Ho|[Hb|(o & p & Hat)]].
  - left. destruct (idle_other_step cpu s s' Hi Hf Ho) as [(Hn' & Hi' & Hr') Hidle]. split; [|by rewrite Hi'].
    intros c Hlt. rewrite Hn'. split; [by apply Hc|].
    destruct (decide (c = cpu)) as [->|Hd]; [done|]. rewrite (core_step_frame _ _ _ c Hs Hd). by apply Hc.
  - right. destruct Hb as (func & args & mask & Hl & Hm & (Hn' & Hi' & Hr') & Hat). eexists. split; [done|]. left.
    split_and!; [by apply mask_without_ok| |by rewrite Hi'|done|done].
    intros c Hlt. rewrite Hn'. split; [by apply Hc|]. intros Hd. rewrite (core_step_frame _ _ _ c Hs Hd). by apply Hc.
  - rewrite Hat in Hi. by destruct (idle_loc_busy _ Hi).
Qed.
Lemma ipi_inv_reachable s : smp_reachable s → quiet s ∨ ∃ A o p, (A < CONFIG_MAX_NUM_NODES)%nat ∧ under_way A o p s.
Proof.
  revert s. apply (rtc_ind_r (R := smp_step) (λ s, quiet s ∨ ∃ A o p, (A < CONFIG_MAX_NUM_NODES)%nat ∧ under_way A o p s)).
  - left. split; [|done]. intros c _. split; [done|by left].
  - intros s s' Hr (cpu & Hcpu & Hs) IH.
    destruct IH as [Hq|(A & o & p & HA & Hu)].
    + destruct (quiet_step s s' cpu Hcpu Hq Hs) as [?|[o Ho]]; [by left|]. right. by exists cpu, o, o_args.
    + destruct (decide (cpu = A)) as [->|Hne].
      * destruct (under_way_own A o p s s' HA Hu Hs) as [[p' Hp]|(_ & Hq & _)]; [right; by exists A, o, p'|by left].
      * right. exists A, o, p. split; [done|]. by apply (under_way_other A o p s s' cpu).
Qed.

Lemma op_under_way A o p s : smp_reachable s → (A < CONFIG_MAX_NUM_NODES)%nat → core_at s A = l_op o p → under_way A o p s.
Proof.
  intros Hr HA Hat. destruct (ipi_inv_reachable s Hr) as [[Hq _]|(A' & o' & p' & HA' & Hu)].
  { destruct (Hq A HA) as [_ Hi]. rewrite Hat in Hi. by destruct (idle_loc_busy _ Hi). }
  assert (A = A') as <-.
  { apply (holder_unique s); try done; unfold class_at; [by rewrite Hat|by rewrite (proj1 Hu)]. }
  assert (o' = o ∧ p' = p) as [-> ->] by (destruct Hu as [Hat' _]; rewrite Hat in Hat'; by simplify_eq). done.
Qed.
(** The step with which [doRemoteMaskOp] returns. *)
Lemma op_returns A o p s s' : smp_reachable s → (A < CONFIG_MAX_NUM_NODES)%nat → core_at s A = l_op o p → core_at s' A = l_held →
  smp_step s s' → core_step A s s' ∧ quiet s' ∧ finished o s'.
Proof.
  intros Hr HA Hat Hheld (cpu & Hcpu & Hs). pose proof (op_under_way A o p s Hr HA Hat) as Hu.
  assert (cpu = A) as -> by (destruct (decide (cpu = A)) as [|Hne]; [done|]; rewrite (core_step_frame _ _ _ A Hs) in Hheld by auto; congruence).
  split; [done|]. destruct (under_way_own A o p s s' HA Hu Hs) as [[p' [Hp _]]|(_ & Hq & Hf)]; [congruence|done].
Qed.

(** C9: A remote call returns when it is done. Whatever the interleaving of the cores, when the
    core that holds the kernel lock returns from [doRemoteMaskOp], each core of the mask has
    handled the call exactly once since it began, and no core outside of the mask has; those
    that handled it while they waited for the lock ran the function with the arguments given.
    Every core of the mask has cleared its flag and no core is on its way to a call or into
    the barrier, whose count is zero: it is ready for the next call. A core may still be on
    its way out: at the loop that ends [ipi_wait], or in an interrupt that will find no call
    pending. (A core that handles the call from an interrupt may run an older one:
    [remote_call_stale].) *)
Theorem doRemoteMaskOp_ok A o p s s' : smp_reachable s → smp_step s s' → (A < CONFIG_MAX_NUM_NODES)%nat →
  core_at s A = l_op o p → core_at s' A = l_held → finished o s' ∧ quiet s'.
Proof. intros Hr Hs HA Hat Hheld. by destruct (op_returns A o p s s' Hr HA Hat Hheld Hs) as (_ & ? & ?). Qed.

(** ** Calls handled from an interrupt

    A core that takes an interrupt reads the call before it looks whether one is pending for
    it. What it reads is the call that is made, unless it was interrupted before that. *)
Definition reads_call (l : core_loc) (call : IpiRemoteCall_t) (args : list Z) : Prop :=
  l = l_check in_interrupt call args ∨ l = l_call in_interrupt call args.
(** Nothing is left over of an earlier interrupt at the other cores. *)
Definition no_left_over (A : nat) (s : smp) : Prop := ∀ c, (c < CONFIG_MAX_NUM_NODES)%nat → c ≠ A →
  ipiIrq s c ≠ irq_remote_call_ipi ∧ core_at s c ≠ l_args in_interrupt ∧ ∀ call args, core_at s c ≠ l_check in_interrupt call args.
(** A step during the call [o] of [A]. *)
Definition op_step (A : nat) (o : remote_op) (s s' : smp) : Prop := smp_step s s' ∧ ∃ p, core_at s' A = l_op o p.

Lemma ack_irq cpu s c : ipiIrq (set_ipi_irq cpu no_ipi s) c = ipiIrq s c ∨ ipiIrq (set_ipi_irq cpu no_ipi s) c = no_ipi.
Proof. simpl. destruct (decide (c = cpu)) as [->|Hne]; [right; apply fn_lookup_insert|left; by apply fn_lookup_insert_ne]. Qed.
(** A step as the interrupts of a core that does not hold the lock see it. *)
Lemma core_step_interrupt cpu s s' : core_step cpu s s' → class_at s cpu ≠ c_holding →
  (∀ c, ipiIrq s' c = ipiIrq s c ∨ ipiIrq s' c = no_ipi) ∧
  (core_at s' cpu = l_args in_interrupt → ipiIrq s cpu = irq_remote_call_ipi) ∧
  (∀ call args, core_at s' cpu = l_check in_interrupt call args →
    core_at s cpu = l_args in_interrupt ∧ call = remoteCall (ipi s) ∧ args = ipi_args (ipi s)) ∧
  (∀ call args, core_at s' cpu = l_call in_interrupt call args → core_at s cpu = l_check in_interrupt call args) ∧
  (ran s' = ran s ∨ ∃ from call args, core_at s cpu = l_call from call args ∧ ran s' = RemoteRun cpu from call args :: ran s).
Proof.
  intros Hs Hc. unfold class_at in Hc. pose proof (ack_irq cpu s).
  destruct Hs; rewrite ?goto_here; match goal with H : core_at _ cpu = _ |- _ => rewrite H in Hc |- * end; try done;
    try (split_and!; [auto|done|naive_solver|naive_solver|eauto 6]; fail).
  - destruct (watch_granted cpu s); (split_and!; [auto|done|naive_solver|naive_solver|auto]).
  - destruct (clh_is_ipi_pending cpu s); (split_and!; [auto|done|naive_solver|naive_solver|auto]).
  - destruct (clh_is_ipi_pending cpu s), from; (split_and!; [auto|done|naive_solver|naive_solver|auto]).
  - destruct (ipi_wait_step_frame b s) as (_ & _ & Hr).
    assert (ipiIrq (snd (ipi_wait_step b s)) = ipiIrq s) as Hi by by destruct b.
    destruct (fst (ipi_wait_step b s)), from; (split_and!; [intros; left; by rewrite <- Hi|done|naive_solver|naive_solver|by left]).
Qed.
Lemma op_next_frame cpu o p s s' : op_next cpu o p s s' → ran s' = ran s ∧ core_at s' cpu ≠ l_op o o_args.
Proof.
  destruct p as [| |m tcs|[|t tcs]|b]; simpl; try (intros ->; by rewrite goto_here).
  - intros [[_ ->]|[_ ->]]; by rewrite goto_here.
  - intros ->. destruct (ipi_wait_step_frame b s) as (_ & _ & Hr). rewrite goto_here. by destruct (fst (ipi_wait_step b s)).
Qed.
Lemma op_next_same cpu o p s s' o' p' : op_next cpu o p s s' → core_at s' cpu = l_op o' p' → o' = o.
Proof.
  destruct p as [| |m tcs|[|t tcs]|b]; simpl; try (intros ->; rewrite goto_here; by intros [= ->]).
  - by intros [[_ ->]|[_ ->]]; rewrite goto_here; intros [= ->].
  - intros ->. rewrite goto_here. destruct (fst (ipi_wait_step b s)); [by intros [= ->]|done].
Qed.
Lemma under_way_call A o p s : under_way A o p s → p = o_args ∨ remoteCall (ipi s) = op_call o ∧ ipi_args (ipi s) = op_args o.
Proof.
  intros [_ [(_ & _ & _ & _ & Hp)|(sense0 & st & g & Hinv)]]; [destruct p; by auto|]. right.
  by destruct (oi_ipi _ _ _ _ _ _ _ Hinv) as (? & ? & _).
Qed.

(** While the call [o] of [A] is made, what is read and run from an interrupt is that call. *)
Definition right_run (o : remote_op) (r : remote_run) : Prop := run_func r = op_call o ∧ run_args r = op_args o.
Record exact_inv (A : nat) (o : remote_op) (p : op_loc) (s : smp) : Prop := {
  ex_left_over : p = o_args → no_left_over A s;
  ex_reads : ∀ c call args, (c < CONFIG_MAX_NUM_NODES)%nat → c ≠ A → reads_call (core_at s c) call args →
    call = op_call o ∧ args = op_args o;
  ex_ran : ∃ new, ran s = new ++ op_before o ∧ Forall (λ r, run_from r = in_interrupt → right_run o r) new }.

Lemma exact_own A o p p' s s' : exact_inv A o p s → core_step A s s' → core_at s A = l_op o p → core_at s' A = l_op o p' → exact_inv A o p' s'.
Proof.
  intros [Hl Hc Hr] Hs Hat Hat'. destruct (op_next_frame _ _ _ _ _ (core_step_op _ _ _ _ _ Hs Hat)) as [Hran Hne]. split.
  - intros ->. by rewrite Hat' in Hne.
  - intros c call args Hlt HcA. rewrite (core_step_frame _ _ _ c Hs HcA). by apply Hc.
  - by rewrite Hran.
Qed.
Lemma exact_other A o p s s' cpu : smp_reachable s → (A < CONFIG_MAX_NUM_NODES)%nat → (cpu < CONFIG_MAX_NUM_NODES)%nat → cpu ≠ A →
  under_way A o p s → exact_inv A o p s → core_step cpu s s' → exact_inv A o p s'.
Proof.
  intros Hreach HA Hcpu Hne Hu [Hl Hc Hr] Hs.
  assert (class_at s cpu ≠ c_holding) as Hcl.
  { intros Hcl. apply Hne. apply (holder_unique s); try done. unfold class_at. by rewrite (proj1 Hu). }
  destruct (core_step_interrupt _ _ _ Hs Hcl) as (Hirq & Hargs & Hcheck & Hcall & Hran). split.
  - intros ->. specialize (Hl eq_refl). destruct (Hl cpu Hcpu Hne) as (Hi' & Ha' & _). intros c Hlt HcA.
    destruct (Hl c Hlt HcA) as (Hi & Ha & Hk). split; [by destruct (Hirq c) as [->| ->]|].
    destruct (decide (c = cpu)) as [->|Hd]; [|by rewrite (core_step_frame _ _ _ c Hs Hd)].
    split; [by intros ?%Hargs|]. by intros call args [? _]%Hcheck.
  - intros c call args Hlt HcA. destruct (decide (c = cpu)) as [->|Hd]; [|rewrite (core_step_frame _ _ _ c Hs Hd); by apply Hc].
    intros [Hat|Hat]; [|apply (Hc cpu); [done..|left; by apply Hcall]]. apply Hcheck in Hat as (Hat & -> & ->).
    destruct (under_way_call _ _ _ _ Hu) as [->|]; [|done]. by destruct (Hl eq_refl cpu Hcpu Hne) as (_ & ? & _).
  - destruct Hr as (new & Hnew & Hf). destruct Hran as [->|(from & call & args & Hat & ->)]; [by exists new|].
    exists (RemoteRun cpu from call args :: new). split; [by rewrite Hnew|]. constructor; [|done]. simpl. intros ->.
    apply (Hc cpu call args); [done..|by right].
Qed.
Lemma exact_start A o s : smp_reachable s → (A < CONFIG_MAX_NUM_NODES)%nat → core_at s A = l_op o o_args → no_left_over A s →
  exact_inv A o o_args s.
Proof.
  intros Hr HA Hat Hn. destruct (op_under_way _ _ _ _ Hr HA Hat) as [_ [(_ & Hi & _ & Hran & _)|(sense0 & st & g & Hinv)]];
    [|by destruct (oi_caller _ _ _ _ _ _ _ Hinv)].
  split; [done| |by exists []]. intros c call args Hlt HcA [Hc|Hc]; [by destruct (Hn c Hlt HcA) as (_ & _ & ?); naive_solver|].
  destruct (Hi c Hlt) as [_ Hidle]. specialize (Hidle HcA). rewrite Hc in Hidle. by destruct (idle_loc_busy _ Hidle).
Qed.
Lemma exact_steps A o s0 s : smp_reachable s0 → (A < CONFIG_MAX_NUM_NODES)%nat → core_at s0 A = l_op o o_args → no_left_over A s0 →
  rtc (op_step A o) s0 s → smp_reachable s ∧ ∃ p, core_at s A = l_op o p ∧ exact_inv A o p s.
Proof.
  intros Hr HA Hat Hn. revert s. apply rtc_ind_r.
  - split; [done|]. exists o_args. split; [done|by apply exact_start].
  - intros s s' _ [(cpu & Hcpu & Hs) [p' Hp']] (Hreach & p & Hp & Hinv). split; [eapply rtc_r; [exact Hreach|by exists cpu]|].
    exists p'. split; [done|]. destruct (decide (cpu = A)) as [->|Hne]; [by eapply exact_own|].
    pose proof (core_step_frame _ _ _ A Hs (not_eq_sym Hne)) as Hsame. assert (p' = p) as -> by congruence.
    apply (exact_other A o p s s' cpu); try done. by apply op_under_way.
Qed.

(** C10: A remote call runs the function that was asked for. If, when the call begins, no other
    core has an interrupt of an earlier remote call left over (recorded, or taken but still on
    its way to look whether a call is pending), then when [doRemoteMaskOp] returns, what has
    been run since it began is this: each core of the mask has run the function of the call
    with its arguments, once, whether it was waiting for the lock or was interrupted; nothing
    else has been run. (Without the condition this fails: [remote_call_stale].) *)
Theorem doRemoteMaskOp_exact A o s0 s s' : smp_reachable s0 → (A < CONFIG_MAX_NUM_NODES)%nat → core_at s0 A = l_op o o_args →
  no_left_over A s0 → rtc (op_step A o) s0 s → smp_step s s' → core_at s' A = l_held →
  ∃ new, ran s' = new ++ op_before o ∧ map run_core new ≡ₚ mask_cores (op_mask o) ∧ Forall (right_run o) new.
Proof.
  intros Hr HA Hat Hn Hsteps Hs Hheld. destruct (exact_steps A o s0 s Hr HA Hat Hn Hsteps) as (Hreach & p & Hp & [_ _ (new & Hnew & Hf)]).
  destruct (op_returns A o p s s' Hreach HA Hp Hheld Hs) as (Hcs & _ & (new' & Hnew' & Hentry & Hcores)).
  rewrite (proj1 (op_next_frame _ _ _ _ _ (core_step_op _ _ _ _ _ Hcs Hp))), Hnew in Hnew' |- *. apply app_inv_tail in Hnew' as <-.
  exists new. split_and!; try done. apply Forall_forall. intros r Hin. rewrite Forall_forall in Hf, Hentry.
  specialize (Hf r Hin). specialize (Hentry r Hin). unfold entry_ok in Hentry. destruct (run_from r) eqn:Hfrom; [done|by apply Hf].
Qed.
(** A run during a remote call of [A]. *)
Fixpoint op_run (A : nat) (l : list (nat * core_choice)) (s : smp) : option smp :=
  match l with
  | [] => Some s
  | (cpu, ch) :: l' => if (cpu <? CONFIG_MAX_NUM_NODES)%nat
    then core_next cpu ch s ≫= λ t, match core_at t A with l_op _ _ => op_run A l' t | _ => None end else None
  end.
Lemma op_run_steps A o l p s s' : core_at s A = l_op o p → op_run A l s = Some s' → rtc (op_step A o) s s'.
Proof.
  revert p s. induction l as [|[cpu ch] l IH]; intros p s Hat Hl; simpl in Hl; [by simplify_eq|].
  destruct (Nat.ltb_spec cpu CONFIG_MAX_NUM_NODES) as [Hlt|]; [|done]. apply bind_Some in Hl as (t & Hn%core_next_sound & Hl).
  destruct (core_at t A) as [| | | | | | | | | | | | |o' p'|] eqn:Ht; try done.
  assert (o' = o) as ->.
  { destruct (decide (cpu = A)) as [->|Hne]; [by eapply op_next_same, Ht; eapply core_step_op|].
    rewrite (core_step_frame _ _ _ A Hn) in Ht by auto. congruence. }
  eapply rtc_l; [split; [by exists cpu|by exists p']|]. by eapply IH.
Qed.
End invariant.

(** ** Runs on two cores *)
Lemma two_fit : (1 ≤ 2 ≤ 64)%nat.
Proof. lia. Qed.
#[local] Instance two_cores : SmpPlatform := {| CONFIG_MAX_NUM_NODES := 2; nodes_fit := two_fit |}.
Definition go (cpu n : nat) : list (nat * core_choice) := replicate n (cpu, ch_go).
(** The state after a run, and after one more step of the first core. *)
Definition state_after (l : list (nat * core_choice)) : smp := default clh_lock_init (smp_run l clh_lock_init).
Definition one_more (l : list (nat * core_choice)) : smp := default (state_after l) (core_next 0 ch_go (state_after l)).
Lemma state_after_reachable l : smp_reachable (state_after l).
Proof.
  unfold state_after. destruct (smp_run l clh_lock_init) as [s|] eqn:Hs; simpl; [by eapply smp_run_steps|apply rtc_refl].
Qed.
Lemma one_more_step l : smp_step (state_after l) (one_more l).
Proof. exists 0%nat. split; [simpl; lia|]. by apply (core_next_sound _ ch_go). Qed.

(** The first core takes the lock and stalls the second, which is interrupted. *)
Definition run_op : list (nat * core_choice) :=
  go 0 3 ++ [(0%nat, ch_op IpiRemoteCall_Stall [7] 2)] ++ go 0 6 ++ [(1%nat, ch_interrupt)] ++ go 1 8 ++ go 0 5.
Definition stall_op : remote_op := RemoteOp IpiRemoteCall_Stall [7] 2 [].
Lemma doRemoteMaskOp_witness : (finished stall_op (one_more run_op) ∧ quiet (one_more run_op)) ∧ run_core <$> ran (one_more run_op) = [1%nat].
Proof.
  split; [|by vm_compute].
  apply (doRemoteMaskOp_ok 0 stall_op (o_wait (b_loop 0)) (state_after run_op)); [apply state_after_reachable|apply one_more_step|simpl; lia|by vm_compute|by vm_compute].
Defined.

(** The second core polls a first call while it waits for the lock, before the first core has
    recorded the interrupt for it; once it has had the lock and left the kernel it takes the
    interrupt that is left over, and looks at the arguments just before the next call. *)
Definition run_left_over (f1 : IpiRemoteCall_t) (a1 : list Z) : list (nat * core_choice) :=
  go 0 3 ++ go 1 3 ++ [(0%nat, ch_op f1 a1 2)] ++ go 0 4 ++ go 1 9 ++ go 0 8 ++ go 1 1 ++ go 0 2 ++
  go 1 3.
Definition run_stale f1 a1 f2 a2 : list (nat * core_choice) :=
  run_left_over f1 a1 ++ [(1%nat, ch_interrupt)] ++ go 1 1 ++ go 0 3 ++ [(0%nat, ch_op f2 a2 2)] ++ go 0 4 ++ go 1 8 ++ go 0 7.
(** A core that takes a left over interrupt reads the call and its arguments before it looks
    whether a call is pending, and so can run an earlier call in place of the one that is made:
    the second core has run [f1] with [a1] already, and when [doRemoteMaskOp] returns from a
    call of [f2] with [a2] to it, it has run just [f1] with [a1] again. *)
Lemma remote_call_stale f1 a1 f2 a2 : ∃ s s' o p, smp_reachable s ∧ smp_step s s' ∧ core_at s 0 = l_op o p ∧ core_at s' 0 = l_held ∧
  op_call o = f2 ∧ op_args o = a2 ∧ op_before o = [RemoteRun 1 in_acquire f1 a1] ∧
  ran s' = RemoteRun 1 in_interrupt f1 a1 :: op_before o.
Proof.
  set (l := run_stale f1 a1 f2 a2).
  exists (state_after l), (one_more l), (RemoteOp f2 a2 2 [RemoteRun 1 in_acquire f1 a1]), (o_wait (b_loop 1)).
  split; [apply state_after_reachable|]. split; [apply one_more_step|]. by vm_compute.
Qed.
(** The assertion of [ipi_send_target] fails on such a left over interrupt. *)
Definition run_assert : list (nat * core_choice) :=
  run_left_over IpiRemoteCall_switchFpuOwner [5] ++ go 0 3 ++ [(0%nat, ch_op IpiRemoteCall_Stall [] 2)] ++ go 0 4.
Lemma ipi_send_assert_fails : ∃ s o, smp_reachable s ∧ core_at s 0 = l_op o (o_send [1%nat]) ∧ ipi_send_target_ok 1 s = false.
Proof.
  exists (state_after run_assert), (RemoteOp IpiRemoteCall_Stall [] 2 [RemoteRun 1 in_acquire IpiRemoteCall_switchFpuOwner [5]]).
  split; [apply state_after_reachable|]. by vm_compute.
Qed.
(** The first core gets the lock, the second comes to the line, the first passes the lock on
    and comes to the line again: the second is next. *)
Definition run_lock : list (nat * core_choice) := go 0 3 ++ go 1 2 ++ go 0 4.
Lemma clh_lock_witness : lock_run [0%nat; 1%nat; 0%nat] [0%nat] (state_after run_lock) ∧
  ∃ waiting, [0%nat; 1%nat; 0%nat] = [0%nat] ++ waiting ∧ NoDup waiting ∧ head waiting = Some 1%nat ∧
    watch_granted 1 (state_after run_lock) = true.
Proof.
  assert (lock_run [0%nat; 1%nat; 0%nat] [0%nat] (state_after run_lock)) as Hr.
  { apply (lock_log_run run_lock [] [] clh_lock_init); [constructor|by vm_compute]. }
  split; [exact Hr|]. destruct (clh_lock_fifo _ _ _ Hr) as (w & Hw & Hnd & _ & _ & Hg). exists w.
  assert (head w = Some 1%nat) as Hh by (by injection Hw as <-).
  split; [exact Hw|]. split; [exact Hnd|]. split; [exact Hh|]. apply Hg; [|exact Hh].
  intros c Hc. simpl in Hc. destruct c as [|[|c]]; [by vm_compute|by vm_compute|lia].
Defined.

(** In [run_op] the second core is interrupted with nothing left over. *)
Definition op_start : smp := state_after (go 0 3 ++ [(0%nat, ch_op IpiRemoteCall_Stall [7] 2)]).
Lemma doRemoteMaskOp_exact_witness : no_left_over 0 op_start ∧
  ∃ new, ran (one_more run_op) = new ++ [] ∧ map run_core new ≡ₚ mask_cores 2 ∧ Forall (right_run stall_op) new.
Proof.
  assert (no_left_over 0 op_start) as Hn.
  { intros c Hc Hne. simpl in Hc. assert (c = 1%nat) as -> by lia. by vm_compute. }
  split; [exact Hn|].
  apply (doRemoteMaskOp_exact 0 stall_op op_start (state_after run_op)); [apply state_after_reachable|simpl; lia|by vm_compute|exact Hn| |apply one_more_step|by vm_compute].
  apply (op_run_steps 0 stall_op (go 0 6 ++ [(1%nat, ch_interrupt)] ++ go 1 8 ++ go 0 5) o_args); by vm_compute.
Defined.
